(* ===== verification/_CoqProject ===== *)
-Q . S2P
Prelude.v
Bytes.v
Errors.v
Externals.v
Keys.v
Note.v
Borsh.v
VaultClient.v
VaultProgram.v
MatchingEngineClient.v
ErClient.v
MatchingProgram.v
Settlement.v
SettleProgram.v
BatchResults.v
Merkle.v
InclusionTree.v
MerkleShadow.v
VaultTree.v
Client.v
Deposit.v
VaultState.v
Withdraw.v
Session.v
Orders.v
DecimalText.v
Groth16.v
WebProver.v
LeafHistory.v
Decimals.v
DemoText.v
JsonText.v
DemoKeys.v
DemoChain.v
Auction.v
RunBatch.v
AccountTypes.v
Routes.v
WalletRoutes.v
TradeSettle.v
MarketRound.v
Confirmed.v
OrderRoutes.v
ServerKeys.v
LiveFlow.v
Identity.v
TradeWithdraw.v
DappSession.v
PrivatePanel.v
TradePanel.v
WithdrawPanel.v
IdentityPanel.v
