(* ===== verification/Prelude.v ===== *)
(** * Nyx Darkpool: a verification development

    Nyx is a dark pool on Solana.  Traders deposit tokens into a vault program,
    which keeps a Merkle tree of note commitments; orders go to a matching engine
    inside an enclave (an "ephemeral rollup"); its matches settle in the vault,
    and the new notes are withdrawn with a Groth16 proof.  The repository's
    TypeScript is an SDK ([packages/sdk/src]) and a demo application
    ([apps/demo/src]); the two programs they talk to are Rust
    ([programs/vault], [programs/matching_engine]).

    ** Parts and files

    Foundations.
    - [Prelude]: slices, notations, tactics, hints.  [Bytes]: bytes, little- and
      big-endian integers, [DataView] reads.  [Errors]: [DarkPoolError] with its
      stages, and the two monads the model is written in, [res] for synchronous
      code that may throw and [M S] for [async] code over a world [S].
    - [Externals]: the code the repository only calls ([node:crypto], Poseidon,
      web3.js addresses), as classes of operations with a class of laws and an
      instance that satisfies them ([Toy]).
    - [Borsh]: what Anchor does before a handler runs: discriminators, argument
      parsing, account constraints; [accepted_as] says what an instruction means
      to a program.

    The SDK.
    - [Keys], [Note]: key derivation, note commitments, nullifiers
      ([keys/*.ts], [utxo/note.ts]).
    - [VaultClient], [MatchingEngineClient], [ErClient]: instruction builders
      ([idl/*.ts]); [Settlement]: the settlement payload, its hash, the signature
      instruction, the event decoder ([settlement/*.ts]).
    - [BatchResults], [InclusionTree]: the account of match results and the
      SHA-256 inclusion tree ([batch/inclusion-proof.ts]).
    - [Client], [Deposit], [Withdraw]: the client object and its pipelines
      ([client.ts], [utxo/*.ts]); the relation of the VALID_SPEND circuit.
    - [Session], [Orders]: the enclave session and the orders ([per/*.ts],
      [orders/*.ts]); [Groth16], [DecimalText]: proofs as bytes ([zk/*.ts]).

    The programs, as far as the TypeScript depends on them.
    - [VaultProgram], [MatchingProgram], [SettleProgram]: entry points, account
      constraints, the settlement's signature check.
    - [VaultTree]: the incremental Merkle tree and its ring of roots
      ([merkle.rs], [state.rs]).  [VaultState]: every handler of the vault as a
      function on its state, the transition relation [vault_step], invariants.
    - [AccountTypes]: the vault's account keeps its layout under all of them.

    The demo.
    - [Merkle], [MerkleShadow]: hash trees, and the client's shadow of the
      vault's tree ([lib/dapp/merkle-shadow.ts]; [merkle-witness.ts] is in
      [VaultTree]).  [LeafHistory]: the replay of the vault's leaves out of its
      transaction history ([vault-leaf-history.ts]).
    - [Decimals], [DemoText], [DemoKeys], [DemoChain]: amounts, hex and JSON
      forms, secrets of settlement notes, pre-flights ([lib/dapp/*.ts]).
      [JsonText]: [JSON.stringify] and [JSON.parse] on the values the demo stores.
    - [WebProver]: the page and its prover worker as a transition system.
    - [TradeSettle]: the settlement of a match on L1 ([run-trade-l1-settle.ts]).
    - [Routes], [WalletRoutes], [TradeWithdraw]: the request handlers of the
      wallet ([app/api/dapp/*/route.ts]).
    - [Confirmed]: which signatures a computation may claim, on nodes that log
      what they confirm.  [OrderRoutes]: the handlers of the trade flow
      ([init-slot], [build-submit-order], [counter-and-match]).
    - [ServerKeys]: the server's configuration and keys, from the environment or
      files ([demo-devnet.ts]).  [Identity]: the handlers [derive-identity],
      [register-wallet], [airdrop] and [balances], and the circuit
      VALID_WALLET_CREATE.  [LiveFlow]: the route of the live panel, its state
      file included ([live-er-flow/route.ts]).
    - The pages.  [DappSession]: what a page can do (its wallet, its storage, the
      routes it fetches) and the session it keeps.  A panel is its state, the
      program each button runs, the guard under which the button is enabled, and
      the step relation of its clicks: [PrivatePanel]
      ([private-deposit-withdraw-panel.tsx]), [TradePanel]
      ([dapp-trade-flow-panel.tsx]), [WithdrawPanel]
      ([trade-base-withdraw-panel.tsx]), [IdentityPanel]
      ([wallet-identity-panel.tsx]).

    The matching engine's batch ([instructions/run_batch.rs]).
    - [Auction]: the clearing price ([compute_clearing_price]) and the crossing of
      the sorted books ([generate_matches]), with its abstract step relation
      [auction_run] and what a fair match is ([fair_match]).
    - [RunBatch]: the handler: order slots, oracle, circuit breaker, fee notes and
      the [BatchResults] account; a slot is looked up by its address.
    - [MarketRound]: the account as the settlement route of the demo finds it,
      and the match in the vault: the two programs and the route together.

    ** How state and operations correspond

    A TypeScript function is a Definition of its name; a method of an object is a
    function on a Record of its fields.  [Promise]-returning code acts on a world
    [S] through the operations of its parameters (an RPC connection, providers,
    [fetch]), so a theorem about it holds for every behaviour of these.  A thrown
    error is a value and keeps the effects made before it.  The handlers of the
    vault are functions [VaultState -> res VaultState]; an account is found by the
    seed that tells it from others of its kind, and the addresses of locks that
    hold lamports but no lock are part of the state ([vs_funded]), as anybody can
    send lamports there and a re-lock then fails ([funded_relock_blocks]).
    The token program of a deposit or withdrawal is the SPL Token program
    ([token_slot]).  Integers are [Z] with the
    wrap-around of their width written out ([mod U64]), [bigint]s are unbounded.

    ** What the theorems show

    - The market: the clearing price is the best uniform price, matches are fair
      and execute all of the volume, a batch without fees cannot fail, the slots
      evolve as they may, and every account stays typed ([clearing_price_optimal],
      [auction_fair], [auction_best_volume], [auction_without_fees],
      [run_batch_evolves], [run_batch_types]).  Mirrored orders match, and a round
      from orders to settled notes goes through ([mirrored_orders_match],
      [fair_match_settles], [mirrored_round_settles]).  The demo's counter order
      is such a mirror, its slot is one the engine takes, and the signatures
      reported were confirmed ([counter_order_mirrors],
      [chooseFreshSlot_correct], [counter_and_match_reports]).  The orders of the
      live route match on the rollup; its requests may overlap, and what its state
      file then holds is decided by the order of their reads and writes: an order
      is lost from the file exactly when the other request read before it was
      written and writes after, so never the one written last
      ([live_flow_matches], [interleaved_submits_recorded],
      [overlap_loses_order]).
    - The server's keys: every source of a key and their precedence
      ([loadDemoKeyring_correct]); what is written as JSON is read back
      ([JSON_roundtrip]).
    - The builders of the SDK produce exactly what the programs parse
      ([vault_builders_accepted], [matching_builders_accepted],
      [buildSettleIx_correct], [canonicalPayloadHash_agrees_and_binds],
      [ed25519_ix_verified]).
    - The vault: invariants of every reachable state, no double spend, what a
      settlement does, and that what the SDK reports of it is what happened
      ([settlement_effect], [no_double_spend], [reachable_invariant],
      [reachable_account]).
    - The three trees (vault, shadow, latest-leaf witness) agree with one
      specification; the replay returns the vault's own leaves
      ([append_leaf_refines], [shadow_root_correct], [collect_matches_chain]).
    - The pipelines end to end: a deposit is the chain's deposit, a withdrawal
      proves a valid spend, a trade settles and its note can be withdrawn
      ([deposit_matches_chain], [withdraw_matches_chain], [trade_settle_lands],
      [trade_note_withdrawable], [private_deposit_withdraw]).
    - The pages on top of the routes: a private deposit and withdrawal by clicks
      pays the wallet back, the two clicks of the trade panel submit orders that
      mirror each other, a traded note ends as the wallet's tokens, and the
      identity of a signature is the one registered on chain and stored
      ([private_panel_roundtrip], [trade_panel_mirrors],
      [traded_base_withdrawn], [identity_session_registers]).  What a failed
      proof leaves behind is proved beside them ([failed_proof_strands]).
    - Protocols with the enclave: orders refine an abstract protocol with one
      refresh on 401; the prover's queue answers every request once and drains.

    ** Bounds and fuel

    Loops over data are structural.  The page loop of the leaf history has one
    unit of fuel per signature still wanted, and never runs out
    ([fetchSignatures_terminates]); the poll loop of [ErClient] is bounded by its
    deadline ([waitForL1AccountChange_terminates]).  The crossing of a batch gets
    one unit more than there are orders, and each step consumes an order
    ([match_loop_total]).  The JSON reader has two units of fuel per character and
    two more, which is enough for every text [JSON.stringify] writes.  Trees have depth 20, so
    [2 ^ 20] leaves; proofs never compute with that number.

    ** Not modelled

    - The delegation and commit handlers of the matching engine, which only call
      the delegation program.
    - The Rust crypto crate beyond the note hash; snarkjs, Poseidon, SHA-2 and
      Ed25519 themselves (parameters); the wallet extension (a parameter).
    - The markup and styling of the React views, static pages, and the panel that
      smoke-tests the prover.
    - Scripts, tests, configuration. *)

From Stdlib Require Export ZArith Lia.
From Stdlib Require Export Strings.String Strings.Byte.
From stdpp Require Export base tactics numbers list strings sets pretty.


(** Hint database of the development: side conditions on lengths and bounds. *)
Create HintDb nyx.
#[export] Hint Extern 1 (_ ≤ _)%nat => lia : nyx.
#[export] Hint Extern 1 (_ < _)%nat => lia : nyx.
#[export] Hint Extern 1 (_ ≤ _)%Z => lia : nyx.
#[export] Hint Extern 1 (_ < _)%Z => lia : nyx.

Create Rewrite HintDb nyx_len.

Declare Scope nyx_scope.
Delimit Scope nyx_scope with nyx.

(** ** Slices of lists: [buf.subarray(off, off + len)] *)

Definition slice {A} (l : list A) (off len : nat) : list A := take len (drop off l).

Section slices.
Context {A : Type}.
Implicit Types l p q : list A.

Lemma length_slice l off len :
  (off + len ≤ length l)%nat → length (slice l off len) = len.
Proof. intros. unfold slice. rewrite length_take, length_drop. lia. Qed.

Lemma slice_drop l k off len : slice l (k + off) len = slice (drop k l) off len.
Proof. unfold slice. by rewrite drop_drop. Qed.

Lemma slice_0 l len : slice l 0 len = take len l.
Proof. unfold slice. by rewrite drop_0. Qed.

Lemma slice_app_l p q len : length p = len → slice (p ++ q) 0 len = p.
Proof. intros <-. by rewrite slice_0, take_app_length. Qed.

Lemma slice_all p len : length p = len → slice p 0 len = p.
Proof. intros <-. by rewrite slice_0, firstn_all. Qed.

Lemma slice_app_r p q off len n :
  length p = n → (n ≤ off)%nat → slice (p ++ q) off len = slice q (off - n) len.
Proof.
  intros <- Hle. unfold slice. rewrite drop_app_ge by lia. done.
Qed.

Lemma drop_app_r p q off n :
  length p = n → (n ≤ off)%nat → drop off (p ++ q) = drop (off - n) q.
Proof. intros <- Hle. by rewrite drop_app_ge by lia. Qed.

Lemma lookup_app_at p q off n :
  length p = n → (n ≤ off)%nat → (p ++ q) !! off = q !! (off - n)%nat.
Proof. intros <- Hle. by rewrite lookup_app_r by lia. Qed.

Lemma list_cons_inv (x y : A) p q : x :: p = y :: q → x = y ∧ p = q.
Proof. by intros [= -> ->]. Qed.

Lemma app_inj_length p1 q1 p2 q2 :
  length p1 = length p2 → p1 ++ q1 = p2 ++ q2 → p1 = p2 ∧ q1 = q2.
Proof. intros Hl Heq. by apply app_inj_1. Qed.

(** Two concatenations of pieces of pointwise equal lengths are equal only
    when the pieces are. *)
Lemma concat_inj_lengths (ls1 ls2 : list (list A)) :
  length <$> ls1 = length <$> ls2 → concat ls1 = concat ls2 → ls1 = ls2.
Proof.
  revert ls2; induction ls1 as [|p ls1 IH]; intros [|q ls2]; simpl; try done.
  intros [= Hl Hls] Heq. apply app_inj_length in Heq as [-> Heq]; [|done].
  f_equal; auto.
Qed.

Lemma length_concat_sum (ls : list (list A)) :
  length (concat ls) = sum_list (length <$> ls).
Proof. induction ls as [|p ls IH]; simpl; [done|]. rewrite length_app, IH. done. Qed.

Lemma concat_middle (ls : list (list A)) k p :
  ls !! k = Some p → concat ls = concat (take k ls) ++ p ++ concat (drop (S k) ls).
Proof. intros Hk. by rewrite <-concat_cons, <-concat_app, take_drop_middle. Qed.

(** A buffer cut into consecutive pieces of known lengths: the piece at a
    position is the slice at the sum of the lengths before it. *)
Lemma pieces_slice (ls : list (list A)) lens k p off n :
  length <$> ls = lens → ls !! k = Some p → sum_list (take k lens) = off → lens !! k = Some n →
  slice (concat ls) off n = p.
Proof.
  intros <- Hk <- Hn. rewrite list_lookup_fmap, Hk in Hn. injection Hn as <-.
  rewrite (concat_middle ls k p Hk), <-fmap_take. rewrite (slice_app_r (concat (take k ls)) _ _ _ (sum_list (length <$> take k ls)));
    [|apply length_concat_sum|lia].
  by rewrite Nat.sub_diag, slice_app_l.
Qed.

Lemma pieces_lookup (ls : list (list A)) lens k x off :
  length <$> ls = lens → ls !! k = Some [x] → sum_list (take k lens) = off →
  concat ls !! off = Some x.
Proof.
  intros <- Hk <-. rewrite (concat_middle ls k [x] Hk), <-fmap_take, <-length_concat_sum. rewrite lookup_app_r by lia. by rewrite Nat.sub_diag.
Qed.

Lemma pieces_length (ls : list (list A)) lens :
  length <$> ls = lens → length (concat ls) = sum_list lens.
Proof. intros <-. apply length_concat_sum. Qed.

End slices.

(** The last element of a subsequence is the last of the list, or before it. *)
Lemma sublist_snoc {A} (l k : list A) x y :
  l ++ [x] `sublist_of` k ++ [y] ↔ l ++ [x] `sublist_of` k ∨ y = x ∧ l `sublist_of` k.
Proof.
  split.
  - intros (l1 & l2 & E & Hl1 & Hl2)%sublist_app_r. apply sublist_cons_r in Hl2 as [->%sublist_nil_r|(l' & -> & ->%sublist_nil_r)].
    + rewrite app_nil_r in E. subst l1. by left.
    + apply app_inj_tail in E as [-> ->]. by right.
  - intros [Hl|[-> Hl]]; [by apply sublist_inserts_r|by apply sublist_app].
Qed.

(** Reads one field of a concatenation of pieces whose lengths are known:
    skips the pieces before the offset, then takes the piece at it. *)
Ltac piece_len := first [ eassumption | reflexivity | (autorewrite with nyx_len; first [eassumption | reflexivity | lia]) ].
Ltac slice_step :=
  first
    [ rewrite slice_app_l by piece_len
    | rewrite slice_all by piece_len
    | erewrite slice_app_r by first [ piece_len | simpl; lia ]; simpl Nat.sub ].

(** Case analysis on the boolean tests of the goal or of a hypothesis. *)
Ltac case_bool :=
  match goal with
  | |- context [if ?b then _ else _] => destruct b eqn:?
  end.
