(* ===== verification/Bytes.v ===== *)
(** Bytes, [Uint8Array] contents and integer encodings of the JavaScript
    runtime the sources use: byte conversion, little-endian [DataView] reads
    and writes, and the big-endian shift-and-or loops over byte arrays. *)

From S2P Require Import Prelude.

Local Open Scope Z_scope.

#[global] Instance byte_eq_dec : EqDecision byte := Byte.byte_eq_dec.
#[global] Instance byte_inhabited : Inhabited byte := populate x00.

(** A [Uint8Array] is modelled by its contents. *)
Abbreviation bytes := (list byte).

(** ** One byte *)

Definition u8_val (b : byte) : Z := Z.of_N (Byte.to_N b).

(** [ToUint8]: what storing a number into a [Uint8Array] element keeps. *)
Definition u8_of_Z (z : Z) : byte :=
  match Byte.of_N (Z.to_N (z mod 256)) with Some b => b | None => x00 end.

Lemma u8_val_range b : 0 ≤ u8_val b < 256.
Proof. unfold u8_val. pose proof (Byte.to_N_bounded b). lia. Qed.

Lemma u8_val_of_Z z : u8_val (u8_of_Z z) = z mod 256.
Proof.
  unfold u8_val, u8_of_Z. pose proof (Z.mod_pos_bound z 256 eq_refl) as Hb.
  destruct (Byte.of_N _) as [b|] eqn:E.
  - apply Byte.to_of_N in E. rewrite E. lia.
  - apply Byte.of_N_None_iff in E. lia.
Qed.

Lemma u8_of_Z_val b : u8_of_Z (u8_val b) = b.
Proof.
  unfold u8_of_Z, u8_val. rewrite Z.mod_small by apply u8_val_range.
  rewrite N2Z.id, Byte.of_to_N. done.
Qed.

#[global] Instance u8_val_inj : Inj (=) (=) u8_val.
Proof. intros a b H. by rewrite <-(u8_of_Z_val a), H, u8_of_Z_val. Qed.

Lemma u8_of_Z_mod z : u8_of_Z (z mod 256) = u8_of_Z z.
Proof. apply (inj u8_val). rewrite !u8_val_of_Z. apply Z.mod_mod. lia. Qed.

(** The byte-string literal of an ASCII string: [new TextEncoder().encode]. *)
Definition ascii_bytes (s : string) : bytes := String.list_byte_of_string s.

(** ** Little-endian *)

Fixpoint le_bytes (n : nat) (v : Z) : bytes :=
  match n with
  | O => []
  | S n => u8_of_Z v :: le_bytes n (v / 256)
  end.

Fixpoint le_val (bs : bytes) : Z :=
  match bs with
  | [] => 0
  | b :: bs => u8_val b + 256 * le_val bs
  end.

Lemma length_le_bytes n v : length (le_bytes n v) = n.
Proof. revert v; induction n; intros v; simpl; auto. Qed.

Lemma le_val_le_bytes n v : le_val (le_bytes n v) = v mod 256 ^ Z.of_nat n.
Proof.
  revert v; induction n as [|n IH]; intros v; cbn [le_bytes le_val].
  - by rewrite Z.mod_1_r.
  - rewrite IH, u8_val_of_Z, Nat2Z.inj_succ, Z.pow_succ_r by lia.
    assert (0 < 256 ^ Z.of_nat n) by (apply Z.pow_pos_nonneg; lia).
    rewrite (Z.rem_mul_r v 256) by lia. done.
Qed.

Lemma le_bytes_le_val bs n : length bs = n → le_bytes n (le_val bs) = bs.
Proof.
  intros <-. induction bs as [|b bs IH]; cbn [le_bytes le_val length]; [done|].
  pose proof (u8_val_range b). f_equal.
  - apply (inj u8_val). rewrite u8_val_of_Z. rewrite (Z.mul_comm 256), Z.mod_add by lia.
    by rewrite Z.mod_small.
  - rewrite (Z.mul_comm 256), Z.div_add, Z.div_small by lia. exact IH.
Qed.

Lemma le_val_range bs : 0 ≤ le_val bs < 256 ^ Z.of_nat (length bs).
Proof.
  rewrite <-(le_bytes_le_val bs _ eq_refl) at 1 2. rewrite le_val_le_bytes.
  apply Z.mod_pos_bound. apply Z.pow_pos_nonneg; lia.
Qed.

Lemma le_bytes_mod n v : le_bytes n (v mod 256 ^ Z.of_nat n) = le_bytes n v.
Proof.
  rewrite <-(le_val_le_bytes n v). apply le_bytes_le_val, length_le_bytes.
Qed.

Lemma le_bytes_inj n v1 v2 :
  0 ≤ v1 < 256 ^ Z.of_nat n → 0 ≤ v2 < 256 ^ Z.of_nat n →
  le_bytes n v1 = le_bytes n v2 → v1 = v2.
Proof.
  intros H1 H2 Heq. apply (f_equal le_val) in Heq.
  rewrite !le_val_le_bytes, !Z.mod_small in Heq; done.
Qed.

(** [new DataView(out.buffer).setBigUint64(0, v, true)] on a fresh 8-byte array;
    the sources define it in several files under this name. *)
Definition u64LE (v : Z) : bytes := le_bytes 8 v.
Definition u32LE (v : Z) : bytes := le_bytes 4 v.
Definition u16LE (v : Z) : bytes := le_bytes 2 v.

Definition U64 : Z := 2 ^ 64.

Lemma length_u64LE v : length (u64LE v) = 8%nat.
Proof. done. Qed.
Lemma length_u32LE v : length (u32LE v) = 4%nat.
Proof. done. Qed.
Lemma length_u16LE v : length (u16LE v) = 2%nat.
Proof. done. Qed.

Lemma le_val_u64LE v : le_val (u64LE v) = v mod U64.
Proof. apply le_val_le_bytes. Qed.

Lemma le_val_u64LE_small v : 0 ≤ v < U64 → le_val (u64LE v) = v.
Proof. intros. rewrite le_val_u64LE. by apply Z.mod_small. Qed.

(** ** Big-endian: [for (const b of x) acc = (acc << 8n) | BigInt(b)] *)

Definition be_step (acc : Z) (b : byte) : Z := Z.lor (Z.shiftl acc 8) (u8_val b).
Definition be_val (bs : bytes) : Z := foldl be_step 0 bs.

Lemma lor_shiftl_add a b n : 0 ≤ n → 0 ≤ b < 2 ^ n → Z.lor (Z.shiftl a n) b = a * 2 ^ n + b.
Proof.
  intros Hn Hb. rewrite <-Z.add_nocarry_lor; [by rewrite Z.shiftl_mul_pow2 by lia|].
  apply Z.bits_inj'. intros i Hi. rewrite Z.land_spec, Z.bits_0, Z.shiftl_spec by lia.
  destruct (decide (i < n)) as [Hlt|Hge].
  - by rewrite (Z.testbit_neg_r a) by lia.
  - apply andb_false_iff. right. rewrite <-(Z.mod_small b (2 ^ n)) by done.
    apply Z.mod_pow2_bits_high. lia.
Qed.

Lemma be_step_arith acc b : be_step acc b = acc * 256 + u8_val b.
Proof. unfold be_step. rewrite lor_shiftl_add; [done|lia|apply u8_val_range]. Qed.

Lemma foldl_be_step acc bs :
  foldl be_step acc bs = acc * 256 ^ Z.of_nat (length bs) + be_val bs.
Proof.
  unfold be_val. revert acc. induction bs as [|b bs IH]; intros acc; cbn [foldl length].
  - cbn; lia.
  - rewrite IH, (IH (be_step 0 b)), !be_step_arith, Nat2Z.inj_succ, Z.pow_succ_r by lia. ring.
Qed.

Lemma be_val_app a b : be_val (a ++ b) = be_val a * 256 ^ Z.of_nat (length b) + be_val b.
Proof. unfold be_val at 1. rewrite foldl_app. apply foldl_be_step. Qed.

Lemma be_val_rev bs : be_val bs = le_val (reverse bs).
Proof.
  induction bs as [|b bs IH]; [done|]. rewrite reverse_cons.
  change (b :: bs) with ([b] ++ bs). rewrite be_val_app, IH.
  assert (Hs : ∀ l, le_val (l ++ [b]) = le_val l + 256 ^ Z.of_nat (length l) * u8_val b).
  { induction l as [|c l IHl]; cbn [app le_val length]; [lia|].
    rewrite IHl, Nat2Z.inj_succ, Z.pow_succ_r by lia. ring. }
  rewrite Hs, length_reverse. unfold be_val, foldl. rewrite be_step_arith. ring.
Qed.

Lemma be_val_range bs : 0 ≤ be_val bs < 256 ^ Z.of_nat (length bs).
Proof. rewrite be_val_rev. rewrite <-(length_reverse bs). apply le_val_range. Qed.

(** Big-endian bytes of a value: the reference encoding. *)
Definition be_bytes (n : nat) (v : Z) : bytes := reverse (le_bytes n v).

Lemma be_bytes_S n x : be_bytes (S n) x = be_bytes n (x / 256) ++ [u8_of_Z x].
Proof. unfold be_bytes. cbn [le_bytes]. by rewrite reverse_cons. Qed.

Lemma length_be_bytes n v : length (be_bytes n v) = n.
Proof. unfold be_bytes. by rewrite length_reverse, length_le_bytes. Qed.

Lemma be_val_be_bytes n v : be_val (be_bytes n v) = v mod 256 ^ Z.of_nat n.
Proof. unfold be_bytes. by rewrite be_val_rev, reverse_involutive, le_val_le_bytes. Qed.

Lemma be_bytes_be_val bs n : length bs = n → be_bytes n (be_val bs) = bs.
Proof.
  intros <-. unfold be_bytes. rewrite be_val_rev, le_bytes_le_val, reverse_involutive; [done|].
  apply length_reverse.
Qed.

Lemma be_val_inj b1 b2 : length b1 = length b2 → be_val b1 = be_val b2 → b1 = b2.
Proof.
  intros Hl Hv. rewrite <-(be_bytes_be_val b1 _ eq_refl), Hl, Hv. by apply be_bytes_be_val.
Qed.

#[global] Hint Rewrite length_le_bytes length_be_bytes length_u64LE length_u32LE length_u16LE
  @length_app @length_replicate @length_take @length_drop : nyx_len.

#[global] Arguments be_bytes : simpl never.
#[global] Arguments be_val : simpl never.
#[global] Arguments u64LE : simpl never.
#[global] Arguments u32LE : simpl never.
#[global] Arguments u16LE : simpl never.
#[global] Arguments u8_of_Z : simpl never.
#[global] Arguments u8_val : simpl never.
