(* ===== verification/Errors.v ===== *)
(** Staged errors ([packages/sdk/src/errors.ts]) and the two monads the model
    is written in: [res] for synchronous code that may throw, and [M S] for
    [async] code that also acts on a world [S] through injected providers.  A
    thrown error keeps the effects made before it, as in JavaScript. *)

From stdpp Require Import pretty.
From S2P Require Import Prelude Bytes.

Local Open Scope Z_scope.

(** ** Error values *)

Inductive DarkPoolErrorStage :=
  | attestation_verify
  | auth_token_fetch
  | note_lock_check
  | merkle_proof_fetch
  | merkle_position_fetch
  | note_build
  | proof_generation
  | transaction_send
  | transaction_validate
  | instruction_build
  | parameter.

#[global] Instance stage_eq_dec : EqDecision DarkPoolErrorStage.
Proof. solve_decision. Defined.

Definition stage_name (s : DarkPoolErrorStage) : string :=
  match s with
  | attestation_verify => "attestation-verify"
  | auth_token_fetch => "auth-token-fetch"
  | note_lock_check => "note-lock-check"
  | merkle_proof_fetch => "merkle-proof-fetch"
  | merkle_position_fetch => "merkle-position-fetch"
  | note_build => "note-build"
  | proof_generation => "proof-generation"
  | transaction_send => "transaction-send"
  | transaction_validate => "transaction-validate"
  | instruction_build => "instruction-build"
  | parameter => "parameter"
  end.

(** A thrown value: a [DarkPoolError] or any other [Error], with its [name].
    [EFuel] is no JavaScript value: it marks a loop of the model that ran out
    of fuel, and each such loop has a lemma that shows it is never returned. *)
Inductive exn :=
  | EDark (stage : DarkPoolErrorStage) (message : string) (cause : option exn)
  | EError (name message : string)
  | EFuel.

(** [new DarkPoolError(stage, message, cause)]: the message is prefixed. *)
Definition DarkPoolError (stage : DarkPoolErrorStage) (message : string) (cause : option exn) : exn :=
  EDark stage ("[" ++ stage_name stage ++ "] " ++ message) cause.

(** [new Error(message)] and the runtime's [RangeError]. *)
Definition Error (message : string) : exn := EError "Error" message.
Definition RangeError (message : string) : exn := EError "RangeError" message.

Definition exn_message (e : exn) : string :=
  match e with EDark _ m _ => m | EError _ m => m | EFuel => "" end.

(** [String(err)]. *)
Definition exn_string (e : exn) : string :=
  match e with
  | EDark _ m _ => "DarkPoolError: " ++ m
  | EError n m => n ++ ": " ++ m
  | EFuel => ""
  end.

(** [err instanceof DarkPoolError]. *)
Definition is_dark (e : exn) : bool :=
  match e with EDark _ _ _ => true | _ => false end.

Definition exn_stage (e : exn) : option DarkPoolErrorStage :=
  match e with EDark s _ _ => Some s | _ => None end.

(** [static isRetryable(err)]. *)
Definition isRetryable (err : exn) : bool :=
  match err with
  | EError _ _ | EFuel => false
  | EDark stage _ _ =>
      match stage with
      | auth_token_fetch
      | merkle_proof_fetch
      | merkle_position_fetch
      | transaction_send
      | transaction_validate => true
      | attestation_verify
      | note_lock_check
      | note_build
      | proof_generation
      | instruction_build
      | parameter => false
      end
  end.

(** ** Synchronous results *)

Inductive res (A : Type) :=
  | Ok (a : A)
  | Throw (e : exn).
Arguments Ok {A} a.
Arguments Throw {A} e.

#[global] Instance res_ret : MRet res := λ A a, Ok a.
#[global] Instance res_bind : MBind res := λ A B k m,
  match m with Ok a => k a | Throw e => Throw e end.
#[global] Instance res_fmap : FMap res := λ A B f m,
  match m with Ok a => Ok (f a) | Throw e => Throw e end.

Definition is_Ok {A} (r : res A) : bool := match r with Ok _ => true | Throw _ => false end.

(** [if (b) throw e;] *)
Definition throw_if (b : bool) (e : exn) : res () := if b then Throw e else Ok ().

Lemma Ok_inj {A} (a b : A) : Ok a = Ok b → a = b.
Proof. congruence. Qed.

Lemma res_fmap_id {A} (r : res A) : id <$> r = r.
Proof. by destruct r. Qed.

Lemma res_bind_Ok {A B} (m : res A) (k : A → res B) b :
  m ≫= k = Ok b ↔ ∃ a, m = Ok a ∧ k a = Ok b.
Proof.
  split; [destruct m as [a|]; [eauto|done]|]. intros (a & -> & ?). done.
Qed.

(** A step of a computation, without reducing it. *)
Lemma bind_Ok_eq {A B} (m : res A) (a : A) (f : A → res B) (r : res B) : m = Ok a → f a = r → m ≫= f = r.
Proof. by intros -> <-. Qed.

Lemma res_bind_Throw {A B} (m : res A) (k : A → res B) e :
  m ≫= k = Throw e ↔ m = Throw e ∨ ∃ a, m = Ok a ∧ k a = Throw e.
Proof.
  split; [destruct m as [a|]; cbn; [eauto|intros [= ->]; auto]|].
  intros [->|(a & -> & ?)]; done.
Qed.

Lemma throw_if_Ok b e u : throw_if b e = Ok u ↔ b = false.
Proof. destruct b, u; cbn; split; congruence. Qed.

(** ** Concatenation of byte pieces, [cat(...)]

    The sources define [cat] in three files with the same body; its arguments
    are evaluated first, left to right, and the first one that throws wins. *)

Definition cat (parts : list bytes) : bytes := concat parts.
Definition catM (parts : list (res bytes)) : res bytes := cat <$> mapM id parts.

Lemma catM_Ok ps : catM (Ok <$> ps) = Ok (concat ps).
Proof.
  unfold catM. assert (Hm : mapM id (Ok <$> ps) = Ok ps).
  { induction ps as [|p ps IH]; cbn; [done|]. cbn in IH. by rewrite IH. }
  by rewrite Hm.
Qed.

Lemma catM_cons_Ok p ps : catM (Ok p :: ps) = (λ bs, p ++ bs) <$> catM ps.
Proof. unfold catM; cbn. by destruct (mapM id ps). Qed.

Lemma catM_cons_inv p ps bs :
  catM (p :: ps) = Ok bs ↔ ∃ a b, p = Ok a ∧ catM ps = Ok b ∧ bs = a ++ b.
Proof.
  destruct p as [a|e]; [rewrite catM_cons_Ok|unfold catM; cbn].
  - destruct (catM ps) as [b|e]; cbn; split.
    + intros [= <-]. eauto.
    + by intros (? & ? & [= <-] & [= <-] & ->).
    + done.
    + by intros (? & ? & ? & ? & ?).
  - split; [done|]. by intros (? & ? & ? & ? & ?).
Qed.

Lemma catM_nil_inv bs : catM [] = Ok bs ↔ bs = [].
Proof. unfold catM, cat; cbn. split; congruence. Qed.

(** Fixed-length argument check: [fixed32], [fixed64], [fixed128], [fixed16]
    of the instruction builders and [fixed(x, len)] of the settle builder. *)
Definition fixed (x : bytes) (len : nat) : res bytes :=
  if decide (length x = len) then Ok x
  else Throw (Error ("expected " +:+ pretty len +:+ " bytes, got " +:+ pretty (length x))).

Lemma fixed_Ok x n : length x = n → fixed x n = Ok x.
Proof. intros. unfold fixed. by rewrite decide_True. Qed.

Lemma fixed_Ok_inv x n y : fixed x n = Ok y → y = x ∧ length x = n.
Proof. unfold fixed. case_decide; [|done]. by intros [= ->]. Qed.

Lemma fixed_is_Ok x n : is_Ok (fixed x n) = bool_decide (length x = n).
Proof. unfold fixed. case_decide; [by rewrite bool_decide_true|by rewrite bool_decide_false]. Qed.

(** [new DataView(buf.buffer, buf.byteOffset + off, 8).getBigUint64(0, true)] on
    an array that owns its buffer: a [RangeError] past the end. *)
Definition readU64 (buf : bytes) (off : nat) : res Z :=
  if decide (off + 8 ≤ length buf)%nat then Ok (le_val (slice buf off 8))
  else Throw (RangeError "Offset is outside the bounds of the DataView").

Lemma readU64_Ok buf off :
  (off + 8 ≤ length buf)%nat → readU64 buf off = Ok (le_val (slice buf off 8)).
Proof. intros. unfold readU64. by rewrite decide_True. Qed.

Lemma readU64_range buf off v : readU64 buf off = Ok v → 0 ≤ v < U64.
Proof.
  unfold readU64. case_decide as Hlen; [|done]. intros [= <-]. pose proof (le_val_range (slice buf off 8)) as Hr.
  rewrite length_slice in Hr by lia. exact Hr.
Qed.

Lemma readU64_pieces ls lens k v off :
  length <$> ls = lens → ls !! k = Some (le_bytes 8 v) → sum_list (take k lens) = off →
  0 ≤ v < U64 → readU64 (concat ls) off = Ok v.
Proof.
  intros HL Hk Hoff Hv. assert (Hn : lens !! k = Some 8%nat).
  { subst lens. by rewrite list_lookup_fmap, Hk. }
  rewrite readU64_Ok.
  - rewrite (pieces_slice ls lens k _ _ _ HL Hk Hoff Hn). by rewrite le_val_u64LE_small.
  - rewrite (pieces_length _ _ HL). assert (sum_list lens = sum_list (take k lens) + (8 + sum_list (drop (S k) lens)))%nat; [|lia].
    rewrite <-(take_drop_middle lens k _ Hn) at 1. by rewrite sum_list_with_app.
Qed.

(** Evaluates the read of the [k]-th piece of a buffer. *)
Ltac rd k HL :=
  match type of HL with _ = ?lens =>
    let off := eval vm_compute in (sum_list (take k lens)) in
    erewrite (readU64_pieces _ _ k _ off HL); [ | reflexivity | reflexivity | assumption ];
    cbn [mbind res_bind]
  end.
Ltac rds k HL := rd k HL; try rds constr:(S k) HL.

(** ** Asynchronous code over a world *)

Definition M (S A : Type) : Type := S → res A * S.

#[global] Instance M_ret S : MRet (M S) := λ A a s, (Ok a, s).
#[global] Instance M_bind S : MBind (M S) := λ A B k m s,
  match m s with
  | (Ok a, s') => k a s'
  | (Throw e, s') => (Throw e, s')
  end.

Section effects.
Context {S : Type}.

Definition throw {A} (e : exn) : M S A := λ s, (Throw e, s).
Definition liftR {A} (r : res A) : M S A := λ s, (r, s).
Definition guard_throw (b : bool) (e : exn) : M S () := liftR (throw_if b e).

(** [try { m } catch (err) { h(err) }] *)
Definition try_catch {A} (m : M S A) (h : exn → M S A) : M S A := λ s,
  match m s with
  | (Ok a, s') => (Ok a, s')
  | (Throw e, s') => h e s'
  end.

Lemma M_bind_Ok {A B} (m : M S A) (k : A → M S B) s b s' :
  (m ≫= k) s = (Ok b, s') ↔ ∃ a s1, m s = (Ok a, s1) ∧ k a s1 = (Ok b, s').
Proof.
  unfold mbind, M_bind. destruct (m s) as [[a|e] s1]; split.
  - eauto.
  - by intros (? & ? & [= <- <-] & ?).
  - done.
  - by intros (? & ? & ? & ?).
Qed.

Lemma M_bind_inv {A B} (m : M S A) (k : A → M S B) s r s' :
  (m ≫= k) s = (r, s') ↔
  (∃ e, m s = (Throw e, s') ∧ r = Throw e) ∨ (∃ a s1, m s = (Ok a, s1) ∧ k a s1 = (r, s')).
Proof.
  unfold mbind, M_bind. destruct (m s) as [[a|e] s1]; split.
  - intros H. right. eauto.
  - intros [(? & [=] & _)|(? & ? & [= <- <-] & H)]. exact H.
  - intros [= <- <-]. left. eauto.
  - intros [(? & [= -> ->] & ->)|(? & ? & [=] & _)]. done.
Qed.

Lemma M_bind_run {A B} (m : M S A) (k : A → M S B) s a s1 :
  m s = (Ok a, s1) → (m ≫= k) s = k a s1.
Proof. intros H. unfold mbind, M_bind. by rewrite H. Qed.

Lemma M_bind_throw {A B} (m : M S A) (k : A → M S B) s e s1 :
  m s = (Throw e, s1) → (m ≫= k) s = (Throw e, s1).
Proof. intros H. unfold mbind, M_bind. by rewrite H. Qed.
End effects.

(** Inverts one step of a run [H : (m ≫= k) s = (r, s')]: it threw, or it
    returned and the rest ran. *)
Ltac inv_M H :=
  let e := fresh "e" in let a := fresh "a" in let s1 := fresh "s" in let Hm := fresh "Hm" in
  apply M_bind_inv in H as [(e & Hm & H)|(a & s1 & Hm & H)].

(** Inverts a successful run of a sequence of [res] operations. *)
Ltac inv_res :=
  repeat match goal with
  | H : (mbind _ _) = Ok _ |- _ =>
      let a := fresh "a" in let Ha := fresh "Ha" in
      apply res_bind_Ok in H as (a & Ha & H)
  | H : throw_if _ _ = Ok _ |- _ => apply throw_if_Ok in H
  | H : fixed _ _ = Ok _ |- _ =>
      let Hl := fresh "Hlen" in apply fixed_Ok_inv in H as [-> Hl]
  | H : catM (_ :: _) = Ok _ |- _ =>
      let b := fresh "b" in let t := fresh "t" in let Hb := fresh "Hb" in
      apply catM_cons_inv in H as (b & t & Hb & H & ->)
  | H : catM [] = Ok _ |- _ => apply catM_nil_inv in H as ->
  | H : Ok _ = Ok _ |- _ => apply Ok_inj in H
  | H : Throw _ = Ok _ |- _ => discriminate H
  end.
