(* ===== verification/Externals.v ===== *)
(** Interfaces of the code the sources call and the repository does not hold:
    node's [crypto], circomlibjs' Poseidon and [@solana/web3.js].  Each is a
    class of operations; what the sources rely on is a second class of laws,
    and each law class has an instance that shows it can hold. *)

From S2P Require Import Prelude Bytes Errors.

Local Open Scope Z_scope.

(** BN254 scalar field modulus r ([keys/key-generators.ts]). *)
Definition BN254_R : Z :=
  21888242871839275222246405745257275088548364400416034343698204186575808495617.

(** ** [node:crypto]

    [createHash(a).update(x).update(y).digest()] hashes the concatenation of
    the updates, so one argument stands for all of them. *)
Class NodeCrypto := {
  sha256 : bytes → bytes;
  sha512 : bytes → bytes;
  hmac_sha256 : bytes → bytes → bytes;   (** key, message *)
  shake256 : nat → bytes → bytes;        (** outputLength, message *)
}.

Class NodeCryptoLaws `{NodeCrypto} : Prop := {
  length_sha256 : ∀ m, length (sha256 m) = 32%nat;
  length_sha512 : ∀ m, length (sha512 m) = 64%nat;
  length_hmac_sha256 : ∀ k m, length (hmac_sha256 k m) = 32%nat;
  length_shake256 : ∀ n m, length (shake256 n m) = n;
}.

(** ** circomlibjs Poseidon

    [p.F.toObject(p(inputs.map(p.F.e)))]: the canonical representative of the
    hash of the inputs. *)
Class Poseidon := { poseidon : list Z → Z }.

Class PoseidonLaws `{Poseidon} : Prop := {
  poseidon_range : ∀ l, 0 ≤ poseidon l < BN254_R;
}.

(** ** [@solana/web3.js] *)

(** A public key is 32 bytes. *)
Record PublicKey := mkPublicKey {
  toBytes : bytes;
  toBytes_length : bool_decide (length toBytes = 32%nat) = true;
}.

Lemma length_toBytes pk : length (toBytes pk) = 32%nat.
Proof. exact (bool_decide_eq_true_1 _ (toBytes_length pk)). Qed.
#[export] Hint Resolve length_toBytes : nyx.
#[export] Hint Rewrite length_toBytes : nyx_len.

Lemma toBytes_inj pk1 pk2 : toBytes pk1 = toBytes pk2 → pk1 = pk2.
Proof.
  destruct pk1 as [b1 H1], pk2 as [b2 H2]; simpl. intros ->. f_equal.
  apply (Eqdep_dec.UIP_dec Bool.bool_dec).
Qed.

#[global] Instance PublicKey_eq_dec : EqDecision PublicKey.
Proof.
  intros pk1 pk2. destruct (decide (toBytes pk1 = toBytes pk2)) as [H|H].
  - left. by apply toBytes_inj.
  - right. congruence.
Defined.

Record AccountMeta := { pubkey : PublicKey; isSigner : bool; isWritable : bool }.

Record TransactionInstruction := {
  ix_programId : PublicKey;
  ix_keys : list AccountMeta;
  ix_data : bytes;
}.

Class Web3 := {
  findProgramAddressSync : list bytes → PublicKey → PublicKey * Z;
  publicKeyFromBase58 : string → PublicKey;
  publicKeyFromBytes : bytes → res PublicKey;
  toBase58 : PublicKey → string;
  SystemProgram_programId : PublicKey;
  SYSVAR_INSTRUCTIONS_PUBKEY : PublicKey;
}.

Class Web3Laws `{Web3} : Prop := {
  publicKeyFromBytes_32 : ∀ pk, publicKeyFromBytes (toBytes pk) = Ok pk;
}.

(** ** Instances that satisfy the laws, for concrete evaluation

    They are no models of the real functions: every theorem is stated over the
    classes, and only witnesses use these. *)
Module Toy.
Definition zero_key : PublicKey := {| toBytes := replicate 32 x00; toBytes_length := eq_refl |}.

(** A 32-byte mixing of the message that depends on its length and bytes. *)
Definition toy_hash (n : nat) (m : bytes) : bytes :=
  le_bytes n (foldl (λ acc b, acc * 31 + u8_val b + 1) 7 m).

#[export] Instance toy_crypto : NodeCrypto := {|
  sha256 := toy_hash 32;
  sha512 := toy_hash 64;
  hmac_sha256 k m := toy_hash 32 (k ++ m);
  shake256 n m := toy_hash n m;
|}.

#[export] Instance toy_crypto_laws : NodeCryptoLaws.
Proof. split; intros; apply length_le_bytes. Qed.

Definition toy_poseidon (l : list Z) : Z := (foldl (λ acc x, acc * 1000003 + x + 1) 5 l) mod BN254_R.

#[export] Instance toy_Poseidon : Poseidon := {| poseidon := toy_poseidon |}.
#[export] Instance toy_poseidon_laws : PoseidonLaws.
Proof. split. intros l. by apply Z.mod_pos_bound. Qed.

Definition key_of (bs : bytes) : PublicKey :=
  match decide (length bs = 32%nat) with
  | left H => {| toBytes := bs; toBytes_length := bool_decide_eq_true_2 _ H |}
  | right _ => zero_key
  end.

Lemma key_of_toBytes pk : key_of (toBytes pk) = pk.
Proof.
  unfold key_of. destruct (decide _) as [H|H]; [by apply toBytes_inj|].
  by destruct (H (length_toBytes pk)).
Qed.

#[export] Instance toy_web3 : Web3 := {|
  findProgramAddressSync seeds pid := (key_of (toy_hash 32 (concat seeds ++ toBytes pid)), 255);
  publicKeyFromBase58 s := key_of (toy_hash 32 (ascii_bytes s));
  publicKeyFromBytes bs := if decide (length bs = 32%nat) then Ok (key_of bs)
                           else Throw (Error "Invalid public key input");
  toBase58 _ := "";
  SystemProgram_programId := zero_key;
  SYSVAR_INSTRUCTIONS_PUBKEY := key_of (replicate 32 x06);
|}.

#[export] Instance toy_web3_laws : Web3Laws.
Proof.
  split. intros pk. simpl. rewrite decide_True by apply length_toBytes.
  by rewrite key_of_toBytes.
Qed.
End Toy.
