(* ===== verification/Keys.v ===== *)
(** Key derivation ([keys/key-generators.ts], [keys/key-rotation.ts]): HKDF
    expansion, the KMAC256 framing over SHAKE256, field reduction and
    serialisation, and the derived keys. *)

From S2P Require Import Prelude Bytes Errors Externals.

Local Open Scope Z_scope.

Definition MASTER_SEED_BYTES : nat := 64.

Definition INFO_SPENDING : bytes := ascii_bytes "darkpool_spend_key_v1".
Definition INFO_VIEWING : bytes := ascii_bytes "darkpool_viewing_key_v1".
Definition INFO_TRADING : bytes := ascii_bytes "darkpool_trading_key_v1".
Definition INFO_ROOT : bytes := ascii_bytes "darkpool_root_key_v1".
Definition INFO_BLINDING : bytes := ascii_bytes "note_blinding_v1".

(** ** Field elements *)

(** [let n = 0n; for (const b of bytes) n = (n << 8n) | BigInt(b); return n % R] *)
Definition reduceMod (bs : bytes) : Z := be_val bs mod BN254_R.

(** The loop [for (let i = 31; i >= 0; i--) { out[i] = Number(x & 0xffn); x >>= 8n }],
    filling the last [n] positions; [acc] holds the bytes already written. *)
Fixpoint be32_loop (n : nat) (x : Z) (acc : bytes) : bytes * Z :=
  match n with
  | O => (acc, x)
  | S n => be32_loop n (Z.shiftr x 8) (u8_of_Z (Z.land x 255) :: acc)
  end.

Definition bigintToBE32 (n : Z) : res bytes :=
  let '(out, x) := be32_loop 32 n [] in
  if decide (x = 0) then Ok out else Throw (Error "value does not fit in 32 bytes").

Definition bn254ToBE32 (x : Z) : res bytes :=
  if (x <? 0) || (BN254_R <=? x) then Throw (Error "field element out of range")
  else bigintToBE32 x.

(** ** NIST SP 800-185 encodings *)

(** [while (y > 0n) { bytes.unshift(Number(y & 0xffn)); y >>= 8n; }] *)
Fixpoint unshift_loop (fuel : nat) (y : Z) (acc : bytes) : res bytes :=
  match fuel with
  | O => Throw EFuel
  | S fuel =>
      if 0 <? y then unshift_loop fuel (Z.shiftr y 8) (u8_of_Z (Z.land y 255) :: acc)
      else Ok acc
  end.

(** Enough fuel for every [y]: one step per byte and one to stop. *)
Definition unshift_fuel (y : Z) : nat := S (S (Z.to_nat (Z.log2 y))).

Definition leftEncode (x : Z) : res bytes :=
  if decide (x = 0) then Ok [x01; x00]
  else bs ← unshift_loop (unshift_fuel x) x [];
       Ok (u8_of_Z (Z.of_nat (length bs)) :: bs).

Definition rightEncode (x : Z) : res bytes :=
  if decide (x = 0) then Ok [x00; x01]
  else bs ← unshift_loop (unshift_fuel x) x [];
       Ok (bs ++ [u8_of_Z (Z.of_nat (length bs))]).

Definition encodeString (s : bytes) : res bytes :=
  let bits := Z.of_nat (length s) * 8 in
  enc ← leftEncode bits;
  Ok (enc ++ s).

(** [while (out.length % w !== 0) append a zero byte] *)
Fixpoint pad_loop (fuel : nat) (out : bytes) (w : nat) : res bytes :=
  match fuel with
  | O => Throw EFuel
  | S fuel =>
      if decide (length out mod w = 0)%nat then Ok out
      else pad_loop fuel (out ++ [x00]) w
  end.

Definition bytepad (x : bytes) (w : nat) : res bytes :=
  le ← leftEncode (Z.of_nat w);
  pad_loop (S w) (le ++ x) w.

Section derivation.
Context `{NodeCrypto}.

(** The four updates of [shake], in order. *)
Definition kmac_message (key customInfo data : bytes) (outLen : nat) : res bytes :=
  let name := ascii_bytes "KMAC" in
  en ← encodeString name;
  ei ← encodeString customInfo;
  paddedHeader ← bytepad (en ++ ei) 136;
  ek ← encodeString key;
  paddedKey ← bytepad ek 136;
  re ← rightEncode (Z.of_nat outLen * 8);
  Ok (paddedHeader ++ paddedKey ++ data ++ re).

Definition kmac256 (key customInfo data : bytes) (outLen : nat) : res bytes :=
  shake256 outLen <$> kmac_message key customInfo data outLen.

(** ** HKDF-SHA256 *)

(** [src.copy(out, off, 0, len)] into a buffer of fixed size. *)
Definition copy_into (out : bytes) (off : nat) (src : bytes) : bytes :=
  take off out ++ src ++ drop (off + length src) out.

Fixpoint hkdf_loop (fuel : nat) (prk info out prev : bytes) (filled : nat) (counter : Z)
    (len : nat) : res bytes :=
  match fuel with
  | O => Throw EFuel
  | S fuel =>
      if decide (filled < len)%nat then
        let prev := hmac_sha256 prk (prev ++ info ++ [u8_of_Z counter]) in
        let tk := Nat.min (length prev) (len - filled) in
        let out := copy_into out filled (take tk prev) in
        hkdf_loop fuel prk info out prev (filled + tk) (counter + 1) len
      else Ok out
  end.

Definition hkdfExpand (ikm info : bytes) (len : nat) : res bytes :=
  let salt := replicate 32 x00 in
  let prk := hmac_sha256 salt ikm in
  hkdf_loop (S len) prk info (replicate len x00) [] 0 1 len.

(** ** Derived keys *)

Definition deriveSpendingKey (seed : bytes) : res Z :=
  okm ← hkdfExpand seed INFO_SPENDING 64; Ok (reduceMod okm).

Definition deriveMasterViewingKey (seed : bytes) : res Z :=
  okm ← kmac256 seed INFO_VIEWING [] 64; Ok (reduceMod okm).

Definition deriveTradingKeyAtOffset (seed : bytes) (offset : Z) : res bytes :=
  hkdfExpand seed (INFO_TRADING ++ u64LE offset) 32.

Definition deriveRootKey (seed : bytes) : res bytes := hkdfExpand seed INFO_ROOT 32.

Definition deriveBlindingFactor (seed : bytes) (counter : Z) : res Z :=
  okm ← kmac256 seed (INFO_BLINDING ++ u64LE counter) [] 64; Ok (reduceMod okm).

(** [keys/key-rotation.ts] *)
Definition rotateTradingKey (seed : bytes) (currentOffset : Z) : res (Z * bytes) :=
  let nextOffset := currentOffset + 1 in
  next ← deriveTradingKeyAtOffset seed nextOffset;
  Ok (nextOffset, next).

(** ** Where the master seed comes from *)

(** [MasterSeedMode] of [providers.ts]; the storage and the wallet are the
    caller's. *)
Inductive MasterSeedMode (S : Type) :=
  | csprng (load : M S (option bytes)) (store : bytes → M S ())
  | wallet_signature (signMessage : bytes → M S bytes) (message : option bytes).
Arguments csprng {S} load store.
Arguments wallet_signature {S} signMessage message.

Definition generateMasterSeed {S} (randomBytes : nat → M S bytes) : M S bytes :=
  randomBytes MASTER_SEED_BYTES.

Definition resolveMasterSeed {S} (randomBytes : nat → M S bytes) (mode : MasterSeedMode S)
    : M S bytes :=
  match mode with
  | csprng load store =>
      existing ← load;
      match existing with
      | Some seed => mret seed
      | None =>
          fresh ← generateMasterSeed randomBytes;
          _ ← store fresh;
          mret fresh
      end
  | wallet_signature signMessage message =>
      let msg := default (ascii_bytes "NYX_DARKPOOL_SEED_V1") message in
      sig ← signMessage msg;
      mret (take MASTER_SEED_BYTES (sha512 sig))
  end.
End derivation.

Arguments csprng {S} load store.
Arguments wallet_signature {S} signMessage message.

#[global] Arguments bn254ToBE32 : simpl never.

(** ** Field serialisation *)

Lemma land_255 x : Z.land x 255 = x mod 256.
Proof. change 255 with (Z.ones 8). by rewrite Z.land_ones. Qed.

Lemma shiftr_8 x : Z.shiftr x 8 = x / 256.
Proof. by rewrite Z.shiftr_div_pow2. Qed.

Lemma be32_loop_spec n x acc :
  be32_loop n x acc = (be_bytes n x ++ acc, x / 256 ^ Z.of_nat n).
Proof.
  revert x acc; induction n as [|n IH]; intros x acc; cbn [be32_loop].
  - by rewrite Z.div_1_r.
  - rewrite IH, land_255, shiftr_8, u8_of_Z_mod, be_bytes_S, <-app_assoc; simpl. f_equal.
    rewrite Nat2Z.inj_succ, Z.pow_succ_r, Z.div_div by (try apply Z.pow_pos_nonneg; lia). done.
Qed.

Lemma BN254_R_fits : BN254_R < 256 ^ 32.
Proof. reflexivity. Qed.

Lemma bigintToBE32_spec x :
  bigintToBE32 x = if decide (0 ≤ x < 256 ^ 32) then Ok (be_bytes 32 x)
                   else Throw (Error "value does not fit in 32 bytes").
Proof.
  unfold bigintToBE32. rewrite be32_loop_spec, app_nil_r. change (Z.of_nat 32) with 32.
  assert (x / 256 ^ 32 = 0 ↔ 0 ≤ x < 256 ^ 32) by (rewrite Z.div_small_iff; lia).
  repeat case_decide; tauto.
Qed.

Lemma bn254ToBE32_spec x :
  bn254ToBE32 x = if decide (0 ≤ x < BN254_R) then Ok (be_bytes 32 x)
                  else Throw (Error "field element out of range").
Proof.
  unfold bn254ToBE32. pose proof BN254_R_fits.
  destruct (Z.ltb_spec x 0), (Z.leb_spec BN254_R x); simpl; case_decide; try lia; try done.
  rewrite bigintToBE32_spec, decide_True by lia. done.
Qed.

Lemma bn254ToBE32_in x : 0 ≤ x < BN254_R → bn254ToBE32 x = Ok (be_bytes 32 x).
Proof. intros. by rewrite bn254ToBE32_spec, decide_True. Qed.

Lemma reduceMod_range bs : 0 ≤ reduceMod bs < BN254_R.
Proof. by apply Z.mod_pos_bound. Qed.

Lemma be_val_field_bytes x : 0 ≤ x < BN254_R → be_val (be_bytes 32 x) = x.
Proof.
  intros. pose proof BN254_R_fits. rewrite be_val_be_bytes. change (Z.of_nat 32) with 32.
  apply Z.mod_small. lia.
Qed.

(** ** Integer encodings *)

Lemma unshift_loop_S fuel y acc :
  unshift_loop (S fuel) y acc =
  if 0 <? y then unshift_loop fuel (y / 256) (u8_of_Z y :: acc) else Ok acc.
Proof. cbn [unshift_loop]. by rewrite land_255, shiftr_8, u8_of_Z_mod. Qed.

Lemma unshift_loop_spec k y acc :
  0 ≤ y < 256 ^ Z.of_nat k →
  ∃ bs, unshift_loop (S k) y acc = Ok (bs ++ acc) ∧ be_val bs = y ∧ (length bs ≤ k)%nat
        ∧ head bs ≠ Some x00.
Proof.
  revert y acc; induction k as [|k IH]; intros y acc Hy.
  - exists []. assert (y = 0) as -> by (simpl in Hy; lia). done.
  - rewrite unshift_loop_S. destruct (Z.ltb_spec 0 y) as [Hpos|Hz].
    + rewrite Nat2Z.inj_succ, Z.pow_succ_r in Hy by lia.
      destruct (IH (y / 256) (u8_of_Z y :: acc)) as (bs & -> & Hv & Hl & Hh).
      { split; [apply Z.div_pos; lia|]. apply Z.div_lt_upper_bound; lia. }
      exists (bs ++ [u8_of_Z y]). rewrite <-app_assoc, be_val_app, Hv, length_app; simpl.
      repeat split; [|lia|].
      * unfold be_val; simpl. rewrite be_step_arith, u8_val_of_Z.
        pose proof (Z.div_mod y 256). lia.
      * destruct bs as [|b bs]; [|done]. simpl. intros [= Hb].
        change (be_val []) with 0 in Hv.
        apply (f_equal u8_val) in Hb. rewrite u8_val_of_Z in Hb. change (u8_val x00) with 0 in Hb.
        pose proof (Z.div_mod y 256). lia.
    + exists []. assert (y = 0) as -> by lia. repeat split; simpl; auto; lia.
Qed.

Lemma unshift_fuel_enough y : 0 ≤ y → y < 256 ^ Z.of_nat (S (Z.to_nat (Z.log2 y))).
Proof.
  intros Hy. destruct (decide (y = 0)) as [->|Hne]; [reflexivity|].
  pose proof (Z.log2_spec y ltac:(lia)) as [_ Hlt]. pose proof (Z.log2_nonneg y).
  eapply Z.lt_le_trans; [exact Hlt|].
  rewrite Nat2Z.inj_succ, Z2Nat.id by lia. apply Z.pow_le_mono_l. lia.
Qed.

Lemma unshift_Ok y : 0 ≤ y →
  ∃ bs, unshift_loop (unshift_fuel y) y [] = Ok bs ∧ be_val bs = y ∧ head bs ≠ Some x00.
Proof.
  intros Hy. destruct (unshift_loop_spec (S (Z.to_nat (Z.log2 y))) y []) as (bs & E & ? & _ & ?).
  { split; [done|]. by apply unshift_fuel_enough. }
  exists bs. rewrite app_nil_r in E. done.
Qed.

(** The reader of SP 800-185 [left_encode]: a length byte, then that many bytes. *)
Definition left_decode (bs : bytes) : option (Z * bytes) :=
  match bs with
  | [] => None
  | n :: bs =>
      let n := Z.to_nat (u8_val n) in
      if decide (n ≤ length bs)%nat then Some (be_val (take n bs), drop n bs) else None
  end.

Lemma left_decode_bytes bs t :
  (length bs < 256)%nat → left_decode (u8_of_Z (Z.of_nat (length bs)) :: bs ++ t) = Some (be_val bs, t).
Proof.
  intros Hl. cbn [left_decode]. rewrite u8_val_of_Z, Z.mod_small, Nat2Z.id, length_app by lia.
  rewrite decide_True by lia. rewrite take_app_length, drop_app_length. done.
Qed.

Lemma be_val_length_bound bs k :
  head bs ≠ Some x00 → be_val bs < 256 ^ Z.of_nat k → (length bs ≤ k)%nat.
Proof.
  destruct bs as [|b bs]; simpl; intros Hh Hv; [lia|].
  change (b :: bs) with ([b] ++ bs) in Hv. rewrite be_val_app in Hv.
  assert (1 ≤ be_val [b]).
  { unfold be_val; simpl. rewrite be_step_arith. pose proof (u8_val_range b).
    destruct (decide (u8_val b = 0)) as [E|]; [|lia]. destruct Hh. f_equal.
    apply (inj u8_val). by rewrite E. }
  pose proof (be_val_range bs). destruct (decide (length bs < k)%nat); [lia|].
  assert (256 ^ Z.of_nat k ≤ 256 ^ Z.of_nat (length bs)) by (apply Z.pow_le_mono_r; lia). nia.
Qed.

Lemma leftEncode_spec x :
  0 ≤ x → ∃ bs, leftEncode x = Ok bs ∧
    (x < 256 ^ 255 → ∀ t, left_decode (bs ++ t) = Some (x, t)).
Proof.
  intros Hx. unfold leftEncode. case_decide as Hz.
  - subst. exists [x01; x00]. split; [done|]. intros _ t. done.
  - destruct (unshift_Ok x Hx) as (bs & -> & Hv & Hh). eexists. split; [reflexivity|].
    intros Hlt t. rewrite <-app_comm_cons. rewrite left_decode_bytes; [by rewrite Hv|].
    pose proof (be_val_length_bound bs 255 Hh). lia.
Qed.

Lemma pad_loop_spec k out w :
  (0 < w)%nat → ((w - length out mod w) mod w ≤ k)%nat →
  pad_loop (S k) out w = Ok (out ++ replicate ((w - length out mod w) mod w) x00).
Proof.
  intros Hw. revert out. induction k as [|k IH]; intros out Hk; cbn -[Nat.modulo];
    pose proof (Nat.mod_upper_bound (length out) w ltac:(lia)) as Hb.
  - rewrite decide_True.
    + assert ((w - length out mod w) mod w = 0)%nat as -> by lia. by rewrite app_nil_r.
    + destruct (decide (length out mod w = 0)%nat); [done|].
      rewrite Nat.mod_small in Hk by lia. lia.
  - case_decide as Hz.
    + rewrite Hz, Nat.sub_0_r, Nat.Div0.mod_same. simpl. by rewrite app_nil_r.
    + rewrite Nat.mod_small in Hk by lia.
      assert (Hn : ((w - length (out ++ [x00]) mod w) mod w = w - length out mod w - 1)%nat).
      { rewrite length_app. simpl length. rewrite <-Nat.Div0.add_mod_idemp_l.
        destruct (decide (length out mod w + 1 = w)%nat) as [E|].
        - rewrite E, Nat.Div0.mod_same, Nat.sub_0_r, Nat.Div0.mod_same. lia.
        - rewrite (Nat.mod_small (length out mod w + 1)) by lia.
          rewrite Nat.mod_small by lia. lia. }
      change (pad_loop (S k) (out ++ [x00]) w = Ok (out ++ replicate ((w - length out mod w) mod w) x00)).
      rewrite IH by (rewrite Hn; lia). rewrite Hn, <-app_assoc. do 2 f_equal.
      rewrite (Nat.mod_small (w - length out mod w)) by lia.
      change ([x00] ++ ?l) with (x00 :: l). rewrite <-replicate_S. f_equal. lia.
Qed.

(** The zero bytes [bytepad] appends to [x] after its two-byte width prefix. *)
Definition pad_len (n w : nat) : nat := ((w - n mod w) mod w)%nat.

Lemma bytepad_136 x : bytepad x 136 =
  Ok ([x01; x88] ++ x ++ replicate (pad_len (2 + length x) 136) x00).
Proof.
  unfold bytepad. assert (leftEncode (Z.of_nat 136) = Ok [x01; x88]) as -> by reflexivity.
  cbn -[pad_loop]. rewrite pad_loop_spec; [done|lia|].
  pose proof (Nat.mod_upper_bound (136 - length (x01 :: x88 :: x) mod 136) 136 ltac:(lia)). lia.
Qed.

(** A string short enough for the one-byte length-of-length of [left_encode]:
    every array a JavaScript engine can hold is. *)
Definition short (s : bytes) : Prop := Z.of_nat (length s) * 8 < 256 ^ 255.

Lemma encodeString_spec s :
  ∃ e, encodeString s = Ok (e ++ s) ∧
       (short s → ∀ t, left_decode (e ++ t) = Some (Z.of_nat (length s) * 8, t)).
Proof.
  unfold encodeString, short. destruct (leftEncode_spec (Z.of_nat (length s) * 8)) as (e & -> & He); [lia|].
  exists e. done.
Qed.

(** [encodeString] is prefix-free. *)
Lemma encodeString_prefix_free s1 s2 e1 e2 t1 t2 :
  short s1 → short s2 → encodeString s1 = Ok e1 → encodeString s2 = Ok e2 →
  e1 ++ t1 = e2 ++ t2 → s1 = s2 ∧ t1 = t2.
Proof.
  intros H1 H2 E1 E2 Heq.
  destruct (encodeString_spec s1) as (p1 & E1' & D1), (encodeString_spec s2) as (p2 & E2' & D2).
  rewrite E1 in E1'. rewrite E2 in E2'. injection E1' as ->. injection E2' as ->.
  rewrite <-!app_assoc in Heq.
  pose proof (D1 H1 (s1 ++ t1)) as X1. rewrite Heq, (D2 H2) in X1. injection X1 as Hl Ht.
  apply app_inj_length in Ht as [-> ->]; [done|lia].
Qed.

Lemma encodeString_total s : ∃ e, encodeString s = Ok e.
Proof. destruct (encodeString_spec s) as (e & -> & _). eauto. Qed.

Lemma rightEncode_total x : 0 ≤ x → ∃ e, rightEncode x = Ok e.
Proof.
  intros. unfold rightEncode. case_decide; [eauto|].
  destruct (unshift_Ok x) as (bs & -> & _); [done|]. eauto.
Qed.

Section kmac.
(** The message hashed by [kmac256], spelled out. *)
Lemma kmac_message_spec key info data n m :
  kmac_message key info data n = Ok m ↔
  ∃ en ei ek re, encodeString (ascii_bytes "KMAC") = Ok en ∧ encodeString info = Ok ei ∧
    encodeString key = Ok ek ∧ rightEncode (Z.of_nat n * 8) = Ok re ∧
    m = [x01; x88] ++ en ++ ei ++ replicate (pad_len (2 + length (en ++ ei)) 136) x00 ++
        [x01; x88] ++ ek ++ replicate (pad_len (2 + length ek) 136) x00 ++ data ++ re.
Proof.
  unfold kmac_message.
  destruct (encodeString_total (ascii_bytes "KMAC")) as [en ->], (encodeString_total info) as [ei ->],
    (encodeString_total key) as [ek ->], (rightEncode_total (Z.of_nat n * 8)) as [re ->]; [lia|].
  cbn -[bytepad]. rewrite !bytepad_136. cbn -[pad_len]. rewrite <-!app_assoc. split.
  - intros [= <-]. eexists _, _, _, _. repeat split.
  - intros (? & ? & ? & ? & [= <-] & [= <-] & [= <-] & [= <-] & ->). done.
Qed.

Lemma kmac_message_total key info data n : ∃ m, kmac_message key info data n = Ok m.
Proof.
  destruct (encodeString_total (ascii_bytes "KMAC")) as [en ?], (encodeString_total info) as [ei ?],
    (encodeString_total key) as [ek ?], (rightEncode_total (Z.of_nat n * 8)) as [re ?]; [lia|].
  eexists. apply kmac_message_spec. eexists _, _, _, _. repeat split; eassumption.
Qed.
End kmac.

(** ** HKDF: the output is the concatenation T(1) || T(2) || ... cut to length *)

Section hkdf.
Context `{NodeCrypto} `{!NodeCryptoLaws}.

(** RFC 5869: T(0) is empty, T(i) = HMAC(PRK, T(i-1) || info || i). *)
Fixpoint hkdf_T (prk info : bytes) (i : nat) : bytes :=
  match i with
  | O => []
  | S i => hmac_sha256 prk (hkdf_T prk info i ++ info ++ [u8_of_Z (Z.of_nat (S i))])
  end.

Definition hkdf_stream (prk info : bytes) (n : nat) : bytes :=
  concat (hkdf_T prk info <$> seq 1 n).

(** The expected output: the first [len] bytes of ceil(len / 32) blocks. *)
Definition hkdf_spec (prk info : bytes) (len : nat) : bytes :=
  take len (hkdf_stream prk info ((len + 31) / 32)).

Lemma hkdf_stream_S prk info n :
  hkdf_stream prk info (S n) = hkdf_stream prk info n ++ hkdf_T prk info (S n).
Proof.
  unfold hkdf_stream. rewrite seq_S, fmap_app, concat_app. cbn [fmap list_fmap concat].
  by rewrite app_nil_r.
Qed.

Lemma length_hkdf_T prk info i : length (hkdf_T prk info (S i)) = 32%nat.
Proof. apply length_hmac_sha256. Qed.

Lemma length_hkdf_stream prk info n : length (hkdf_stream prk info n) = (32 * n)%nat.
Proof.
  induction n; [done|]. rewrite hkdf_stream_S, length_app, IHn, length_hkdf_T. lia.
Qed.

(** The buffer after [i] rounds. *)
Definition hkdf_buf (prk info : bytes) (len i : nat) : bytes :=
  take len (hkdf_stream prk info i) ++ replicate (len - 32 * i) x00.

Lemma hkdf_buf_step prk info len i :
  (32 * i < len)%nat →
  copy_into (hkdf_buf prk info len i) (32 * i) (take (Nat.min 32 (len - 32 * i)) (hkdf_T prk info (S i)))
  = hkdf_buf prk info len (S i).
Proof.
  intros Hlt. unfold copy_into, hkdf_buf. rewrite hkdf_stream_S.
  pose proof (length_hkdf_stream prk info i) as Hs. pose proof (length_hkdf_T prk info i) as HT.
  rewrite (take_ge (hkdf_stream prk info i) len) by lia.
  rewrite take_app_length' by done. rewrite take_app_ge by lia. rewrite <-app_assoc. f_equal.
  rewrite Hs. f_equal.
  - destruct (decide (len - 32 * i ≤ 32)%nat); [by rewrite Nat.min_r by lia|].
    rewrite Nat.min_l by lia. rewrite !take_ge by lia. done.
  - rewrite length_take, HT, drop_app_ge, Hs, drop_replicate by lia. f_equal. lia.
Qed.

Lemma hkdf_loop_spec fuel prk info len i :
  (i ≤ (len + 31) / 32)%nat → (len - Nat.min len (32 * i) < fuel)%nat →
  hkdf_loop fuel prk info (hkdf_buf prk info len i) (hkdf_T prk info i) (Nat.min len (32 * i))
    (Z.of_nat i + 1) len = Ok (hkdf_spec prk info len).
Proof.
  revert i. induction fuel as [|fuel IH]; intros i Hi Hf; [lia|].
  pose proof (Nat.div_mod_eq (len + 31) 32). pose proof (Nat.mod_upper_bound (len + 31) 32 ltac:(lia)).
  cbn [hkdf_loop]. case_decide as Hlt.
  - assert (Hm : Nat.min len (32 * i) = (32 * i)%nat) by lia. rewrite Hm.
    replace (hmac_sha256 prk (hkdf_T prk info i ++ info ++ [u8_of_Z (Z.of_nat i + 1)]))
      with (hkdf_T prk info (S i)) by (cbn [hkdf_T]; repeat f_equal; lia).
    rewrite length_hkdf_T, hkdf_buf_step by lia.
    replace (32 * i + Nat.min 32 (len - 32 * i))%nat with (Nat.min len (32 * S i)) by lia.
    replace (Z.of_nat i + 1 + 1) with (Z.of_nat (S i) + 1) by lia.
    apply IH; lia.
  - assert ((len + 31) / 32 = i)%nat as Hc by lia.
    unfold hkdf_spec, hkdf_buf. rewrite Hc.
    replace (len - 32 * i)%nat with 0%nat by lia. by rewrite app_nil_r.
Qed.

Lemma hkdfExpand_spec ikm info len :
  hkdfExpand ikm info len = Ok (hkdf_spec (hmac_sha256 (replicate 32 x00) ikm) info len).
Proof.
  unfold hkdfExpand.
  pose proof (hkdf_loop_spec (S len) (hmac_sha256 (replicate 32 x00) ikm) info len 0) as X.
  rewrite Nat.mul_0_r, Nat.min_0_r in X. unfold hkdf_buf in X.
  rewrite Nat.mul_0_r, Nat.sub_0_r in X. change (hkdf_stream _ _ 0) with (@nil byte) in X.
  rewrite take_nil in X. apply X; lia.
Qed.

Lemma length_hkdf_spec prk info len : length (hkdf_spec prk info len) = len.
Proof.
  unfold hkdf_spec. rewrite length_take, length_hkdf_stream.
  pose proof (Nat.div_mod_eq (len + 31) 32). pose proof (Nat.mod_upper_bound (len + 31) 32 ltac:(lia)). lia.
Qed.

Lemma hkdfExpand_total ikm info len : ∃ okm, hkdfExpand ikm info len = Ok okm ∧ length okm = len.
Proof. rewrite hkdfExpand_spec. eexists. split; [done|]. apply length_hkdf_spec. Qed.
(** The derived keys exist; the secrets are field elements. *)
Lemma kmac_reduced_total seed info :
  ∃ b, (okm ← kmac256 seed info [] 64; Ok (reduceMod okm)) = Ok b ∧ 0 ≤ b < BN254_R.
Proof.
  unfold kmac256. destruct (kmac_message_total seed info [] 64) as [m ->].
  eexists. split; [reflexivity|]. apply reduceMod_range.
Qed.

Lemma deriveSpendingKey_total seed : ∃ s, deriveSpendingKey seed = Ok s ∧ 0 ≤ s < BN254_R.
Proof.
  unfold deriveSpendingKey. rewrite hkdfExpand_spec. eexists. split; [reflexivity|]. apply reduceMod_range.
Qed.

Lemma deriveMasterViewingKey_total seed : ∃ v, deriveMasterViewingKey seed = Ok v ∧ 0 ≤ v < BN254_R.
Proof. apply kmac_reduced_total. Qed.

Lemma deriveBlindingFactor_total seed counter :
  ∃ b, deriveBlindingFactor seed counter = Ok b ∧ 0 ≤ b < BN254_R.
Proof. apply kmac_reduced_total. Qed.

Lemma deriveRootKey_total seed : ∃ r, deriveRootKey seed = Ok r ∧ length r = 32%nat.
Proof. apply hkdfExpand_total. Qed.

Lemma deriveTradingKey_total seed offset :
  ∃ t, deriveTradingKeyAtOffset seed offset = Ok t ∧ length t = 32%nat.
Proof. apply hkdfExpand_total. Qed.
End hkdf.

(** ** Properties *)

(** [bn254ToBE32] serialises exactly the field elements: for [0 <= x < r]
    it returns the 32 big-endian bytes of [x], which the big-endian readers
    take back to [x]; outside that range it throws. *)
Theorem bn254ToBE32_roundtrip x :
  (0 ≤ x < BN254_R ∧ ∃ bs, bn254ToBE32 x = Ok bs ∧ length bs = 32%nat ∧ be_val bs = x)
  ∨ (¬ (0 ≤ x < BN254_R) ∧ bn254ToBE32 x = Throw (Error "field element out of range")).
Proof.
  rewrite bn254ToBE32_spec. case_decide as Hx; [left|right]; split; [done| |done|done].
  eexists. split; [done|]. split; [apply length_be_bytes|]. by apply be_val_field_bytes.
Qed.

(** The message [kmac256] hashes determines the key, the customisation
    string and the data: two calls with the same output length feed SHAKE256
    the same bytes only when they agree on all three. *)
Theorem kmac_message_injective k1 c1 d1 k2 c2 d2 n m :
  short k1 → short c1 → short k2 → short c2 →
  kmac_message k1 c1 d1 n = Ok m → kmac_message k2 c2 d2 n = Ok m →
  k1 = k2 ∧ c1 = c2 ∧ d1 = d2.
Proof.
  intros Hk1 Hc1 Hk2 Hc2 (en & ei & ek & re & En & Ei & Ek & Er & ->)%kmac_message_spec
    (en' & ei' & ek' & re' & En' & Ei' & Ek' & Er' & Hm)%kmac_message_spec.
  assert (en' = en) as -> by congruence. assert (re' = re) as -> by congruence.
  injection Hm as Hm. apply app_inv_head in Hm.
  destruct (encodeString_prefix_free _ _ _ _ _ _ Hc1 Hc2 Ei Ei' Hm) as [<- Hm'].
  assert (ei' = ei) as -> by congruence. apply app_inv_head in Hm'. injection Hm' as Hm'.
  destruct (encodeString_prefix_free _ _ _ _ _ _ Hk1 Hk2 Ek Ek' Hm') as [<- Hm''].
  assert (ek' = ek) as -> by congruence. apply app_inv_head in Hm''.
  by apply app_inv_tail in Hm''.
Qed.

Lemma kmac_message_injective_witness :
  ∃ m, kmac_message [x01] [x02] [x03] 64 = Ok m ∧ [x01] = [x01] ∧ [x02] = [x02] ∧ [x03] = [x03].
Proof.
  destruct (kmac_message_total [x01] [x02] [x03] 64) as [m Hm]. exists m.
  split; [exact Hm|].
  apply (kmac_message_injective [x01] [x02] [x03] [x01] [x02] [x03] 64 m);
    try exact Hm; reflexivity.
Defined.

(** [hkdfExpand] is HKDF-SHA256 with a zero salt: it always returns, and
    returns the first [len] bytes of T(1) || T(2) || ... as RFC 5869 defines
    them (with the block counter as one byte). *)
Theorem hkdfExpand_rfc5869 `{NodeCrypto} `{!NodeCryptoLaws} ikm info len :
  ∃ okm, hkdfExpand ikm info len = Ok okm ∧ length okm = len ∧
    okm = take len (concat (hkdf_T (hmac_sha256 (replicate 32 x00) ikm) info <$> seq 1 ((len + 31) / 32))).
Proof.
  rewrite hkdfExpand_spec. eexists. split; [done|]. split; [apply length_hkdf_spec|done].
Qed.

Lemma hkdfExpand_rfc5869_witness :
  ∃ okm, @hkdfExpand Toy.toy_crypto [x01] [x02] 40 = Ok okm ∧ length okm = 40%nat ∧
    okm = take 40 (concat (@hkdf_T Toy.toy_crypto
      (@hmac_sha256 Toy.toy_crypto (replicate 32 x00) [x01]) [x02] <$> seq 1 2)).
Proof. exact (@hkdfExpand_rfc5869 Toy.toy_crypto Toy.toy_crypto_laws [x01] [x02] 40). Defined.

(** [C40] Every derived secret that enters a Poseidon hash is a field element: the
    spending key, the viewing key and the blinding factors always exist and are at
    least 0 and below the field's modulus r (zero is not excluded), and the Ed25519
    seeds always exist and are 32 bytes. *)
Theorem derived_keys_wellformed `{NodeCrypto} `{!NodeCryptoLaws} seed offset counter :
  (∃ s, deriveSpendingKey seed = Ok s ∧ 0 ≤ s < BN254_R) ∧
  (∃ v, deriveMasterViewingKey seed = Ok v ∧ 0 ≤ v < BN254_R) ∧
  (∃ b, deriveBlindingFactor seed counter = Ok b ∧ 0 ≤ b < BN254_R) ∧
  (∃ r, deriveRootKey seed = Ok r ∧ length r = 32%nat) ∧
  (∃ t, deriveTradingKeyAtOffset seed offset = Ok t ∧ length t = 32%nat).
Proof.
  split; [apply deriveSpendingKey_total|]. split; [apply deriveMasterViewingKey_total|].
  split; [apply deriveBlindingFactor_total|]. split; [apply deriveRootKey_total|].
  apply deriveTradingKey_total.
Qed.

Lemma derived_keys_wellformed_witness :
  ∃ s, @deriveSpendingKey Toy.toy_crypto (replicate 64 x07) = Ok s ∧ 0 ≤ s < BN254_R.
Proof.
  exact (proj1 (@derived_keys_wellformed Toy.toy_crypto Toy.toy_crypto_laws (replicate 64 x07) 0 0)).
Defined.
