(* ===== verification/Note.v ===== *)
(** Note construction ([utxo/note.ts]), the user commitment
    ([keys/user-commitment.ts]) and the derived viewing keys
    ([keys/viewing-keys.ts]): what is hashed, in which order. *)

From S2P Require Import Prelude Bytes Errors Externals Keys.

Local Open Scope Z_scope.

(** Split a 32-byte pubkey into [[lo, hi]]; the loops run over bytes 0..15 and
    16..31. *)
Definition pubkeyToFrPair (pk : bytes) : res (Z * Z) :=
  _ ← throw_if (negb (length pk =? 32)%nat) (Error "pubkey must be 32 bytes");
  let hi := foldl be_step 0 (slice pk 0 16) in
  let lo := foldl be_step 0 (slice pk 16 16) in
  Ok (lo, hi).

Record Note := {
  tokenMint : bytes;
  amount : Z;
  ownerCommitment_ : Z;
  nonce : Z;
  blindingR : Z;
}.

Record UserCommitmentInputs := {
  rootKeyPubkey : bytes;
  uc_spendingKey : Z;
  uc_viewingKey : Z;
  r0 : Z;
  r1 : Z;
  r2 : Z;
}.

Section note.
Context `{Poseidon}.

Definition poseidonHashBytesBE (inputs : list Z) : res bytes := bn254ToBE32 (poseidon inputs).

Definition noteCommitment (note : Note) : res bytes :=
  '(lo, hi) ← pubkeyToFrPair note.(tokenMint);
  poseidonHashBytesBE
    [lo; hi; note.(amount); note.(ownerCommitment_); note.(nonce); note.(blindingR)].

Definition ownerCommitment (spendingKey blinding : Z) : Z := poseidon [spendingKey; blinding].

Definition nullifier (spendingKey : Z) (commitmentBE : bytes) : res bytes :=
  _ ← throw_if (negb (length commitmentBE =? 32)%nat) (Error "commitment must be 32 bytes");
  let cBig := foldl be_step 0 commitmentBE in
  bn254ToBE32 (poseidon [spendingKey; cBig]).

Definition userCommitmentFromKeys (inputs : UserCommitmentInputs) : res bytes :=
  _ ← throw_if (negb (length inputs.(rootKeyPubkey) =? 32)%nat)
        (Error "rootKeyPubkey must be 32 bytes");
  '(rootLo, rootHi) ← pubkeyToFrPair inputs.(rootKeyPubkey);
  let rootHash := poseidon [rootLo; rootHi; inputs.(r0)] in
  let spendHash := poseidon [inputs.(uc_spendingKey); inputs.(r1)] in
  let viewHash := poseidon [inputs.(uc_viewingKey); inputs.(r2)] in
  let leafPair := poseidon [rootHash; spendHash] in
  let commitment := poseidon [leafPair; viewHash] in
  bn254ToBE32 commitment.

(** PairVK = Poseidon5(mvk, base_lo, base_hi, quote_lo, quote_hi) *)
Definition deriveViewingKeyForPair (mvk : Z) (baseMint quoteMint : bytes) : res Z :=
  '(bLo, bHi) ← pubkeyToFrPair baseMint;
  '(qLo, qHi) ← pubkeyToFrPair quoteMint;
  Ok (poseidon [mvk; bLo; bHi; qLo; qHi]).

(** MonthlyVK = Poseidon2(Poseidon2(pair_vk, year), month) *)
Definition deriveMonthlyViewingKey (pairVk year month : Z) : Z :=
  let yearly := poseidon [pairVk; year] in
  poseidon [yearly; month].
End note.

(** ** Lemmas *)

Lemma pubkeyToFrPair_spec pk :
  pubkeyToFrPair pk = if decide (length pk = 32%nat)
                      then Ok (be_val (drop 16 pk), be_val (take 16 pk))
                      else Throw (Error "pubkey must be 32 bytes").
Proof.
  unfold pubkeyToFrPair. destruct (Nat.eqb_spec (length pk) 32) as [Hl|Hl]; cbn -[slice].
  - rewrite decide_True by done. rewrite slice_0. unfold slice.
    rewrite (take_ge (drop 16 pk)) by (rewrite length_drop; lia). done.
  - by rewrite decide_False.
Qed.

Lemma pubkeyToFrPair_32 pk :
  length pk = 32%nat → pubkeyToFrPair pk = Ok (be_val (drop 16 pk), be_val (take 16 pk)).
Proof. intros. by rewrite pubkeyToFrPair_spec, decide_True. Qed.

Lemma pair_halves_inj pk1 pk2 :
  length pk1 = 32%nat → length pk2 = 32%nat →
  be_val (drop 16 pk1) = be_val (drop 16 pk2) → be_val (take 16 pk1) = be_val (take 16 pk2) →
  pk1 = pk2.
Proof.
  intros L1 L2 Hd Ht. rewrite <-(take_drop 16 pk1), <-(take_drop 16 pk2). f_equal.
  - apply be_val_inj; [|done]. by rewrite !length_take, L1, L2.
  - apply be_val_inj; [|done]. by rewrite !length_drop, L1, L2.
Qed.

Section note_lemmas.
Context `{Poseidon} `{!PoseidonLaws}.

Lemma poseidonHashBytesBE_spec l :
  poseidonHashBytesBE l = Ok (be_bytes 32 (poseidon l)).
Proof. apply bn254ToBE32_in, poseidon_range. Qed.

(** The six field elements a note commitment hashes. *)
Definition note_inputs (n : Note) : list Z :=
  [be_val (drop 16 n.(tokenMint)); be_val (take 16 n.(tokenMint));
   n.(amount); n.(ownerCommitment_); n.(nonce); n.(blindingR)].

Lemma noteCommitment_spec n :
  length n.(tokenMint) = 32%nat → noteCommitment n = Ok (be_bytes 32 (poseidon (note_inputs n))).
Proof.
  intros Hl. unfold noteCommitment. rewrite pubkeyToFrPair_32 by done. cbn -[be_bytes].
  apply poseidonHashBytesBE_spec.
Qed.

Lemma noteCommitment_Ok_length n c :
  noteCommitment n = Ok c → length n.(tokenMint) = 32%nat ∧ length c = 32%nat.
Proof.
  unfold noteCommitment. rewrite pubkeyToFrPair_spec. case_decide as Hl; [|done].
  cbn -[be_bytes poseidonHashBytesBE]. rewrite poseidonHashBytesBE_spec. intros <-%Ok_inj.
  split; [done|]. apply length_be_bytes.
Qed.

Lemma field_bytes_inj x y :
  be_bytes 32 (poseidon x) = be_bytes 32 (poseidon y) → poseidon x = poseidon y.
Proof.
  intros E. apply (f_equal be_val) in E.
  by rewrite !be_val_field_bytes in E by apply poseidon_range.
Qed.

Lemma nullifier_spec sk c :
  length c = 32%nat → nullifier sk c = Ok (be_bytes 32 (poseidon [sk; be_val c])).
Proof.
  intros Hl. unfold nullifier. rewrite Hl. cbn -[be_bytes bn254ToBE32].
  apply bn254ToBE32_in, poseidon_range.
Qed.

(** The hashes along the user-commitment chain. *)
Definition uc_root (u : UserCommitmentInputs) : list Z :=
  [be_val (drop 16 u.(rootKeyPubkey)); be_val (take 16 u.(rootKeyPubkey)); u.(r0)].
Definition uc_spend (u : UserCommitmentInputs) : list Z := [u.(uc_spendingKey); u.(r1)].
Definition uc_view (u : UserCommitmentInputs) : list Z := [u.(uc_viewingKey); u.(r2)].
Definition uc_leaf (u : UserCommitmentInputs) : list Z :=
  [poseidon (uc_root u); poseidon (uc_spend u)].
Definition uc_top (u : UserCommitmentInputs) : list Z :=
  [poseidon (uc_leaf u); poseidon (uc_view u)].

(** The five pairs of hash inputs of two user commitments. *)
Definition uc_pairs (u v : UserCommitmentInputs) : list (list Z * list Z) :=
  [(uc_top u, uc_top v); (uc_leaf u, uc_leaf v); (uc_view u, uc_view v);
   (uc_root u, uc_root v); (uc_spend u, uc_spend v)].

Definition collides (p : list Z * list Z) : Prop := p.1 ≠ p.2 ∧ poseidon p.1 = poseidon p.2.

Lemma userCommitment_spec u :
  length u.(rootKeyPubkey) = 32%nat →
  userCommitmentFromKeys u = Ok (be_bytes 32 (poseidon (uc_top u))).
Proof.
  intros Hl. unfold userCommitmentFromKeys. rewrite Hl. cbn -[be_bytes bn254ToBE32 pubkeyToFrPair].
  rewrite pubkeyToFrPair_32 by done. cbn -[be_bytes bn254ToBE32].
  apply bn254ToBE32_in, poseidon_range.
Qed.

Lemma userCommitment_Ok_length u c :
  userCommitmentFromKeys u = Ok c → length u.(rootKeyPubkey) = 32%nat.
Proof.
  unfold userCommitmentFromKeys. destruct (Nat.eqb_spec (length (rootKeyPubkey u)) 32); [done|].
  discriminate.
Qed.

#[export] Instance collides_dec p : Decision (collides p).
Proof. unfold collides. apply _. Defined.

Lemma no_collision_eq l x y :
  ¬ Exists collides l → (x, y) ∈ l → poseidon x = poseidon y → x = y.
Proof.
  intros Hn Hin Hp. destruct (decide (x = y)); [done|]. destruct Hn.
  apply Exists_exists. by exists (x, y).
Qed.
End note_lemmas.

(** ** Properties *)

(** [pubkeyToFrPair] loses nothing and stays in the field: on 32 bytes it
    returns two 128-bit halves from which the key is rebuilt as
    [hi * 2^128 + lo], on any other length it throws. *)
Theorem pubkeyToFrPair_lossless pk :
  (length pk = 32%nat ∧ ∃ lo hi, pubkeyToFrPair pk = Ok (lo, hi) ∧
     0 ≤ lo < 2 ^ 128 ∧ 0 ≤ hi < 2 ^ 128 ∧ 2 ^ 128 < BN254_R ∧
     be_val pk = hi * 2 ^ 128 + lo ∧ be_bytes 32 (hi * 2 ^ 128 + lo) = pk)
  ∨ (length pk ≠ 32%nat ∧ pubkeyToFrPair pk = Throw (Error "pubkey must be 32 bytes")).
Proof.
  rewrite pubkeyToFrPair_spec. case_decide as Hl; [left|right; done].
  split; [done|]. eexists _, _. split; [reflexivity|].
  pose proof (be_val_range (drop 16 pk)) as H1. pose proof (be_val_range (take 16 pk)) as H2.
  rewrite length_drop, Hl in H1. rewrite length_take, Hl in H2.
  assert (be_val pk = be_val (take 16 pk) * 2 ^ 128 + be_val (drop 16 pk)) as Hv.
  { rewrite <-(take_drop 16 pk) at 1. by rewrite be_val_app, length_drop, Hl. }
  repeat split; try (apply H1); try (apply H2); [done|].
  rewrite <-Hv. by apply be_bytes_be_val.
Qed.

(** A note commitment binds every field of the note: two notes with the
    same commitment are equal, or their six-element inputs are a Poseidon
    collision. *)
Theorem noteCommitment_binding `{Poseidon} `{!PoseidonLaws} n1 n2 c :
  noteCommitment n1 = Ok c → noteCommitment n2 = Ok c →
  n1 = n2 ∨ collides (note_inputs n1, note_inputs n2).
Proof.
  intros E1 E2. pose proof (noteCommitment_Ok_length _ _ E1) as [L1 _].
  pose proof (noteCommitment_Ok_length _ _ E2) as [L2 _].
  rewrite noteCommitment_spec in E1, E2 by done. apply Ok_inj in E1 as <-. apply Ok_inj in E2.
  apply field_bytes_inj in E2. destruct (decide (note_inputs n1 = note_inputs n2)) as [Hi|Hi].
  - left. destruct n1, n2. unfold note_inputs in Hi; simpl in *. injection Hi as Hd Ht -> -> -> ->.
    f_equal. by apply pair_halves_inj.
  - right. split; [done|]. symmetry. exact E2.
Qed.

Definition sample_note : Note :=
  {| tokenMint := replicate 32 x02; amount := 5; ownerCommitment_ := 7; nonce := 9; blindingR := 11 |}.

Lemma noteCommitment_binding_witness :
  ∃ c, @noteCommitment Toy.toy_Poseidon sample_note = Ok c ∧
    (sample_note = sample_note ∨ @collides Toy.toy_Poseidon (note_inputs sample_note, note_inputs sample_note)).
Proof.
  eexists. split; [exact (@noteCommitment_spec Toy.toy_Poseidon Toy.toy_poseidon_laws sample_note eq_refl)|].
  exact (@noteCommitment_binding Toy.toy_Poseidon Toy.toy_poseidon_laws sample_note sample_note _
    (@noteCommitment_spec Toy.toy_Poseidon Toy.toy_poseidon_laws sample_note eq_refl)
    (@noteCommitment_spec Toy.toy_Poseidon Toy.toy_poseidon_laws sample_note eq_refl)).
Defined.

(** The user commitment binds the root key, the spending and viewing keys
    and the three blinders: two inputs with the same commitment are equal, or
    one of the five hashes of the chain is a Poseidon collision. *)
Theorem userCommitment_binding `{Poseidon} `{!PoseidonLaws} u v c :
  userCommitmentFromKeys u = Ok c → userCommitmentFromKeys v = Ok c →
  u = v ∨ Exists collides (uc_pairs u v).
Proof.
  intros Eu Ev. pose proof (userCommitment_Ok_length _ _ Eu) as Lu.
  pose proof (userCommitment_Ok_length _ _ Ev) as Lv.
  rewrite userCommitment_spec in Eu, Ev by done. apply Ok_inj in Eu as <-.
  apply Ok_inj, field_bytes_inj in Ev. symmetry in Ev. destruct (decide (Exists collides (uc_pairs u v))) as [|Hn]; [by right|left].
  assert (Ht : uc_top u = uc_top v) by (apply (no_collision_eq _ _ _ Hn); [set_solver|done]).
  injection Ht as Hl Hv.
  apply (no_collision_eq _ (uc_leaf u) (uc_leaf v) Hn) in Hl; [|set_solver]. injection Hl as Hr Hs.
  apply (no_collision_eq _ (uc_root u) (uc_root v) Hn) in Hr; [|set_solver].
  apply (no_collision_eq _ (uc_spend u) (uc_spend v) Hn) in Hs; [|set_solver].
  apply (no_collision_eq _ (uc_view u) (uc_view v) Hn) in Hv; [|set_solver].
  destruct u, v. unfold uc_root, uc_spend, uc_view in *; simpl in *.
  injection Hr as Hr1 Hr2 ->. injection Hs as -> ->. injection Hv as -> ->.
  f_equal. by apply pair_halves_inj.
Qed.

Definition sample_uc : UserCommitmentInputs :=
  {| rootKeyPubkey := replicate 32 x03; uc_spendingKey := 5; uc_viewingKey := 6; r0 := 1; r1 := 2; r2 := 3 |}.

Lemma userCommitment_binding_witness :
  ∃ c, @userCommitmentFromKeys Toy.toy_Poseidon sample_uc = Ok c ∧
    (sample_uc = sample_uc ∨ Exists (@collides Toy.toy_Poseidon) (@uc_pairs Toy.toy_Poseidon sample_uc sample_uc)).
Proof.
  eexists. split; [exact (@userCommitment_spec Toy.toy_Poseidon Toy.toy_poseidon_laws sample_uc eq_refl)|].
  exact (@userCommitment_binding Toy.toy_Poseidon Toy.toy_poseidon_laws sample_uc sample_uc _
    (@userCommitment_spec Toy.toy_Poseidon Toy.toy_poseidon_laws sample_uc eq_refl)
    (@userCommitment_spec Toy.toy_Poseidon Toy.toy_poseidon_laws sample_uc eq_refl)).
Defined.
