(* ===== verification/Borsh.v ===== *)
(** The reading side of the instruction format: Borsh readers as the on-chain
    programs use them, and the account constraints Anchor checks before a
    handler runs.  Used to state what the instruction builders of the SDK mean. *)

From S2P Require Import Prelude Bytes Errors Externals.

Local Open Scope Z_scope.

(** ** Readers *)

Definition parser (A : Type) : Type := bytes → option (A * bytes).

#[global] Instance parser_ret : MRet parser := λ A a bs, Some (a, bs).
#[global] Instance parser_bind : MBind parser := λ A B k p bs,
  match p bs with Some (a, rest) => k a rest | None => None end.

(** [[u8; N]] *)
Definition p_bytes (n : nat) : parser bytes := λ bs,
  if decide (n ≤ length bs)%nat then Some (take n bs, drop n bs) else None.

Definition p_le (n : nat) : parser Z := b ← p_bytes n; mret (le_val b).
Definition p_u8 : parser Z := p_le 1.
Definition p_u16 : parser Z := p_le 2.
Definition p_u32 : parser Z := p_le 4.
Definition p_u64 : parser Z := p_le 8.

(** [bool]: only the bytes 0 and 1 are accepted. *)
Definition p_bool : parser bool :=
  p_u8 ≫= λ v, if decide (v = 0) then mret false
               else if decide (v = 1) then mret true else (λ _, None) : parser bool.

(** [n] items one after the other. *)
Fixpoint p_repeat {A} (p : parser A) (n : nat) : parser (list A) :=
  match n with
  | O => mret []
  | S n => a ← p; l ← p_repeat p n; mret (a :: l)
  end.

(** [Vec<T>]: a [u32] length, then the items. *)
Definition p_vec {A} (p : parser A) : parser (list A) :=
  n ← p_u32; p_repeat p (Z.to_nat n).

(** A whole buffer, nothing left over. *)
Definition parse_all {A} (p : parser A) (bs : bytes) : option A :=
  match p bs with Some (a, []) => Some a | _ => None end.

Lemma p_bind_Some {A B} (p : parser A) (k : A → parser B) bs a rest :
  p bs = Some (a, rest) → (p ≫= k) bs = k a rest.
Proof. intros H. unfold mbind, parser_bind. by rewrite H. Qed.

Lemma p_bytes_app n x t : length x = n → p_bytes n (x ++ t) = Some (x, t).
Proof.
  intros <-. unfold p_bytes. rewrite decide_True by (rewrite length_app; lia).
  by rewrite take_app_length, drop_app_length.
Qed.

Lemma p_le_app n v t : p_le n (le_bytes n v ++ t) = Some (v mod 256 ^ Z.of_nat n, t).
Proof.
  unfold p_le. erewrite p_bind_Some by (apply p_bytes_app, length_le_bytes).
  unfold mret, parser_ret. by rewrite le_val_le_bytes.
Qed.

Lemma p_u64_app v t : p_u64 (u64LE v ++ t) = Some (v mod U64, t).
Proof. apply (p_le_app 8). Qed.
Lemma p_u32_app v t : p_u32 (u32LE v ++ t) = Some (v mod 2 ^ 32, t).
Proof. apply (p_le_app 4). Qed.
Lemma p_u16_app v t : p_u16 (u16LE v ++ t) = Some (v mod 2 ^ 16, t).
Proof. apply (p_le_app 2). Qed.

Lemma p_u8_app v t : p_u8 (u8_of_Z v :: t) = Some (v mod 256, t).
Proof.
  change (u8_of_Z v :: t) with (le_bytes 1 v ++ t). apply (p_le_app 1).
Qed.

Lemma p_bool_app (b : bool) t : p_bool ((if b then x01 else x00) :: t) = Some (b, t).
Proof. by destruct b. Qed.

Lemma p_repeat_app {A} (p : parser A) (enc : A → bytes) l t :
  (∀ a t, a ∈ l → p (enc a ++ t) = Some (a, t)) →
  p_repeat p (length l) (concat (enc <$> l) ++ t) = Some (l, t).
Proof.
  induction l as [|a l IH]; intros H; [done|]. cbn [length p_repeat fmap list_fmap concat].
  rewrite <-app_assoc. erewrite p_bind_Some by (apply H; set_solver).
  erewrite p_bind_Some by (apply IH; set_solver). done.
Qed.

Lemma p_bind_assoc {A B C} (p : parser A) (k : A → parser B) (h : B → parser C) bs :
  ((p ≫= k) ≫= h) bs = (p ≫= λ a, k a ≫= h) bs.
Proof. unfold mbind, parser_bind. by destruct (p bs) as [[a rest]|]. Qed.

Lemma p_bind_ret {A B} (a : A) (h : A → parser B) bs : (mret a ≫= h) bs = h a bs.
Proof. done. Qed.

(** Reads the next field of a right-nested concatenation. *)
Ltac p_step :=
  first
    [ erewrite p_bind_Some by (first
        [ apply p_u64_app | apply p_u16_app | apply p_u32_app | apply p_u8_app | apply p_bool_app
        | apply p_bytes_app; first [ eassumption | apply length_toBytes | piece_len ] ])
    | progress rewrite ?p_bind_assoc, ?p_bind_ret
    | progress rewrite <-?app_assoc ].
Ltac p_run := repeat p_step; try reflexivity.

(** ** Anchor *)

Section anchor.
Context `{NodeCrypto}.

(** [sha256("global:<name>")[0..8]], in [idl/vault-client.ts],
    [idl/matching-engine-client.ts] and [idl/er-client.ts]. *)
Definition anchorDiscriminator (name : string) : bytes :=
  take 8 (sha256 (ascii_bytes ("global:" +:+ name))).

Lemma length_anchorDiscriminator `{!NodeCryptoLaws} name :
  length (anchorDiscriminator name) = 8%nat.
Proof. unfold anchorDiscriminator. by rewrite length_take, length_sha256. Qed.

(** Dispatch: the first entry of the table whose discriminator the data starts
    with reads the arguments. *)
Fixpoint dispatch {A} (table : list (string * parser A)) (data : bytes) : option A :=
  match table with
  | [] => None
  | (name, p) :: table =>
      if decide (take 8 data = anchorDiscriminator name) then parse_all p (drop 8 data)
      else dispatch table data
  end.

(** The handler names of a program have different discriminators: Anchor
    refuses to build a program where two agree. *)
Definition distinct_discriminators (names : list string) : Prop :=
  NoDup (anchorDiscriminator <$> names).

Lemma dispatch_hit {A} (table : list (string * parser A)) name p body `{!NodeCryptoLaws} :
  distinct_discriminators (fst <$> table) → (name, p) ∈ table →
  dispatch table (anchorDiscriminator name ++ body) = parse_all p body.
Proof.
  unfold distinct_discriminators. pose proof (length_anchorDiscriminator name) as Hl.
  induction table as [|[n q] table IH]; [by intros _ ?%not_elem_of_nil|].
  cbn [fmap list_fmap fst dispatch]. rewrite NoDup_cons, take_app_length' by done.
  intros [Hn Hd] [[= <- <-]|Hin]%elem_of_cons.
  - by rewrite decide_True, drop_app_length' by done.
  - rewrite decide_False; [by apply IH|]. intros E. apply Hn. rewrite <-E.
    apply list_elem_of_fmap. exists name. split; [done|].
    apply list_elem_of_fmap. by exists (name, p).
Qed.
End anchor.

(** ** Account constraints

    One entry per field of a [#[derive(Accounts)]] struct: [Signer], [mut] and
    the address the seeds or the program type fix. *)
Record AccountSlot := {
  slot_signer : bool;
  slot_mut : bool;
  slot_address : option PublicKey;
}.

Definition slot_ok (s : AccountSlot) (m : AccountMeta) : bool :=
  implb s.(slot_signer) m.(isSigner) && implb s.(slot_mut) m.(isWritable) &&
  match s.(slot_address) with None => true | Some k => bool_decide (m.(pubkey) = k) end.

(** The accounts come in the order of the struct; extra ones are remaining accounts. *)
Fixpoint accounts_ok (slots : list AccountSlot) (metas : list AccountMeta) : bool :=
  match slots, metas with
  | [], _ => true
  | s :: slots, m :: metas => slot_ok s m && accounts_ok slots metas
  | _ :: _, [] => false
  end.

(** Metas carry no more privilege than the struct asks for. *)
Fixpoint metas_minimal (slots : list AccountSlot) (metas : list AccountMeta) : bool :=
  match slots, metas with
  | s :: slots, m :: metas =>
      eqb s.(slot_signer) m.(isSigner) && eqb s.(slot_mut) m.(isWritable) && metas_minimal slots metas
  | [], [] => true
  | _, _ => false
  end.

(** The key at a position, as seed bytes: [token_mint.key().as_ref()]. *)
Definition key_seed (metas : list AccountMeta) (i : nat) : bytes :=
  match metas !! i with Some m => toBytes m.(pubkey) | None => [] end.

Lemma slot_ok_address s m k :
  s.(slot_address) = Some k → m.(pubkey) = k → s.(slot_signer) = m.(isSigner) →
  s.(slot_mut) = m.(isWritable) → slot_ok s m = true.
Proof.
  unfold slot_ok. intros -> <- -> ->. rewrite bool_decide_true by done.
  by destruct (isSigner m), (isWritable m).
Qed.

(** Slot constructors of the structs: [Signer<'info>], an account without
    address constraint, a fixed address, and [seeds = [...], bump]. *)
Definition signer (m : bool) : AccountSlot :=
  {| slot_signer := true; slot_mut := m; slot_address := None |}.
Definition any (m : bool) : AccountSlot :=
  {| slot_signer := false; slot_mut := m; slot_address := None |}.
Definition at_address (m : bool) (k : PublicKey) : AccountSlot :=
  {| slot_signer := false; slot_mut := m; slot_address := Some k |}.
Definition seeded `{Web3} (m : bool) (pid : PublicKey) (seeds : list bytes) : AccountSlot :=
  at_address m (findProgramAddressSync seeds pid).1.
Definition system_slot `{Web3} : AccountSlot := at_address false SystemProgram_programId.

(** ** A program: the entries it dispatches on and what each asks of its accounts *)
Class Program (A : Type) := {
  prog_table : list (string * parser A);
  prog_accounts : PublicKey → A → list AccountMeta → list AccountSlot;
}.

Section program.
Context {A : Type} `{!Program A} `{NodeCrypto}.

(** What reaches a handler: the arguments, once the accounts pass. *)
Definition program_entry (pid : PublicKey) (tx : TransactionInstruction) : option A :=
  ix ← dispatch prog_table tx.(ix_data);
  if accounts_ok (prog_accounts pid ix tx.(ix_keys)) tx.(ix_keys) then Some ix else None.

(** The transaction instruction [tx] is an instruction of program [pid] that
    its entry accepts and reads as [ix], with no more privilege than needed. *)
Definition accepted_as (pid : PublicKey) (tx : TransactionInstruction) (ix : A) : Prop :=
  tx.(ix_programId) = pid ∧ program_entry pid tx = Some ix ∧
  metas_minimal (take (length (prog_accounts pid ix tx.(ix_keys))) (prog_accounts pid ix tx.(ix_keys)))
    (take (length (prog_accounts pid ix tx.(ix_keys))) tx.(ix_keys)) = true.

Definition program_names : list string := fst <$> prog_table.

Lemma accepted_intro `{!NodeCryptoLaws} pid tx name p body ix :
  distinct_discriminators program_names → (name, p) ∈ prog_table →
  tx.(ix_data) = anchorDiscriminator name ++ body →
  parse_all p body = Some ix → tx.(ix_programId) = pid →
  accounts_ok (prog_accounts pid ix tx.(ix_keys)) tx.(ix_keys) = true →
  metas_minimal (take (length (prog_accounts pid ix tx.(ix_keys))) (prog_accounts pid ix tx.(ix_keys)))
    (take (length (prog_accounts pid ix tx.(ix_keys))) tx.(ix_keys)) = true →
  accepted_as pid tx ix.
Proof.
  intros Hd Hin Hdata Hp Hpid Hacc Hmin. split; [done|]. split; [|done].
  unfold program_entry. rewrite Hdata, (dispatch_hit _ name p) by done. rewrite Hp.
  cbn. by rewrite Hacc.
Qed.

Lemma accepted_accounts pid tx ix :
  accepted_as pid tx ix → accounts_ok (prog_accounts pid ix tx.(ix_keys)) tx.(ix_keys) = true.
Proof.
  intros (_ & He & _). unfold program_entry in He.
  destruct (dispatch prog_table tx.(ix_data)) as [ix'|]; [|done]. cbn in He.
  destruct (accounts_ok (prog_accounts pid ix' tx.(ix_keys)) tx.(ix_keys)) eqn:Ha; [|done]. by injection He as <-.
Qed.
End program.

(** Runs a builder's output through the program's entry: the named row of the
    table, the reader of its arguments, the metas against the slots. *)
Ltac row := repeat first [apply list_elem_of_here | apply list_elem_of_further].
Ltac metas := cbn; rewrite ?bool_decide_true by (reflexivity || assumption); reflexivity.
Ltac accepted Hdist :=
  subst; eapply (accepted_intro _ _ _ _ _ _ Hdist);
  [ | first [reflexivity | symmetry; apply app_nil_r] | | | | ];
  [ row | unfold parse_all | reflexivity | metas | metas ].
