(* ===== verification/VaultClient.v ===== *)
(** Instruction builders for the vault program ([idl/seeds.ts],
    [idl/vault-client.ts]): PDA derivations and one builder per instruction. *)

From S2P Require Import Prelude Bytes Errors Externals Borsh.

Local Open Scope Z_scope.

(** ** Seeds *)

Definition VAULT_CONFIG_SEED : bytes := ascii_bytes "vault_config".
Definition WALLET_SEED : bytes := ascii_bytes "wallet".
Definition NULLIFIER_SEED : bytes := ascii_bytes "nullifier".
Definition CONSUMED_NOTE_SEED : bytes := ascii_bytes "consumed_note".
Definition NOTE_LOCK_SEED : bytes := ascii_bytes "note_lock".
Definition VAULT_TOKEN_SEED : bytes := ascii_bytes "vault_token".
Definition DARK_CLOB_SEED : bytes := ascii_bytes "dark_clob".
Definition MATCHING_CONFIG_SEED : bytes := ascii_bytes "matching_config".
Definition BATCH_RESULTS_SEED : bytes := ascii_bytes "batch_results".
Definition PENDING_ORDER_SEED : bytes := ascii_bytes "pending_order".

Record Groth16OnChainProof := { piA : bytes; piB : bytes; piC : bytes }.

Definition fixed16 (x : bytes) : res bytes := fixed x 16.
Definition fixed32 (x : bytes) : res bytes := fixed x 32.
Definition fixed64 (x : bytes) : res bytes := fixed x 64.
Definition fixed128 (x : bytes) : res bytes := fixed x 128.

Definition serializeProof (p : Groth16OnChainProof) : res bytes :=
  catM [fixed64 p.(piA); fixed128 p.(piB); fixed64 p.(piC)].

(** [{ pubkey, isSigner, isWritable }] *)
Definition meta (pk : PublicKey) (s w : bool) : AccountMeta :=
  {| pubkey := pk; isSigner := s; isWritable := w |}.

Record BuildInitializeParams := {
  in_programId : PublicKey; in_admin : PublicKey; in_teePubkey : PublicKey; in_rootKey : PublicKey }.

Record BuildSetProtocolConfigParams := {
  sp_programId : PublicKey; sp_admin : PublicKey;
  protocolOwnerCommitment : bytes; feeRateBps : Z }.

Record BuildResetMerkleTreeParams := { rm_programId : PublicKey; rm_admin : PublicKey }.

Record BuildRotateRootKeyParams := {
  rr_programId : PublicKey; currentRootKey : PublicKey; newRootKey : PublicKey }.

Record BuildCreateWalletParams := {
  cw_programId : PublicKey; cw_owner : PublicKey; cw_commitment : bytes; cw_proof : Groth16OnChainProof }.

Record BuildDepositParams := {
  de_programId : PublicKey; depositor : PublicKey; de_tokenMint : PublicKey;
  depositorTokenAccount : PublicKey; de_tokenProgramId : PublicKey; de_amount : Z;
  de_ownerCommitment : bytes; de_nonce : bytes; de_blindingR : bytes }.

Record BuildWithdrawParams := {
  wi_programId : PublicKey; wi_payer : PublicKey; wi_tokenMint : PublicKey;
  destinationTokenAccount : PublicKey; wi_tokenProgramId : PublicKey;
  wi_noteCommitment : bytes; wi_nullifier : bytes; merkleRoot : bytes; wi_amount : Z;
  wi_proof : Groth16OnChainProof }.

Record BuildLockNoteParams := {
  ln_programId : PublicKey; ln_teeAuthority : PublicKey; ln_noteCommitment : bytes;
  ln_orderId : bytes; ln_expirySlot : Z; ln_amount : Z }.

Section vault_client.
Context `{NodeCrypto} `{Web3}.

(** ** PDA derivations *)

Definition vaultConfigPda (programId : PublicKey) : PublicKey * Z :=
  findProgramAddressSync [VAULT_CONFIG_SEED] programId.

Definition walletEntryPda (programId : PublicKey) (commitment : bytes) : res (PublicKey * Z) :=
  c ← fixed32 commitment; Ok (findProgramAddressSync [WALLET_SEED; c] programId).

Definition nullifierEntryPda (programId : PublicKey) (nullifier : bytes) : res (PublicKey * Z) :=
  c ← fixed32 nullifier; Ok (findProgramAddressSync [NULLIFIER_SEED; c] programId).

Definition noteLockPda (programId : PublicKey) (noteCommitment : bytes) : res (PublicKey * Z) :=
  c ← fixed32 noteCommitment; Ok (findProgramAddressSync [NOTE_LOCK_SEED; c] programId).

Definition consumedNotePda (programId : PublicKey) (noteCommitment : bytes) : res (PublicKey * Z) :=
  c ← fixed32 noteCommitment; Ok (findProgramAddressSync [CONSUMED_NOTE_SEED; c] programId).

Definition vaultTokenAccountPda (programId mint : PublicKey) : PublicKey * Z :=
  findProgramAddressSync [VAULT_TOKEN_SEED; toBytes mint] programId.

(** ** Builders *)

Definition buildInitializeInstruction (p : BuildInitializeParams) : TransactionInstruction :=
  let vaultPda := (vaultConfigPda p.(in_programId)).1 in
  let data := cat [anchorDiscriminator "initialize"; toBytes p.(in_teePubkey); toBytes p.(in_rootKey)] in
  {| ix_programId := p.(in_programId);
     ix_keys := [meta p.(in_admin) true true; meta vaultPda false true;
                 meta SystemProgram_programId false false];
     ix_data := data |}.

Definition buildSetProtocolConfigInstruction (p : BuildSetProtocolConfigParams)
    : res TransactionInstruction :=
  _ ← throw_if ((p.(feeRateBps) <? 0) || (10000 <? p.(feeRateBps)))
        (Error ("feeRateBps out of range: " +:+ pretty p.(feeRateBps)));
  let vaultPda := (vaultConfigPda p.(sp_programId)).1 in
  data ← catM [Ok (anchorDiscriminator "set_protocol_config");
               fixed32 p.(protocolOwnerCommitment); Ok (u16LE p.(feeRateBps))];
  Ok {| ix_programId := p.(sp_programId);
        ix_keys := [meta p.(sp_admin) true false; meta vaultPda false true];
        ix_data := data |}.

Definition buildResetMerkleTreeInstruction (p : BuildResetMerkleTreeParams) : TransactionInstruction :=
  let vaultPda := (vaultConfigPda p.(rm_programId)).1 in
  {| ix_programId := p.(rm_programId);
     ix_keys := [meta p.(rm_admin) true false; meta vaultPda false true];
     ix_data := anchorDiscriminator "reset_merkle_tree" |}.

Definition buildRotateRootKeyInstruction (p : BuildRotateRootKeyParams) : TransactionInstruction :=
  let vaultPda := (vaultConfigPda p.(rr_programId)).1 in
  let data := cat [anchorDiscriminator "rotate_root_key"; toBytes p.(newRootKey)] in
  {| ix_programId := p.(rr_programId);
     ix_keys := [meta p.(currentRootKey) true false; meta vaultPda false true];
     ix_data := data |}.

Definition buildCreateWalletInstruction (p : BuildCreateWalletParams) : res TransactionInstruction :=
  let vaultPda := (vaultConfigPda p.(cw_programId)).1 in
  walletPda_ ← walletEntryPda p.(cw_programId) p.(cw_commitment); let walletPda := walletPda_.1 in
  data ← catM [Ok (anchorDiscriminator "create_wallet");
               fixed32 p.(cw_commitment); serializeProof p.(cw_proof)];
  Ok {| ix_programId := p.(cw_programId);
        ix_keys := [meta p.(cw_owner) true true; meta vaultPda false false;
                    meta walletPda false true; meta SystemProgram_programId false false];
        ix_data := data |}.

Definition buildDepositInstruction (p : BuildDepositParams) : res TransactionInstruction :=
  let vaultPda := (vaultConfigPda p.(de_programId)).1 in
  let vaultTokenAcct := (vaultTokenAccountPda p.(de_programId) p.(de_tokenMint)).1 in
  data ← catM [Ok (anchorDiscriminator "deposit"); Ok (u64LE p.(de_amount));
               fixed32 p.(de_ownerCommitment); fixed32 p.(de_nonce); fixed32 p.(de_blindingR)];
  let rentSysvar := publicKeyFromBase58 "SysvarRent111111111111111111111111111111111" in
  Ok {| ix_programId := p.(de_programId);
        ix_keys := [meta p.(depositor) true true; meta vaultPda false true;
                    meta p.(de_tokenMint) false false; meta p.(depositorTokenAccount) false true;
                    meta vaultTokenAcct false true; meta p.(de_tokenProgramId) false false;
                    meta SystemProgram_programId false false; meta rentSysvar false false];
        ix_data := data |}.

Definition buildLockNoteInstruction (p : BuildLockNoteParams) : res TransactionInstruction :=
  let vaultPda := (vaultConfigPda p.(ln_programId)).1 in
  noteLock_ ← noteLockPda p.(ln_programId) p.(ln_noteCommitment); let noteLock := noteLock_.1 in
  _ ← throw_if (negb (length p.(ln_orderId) =? 16)%nat)
        (Error ("orderId must be 16 bytes, got " +:+ pretty (length p.(ln_orderId))));
  data ← catM [Ok (anchorDiscriminator "lock_note"); fixed32 p.(ln_noteCommitment);
               Ok p.(ln_orderId); Ok (u64LE p.(ln_expirySlot)); Ok (u64LE p.(ln_amount))];
  Ok {| ix_programId := p.(ln_programId);
        ix_keys := [meta p.(ln_teeAuthority) true true; meta vaultPda false false;
                    meta noteLock false true; meta SystemProgram_programId false false];
        ix_data := data |}.

Definition buildWithdrawInstruction (p : BuildWithdrawParams) : res TransactionInstruction :=
  let vaultPda := (vaultConfigPda p.(wi_programId)).1 in
  let vaultTokenAcct := (vaultTokenAccountPda p.(wi_programId) p.(wi_tokenMint)).1 in
  consumedNote_ ← consumedNotePda p.(wi_programId) p.(wi_noteCommitment); let consumedNote := consumedNote_.1 in
  noteLock_ ← noteLockPda p.(wi_programId) p.(wi_noteCommitment); let noteLock := noteLock_.1 in
  nullifierEntry_ ← nullifierEntryPda p.(wi_programId) p.(wi_nullifier); let nullifierEntry := nullifierEntry_.1 in
  data ← catM [Ok (anchorDiscriminator "withdraw"); fixed32 p.(wi_noteCommitment);
               fixed32 p.(wi_nullifier); fixed32 p.(merkleRoot); Ok (u64LE p.(wi_amount));
               serializeProof p.(wi_proof)];
  Ok {| ix_programId := p.(wi_programId);
        ix_keys := [meta p.(wi_payer) true true; meta vaultPda false true;
                    meta p.(wi_tokenMint) false false; meta vaultTokenAcct false true;
                    meta p.(destinationTokenAccount) false true; meta consumedNote false false;
                    meta noteLock false false; meta nullifierEntry false true;
                    meta p.(wi_tokenProgramId) false false; meta SystemProgram_programId false false];
        ix_data := data |}.
End vault_client.

#[global] Arguments fixed : simpl never.

(** ** Lemmas *)

Lemma serializeProof_Ok p bs :
  serializeProof p = Ok bs ↔
  length p.(piA) = 64%nat ∧ length p.(piB) = 128%nat ∧ length p.(piC) = 64%nat ∧
  bs = p.(piA) ++ p.(piB) ++ p.(piC).
Proof.
  unfold serializeProof, fixed64, fixed128. split.
  - intros H. inv_res. subst. by rewrite app_nil_r.
  - intros (HA & HB & HC & ->). rewrite !fixed_Ok, !catM_cons_Ok by done.
    cbn. by rewrite app_nil_r.
Qed.
