(* ===== verification/VaultProgram.v ===== *)
(** The vault program's entry points ([programs/vault/src]) as the SDK meets
    them: the Borsh arguments of each handler and the account constraints of
    each [#[derive(Accounts)]] struct.  The theorems say that what the builders
    of [VaultClient] produce is what the program accepts and reads. *)

From S2P Require Import Prelude Bytes Errors Externals Borsh VaultClient.

Local Open Scope Z_scope.

(** ** Handler arguments ([lib.rs], [#[program] mod vault]) *)

Record Groth16Proof := { pi_a : bytes; pi_b : bytes; pi_c : bytes }.

Inductive VaultIx :=
  | VInitialize (tee_pubkey root_key : bytes)
  | VRotateRootKey (new_root_key : bytes)
  | VCreateWallet (commitment : bytes) (proof : Groth16Proof)
  | VDeposit (amount : Z) (owner_commitment nonce blinding_r : bytes)
  | VWithdraw (note_commitment nullifier merkle_root : bytes) (amount : Z) (proof : Groth16Proof)
  | VLockNote (note_commitment order_id : bytes) (expiry_slot amount : Z)
  | VSetProtocolConfig (protocol_owner_commitment : bytes) (fee_rate_bps : Z)
  | VResetMerkleTree.

Definition p_proof : parser Groth16Proof :=
  a ← p_bytes 64; b ← p_bytes 128; c ← p_bytes 64;
  mret {| pi_a := a; pi_b := b; pi_c := c |}.

Definition vault_table : list (string * parser VaultIx) := [
  ("initialize", t ← p_bytes 32; r ← p_bytes 32; mret (VInitialize t r));
  ("rotate_root_key", r ← p_bytes 32; mret (VRotateRootKey r));
  ("create_wallet", c ← p_bytes 32; p ← p_proof; mret (VCreateWallet c p));
  ("deposit", a ← p_u64; o ← p_bytes 32; n ← p_bytes 32; b ← p_bytes 32; mret (VDeposit a o n b));
  ("withdraw", c ← p_bytes 32; n ← p_bytes 32; m ← p_bytes 32; a ← p_u64; p ← p_proof;
     mret (VWithdraw c n m a p));
  ("lock_note", c ← p_bytes 32; o ← p_bytes 16; e ← p_u64; a ← p_u64; mret (VLockNote c o e a));
  ("set_protocol_config", c ← p_bytes 32; f ← p_u16; mret (VSetProtocolConfig c f));
  ("reset_merkle_tree", mret VResetMerkleTree)].

Section vault_program.
Context `{Web3}.

Definition config_slot (m : bool) (pid : PublicKey) : AccountSlot :=
  seeded m pid [ascii_bytes "vault_config"].

(** [Program<'info, Token>]: the SPL Token program and no other. *)
Definition token_program : PublicKey := publicKeyFromBase58 "TokenkegQfeZyiNwAJbNbGKPFXCWuBvf9Ss623VQ5DA".
Definition token_slot : AccountSlot := at_address false token_program.

(** The structs [Initialize], [RotateRootKey], [CreateWallet], [Deposit],
    [Withdraw], [LockNote], [SetProtocolConfig] and [ResetMerkleTree]. *)
Definition vault_accounts (pid : PublicKey) (ix : VaultIx) (ms : list AccountMeta) : list AccountSlot :=
  match ix with
  | VInitialize _ _ => [signer true; config_slot true pid; system_slot]
  | VRotateRootKey _ => [signer false; config_slot true pid]
  | VCreateWallet c _ =>
      [signer true; any false; seeded true pid [ascii_bytes "wallet"; c]; system_slot]
  | VDeposit _ _ _ _ =>
      [signer true; config_slot true pid; any false; any true;
       seeded true pid [ascii_bytes "vault_token"; key_seed ms 2]; token_slot; system_slot;
       at_address false (publicKeyFromBase58 "SysvarRent111111111111111111111111111111111")]
  | VWithdraw c n _ _ _ =>
      [signer true; config_slot true pid; any false;
       seeded true pid [ascii_bytes "vault_token"; key_seed ms 2]; any true;
       seeded false pid [ascii_bytes "consumed_note"; c]; seeded false pid [ascii_bytes "note_lock"; c];
       seeded true pid [ascii_bytes "nullifier"; n]; token_slot; system_slot]
  | VLockNote c _ _ _ =>
      [signer true; config_slot false pid; seeded true pid [ascii_bytes "note_lock"; c]; system_slot]
  | VSetProtocolConfig _ _ => [signer false; config_slot true pid]
  | VResetMerkleTree => [signer false; config_slot true pid]
  end.

#[export] Instance vault_program : Program VaultIx :=
  {| prog_table := vault_table; prog_accounts := vault_accounts |}.
End vault_program.

(** ** The SDK's calls *)

Inductive VaultCall :=
  | CInitialize (p : BuildInitializeParams)
  | CSetProtocolConfig (p : BuildSetProtocolConfigParams)
  | CResetMerkleTree (p : BuildResetMerkleTreeParams)
  | CRotateRootKey (p : BuildRotateRootKeyParams)
  | CCreateWallet (p : BuildCreateWalletParams)
  | CDeposit (p : BuildDepositParams)
  | CWithdraw (p : BuildWithdrawParams)
  | CLockNote (p : BuildLockNoteParams).

Definition build_vault `{NodeCrypto} `{Web3} (c : VaultCall) : res TransactionInstruction :=
  match c with
  | CInitialize p => Ok (buildInitializeInstruction p)
  | CSetProtocolConfig p => buildSetProtocolConfigInstruction p
  | CResetMerkleTree p => Ok (buildResetMerkleTreeInstruction p)
  | CRotateRootKey p => Ok (buildRotateRootKeyInstruction p)
  | CCreateWallet p => buildCreateWalletInstruction p
  | CDeposit p => buildDepositInstruction p
  | CWithdraw p => buildWithdrawInstruction p
  | CLockNote p => buildLockNoteInstruction p
  end.

Definition call_program (c : VaultCall) : PublicKey :=
  match c with
  | CInitialize p => p.(in_programId)
  | CSetProtocolConfig p => p.(sp_programId)
  | CResetMerkleTree p => p.(rm_programId)
  | CRotateRootKey p => p.(rr_programId)
  | CCreateWallet p => p.(cw_programId)
  | CDeposit p => p.(de_programId)
  | CWithdraw p => p.(wi_programId)
  | CLockNote p => p.(ln_programId)
  end.

Definition onchain_proof (p : Groth16OnChainProof) : Groth16Proof :=
  {| pi_a := p.(piA); pi_b := p.(piB); pi_c := p.(piC) |}.

(** The arguments the caller means; amounts and slots are [u64] on chain. *)
Definition call_args (c : VaultCall) : VaultIx :=
  match c with
  | CInitialize p => VInitialize (toBytes p.(in_teePubkey)) (toBytes p.(in_rootKey))
  | CSetProtocolConfig p => VSetProtocolConfig p.(protocolOwnerCommitment) p.(feeRateBps)
  | CResetMerkleTree p => VResetMerkleTree
  | CRotateRootKey p => VRotateRootKey (toBytes p.(newRootKey))
  | CCreateWallet p => VCreateWallet p.(cw_commitment) (onchain_proof p.(cw_proof))
  | CDeposit p => VDeposit (p.(de_amount) mod U64) p.(de_ownerCommitment) p.(de_nonce) p.(de_blindingR)
  | CWithdraw p => VWithdraw p.(wi_noteCommitment) p.(wi_nullifier) p.(merkleRoot)
                     (p.(wi_amount) mod U64) (onchain_proof p.(wi_proof))
  | CLockNote p => VLockNote p.(ln_noteCommitment) p.(ln_orderId) (p.(ln_expirySlot) mod U64)
                     (p.(ln_amount) mod U64)
  end.

Definition proof_sized (p : Groth16OnChainProof) : Prop :=
  length p.(piA) = 64%nat ∧ length p.(piB) = 128%nat ∧ length p.(piC) = 64%nat.

(** The inputs a builder accepts. *)
Definition call_sized (c : VaultCall) : Prop :=
  match c with
  | CInitialize _ | CResetMerkleTree _ | CRotateRootKey _ => True
  | CSetProtocolConfig p => length p.(protocolOwnerCommitment) = 32%nat ∧ 0 ≤ p.(feeRateBps) ≤ 10000
  | CCreateWallet p => length p.(cw_commitment) = 32%nat ∧ proof_sized p.(cw_proof)
  | CDeposit p => length p.(de_ownerCommitment) = 32%nat ∧ length p.(de_nonce) = 32%nat ∧
                  length p.(de_blindingR) = 32%nat
  | CWithdraw p => length p.(wi_noteCommitment) = 32%nat ∧ length p.(wi_nullifier) = 32%nat ∧
                   length p.(merkleRoot) = 32%nat ∧ proof_sized p.(wi_proof)
  | CLockNote p => length p.(ln_noteCommitment) = 32%nat ∧ length p.(ln_orderId) = 16%nat
  end.

#[global] Instance call_sized_dec c : Decision (call_sized c).
Proof. destruct c; unfold call_sized, proof_sized; apply _. Defined.

(** The token program a call names is the one the vault's structs ask for. *)
Definition call_token `{Web3} (c : VaultCall) : Prop :=
  match c with
  | CDeposit p => p.(de_tokenProgramId) = token_program
  | CWithdraw p => p.(wi_tokenProgramId) = token_program
  | _ => True
  end.

(** ** Lemmas *)

Section vault_accepts.
Context `{NodeCrypto} `{!NodeCryptoLaws} `{Web3}.
Hypothesis Hdist : distinct_discriminators program_names.

Lemma p_proof_app p t :
  proof_sized p → p_proof (p.(piA) ++ p.(piB) ++ p.(piC) ++ t) = Some (onchain_proof p, t).
Proof. intros (HA & HB & HC). unfold p_proof. p_run. Qed.

Ltac proof_piece :=
  match goal with Hs : serializeProof _ = Ok _ |- _ => apply serializeProof_Ok in Hs as (? & ? & ? & ->) end.
Ltac proof_read := erewrite p_bind_Some by (apply p_proof_app; done); reflexivity.

Lemma build_vault_accepted c tx :
  build_vault c = Ok tx → call_token c →
  accepted_as (call_program c) tx (call_args c).
Proof.
  destruct c as [p|p|p|p|p|p|p|p]; cbn [build_vault call_program call_args call_token];
    unfold buildSetProtocolConfigInstruction, buildCreateWalletInstruction, buildDepositInstruction,
      buildWithdrawInstruction, buildLockNoteInstruction, walletEntryPda, noteLockPda, consumedNotePda,
      nullifierEntryPda, fixed32; intros Hb Htok; inv_res.
  - accepted Hdist. p_run.
  - accepted Hdist. p_run. cbn. apply orb_false_iff in Ha as [?%Z.ltb_ge ?%Z.ltb_ge].
    rewrite Z.mod_small by lia. done.
  - accepted Hdist. p_run.
  - accepted Hdist. p_run.
  - proof_piece. accepted Hdist. p_run. proof_read.
  - accepted Hdist. p_run.
  - proof_piece. accepted Hdist. p_run. proof_read.
  - apply negb_false_iff, Nat.eqb_eq in Ha0. accepted Hdist. p_run.
Qed.

(** Another token program is refused. *)
Lemma build_vault_refused c tx :
  build_vault c = Ok tx → accepted_as (call_program c) tx (call_args c) → call_token c.
Proof.
  destruct c as [p|p|p|p|p|p|p|p]; try done; cbn [build_vault call_program call_args call_token];
    unfold buildDepositInstruction, buildWithdrawInstruction, fixed32; intros Hb Hacc%accepted_accounts; inv_res; subst tx;
    cbn in Hacc; rewrite ?andb_true_iff, ?bool_decide_eq_true in Hacc; tauto.
Qed.

Lemma build_vault_accepted_iff c tx :
  build_vault c = Ok tx → accepted_as (call_program c) tx (call_args c) ↔ call_token c.
Proof. intros Hb. split; [by apply build_vault_refused|by apply build_vault_accepted]. Qed.

(** A builder throws exactly on inputs of the wrong size. *)
Lemma build_vault_total c : call_sized c → is_Ok (build_vault c) = true.
Proof.
  destruct c as [p|p|p|p|p|p|p|p]; cbn [build_vault call_sized]; try done;
    unfold buildSetProtocolConfigInstruction, buildCreateWalletInstruction, buildDepositInstruction,
      buildWithdrawInstruction, buildLockNoteInstruction, walletEntryPda, noteLockPda, consumedNotePda,
      nullifierEntryPda, fixed32, proof_sized; intros Hs; destruct_and?;
    repeat match goal with
      | |- context [serializeProof ?q] =>
          rewrite (proj2 (serializeProof_Ok q (q.(piA) ++ q.(piB) ++ q.(piC)))) by done
      end;
    rewrite ?fixed_Ok by done; cbn [mbind res_bind].
  - rewrite (proj2 (orb_false_iff _ _)) by (split; apply Z.ltb_ge; lia). done.
  - done.
  - done.
  - done.
  - match goal with Hl : length (ln_orderId p) = _ |- _ => rewrite Hl end. done.
Qed.

Lemma build_vault_sized c tx : build_vault c = Ok tx → call_sized c.
Proof.
  destruct c as [p|p|p|p|p|p|p|p]; cbn [build_vault call_sized]; try done;
    unfold buildSetProtocolConfigInstruction, buildCreateWalletInstruction, buildDepositInstruction,
      buildWithdrawInstruction, buildLockNoteInstruction, walletEntryPda, noteLockPda, consumedNotePda,
      nullifierEntryPda, fixed32, proof_sized; intros Hb; inv_res;
    repeat match goal with
      | Hs : serializeProof _ = Ok _ |- _ => apply serializeProof_Ok in Hs as (? & ? & ? & ->)
      end; repeat split; try done; try (by destruct_and?).
  - apply orb_false_iff in Ha as [Hlo _]. by apply Z.ltb_ge in Hlo.
  - apply orb_false_iff in Ha as [_ Hhi]. by apply Z.ltb_ge in Hhi.
  - by apply negb_false_iff, Nat.eqb_eq in Ha0.
Qed.
End vault_accepts.

(** ** Properties *)

(** Every instruction builder of [vault-client.ts] agrees with the vault
    program: it succeeds exactly on inputs of the right sizes (and a fee rate of
    at most 10000), and then the program's entry accepts its accounts, with the
    PDAs the seeds fix and no more privilege than the struct asks for, and reads
    back the caller's arguments, with amounts and slots taken modulo 2^64; a
    deposit or withdrawal only if it names the SPL Token program. *)
Theorem vault_builders_accepted `{NodeCrypto} `{!NodeCryptoLaws} `{Web3} (c : VaultCall) :
  distinct_discriminators (fst <$> vault_table) →
  (call_sized c ∧ ∃ tx, build_vault c = Ok tx ∧ (accepted_as (call_program c) tx (call_args c) ↔ call_token c))
  ∨ (¬ call_sized c ∧ is_Ok (build_vault c) = false).
Proof.
  intros Hd. destruct (build_vault c) as [tx|e] eqn:Hb.
  - left. split; [by eapply build_vault_sized|]. exists tx. split; [done|].
    by apply build_vault_accepted_iff.
  - right. split; [|done]. intros Hs%build_vault_total. by rewrite Hb in Hs.
Qed.

Definition sample_lock : VaultCall := CLockNote
  {| ln_programId := Toy.zero_key; ln_teeAuthority := Toy.key_of (replicate 32 x01);
     ln_noteCommitment := replicate 32 x02; ln_orderId := replicate 16 x03;
     ln_expirySlot := 1000; ln_amount := 25 |}.

Lemma vault_builders_accepted_witness :
  call_sized sample_lock ∧
  ∃ tx, @build_vault Toy.toy_crypto Toy.toy_web3 sample_lock = Ok tx ∧
    (@accepted_as _ (@vault_program Toy.toy_web3) Toy.toy_crypto Toy.zero_key tx (call_args sample_lock) ↔
     @call_token Toy.toy_web3 sample_lock).
Proof.
  edestruct (@vault_builders_accepted Toy.toy_crypto Toy.toy_crypto_laws Toy.toy_web3 sample_lock)
    as [Hok|[Hbad _]].
  - unfold distinct_discriminators. apply (bool_decide_unpack _). vm_compute. exact I.
  - exact Hok.
  - destruct Hbad. repeat split.
Defined.
