(* ===== verification/MatchingEngineClient.v ===== *)
(** Instruction builders for the matching engine program
    ([idl/matching-engine-client.ts]). *)

From S2P Require Import Prelude Bytes Errors Externals Borsh VaultClient.

Local Open Scope Z_scope.

(** Maximum concurrent pending orders per (user, market). *)
Definition MAX_PENDING_SLOTS_PER_USER : Z := 4.

Inductive OrderType := Limit | IOC | FOK.
Definition OrderType_value (t : OrderType) : Z :=
  match t with Limit => 0 | IOC => 1 | FOK => 2 end.

Record BuildInitMarketParams := {
  im_programId : PublicKey; im_vaultProgramId : PublicKey; im_payer : PublicKey; im_market : PublicKey;
  im_baseMint : PublicKey; im_quoteMint : PublicKey; im_pythAccount : PublicKey;
  batchIntervalSlots : Z; circuitBreakerBps : Z; tickSize : Z; minOrderSize : Z }.

Record MemberArgJson := { flags : Z; member_pubkey : PublicKey }.

Record BuildConfigureAccessParams := {
  ca_programId : PublicKey; ca_rootKey : PublicKey; ca_market : PublicKey;
  members : list MemberArgJson; isUpdate : bool; permissionPda : PublicKey }.

Record BuildInitPendingOrderSlotParams := {
  is_programId : PublicKey; is_tradingKey : PublicKey; is_market : PublicKey; is_slotIdx : Z }.

Record BuildDelegatePendingOrderParams := {
  dp_programId : PublicKey; dp_payer : PublicKey; dp_tradingKey : PublicKey; dp_market : PublicKey;
  dp_slotIdx : Z }.

Record BuildSubmitOrderParams := {
  so_programId : PublicKey; so_tradingKey : PublicKey; so_market : PublicKey; so_slotIdx : Z;
  so_side : Z; so_amount : Z; so_priceLimit : Z; so_noteAmount : Z; so_expirySlot : Z;
  so_orderId : bytes; so_noteCommitment : bytes; so_userCommitment : bytes;
  so_orderType : option OrderType; so_minFillQty : option Z }.

Record SubmitOrderIxAndKeys := { submit_ix : TransactionInstruction; pendingOrderPda_ : PublicKey }.

Record BuildCancelOrderParams := {
  co_programId : PublicKey; co_tradingKey : PublicKey; co_market : PublicKey; co_slotIdx : Z }.

Record BuildRunBatchParams := {
  rb_programId : PublicKey; rb_vaultProgramId : PublicKey; rb_teeAuthority : PublicKey;
  rb_market : PublicKey; rb_pythAccount : PublicKey; pendingOrderPdas : list PublicKey }.

Record BuildInitMockOracleParams := {
  mo_programId : PublicKey; mo_payer : PublicKey; mockOracle : PublicKey; twap : Z }.

Section matching_client.
Context `{NodeCrypto} `{Web3}.

Definition PERMISSION_PROGRAM_ID : PublicKey :=
  publicKeyFromBase58 "ACLseoPoyC3cBqoUtkbjZ4aDrkurZW86v19pXz2XQnp1".

(** ** PDA derivations *)

Definition darkClobPda (programId market : PublicKey) : PublicKey * Z :=
  findProgramAddressSync [DARK_CLOB_SEED; toBytes market] programId.

Definition matchingConfigPda (programId market : PublicKey) : PublicKey * Z :=
  findProgramAddressSync [MATCHING_CONFIG_SEED; toBytes market] programId.

Definition batchResultsPda (programId market : PublicKey) : PublicKey * Z :=
  findProgramAddressSync [BATCH_RESULTS_SEED; toBytes market] programId.

Definition pendingOrderPda (programId market tradingKey : PublicKey) (slotIdx : Z)
    : res (PublicKey * Z) :=
  _ ← throw_if ((slotIdx <? 0) || (255 <? slotIdx))
        (Error ("slotIdx must be a u8 (0..255), got " +:+ pretty slotIdx));
  Ok (findProgramAddressSync
        [PENDING_ORDER_SEED; toBytes market; toBytes tradingKey; [u8_of_Z slotIdx]] programId).

(** The guard shared by the builders that name a slot. *)
Definition check_slotIdx (slotIdx : Z) : res () :=
  throw_if ((slotIdx <? 0) || (MAX_PENDING_SLOTS_PER_USER <=? slotIdx))
    (Error ("slotIdx must be in [0, " +:+ pretty MAX_PENDING_SLOTS_PER_USER +:+ "); got "
            +:+ pretty slotIdx)).

(** ** Builders *)

Definition buildInitMarketInstruction (p : BuildInitMarketParams) : TransactionInstruction :=
  let vaultCfg := (vaultConfigPda p.(im_vaultProgramId)).1 in
  let clobPda := (darkClobPda p.(im_programId) p.(im_market)).1 in
  let matchPda := (matchingConfigPda p.(im_programId) p.(im_market)).1 in
  let batchPda := (batchResultsPda p.(im_programId) p.(im_market)).1 in
  let data := cat [
    anchorDiscriminator "init_market";
    toBytes p.(im_market); toBytes p.(im_baseMint); toBytes p.(im_quoteMint);
    toBytes p.(im_pythAccount);
    u64LE p.(batchIntervalSlots); u64LE p.(circuitBreakerBps); u64LE p.(tickSize);
    u64LE p.(minOrderSize)] in
  {| ix_programId := p.(im_programId);
     ix_keys := [meta p.(im_payer) true true; meta vaultCfg false false; meta clobPda false true;
                 meta matchPda false true; meta batchPda false true;
                 meta SystemProgram_programId false false];
     ix_data := data |}.

(** [for (const m of p.members) { memberBytes.push([m.flags]); memberBytes.push(pubkey) }] *)
Definition memberBytes (ms : list MemberArgJson) : list bytes :=
  ms ≫= λ m, [[u8_of_Z m.(flags)]; toBytes m.(member_pubkey)].

Definition buildConfigureAccessInstruction (p : BuildConfigureAccessParams) : TransactionInstruction :=
  let clobPda := (darkClobPda p.(ca_programId) p.(ca_market)).1 in
  let matchPda := (matchingConfigPda p.(ca_programId) p.(ca_market)).1 in
  let data := cat ([
    anchorDiscriminator "configure_access";
    toBytes p.(ca_market);
    u32LE (Z.of_nat (length p.(members)))]
    ++ memberBytes p.(members)
    ++ [[if p.(isUpdate) then x01 else x00]]) in
  {| ix_programId := p.(ca_programId);
     ix_keys := [meta p.(ca_rootKey) true true; meta clobPda false true; meta matchPda false false;
                 meta p.(permissionPda) false true; meta PERMISSION_PROGRAM_ID false false;
                 meta SystemProgram_programId false false];
     ix_data := data |}.

Definition buildInitPendingOrderSlotInstruction (p : BuildInitPendingOrderSlotParams)
    : res TransactionInstruction :=
  _ ← check_slotIdx p.(is_slotIdx);
  pda_ ← pendingOrderPda p.(is_programId) p.(is_market) p.(is_tradingKey) p.(is_slotIdx);
  let pda := pda_.1 in
  let data := cat [anchorDiscriminator "init_pending_order_slot"; toBytes p.(is_market);
                   [u8_of_Z p.(is_slotIdx)]] in
  Ok {| ix_programId := p.(is_programId);
        ix_keys := [meta p.(is_tradingKey) true true; meta pda false true;
                    meta SystemProgram_programId false false];
        ix_data := data |}.

Definition buildDelegatePendingOrderInstruction (p : BuildDelegatePendingOrderParams)
    : res TransactionInstruction :=
  _ ← check_slotIdx p.(dp_slotIdx);
  pda_ ← pendingOrderPda p.(dp_programId) p.(dp_market) p.(dp_tradingKey) p.(dp_slotIdx);
  let pda := pda_.1 in
  let DELEGATION_PROGRAM_ID := publicKeyFromBase58 "DELeGGvXpWV2fqJUhqcF5ZSYMS4JTLjteaAMARRSaeSh" in
  let bufferPda := (findProgramAddressSync [ascii_bytes "buffer"; toBytes pda] p.(dp_programId)).1 in
  let recordPda :=
    (findProgramAddressSync [ascii_bytes "delegation"; toBytes pda] DELEGATION_PROGRAM_ID).1 in
  let metadataPda :=
    (findProgramAddressSync [ascii_bytes "delegation-metadata"; toBytes pda] DELEGATION_PROGRAM_ID).1 in
  let data := cat [anchorDiscriminator "delegate_pending_order"; toBytes p.(dp_market);
                   [u8_of_Z p.(dp_slotIdx)]] in
  Ok {| ix_programId := p.(dp_programId);
        ix_keys := [meta p.(dp_payer) true true; meta p.(dp_tradingKey) true false;
                    meta bufferPda false true; meta recordPda false true; meta metadataPda false true;
                    meta pda false true; meta p.(dp_programId) false false;
                    meta DELEGATION_PROGRAM_ID false false; meta SystemProgram_programId false false];
        ix_data := data |}.

Definition buildSubmitOrderInstruction (p : BuildSubmitOrderParams) : res SubmitOrderIxAndKeys :=
  _ ← check_slotIdx p.(so_slotIdx);
  _ ← throw_if (negb (p.(so_side) =? 0) && negb (p.(so_side) =? 1))
        (Error ("side must be 0 (bid) or 1 (ask); got " +:+ pretty p.(so_side)));
  slotPda_ ← pendingOrderPda p.(so_programId) p.(so_market) p.(so_tradingKey) p.(so_slotIdx);
  let slotPda := slotPda_.1 in
  argsBytes ← catM [
    Ok (toBytes p.(so_market));
    Ok [u8_of_Z p.(so_slotIdx)];
    Ok [u8_of_Z p.(so_side)];
    Ok [u8_of_Z (OrderType_value (default Limit p.(so_orderType)))];
    Ok (replicate 5 x00);
    Ok (u64LE p.(so_amount));
    Ok (u64LE (default 0 p.(so_minFillQty)));
    Ok (u64LE p.(so_priceLimit));
    Ok (u64LE p.(so_noteAmount));
    Ok (u64LE p.(so_expirySlot));
    fixed16 p.(so_orderId);
    fixed32 p.(so_noteCommitment);
    fixed32 p.(so_userCommitment)];
  let data := cat [anchorDiscriminator "submit_order"; argsBytes] in
  let ix := {| ix_programId := p.(so_programId);
               ix_keys := [meta p.(so_tradingKey) true true; meta slotPda false true];
               ix_data := data |} in
  Ok {| submit_ix := ix; pendingOrderPda_ := slotPda |}.

Definition buildCancelOrderInstruction (p : BuildCancelOrderParams) : res TransactionInstruction :=
  _ ← check_slotIdx p.(co_slotIdx);
  slotPda_ ← pendingOrderPda p.(co_programId) p.(co_market) p.(co_tradingKey) p.(co_slotIdx);
  let slotPda := slotPda_.1 in
  let data := cat [anchorDiscriminator "cancel_order"; toBytes p.(co_market); [u8_of_Z p.(co_slotIdx)]] in
  Ok {| ix_programId := p.(co_programId);
        ix_keys := [meta p.(co_tradingKey) true true; meta slotPda false true];
        ix_data := data |}.

Definition buildRunBatchInstruction (p : BuildRunBatchParams) : TransactionInstruction :=
  let matchPda := (matchingConfigPda p.(rb_programId) p.(rb_market)).1 in
  let batchPda := (batchResultsPda p.(rb_programId) p.(rb_market)).1 in
  let vaultCfg := (vaultConfigPda p.(rb_vaultProgramId)).1 in
  let data := cat [anchorDiscriminator "run_batch"; toBytes p.(rb_market)] in
  let keys := [meta p.(rb_teeAuthority) true true; meta matchPda false false; meta batchPda false true;
               meta vaultCfg false false; meta p.(rb_pythAccount) false false] in
  {| ix_programId := p.(rb_programId);
     ix_keys := keys ++ ((λ pda, meta pda false true) <$> p.(pendingOrderPdas));
     ix_data := data |}.

Definition buildInitMockOracleInstruction (p : BuildInitMockOracleParams) : TransactionInstruction :=
  let data := cat [anchorDiscriminator "init_mock_oracle"; u64LE p.(twap)] in
  {| ix_programId := p.(mo_programId);
     ix_keys := [meta p.(mo_payer) true true; meta p.(mockOracle) true true;
                 meta SystemProgram_programId false false];
     ix_data := data |}.
End matching_client.

(** ** Lemmas *)

Lemma check_slotIdx_Ok s u : check_slotIdx s = Ok u ↔ 0 ≤ s < MAX_PENDING_SLOTS_PER_USER.
Proof.
  unfold check_slotIdx. rewrite throw_if_Ok, orb_false_iff, Z.ltb_ge, Z.leb_gt. done.
Qed.

Lemma pendingOrderPda_Ok `{Web3} pid m t s :
  0 ≤ s < MAX_PENDING_SLOTS_PER_USER →
  pendingOrderPda pid m t s =
  Ok (findProgramAddressSync [PENDING_ORDER_SEED; toBytes m; toBytes t; [u8_of_Z s]] pid).
Proof.
  unfold MAX_PENDING_SLOTS_PER_USER. intros [Hlo Hhi]. unfold pendingOrderPda.
  destruct (Z.ltb_spec s 0), (Z.ltb_spec 255 s); try lia. done.
Qed.
