(* ===== verification/ErClient.v ===== *)
(** Ephemeral-rollup helpers ([idl/er-client.ts]): delegation PDAs, the
    delegate / commit / undelegate builders and the L1 poll loop. *)

From S2P Require Import Prelude Bytes Errors Externals Borsh VaultClient MatchingEngineClient.

Local Open Scope Z_scope.

Definition DELEGATE_BUFFER_TAG : bytes := ascii_bytes "buffer".
Definition DELEGATION_RECORD_TAG : bytes := ascii_bytes "delegation".
Definition DELEGATION_METADATA_TAG : bytes := ascii_bytes "delegation-metadata".

Record DelegationPdas := { dg_buffer : PublicKey; dg_record : PublicKey; dg_metadata : PublicKey }.
Record DelegateMarketPdaParams := { dm_programId : PublicKey; dm_payer : PublicKey; dm_market : PublicKey }.
Record BuildCommitMarketStateParams := {
  cm_programId : PublicKey; cm_payer : PublicKey; cm_market : PublicKey }.

Section er_client.
Context `{NodeCrypto} `{Web3}.

Definition DELEGATION_PROGRAM_ID : PublicKey :=
  publicKeyFromBase58 "DELeGGvXpWV2fqJUhqcF5ZSYMS4JTLjteaAMARRSaeSh".
Definition MAGIC_PROGRAM_ID : PublicKey :=
  publicKeyFromBase58 "Magic11111111111111111111111111111111111111".
Definition MAGIC_CONTEXT_ID : PublicKey :=
  publicKeyFromBase58 "MagicContext1111111111111111111111111111111".

Definition delegationPdas (ownerProgramId delegatedPda : PublicKey) : DelegationPdas :=
  {| dg_buffer := (findProgramAddressSync [DELEGATE_BUFFER_TAG; toBytes delegatedPda] ownerProgramId).1;
     dg_record :=
       (findProgramAddressSync [DELEGATION_RECORD_TAG; toBytes delegatedPda] DELEGATION_PROGRAM_ID).1;
     dg_metadata :=
       (findProgramAddressSync [DELEGATION_METADATA_TAG; toBytes delegatedPda] DELEGATION_PROGRAM_ID).1 |}.

Definition encodePubkeyArg (market : PublicKey) : bytes := toBytes market.

Definition buildDelegatePdaIx (params : DelegateMarketPdaParams) (ixName : string) (pda : PublicKey)
    : TransactionInstruction :=
  let d := delegationPdas params.(dm_programId) pda in
  let keys := [
    meta params.(dm_payer) true true;
    meta d.(dg_buffer) false true;
    meta d.(dg_record) false true;
    meta d.(dg_metadata) false true;
    meta pda false true;
    meta params.(dm_programId) false false;
    meta DELEGATION_PROGRAM_ID false false;
    meta SystemProgram_programId false false] in
  let data := cat [anchorDiscriminator ixName; encodePubkeyArg params.(dm_market)] in
  {| ix_programId := params.(dm_programId); ix_keys := keys; ix_data := data |}.

Definition buildDelegateDarkClobInstruction (p : DelegateMarketPdaParams) : TransactionInstruction :=
  buildDelegatePdaIx p "delegate_dark_clob" (darkClobPda p.(dm_programId) p.(dm_market)).1.

Definition buildDelegateMatchingConfigInstruction (p : DelegateMarketPdaParams) : TransactionInstruction :=
  buildDelegatePdaIx p "delegate_matching_config" (matchingConfigPda p.(dm_programId) p.(dm_market)).1.

Definition buildDelegateBatchResultsInstruction (p : DelegateMarketPdaParams) : TransactionInstruction :=
  buildDelegatePdaIx p "delegate_batch_results" (batchResultsPda p.(dm_programId) p.(dm_market)).1.

Definition commitMarketStateAccounts (p : BuildCommitMarketStateParams) : list AccountMeta :=
  let clob := (darkClobPda p.(cm_programId) p.(cm_market)).1 in
  let mcfg := (matchingConfigPda p.(cm_programId) p.(cm_market)).1 in
  let breq := (batchResultsPda p.(cm_programId) p.(cm_market)).1 in
  [meta p.(cm_payer) true true; meta clob false true; meta mcfg false true; meta breq false true;
   meta MAGIC_PROGRAM_ID false false; meta MAGIC_CONTEXT_ID false true].

Definition buildCommitMarketStateInstruction (p : BuildCommitMarketStateParams) : TransactionInstruction :=
  {| ix_programId := p.(cm_programId); ix_keys := commitMarketStateAccounts p;
     ix_data := anchorDiscriminator "commit_market_state" |}.

Definition buildUndelegateMarketInstruction (p : BuildCommitMarketStateParams) : TransactionInstruction :=
  {| ix_programId := p.(cm_programId); ix_keys := commitMarketStateAccounts p;
     ix_data := anchorDiscriminator "undelegate_market" |}.
End er_client.

(** ** [waitForL1AccountChange] *)

Section wait.
Context `{Web3}.
(** The RPC node and the clock: reading the clock, fetching the account data
    ([None] when the account does not exist) and sleeping act on a world. *)
Context {S : Type} (now : M S Z) (getAccountInfo : PublicKey → M S (option bytes))
  (sleep : Z → M S ()).

(** Two lower-case hexadecimal strings are equal exactly when the data is, so
    the comparison of [hex] with [initialDataHex] is one of the data. *)
Fixpoint wait_loop (fuel : nat) (pubkey : PublicKey) (initialData : option bytes)
    (timeoutMs intervalMs deadline : Z) : M S bytes :=
  match fuel with
  | O => throw EFuel
  | Datatypes.S fuel =>
      t ← now;
      if t <? deadline then
        acct ← getAccountInfo pubkey;
        match acct with
        | Some data =>
            if decide (Some data ≠ initialData) then mret data
            else _ ← sleep intervalMs; wait_loop fuel pubkey initialData timeoutMs intervalMs deadline
        | None =>
            _ ← sleep intervalMs; wait_loop fuel pubkey initialData timeoutMs intervalMs deadline
        end
      else throw (Error ("waitForL1AccountChange: " +:+ toBase58 pubkey +:+
                         " did not change within " +:+ pretty timeoutMs +:+ "ms"))
  end.

Definition waitForL1AccountChange (fuel : nat) (pubkey : PublicKey) (initialData : option bytes)
    (timeoutMs intervalMs : option Z) : M S bytes :=
  let timeoutMs := default 45000 timeoutMs in
  let intervalMs := default 750 intervalMs in
  t0 ← now;
  let deadline := t0 + timeoutMs in
  wait_loop fuel pubkey initialData timeoutMs intervalMs deadline.
End wait.

(** ** Termination of the poll loop *)

Section wait_terminates.
Context `{Web3} {S : Type} (clock : S → Z).
Context (now : M S Z) (getAccountInfo : PublicKey → M S (option bytes)) (sleep : Z → M S ()).

(** Reading the clock reads it; a fetch takes no negative time; a sleep lasts
    at least as long as asked. *)
Record timed_world : Prop := {
  now_reads : ∀ s, now s = (Ok (clock s), s);
  fetch_time : ∀ pk s, clock s ≤ clock (getAccountInfo pk s).2;
  fetch_fuel : ∀ pk s, (getAccountInfo pk s).1 ≠ Throw EFuel;
  sleep_time : ∀ ms s, (sleep ms s).1 = Ok () ∧ clock s + ms ≤ clock (sleep ms s).2;
}.

(** How the loop may end in world [s']: with changed data, with the timeout
    message at or after the deadline, or with an error of the RPC node. *)
Definition wait_outcome (pubkey : PublicKey) (initialData : option bytes) (timeoutMs deadline : Z)
    (r : res bytes * S) : Prop :=
  (∃ data, r.1 = Ok data ∧ Some data ≠ initialData) ∨
  (r.1 = Throw (Error ("waitForL1AccountChange: " +:+ toBase58 pubkey +:+
                       " did not change within " +:+ pretty timeoutMs +:+ "ms")) ∧ deadline ≤ clock r.2) ∨
  (∃ e s1, r.1 = Throw e ∧ (getAccountInfo pubkey s1).1 = Throw e).

Lemma wait_loop_outcome (Ht : timed_world) fuel pubkey initialData timeoutMs intervalMs deadline s :
  0 < intervalMs → deadline - clock s <= intervalMs * Z.of_nat fuel →
  wait_outcome pubkey initialData timeoutMs deadline
    (wait_loop now getAccountInfo sleep (Datatypes.S fuel) pubkey initialData timeoutMs intervalMs deadline s).
Proof.
  intros Hpos. revert s. induction fuel as [|fuel IH]; intros s Hf; cbn [wait_loop];
    rewrite (M_bind_run _ _ s (clock s) s) by apply Ht; destruct (Z.ltb_spec (clock s) deadline) as [Hlt|Hge].
  - lia.
  - right; left. split; [done|exact Hge].
  - pose proof (fetch_time Ht pubkey s) as Hc. destruct (getAccountInfo pubkey s) as [[acct|e] s1] eqn:Hg; cbn in Hc.
    2:{ rewrite (M_bind_throw _ _ s e s1) by done. right; right. exists e, s. by rewrite Hg. }
    rewrite (M_bind_run _ _ s acct s1) by done.
    destruct (sleep_time Ht intervalMs s1) as [Hs Hsc]. destruct (sleep intervalMs s1) as [rs s2] eqn:Hsl.
    cbn in Hs, Hsc. subst rs.
    assert (Hgo : wait_outcome pubkey initialData timeoutMs deadline
      (wait_loop now getAccountInfo sleep (Datatypes.S fuel) pubkey initialData timeoutMs intervalMs deadline s2)).
    { apply IH. lia. }
    destruct acct as [data|]; [case_decide as Hd|].
    + left. exists data. done.
    + by rewrite (M_bind_run _ _ s1 () s2).
    + by rewrite (M_bind_run _ _ s1 () s2).
  - right; left. split; [done|exact Hge].
Qed.
End wait_terminates.

(** A world that only has a clock, and an account whose data changes at time 2000. *)
Definition sample_fetch : PublicKey → M Z (option bytes) := λ _ t,
  (Ok (Some (if 2000 <=? t then [x02] else [x01])), t + 10).

(** ** Properties *)

(** [waitForL1AccountChange] terminates: with a positive interval, fuel for
    one round per interval of the timeout is enough, and it ends with data that
    differs from the initial data, with the timeout error once the deadline has
    passed, or with an error the RPC node returned. *)
Theorem waitForL1AccountChange_terminates `{Web3} {S : Type} (clock : S → Z) now getAccountInfo sleep
    fuel pubkey initialData timeoutMs intervalMs (s : S) :
  timed_world clock now getAccountInfo sleep →
  0 < default 750 intervalMs →
  default 45000 timeoutMs <= default 750 intervalMs * Z.of_nat fuel →
  let r := waitForL1AccountChange now getAccountInfo sleep (Datatypes.S fuel) pubkey initialData
             timeoutMs intervalMs s in
  wait_outcome clock getAccountInfo pubkey initialData (default 45000 timeoutMs)
    (clock s + default 45000 timeoutMs) r ∧ r.1 ≠ Throw EFuel.
Proof.
  intros Ht Hpos Hf r.
  assert (Ho : wait_outcome clock getAccountInfo pubkey initialData (default 45000 timeoutMs)
    (clock s + default 45000 timeoutMs) r).
  { subst r. unfold waitForL1AccountChange. rewrite (M_bind_run _ _ s (clock s) s) by apply Ht.
    apply (wait_loop_outcome clock); [done|done|lia]. }
  split; [done|]. destruct Ho as [(? & -> & _)|[(-> & _)|(e & s1 & -> & He)]]; [done|done|].
  intros [= ->]. exact (fetch_fuel _ _ _ _ Ht _ _ He).
Qed.

Lemma waitForL1AccountChange_terminates_witness :
  timed_world id (λ t, (Ok t, t)) sample_fetch (λ ms t, (Ok (), t + ms)) ∧
  wait_outcome (H := Toy.toy_web3) id sample_fetch Toy.zero_key (Some [x01]) 3000 3000
    (waitForL1AccountChange (H := Toy.toy_web3) (λ t, (Ok t, t)) sample_fetch (λ ms t, (Ok (), t + ms)) 5
       Toy.zero_key (Some [x01]) (Some 3000) None 0).
Proof.
  assert (Ht : timed_world id (λ t, (Ok t, t)) sample_fetch (λ ms t, (Ok (), t + ms))).
  { split; [done| |done|]; intros; cbn; [lia|]. split; [done|lia]. }
  split; [exact Ht|].
  exact (proj1 (waitForL1AccountChange_terminates (H := Toy.toy_web3) id _ _ _ 4 Toy.zero_key (Some [x01])
    (Some 3000) None 0 Ht eq_refl ltac:(cbn; lia))).
Defined.
