(* ===== verification/MatchingProgram.v ===== *)
(** The matching engine's entry points ([programs/matching_engine/src]) as the
    SDK meets them, with the slot-index and collateral guards of the order
    handlers, and the theorem that the builders of [MatchingEngineClient] and
    [ErClient] produce what the program accepts. *)

From S2P Require Import Prelude Bytes Errors Externals Borsh VaultClient MatchingEngineClient ErClient.

Local Open Scope Z_scope.

(** ** Handler arguments ([lib.rs], [#[program] mod matching_engine]) *)

Record InitMarketArgs := {
  ima_market : bytes; base_mint : bytes; quote_mint : bytes; pyth_account : bytes;
  batch_interval_slots : Z; circuit_breaker_bps : Z; tick_size : Z; min_order_size : Z }.

Record SubmitOrderArgs := {
  soa_market : bytes; slot_idx : Z; side : Z; order_type : Z; soa_padding : bytes;
  soa_amount : Z; min_fill_qty : Z; price_limit : Z; note_amount : Z; expiry_slot : Z;
  order_id : bytes; note_commitment : bytes; user_commitment : bytes }.

Inductive MatchingIx :=
  | MInitMarket (args : InitMarketArgs)
  | MConfigureAccess (market : bytes) (members : list (Z * bytes)) (is_update : bool)
  | MInitPendingOrderSlot (market : bytes) (slot : Z)
  | MDelegatePendingOrder (market : bytes) (slot : Z)
  | MDelegateDarkClob (market : bytes)
  | MDelegateMatchingConfig (market : bytes)
  | MDelegateBatchResults (market : bytes)
  | MSubmitOrder (args : SubmitOrderArgs)
  | MCancelOrder (market : bytes) (slot : Z)
  | MRunBatch (market : bytes)
  | MInitMockOracle (twap : Z)
  | MCommitMarketState
  | MUndelegateMarket.

Definition p_init_market : parser InitMarketArgs :=
  m ← p_bytes 32; b ← p_bytes 32; q ← p_bytes 32; y ← p_bytes 32;
  i ← p_u64; c ← p_u64; t ← p_u64; s ← p_u64;
  mret {| ima_market := m; base_mint := b; quote_mint := q; pyth_account := y;
          batch_interval_slots := i; circuit_breaker_bps := c; tick_size := t; min_order_size := s |}.

Definition p_submit_order : parser SubmitOrderArgs :=
  m ← p_bytes 32; i ← p_u8; s ← p_u8; t ← p_u8; pad ← p_bytes 5;
  a ← p_u64; f ← p_u64; p ← p_u64; n ← p_u64; e ← p_u64;
  o ← p_bytes 16; c ← p_bytes 32; u ← p_bytes 32;
  mret {| soa_market := m; slot_idx := i; side := s; order_type := t; soa_padding := pad;
          soa_amount := a; min_fill_qty := f; price_limit := p; note_amount := n; expiry_slot := e;
          order_id := o; note_commitment := c; user_commitment := u |}.

(** [MemberArg] *)
Definition p_member : parser (Z * bytes) := f ← p_u8; k ← p_bytes 32; mret (f, k).

Definition p_market_slot (mk : bytes → Z → MatchingIx) : parser MatchingIx :=
  m ← p_bytes 32; s ← p_u8; mret (mk m s).

Definition matching_table : list (string * parser MatchingIx) := [
  ("init_market", a ← p_init_market; mret (MInitMarket a));
  ("configure_access", m ← p_bytes 32; l ← p_vec p_member; u ← p_bool; mret (MConfigureAccess m l u));
  ("init_pending_order_slot", p_market_slot MInitPendingOrderSlot);
  ("delegate_pending_order", p_market_slot MDelegatePendingOrder);
  ("delegate_dark_clob", m ← p_bytes 32; mret (MDelegateDarkClob m));
  ("submit_order", a ← p_submit_order; mret (MSubmitOrder a));
  ("cancel_order", p_market_slot MCancelOrder);
  ("run_batch", m ← p_bytes 32; mret (MRunBatch m));
  ("init_mock_oracle", t ← p_u64; mret (MInitMockOracle t));
  ("delegate_matching_config", m ← p_bytes 32; mret (MDelegateMatchingConfig m));
  ("delegate_batch_results", m ← p_bytes 32; mret (MDelegateBatchResults m));
  ("commit_market_state", mret MCommitMarketState);
  ("undelegate_market", mret MUndelegateMarket)].

Section matching_program.
Context `{Web3}.
(** The id of the vault program the matching engine was built against. *)
Variable vault_id : PublicKey.

Definition market_seeded (m : bool) (pid : PublicKey) (tag : string) (market : bytes) : AccountSlot :=
  seeded m pid [ascii_bytes tag; market].

Definition slot_seeded (pid : PublicKey) (market : bytes) (ms : list AccountMeta) (signer_at : nat)
    (slot : Z) : AccountSlot :=
  seeded true pid [ascii_bytes "pending_order"; market; key_seed ms signer_at; [u8_of_Z slot]].

(** The accounts of the structs marked [#[derive(Accounts)]].  The [#[delegate]]
    and [#[commit]] macros of the rollup SDK insert accounts of their own; for
    those structs only the fields before the inserted ones are listed. *)
Definition matching_accounts (pid : PublicKey) (ix : MatchingIx) (ms : list AccountMeta)
    : list AccountSlot :=
  match ix with
  | MInitMarket a =>
      [signer true; seeded false vault_id [ascii_bytes "vault_config"];
       market_seeded true pid "dark_clob" a.(ima_market);
       market_seeded true pid "matching_config" a.(ima_market);
       market_seeded true pid "batch_results" a.(ima_market); system_slot]
  | MConfigureAccess m _ _ =>
      [signer true; market_seeded true pid "dark_clob" m; market_seeded false pid "matching_config" m;
       any true; at_address false PERMISSION_PROGRAM_ID; system_slot]
  | MInitPendingOrderSlot m s => [signer true; slot_seeded pid m ms 0 s; system_slot]
  | MSubmitOrder a => [signer true; slot_seeded pid a.(soa_market) ms 0 a.(slot_idx)]
  | MCancelOrder m s => [signer true; slot_seeded pid m ms 0 s]
  | MRunBatch m =>
      [signer true; market_seeded false pid "matching_config" m; market_seeded true pid "batch_results" m;
       seeded false vault_id [ascii_bytes "vault_config"]; any false]
  | MInitMockOracle _ => [signer true; signer true; system_slot]
  | MDelegatePendingOrder _ _ => [signer true; signer false]
  | MDelegateDarkClob _ | MDelegateMatchingConfig _ | MDelegateBatchResults _ => [signer true]
  | MCommitMarketState | MUndelegateMarket => [signer true; any true; any true; any true]
  end.

#[export] Instance matching_program : Program MatchingIx :=
  {| prog_table := matching_table; prog_accounts := matching_accounts |}.
End matching_program.

(** ** The SDK's calls *)

Inductive MatchingCall :=
  | KInitMarket (p : BuildInitMarketParams)
  | KConfigureAccess (p : BuildConfigureAccessParams)
  | KInitPendingOrderSlot (p : BuildInitPendingOrderSlotParams)
  | KDelegatePendingOrder (p : BuildDelegatePendingOrderParams)
  | KSubmitOrder (p : BuildSubmitOrderParams)
  | KCancelOrder (p : BuildCancelOrderParams)
  | KRunBatch (p : BuildRunBatchParams)
  | KInitMockOracle (p : BuildInitMockOracleParams)
  | KDelegateDarkClob (p : DelegateMarketPdaParams)
  | KDelegateMatchingConfig (p : DelegateMarketPdaParams)
  | KDelegateBatchResults (p : DelegateMarketPdaParams)
  | KCommitMarketState (p : BuildCommitMarketStateParams)
  | KUndelegateMarket (p : BuildCommitMarketStateParams).

Definition build_matching `{NodeCrypto} `{Web3} (c : MatchingCall) : res TransactionInstruction :=
  match c with
  | KInitMarket p => Ok (buildInitMarketInstruction p)
  | KConfigureAccess p => Ok (buildConfigureAccessInstruction p)
  | KInitPendingOrderSlot p => buildInitPendingOrderSlotInstruction p
  | KDelegatePendingOrder p => buildDelegatePendingOrderInstruction p
  | KSubmitOrder p => submit_ix <$> buildSubmitOrderInstruction p
  | KCancelOrder p => buildCancelOrderInstruction p
  | KRunBatch p => Ok (buildRunBatchInstruction p)
  | KInitMockOracle p => Ok (buildInitMockOracleInstruction p)
  | KDelegateDarkClob p => Ok (buildDelegateDarkClobInstruction p)
  | KDelegateMatchingConfig p => Ok (buildDelegateMatchingConfigInstruction p)
  | KDelegateBatchResults p => Ok (buildDelegateBatchResultsInstruction p)
  | KCommitMarketState p => Ok (buildCommitMarketStateInstruction p)
  | KUndelegateMarket p => Ok (buildUndelegateMarketInstruction p)
  end.

Definition matching_call_program (c : MatchingCall) : PublicKey :=
  match c with
  | KInitMarket p => p.(im_programId)
  | KConfigureAccess p => p.(ca_programId)
  | KInitPendingOrderSlot p => p.(is_programId)
  | KDelegatePendingOrder p => p.(dp_programId)
  | KSubmitOrder p => p.(so_programId)
  | KCancelOrder p => p.(co_programId)
  | KRunBatch p => p.(rb_programId)
  | KInitMockOracle p => p.(mo_programId)
  | KDelegateDarkClob p | KDelegateMatchingConfig p | KDelegateBatchResults p => p.(dm_programId)
  | KCommitMarketState p | KUndelegateMarket p => p.(cm_programId)
  end.

Definition submit_args (p : BuildSubmitOrderParams) : SubmitOrderArgs :=
  {| soa_market := toBytes p.(so_market); slot_idx := p.(so_slotIdx); side := p.(so_side);
     order_type := OrderType_value (default Limit p.(so_orderType)); soa_padding := replicate 5 x00;
     soa_amount := p.(so_amount) mod U64; min_fill_qty := default 0 p.(so_minFillQty) mod U64;
     price_limit := p.(so_priceLimit) mod U64; note_amount := p.(so_noteAmount) mod U64;
     expiry_slot := p.(so_expirySlot) mod U64; order_id := p.(so_orderId);
     note_commitment := p.(so_noteCommitment); user_commitment := p.(so_userCommitment) |}.

(** The arguments the caller means. *)
Definition matching_call_args (c : MatchingCall) : MatchingIx :=
  match c with
  | KInitMarket p => MInitMarket
      {| ima_market := toBytes p.(im_market); base_mint := toBytes p.(im_baseMint);
         quote_mint := toBytes p.(im_quoteMint); pyth_account := toBytes p.(im_pythAccount);
         batch_interval_slots := p.(batchIntervalSlots) mod U64;
         circuit_breaker_bps := p.(circuitBreakerBps) mod U64;
         tick_size := p.(tickSize) mod U64; min_order_size := p.(minOrderSize) mod U64 |}
  | KConfigureAccess p => MConfigureAccess (toBytes p.(ca_market))
      ((λ m, (m.(flags) mod 256, toBytes m.(member_pubkey))) <$> p.(members)) p.(isUpdate)
  | KInitPendingOrderSlot p => MInitPendingOrderSlot (toBytes p.(is_market)) p.(is_slotIdx)
  | KDelegatePendingOrder p => MDelegatePendingOrder (toBytes p.(dp_market)) p.(dp_slotIdx)
  | KSubmitOrder p => MSubmitOrder (submit_args p)
  | KCancelOrder p => MCancelOrder (toBytes p.(co_market)) p.(co_slotIdx)
  | KRunBatch p => MRunBatch (toBytes p.(rb_market))
  | KInitMockOracle p => MInitMockOracle (p.(twap) mod U64)
  | KDelegateDarkClob p => MDelegateDarkClob (toBytes p.(dm_market))
  | KDelegateMatchingConfig p => MDelegateMatchingConfig (toBytes p.(dm_market))
  | KDelegateBatchResults p => MDelegateBatchResults (toBytes p.(dm_market))
  | KCommitMarketState _ => MCommitMarketState
  | KUndelegateMarket _ => MUndelegateMarket
  end.

(** The inputs a builder accepts: a slot index below the per-user maximum, a
    side that is 0 or 1, and byte strings of the right lengths. *)
Definition slot_in_range (s : Z) : Prop := 0 ≤ s < MAX_PENDING_SLOTS_PER_USER.

Definition matching_call_sized (c : MatchingCall) : Prop :=
  match c with
  | KInitPendingOrderSlot p => slot_in_range p.(is_slotIdx)
  | KDelegatePendingOrder p => slot_in_range p.(dp_slotIdx)
  | KCancelOrder p => slot_in_range p.(co_slotIdx)
  | KSubmitOrder p => slot_in_range p.(so_slotIdx) ∧ (p.(so_side) = 0 ∨ p.(so_side) = 1) ∧
      length p.(so_orderId) = 16%nat ∧ length p.(so_noteCommitment) = 32%nat ∧
      length p.(so_userCommitment) = 32%nat
  | _ => True
  end.

(** The caller names the vault program the matching engine was built against,
    and a member list fits its [u32] length. *)
Definition matching_call_env (vault_id : PublicKey) (c : MatchingCall) : Prop :=
  match c with
  | KInitMarket p => p.(im_vaultProgramId) = vault_id
  | KRunBatch p => p.(rb_vaultProgramId) = vault_id
  | KConfigureAccess p => Z.of_nat (length p.(members)) < 2 ^ 32
  | _ => True
  end.

(** ** Lemmas *)

Lemma side_guard s : negb (s =? 0) && negb (s =? 1) = false ↔ s = 0 ∨ s = 1.
Proof. destruct (Z.eqb_spec s 0), (Z.eqb_spec s 1); cbn; naive_solver. Qed.

Lemma memberBytes_concat ms :
  concat (memberBytes ms) = concat ((λ m, u8_of_Z m.(flags) :: toBytes m.(member_pubkey)) <$> ms).
Proof.
  induction ms as [|m ms IH]; [done|]. unfold memberBytes in *. cbn. rewrite <-IH. done.
Qed.

Lemma p_members_app ms t :
  p_repeat p_member (length ms)
    (concat ((λ m, u8_of_Z m.(flags) :: toBytes m.(member_pubkey)) <$> ms) ++ t)
  = Some ((λ m, (m.(flags) mod 256, toBytes m.(member_pubkey))) <$> ms, t).
Proof.
  induction ms as [|m ms IH]; [done|]. cbn [length p_repeat fmap list_fmap concat].
  change ((?a :: ?b) ++ ?c) with (a :: b ++ c). rewrite <-app_comm_cons, <-!app_assoc.
  assert (Hm : p_member (u8_of_Z (flags m) :: toBytes (member_pubkey m) ++
      concat ((λ m, u8_of_Z m.(flags) :: toBytes m.(member_pubkey)) <$> ms) ++ t)
    = Some ((flags m mod 256, toBytes (member_pubkey m)),
        concat ((λ m, u8_of_Z m.(flags) :: toBytes m.(member_pubkey)) <$> ms) ++ t)).
  { unfold p_member. p_run. }
  erewrite p_bind_Some by exact Hm. erewrite p_bind_Some by exact IH. done.
Qed.

Section matching_accepts.
Context `{NodeCrypto} `{!NodeCryptoLaws} `{Web3}.
Variable vault_id : PublicKey.
Hypothesis Hdist : distinct_discriminators (program_names (Program0 := matching_program vault_id)).

Lemma configure_access_parses (p : BuildConfigureAccessParams) :
  Z.of_nat (length p.(members)) < 2 ^ 32 →
  parse_all (m ← p_bytes 32; l ← p_vec p_member; u ← p_bool; mret (MConfigureAccess m l u))
    (toBytes p.(ca_market) ++ u32LE (Z.of_nat (length p.(members))) ++
     concat (memberBytes p.(members) ++ [[if p.(isUpdate) then x01 else x00]]))
  = Some (matching_call_args (KConfigureAccess p)).
Proof.
  intros Hlen. unfold parse_all. rewrite concat_app, memberBytes_concat. cbn [concat].
  p_step. unfold p_vec at 1.
  erewrite p_bind_Some.
  2:{ erewrite p_bind_Some by apply p_u32_app. rewrite Z.mod_small by lia.
      rewrite Nat2Z.id. apply p_members_app. }
  erewrite p_bind_Some by apply p_bool_app. done.
Qed.

Lemma check_pda_Ok pid m t s u k :
  check_slotIdx s = Ok u → pendingOrderPda pid m t s = Ok k →
  slot_in_range s ∧
  k = findProgramAddressSync [PENDING_ORDER_SEED; toBytes m; toBytes t; [u8_of_Z s]] pid.
Proof.
  intros Hs%check_slotIdx_Ok Hk. split; [done|]. rewrite pendingOrderPda_Ok in Hk by done.
  by apply Ok_inj in Hk.
Qed.

Ltac slot_case :=
  match goal with
  | Hs : check_slotIdx _ = Ok _, Hk : pendingOrderPda _ _ _ _ = Ok _ |- _ =>
      destruct (check_pda_Ok _ _ _ _ _ _ Hs Hk) as [Hslot ->]
  end.
Ltac small_slot :=
  repeat match goal with
    | Hr : slot_in_range ?s |- context [?s mod 256] =>
        rewrite (Z.mod_small s 256) by (unfold slot_in_range, MAX_PENDING_SLOTS_PER_USER in Hr; lia)
    end.

Lemma build_matching_accepted c tx :
  matching_call_env vault_id c → build_matching c = Ok tx →
  matching_call_sized c ∧
  accepted_as (Program0 := matching_program vault_id) (matching_call_program c) tx (matching_call_args c).
Proof.
  destruct c as [p|p|p|p|p|p|p|p|p|p|p|p|p];
    cbn [build_matching matching_call_program matching_call_sized matching_call_env];
    unfold buildInitPendingOrderSlotInstruction, buildDelegatePendingOrderInstruction,
      buildCancelOrderInstruction; intros Henv Hb; inv_res; try slot_case; try (split; [done|]).
  - subst vault_id. accepted Hdist. unfold p_init_market. p_run.
  - subst tx. eapply (accepted_intro _ _ _ _ _ _ Hdist);
      [ | reflexivity | by apply configure_access_parses | | | ]; [row | reflexivity | metas | metas].
  - accepted Hdist. unfold p_market_slot. p_run. small_slot. done.
  - accepted Hdist. unfold p_market_slot. p_run. small_slot. done.
  - destruct (buildSubmitOrderInstruction p) as [r|] eqn:Hr; [|done]. cbn in Hb.
    apply Ok_inj in Hb. unfold buildSubmitOrderInstruction, fixed16, fixed32 in Hr. inv_res. slot_case.
    apply side_guard in Ha0. split; [done|]. accepted Hdist. unfold p_submit_order. p_run. small_slot.
    rewrite (Z.mod_small (so_side p)) by lia. unfold matching_call_args, submit_args.
    by destruct (default Limit (so_orderType p)).
  - accepted Hdist. unfold p_market_slot. p_run. small_slot. done.
  - accepted Hdist. p_run.
  - accepted Hdist. p_run.
  - accepted Hdist. p_run.
  - accepted Hdist. p_run.
  - accepted Hdist. p_run.
  - accepted Hdist. p_run.
  - accepted Hdist. p_run.
Qed.

Lemma build_matching_total c : matching_call_sized c → is_Ok (build_matching c) = true.
Proof.
  assert (Hs : ∀ s, slot_in_range s → check_slotIdx s = Ok ()).
  { intros s Hr. destruct (check_slotIdx s) as [[]|] eqn:E; [done|].
    by rewrite (proj2 (check_slotIdx_Ok s ()) Hr) in E. }
  destruct c as [p|p|p|p|p|p|p|p|p|p|p|p|p]; cbn [build_matching matching_call_sized]; try done;
    unfold buildInitPendingOrderSlotInstruction, buildDelegatePendingOrderInstruction,
      buildCancelOrderInstruction, buildSubmitOrderInstruction, fixed16, fixed32.
  1,2,4: intros Hr; rewrite Hs, pendingOrderPda_Ok by done; done.
  intros (Hr & Hside & Ho & Hc & Hu). rewrite Hs, pendingOrderPda_Ok, !fixed_Ok by done.
  by destruct Hside as [-> | ->].
Qed.
End matching_accepts.

(** ** Properties *)

(** Every instruction builder of [matching-engine-client.ts] and
    [er-client.ts] agrees with the matching engine: it succeeds exactly on a
    slot index below 4, a side that is 0 or 1 and byte strings of the right
    lengths, and then the program accepts its accounts and reads back the
    caller's arguments (integers modulo their width). *)
Theorem matching_builders_accepted `{NodeCrypto} `{!NodeCryptoLaws} `{Web3}
    (vault_id : PublicKey) (c : MatchingCall) :
  distinct_discriminators (fst <$> matching_table) → matching_call_env vault_id c →
  (matching_call_sized c ∧ ∃ tx, build_matching c = Ok tx ∧
     accepted_as (Program0 := matching_program vault_id) (matching_call_program c) tx (matching_call_args c))
  ∨ (¬ matching_call_sized c ∧ is_Ok (build_matching c) = false).
Proof.
  intros Hd Henv. destruct (build_matching c) as [tx|e] eqn:Hb.
  - left. destruct (build_matching_accepted vault_id Hd c tx Henv Hb) as [? ?]. eauto.
  - right. split; [|done]. intros Hs%build_matching_total. by rewrite Hb in Hs.
Qed.

Definition sample_submit : MatchingCall := KSubmitOrder
  {| so_programId := Toy.zero_key; so_tradingKey := Toy.key_of (replicate 32 x01);
     so_market := Toy.key_of (replicate 32 x02); so_slotIdx := 3; so_side := 1; so_amount := 10;
     so_priceLimit := 4; so_noteAmount := 12; so_expirySlot := 99; so_orderId := replicate 16 x05;
     so_noteCommitment := replicate 32 x06; so_userCommitment := replicate 32 x07;
     so_orderType := Some IOC; so_minFillQty := None |}.

Lemma matching_builders_accepted_witness :
  matching_call_sized sample_submit ∧
  ∃ tx, @build_matching Toy.toy_crypto Toy.toy_web3 sample_submit = Ok tx ∧
    @accepted_as _ (@matching_program Toy.toy_web3 Toy.zero_key) Toy.toy_crypto Toy.zero_key tx
      (matching_call_args sample_submit).
Proof.
  edestruct (@matching_builders_accepted Toy.toy_crypto Toy.toy_crypto_laws Toy.toy_web3 Toy.zero_key sample_submit)
    as [Hok|[Hbad _]].
  - unfold distinct_discriminators. apply (bool_decide_unpack _). vm_compute. exact I.
  - exact I.
  - exact Hok.
  - destruct Hbad. split; [split; [done|reflexivity]|]. split; [right; reflexivity|].
    split; [reflexivity|split; reflexivity].
Defined.
