(* ===== verification/Settlement.v ===== *)
(** Settlement transaction builder ([settlement/settle-builder.ts]) and event
    decoder ([settlement/settlement-watcher.ts]). *)

From S2P Require Import Prelude Bytes Errors Externals Borsh VaultClient.

Local Open Scope Z_scope.

(** ** [settle-builder.ts] *)

Definition RELOCK_ORDER_ID_NONE : bytes := replicate 16 x00.
Definition ZERO_COMMITMENT : bytes := replicate 32 x00.

(** [MatchResultPayload], in field order. *)
Record MatchResultPayload := {
  mp_matchId : bytes;
  mp_noteA : bytes; mp_noteB : bytes; mp_noteC : bytes; mp_noteD : bytes;
  mp_noteE : bytes; mp_noteF : bytes;
  mp_nullifierA : bytes; mp_nullifierB : bytes;
  mp_orderIdA : bytes; mp_orderIdB : bytes;
  mp_baseAmount : Z; mp_quoteAmount : Z;
  mp_buyerChangeAmt : Z; mp_sellerChangeAmt : Z;
  mp_buyerFeeAmt : Z; mp_sellerFeeAmt : Z;
  mp_noteFee : bytes;
  mp_buyerRelockOrderId : bytes; mp_buyerRelockExpiry : Z;
  mp_sellerRelockOrderId : bytes; mp_sellerRelockExpiry : Z;
  mp_clearingPrice : Z; mp_batchSlot : Z;
}.

Definition serializePayload (p : MatchResultPayload) : res bytes :=
  catM [
    fixed p.(mp_matchId) 16;
    fixed p.(mp_noteA) 32;
    fixed p.(mp_noteB) 32;
    fixed p.(mp_noteC) 32;
    fixed p.(mp_noteD) 32;
    fixed p.(mp_noteE) 32;
    fixed p.(mp_noteF) 32;
    fixed p.(mp_nullifierA) 32;
    fixed p.(mp_nullifierB) 32;
    fixed p.(mp_orderIdA) 16;
    fixed p.(mp_orderIdB) 16;
    Ok (u64LE p.(mp_baseAmount));
    Ok (u64LE p.(mp_quoteAmount));
    Ok (u64LE p.(mp_buyerChangeAmt));
    Ok (u64LE p.(mp_sellerChangeAmt));
    Ok (u64LE p.(mp_buyerFeeAmt));
    Ok (u64LE p.(mp_sellerFeeAmt));
    fixed p.(mp_noteFee) 32;
    fixed p.(mp_buyerRelockOrderId) 16;
    Ok (u64LE p.(mp_buyerRelockExpiry));
    fixed p.(mp_sellerRelockOrderId) 16;
    Ok (u64LE p.(mp_sellerRelockExpiry));
    Ok (u64LE p.(mp_clearingPrice));
    Ok (u64LE p.(mp_batchSlot))].

(** The updates of the hash object, in order. *)
Definition canonicalPayloadUpdates (p : MatchResultPayload) : list (res bytes) := [
    Ok (ascii_bytes "nyx-match-v5");
    fixed p.(mp_matchId) 16;
    fixed p.(mp_noteA) 32;
    fixed p.(mp_noteB) 32;
    fixed p.(mp_noteC) 32;
    fixed p.(mp_noteD) 32;
    fixed p.(mp_noteE) 32;
    fixed p.(mp_noteF) 32;
    fixed p.(mp_noteFee) 32;
    fixed p.(mp_nullifierA) 32;
    fixed p.(mp_nullifierB) 32;
    fixed p.(mp_orderIdA) 16;
    fixed p.(mp_orderIdB) 16;
    Ok (u64LE p.(mp_baseAmount));
    Ok (u64LE p.(mp_quoteAmount));
    Ok (u64LE p.(mp_buyerChangeAmt));
    Ok (u64LE p.(mp_sellerChangeAmt));
    Ok (u64LE p.(mp_buyerFeeAmt));
    Ok (u64LE p.(mp_sellerFeeAmt));
    fixed p.(mp_buyerRelockOrderId) 16;
    Ok (u64LE p.(mp_buyerRelockExpiry));
    fixed p.(mp_sellerRelockOrderId) 16;
    Ok (u64LE p.(mp_sellerRelockExpiry));
    Ok (u64LE p.(mp_clearingPrice));
    Ok (u64LE p.(mp_batchSlot))].

Record Ed25519Params := { teePubkey : bytes; ed_signature : bytes; ed_message : bytes }.

Record BuildSettleIxParams := {
  bs_programId : PublicKey; bs_teeAuthority : PublicKey; bs_payload : MatchResultPayload }.

Section settle.
Context `{NodeCrypto} `{Web3}.

Definition ED25519_PROGRAM_ID : PublicKey :=
  publicKeyFromBase58 "Ed25519SigVerify111111111111111111111111111".

Definition canonicalPayloadHash (p : MatchResultPayload) : res bytes :=
  m ← catM (canonicalPayloadUpdates p); Ok (sha256 m).

(** The 16 header bytes, as the [DataView] writes leave them. *)
Definition ed25519Header (sigOff pkOff msgOff msgLen : Z) : bytes :=
  [x01] ++ [x00] ++ u16LE sigOff ++ u16LE 65535 ++ u16LE pkOff ++ u16LE 65535 ++
  u16LE msgOff ++ u16LE msgLen ++ u16LE 65535.

Definition buildEd25519VerifyIx (params : Ed25519Params) : res TransactionInstruction :=
  pk ← fixed params.(teePubkey) 32;
  sig ← fixed params.(ed_signature) 64;
  let msg := params.(ed_message) in
  let headerLen := 16 in
  let pkOff := headerLen in
  let sigOff := pkOff + 32 in
  let msgOff := sigOff + 64 in
  let header := ed25519Header sigOff pkOff msgOff (Z.of_nat (length msg)) in
  let data := cat [header; pk; sig; msg] in
  Ok {| ix_programId := ED25519_PROGRAM_ID; ix_keys := []; ix_data := data |}.

Definition buildSettleIx (p : BuildSettleIxParams) : res TransactionInstruction :=
  let pl := p.(bs_payload) in
  let vaultConfig := (vaultConfigPda p.(bs_programId)).1 in
  lockA ← noteLockPda p.(bs_programId) pl.(mp_noteA);
  lockB ← noteLockPda p.(bs_programId) pl.(mp_noteB);
  consumedA ← consumedNotePda p.(bs_programId) pl.(mp_noteA);
  consumedB ← consumedNotePda p.(bs_programId) pl.(mp_noteB);
  nullA ← nullifierEntryPda p.(bs_programId) pl.(mp_nullifierA);
  nullB ← nullifierEntryPda p.(bs_programId) pl.(mp_nullifierB);
  lockE ← noteLockPda p.(bs_programId) pl.(mp_noteE);
  lockF ← noteLockPda p.(bs_programId) pl.(mp_noteF);
  data ← catM [Ok (anchorDiscriminator "tee_forced_settle"); serializePayload pl];
  Ok {| ix_programId := p.(bs_programId);
        ix_keys := [
          meta p.(bs_teeAuthority) true true;
          meta vaultConfig false true;
          meta lockA.1 false true;
          meta lockB.1 false true;
          meta consumedA.1 false true;
          meta consumedB.1 false true;
          meta nullA.1 false true;
          meta nullB.1 false true;
          meta lockE.1 false true;
          meta lockF.1 false true;
          meta SYSVAR_INSTRUCTIONS_PUBKEY false false;
          meta SystemProgram_programId false false];
        ix_data := data |}.
End settle.

(** The arguments of [exactFillPayload]; the last two may be missing. *)
Record ExactFillArgs := {
  ef_matchId : bytes; ef_noteA : bytes; ef_noteB : bytes; ef_noteC : bytes; ef_noteD : bytes;
  ef_nullifierA : bytes; ef_nullifierB : bytes; ef_orderIdA : bytes; ef_orderIdB : bytes;
  ef_baseAmount : Z; ef_quoteAmount : Z; ef_clearingPrice : option Z; ef_batchSlot : option Z }.

Definition exactFillPayload (args : ExactFillArgs) : MatchResultPayload := {|
  mp_matchId := args.(ef_matchId);
  mp_noteA := args.(ef_noteA);
  mp_noteB := args.(ef_noteB);
  mp_noteC := args.(ef_noteC);
  mp_noteD := args.(ef_noteD);
  mp_noteE := ZERO_COMMITMENT;
  mp_noteF := ZERO_COMMITMENT;
  mp_nullifierA := args.(ef_nullifierA);
  mp_nullifierB := args.(ef_nullifierB);
  mp_orderIdA := args.(ef_orderIdA);
  mp_orderIdB := args.(ef_orderIdB);
  mp_baseAmount := args.(ef_baseAmount);
  mp_quoteAmount := args.(ef_quoteAmount);
  mp_buyerChangeAmt := 0;
  mp_sellerChangeAmt := 0;
  mp_buyerFeeAmt := 0;
  mp_sellerFeeAmt := 0;
  mp_noteFee := ZERO_COMMITMENT;
  mp_buyerRelockOrderId := RELOCK_ORDER_ID_NONE;
  mp_buyerRelockExpiry := 0;
  mp_sellerRelockOrderId := RELOCK_ORDER_ID_NONE;
  mp_sellerRelockExpiry := 0;
  mp_clearingPrice := default 0 args.(ef_clearingPrice);
  mp_batchSlot := default 0 args.(ef_batchSlot) |}.

(** ** [settlement-watcher.ts] *)

Record TradeSettledEvent := {
  ts_matchId : bytes; ts_clearingPrice : Z; ts_baseAmount : Z; ts_quoteAmount : Z;
  ts_buyerChangeAmt : Z; ts_sellerChangeAmt : Z; ts_buyerFeeAmt : Z; ts_sellerFeeAmt : Z;
  ts_noteCleaf : Z; ts_noteDleaf : Z; ts_noteEleaf : Z; ts_noteFleaf : Z; ts_noteFeeLeaf : Z;
  ts_buyerRelockActive : bool; ts_sellerRelockActive : bool; ts_newRoot : bytes }.

Definition U64_MAX : Z := 18446744073709551615.

Inductive NotificationSide := buyer | seller.

Record MatchNotification := {
  mn_matchId : bytes; mn_side : NotificationSide; mn_isPartialFill : bool; mn_tradeLeaf : Z;
  mn_changeLeaf : option Z; mn_feeLeaf : option Z; mn_feePaid : Z; mn_relockActive : bool;
  mn_baseAmount : Z; mn_quoteAmount : Z; mn_clearingPrice : Z; mn_newRoot : bytes }.

(** [x === U64_MAX ? null : x] *)
Definition leaf_or_null (x : Z) : option Z := if x =? U64_MAX then None else Some x.

Definition buyerNotification (ev : TradeSettledEvent) : MatchNotification :=
  let isPartial := 0 <? ev.(ts_buyerChangeAmt) in
  {| mn_matchId := ev.(ts_matchId);
     mn_side := buyer;
     mn_isPartialFill := isPartial;
     mn_tradeLeaf := ev.(ts_noteCleaf);
     mn_changeLeaf := leaf_or_null ev.(ts_noteEleaf);
     mn_feeLeaf := leaf_or_null ev.(ts_noteFeeLeaf);
     mn_feePaid := ev.(ts_buyerFeeAmt);
     mn_relockActive := ev.(ts_buyerRelockActive);
     mn_baseAmount := ev.(ts_baseAmount);
     mn_quoteAmount := ev.(ts_quoteAmount);
     mn_clearingPrice := ev.(ts_clearingPrice);
     mn_newRoot := ev.(ts_newRoot) |}.

Definition sellerNotification (ev : TradeSettledEvent) : MatchNotification :=
  let isPartial := 0 <? ev.(ts_sellerChangeAmt) in
  {| mn_matchId := ev.(ts_matchId);
     mn_side := seller;
     mn_isPartialFill := isPartial;
     mn_tradeLeaf := ev.(ts_noteDleaf);
     mn_changeLeaf := leaf_or_null ev.(ts_noteFleaf);
     mn_feeLeaf := leaf_or_null ev.(ts_noteFeeLeaf);
     mn_feePaid := ev.(ts_sellerFeeAmt);
     mn_relockActive := ev.(ts_sellerRelockActive);
     mn_baseAmount := ev.(ts_baseAmount);
     mn_quoteAmount := ev.(ts_quoteAmount);
     mn_clearingPrice := ev.(ts_clearingPrice);
     mn_newRoot := ev.(ts_newRoot) |}.

(** [eventData[off] === 1]; [undefined] past the end is not [1]. *)
Definition byte_is_1 (buf : bytes) (off : nat) : bool := bool_decide (buf !! off = Some x01).

Definition decodeTradeSettled (eventData : bytes) : res TradeSettledEvent :=
  let expected := (16 + 8 * 12 + 1 + 1 + 32)%nat in
  _ ← throw_if (negb (length eventData =? expected)%nat)
        (Error ("TradeSettled event length mismatch: got " +:+ pretty (length eventData)
                +:+ ", expected " +:+ pretty expected));
  let off := 0%nat in
  let matchId := slice eventData off 16 in let off := (off + 16)%nat in
  clearingPrice ← readU64 eventData off; let off := (off + 8)%nat in
  baseAmount ← readU64 eventData off; let off := (off + 8)%nat in
  quoteAmount ← readU64 eventData off; let off := (off + 8)%nat in
  buyerChangeAmt ← readU64 eventData off; let off := (off + 8)%nat in
  sellerChangeAmt ← readU64 eventData off; let off := (off + 8)%nat in
  buyerFeeAmt ← readU64 eventData off; let off := (off + 8)%nat in
  sellerFeeAmt ← readU64 eventData off; let off := (off + 8)%nat in
  noteCleaf ← readU64 eventData off; let off := (off + 8)%nat in
  noteDleaf ← readU64 eventData off; let off := (off + 8)%nat in
  noteEleaf ← readU64 eventData off; let off := (off + 8)%nat in
  noteFleaf ← readU64 eventData off; let off := (off + 8)%nat in
  noteFeeLeaf ← readU64 eventData off; let off := (off + 8)%nat in
  let buyerRelockActive := byte_is_1 eventData off in let off := (off + 1)%nat in
  let sellerRelockActive := byte_is_1 eventData off in let off := (off + 1)%nat in
  let newRoot := slice eventData off 32 in
  Ok {| ts_matchId := matchId; ts_clearingPrice := clearingPrice; ts_baseAmount := baseAmount;
        ts_quoteAmount := quoteAmount; ts_buyerChangeAmt := buyerChangeAmt;
        ts_sellerChangeAmt := sellerChangeAmt; ts_buyerFeeAmt := buyerFeeAmt;
        ts_sellerFeeAmt := sellerFeeAmt; ts_noteCleaf := noteCleaf; ts_noteDleaf := noteDleaf;
        ts_noteEleaf := noteEleaf; ts_noteFleaf := noteFleaf; ts_noteFeeLeaf := noteFeeLeaf;
        ts_buyerRelockActive := buyerRelockActive; ts_sellerRelockActive := sellerRelockActive;
        ts_newRoot := newRoot |}.
