(* ===== verification/SettleProgram.v ===== *)
(** The settlement side of the vault program
    ([programs/vault/src/instructions/tee_forced_settle.rs]): the payload's Borsh
    form, the accounts of [TeeForcedSettle], the hash the TEE signs, the scan for
    the Ed25519 precompile instruction and the Borsh form of the [TradeSettled]
    event; and the agreement of [Settlement] with them. *)

From S2P Require Import Prelude Bytes Errors Externals Borsh VaultClient Settlement.

Local Open Scope Z_scope.

(** ** Payload and accounts *)

Definition p_payload : parser MatchResultPayload :=
  matchId ← p_bytes 16;
  a ← p_bytes 32; b ← p_bytes 32; c ← p_bytes 32; d ← p_bytes 32; e ← p_bytes 32; f ← p_bytes 32;
  na ← p_bytes 32; nb ← p_bytes 32; oa ← p_bytes 16; ob ← p_bytes 16;
  base ← p_u64; quote ← p_u64; bc ← p_u64; sc ← p_u64; bf ← p_u64; sf ← p_u64;
  fee ← p_bytes 32; bro ← p_bytes 16; bre ← p_u64; sro ← p_bytes 16; sre ← p_u64;
  price ← p_u64; slot ← p_u64;
  mret {| mp_matchId := matchId; mp_noteA := a; mp_noteB := b; mp_noteC := c; mp_noteD := d;
          mp_noteE := e; mp_noteF := f; mp_nullifierA := na; mp_nullifierB := nb;
          mp_orderIdA := oa; mp_orderIdB := ob; mp_baseAmount := base; mp_quoteAmount := quote;
          mp_buyerChangeAmt := bc; mp_sellerChangeAmt := sc; mp_buyerFeeAmt := bf; mp_sellerFeeAmt := sf;
          mp_noteFee := fee; mp_buyerRelockOrderId := bro; mp_buyerRelockExpiry := bre;
          mp_sellerRelockOrderId := sro; mp_sellerRelockExpiry := sre; mp_clearingPrice := price;
          mp_batchSlot := slot |}.

(** Every integer of the payload as the [u64] it is on chain. *)
Definition payload_u64 (p : MatchResultPayload) : MatchResultPayload :=
  {| mp_matchId := p.(mp_matchId); mp_noteA := p.(mp_noteA); mp_noteB := p.(mp_noteB);
     mp_noteC := p.(mp_noteC); mp_noteD := p.(mp_noteD); mp_noteE := p.(mp_noteE); mp_noteF := p.(mp_noteF);
     mp_nullifierA := p.(mp_nullifierA); mp_nullifierB := p.(mp_nullifierB);
     mp_orderIdA := p.(mp_orderIdA); mp_orderIdB := p.(mp_orderIdB);
     mp_baseAmount := p.(mp_baseAmount) mod U64; mp_quoteAmount := p.(mp_quoteAmount) mod U64;
     mp_buyerChangeAmt := p.(mp_buyerChangeAmt) mod U64; mp_sellerChangeAmt := p.(mp_sellerChangeAmt) mod U64;
     mp_buyerFeeAmt := p.(mp_buyerFeeAmt) mod U64; mp_sellerFeeAmt := p.(mp_sellerFeeAmt) mod U64;
     mp_noteFee := p.(mp_noteFee); mp_buyerRelockOrderId := p.(mp_buyerRelockOrderId);
     mp_buyerRelockExpiry := p.(mp_buyerRelockExpiry) mod U64;
     mp_sellerRelockOrderId := p.(mp_sellerRelockOrderId);
     mp_sellerRelockExpiry := p.(mp_sellerRelockExpiry) mod U64;
     mp_clearingPrice := p.(mp_clearingPrice) mod U64; mp_batchSlot := p.(mp_batchSlot) mod U64 |}.

Definition is_32 (b : bytes) : Prop := length b = 32%nat.
Definition is_16 (b : bytes) : Prop := length b = 16%nat.

Definition payload_sized (p : MatchResultPayload) : Prop :=
  Forall is_32 [p.(mp_noteA); p.(mp_noteB); p.(mp_noteC); p.(mp_noteD); p.(mp_noteE); p.(mp_noteF);
                p.(mp_nullifierA); p.(mp_nullifierB); p.(mp_noteFee)] ∧
  Forall is_16 [p.(mp_matchId); p.(mp_orderIdA); p.(mp_orderIdB); p.(mp_buyerRelockOrderId);
                p.(mp_sellerRelockOrderId)].

#[global] Instance payload_sized_dec p : Decision (payload_sized p).
Proof. unfold payload_sized, is_32, is_16. apply _. Defined.

Definition settle_table : list (string * parser MatchResultPayload) := [("tee_forced_settle", p_payload)].

Section settle_program.
Context `{Web3}.

(** The struct [TeeForcedSettle]. *)
Definition settle_accounts (pid : PublicKey) (p : MatchResultPayload) (ms : list AccountMeta)
    : list AccountSlot := [
  signer true;
  seeded true pid [ascii_bytes "vault_config"];
  seeded true pid [ascii_bytes "note_lock"; p.(mp_noteA)];
  seeded true pid [ascii_bytes "note_lock"; p.(mp_noteB)];
  seeded true pid [ascii_bytes "consumed_note"; p.(mp_noteA)];
  seeded true pid [ascii_bytes "consumed_note"; p.(mp_noteB)];
  seeded true pid [ascii_bytes "nullifier"; p.(mp_nullifierA)];
  seeded true pid [ascii_bytes "nullifier"; p.(mp_nullifierB)];
  any true;
  any true;
  at_address false SYSVAR_INSTRUCTIONS_PUBKEY;
  system_slot].

#[export] Instance settle_program : Program MatchResultPayload :=
  {| prog_table := settle_table; prog_accounts := settle_accounts |}.

(** The PDA the handler requires of [note_lock_e] / [note_lock_f] on a re-lock. *)
Definition relock_pda (pid : PublicKey) (note : bytes) : PublicKey :=
  (findProgramAddressSync [ascii_bytes "note_lock"; note] pid).1.
End settle_program.

(** ** [canonical_payload_hash] and [verify_tee_signature] *)

(** The slices [hashv] concatenates. *)
Definition canonical_slices (p : MatchResultPayload) : list bytes := [
  ascii_bytes "nyx-match-v5"; p.(mp_matchId); p.(mp_noteA); p.(mp_noteB); p.(mp_noteC); p.(mp_noteD);
  p.(mp_noteE); p.(mp_noteF); p.(mp_noteFee); p.(mp_nullifierA); p.(mp_nullifierB); p.(mp_orderIdA);
  p.(mp_orderIdB); le_bytes 8 p.(mp_baseAmount); le_bytes 8 p.(mp_quoteAmount);
  le_bytes 8 p.(mp_buyerChangeAmt); le_bytes 8 p.(mp_sellerChangeAmt); le_bytes 8 p.(mp_buyerFeeAmt);
  le_bytes 8 p.(mp_sellerFeeAmt); p.(mp_buyerRelockOrderId); le_bytes 8 p.(mp_buyerRelockExpiry);
  p.(mp_sellerRelockOrderId); le_bytes 8 p.(mp_sellerRelockExpiry); le_bytes 8 p.(mp_clearingPrice);
  le_bytes 8 p.(mp_batchSlot)].

Definition canonical_payload_hash `{NodeCrypto} (p : MatchResultPayload) : bytes :=
  sha256 (concat (canonical_slices p)).

(** [u16::from_le_bytes([data[i], data[i + 1]])] *)
Definition u16_at (data : bytes) (i : nat) : nat := Z.to_nat (le_val (slice data i 2)).

Section verify.
Context `{NodeCrypto} `{Web3}.

(** One round of the scan: is this instruction the precompile entry looked for? *)
Definition precompile_matches (ix : TransactionInstruction) (expected_pubkey expected_msg : bytes) : bool :=
  let data := ix.(ix_data) in
  if negb (bool_decide (ix.(ix_programId) = ED25519_PROGRAM_ID)) then false
  else if (length data <? 16)%nat then false
  else if negb (bool_decide (data !! 0%nat = Some x01)) then false
  else
    let pk_off := u16_at data 6 in
    let pk_ix_idx := u16_at data 8 in
    let msg_off := u16_at data 10 in
    let msg_len := u16_at data 12 in
    let msg_ix_idx := u16_at data 14 in
    if negb (Z.of_nat pk_ix_idx =? 65535) || negb (Z.of_nat msg_ix_idx =? 65535) then false
    else if (length data <? pk_off + 32)%nat || (length data <? msg_off + msg_len)%nat then false
    else
      let pk_bytes := slice data pk_off 32 in
      let msg_bytes := slice data msg_off msg_len in
      if negb (bool_decide (pk_bytes = expected_pubkey)) then false
      else if negb (msg_len =? 32)%nat || negb (bool_decide (msg_bytes = expected_msg)) then false
      else true.

(** The scan looks at the instructions [0 .. current_ix_idx + 8) that exist. *)
Definition verify_tee_signature (tx : list TransactionInstruction) (current_ix_idx : nat)
    (expected_pubkey expected_msg : bytes) : bool :=
  existsb (λ ix, precompile_matches ix expected_pubkey expected_msg) (take (current_ix_idx + 8) tx).
End verify.

(** ** The [TradeSettled] event as [emit!] serialises it (without its discriminator) *)

Definition bool_byte (b : bool) : bytes := [if b then x01 else x00].

Definition trade_settled_pieces (ev : TradeSettledEvent) : list bytes := [
  ev.(ts_matchId); le_bytes 8 ev.(ts_clearingPrice); le_bytes 8 ev.(ts_baseAmount);
  le_bytes 8 ev.(ts_quoteAmount); le_bytes 8 ev.(ts_buyerChangeAmt); le_bytes 8 ev.(ts_sellerChangeAmt);
  le_bytes 8 ev.(ts_buyerFeeAmt); le_bytes 8 ev.(ts_sellerFeeAmt); le_bytes 8 ev.(ts_noteCleaf);
  le_bytes 8 ev.(ts_noteDleaf); le_bytes 8 ev.(ts_noteEleaf); le_bytes 8 ev.(ts_noteFleaf);
  le_bytes 8 ev.(ts_noteFeeLeaf); bool_byte ev.(ts_buyerRelockActive); bool_byte ev.(ts_sellerRelockActive);
  ev.(ts_newRoot)].

Definition trade_settled_bytes (ev : TradeSettledEvent) : bytes := concat (trade_settled_pieces ev).

(** The integers of an event the program can emit are [u64], the arrays sized. *)
Definition event_wf (ev : TradeSettledEvent) : Prop :=
  length ev.(ts_matchId) = 16%nat ∧ length ev.(ts_newRoot) = 32%nat ∧
  Forall (λ v, 0 ≤ v < U64)
    [ev.(ts_clearingPrice); ev.(ts_baseAmount); ev.(ts_quoteAmount); ev.(ts_buyerChangeAmt);
     ev.(ts_sellerChangeAmt); ev.(ts_buyerFeeAmt); ev.(ts_sellerFeeAmt); ev.(ts_noteCleaf);
     ev.(ts_noteDleaf); ev.(ts_noteEleaf); ev.(ts_noteFleaf); ev.(ts_noteFeeLeaf)].

(** ** Lemmas *)

Lemma serializePayload_sized p bs : serializePayload p = Ok bs → payload_sized p.
Proof. unfold serializePayload. intros H. inv_res. split; repeat constructor; done. Qed.

Lemma serializePayload_total p :
  payload_sized p → ∃ bs, serializePayload p = Ok bs ∧ p_payload bs = Some (payload_u64 p, []).
Proof.
  intros [H32 H16]. decompose_Forall_hyps. unfold is_32, is_16 in *. eexists. split.
  - unfold serializePayload. rewrite !fixed_Ok by done.
    repeat (rewrite catM_cons_Ok); cbn [fmap res_fmap catM mapM]. cbn. reflexivity.
  - rewrite ?app_nil_r. unfold p_payload. p_run.
Qed.

Section settle_accepts.
Context `{NodeCrypto} `{!NodeCryptoLaws} `{Web3}.

Lemma settle_distinct : distinct_discriminators (program_names (A := MatchResultPayload)).
Proof. unfold distinct_discriminators. apply NoDup_singleton. Qed.

Lemma buildSettleIx_accepted p tx :
  buildSettleIx p = Ok tx →
  payload_sized p.(bs_payload) ∧
  accepted_as p.(bs_programId) tx (payload_u64 p.(bs_payload)) ∧
  pubkey <$> tx.(ix_keys) !! 0%nat = Some p.(bs_teeAuthority) ∧
  pubkey <$> tx.(ix_keys) !! 8%nat = Some (relock_pda p.(bs_programId) p.(bs_payload).(mp_noteE)) ∧
  pubkey <$> tx.(ix_keys) !! 9%nat = Some (relock_pda p.(bs_programId) p.(bs_payload).(mp_noteF)).
Proof.
  unfold buildSettleIx, noteLockPda, consumedNotePda, nullifierEntryPda, fixed32. intros Hb. inv_res.
  match goal with Hs : serializePayload _ = Ok _ |- _ =>
    pose proof (serializePayload_sized _ _ Hs) as Hsz;
    destruct (serializePayload_total _ Hsz) as (bs & Hs' & Hp); rewrite Hs' in Hs; apply Ok_inj in Hs end.
  subst. split; [done|]. split; [|done].
  eapply (accepted_intro _ _ _ _ _ _ settle_distinct); [ | reflexivity | | | | ];
    [row | | reflexivity | metas | metas].
  unfold parse_all. rewrite app_nil_r, Hp. reflexivity.
Qed.

Lemma buildSettleIx_total p : payload_sized p.(bs_payload) → is_Ok (buildSettleIx p) = true.
Proof.
  intros Hs. destruct (serializePayload_total _ Hs) as (bs & Hbs & _).
  destruct Hs as [H32 _]. decompose_Forall_hyps. unfold is_32 in *.
  unfold buildSettleIx, noteLockPda, consumedNotePda, nullifierEntryPda, fixed32.
  rewrite !fixed_Ok by done. cbn -[catM serializePayload]. rewrite Hbs. done.
Qed.
End settle_accepts.

(** *** The signed hash *)

Lemma canonicalPayloadUpdates_Ok p :
  payload_sized p → catM (canonicalPayloadUpdates p) = Ok (concat (canonical_slices p)).
Proof.
  intros [H32 H16]. decompose_Forall_hyps. unfold is_32, is_16 in *.
  unfold canonicalPayloadUpdates. rewrite !fixed_Ok by done. apply (catM_Ok (canonical_slices p)).
Qed.

Lemma canonicalPayloadUpdates_sized p m : catM (canonicalPayloadUpdates p) = Ok m → payload_sized p.
Proof. unfold canonicalPayloadUpdates. intros H. inv_res. split; repeat constructor; done. Qed.

Lemma le_bytes_8_mod v : le_bytes 8 (v mod U64) = le_bytes 8 v.
Proof. apply (le_bytes_mod 8). Qed.

Lemma canonical_slices_u64 p : canonical_slices (payload_u64 p) = canonical_slices p.
Proof. unfold canonical_slices, payload_u64; cbn [mp_matchId mp_noteA mp_noteB mp_noteC mp_noteD mp_noteE
  mp_noteF mp_nullifierA mp_nullifierB mp_orderIdA mp_orderIdB mp_baseAmount mp_quoteAmount
  mp_buyerChangeAmt mp_sellerChangeAmt mp_buyerFeeAmt mp_sellerFeeAmt mp_noteFee mp_buyerRelockOrderId
  mp_buyerRelockExpiry mp_sellerRelockOrderId mp_sellerRelockExpiry mp_clearingPrice mp_batchSlot].
  by rewrite !le_bytes_8_mod.
Qed.

Lemma canonical_slices_lengths p :
  payload_sized p →
  length <$> canonical_slices p =
  [12; 16; 32; 32; 32; 32; 32; 32; 32; 32; 32; 16; 16; 8; 8; 8; 8; 8; 8; 16; 8; 16; 8; 8; 8]%nat.
Proof.
  intros [H32 H16]. decompose_Forall_hyps. unfold is_32, is_16 in *.
  unfold canonical_slices. cbn [fmap list_fmap]. repeat f_equal; done.
Qed.

Lemma le_bytes_8_eq v w : le_bytes 8 v = le_bytes 8 w → v mod U64 = w mod U64.
Proof. intros E. apply (f_equal le_val) in E. by rewrite !le_val_le_bytes in E. Qed.

Lemma canonical_slices_inj p q : canonical_slices p = canonical_slices q → payload_u64 p = payload_u64 q.
Proof.
  unfold canonical_slices. intros E.
  repeat match type of E with
    | _ :: _ = _ :: _ => apply list_cons_inv in E; let E1 := fresh "E1" in destruct E as [E1 E]; try apply le_bytes_8_eq in E1
    end.
  destruct p, q; unfold payload_u64; f_equal; assumption.
Qed.

Lemma canonical_concat_inj p q :
  payload_sized p → payload_sized q →
  concat (canonical_slices p) = concat (canonical_slices q) → payload_u64 p = payload_u64 q.
Proof.
  intros Hp Hq E. apply canonical_slices_inj, (concat_inj_lengths _ _); [|done].
  by rewrite !canonical_slices_lengths.
Qed.

(** *** The precompile instruction *)

Section ed25519.
Context `{NodeCrypto} `{Web3}.

Lemma u16_at_app_l h t i : (i + 2 ≤ length h)%nat → u16_at (h ++ t) i = u16_at h i.
Proof.
  intros Hl. unfold u16_at, slice. do 2 f_equal. rewrite drop_app_le by lia.
  rewrite take_app_le; [done|]. rewrite length_drop. lia.
Qed.

Lemma ed25519Header_32 : ed25519Header 48 16 112 32 =
  [x01; x00; x30; x00; xff; xff; x10; x00; xff; xff; x70; x00; x20; x00; xff; xff].
Proof. reflexivity. Qed.

Lemma buildEd25519VerifyIx_matches p ix pk' msg' :
  buildEd25519VerifyIx p = Ok ix → length p.(ed_message) = 32%nat →
  precompile_matches ix pk' msg' = bool_decide (p.(teePubkey) = pk' ∧ p.(ed_message) = msg').
Proof.
  unfold buildEd25519VerifyIx. intros Hb Hm. inv_res. subst ix. rewrite Hm.
  change (ed25519Header (16 + 32) 16 (16 + 32 + 64) (Z.of_nat 32)) with (ed25519Header 48 16 112 32).
  rewrite ed25519Header_32. unfold precompile_matches, cat. cbn [ix_data ix_programId concat].
  rewrite app_nil_r, bool_decide_true by done. cbn [negb].
  set (h := [x01; x00; x30; x00; xff; xff; x10; x00; xff; xff; x70; x00; x20; x00; xff; xff]).
  assert (Hd : length (h ++ teePubkey p ++ ed_signature p ++ ed_message p) = 144%nat).
  { rewrite !length_app, Hlen0, Hlen, Hm. done. }
  rewrite Hd, !u16_at_app_l by (cbn; lia).
  change (u16_at h 6) with 16%nat. change (u16_at h 8) with (Z.to_nat 65535).
  change (u16_at h 10) with 112%nat. change (u16_at h 12) with 32%nat.
  change (u16_at h 14) with (Z.to_nat 65535). rewrite Z2Nat.id by lia.
  cbn -[slice h bool_decide]. rewrite (bool_decide_true (Some x01 = _)) by done. cbn [negb].
  rewrite (slice_app_r h _ 16 32 16), (slice_app_l (teePubkey p)) by (done || lia).
  rewrite (slice_app_r h _ 112 32 16), (slice_app_r (teePubkey p) _ 96 32 32),
    (slice_app_r (ed_signature p) _ 64 32 64), slice_all by (done || lia).
  repeat case_bool_decide; naive_solver.
Qed.

Lemma verify_intro tx i ix n pk msg :
  tx !! i = Some ix → (i < n + 8)%nat → precompile_matches ix pk msg = true →
  verify_tee_signature tx n pk msg = true.
Proof.
  intros Hi Hlt Hm. unfold verify_tee_signature. apply existsb_exists. exists ix. split; [|done].
  apply list_elem_of_In, list_elem_of_lookup. exists i. by rewrite lookup_take_lt.
Qed.
End ed25519.

(** *** The event *)

Definition trade_settled_lens : list nat := [16; 8; 8; 8; 8; 8; 8; 8; 8; 8; 8; 8; 8; 1; 1; 32]%nat.

Lemma trade_settled_lengths ev :
  event_wf ev → length <$> trade_settled_pieces ev = trade_settled_lens.
Proof. intros (Hm & Hr & _). unfold trade_settled_pieces. cbn. by rewrite Hm, Hr. Qed.

Lemma byte_is_1_pieces ls lens k (b : bool) off :
  length <$> ls = lens → ls !! k = Some (bool_byte b) → sum_list (take k lens) = off →
  byte_is_1 (concat ls) off = b.
Proof.
  intros HL Hk Hoff. unfold byte_is_1.
  rewrite (pieces_lookup ls lens k (if b then x01 else x00) off HL Hk Hoff). by destruct b.
Qed.

Lemma decodeTradeSettled_bytes ev : event_wf ev → decodeTradeSettled (trade_settled_bytes ev) = Ok ev.
Proof.
  intros Hwf. pose proof Hwf as (Hm & Hr & Hall).
  decompose_Forall_hyps. pose proof (trade_settled_lengths ev Hwf) as HL. unfold decodeTradeSettled, trade_settled_bytes.
  rewrite (pieces_length _ _ HL). cbn -[readU64 slice byte_is_1 concat trade_settled_pieces].
  rewrite (pieces_slice _ _ 0 (ts_matchId ev) _ _ HL), (pieces_slice _ _ 15 (ts_newRoot ev) _ _ HL) by reflexivity.
  rds 1%nat HL.
  rewrite (byte_is_1_pieces _ _ 13 (ts_buyerRelockActive ev) _ HL), (byte_is_1_pieces _ _ 14 (ts_sellerRelockActive ev) _ HL)
    by reflexivity.
  by destruct ev.
Qed.

Lemma decodeTradeSettled_length buf :
  if decide (length buf = 146)%nat then is_Ok (decodeTradeSettled buf) = true
  else decodeTradeSettled buf =
    Throw (Error ("TradeSettled event length mismatch: got " +:+ pretty (length buf) +:+ ", expected 146")).
Proof.
  unfold decodeTradeSettled. change (16 + 8 * 12 + 1 + 1 + 32)%nat with 146%nat.
  case_decide as Hl.
  - rewrite Hl. cbn -[readU64 slice byte_is_1]. by rewrite !readU64_Ok by lia.
  - by rewrite (proj2 (Nat.eqb_neq _ _) Hl).
Qed.

(** ** Properties *)

(** [C34] The settle instruction agrees with the vault program: [buildSettleIx]
    succeeds exactly on a payload whose byte arrays have the on-chain lengths;
    the program then accepts its twelve accounts, reads back the payload (its
    integers modulo 2^64), and finds at positions 8 and 9 the lock PDAs it
    requires when a change note is re-locked. *)
Theorem buildSettleIx_correct `{NodeCrypto} `{!NodeCryptoLaws} `{Web3} (p : BuildSettleIxParams) :
  (payload_sized p.(bs_payload) ∧ ∃ tx, buildSettleIx p = Ok tx ∧
     accepted_as p.(bs_programId) tx (payload_u64 p.(bs_payload)) ∧
     pubkey <$> tx.(ix_keys) !! 0%nat = Some p.(bs_teeAuthority) ∧
     pubkey <$> tx.(ix_keys) !! 8%nat = Some (relock_pda p.(bs_programId) p.(bs_payload).(mp_noteE)) ∧
     pubkey <$> tx.(ix_keys) !! 9%nat = Some (relock_pda p.(bs_programId) p.(bs_payload).(mp_noteF)))
  ∨ (¬ payload_sized p.(bs_payload) ∧ is_Ok (buildSettleIx p) = false).
Proof.
  destruct (buildSettleIx p) as [tx|e] eqn:Hb.
  - left. destruct (buildSettleIx_accepted p tx Hb) as (? & ? & ?). eauto.
  - right. split; [|done]. intros Hs%buildSettleIx_total. by rewrite Hb in Hs.
Qed.

Definition sample_payload : MatchResultPayload := exactFillPayload
  {| ef_matchId := replicate 16 x01; ef_noteA := replicate 32 x02; ef_noteB := replicate 32 x03;
     ef_noteC := replicate 32 x04; ef_noteD := replicate 32 x05; ef_nullifierA := replicate 32 x06;
     ef_nullifierB := replicate 32 x07; ef_orderIdA := replicate 16 x08; ef_orderIdB := replicate 16 x09;
     ef_baseAmount := 100; ef_quoteAmount := 5000; ef_clearingPrice := None; ef_batchSlot := Some 3 |}.

Lemma sample_payload_sized : payload_sized sample_payload.
Proof. split; repeat constructor. Qed.

Lemma buildSettleIx_correct_witness :
  ∃ tx, @buildSettleIx Toy.toy_crypto Toy.toy_web3 (Build_BuildSettleIxParams Toy.zero_key Toy.zero_key sample_payload) = Ok tx ∧
    @accepted_as _ (@settle_program Toy.toy_web3) Toy.toy_crypto Toy.zero_key tx (payload_u64 sample_payload).
Proof.
  destruct (@buildSettleIx_correct Toy.toy_crypto Toy.toy_crypto_laws Toy.toy_web3
    (Build_BuildSettleIxParams Toy.zero_key Toy.zero_key sample_payload)) as [(_ & tx & Hb & Ha & _)|[Hn _]].
  - exists tx. exact (conj Hb Ha).
  - destruct (Hn sample_payload_sized).
Defined.

(** [C35] [canonicalPayloadHash] computes the hash the vault program recomputes
    from the payload it reads, and it is binding: two payloads with the same
    hash are the same on chain, or their encodings are a SHA-256 collision. *)
Theorem canonicalPayloadHash_agrees_and_binds `{NodeCrypto} (p q : MatchResultPayload) h :
  canonicalPayloadHash p = Ok h →
  h = canonical_payload_hash (payload_u64 p) ∧
  (canonicalPayloadHash q = Ok h →
   payload_u64 p = payload_u64 q ∨
   (concat (canonical_slices p) ≠ concat (canonical_slices q) ∧
    sha256 (concat (canonical_slices p)) = sha256 (concat (canonical_slices q)))).
Proof.
  unfold canonicalPayloadHash. intros Hp.
  destruct (catM (canonicalPayloadUpdates p)) as [m|] eqn:Hm; [|done].
  pose proof (canonicalPayloadUpdates_sized p m Hm) as Sp.
  rewrite canonicalPayloadUpdates_Ok in Hm by done. apply Ok_inj in Hm as <-. apply Ok_inj in Hp as <-.
  split; [by unfold canonical_payload_hash; rewrite canonical_slices_u64|]. intros Hq.
  destruct (catM (canonicalPayloadUpdates q)) as [m|] eqn:Hm; [|done].
  pose proof (canonicalPayloadUpdates_sized q m Hm) as Sq.
  rewrite canonicalPayloadUpdates_Ok in Hm by done. apply Ok_inj in Hm as <-. apply Ok_inj in Hq.
  destruct (decide (concat (canonical_slices p) = concat (canonical_slices q))) as [E|E].
  - left. by apply canonical_concat_inj.
  - right. split; [done|]. by rewrite Hq.
Qed.

Lemma canonicalPayloadHash_agrees_and_binds_witness :
  ∃ h, @canonicalPayloadHash Toy.toy_crypto sample_payload = Ok h ∧
    h = @canonical_payload_hash Toy.toy_crypto (payload_u64 sample_payload).
Proof.
  assert (Hh : @canonicalPayloadHash Toy.toy_crypto sample_payload =
    Ok (@sha256 Toy.toy_crypto (concat (canonical_slices sample_payload)))).
  { unfold canonicalPayloadHash. by rewrite (canonicalPayloadUpdates_Ok _ sample_payload_sized). }
  eexists. split; [exact Hh|].
  exact (proj1 (@canonicalPayloadHash_agrees_and_binds Toy.toy_crypto sample_payload sample_payload _ Hh)).
Defined.

(** The settlement transaction passes the program's signature scan: with
    the precompile instruction of [buildEd25519VerifyIx] over the canonical hash
    anywhere up to seven places after the current one, [verify_tee_signature]
    accepts the TEE key and the hash the program computes; and that instruction
    matches no other key and no other 32-byte message. *)
Theorem ed25519_ix_verified `{NodeCrypto} `{!NodeCryptoLaws} `{Web3} (payload : MatchResultPayload) pk sig h ix :
  canonicalPayloadHash payload = Ok h →
  buildEd25519VerifyIx {| teePubkey := pk; ed_signature := sig; ed_message := h |} = Ok ix →
  (∀ tx i n, tx !! i = Some ix → (i < n + 8)%nat →
     verify_tee_signature tx n pk (canonical_payload_hash (payload_u64 payload)) = true) ∧
  (∀ pk' msg', precompile_matches ix pk' msg' = true ↔ pk = pk' ∧ h = msg').
Proof.
  unfold canonicalPayloadHash. intros Hh Hix.
  destruct (catM (canonicalPayloadUpdates payload)) as [m|] eqn:Hm; [|done].
  pose proof (canonicalPayloadUpdates_sized payload m Hm) as Sp.
  rewrite canonicalPayloadUpdates_Ok in Hm by done. apply Ok_inj in Hm as <-. apply Ok_inj in Hh as Hh.
  assert (Hmatch : ∀ pk' msg', precompile_matches ix pk' msg' = bool_decide (pk = pk' ∧ h = msg')).
  { intros. by rewrite (buildEd25519VerifyIx_matches _ _ _ _ Hix) by (cbn; rewrite <-Hh; apply length_sha256). }
  split.
  - intros tx i n Hi Hn. apply (verify_intro tx i ix); [done|done|]. rewrite Hmatch, bool_decide_true; [done|].
    split; [done|]. unfold canonical_payload_hash. by rewrite canonical_slices_u64.
  - intros. rewrite Hmatch. apply bool_decide_eq_true.
Qed.

Lemma ed25519_ix_verified_witness :
  ∃ h ix, @canonicalPayloadHash Toy.toy_crypto sample_payload = Ok h ∧
    @buildEd25519VerifyIx Toy.toy_web3 {| teePubkey := replicate 32 x21; ed_signature := replicate 64 x22; ed_message := h |} = Ok ix ∧
    @verify_tee_signature Toy.toy_web3 [ix] 1 (replicate 32 x21)
      (@canonical_payload_hash Toy.toy_crypto (payload_u64 sample_payload)) = true.
Proof.
  assert (Hh : @canonicalPayloadHash Toy.toy_crypto sample_payload =
    Ok (@sha256 Toy.toy_crypto (concat (canonical_slices sample_payload)))).
  { unfold canonicalPayloadHash. by rewrite (canonicalPayloadUpdates_Ok _ sample_payload_sized). }
  eexists _, _. split; [exact Hh|]. split; [reflexivity|].
  exact (proj1 (@ed25519_ix_verified Toy.toy_crypto Toy.toy_crypto_laws Toy.toy_web3 sample_payload
    (replicate 32 x21) (replicate 64 x22) _ _ Hh eq_refl) [_] 0%nat 1%nat eq_refl ltac:(lia)).
Defined.

(** [decodeTradeSettled] inverts the program's event encoding: it returns
    every event the program can emit, field by field; it returns some event on
    any 146 bytes and the length error on any other length. *)
Theorem decodeTradeSettled_roundtrip :
  (∀ ev, event_wf ev → decodeTradeSettled (trade_settled_bytes ev) = Ok ev) ∧
  (∀ buf, length buf = 146%nat → ∃ ev, decodeTradeSettled buf = Ok ev) ∧
  (∀ buf, length buf ≠ 146%nat → decodeTradeSettled buf =
     Throw (Error ("TradeSettled event length mismatch: got " +:+ pretty (length buf) +:+ ", expected 146"))).
Proof.
  split; [apply decodeTradeSettled_bytes|]. split; intros buf Hl; pose proof (decodeTradeSettled_length buf) as H.
  - rewrite decide_True in H by done. destruct (decodeTradeSettled buf); [eauto|done].
  - by rewrite decide_False in H.
Qed.
