(* ===== verification/BatchResults.v ===== *)
(** Decoder of the [BatchResults] account ([batch/inclusion-proof.ts]) and the
    zero-copy layout the matching engine writes
    ([programs/matching_engine/src/state/{batch_results,match_result,fee_accumulator}.rs]). *)

From S2P Require Import Prelude Bytes Errors.

Local Open Scope Z_scope.

Definition BATCH_RESULTS_CAPACITY : nat := 16.
Definition FEE_ACCUMULATOR_COUNT : nat := 2.
Definition FEE_ACCUMULATOR_SIZE : nat := 80.
Definition MATCH_RESULT_SIZE : nat := 408.

Record MatchResultRecord := {
  mr_noteBuyer : bytes; mr_noteSeller : bytes; mr_noteE : bytes; mr_noteF : bytes;
  mr_ownerBuyer : bytes; mr_ownerSeller : bytes;
  mr_userCommitmentBuyer : bytes; mr_userCommitmentSeller : bytes;
  mr_buyerNoteValue : Z; mr_sellerNoteValue : Z; mr_baseAmt : Z; mr_quoteAmt : Z;
  mr_buyerChangeAmt : Z; mr_sellerChangeAmt : Z; mr_buyerFeeAmt : Z; mr_sellerFeeAmt : Z;
  mr_buyerRelockOrderId : bytes; mr_buyerRelockExpiry : Z;
  mr_sellerRelockOrderId : bytes; mr_sellerRelockExpiry : Z;
  mr_price : Z; mr_pythAtMatch : Z; mr_batchSlot : Z; mr_matchId : Z; mr_status : Z }.

Record FeeAccumulatorRecord := {
  fa_tokenMint : bytes; fa_accumulatedFees : Z; fa_batchSlot : Z; fa_flushedCommitment : bytes }.

Record BatchResultsView := {
  br_market : bytes; br_lastInclusionRoot : bytes; br_lastBatchSlot : Z; br_lastMatchCount : Z;
  br_lastClearingPrice : Z; br_lastPythTwap : Z; br_lastCircuitBreakerTripped : bool;
  br_writeCursor : Z; br_nextMatchId : Z; br_results : list MatchResultRecord;
  br_feeAccumulators : list FeeAccumulatorRecord; br_bump : Z }.

(** ** The decoder *)

(** [copyBytes(buf.subarray(off, off + len))]: clamped at the end of the buffer. *)
Definition readBytes (buf : bytes) (off len : nat) : bytes := slice buf off len.

(** [buf[off]]; [-1] stands for [undefined], which the length check of
    [decodeBatchResults] excludes. *)
Definition u8_at (buf : bytes) (off : nat) : Z :=
  match buf !! off with Some b => u8_val b | None => -1 end.

Definition decodeMatchResult (buf : bytes) (off : nat) : res MatchResultRecord :=
  let noteBuyer := readBytes buf off 32 in let off := (off + 32)%nat in
  let noteSeller := readBytes buf off 32 in let off := (off + 32)%nat in
  let noteEcommitment := readBytes buf off 32 in let off := (off + 32)%nat in
  let noteFcommitment := readBytes buf off 32 in let off := (off + 32)%nat in
  let ownerBuyer := readBytes buf off 32 in let off := (off + 32)%nat in
  let ownerSeller := readBytes buf off 32 in let off := (off + 32)%nat in
  let userCommitmentBuyer := readBytes buf off 32 in let off := (off + 32)%nat in
  let userCommitmentSeller := readBytes buf off 32 in let off := (off + 32)%nat in
  buyerNoteValue ← readU64 buf off; let off := (off + 8)%nat in
  sellerNoteValue ← readU64 buf off; let off := (off + 8)%nat in
  baseAmt ← readU64 buf off; let off := (off + 8)%nat in
  quoteAmt ← readU64 buf off; let off := (off + 8)%nat in
  buyerChangeAmt ← readU64 buf off; let off := (off + 8)%nat in
  sellerChangeAmt ← readU64 buf off; let off := (off + 8)%nat in
  buyerFeeAmt ← readU64 buf off; let off := (off + 8)%nat in
  sellerFeeAmt ← readU64 buf off; let off := (off + 8)%nat in
  let buyerRelockOrderId := readBytes buf off 16 in let off := (off + 16)%nat in
  buyerRelockExpiry ← readU64 buf off; let off := (off + 8)%nat in
  let sellerRelockOrderId := readBytes buf off 16 in let off := (off + 16)%nat in
  sellerRelockExpiry ← readU64 buf off; let off := (off + 8)%nat in
  price ← readU64 buf off; let off := (off + 8)%nat in
  pythAtMatch ← readU64 buf off; let off := (off + 8)%nat in
  batchSlot ← readU64 buf off; let off := (off + 8)%nat in
  matchId ← readU64 buf off; let off := (off + 8)%nat in
  let status := u8_at buf off in
  Ok {| mr_noteBuyer := noteBuyer; mr_noteSeller := noteSeller; mr_noteE := noteEcommitment;
        mr_noteF := noteFcommitment; mr_ownerBuyer := ownerBuyer; mr_ownerSeller := ownerSeller;
        mr_userCommitmentBuyer := userCommitmentBuyer; mr_userCommitmentSeller := userCommitmentSeller;
        mr_buyerNoteValue := buyerNoteValue; mr_sellerNoteValue := sellerNoteValue;
        mr_baseAmt := baseAmt; mr_quoteAmt := quoteAmt; mr_buyerChangeAmt := buyerChangeAmt;
        mr_sellerChangeAmt := sellerChangeAmt; mr_buyerFeeAmt := buyerFeeAmt;
        mr_sellerFeeAmt := sellerFeeAmt; mr_buyerRelockOrderId := buyerRelockOrderId;
        mr_buyerRelockExpiry := buyerRelockExpiry; mr_sellerRelockOrderId := sellerRelockOrderId;
        mr_sellerRelockExpiry := sellerRelockExpiry; mr_price := price; mr_pythAtMatch := pythAtMatch;
        mr_batchSlot := batchSlot; mr_matchId := matchId; mr_status := status |}.

Definition decodeFeeAccumulator (buf : bytes) (off : nat) : res FeeAccumulatorRecord :=
  let tokenMint := readBytes buf off 32 in let off := (off + 32)%nat in
  accumulatedFees ← readU64 buf off; let off := (off + 8)%nat in
  batchSlot ← readU64 buf off; let off := (off + 8)%nat in
  let flushedCommitment := readBytes buf off 32 in
  Ok {| fa_tokenMint := tokenMint; fa_accumulatedFees := accumulatedFees; fa_batchSlot := batchSlot;
        fa_flushedCommitment := flushedCommitment |}.

(** [for (let i = 0; i < n; i++) { out.push(decode(buf, off)); off += size; }];
    returns the array and the offset after it. *)
Fixpoint decode_array {A} (decode : bytes → nat → res A) (size n : nat) (buf : bytes) (off : nat)
    : res (list A * nat) :=
  match n with
  | O => Ok ([], off)
  | S n =>
      a ← decode buf off;
      r ← decode_array decode size n buf (off + size);
      Ok (a :: r.1, r.2)
  end.

Definition batch_results_len : nat :=
  8 + 32 + 32 + 8 + 8 + 8 + 8 + 1 + 7 + 8 + 8
  + MATCH_RESULT_SIZE * BATCH_RESULTS_CAPACITY + FEE_ACCUMULATOR_SIZE * FEE_ACCUMULATOR_COUNT + 1 + 7.

Definition decodeBatchResults (accountData : bytes) : res BatchResultsView :=
  let expected := batch_results_len in
  _ ← throw_if (negb (length accountData =? expected)%nat)
        (Error ("batch_results length mismatch: got " +:+ pretty (length accountData)
                +:+ ", expected " +:+ pretty expected));
  let off := 8%nat in
  let market := readBytes accountData off 32 in
  let off := (off + 32)%nat in
  let lastInclusionRoot := readBytes accountData off 32 in
  let off := (off + 32)%nat in
  lastBatchSlot ← readU64 accountData off;
  let off := (off + 8)%nat in
  lastMatchCount ← readU64 accountData off;
  let off := (off + 8)%nat in
  lastClearingPrice ← readU64 accountData off;
  let off := (off + 8)%nat in
  lastPythTwap ← readU64 accountData off;
  let off := (off + 8)%nat in
  let lastCircuitBreakerTripped := u8_at accountData off =? 1 in
  let off := (off + (1 + 7))%nat in
  writeCursor ← readU64 accountData off;
  let off := (off + 8)%nat in
  nextMatchId ← readU64 accountData off;
  let off := (off + 8)%nat in
  results ← decode_array decodeMatchResult MATCH_RESULT_SIZE BATCH_RESULTS_CAPACITY accountData off;
  let off := results.2 in
  feeAccumulators ← decode_array decodeFeeAccumulator FEE_ACCUMULATOR_SIZE FEE_ACCUMULATOR_COUNT
                      accountData off;
  let off := feeAccumulators.2 in
  let bump := u8_at accountData off in
  Ok {| br_market := market; br_lastInclusionRoot := lastInclusionRoot;
        br_lastBatchSlot := lastBatchSlot; br_lastMatchCount := lastMatchCount;
        br_lastClearingPrice := lastClearingPrice; br_lastPythTwap := lastPythTwap;
        br_lastCircuitBreakerTripped := lastCircuitBreakerTripped; br_writeCursor := writeCursor;
        br_nextMatchId := nextMatchId; br_results := results.1;
        br_feeAccumulators := feeAccumulators.1; br_bump := bump |}.

(** The words of a decoded match are u64. *)
Lemma decoded_words buf off mr :
  decodeMatchResult buf off = Ok mr → 0 <= mr.(mr_baseAmt) < U64 ∧ 0 <= mr.(mr_matchId) < U64.
Proof.
  unfold decodeMatchResult. intros Hd. inv_res. subst mr. cbn [mr_baseAmt mr_matchId].
  split; eapply readU64_range; eassumption.
Qed.

Lemma decode_array_In {A} (decode : bytes → nat → res A) size n buf off l off' x :
  decode_array decode size n buf off = Ok (l, off') → In x l → ∃ o, decode buf o = Ok x.
Proof.
  revert off l off'; induction n as [|n IH]; intros off l off' Hr Hx; cbn [decode_array] in Hr.
  - injection Hr as <- <-. destruct Hx.
  - apply res_bind_Ok in Hr as (a & Ha & Hr). apply res_bind_Ok in Hr as ([l1 o1] & Hl & Hr). injection Hr as <- <-.
    destruct Hx as [->|Hx]; [by exists off|by eapply IH].
Qed.

Lemma decoded_batch_words b v mr :
  decodeBatchResults b = Ok v → In mr v.(br_results) → 0 <= mr.(mr_baseAmt) < U64 ∧ 0 <= mr.(mr_matchId) < U64.
Proof.
  unfold decodeBatchResults. intros Hd Hin. inv_res. subst v. cbn [br_results] in Hin.
  match goal with H : decode_array decodeMatchResult _ _ _ _ = Ok ?p |- _ =>
    destruct p as [l o]; destruct (decode_array_In _ _ _ _ _ _ _ _ H Hin) as (off & Hoff) end.
  by eapply decoded_words.
Qed.

(** ** The account's layout ([#[repr(C)]], little-endian, no implicit padding) *)

Definition match_result_pieces (m : MatchResultRecord) : list bytes := [
  m.(mr_noteBuyer); m.(mr_noteSeller); m.(mr_noteE); m.(mr_noteF); m.(mr_ownerBuyer); m.(mr_ownerSeller);
  m.(mr_userCommitmentBuyer); m.(mr_userCommitmentSeller);
  le_bytes 8 m.(mr_buyerNoteValue); le_bytes 8 m.(mr_sellerNoteValue); le_bytes 8 m.(mr_baseAmt);
  le_bytes 8 m.(mr_quoteAmt); le_bytes 8 m.(mr_buyerChangeAmt); le_bytes 8 m.(mr_sellerChangeAmt);
  le_bytes 8 m.(mr_buyerFeeAmt); le_bytes 8 m.(mr_sellerFeeAmt);
  m.(mr_buyerRelockOrderId); le_bytes 8 m.(mr_buyerRelockExpiry);
  m.(mr_sellerRelockOrderId); le_bytes 8 m.(mr_sellerRelockExpiry);
  le_bytes 8 m.(mr_price); le_bytes 8 m.(mr_pythAtMatch); le_bytes 8 m.(mr_batchSlot);
  le_bytes 8 m.(mr_matchId); [u8_of_Z m.(mr_status)]; replicate 7 x00].

Definition match_result_bytes (m : MatchResultRecord) : bytes := concat (match_result_pieces m).

Definition fee_pieces (f : FeeAccumulatorRecord) : list bytes :=
  [f.(fa_tokenMint); le_bytes 8 f.(fa_accumulatedFees); le_bytes 8 f.(fa_batchSlot);
   f.(fa_flushedCommitment)].

Definition fee_bytes (f : FeeAccumulatorRecord) : bytes := concat (fee_pieces f).

Definition batch_results_pieces (disc : bytes) (v : BatchResultsView) : list bytes := [
  disc; v.(br_market); v.(br_lastInclusionRoot); le_bytes 8 v.(br_lastBatchSlot);
  le_bytes 8 v.(br_lastMatchCount); le_bytes 8 v.(br_lastClearingPrice); le_bytes 8 v.(br_lastPythTwap);
  [if v.(br_lastCircuitBreakerTripped) then x01 else x00]; replicate 7 x00;
  le_bytes 8 v.(br_writeCursor); le_bytes 8 v.(br_nextMatchId);
  concat (match_result_bytes <$> v.(br_results)); concat (fee_bytes <$> v.(br_feeAccumulators));
  [u8_of_Z v.(br_bump)]; replicate 7 x00].

Definition batch_results_bytes (disc : bytes) (v : BatchResultsView) : bytes :=
  concat (batch_results_pieces disc v).

(** Values the program's types allow. *)
Definition u64_ok (v : Z) : Prop := 0 ≤ v < U64.
Definition u8_ok (v : Z) : Prop := 0 ≤ v < 256.

Definition match_result_wf (m : MatchResultRecord) : Prop :=
  Forall (λ b, length b = 32%nat)
    [m.(mr_noteBuyer); m.(mr_noteSeller); m.(mr_noteE); m.(mr_noteF); m.(mr_ownerBuyer);
     m.(mr_ownerSeller); m.(mr_userCommitmentBuyer); m.(mr_userCommitmentSeller)] ∧
  Forall (λ b, length b = 16%nat) [m.(mr_buyerRelockOrderId); m.(mr_sellerRelockOrderId)] ∧
  Forall u64_ok
    [m.(mr_buyerNoteValue); m.(mr_sellerNoteValue); m.(mr_baseAmt); m.(mr_quoteAmt);
     m.(mr_buyerChangeAmt); m.(mr_sellerChangeAmt); m.(mr_buyerFeeAmt); m.(mr_sellerFeeAmt);
     m.(mr_buyerRelockExpiry); m.(mr_sellerRelockExpiry); m.(mr_price); m.(mr_pythAtMatch);
     m.(mr_batchSlot); m.(mr_matchId)] ∧ u8_ok m.(mr_status).

Definition fee_wf (f : FeeAccumulatorRecord) : Prop :=
  length f.(fa_tokenMint) = 32%nat ∧ length f.(fa_flushedCommitment) = 32%nat ∧
  u64_ok f.(fa_accumulatedFees) ∧ u64_ok f.(fa_batchSlot).

Definition batch_results_wf (v : BatchResultsView) : Prop :=
  length v.(br_market) = 32%nat ∧ length v.(br_lastInclusionRoot) = 32%nat ∧
  Forall u64_ok [v.(br_lastBatchSlot); v.(br_lastMatchCount); v.(br_lastClearingPrice);
    v.(br_lastPythTwap); v.(br_writeCursor); v.(br_nextMatchId)] ∧ u8_ok v.(br_bump) ∧
  length v.(br_results) = BATCH_RESULTS_CAPACITY ∧ Forall match_result_wf v.(br_results) ∧
  length v.(br_feeAccumulators) = FEE_ACCUMULATOR_COUNT ∧ Forall fee_wf v.(br_feeAccumulators).

(** ** Lemmas *)

Lemma readBytes_drop buf off k n : readBytes buf (off + k) n = readBytes (drop off buf) k n.
Proof. unfold readBytes. apply slice_drop. Qed.

Lemma readU64_drop buf off k : readU64 buf (off + k) = readU64 (drop off buf) k.
Proof.
  unfold readU64. rewrite length_drop, slice_drop. by repeat case_decide; try lia.
Qed.

Lemma u8_at_drop buf off k : u8_at buf (off + k) = u8_at (drop off buf) k.
Proof. unfold u8_at. by rewrite lookup_drop. Qed.

Lemma u8_at_pieces ls lens k v off :
  length <$> ls = lens → ls !! k = Some [u8_of_Z v] → sum_list (take k lens) = off → u8_ok v →
  u8_at (concat ls) off = v.
Proof.
  intros HL Hk Hoff Hv. unfold u8_at. rewrite (pieces_lookup ls lens k _ off HL Hk Hoff).
  rewrite u8_val_of_Z. by apply Z.mod_small.
Qed.

(** Decoding at an offset is decoding the rest of the buffer from its start. *)
Ltac shift_off off :=
  rewrite <-!(Nat.add_assoc off); cbn [Nat.add]; rewrite ?readBytes_drop, ?readU64_drop, ?u8_at_drop.

Lemma decodeMatchResult_shift buf off : decodeMatchResult buf off = decodeMatchResult (drop off buf) 0.
Proof.
  unfold decodeMatchResult. rewrite <-(Nat.add_0_r off) at 1. shift_off off. reflexivity.
Qed.

Lemma decodeFeeAccumulator_shift buf off :
  decodeFeeAccumulator buf off = decodeFeeAccumulator (drop off buf) 0.
Proof.
  unfold decodeFeeAccumulator. rewrite <-(Nat.add_0_r off) at 1. shift_off off. reflexivity.
Qed.

Definition match_lens : list nat :=
  [32; 32; 32; 32; 32; 32; 32; 32; 8; 8; 8; 8; 8; 8; 8; 8; 16; 8; 16; 8; 8; 8; 8; 8; 1; 7]%nat.

Lemma match_result_lengths m : match_result_wf m → length <$> match_result_pieces m = match_lens.
Proof.
  intros (H32 & H16 & _). decompose_Forall_hyps. unfold match_result_pieces. cbn [fmap list_fmap].
  repeat f_equal; done.
Qed.

Lemma length_match_result m : match_result_wf m → length (match_result_bytes m) = 408%nat.
Proof. intros Hwf. apply (pieces_length _ _ (match_result_lengths m Hwf)). Qed.

(** Reads the [k]-th piece as bytes. *)
Ltac rb k HL :=
  match type of HL with _ = ?lens =>
    let off := eval vm_compute in (sum_list (take k lens)) in
    let n := eval vm_compute in (lens !!! k) in
    erewrite (pieces_slice _ _ k _ off n HL); [ | reflexivity | reflexivity | reflexivity ]
  end.

Lemma decodeMatchResult_bytes m rest :
  match_result_wf m → decodeMatchResult (match_result_bytes m ++ rest) 0 = Ok m.
Proof.
  intros Hwf. pose proof Hwf as (H32 & H16 & Hu & Hst). decompose_Forall_hyps. unfold u64_ok in *.
  assert (HL : length <$> (match_result_pieces m ++ [rest]) = match_lens ++ [length rest]).
  { rewrite fmap_app, match_result_lengths by done. done. }
  unfold decodeMatchResult, readBytes.
  replace (match_result_bytes m ++ rest) with (concat (match_result_pieces m ++ [rest]))
    by (rewrite concat_app; cbn [concat]; by rewrite app_nil_r).
  cbn [Nat.add]. set (L := match_result_pieces m ++ [rest]) in *.
  rb 0%nat HL. rb 1%nat HL. rb 2%nat HL. rb 3%nat HL. rb 4%nat HL. rb 5%nat HL. rb 6%nat HL. rb 7%nat HL.
  rb 16%nat HL. rb 18%nat HL. rds 8%nat HL. rd 17%nat HL. rds 19%nat HL.
  rewrite (u8_at_pieces L _ 24 (mr_status m) _ HL) by (reflexivity || done).
  by destruct m.
Qed.

Definition fee_lens : list nat := [32; 8; 8; 32]%nat.

Lemma fee_lengths f : fee_wf f → length <$> fee_pieces f = fee_lens.
Proof. intros (Hm & Hc & _). unfold fee_pieces. cbn [fmap list_fmap]. repeat f_equal; done. Qed.

Lemma decodeFeeAccumulator_bytes f rest :
  fee_wf f → decodeFeeAccumulator (fee_bytes f ++ rest) 0 = Ok f.
Proof.
  intros Hwf. pose proof Hwf as (Hm & Hc & Ha & Hb). unfold u64_ok in *.
  assert (HL : length <$> (fee_pieces f ++ [rest]) = fee_lens ++ [length rest]).
  { rewrite fmap_app, fee_lengths by done. done. }
  unfold decodeFeeAccumulator, readBytes.
  replace (fee_bytes f ++ rest) with (concat (fee_pieces f ++ [rest]))
    by (rewrite concat_app; cbn [concat]; by rewrite app_nil_r).
  cbn [Nat.add]. set (L := fee_pieces f ++ [rest]) in *.
  rb 0%nat HL. rb 3%nat HL. rds 1%nat HL. by destruct f.
Qed.

(** A decoder that reads a record of fixed size at the start of the rest of the
    buffer decodes an array of such records. *)
Lemma decode_array_spec {A} (decode : bytes → nat → res A) (enc : A → bytes) size l buf off rest :
  (∀ buf off, decode buf off = decode (drop off buf) 0%nat) →
  (∀ a rest, a ∈ l → decode (enc a ++ rest) 0%nat = Ok a ∧ length (enc a) = size) →
  drop off buf = concat (enc <$> l) ++ rest →
  decode_array decode size (length l) buf off = Ok (l, (off + size * length l)%nat).
Proof.
  intros Hshift. revert off. induction l as [|a l IH]; intros off Hdec Hd; cbn [length decode_array].
  - by rewrite Nat.mul_0_r, Nat.add_0_r.
  - cbn [fmap list_fmap concat] in Hd. rewrite <-app_assoc in Hd.
    destruct (Hdec a (concat (enc <$> l) ++ rest)) as [Ha Hl]; [set_solver|].
    rewrite Hshift, Hd, Ha. cbn [mbind res_bind]. rewrite (IH (off + size)%nat).
    + cbn. do 2 f_equal. lia.
    + intros; apply Hdec; set_solver.
    + rewrite <-drop_drop, Hd, <-Hl. apply drop_app_length.
Qed.

Lemma length_concat_map {A} (enc : A → bytes) size l :
  (∀ a, a ∈ l → length (enc a) = size) → length (concat (enc <$> l)) = (size * length l)%nat.
Proof.
  induction l as [|a l IH]; intros H; cbn; [lia|].
  rewrite length_app, (H a), IH by set_solver. lia.
Qed.

Definition batch_lens : list nat := [8; 32; 32; 8; 8; 8; 8; 1; 7; 8; 8; 6528; 160; 1; 7]%nat.

Lemma batch_results_lengths disc v :
  length disc = 8%nat → batch_results_wf v → length <$> batch_results_pieces disc v = batch_lens.
Proof.
  intros Hd (Hm & Hi & _ & _ & Hr & Hrw & Hf & Hfw). rewrite Forall_forall in Hrw. rewrite Forall_forall in Hfw.
  unfold batch_results_pieces. cbn [fmap list_fmap].
  rewrite (length_concat_map match_result_bytes 408) by (intros; apply length_match_result; auto).
  rewrite (length_concat_map fee_bytes 80) by (intros a Ha; apply (pieces_length _ _ (fee_lengths a (Hfw a Ha)))).
  rewrite Hd, Hm, Hi, Hr, Hf. done.
Qed.

(** The rest of a buffer after its first [k] pieces. *)
Lemma pieces_drop (ls : list bytes) lens k off :
  length <$> ls = lens → sum_list (take k lens) = off → drop off (concat ls) = concat (drop k ls).
Proof.
  intros <- <-. rewrite <-fmap_take, <-length_concat_sum.
  rewrite <-(take_drop k ls) at 2. rewrite concat_app. apply drop_app_length.
Qed.

Lemma decodeBatchResults_bytes disc v :
  length disc = 8%nat → batch_results_wf v → decodeBatchResults (batch_results_bytes disc v) = Ok v.
Proof.
  intros Hd Hwf. pose proof Hwf as (Hm & Hi & Hu & Hb & Hr & Hrw & Hf & Hfw).
  decompose_Forall_hyps. unfold u64_ok in *. pose proof (batch_results_lengths disc v Hd Hwf) as HL.
  rewrite Forall_forall in Hrw. rewrite Forall_forall in Hfw.
  unfold decodeBatchResults, batch_results_bytes. rewrite (pieces_length _ _ HL).
  change (sum_list batch_lens) with (68 * 100 + 24)%nat. change batch_results_len with (68 * 100 + 24)%nat.
  cbn [Nat.eqb negb throw_if mbind res_bind Nat.add]. unfold readBytes.
  assert (Hcb : batch_results_pieces disc v !! 7%nat =
    Some [u8_of_Z (if br_lastCircuitBreakerTripped v then 1 else 0)]) by (cbn; by case_match).
  set (L := batch_results_pieces disc v) in *.
  rb 1%nat HL. rb 2%nat HL. rds 3%nat HL. rds 9%nat HL.
  rewrite (u8_at_pieces L _ 7 _ _ HL Hcb) by (try reflexivity; by destruct (br_lastCircuitBreakerTripped v)).
  rewrite <-Hr, (decode_array_spec _ match_result_bytes _ _ _ _
    (concat (drop 12 L)) decodeMatchResult_shift).
  2:{ intros a rest Ha. split; [apply decodeMatchResult_bytes|apply length_match_result]; auto. }
  2:{ rewrite (pieces_drop L _ 11 _ HL) by reflexivity. reflexivity. }
  cbn [mbind res_bind fst snd]. rewrite Hr. change (MATCH_RESULT_SIZE * BATCH_RESULTS_CAPACITY)%nat with (65 * 100 + 28)%nat.
  rewrite <-Hf, (decode_array_spec _ fee_bytes _ _ _ _ (concat (drop 13 L)) decodeFeeAccumulator_shift).
  2:{ intros a rest Ha. split; [apply decodeFeeAccumulator_bytes; auto|].
      apply (pieces_length _ _ (fee_lengths a (Hfw a Ha))). }
  2:{ rewrite (pieces_drop L _ 12 _ HL) by reflexivity. reflexivity. }
  cbn [mbind res_bind fst snd]. rewrite Hf. change (FEE_ACCUMULATOR_SIZE * FEE_ACCUMULATOR_COUNT)%nat with 160%nat.
  rewrite (u8_at_pieces L _ 13 (br_bump v) _ HL) by (reflexivity || done).
  by destruct v as [? ? ? ? ? ? [] ? ? ? ? ?].
Qed.

(** The decoder never fails once the length check has passed. *)
Lemma decode_array_total {A} (decode : bytes → nat → res A) size n buf off :
  (∀ off, (off + size ≤ length buf)%nat → is_Ok (decode buf off) = true) →
  (off + size * n ≤ length buf)%nat →
  ∃ l, decode_array decode size n buf off = Ok (l, (off + size * n)%nat) ∧ length l = n.
Proof.
  intros Hdec. revert off. induction n as [|n IH]; intros off Hle; cbn [decode_array].
  - exists []. by rewrite Nat.mul_0_r, Nat.add_0_r.
  - specialize (Hdec off ltac:(lia)). destruct (decode buf off) as [a|]; [|done].
    destruct (IH (off + size)%nat ltac:(lia)) as (l & -> & Hl). exists (a :: l). cbn. split; [|lia].
    do 2 f_equal. lia.
Qed.

Lemma decodeMatchResult_total buf off :
  (off + 408 ≤ length buf)%nat → is_Ok (decodeMatchResult buf off) = true.
Proof. intros. unfold decodeMatchResult. by rewrite !readU64_Ok by lia. Qed.

Lemma decodeFeeAccumulator_total buf off :
  (off + 80 ≤ length buf)%nat → is_Ok (decodeFeeAccumulator buf off) = true.
Proof. intros. unfold decodeFeeAccumulator. by rewrite !readU64_Ok by lia. Qed.

Lemma decodeBatchResults_total buf :
  length buf = batch_results_len → ∃ v, decodeBatchResults buf = Ok v ∧
    length v.(br_results) = 16%nat ∧ length v.(br_feeAccumulators) = 2%nat.
Proof.
  intros Hl. unfold decodeBatchResults. rewrite Hl.
  change batch_results_len with (68 * 100 + 24)%nat in Hl |- *. cbn [Nat.eqb negb throw_if mbind res_bind Nat.add].
  rewrite !readU64_Ok by lia. cbn [mbind res_bind].
  destruct (decode_array_total decodeMatchResult MATCH_RESULT_SIZE BATCH_RESULTS_CAPACITY buf 128)
    as (rs & Hrs & Hlr); [intros; apply decodeMatchResult_total; done| |].
  { rewrite Hl. change (MATCH_RESULT_SIZE * BATCH_RESULTS_CAPACITY)%nat with (65 * 100 + 28)%nat. lia. }
  rewrite Hrs. cbn [mbind res_bind fst snd].
  destruct (decode_array_total decodeFeeAccumulator FEE_ACCUMULATOR_SIZE FEE_ACCUMULATOR_COUNT buf
    (128 + MATCH_RESULT_SIZE * BATCH_RESULTS_CAPACITY)) as (fs & Hfs & Hlf);
    [intros; apply decodeFeeAccumulator_total; done| |].
  { rewrite Hl. change (MATCH_RESULT_SIZE * BATCH_RESULTS_CAPACITY)%nat with (65 * 100 + 28)%nat.
    change (FEE_ACCUMULATOR_SIZE * FEE_ACCUMULATOR_COUNT)%nat with 160%nat. lia. }
  rewrite Hfs. eexists. split; [reflexivity|]. done.
Qed.

(** ** Properties *)

(** [C39] [decodeBatchResults] inverts the account layout the matching engine
    writes: on a well-formed account it returns every field, the sixteen match
    results and the two fee accumulators; it returns on any buffer of the right
    length, and throws the length error on any other. *)
Theorem decodeBatchResults_roundtrip :
  (∀ disc v, length disc = 8%nat → batch_results_wf v →
     decodeBatchResults (batch_results_bytes disc v) = Ok v) ∧
  (∀ buf, length buf = batch_results_len → ∃ v, decodeBatchResults buf = Ok v ∧
     length v.(br_results) = 16%nat ∧ length v.(br_feeAccumulators) = 2%nat) ∧
  (∀ buf, length buf ≠ batch_results_len → decodeBatchResults buf =
     Throw (Error ("batch_results length mismatch: got " +:+ pretty (length buf) +:+ ", expected "
                   +:+ pretty batch_results_len))).
Proof.
  split; [apply decodeBatchResults_bytes|]. split; intros buf Hl; [by apply decodeBatchResults_total|].
  unfold decodeBatchResults. by rewrite (proj2 (Nat.eqb_neq _ _) Hl).
Qed.
