(* ===== verification/Merkle.v ===== *)
(** Binary hash trees, as the specification shared by the SHA-256 inclusion tree
    of a batch, the shadow of the vault's Poseidon tree and the vault's own
    incremental tree.

    The leaves are a function on positions; [node d i] is the hash at height [d]
    and position [i], and a tree of depth [D] has the root [node D 0]. *)

From S2P Require Import Prelude Bytes Errors.

Section merkle.
Context {A : Type} (H : A → A → A).

Fixpoint node (leaf : nat → A) (d i : nat) : A :=
  match d with
  | O => leaf i
  | S d => H (node leaf d (2 * i)) (node leaf d (2 * i + 1))
  end.

(** The position of the sibling, [i ^ 1]. *)
Definition sibling (i : nat) : nat := if Nat.even i then i + 1 else i - 1.

(** Folds an authentication path bottom-up; the side is the parity of the
    running position. *)
Fixpoint fold_path (cur : A) (idx : nat) (sibs : list A) : A :=
  match sibs with
  | [] => cur
  | s :: sibs => fold_path (if Nat.even idx then H cur s else H s cur) (idx / 2) sibs
  end.

(** The path a tree gives for a position, from height [d] on, [n] levels. *)
Fixpoint path_from (leaf : nat → A) (d i n : nat) : list A :=
  match n with
  | O => []
  | S n => node leaf d (sibling i) :: path_from leaf (S d) (i / 2) n
  end.

(** Two different pairs of values of a class, with the same hash. *)
Definition collision (P : A → Prop) : Prop :=
  ∃ a b c d, (P a ∧ P b ∧ P c ∧ P d) ∧ (a, b) ≠ (c, d) ∧ H a b = H c d.

Lemma node_ext leaf leaf' d i :
  (∀ j, i * 2 ^ d ≤ j < (i + 1) * 2 ^ d → leaf j = leaf' j) → node leaf d i = node leaf' d i.
Proof.
  revert i; induction d as [|d IH]; intros i Hl; cbn [node].
  - apply Hl. simpl. lia.
  - rewrite Nat.pow_succ_r' in Hl. f_equal; apply IH; intros j Hj; apply Hl; nia.
Qed.

(** [node] at [i] from the two children of [i / 2], whichever side [i] is on. *)
Lemma node_parent leaf d i :
  node leaf (S d) (i / 2) =
  if Nat.even i then H (node leaf d i) (node leaf d (sibling i))
  else H (node leaf d (sibling i)) (node leaf d i).
Proof.
  pose proof (Nat.div_mod_eq i 2) as Hdm. unfold sibling. cbn [node].
  destruct (Nat.even i) eqn:E.
  - apply Nat.even_spec in E as [k ->]. rewrite (Nat.mul_comm 2 k), Nat.div_mul by lia.
    by rewrite (Nat.mul_comm k 2).
  - rewrite <-Nat.negb_odd in E. apply negb_false_iff, Nat.odd_spec in E as [k ->].
    rewrite (Nat.add_comm (2 * k) 1), (Nat.mul_comm 2 k), Nat.div_add, Nat.add_0_l by lia.
    f_equal; f_equal; lia.
Qed.

(** The path a tree gives folds up to the tree's node. *)
Lemma fold_path_node leaf n d i :
  fold_path (node leaf d i) i (path_from leaf d i n) = node leaf (d + n) (i / 2 ^ n).
Proof.
  revert d i; induction n as [|n IH]; intros d i; cbn [fold_path path_from].
  - by rewrite Nat.add_0_r, Nat.pow_0_r, Nat.div_1_r.
  - rewrite Nat.pow_succ_r', <-Nat.Div0.div_div, <-Nat.add_succ_comm, <-IH.
    by rewrite node_parent.
Qed.

Lemma length_path_from leaf d i n : length (path_from leaf d i n) = n.
Proof. revert d i; induction n; intros; simpl; auto. Qed.

Lemma path_from_lookup leaf d i n k :
  k < n → path_from leaf d i n !! k = Some (node leaf (d + k) (sibling (i / 2 ^ k))).
Proof.
  revert d i k; induction n as [|n IH]; intros d i k Hk; [lia|]. destruct k as [|k]; cbn [path_from lookup list_lookup].
  - by rewrite Nat.add_0_r, Nat.pow_0_r, Nat.div_1_r.
  - rewrite IH by lia. rewrite <-Nat.add_succ_comm, Nat.pow_succ_r', Nat.Div0.div_div. done.
Qed.

(** A class of values that hashes are in and the leaves of the tree are in. *)
Context (P : A → Prop) (HP : ∀ a b, P (H a b)).

Lemma node_P leaf d i : (∀ i, P (leaf i)) → P (node leaf d i).
Proof. intros Hl. destruct d; cbn [node]; auto. Qed.

(** A path that folds up to the root is the tree's own path for the tree's own
    leaf, unless it exhibits a collision. *)
Lemma fold_path_sound `{!EqDecision A} leaf sibs d i x :
  (∀ i, P (leaf i)) → P x → Forall P sibs →
  fold_path x i sibs = node leaf (d + length sibs) (i / 2 ^ length sibs) →
  (x = node leaf d i ∧ sibs = path_from leaf d i (length sibs)) ∨ collision P.
Proof.
  intros Hleaf. pose proof (λ d i, node_P leaf d i Hleaf) as HN.
  revert d i x; induction sibs as [|s sibs IH]; intros d i x Hx Hs; cbn [fold_path length path_from].
  - rewrite Nat.add_0_r, Nat.div_1_r. auto.
  - rewrite Forall_cons in Hs. destruct Hs as [Hs Hss].
    rewrite Nat.pow_succ_r', <-Nat.Div0.div_div, <-Nat.add_succ_comm. intros Hf.
    assert (Hp : P (if Nat.even i then H x s else H s x)) by (destruct (Nat.even i); apply HP).
    destruct (IH (S d) (i / 2) _ Hp Hss Hf) as [[Hxp Hsp]|?]; [|by right].
    rewrite node_parent in Hxp. destruct (Nat.even i) eqn:E.
    + destruct (decide ((x, s) = (node leaf d i, node leaf d (sibling i)))) as [[= -> ->]|Hne].
      * left. by rewrite <-Hsp.
      * right. by exists x, s, (node leaf d i), (node leaf d (sibling i)).
    + destruct (decide ((s, x) = (node leaf d (sibling i), node leaf d i))) as [[= -> ->]|Hne].
      * left. by rewrite <-Hsp.
      * right. by exists s, x, (node leaf d (sibling i)), (node leaf d i).
Qed.

(** The root determines every leaf below it, unless there is a collision. *)
Lemma node_binding `{!EqDecision A} leaf leaf' d i :
  (∀ i, P (leaf i)) → (∀ i, P (leaf' i)) → node leaf d i = node leaf' d i →
  (∀ j, i * 2 ^ d ≤ j < (i + 1) * 2 ^ d → leaf j = leaf' j) ∨ collision P.
Proof.
  intros Hl Hl'. pose proof (λ d i, node_P leaf d i Hl) as HN. pose proof (λ d i, node_P leaf' d i Hl') as HN'.
  revert i; induction d as [|d IH]; intros i; cbn [node].
  - intros He. left. intros j Hj. rewrite Nat.pow_0_r, !Nat.mul_1_r in Hj. by replace j with i by lia.
  - set (p := (node leaf d (2 * i), node leaf d (2 * i + 1))).
    set (q := (node leaf' d (2 * i), node leaf' d (2 * i + 1))). intros Hh.
    destruct (decide (p = q)) as [[= H1 H2]|Hne].
    + destruct (IH _ H1) as [Hlo|?]; [|by right]. destruct (IH _ H2) as [Hhi|?]; [|by right].
      left. intros j Hj. rewrite Nat.pow_succ_r' in Hj.
      destruct (decide (j < (2 * i + 1) * 2 ^ d)); [apply Hlo|apply Hhi]; nia.
    + right. exists p.1, p.2, q.1, q.2. cbn. auto.
Qed.

(** ** Empty subtrees *)

Variable z : A.

Fixpoint zero_node (d : nat) : A :=
  match d with O => z | S d => H (zero_node d) (zero_node d) end.

Lemma node_zero leaf d i : (∀ j, i * 2 ^ d ≤ j → leaf j = z) → node leaf d i = zero_node d.
Proof.
  revert i; induction d as [|d IH]; intros i Hl; cbn [node zero_node].
  - apply Hl. simpl. lia.
  - rewrite Nat.pow_succ_r' in Hl. f_equal; apply IH; intros j Hj; apply Hl; nia.
Qed.

(** The leaves of a list, empty beyond its end. *)
Definition list_leaf (l : list A) (i : nat) : A := default z (l !! i).

Lemma list_leaf_beyond l i : length l ≤ i → list_leaf l i = z.
Proof. intros. unfold list_leaf. by rewrite lookup_ge_None_2. Qed.

Lemma node_beyond l d i : length l ≤ i * 2 ^ d → node (list_leaf l) d i = zero_node d.
Proof. intros Hl. apply node_zero. intros j Hj. apply list_leaf_beyond. lia. Qed.

(** Appending a leaf changes only the nodes above it. *)
Lemma node_snoc l x d i :
  i ≠ length l / 2 ^ d → node (list_leaf (l ++ [x])) d i = node (list_leaf l) d i.
Proof.
  intros Hi. apply node_ext. intros j Hj. unfold list_leaf.
  destruct (decide (j < length l)); [by rewrite lookup_app_l|].
  destruct (decide (j = length l)) as [->|].
  - exfalso. apply Hi. apply (Nat.div_unique _ _ _ (length l - i * 2 ^ d)); nia.
  - rewrite !lookup_ge_None_2; [done|lia|rewrite length_app; simpl; lia].
Qed.
End merkle.

(** ** Paths with explicit direction bits *)

(** The low [n] bits of a position. *)
Fixpoint path_bits (idx n : nat) : list Z :=
  match n with O => [] | S n => Z.of_nat (idx mod 2) :: path_bits (idx / 2) n end.

(** [MerkleTreeChecker] of [circuits/valid_spend/circuit.circom]: a bit is
    boolean, and 1 puts the running hash on the right. *)
Fixpoint fold_bits {A} (H : A → A → A) (cur : A) (sibs : list A) (bits : list Z) : option A :=
  match sibs, bits with
  | [], [] => Some cur
  | s :: sibs, b :: bits =>
      if decide (b = 0%Z) then fold_bits H (H cur s) sibs bits
      else if decide (b = 1%Z) then fold_bits H (H s cur) sibs bits else None
  | _, _ => None
  end.

Lemma length_path_bits i n : length (path_bits i n) = n.
Proof. revert i; induction n; intros; cbn [path_bits length]; auto. Qed.

Lemma fold_bits_path {A} (H : A → A → A) cur i sibs :
  fold_bits H cur sibs (path_bits i (length sibs)) = Some (fold_path H cur i sibs).
Proof.
  revert cur i; induction sibs as [|s sibs IH]; intros cur i; cbn [length path_bits fold_bits fold_path]; [done|].
  pose proof (Nat.div_mod_eq i 2). destruct (Nat.even i) eqn:E.
  - apply Nat.even_spec in E as [k ->]. rewrite (Nat.mul_comm 2 k), Nat.Div0.mod_mul. apply IH.
  - rewrite <-Nat.negb_odd in E. apply negb_false_iff, Nat.odd_spec in E as [k ->].
    rewrite (Nat.add_comm (2 * k) 1), (Nat.mul_comm 2 k), Nat.Div0.mod_add. apply IH.
Qed.

(** ** Hashing a level, as the sources write it

    [for (let i = 0; i < level.length; i += 2) next.push(h(level[i], level[i + 1]))]:
    an odd last element would be hashed with [undefined]. *)

Definition TypeError (message : string) : exn := EError "TypeError" message.

Fixpoint hash_level {A} (h : A → A → res A) (level : list A) : res (list A) :=
  match level with
  | [] => Ok []
  | [_] => Throw (TypeError "level[i + 1] is undefined")
  | a :: b :: level => x ← h a b; next ← hash_level h level; Ok (x :: next)
  end.

(** The nodes of a height from position [s] on, [m] of them. *)
Definition nodes {A} (H : A → A → A) (leaf : nat → A) (d s m : nat) : list A :=
  node H leaf d <$> seq s m.

Lemma length_nodes {A} (H : A → A → A) leaf d s m : length (nodes H leaf d s m) = m.
Proof. unfold nodes. by rewrite length_fmap, length_seq. Qed.

Lemma nodes_lookup {A} (H : A → A → A) leaf d m i :
  i < m → nodes H leaf d 0 m !! i = Some (node H leaf d i).
Proof. intros. unfold nodes. rewrite list_lookup_fmap, lookup_seq_lt by done. done. Qed.

Lemma hash_level_nodes {A} (H : A → A → A) (h : A → A → res A) leaf d s m :
  (∀ i, s ≤ i < s + m → h (node H leaf d (2 * i)) (node H leaf d (2 * i + 1)) = Ok (node H leaf (S d) i)) →
  hash_level h (nodes H leaf d (2 * s) (2 * m)) = Ok (nodes H leaf (S d) s m).
Proof.
  revert s; induction m as [|m IH]; intros s Hh; [done|].
  replace (2 * S m) with (S (S (2 * m))) by lia. unfold nodes. cbn [seq fmap list_fmap hash_level].
  replace (S (2 * s)) with (2 * s + 1) by lia. rewrite Hh by lia. cbn [mbind res_bind].
  specialize (IH (S s)). unfold nodes in IH. replace (S (2 * s + 1)) with (2 * S s) by lia.
  rewrite IH; [done|]. intros i Hi. apply Hh. lia.
Qed.

(** A padded list as the nodes of height 0. *)
Lemma padded_nodes {A} (H : A → A → A) z (l : list A) n :
  length l ≤ n → l ++ replicate (n - length l) z = nodes H (list_leaf z l) 0 0 n.
Proof.
  intros Hn. apply list_eq. intros i. destruct (decide (i < n)) as [Hi|Hi].
  - rewrite nodes_lookup by done. cbn [node]. unfold list_leaf.
    destruct (decide (i < length l)) as [Hl|Hl].
    + rewrite lookup_app_l by done. by destruct (lookup_lt_is_Some_2 l i Hl) as [x ->].
    + rewrite lookup_app_r, lookup_replicate_2 by lia. by rewrite (lookup_ge_None_2 l i) by lia.
  - rewrite !lookup_ge_None_2; [done|rewrite length_nodes; lia|].
    rewrite length_app, length_replicate. lia.
Qed.
