(* ===== verification/InclusionTree.v ===== *)
(** The batch inclusion tree ([batch/inclusion-proof.ts]): root, authentication
    path and verification over SHA-256, and the on-chain root
    ([run_batch.rs], [merkle_root_sha256]). *)

From S2P Require Import Prelude Bytes Errors Externals Merkle.

Section inclusion.
Context `{NodeCrypto}.

Definition sha256Hash (a b : bytes) : bytes := sha256 (a ++ b).

(** [let target = 1; while (target < level.length) target *= 2] *)
Fixpoint target_loop (fuel target n : nat) : res nat :=
  match fuel with
  | O => Throw EFuel
  | S fuel => if decide (target < n) then target_loop fuel (target * 2) n else Ok target
  end.

(** [while (level.length < target) level.push(copyBytes(level[level.length - 1]))] *)
Fixpoint push_loop (fuel : nat) (level : list bytes) (target : nat) : res (list bytes) :=
  match fuel with
  | O => Throw EFuel
  | S fuel =>
      if decide (length level < target) then
        match last level with
        | Some l => push_loop fuel (level ++ [l]) target
        | None => Throw (TypeError "level[-1] is undefined")
        end
      else Ok level
  end.

(** The padding both functions start with. *)
Definition padded_level (leaves : list bytes) : res (list bytes) :=
  let level := leaves in
  target ← target_loop (S (length level)) 1 (length level);
  push_loop (S target) level target.

(** [while (level.length > 1) { ...; level = next; }] *)
Fixpoint reduce_loop (fuel : nat) (level : list bytes) : res (list bytes) :=
  match fuel with
  | O => Throw EFuel
  | S fuel =>
      if decide (1 < length level) then
        next ← hash_level (λ a b, Ok (sha256Hash a b)) level;
        reduce_loop fuel next
      else Ok level
  end.

Definition computeInclusionRoot (leaves : list bytes) : res bytes :=
  if decide (length leaves = 0) then Ok (replicate 32 x00)
  else
    level ← padded_level leaves;
    level ← reduce_loop (S (length level)) level;
    match level !! 0 with Some r => Ok r | None => Throw (TypeError "level[0] is undefined") end.

Record InclusionPath := { siblings : list bytes; pathIndices : list Z }.

Fixpoint path_loop (fuel : nat) (level : list bytes) (idx : nat) (sibs : list bytes) (idxs : list Z)
    : res InclusionPath :=
  match fuel with
  | O => Throw EFuel
  | S fuel =>
      if decide (1 < length level) then
        let sib := if Nat.even idx then level !! (idx + 1) else level !! (idx - 1) in
        match sib with
        | None => Throw (TypeError "sibling is undefined")
        | Some sib =>
            next ← hash_level (λ a b, Ok (sha256Hash a b)) level;
            path_loop fuel next (idx / 2) (sibs ++ [sib]) (idxs ++ [Z.of_nat (idx mod 2)])
        end
      else Ok {| siblings := sibs; pathIndices := idxs |}
  end.

Definition computeInclusionPath (leaves : list bytes) (index : Z) : res InclusionPath :=
  if bool_decide (length leaves = 0) || (index <? 0)%Z || (Z.of_nat (length leaves) <=? index)%Z
  then Throw (Error "index out of range for inclusion path")
  else
    level ← padded_level leaves;
    path_loop (S (length level)) level (Z.to_nat index) [] [].

(** [idx % 2 === 0] and [Math.floor(idx / 2)], for any integer. *)
Fixpoint verify_loop (cur : bytes) (idx : Z) (sibs : list bytes) : bytes :=
  match sibs with
  | [] => cur
  | sib :: sibs =>
      verify_loop (if Z.even idx then sha256Hash cur sib else sha256Hash sib cur) (idx / 2)%Z sibs
  end.

Definition equalBytes (a b : bytes) : bool := bool_decide (a = b).

Definition verifyInclusionPath (leaf : bytes) (index : Z) (sibs : list bytes) (root : bytes) : bool :=
  equalBytes (verify_loop leaf index sibs) root.

(** ** [merkle_root_sha256]: [chunks_exact(2)] drops an odd rest *)

Fixpoint chunk_hashes (level : list bytes) : list bytes :=
  match level with
  | a :: b :: level => sha256 (concat [a; b]) :: chunk_hashes level
  | _ => []
  end.

Fixpoint rust_reduce (fuel : nat) (level : list bytes) : list bytes :=
  match fuel with
  | O => level
  | S fuel => if decide (1 < length level) then rust_reduce fuel (chunk_hashes level) else level
  end.

(** Padding to the next power of two with the last leaf. *)
Definition rust_pad (leaves : list bytes) : list bytes :=
  leaves ++ replicate (2 ^ Nat.log2_up (length leaves) - length leaves) (default [] (last leaves)).

Definition merkle_root_sha256 (leaves : list bytes) : bytes :=
  if decide (leaves = []) then replicate 32 x00
  else default [] (head (rust_reduce (length (rust_pad leaves)) (rust_pad leaves))).

(** ** Specification *)

(** The leaves, continued with the last one. *)
Definition inclusion_leaf (leaves : list bytes) : nat → bytes :=
  list_leaf (default [] (last leaves)) leaves.

Definition inclusion_depth (leaves : list bytes) : nat := Nat.log2_up (length leaves).

Definition inclusion_root (leaves : list bytes) : bytes :=
  node sha256Hash (inclusion_leaf leaves) (inclusion_depth leaves) 0.
End inclusion.

(** ** Lemmas *)

Lemma target_loop_spec fuel j n :
  0 < n → j ≤ Nat.log2_up n → Nat.log2_up n - j < fuel →
  target_loop fuel (2 ^ j) n = Ok (2 ^ Nat.log2_up n).
Proof.
  intros Hn. revert j; induction fuel as [|fuel IH]; intros j Hj Hf; [lia|]. cbn [target_loop].
  pose proof (Nat.log2_up_le_pow2 n j Hn) as Hp. case_decide as Hlt.
  - rewrite Nat.mul_comm, <-Nat.pow_succ_r'. apply IH; lia.
  - replace j with (Nat.log2_up n) by lia. done.
Qed.

Lemma push_loop_spec fuel level target l :
  last level = Some l → target - length level < fuel →
  push_loop fuel level target = Ok (level ++ replicate (target - length level) l).
Proof.
  revert level; induction fuel as [|fuel IH]; intros level Hl Hf; [lia|]. cbn [push_loop].
  case_decide as Hlt.
  - rewrite Hl, IH by (rewrite ?last_snoc, ?length_app; simpl; (done || lia)).
    rewrite <-app_assoc, length_app. cbn [length app]. f_equal. f_equal.
    replace (target - length level) with (S (target - (length level + 1))) by lia. done.
  - replace (target - length level) with 0 by lia. by rewrite app_nil_r.
Qed.

Section inclusion_lemmas.
Context `{NodeCrypto}.
Implicit Types leaves : list bytes.

Lemma depth_ge leaves : length leaves ≠ 0 → length leaves ≤ 2 ^ inclusion_depth leaves.
Proof. intros. unfold inclusion_depth. apply Nat.log2_up_le_pow2; lia. Qed.

Lemma padded_level_spec leaves :
  length leaves ≠ 0 →
  padded_level leaves = Ok (nodes sha256Hash (inclusion_leaf leaves) 0 0 (2 ^ inclusion_depth leaves)).
Proof.
  intros Hn. unfold padded_level. change 1 with (2 ^ 0).
  rewrite target_loop_spec; [|lia|lia|].
  2:{ pose proof (Nat.log2_up_le_lin (length leaves)). lia. }
  cbn [mbind res_bind]. destruct (last leaves) as [l|] eqn:Hl; [|by apply last_None in Hl as ->].
  rewrite (push_loop_spec _ _ _ l) by (done || lia).
  rewrite (padded_nodes sha256Hash) by (by apply depth_ge).
  unfold inclusion_leaf, inclusion_depth. by rewrite Hl.
Qed.

Lemma sha_level leaf d m :
  hash_level (λ a b, Ok (sha256Hash a b)) (nodes sha256Hash leaf d 0 (2 ^ S m))
  = Ok (nodes sha256Hash leaf (S d) 0 (2 ^ m)).
Proof. rewrite Nat.pow_succ_r'. by apply (hash_level_nodes _ _ _ _ 0). Qed.

Lemma reduce_loop_spec leaf m d fuel :
  m < fuel → reduce_loop fuel (nodes sha256Hash leaf d 0 (2 ^ m)) = Ok [node sha256Hash leaf (d + m) 0].
Proof.
  revert d fuel; induction m as [|m IH]; intros d [|fuel] Hf; try lia; cbn [reduce_loop];
    rewrite length_nodes.
  - cbn. by rewrite Nat.add_0_r.
  - assert (0 < 2 ^ m) by (apply Nat.neq_0_lt_0, Nat.pow_nonzero; lia).
    rewrite decide_True by (rewrite Nat.pow_succ_r'; lia). rewrite sha_level. cbn [mbind res_bind].
    rewrite IH by lia. by rewrite Nat.add_succ_comm.
Qed.

Lemma computeInclusionRoot_spec leaves :
  computeInclusionRoot leaves =
  Ok (if decide (leaves = []) then replicate 32 x00 else inclusion_root leaves).
Proof.
  unfold computeInclusionRoot. destruct leaves as [|x xs] eqn:E; [done|]. rewrite <-E.
  assert (Hn : length leaves ≠ 0) by (by subst). rewrite decide_False, decide_False by (subst; done).
  rewrite padded_level_spec by done. cbn [mbind res_bind]. rewrite length_nodes, reduce_loop_spec.
  - done.
  - pose proof (Nat.pow_gt_lin_r 2 (inclusion_depth leaves)). lia.
Qed.

(** *** The on-chain root *)

Lemma chunk_hashes_nodes leaf d s m :
  chunk_hashes (nodes sha256Hash leaf d (2 * s) (2 * m)) = nodes sha256Hash leaf (S d) s m.
Proof.
  revert s; induction m as [|m IH]; intros s; [done|].
  replace (2 * S m) with (S (S (2 * m))) by lia. unfold nodes in *. cbn [seq fmap list_fmap chunk_hashes].
  replace (S (S (2 * s))) with (2 * S s) by lia. rewrite IH. f_equal.
  cbn [node concat]. unfold sha256Hash. rewrite app_nil_r. by replace (S (2 * s)) with (2 * s + 1) by lia.
Qed.

Lemma rust_reduce_spec leaf m d fuel :
  m < fuel → rust_reduce fuel (nodes sha256Hash leaf d 0 (2 ^ m)) = [node sha256Hash leaf (d + m) 0].
Proof.
  revert d fuel; induction m as [|m IH]; intros d [|fuel] Hf; try lia; cbn [rust_reduce];
    rewrite length_nodes.
  - cbn. by rewrite Nat.add_0_r.
  - assert (0 < 2 ^ m) by (apply Nat.neq_0_lt_0, Nat.pow_nonzero; lia).
    rewrite decide_True by (rewrite Nat.pow_succ_r'; lia). rewrite Nat.pow_succ_r'.
    rewrite (chunk_hashes_nodes leaf d 0), IH by lia. by rewrite Nat.add_succ_comm.
Qed.

Lemma merkle_root_sha256_spec leaves :
  merkle_root_sha256 leaves = if decide (leaves = []) then replicate 32 x00 else inclusion_root leaves.
Proof.
  unfold merkle_root_sha256. case_decide as Hl; [done|].
  assert (Hn : length leaves ≠ 0) by (by destruct leaves).
  assert (Hp : rust_pad leaves = nodes sha256Hash (inclusion_leaf leaves) 0 0 (2 ^ inclusion_depth leaves)).
  { unfold rust_pad, inclusion_leaf, inclusion_depth. apply padded_nodes, (depth_ge leaves Hn). }
  rewrite Hp, length_nodes, rust_reduce_spec; [done|].
  apply Nat.pow_gt_lin_r. lia.
Qed.

(** *** Paths *)

Lemma path_loop_spec leaf m d fuel idx sibs idxs :
  m < fuel → idx < 2 ^ m →
  path_loop fuel (nodes sha256Hash leaf d 0 (2 ^ m)) idx sibs idxs =
  Ok {| siblings := sibs ++ path_from sha256Hash leaf d idx m;
        pathIndices := idxs ++ path_bits idx m |}.
Proof.
  revert d fuel idx sibs idxs; induction m as [|m IH]; intros d [|fuel] idx sibs idxs Hf Hi; try lia;
    cbn [path_loop]; rewrite length_nodes.
  - cbn. by rewrite !app_nil_r.
  - assert (0 < 2 ^ m) by (apply Nat.neq_0_lt_0, Nat.pow_nonzero; lia).
    rewrite Nat.pow_succ_r' in Hi. rewrite decide_True by (rewrite Nat.pow_succ_r'; lia).
    assert (Hsib : (if Nat.even idx then nodes sha256Hash leaf d 0 (2 ^ S m) !! (idx + 1)
                    else nodes sha256Hash leaf d 0 (2 ^ S m) !! (idx - 1))
                   = Some (node sha256Hash leaf d (sibling idx))).
    { unfold sibling. rewrite Nat.pow_succ_r'. destruct (Nat.even idx) eqn:E.
      - rewrite nodes_lookup; [done|]. apply Nat.even_spec in E as [k ->]. lia.
      - rewrite nodes_lookup; [done|lia]. }
    rewrite Hsib, sha_level. cbn [mbind res_bind]. rewrite IH by (try lia; apply Nat.Div0.div_lt_upper_bound; lia).
    cbn [path_from path_bits]. by rewrite <-!app_assoc.
Qed.

Lemma computeInclusionPath_spec leaves (index : Z) :
  (0 ≤ index < Z.of_nat (length leaves))%Z →
  computeInclusionPath leaves index = Ok
    {| siblings := path_from sha256Hash (inclusion_leaf leaves) 0 (Z.to_nat index) (inclusion_depth leaves);
       pathIndices := path_bits (Z.to_nat index) (inclusion_depth leaves) |}.
Proof.
  intros Hi. unfold computeInclusionPath. assert (Hn : length leaves ≠ 0) by lia.
  rewrite bool_decide_false, (proj2 (Z.ltb_ge _ _)), (proj2 (Z.leb_gt _ _)) by lia. cbn [orb].
  rewrite padded_level_spec by done. cbn [mbind res_bind]. rewrite length_nodes.
  pose proof (depth_ge leaves Hn). rewrite path_loop_spec; [done| |lia].
  pose proof (Nat.pow_gt_lin_r 2 (inclusion_depth leaves)). lia.
Qed.

(** The verifier only looks at the low bits of the index. *)
Lemma verify_loop_fold cur idx sibs :
  verify_loop cur idx sibs = fold_path sha256Hash cur (Z.to_nat (idx mod 2 ^ Z.of_nat (length sibs))) sibs.
Proof.
  revert cur idx; induction sibs as [|s sibs IH]; intros cur idx; cbn [verify_loop fold_path length]; [done|].
  assert (Hpos : (0 < 2 ^ Z.of_nat (length sibs))%Z) by (apply Z.pow_pos_nonneg; lia).
  rewrite Nat2Z.inj_succ, Z.pow_succ_r by lia.
  assert (Hm : (idx mod (2 * 2 ^ Z.of_nat (length sibs)) = idx mod 2 + 2 * ((idx / 2) mod 2 ^ Z.of_nat (length sibs)))%Z)
    by (apply Z.rem_mul_r; lia).
  pose proof (Z.mod_pos_bound idx 2 ltac:(lia)). pose proof (Z.mod_pos_bound (idx / 2) _ Hpos).
  rewrite IH, Hm, Z2Nat.inj_add, Z2Nat.inj_mul by lia. change (Z.to_nat 2) with 2.
  set (q := Z.to_nat ((idx / 2) mod 2 ^ Z.of_nat (length sibs))).
  assert (He : Nat.even (Z.to_nat (idx mod 2) + 2 * q) = Z.even idx).
  { rewrite Nat.even_add_mul_2, (Zeven_mod idx). destruct (Z.mod_pos_bound idx 2 ltac:(lia)).
    assert ((idx mod 2 = 0 ∨ idx mod 2 = 1)%Z) as [-> | ->] by lia; done. }
  rewrite He. f_equal. rewrite (Nat.mul_comm 2 q), Nat.div_add by lia.
  rewrite Nat.div_small; [done|]. lia.
Qed.
End inclusion_lemmas.

(** Two different 64-byte messages with the same SHA-256. *)
Definition sha256_collision `{NodeCrypto} : Prop :=
  ∃ m1 m2, length m1 = 64 ∧ length m2 = 64 ∧ m1 ≠ m2 ∧ sha256 m1 = sha256 m2.

Lemma collision_sha256 `{NodeCrypto} : collision sha256Hash (λ b, length b = 32) → sha256_collision.
Proof.
  intros (a & b & c & d & (Ha & Hb & Hc & Hd) & Hne & Heq). exists (a ++ b), (c ++ d).
  rewrite !length_app. repeat split; [lia|lia| |done].
  intros E. apply Hne. apply app_inj_length in E as [-> ->]; [done|lia].
Qed.

Lemma inclusion_leaf_32 leaves i :
  leaves ≠ [] → Forall (λ b, length b = 32) leaves → length (inclusion_leaf leaves i) = 32.
Proof.
  intros Hne Hf. rewrite Forall_lookup in Hf. unfold inclusion_leaf, list_leaf.
  destruct (leaves !! i) as [x|] eqn:E; [by eapply Hf|].
  destruct (last leaves) as [x|] eqn:El; [|by apply last_None in El].
  rewrite last_lookup in El. by eapply Hf.
Qed.

Lemma inclusion_leaf_in leaves i x : leaves !! i = Some x → inclusion_leaf leaves i = x.
Proof. intros Hi. unfold inclusion_leaf, list_leaf. by rewrite Hi. Qed.

Lemma inclusion_path_verifies `{NodeCrypto} (leaves : list bytes) (index : Z) leaf :
  leaves !! Z.to_nat index = Some leaf → (0 ≤ index)%Z →
  ∃ p, computeInclusionPath leaves index = Ok p ∧ length p.(siblings) = Nat.log2_up (length leaves) ∧
    p.(pathIndices) = path_bits (Z.to_nat index) (Nat.log2_up (length leaves)) ∧
    verifyInclusionPath leaf index p.(siblings) (inclusion_root leaves) = true.
Proof.
  intros Hleaf Hpos. pose proof (lookup_lt_Some _ _ _ Hleaf) as Hlt. assert (Hn : length leaves ≠ 0) by lia.
  rewrite computeInclusionPath_spec by lia. eexists. split; [reflexivity|]. cbn [siblings pathIndices].
  rewrite length_path_from. split; [done|]. split; [done|]. unfold verifyInclusionPath, equalBytes.
  rewrite bool_decide_eq_true, verify_loop_fold, length_path_from.
  pose proof (depth_ge leaves Hn) as Hd.
  assert (Hz : Z.of_nat (2 ^ inclusion_depth leaves) = (2 ^ Z.of_nat (inclusion_depth leaves))%Z)
    by (rewrite Nat2Z.inj_pow; done).
  rewrite Z.mod_small by lia. rewrite <-(inclusion_leaf_in _ _ _ Hleaf).
  change (inclusion_leaf leaves (Z.to_nat index)) with (node sha256Hash (inclusion_leaf leaves) 0 (Z.to_nat index)).
  rewrite fold_path_node. unfold inclusion_root. by rewrite Nat.div_small by lia.
Qed.

Lemma path_siblings_32 `{NodeCrypto} `{!NodeCryptoLaws} leaf d i n :
  (∀ j, length (leaf j) = 32) → Forall (λ b, length b = 32) (path_from sha256Hash leaf d i n).
Proof.
  intros Hl. apply Forall_lookup. intros k s Hk. pose proof (lookup_lt_Some _ _ _ Hk) as Hlt.
  rewrite length_path_from in Hlt. rewrite path_from_lookup in Hk by done. injection Hk as <-.
  apply (node_P _ (λ b, length b = 32)); [|done]. intros. apply length_sha256.
Qed.

Definition sample_leaves : list bytes := [replicate 32 x01; replicate 32 x02; replicate 32 x03].

(** ** Properties *)

(** The client computes the inclusion root the matching engine publishes:
    [computeInclusionRoot] always returns, and returns [merkle_root_sha256] of
    the same leaves, which is the root of the binary SHA-256 tree over the
    leaves continued with the last one to a power of two (zero when empty). *)
Theorem computeInclusionRoot_matches_chain `{NodeCrypto} (leaves : list bytes) :
  computeInclusionRoot leaves = Ok (merkle_root_sha256 leaves) ∧
  merkle_root_sha256 leaves = if decide (leaves = []) then replicate 32 x00 else inclusion_root leaves.
Proof. split; [|apply merkle_root_sha256_spec]. by rewrite computeInclusionRoot_spec, merkle_root_sha256_spec. Qed.

(** Inclusion proofs are complete: for every index of a leaf the path
    exists, has one sibling per level, and verifies against the computed root;
    for any other index the call throws. *)
Theorem computeInclusionPath_verifies `{NodeCrypto} (leaves : list bytes) (index : Z) :
  ((0 ≤ index < Z.of_nat (length leaves))%Z ∧
   ∃ p leaf root, computeInclusionPath leaves index = Ok p ∧ leaves !! Z.to_nat index = Some leaf ∧
     computeInclusionRoot leaves = Ok root ∧ length p.(siblings) = Nat.log2_up (length leaves) ∧
     p.(pathIndices) = path_bits (Z.to_nat index) (Nat.log2_up (length leaves)) ∧
     verifyInclusionPath leaf index p.(siblings) root = true)
  ∨ (¬ (0 ≤ index < Z.of_nat (length leaves))%Z ∧
     computeInclusionPath leaves index = Throw (Error "index out of range for inclusion path")).
Proof.
  destruct (decide (0 ≤ index < Z.of_nat (length leaves))%Z) as [Hi|Hi]; [left|right]; (split; [done|]).
  - destruct (lookup_lt_is_Some_2 leaves (Z.to_nat index) ltac:(lia)) as [leaf Hleaf].
    destruct (inclusion_path_verifies leaves index leaf Hleaf ltac:(lia)) as (p & Hp & Hlen & Hbits & Hv).
    exists p, leaf, (inclusion_root leaves). repeat split; [done|done| |done|done|done].
    rewrite computeInclusionRoot_spec, decide_False; [done|]. by intros ->.
  - unfold computeInclusionPath. destruct (bool_decide (length leaves = 0)) eqn:E; [done|].
    apply bool_decide_eq_false in E. destruct (Z.ltb_spec index 0); [done|].
    destruct (Z.leb_spec (Z.of_nat (length leaves)) index); [done|lia].
Qed.

(** Inclusion proofs are sound: if a 32-byte leaf verifies with as many
    32-byte siblings as the tree has levels against the root of a batch, it is
    the leaf of that batch at the index (taken modulo the padded size), or a
    SHA-256 collision on 64-byte messages is exhibited. *)
Theorem verifyInclusionPath_sound `{NodeCrypto} `{!NodeCryptoLaws} (leaves : list bytes) leaf index sibs root :
  leaves ≠ [] → Forall (λ b, length b = 32) leaves → length leaf = 32 →
  Forall (λ b, length b = 32) sibs → length sibs = Nat.log2_up (length leaves) →
  computeInclusionRoot leaves = Ok root → verifyInclusionPath leaf index sibs root = true →
  leaf = inclusion_leaf leaves (Z.to_nat (index mod 2 ^ Z.of_nat (length sibs))) ∨ sha256_collision.
Proof.
  intros Hne Hl Hleaf Hs Hlen Hroot Hv. rewrite computeInclusionRoot_spec, decide_False in Hroot by done.
  apply Ok_inj in Hroot as <-. unfold verifyInclusionPath, equalBytes in Hv.
  apply bool_decide_eq_true in Hv. rewrite verify_loop_fold in Hv.
  assert (Hp : (0 < 2 ^ Z.of_nat (length sibs))%Z) by (apply Z.pow_pos_nonneg; lia).
  pose proof (Z.mod_pos_bound index _ Hp) as Hm. set (i := Z.to_nat (index mod 2 ^ Z.of_nat (length sibs))) in *.
  assert (Hi : i < 2 ^ length sibs).
  { apply Nat2Z.inj_lt. rewrite Nat2Z.inj_pow. subst i. rewrite Z2Nat.id by lia. apply Hm. }
  destruct (fold_path_sound sha256Hash (λ b, length b = 32) (λ a b, length_sha256 _)
    (inclusion_leaf leaves) sibs 0 i leaf) as [[-> _]|Hc].
  - intros j. by apply inclusion_leaf_32.
  - done.
  - done.
  - rewrite Nat.div_small by done. rewrite Hv. unfold inclusion_root, inclusion_depth. by rewrite Hlen.
  - by left.
  - right. by apply collision_sha256.
Qed.

Lemma verifyInclusionPath_sound_witness :
  ∃ p root, @computeInclusionPath Toy.toy_crypto sample_leaves 1 = Ok p ∧
    @computeInclusionRoot Toy.toy_crypto sample_leaves = Ok root ∧
    (replicate 32 x02 = inclusion_leaf sample_leaves
       (Z.to_nat (1 mod 2 ^ Z.of_nat (length p.(siblings)))) ∨ @sha256_collision Toy.toy_crypto).
Proof.
  destruct (@inclusion_path_verifies Toy.toy_crypto sample_leaves 1 (replicate 32 x02) eq_refl ltac:(lia))
    as (p & Hp & Hlen & _ & Hv).
  pose proof (@computeInclusionRoot_spec Toy.toy_crypto sample_leaves) as Hr.
  exists p. eexists. split; [exact Hp|]. split; [exact Hr|].
  assert (Hs : Forall (λ b, length b = 32) p.(siblings)).
  { rewrite (@computeInclusionPath_spec Toy.toy_crypto) in Hp by (cbn; lia). apply Ok_inj in Hp as <-.
    apply (@path_siblings_32 Toy.toy_crypto Toy.toy_crypto_laws).
    intros j. apply inclusion_leaf_32; [done|repeat constructor]. }
  exact (@verifyInclusionPath_sound Toy.toy_crypto Toy.toy_crypto_laws sample_leaves (replicate 32 x02) 1
    p.(siblings) _ ltac:(done) ltac:(repeat constructor) eq_refl Hs Hlen Hr Hv).
Defined.
