(* ===== verification/MerkleShadow.v ===== *)
(** The shadow of the vault's Poseidon tree
    ([apps/demo/src/lib/dapp/merkle-shadow.ts]): empty-subtree roots, root and
    witness. *)

From S2P Require Import Prelude Bytes Errors Externals Keys Note Merkle.

Definition TREE_DEPTH : nat := 20.

Record MerkleWitness := { root : bytes; mw_siblings : list bytes; indices : list Z }.

Record MerkleShadow := { leafCount : nat; leaves : list bytes; zeroSubtreeRoots : list bytes }.

(** [BigInt("0x" + hex)]: the empty string is a syntax error. *)
Definition bytesToBigInt (x : bytes) : res Z :=
  if decide (x = []) then Throw (EError "SyntaxError" "Cannot convert 0x to a BigInt")
  else Ok (be_val x).

(** [arr[i]], where the sources go on to use the element. *)
Definition elem {A} (l : list A) (i : nat) : res A :=
  match l !! i with Some x => Ok x | None => Throw (TypeError "undefined array element") end.

Section shadow.
Context `{Poseidon}.

Definition poseidon2 (a b : bytes) : res bytes :=
  x ← bytesToBigInt a; y ← bytesToBigInt b; poseidonHashBytesBE [x; y].

(** [for (let i = 0; i < TREE_DEPTH; i++) { z.push(cur); cur = poseidon2(cur, cur); }] *)
Fixpoint initZero_loop (n : nat) (cur : bytes) (zs : list bytes) : res (list bytes) :=
  match n with
  | O => Ok zs
  | S n => nxt ← poseidon2 cur cur; initZero_loop n nxt (zs ++ [cur])
  end.

Definition create : res MerkleShadow :=
  z ← initZero_loop TREE_DEPTH (replicate 32 x00) [];
  Ok {| leafCount := 0; leaves := []; zeroSubtreeRoots := z |}.

(** One level of [computeRoot]: a missing right child is the empty subtree. *)
Fixpoint hash_level_zero (zero : res bytes) (level : list bytes) : res (list bytes) :=
  match level with
  | [] => Ok []
  | [l] => z ← zero; x ← poseidon2 l z; Ok [x]
  | l :: r :: level => x ← poseidon2 l r; next ← hash_level_zero zero level; Ok (x :: next)
  end.

(** [for (let e = d; e < TREE_DEPTH; e++) z = poseidon2(z, z)] *)
Fixpoint zero_loop (n : nat) (z : bytes) : res bytes :=
  match n with O => Ok z | S n => z ← poseidon2 z z; zero_loop n z end.

(** The loop over [d], with [n] levels left. *)
Fixpoint root_loop (zeros : list bytes) (n d : nat) (level : list bytes) : res bytes :=
  match n with
  | O => elem level 0
  | S n' =>
      next ← hash_level_zero (elem zeros d) level;
      if decide (length next = 0) then z ← elem zeros d; zero_loop n z
      else root_loop zeros n' (S d) next
  end.

Definition computeRoot (t : MerkleShadow) : res bytes :=
  root_loop t.(zeroSubtreeRoots) TREE_DEPTH 0 t.(leaves).

(** [append] changes the object before it computes the root. *)
Definition append (leaf : bytes) : M MerkleShadow bytes := λ t,
  let t := {| leafCount := t.(leafCount) + 1; leaves := t.(leaves) ++ [leaf];
              zeroSubtreeRoots := t.(zeroSubtreeRoots) |} in
  (computeRoot t, t).

(** [let small = 1, smallDepth = 0; while (small < n) { small <<= 1; smallDepth += 1; }]
    (an array has fewer than 2^30 elements here, so [<<=] does not overflow). *)
Fixpoint small_loop (fuel small smallDepth n : nat) : res nat :=
  match fuel with
  | O => Throw EFuel
  | S fuel => if decide (small < n) then small_loop fuel (2 * small) (smallDepth + 1) n else Ok smallDepth
  end.

(** The loop over the levels below [smallDepth]. *)
Fixpoint witness_low (n : nat) (level : list bytes) (idx : nat) (sibs : list bytes) (idxs : list Z)
    : res (list bytes * list Z * list bytes) :=
  match n with
  | O => Ok (sibs, idxs, level)
  | S n =>
      let siblingIdx := Nat.lxor idx 1 in
      sib ← elem level siblingIdx;
      next ← hash_level poseidon2 level;
      witness_low n next (Nat.shiftr idx 1) (sibs ++ [sib]) (idxs ++ [Z.of_nat (Nat.land idx 1)])
  end.

(** The loop from [smallDepth] up. *)
Fixpoint witness_high (zeros : list bytes) (n d : nat) (current : bytes) (sibs : list bytes) (idxs : list Z)
    : res MerkleWitness :=
  match n with
  | O => Ok {| root := current; mw_siblings := sibs; indices := idxs |}
  | S n =>
      z ← elem zeros d;
      current ← poseidon2 current z;
      witness_high zeros n (S d) current (sibs ++ [z]) (idxs ++ [0%Z])
  end.

Definition witness (t : MerkleShadow) (targetIndex : Z) : res MerkleWitness :=
  if (targetIndex <? 0)%Z || (Z.of_nat (length t.(leaves)) <=? targetIndex)%Z
  then Throw (Error ("leaf " +:+ pretty targetIndex +:+ " out of range (have "
                     +:+ pretty (length t.(leaves)) +:+ ")"))
  else
    let n := length t.(leaves) in
    smallDepth ← small_loop (S n) 1 0 n;
    let smallDepth := if decide (smallDepth = 0) then 1 else smallDepth in
    let padded := 2 ^ smallDepth in
    let level := t.(leaves) ++ replicate (padded - n) (replicate 32 x00) in
    low ← witness_low smallDepth level (Z.to_nat targetIndex) [] [];
    let '(sibs, idxs, level) := low in
    current ← elem level 0;
    witness_high t.(zeroSubtreeRoots) (TREE_DEPTH - smallDepth) smallDepth current sibs idxs.
End shadow.

(** ** Specification: the depth-20 tree over the leaves, empty beyond them *)

Section spec.
Context `{Poseidon}.

Definition zero32 : bytes := replicate 32 x00.

(** Poseidon2 of two field elements, as 32 big-endian bytes. *)
Definition hash2 (a b : bytes) : bytes := be_bytes 32 (poseidon [be_val a; be_val b]).

Definition vault_node (l : list bytes) (d i : nat) : bytes := node hash2 (list_leaf zero32 l) d i.
(** Never computed: the specification tree has 2^20 leaves. *)
Definition vault_root (l : list bytes) : bytes := vault_node l TREE_DEPTH 0.
Definition vault_path (l : list bytes) (i : nat) : list bytes :=
  path_from hash2 (list_leaf zero32 l) 0 i TREE_DEPTH.
Definition zero_roots : list bytes := zero_node hash2 zero32 <$> seq 0 TREE_DEPTH.

(** A shadow in sync with its leaf list. *)
Definition shadow_of (l : list bytes) : MerkleShadow :=
  {| leafCount := length l; leaves := l; zeroSubtreeRoots := zero_roots |}.
End spec.

(** ** Lemmas *)

Lemma lxor_1_sibling i : Nat.lxor i 1 = sibling i.
Proof.
  unfold sibling. pose proof (Nat.div_mod_eq i 2). destruct (Nat.even i) eqn:E.
  - apply Nat.even_spec in E as [k ->]. replace (2 * k + 1) with (Nat.lxor (2 * k) 1); [done|].
    apply Nat.bits_inj. intros n. rewrite Nat.lxor_spec. destruct n as [|n].
    + by rewrite Nat.testbit_even_0, Nat.testbit_odd_0.
    + rewrite Nat.testbit_even_succ', Nat.testbit_odd_succ'. change 1 with (2 * 0 + 1).
      by rewrite Nat.testbit_odd_succ', Nat.bits_0, xorb_false_r.
  - rewrite <-Nat.negb_odd in E. apply negb_false_iff, Nat.odd_spec in E as [k ->].
    replace (2 * k + 1 - 1) with (2 * k) by lia. apply Nat.bits_inj. intros n. rewrite Nat.lxor_spec.
    destruct n as [|n].
    + by rewrite Nat.testbit_even_0, Nat.testbit_odd_0.
    + rewrite Nat.testbit_even_succ', Nat.testbit_odd_succ'. change 1 with (2 * 0 + 1).
      by rewrite Nat.testbit_odd_succ', Nat.bits_0, xorb_false_r.
Qed.

Lemma path_from_app {A} (H : A → A → A) leaf d i m n :
  path_from H leaf d i (m + n) = path_from H leaf d i m ++ path_from H leaf (d + m) (i / 2 ^ m) n.
Proof.
  revert d i; induction m as [|m IH]; intros d i; cbn [Nat.add path_from app].
  - by rewrite Nat.add_0_r, Nat.pow_0_r, Nat.div_1_r.
  - by rewrite IH, Nat.pow_succ_r', Nat.Div0.div_div, Nat.add_succ_comm.
Qed.

Lemma path_bits_app i m n : path_bits i (m + n) = path_bits i m ++ path_bits (i / 2 ^ m) n.
Proof.
  revert i; induction m as [|m IH]; intros i; cbn [Nat.add path_bits app].
  - by rewrite Nat.pow_0_r, Nat.div_1_r.
  - by rewrite IH, Nat.pow_succ_r', Nat.Div0.div_div.
Qed.

Section shadow_lemmas.
Context `{Poseidon} `{!PoseidonLaws}.

Lemma length_hash2 a b : length (hash2 a b) = 32.
Proof. apply length_be_bytes. Qed.

Lemma poseidon2_Ok a b : a ≠ [] → b ≠ [] → poseidon2 a b = Ok (hash2 a b).
Proof.
  intros Ha Hb. unfold poseidon2, bytesToBigInt. rewrite !decide_False by done.
  cbn [mbind res_bind]. apply poseidonHashBytesBE_spec.
Qed.

Lemma hash2_ne a b : hash2 a b ≠ [].
Proof. intros E. pose proof (length_hash2 a b) as Hl. by rewrite E in Hl. Qed.

Lemma zero_node_ne d : zero_node hash2 zero32 d ≠ [].
Proof. destruct d; [done|apply hash2_ne]. Qed.

Lemma node_ne leaf d i : (∀ i, leaf i ≠ []) → node hash2 leaf d i ≠ [].
Proof. apply (node_P hash2 (λ b, b ≠ [])). apply hash2_ne. Qed.

Lemma list_leaf_ne (l : list bytes) i : Forall (λ b, b ≠ []) l → list_leaf zero32 l i ≠ [].
Proof.
  intros Hl. rewrite Forall_lookup in Hl. unfold list_leaf. destruct (l !! i) eqn:E; [|done].
  by eapply Hl.
Qed.

(** *** Empty-subtree roots *)

Lemma initZero_loop_spec n d zs :
  initZero_loop n (zero_node hash2 zero32 d) zs = Ok (zs ++ (zero_node hash2 zero32 <$> seq d n)).
Proof.
  revert d zs; induction n as [|n IH]; intros d zs; cbn [initZero_loop seq fmap list_fmap].
  - by rewrite app_nil_r.
  - rewrite poseidon2_Ok by apply zero_node_ne. cbn [mbind res_bind].
    change (hash2 _ _) with (zero_node hash2 zero32 (S d)). by rewrite IH, <-app_assoc.
Qed.

Lemma create_spec : create = Ok (shadow_of []).
Proof. unfold create. change (replicate 32 x00) with (zero_node hash2 zero32 0). by rewrite initZero_loop_spec. Qed.

Lemma zero_roots_lookup d : d < TREE_DEPTH → elem zero_roots d = Ok (zero_node hash2 zero32 d).
Proof.
  intros Hd. unfold elem, zero_roots. by rewrite list_lookup_fmap, lookup_seq_lt by done.
Qed.

Lemma zero_loop_spec n d : zero_loop n (zero_node hash2 zero32 d) = Ok (zero_node hash2 zero32 (d + n)).
Proof.
  revert d; induction n as [|n IH]; intros d; cbn [zero_loop]; [by rewrite Nat.add_0_r|].
  rewrite poseidon2_Ok by apply zero_node_ne. cbn [mbind res_bind].
  change (hash2 _ _) with (zero_node hash2 zero32 (S d)). by rewrite IH, Nat.add_succ_comm.
Qed.

(** *** [computeRoot] *)

Lemma hash_level_zero_nodes leaf d s k :
  (∀ i, leaf i ≠ []) → node hash2 leaf d (2 * s + k) = zero_node hash2 zero32 d →
  hash_level_zero (Ok (zero_node hash2 zero32 d)) (nodes hash2 leaf d (2 * s) k)
  = Ok (nodes hash2 leaf (S d) s ((k + 1) / 2)).
Proof.
  intros Hl. pose proof (λ i, node_ne leaf d i Hl) as Hn.
  revert s; induction k as [k IH] using lt_wf_ind; intros s Hz. destruct k as [|[|k]]; [done| |].
  - unfold nodes. cbn [seq fmap list_fmap hash_level_zero mbind res_bind].
    rewrite poseidon2_Ok by (done || apply zero_node_ne). by rewrite <-Hz.
  - replace ((S (S k) + 1) / 2) with (S ((k + 1) / 2)) 
      by (replace (S (S k) + 1) with (1 * 2 + (k + 1)) by lia; by rewrite Nat.div_add_l by lia).
    unfold nodes. cbn [seq fmap list_fmap hash_level_zero].
    rewrite poseidon2_Ok by done. cbn [mbind res_bind].
    specialize (IH k ltac:(lia) (S s)). unfold nodes in IH. replace (S (S (2 * s))) with (2 * S s) by lia.
    rewrite IH by (rewrite <-Hz; f_equal; lia). cbn [mbind res_bind node].
    by replace (S (2 * s)) with (2 * s + 1) by lia.
Qed.

Lemma root_loop_spec (l : list bytes) n d k :
  Forall (λ b, b ≠ []) l → d + n = TREE_DEPTH → length l ≤ k * 2 ^ d → 0 < k →
  root_loop zero_roots n d (nodes hash2 (list_leaf zero32 l) d 0 k) = Ok (vault_root l).
Proof.
  intros Hl. revert d k; induction n as [|n IH]; intros d k Hd Hk Hpos; cbn [root_loop].
  - unfold elem. rewrite nodes_lookup by done. unfold vault_root, vault_node.
    by replace TREE_DEPTH with d by lia.
  - rewrite zero_roots_lookup by lia.
    change (nodes hash2 (list_leaf zero32 l) d 0 k) with (nodes hash2 (list_leaf zero32 l) d (2 * 0) k).
    rewrite hash_level_zero_nodes by first [intros; by apply list_leaf_ne | by apply node_beyond].
    cbn [mbind res_bind]. rewrite length_nodes.
    pose proof (Nat.div_mod_eq (k + 1) 2). pose proof (Nat.mod_upper_bound (k + 1) 2).
    rewrite decide_False by lia. apply IH; [lia| |lia].
    rewrite Nat.pow_succ_r'. assert (k ≤ 2 * ((k + 1) / 2)) by lia. nia.
Qed.

Lemma nodes_0 (l : list bytes) : nodes hash2 (list_leaf zero32 l) 0 0 (length l) = l.
Proof.
  rewrite <-(padded_nodes hash2 zero32 l (length l)) by done.
  by rewrite Nat.sub_diag, app_nil_r.
Qed.

Lemma computeRoot_spec l : Forall (λ b, b ≠ []) l → computeRoot (shadow_of l) = Ok (vault_root l).
Proof.
  intros Hl. unfold computeRoot, shadow_of. cbn [zeroSubtreeRoots leaves].
  destruct (decide (l = [])) as [->|Hne].
  - cbn [TREE_DEPTH root_loop hash_level_zero mbind res_bind]. rewrite decide_True by done.
    rewrite zero_roots_lookup by (unfold TREE_DEPTH; lia). cbn [mbind res_bind].
    rewrite zero_loop_spec. unfold vault_root, vault_node. by rewrite node_beyond by (simpl; lia).
  - pose proof (root_loop_spec l TREE_DEPTH 0 (length l)) as Hr. rewrite nodes_0 in Hr.
    apply Hr; [done|done|simpl; lia|]. destruct l; simpl; [done|lia].
Qed.

(** *** [witness] *)

Lemma small_loop_spec fuel j n :
  0 < n → j ≤ Nat.log2_up n → Nat.log2_up n - j < fuel →
  small_loop fuel (2 ^ j) j n = Ok (Nat.log2_up n).
Proof.
  intros Hn. revert j; induction fuel as [|fuel IH]; intros j Hj Hf; [lia|]. cbn [small_loop].
  pose proof (Nat.log2_up_le_pow2 n j Hn) as Hp. case_decide as Hlt.
  - rewrite <-Nat.pow_succ_r', Nat.add_1_r. apply IH; lia.
  - f_equal. lia.
Qed.

Lemma witness_low_spec leaf n d idx sibs idxs :
  (∀ i, leaf i ≠ []) → idx < 2 ^ n →
  witness_low n (nodes hash2 leaf d 0 (2 ^ n)) idx sibs idxs =
  Ok (sibs ++ path_from hash2 leaf d idx n, idxs ++ path_bits idx n, [node hash2 leaf (d + n) 0]).
Proof.
  intros Hl. revert d idx sibs idxs; induction n as [|n IH]; intros d idx sibs idxs Hi; cbn [witness_low].
  - cbn. by rewrite !app_nil_r, Nat.add_0_r.
  - assert (0 < 2 ^ n) by (apply Nat.neq_0_lt_0, Nat.pow_nonzero; lia).
    rewrite Nat.pow_succ_r' in *. rewrite lxor_1_sibling.
    assert (Hsib : sibling idx < 2 * 2 ^ n).
    { unfold sibling. destruct (Nat.even idx) eqn:E; [|lia]. apply Nat.even_spec in E as [k ->]. lia. }
    unfold elem. rewrite nodes_lookup by done. cbn [mbind res_bind].
    change (nodes hash2 leaf d 0 (2 * 2 ^ n)) with (nodes hash2 leaf d (2 * 0) (2 * 2 ^ n)).
    rewrite (hash_level_nodes hash2).
    2:{ intros. by rewrite poseidon2_Ok by (by apply node_ne). }
    cbn [mbind res_bind]. rewrite <-Nat.div2_spec, Nat.div2_div.
    rewrite IH by (apply Nat.Div0.div_lt_upper_bound; lia).
    change 1 with (Nat.ones 1) at 2. rewrite Nat.land_ones. change (2 ^ 1) with 2.
    cbn [path_from path_bits]. by rewrite <-!app_assoc, Nat.add_succ_comm.
Qed.

Lemma witness_high_spec l n d sibs idxs :
  Forall (λ b, b ≠ []) l → d + n = TREE_DEPTH → length l ≤ 2 ^ d →
  witness_high zero_roots n d (vault_node l d 0) sibs idxs =
  Ok {| root := vault_root l;
        mw_siblings := sibs ++ path_from hash2 (list_leaf zero32 l) d 0 n;
        indices := idxs ++ path_bits 0 n |}.
Proof.
  intros Hl. revert d sibs idxs; induction n as [|n IH]; intros d sibs idxs Hd Hlen; cbn [witness_high].
  - cbn [path_from path_bits]. rewrite !app_nil_r. unfold vault_root. by replace TREE_DEPTH with d by lia.
  - rewrite zero_roots_lookup by lia. cbn [mbind res_bind].
    rewrite poseidon2_Ok by first [apply zero_node_ne | apply node_ne; intros; by apply list_leaf_ne].
    assert (Hz : node hash2 (list_leaf zero32 l) d 1 = zero_node hash2 zero32 d) by (apply node_beyond; lia).
    cbn [mbind res_bind]. rewrite <-Hz.
    change (hash2 (vault_node l d 0) _) with (vault_node l (S d) 0).
    rewrite IH by (try lia; rewrite Nat.pow_succ_r'; lia).
    cbn [path_from path_bits]. rewrite <-!app_assoc. done.
Qed.

Lemma TREE_DEPTH_pow : 2 ^ TREE_DEPTH = 1024 * 1024.
Proof. change TREE_DEPTH with (10 + 10). by rewrite Nat.pow_add_r. Qed.

Lemma witness_spec l i :
  Forall (λ b, b ≠ []) l → length l ≤ 2 ^ TREE_DEPTH → i < length l →
  witness (shadow_of l) (Z.of_nat i) = Ok
    {| root := vault_root l; mw_siblings := vault_path l i; indices := path_bits i TREE_DEPTH |}.
Proof.
  intros Hl Hmax Hi. unfold witness, shadow_of. cbn [leaves zeroSubtreeRoots].
  rewrite (proj2 (Z.ltb_ge _ _)), (proj2 (Z.leb_gt _ _)) by lia. cbn [orb].
  pose proof (Nat.log2_up_le_lin (length l)). pose proof (small_loop_spec (S (length l)) 0 (length l)) as Hs.
  change (2 ^ 0) with 1 in Hs. rewrite Hs by lia. clear Hs.
  cbn [mbind res_bind]. set (m := if decide (Nat.log2_up (length l) = 0) then 1 else Nat.log2_up (length l)).
  assert (Hm : length l ≤ 2 ^ m ∧ m ≤ TREE_DEPTH).
  { assert (Hup : length l ≤ 2 ^ Nat.log2_up (length l)) by (apply Nat.log2_up_le_pow2; lia).
    assert (Nat.log2_up (length l) ≤ TREE_DEPTH) by (apply Nat.log2_up_le_pow2; lia).
    subst m. case_decide as H0'; [|done]. rewrite H0', Nat.pow_0_r in Hup.
    rewrite Nat.pow_1_r. split; [lia|]. unfold TREE_DEPTH. lia. }
  destruct Hm as [Hm Hm20]. rewrite (padded_nodes hash2) by done. rewrite Nat2Z.id.
  rewrite witness_low_spec by (intros; first [by apply list_leaf_ne | lia]).
  cbn [mbind res_bind]. unfold elem at 1. cbn [lookup list_lookup mbind res_bind].
  change (node hash2 _ (0 + m) 0) with (vault_node l m 0).
  rewrite witness_high_spec by (done || lia). cbn [app]. unfold vault_path.
  replace TREE_DEPTH with (m + (TREE_DEPTH - m)) at 3 4 by lia.
  by rewrite path_from_app, path_bits_app, Nat.div_small by lia.
Qed.

(** The witness satisfies the circuit's Merkle check. *)
Lemma vault_path_checks l i leaf :
  length l ≤ 2 ^ TREE_DEPTH → l !! i = Some leaf →
  fold_bits hash2 leaf (vault_path l i) (path_bits i TREE_DEPTH) = Some (vault_root l).
Proof.
  intros Hmax Hi. pose proof (lookup_lt_Some _ _ _ Hi) as Hlt.
  pose proof (fold_bits_path hash2 leaf i (vault_path l i)) as Hf.
  unfold vault_path in Hf at 2. rewrite length_path_from in Hf. rewrite Hf. f_equal.
  assert (Hleaf : leaf = node hash2 (list_leaf zero32 l) 0 i).
  { cbn [node]. unfold list_leaf. by rewrite Hi. }
  rewrite Hleaf. unfold vault_path. rewrite fold_path_node. unfold vault_root, vault_node.
  by rewrite Nat.div_small by lia.
Qed.

Lemma append_spec l leaf :
  Forall (λ b, b ≠ []) (l ++ [leaf]) →
  append leaf (shadow_of l) = (Ok (vault_root (l ++ [leaf])), shadow_of (l ++ [leaf])).
Proof.
  intros Hl. unfold append. cbn [leafCount leaves zeroSubtreeRoots].
  assert (Hs : {| leafCount := length l + 1; leaves := l ++ [leaf]; zeroSubtreeRoots := zero_roots |}
               = shadow_of (l ++ [leaf])).
  { unfold shadow_of. by rewrite length_app. }
  cbn [shadow_of leafCount leaves zeroSubtreeRoots]. rewrite Hs. by rewrite computeRoot_spec.
Qed.
End shadow_lemmas.

(** ** Properties *)

(** [C38] The shadow computes the vault's tree: after any sequence of appends to
    a fresh shadow, the root [append] returned and [computeRoot] are the root of
    the depth-20 Poseidon tree over the appended leaves, empty beyond them. *)
Theorem shadow_root_correct `{Poseidon} `{!PoseidonLaws} (l : list bytes) leaf t0 :
  Forall (λ b, length b = 32) (l ++ [leaf]) → create = Ok t0 →
  ∃ t1 t2, snd ((mapM append l : M MerkleShadow (list bytes)) t0) = t1 ∧
    append leaf t1 = (Ok (vault_root (l ++ [leaf])), t2) ∧
    computeRoot t2 = Ok (vault_root (l ++ [leaf])) ∧ t2.(leaves) = l ++ [leaf] ∧
    t2.(leafCount) = length l + 1.
Proof.
  intros Hl Hc. rewrite create_spec in Hc. apply Ok_inj in Hc as <-.
  assert (Hne : Forall (λ b, b ≠ []) (l ++ [leaf])).
  { eapply Forall_impl; [exact Hl|]. intros b Hb ->. done. }
  assert (Hrun : ∀ pre, Forall (λ b, b ≠ []) (pre ++ l) →
    ∃ rs, (mapM append l : M MerkleShadow (list bytes)) (shadow_of pre) = (Ok rs, shadow_of (pre ++ l))).
  { clear Hl Hne. induction l as [|x l IH]; intros pre Hp; [exists []; by rewrite app_nil_r|].
    assert (Ha : pre ++ x :: l = (pre ++ [x]) ++ l) by (by rewrite <-app_assoc). rewrite Ha in Hp |- *. destruct (IH _ Hp) as [rs Hrs].
    apply Forall_app in Hp as [Hp _]. eexists. cbn [mapM].
    rewrite (M_bind_run _ _ _ _ _ (append_spec pre x Hp)). rewrite (M_bind_run _ _ _ _ _ Hrs). done. }
  destruct (Hrun []) as [rs Hrs]; [by apply Forall_app in Hne as [? _]|]. rewrite Hrs. cbn [app snd].
  eexists _, (shadow_of (l ++ [leaf])). split; [done|]. rewrite append_spec, computeRoot_spec by done.
  repeat split; [done..|]. cbn. by rewrite length_app.
Qed.

Lemma shadow_root_correct_witness :
  ∃ t0 t1 t2, @create Toy.toy_Poseidon = Ok t0 ∧
    snd ((mapM (@append Toy.toy_Poseidon) [replicate 32 x01] : M MerkleShadow (list bytes)) t0) = t1 ∧
    @append Toy.toy_Poseidon (replicate 32 x02) t1 =
      (Ok (@vault_root Toy.toy_Poseidon [replicate 32 x01; replicate 32 x02]), t2).
Proof.
  pose proof (@create_spec Toy.toy_Poseidon Toy.toy_poseidon_laws) as Hc.
  destruct (@shadow_root_correct Toy.toy_Poseidon Toy.toy_poseidon_laws [replicate 32 x01] (replicate 32 x02) _
    ltac:(repeat constructor) Hc) as (t1 & t2 & H1 & H2 & _).
  eexists _, t1, t2. split; [exact Hc|]. split; [exact H1|exact H2].
Defined.

(** The shadow's witnesses are accepted by the spend circuit: for every
    leaf index the witness exists, has twenty siblings, its root is the shadow's
    root, and the circuit's Merkle check of that leaf reaches it; for any other
    index the call throws. *)
Theorem shadow_witness_correct `{Poseidon} `{!PoseidonLaws} (l : list bytes) (i : Z) :
  Forall (λ b, length b = 32) l → length l ≤ 2 ^ TREE_DEPTH →
  ((0 ≤ i < Z.of_nat (length l))%Z ∧
   ∃ w leaf, witness (shadow_of l) i = Ok w ∧ l !! Z.to_nat i = Some leaf ∧
     computeRoot (shadow_of l) = Ok w.(root) ∧ length w.(mw_siblings) = TREE_DEPTH ∧
     fold_bits hash2 leaf w.(mw_siblings) w.(indices) = Some w.(root))
  ∨ (¬ (0 ≤ i < Z.of_nat (length l))%Z ∧ is_Ok (witness (shadow_of l) i) = false).
Proof.
  intros Hl Hmax. assert (Hne : Forall (λ b, b ≠ []) l).
  { eapply Forall_impl; [exact Hl|]. intros b Hb ->. done. }
  destruct (decide (0 ≤ i < Z.of_nat (length l))%Z) as [Hi|Hi]; [left|right]; (split; [done|]).
  - destruct (lookup_lt_is_Some_2 l (Z.to_nat i) ltac:(lia)) as [leaf Hleaf].
    eexists _, leaf. rewrite <-(Z2Nat.id i) at 1 by lia. rewrite witness_spec by (done || lia).
    split; [reflexivity|]. cbn [root mw_siblings indices]. split; [done|]. split; [by apply computeRoot_spec|].
    unfold vault_path at 1. rewrite length_path_from. split; [done|]. by apply vault_path_checks.
  - unfold witness. cbn [leaves shadow_of]. destruct (Z.ltb_spec i 0); [done|].
    destruct (Z.leb_spec (Z.of_nat (length l)) i); [done|lia].
Qed.

Lemma shadow_witness_correct_witness :
  (0 ≤ 1 < 2)%Z ∧ ∃ w leaf,
    @witness Toy.toy_Poseidon (@shadow_of Toy.toy_Poseidon [replicate 32 x01; replicate 32 x02]) 1 = Ok w ∧
    leaf = replicate 32 x02 ∧
    @fold_bits _ (@hash2 Toy.toy_Poseidon) leaf w.(mw_siblings) w.(indices) = Some w.(root).
Proof.
  destruct (@shadow_witness_correct Toy.toy_Poseidon Toy.toy_poseidon_laws [replicate 32 x01; replicate 32 x02] 1
    ltac:(repeat constructor) ltac:(rewrite TREE_DEPTH_pow; change (length [_; _]) with 2; lia)) as [(Hi & w & leaf & Hw & Hl & _ & _ & Hf)|[Hn _]].
  - split; [lia|]. exists w, leaf. split; [exact Hw|]. split; [|exact Hf].
    by injection Hl as <-.
  - exfalso. apply Hn. cbn. lia.
Defined.
