(* ===== verification/VaultTree.v ===== *)
(** The vault's incremental tree and root history
    ([programs/vault/src/{state,merkle}.rs], [initialize.rs],
    [reset_merkle_tree.rs]) and the client's witness for the latest leaf
    ([apps/demo/src/lib/dapp/merkle-witness.ts]).  Both refine the specification
    tree of [MerkleShadow]. *)

From S2P Require Import Prelude Bytes Errors Externals Keys Note Merkle MerkleShadow.

Definition MERKLE_DEPTH : nat := 20.
Definition ROOT_HISTORY_SIZE : nat := 32.

(** [VaultConfig], less the padding and the bump. *)
Record VaultConfig := {
  admin : bytes;
  tee_pubkey : bytes;
  root_key : bytes;
  leaf_count : Z;
  current_root : bytes;
  roots : list bytes;
  zero_subtree_roots : list bytes;
  right_path : list bytes;
  roots_head : nat;
  protocol_owner_commitment : bytes;
  fee_rate_bps : Z;
}.

Definition VaultError (name : string) : exn := EError "VaultError" name.

(** ** On chain *)

Definition contains_root (cfg : VaultConfig) (r : bytes) : bool :=
  bool_decide (cfg.(current_root) = r) || existsb (λ x, bool_decide (x = r)) cfg.(roots).

Definition push_root (cfg : VaultConfig) (r : bytes) : VaultConfig :=
  let idx := cfg.(roots_head) in
  {| admin := cfg.(admin); tee_pubkey := cfg.(tee_pubkey); root_key := cfg.(root_key);
     leaf_count := cfg.(leaf_count); current_root := r;
     roots := <[idx := cfg.(current_root)]> cfg.(roots);
     zero_subtree_roots := cfg.(zero_subtree_roots); right_path := cfg.(right_path);
     roots_head := (idx + 1) mod ROOT_HISTORY_SIZE;
     protocol_owner_commitment := cfg.(protocol_owner_commitment); fee_rate_bps := cfg.(fee_rate_bps) |}.

Definition set_tree (cfg : VaultConfig) (count : Z) (right : list bytes) : VaultConfig :=
  {| admin := cfg.(admin); tee_pubkey := cfg.(tee_pubkey); root_key := cfg.(root_key);
     leaf_count := count; current_root := cfg.(current_root); roots := cfg.(roots);
     zero_subtree_roots := cfg.(zero_subtree_roots); right_path := right;
     roots_head := cfg.(roots_head);
     protocol_owner_commitment := cfg.(protocol_owner_commitment); fee_rate_bps := cfg.(fee_rate_bps) |}.

Section onchain.
Context `{Poseidon}.

(** The hasher of the program refuses an input that is not a canonical field
    element. *)
Definition poseidon2_onchain (left right : bytes) : res bytes :=
  if (BN254_R <=? be_val left)%Z || (BN254_R <=? be_val right)%Z then Throw (VaultError "InvalidProof")
  else Ok (be_bytes 32 (poseidon [be_val left; be_val right])).

Fixpoint zero_roots_loop (n : nat) (cur : bytes) : res (list bytes) :=
  match n with
  | O => Ok []
  | S n => nxt ← poseidon2_onchain cur cur; rest ← zero_roots_loop n nxt; Ok (cur :: rest)
  end.

Definition compute_zero_subtree_roots : res (list bytes) :=
  zero_roots_loop MERKLE_DEPTH (replicate 32 x00).

Definition empty_root (zeros : list bytes) : res bytes :=
  last_ ← elem zeros (MERKLE_DEPTH - 1); poseidon2_onchain last_ last_.

(** The loop over the levels; [n] of them are left. *)
Fixpoint append_loop (n level : nat) (right zeros : list bytes) (idx : Z) (current : bytes)
    : res (bytes * list bytes) :=
  match n with
  | O => Ok (current, right)
  | S n =>
      if (Z.land idx 1 =? 1)%Z then
        l ← elem right level;
        current ← poseidon2_onchain l current;
        append_loop n (S level) right zeros (Z.shiftr idx 1) current
      else
        let right := <[level := current]> right in
        z ← elem zeros level;
        current ← poseidon2_onchain current z;
        append_loop n (S level) right zeros (Z.shiftr idx 1) current
  end.

Definition append_leaf (vault : VaultConfig) (leaf : bytes) : res (bytes * VaultConfig) :=
  let leaf_index := vault.(leaf_count) in
  _ ← throw_if (negb (leaf_index <? Z.shiftl 1 (Z.of_nat MERKLE_DEPTH))%Z) (VaultError "MerkleTreeFull");
  r ← append_loop MERKLE_DEPTH 0 vault.(right_path) vault.(zero_subtree_roots) leaf_index leaf;
  let '(current, rpath) := r in
  _ ← throw_if (negb (leaf_index + 1 <? U64)%Z) (VaultError "ArithmeticOverflow");
  Ok (current, push_root (set_tree vault (leaf_index + 1) rpath) current).

Definition initialize_handler (admin_key tee root : bytes) : res VaultConfig :=
  zeros ← compute_zero_subtree_roots;
  r ← empty_root zeros;
  Ok {| admin := admin_key; tee_pubkey := tee; root_key := root; leaf_count := 0; current_root := r;
        roots := replicate ROOT_HISTORY_SIZE (replicate 32 x00); zero_subtree_roots := zeros;
        right_path := replicate MERKLE_DEPTH (replicate 32 x00); roots_head := 0;
        protocol_owner_commitment := replicate 32 x00; fee_rate_bps := 0 |}.

Definition reset_merkle_tree_handler (signer_key : bytes) (cfg : VaultConfig) : res VaultConfig :=
  _ ← throw_if (negb (bool_decide (signer_key = cfg.(admin)))) (VaultError "Unauthorized");
  r ← empty_root cfg.(zero_subtree_roots);
  Ok {| admin := cfg.(admin); tee_pubkey := cfg.(tee_pubkey); root_key := cfg.(root_key);
        leaf_count := 0; current_root := r;
        roots := replicate ROOT_HISTORY_SIZE (replicate 32 x00);
        zero_subtree_roots := cfg.(zero_subtree_roots);
        right_path := replicate MERKLE_DEPTH (replicate 32 x00); roots_head := 0;
        protocol_owner_commitment := cfg.(protocol_owner_commitment); fee_rate_bps := cfg.(fee_rate_bps) |}.

(** Appends in order; an error anywhere reverts the transaction. *)
Fixpoint append_all (vault : VaultConfig) (ls : list bytes) : res VaultConfig :=
  match ls with
  | [] => Ok vault
  | leaf :: ls => r ← append_leaf vault leaf; append_all r.2 ls
  end.

(** ** [merkle-witness.ts] *)

Record LatestLeafWitness := { lw_root : bytes; lw_siblings : list bytes; lw_indices : list Z }.

(** [for (const b of x) acc = (acc << 8n) | BigInt(b)] *)
Definition poseidonPair (a b : bytes) : res bytes := poseidonHashBytesBE [be_val a; be_val b].

Fixpoint zeros_loop (n : nat) (cur : bytes) (out : list bytes) : res (list bytes) :=
  match n with
  | O => Ok out
  | S n => nxt ← poseidonPair cur cur; zeros_loop n nxt (out ++ [cur])
  end.

(** The module-level cache is the world. *)
Definition computeZeroSubtreeRoots : M (option (list bytes)) (list bytes) := λ cachedZeros,
  match cachedZeros with
  | Some zs => (Ok zs, cachedZeros)
  | None =>
      match zeros_loop MERKLE_DEPTH (replicate 32 x00) [] with
      | Ok out => (Ok out, Some out)
      | Throw e => (Throw e, None)
      end
  end.

Fixpoint latest_loop (n d : nat) (zeros prior : list bytes) (leafIndex : Z) (cur : bytes)
    (sibs : list bytes) (idxs : list Z) : res LatestLeafWitness :=
  match n with
  | O => Ok {| lw_root := cur; lw_siblings := sibs; lw_indices := idxs |}
  | S n =>
      let bit := Z.land (Z.shiftr leafIndex (Z.of_nat d)) 1 in
      if (bit =? 0)%Z then
        z ← elem zeros d;
        cur ← poseidonPair cur z;
        latest_loop n (S d) zeros prior leafIndex cur (sibs ++ [z]) (idxs ++ [bit])
      else
        p ← elem prior d;
        cur ← poseidonPair p cur;
        latest_loop n (S d) zeros prior leafIndex cur (sibs ++ [p]) (idxs ++ [bit])
  end.

Definition witnessFromPriorRightPath (leaf : bytes) (leafIndex : Z) (priorRightPath : list bytes)
    : M (option (list bytes)) LatestLeafWitness :=
  _ ← guard_throw (negb (length leaf =? 32)) (Error "leaf must be 32 bytes");
  _ ← guard_throw (negb (length priorRightPath =? MERKLE_DEPTH))
        (Error ("priorRightPath must have " +:+ pretty MERKLE_DEPTH +:+ " entries"));
  zeros ← computeZeroSubtreeRoots;
  liftR (latest_loop MERKLE_DEPTH 0 zeros priorRightPath leafIndex leaf [] []).
End onchain.

(** ** Representation *)

Section repr.
Context `{Poseidon}.

(** A canonical 32-byte field element. *)
Definition field_bytes (b : bytes) : Prop := length b = 32 ∧ (be_val b < BN254_R)%Z.

(** The vault's tree fields represent the leaf list [l]. *)
Record tree_repr (cfg : VaultConfig) (l : list bytes) : Prop := {
  repr_leaves : Forall field_bytes l;
  repr_max : length l ≤ 2 ^ MERKLE_DEPTH;
  repr_count : cfg.(leaf_count) = Z.of_nat (length l);
  repr_root : cfg.(current_root) = vault_root l;
  repr_zeros : cfg.(zero_subtree_roots) = zero_roots;
  repr_right_len : length cfg.(right_path) = MERKLE_DEPTH;
  repr_right : ∀ d, d < MERKLE_DEPTH → Nat.odd (length l / 2 ^ d) = true →
    cfg.(right_path) !! d = Some (vault_node l d (length l / 2 ^ d - 1));
}.

(** The ring holds the last 32 of the earlier roots, after 32 zero entries. *)
Definition ring_repr (cfg : VaultConfig) (hist : list bytes) : Prop :=
  length cfg.(roots) = ROOT_HISTORY_SIZE ∧ cfg.(roots_head) = length hist mod ROOT_HISTORY_SIZE ∧
  ∀ q, length hist ≤ q < length hist + ROOT_HISTORY_SIZE →
    cfg.(roots) !! (q mod ROOT_HISTORY_SIZE) = (replicate ROOT_HISTORY_SIZE zero32 ++ hist) !! q.

(** The roots before each of the appends of [l]. *)
Definition root_history (l : list bytes) : list bytes := (λ k, vault_root (take k l)) <$> seq 0 (length l).

(** A vault initialised once and appended [l] since. *)
Definition vault_repr (cfg : VaultConfig) (l : list bytes) : Prop :=
  tree_repr cfg l ∧ ring_repr cfg (root_history l).
End repr.

(** ** Lemmas *)

Lemma land_1_odd k : Z.land (Z.of_nat k) 1 = if Nat.odd k then 1%Z else 0%Z.
Proof.
  change 1%Z with (Z.ones 1) at 1. rewrite Z.land_ones by lia. change (2 ^ 1)%Z with 2%Z.
  change 2%Z with (Z.of_nat 2). rewrite <-Nat2Z.inj_mod. destruct (Nat.odd k) eqn:E.
  - apply Nat.odd_spec in E as [m ->]. by rewrite Nat.add_comm, Nat.mul_comm, Nat.Div0.mod_add.
  - rewrite <-Nat.negb_even in E. apply negb_false_iff, Nat.even_spec in E as [m ->].
    by rewrite Nat.mul_comm, Nat.Div0.mod_mul.
Qed.

Lemma mod_2_odd k : k mod 2 = if Nat.odd k then 1 else 0.
Proof.
  apply (inj Z.of_nat). rewrite Nat2Z.inj_mod. change (Z.of_nat 2) with (2 ^ 1)%Z.
  rewrite <-Z.land_ones by lia. change (Z.ones 1) with 1%Z. rewrite land_1_odd. by destruct (Nat.odd k).
Qed.

Lemma shiftr_1_nat k : Z.shiftr (Z.of_nat k) 1 = Z.of_nat (k / 2).
Proof. rewrite Z.shiftr_div_pow2 by lia. by rewrite Nat2Z.inj_div. Qed.

Lemma succ_div n p : 0 < p → (n + 1) / p = n / p ∨ (n + 1) / p = n / p + 1.
Proof.
  intros Hp. pose proof (Nat.div_mod_eq n p). pose proof (Nat.mod_upper_bound n p ltac:(lia)).
  destruct (decide (n mod p + 1 < p)).
  - left. symmetry. apply (Nat.div_unique _ _ _ (n mod p + 1)); lia.
  - right. symmetry. apply (Nat.div_unique _ _ _ 0); nia.
Qed.

Lemma pow2_pos d : 0 < 2 ^ d.
Proof. apply Nat.neq_0_lt_0, Nat.pow_nonzero. lia. Qed.

Section tree_lemmas.
Context `{Poseidon} `{!PoseidonLaws}.

Lemma poseidon2_onchain_Ok a b :
  (be_val a < BN254_R)%Z → (be_val b < BN254_R)%Z → poseidon2_onchain a b = Ok (hash2 a b).
Proof.
  intros Ha Hb. unfold poseidon2_onchain.
  rewrite (proj2 (Z.leb_gt _ _)), (proj2 (Z.leb_gt _ _)) by done. done.
Qed.

Lemma hash2_field a b : field_bytes (hash2 a b).
Proof.
  split; [apply length_hash2|]. unfold hash2. rewrite be_val_field_bytes by apply poseidon_range.
  apply poseidon_range.
Qed.

Lemma zero_node_field d : field_bytes (zero_node hash2 zero32 d).
Proof. destruct d; [split; reflexivity|apply hash2_field]. Qed.

Lemma list_leaf_field l i : Forall field_bytes l → field_bytes (list_leaf zero32 l i).
Proof.
  intros Hl. rewrite Forall_lookup in Hl. unfold list_leaf. destruct (l !! i) eqn:E.
  - by eapply Hl.
  - apply (zero_node_field 0).
Qed.

Lemma vault_node_field l d i : Forall field_bytes l → field_bytes (vault_node l d i).
Proof.
  intros Hl. apply (node_P hash2 field_bytes); [apply hash2_field|]. intros; by apply list_leaf_field.
Qed.

Lemma compute_zeros_spec : compute_zero_subtree_roots = Ok zero_roots.
Proof.
  unfold compute_zero_subtree_roots, zero_roots.
  change (replicate 32 x00) with (zero_node hash2 zero32 0). change MERKLE_DEPTH with TREE_DEPTH.
  generalize TREE_DEPTH at 1 2. intros n. generalize 0 at 1 2 as d.
  induction n as [|n IH]; intros d; cbn [zero_roots_loop seq fmap list_fmap]; [done|].
  rewrite poseidon2_onchain_Ok by apply zero_node_field. cbn [mbind res_bind].
  change (hash2 _ _) with (zero_node hash2 zero32 (S d)). by rewrite IH.
Qed.

Lemma empty_root_spec : empty_root zero_roots = Ok (vault_root []).
Proof.
  unfold empty_root. rewrite zero_roots_lookup by (unfold MERKLE_DEPTH, TREE_DEPTH; lia).
  cbn [mbind res_bind]. rewrite poseidon2_onchain_Ok by apply zero_node_field.
  unfold vault_root, vault_node. rewrite node_beyond by (cbn [length]; lia).
  change TREE_DEPTH with (S (MERKLE_DEPTH - 1)). reflexivity.
Qed.

(** One step of the climb: the parent of the new node at height [d]. *)
Lemma climb_step l' d n :
  vault_node l' (S d) (n / 2 ^ S d) =
  if Nat.odd (n / 2 ^ d) then hash2 (vault_node l' d (n / 2 ^ d - 1)) (vault_node l' d (n / 2 ^ d))
  else hash2 (vault_node l' d (n / 2 ^ d)) (vault_node l' d (n / 2 ^ d + 1)).
Proof.
  rewrite Nat.pow_succ_r', (Nat.mul_comm 2), <-Nat.Div0.div_div. unfold vault_node.
  rewrite node_parent. unfold sibling. rewrite <-(Nat.negb_odd (n / 2 ^ d)).
  by destruct (Nat.odd (n / 2 ^ d)).
Qed.

(** The sibling of the new node is the stored right path or an empty subtree. *)
Lemma sibling_left l leaf d :
  Nat.odd (length l / 2 ^ d) = true →
  vault_node (l ++ [leaf]) d (length l / 2 ^ d - 1) = vault_node l d (length l / 2 ^ d - 1).
Proof.
  intros Ho. apply node_snoc. intros Heq. apply Nat.odd_spec in Ho as [k Hk]. lia.
Qed.

Lemma sibling_right l leaf d :
  vault_node (l ++ [leaf]) d (length l / 2 ^ d + 1) = zero_node hash2 zero32 d.
Proof.
  apply node_beyond. rewrite length_app. cbn [length].
  pose proof (Nat.div_mod_eq (length l) (2 ^ d)). pose proof (pow2_pos d).
  pose proof (Nat.mod_upper_bound (length l) (2 ^ d) ltac:(lia)). nia.
Qed.

(** The right path after the climb, level by level. *)
Definition right_after (l : list bytes) (leaf : bytes) (old : list bytes) (d : nat) : option bytes :=
  if Nat.odd (length l / 2 ^ d) then old !! d
  else Some (vault_node (l ++ [leaf]) d (length l / 2 ^ d)).

Lemma append_loop_spec l leaf right0 n d right :
  Forall field_bytes (l ++ [leaf]) → d + n = MERKLE_DEPTH → length right = MERKLE_DEPTH →
  (∀ e, e < MERKLE_DEPTH → Nat.odd (length l / 2 ^ e) = true →
     right0 !! e = Some (vault_node l e (length l / 2 ^ e - 1))) →
  (∀ e, right !! e = if decide (e < d) then right_after l leaf right0 e else right0 !! e) →
  ∃ right', append_loop n d right zero_roots (Z.of_nat (length l / 2 ^ d))
      (vault_node (l ++ [leaf]) d (length l / 2 ^ d)) =
      Ok (vault_node (l ++ [leaf]) MERKLE_DEPTH (length l / 2 ^ MERKLE_DEPTH), right') ∧
    length right' = MERKLE_DEPTH ∧
    (∀ e, e < MERKLE_DEPTH → right' !! e = right_after l leaf right0 e).
Proof.
  intros Hf. revert d right. induction n as [|n IH]; intros d right Hd Hlen Hold Hr; cbn [append_loop].
  - exists right. replace MERKLE_DEPTH with d by lia. split; [done|]. split; [lia|].
    intros e He. by rewrite Hr, decide_True by lia.
  - assert (HN : ∀ i, (be_val (vault_node (l ++ [leaf]) d i) < BN254_R)%Z) by (intros; by apply vault_node_field).
    assert (Hnext : Z.of_nat (length l / 2 ^ d / 2) = Z.of_nat (length l / 2 ^ S d)).
    { by rewrite Nat.Div0.div_div, Nat.pow_succ_r', (Nat.mul_comm 2). }
    rewrite land_1_odd, shiftr_1_nat, Hnext. pose proof (climb_step (l ++ [leaf]) d (length l)) as Hc.
    destruct (Nat.odd (length l / 2 ^ d)) eqn:Ho; cbn [Z.eqb Pos.eqb].
    + unfold elem. rewrite Hr, decide_False, Hold by (done || lia). cbn [mbind res_bind].
      rewrite <-(sibling_left l leaf d Ho), poseidon2_onchain_Ok by apply HN. cbn [mbind res_bind].
      rewrite <-Hc. apply IH; [lia|done|done|]. intros e. rewrite Hr.
      repeat case_decide; try lia; try done. assert (e = d) as -> by lia.
      unfold right_after. by rewrite Ho.
    + rewrite zero_roots_lookup by (unfold MERKLE_DEPTH, TREE_DEPTH in *; lia). cbn [mbind res_bind].
      rewrite <-(sibling_right l leaf d), poseidon2_onchain_Ok by apply HN. cbn [mbind res_bind].
      rewrite <-Hc. apply IH; [lia|by rewrite length_insert|done|]. intros e.
      destruct (decide (e = d)) as [->|Hne].
      * rewrite list_lookup_insert_eq, decide_True by lia. unfold right_after. by rewrite Ho.
      * rewrite list_lookup_insert_ne, Hr by done. repeat case_decide; try lia; done.
Qed.

Lemma MERKLE_DEPTH_Z : Z.shiftl 1 (Z.of_nat MERKLE_DEPTH) = Z.of_nat (2 ^ MERKLE_DEPTH).
Proof. rewrite Z.shiftl_1_l, Nat2Z.inj_pow. done. Qed.

(** The right path after an append represents the longer list. *)
Lemma right_after_repr l leaf (old right' : list bytes) d :
  (∀ d, d < MERKLE_DEPTH → Nat.odd (length l / 2 ^ d) = true →
     old !! d = Some (vault_node l d (length l / 2 ^ d - 1))) →
  (∀ e, e < MERKLE_DEPTH → right' !! e = right_after l leaf old e) →
  d < MERKLE_DEPTH → Nat.odd (length (l ++ [leaf]) / 2 ^ d) = true →
  right' !! d = Some (vault_node (l ++ [leaf]) d (length (l ++ [leaf]) / 2 ^ d - 1)).
Proof.
  intros Hold Hr Hd. rewrite length_app. cbn [length]. intros Ho. rewrite Hr by done. unfold right_after.
  destruct (succ_div (length l) (2 ^ d) (pow2_pos d)) as [E|E]; rewrite E in Ho |- *.
  - rewrite Ho, Hold by done. by rewrite sibling_left.
  - rewrite Nat.add_1_r, Nat.odd_succ in Ho. rewrite <-Nat.negb_even, Ho. cbn [negb].
    by rewrite Nat.add_sub.
Qed.

Lemma vault_root_top l : vault_node l MERKLE_DEPTH 0 = vault_root l.
Proof. unfold vault_root. by replace TREE_DEPTH with MERKLE_DEPTH by reflexivity. Qed.

Lemma vault_node_new l leaf : vault_node (l ++ [leaf]) 0 (length l) = leaf.
Proof. unfold vault_node. cbn [node]. unfold list_leaf. by rewrite list_lookup_middle. Qed.

Lemma below_capacity n :
  n < 2 ^ MERKLE_DEPTH → negb (Z.of_nat n <? Z.shiftl 1 (Z.of_nat MERKLE_DEPTH))%Z = false.
Proof.
  intros Hlt. rewrite MERKLE_DEPTH_Z. apply negb_false_iff, Z.ltb_lt, Nat2Z.inj_lt. exact Hlt.
Qed.

Lemma count_fits n : n < 2 ^ MERKLE_DEPTH → negb (Z.of_nat n + 1 <? U64)%Z = false.
Proof.
  change MERKLE_DEPTH with TREE_DEPTH. rewrite TREE_DEPTH_pow. intros Hlt.
  apply negb_false_iff, Z.ltb_lt. unfold U64. lia.
Qed.

Lemma append_leaf_spec cfg l leaf :
  tree_repr cfg l → field_bytes leaf → length l < 2 ^ MERKLE_DEPTH →
  ∃ right', append_leaf cfg leaf =
      Ok (vault_root (l ++ [leaf]),
          push_root (set_tree cfg (Z.of_nat (length (l ++ [leaf]))) right') (vault_root (l ++ [leaf]))) ∧
    tree_repr (push_root (set_tree cfg (Z.of_nat (length (l ++ [leaf]))) right') (vault_root (l ++ [leaf])))
      (l ++ [leaf]).
Proof.
  intros [Hl Hmax Hc Hroot Hz Hlen Hr] Hleaf Hlt.
  assert (Hf : Forall field_bytes (l ++ [leaf])) by (apply Forall_app; by rewrite Forall_singleton).
  destruct (append_loop_spec l leaf cfg.(right_path) MERKLE_DEPTH 0 cfg.(right_path)) as (right' & Ha & Hl' & Hr');
    [done|done|done|done|done|].
  rewrite Nat.pow_0_r, Nat.div_1_r, vault_node_new, (Nat.div_small _ _ Hlt), vault_root_top in Ha.
  assert (Hn : (Z.of_nat (length l) + 1)%Z = Z.of_nat (length (l ++ [leaf]))) by (rewrite length_app; cbn; lia).
  exists right'. split.
  - unfold append_leaf. rewrite Hc, Hz.
    eapply (bind_Ok_eq _ tt); [by apply throw_if_Ok, below_capacity|].
    eapply bind_Ok_eq; [exact Ha|]. eapply (bind_Ok_eq _ tt); [by apply throw_if_Ok, count_fits|].
    by rewrite Hn.
  - split; [exact Hf| |reflexivity|reflexivity|exact Hz|exact Hl'|].
    + rewrite length_app, Nat.add_1_r. exact Hlt.
    + intros d. by apply (right_after_repr l leaf cfg.(right_path) right').
Qed.

Lemma append_leaf_full cfg l leaf :
  tree_repr cfg l → length l = 2 ^ MERKLE_DEPTH → append_leaf cfg leaf = Throw (VaultError "MerkleTreeFull").
Proof.
  intros [_ _ Hc _ _ _ _] Hfull. unfold append_leaf. rewrite Hc, MERKLE_DEPTH_Z, <-Hfull.
  generalize (Z.of_nat (length l)) as n. intros n. by rewrite Z.ltb_irrefl.
Qed.

(** *** The client's witness for the leaf about to be appended *)

Lemma zeros_loop_spec n d out :
  zeros_loop n (zero_node hash2 zero32 d) out = Ok (out ++ (zero_node hash2 zero32 <$> seq d n)).
Proof.
  revert d out; induction n as [|n IH]; intros d out; cbn [zeros_loop seq fmap list_fmap].
  - by rewrite app_nil_r.
  - eapply bind_Ok_eq; [apply poseidonHashBytesBE_spec|].
    change (be_bytes 32 _) with (zero_node hash2 zero32 (S d)). by rewrite IH, <-app_assoc.
Qed.

(** A reachable state of the module-level cache. *)
Definition cache_ok (cachedZeros : option (list bytes)) : Prop :=
  cachedZeros = None ∨ cachedZeros = Some zero_roots.

Lemma computeZeroSubtreeRoots_spec cached :
  cache_ok cached → computeZeroSubtreeRoots cached = (Ok zero_roots, Some zero_roots).
Proof.
  intros [-> | ->]; [|done]. unfold computeZeroSubtreeRoots.
  change (replicate 32 x00) with (zero_node hash2 zero32 0). by rewrite zeros_loop_spec.
Qed.

Lemma index_bit k d :
  Z.land (Z.shiftr (Z.of_nat k) (Z.of_nat d)) 1 = Z.of_nat (k / 2 ^ d mod 2).
Proof.
  rewrite Z.shiftr_div_pow2 by lia. change 2%Z with (Z.of_nat 2) at 1.
  rewrite <-Nat2Z.inj_pow, <-Nat2Z.inj_div. change 1%Z with (Z.ones 1). rewrite Z.land_ones by lia.
  change (2 ^ 1)%Z with (Z.of_nat 2). by rewrite Nat2Z.inj_mod.
Qed.

Lemma latest_loop_spec l leaf prior n d sibs idxs :
  (∀ e, e < MERKLE_DEPTH → Nat.odd (length l / 2 ^ e) = true →
     prior !! e = Some (vault_node l e (length l / 2 ^ e - 1))) →
  d + n = MERKLE_DEPTH →
  latest_loop n d zero_roots prior (Z.of_nat (length l))
    (vault_node (l ++ [leaf]) d (length l / 2 ^ d)) sibs idxs =
  Ok {| lw_root := vault_node (l ++ [leaf]) MERKLE_DEPTH (length l / 2 ^ MERKLE_DEPTH);
        lw_siblings := sibs ++ path_from hash2 (list_leaf zero32 (l ++ [leaf])) d (length l / 2 ^ d) n;
        lw_indices := idxs ++ path_bits (length l / 2 ^ d) n |}.
Proof.
  intros Hp. revert d sibs idxs; induction n as [|n IH]; intros d sibs idxs Hd;
    cbn [latest_loop path_from path_bits].
  - rewrite !app_nil_r. by replace MERKLE_DEPTH with d by lia.
  - rewrite index_bit. pose proof (climb_step (l ++ [leaf]) d (length l)) as Hc.
    pose proof (Nat.div_mod_eq (length l / 2 ^ d) 2) as Hdm.
    assert (Hdiv : length l / 2 ^ d / 2 = length l / 2 ^ S d)
      by (by rewrite Nat.Div0.div_div, Nat.pow_succ_r', (Nat.mul_comm 2)).
    rewrite (Hdiv). unfold sibling. rewrite <-(Nat.negb_odd (length l / 2 ^ d)).
    destruct (Nat.odd (length l / 2 ^ d)) eqn:Ho; cbn [negb].
    + assert (Hm : length l / 2 ^ d mod 2 = 1) by (by rewrite mod_2_odd, Ho).
      rewrite Hm. change (Z.of_nat 1 =? 0)%Z with false. cbn [negb].
      eapply bind_Ok_eq; [unfold elem; by rewrite Hp by (done || lia)|].
      eapply bind_Ok_eq; [apply poseidonHashBytesBE_spec|].
      change (be_bytes 32 _) with
        (hash2 (vault_node l d (length l / 2 ^ d - 1)) (vault_node (l ++ [leaf]) d (length l / 2 ^ d))).
      rewrite <-(sibling_left l leaf d Ho), <-Hc, IH by lia. by rewrite <-!app_assoc.
    + assert (Hm : length l / 2 ^ d mod 2 = 0) by (by rewrite mod_2_odd, Ho).
      rewrite Hm. change (Z.of_nat 0 =? 0)%Z with true. cbn [negb].
      eapply bind_Ok_eq; [apply zero_roots_lookup; unfold MERKLE_DEPTH, TREE_DEPTH in *; lia|].
      eapply bind_Ok_eq; [apply poseidonHashBytesBE_spec|].
      change (be_bytes 32 _) with
        (hash2 (vault_node (l ++ [leaf]) d (length l / 2 ^ d)) (zero_node hash2 zero32 d)).
      rewrite <-(sibling_right l leaf d), <-Hc, IH by lia. by rewrite <-!app_assoc.
Qed.

Lemma witnessFromPriorRightPath_spec cfg l leaf cached :
  tree_repr cfg l → cache_ok cached → length leaf = 32 → length l < 2 ^ MERKLE_DEPTH →
  witnessFromPriorRightPath leaf cfg.(leaf_count) cfg.(right_path) cached =
  (Ok {| lw_root := vault_root (l ++ [leaf]); lw_siblings := vault_path (l ++ [leaf]) (length l);
         lw_indices := path_bits (length l) TREE_DEPTH |}, Some zero_roots).
Proof.
  intros [_ _ Hc _ _ Hlen Hr] Hcache Hleaf Hlt. unfold witnessFromPriorRightPath.
  rewrite Hc, Hleaf, Hlen.
  rewrite (M_bind_run _ _ _ tt cached) by reflexivity.
  rewrite (M_bind_run _ _ _ tt cached) by reflexivity.
  rewrite (M_bind_run _ _ _ _ _ (computeZeroSubtreeRoots_spec _ Hcache)).
  unfold liftR. apply (f_equal (λ r, (r, Some zero_roots))).
  pose proof (latest_loop_spec l leaf cfg.(right_path) MERKLE_DEPTH 0 [] [] Hr ltac:(done)) as Hs.
  rewrite Nat.pow_0_r, Nat.div_1_r, vault_node_new, (Nat.div_small _ _ Hlt), vault_root_top in Hs.
  exact Hs.
Qed.

(** *** The root ring *)

Lemma push_root_ring cfg hist r count right' :
  ring_repr cfg hist → ring_repr (push_root (set_tree cfg count right') r) (hist ++ [cfg.(current_root)]).
Proof.
  unfold ring_repr. intros (Hlen & Hhead & Hq). cbn [push_root set_tree roots roots_head current_root].
  rewrite length_insert, length_app. cbn [length]. split; [done|].
  unfold ROOT_HISTORY_SIZE in *. split.
  - rewrite Hhead. by rewrite Nat.Div0.add_mod_idemp_l.
  - intros q Hr. rewrite (assoc_L (++)), Hhead. destruct (decide (q = length hist + 32)) as [->|Hne].
    + replace ((length hist + 32) mod 32) with (length hist mod 32)
        by (rewrite <-(Nat.Div0.mod_add (length hist) 1 32); f_equal; lia).
      rewrite list_lookup_insert_eq by (rewrite Hlen; apply Nat.mod_upper_bound; lia).
      rewrite lookup_app_r by (rewrite length_app, length_replicate; lia).
      rewrite length_app, length_replicate. by replace (length hist + 32 - (32 + length hist)) with 0 by lia.
    + rewrite list_lookup_insert_ne.
      * rewrite Hq by lia. symmetry. apply lookup_app_l. rewrite length_app, length_replicate. lia.
      * intros E. pose proof (Nat.div_mod_eq q 32). pose proof (Nat.div_mod_eq (length hist) 32). lia.
Qed.

Lemma root_history_snoc l leaf : root_history (l ++ [leaf]) = root_history l ++ [vault_root l].
Proof.
  unfold root_history. rewrite length_app. cbn [length]. rewrite Nat.add_1_r, seq_S, fmap_app.
  cbn [fmap list_fmap Nat.add]. rewrite take_app_length.
  apply (f_equal (λ hs, hs ++ [vault_root l])).
  apply list_fmap_ext. intros i k Hk. apply lookup_seq in Hk as [-> Hi]. rewrite take_app_le by lia. reflexivity.
Qed.

Lemma length_root_history l : length (root_history l) = length l.
Proof. unfold root_history. by rewrite length_fmap, length_seq. Qed.

Lemma append_leaf_repr cfg l leaf :
  vault_repr cfg l → field_bytes leaf → length l < 2 ^ MERKLE_DEPTH →
  ∃ cfg', append_leaf cfg leaf = Ok (vault_root (l ++ [leaf]), cfg') ∧ vault_repr cfg' (l ++ [leaf]).
Proof.
  intros [Ht Hring] Hleaf Hlt. destruct (append_leaf_spec cfg l leaf Ht Hleaf Hlt) as (right' & Ha & Ht').
  eexists. split; [exact Ha|]. split; [done|].
  rewrite root_history_snoc, <-(repr_root _ _ Ht). by apply push_root_ring.
Qed.

Definition fresh_config (admin_key tee root : bytes) : VaultConfig :=
  {| admin := admin_key; tee_pubkey := tee; root_key := root; leaf_count := 0;
     current_root := vault_root []; roots := replicate ROOT_HISTORY_SIZE zero32;
     zero_subtree_roots := zero_roots; right_path := replicate MERKLE_DEPTH zero32; roots_head := 0;
     protocol_owner_commitment := zero32; fee_rate_bps := 0 |}.

Lemma initialize_fresh admin_key tee root :
  initialize_handler admin_key tee root = Ok (fresh_config admin_key tee root).
Proof.
  unfold initialize_handler. eapply bind_Ok_eq; [apply compute_zeros_spec|].
  eapply bind_Ok_eq; [apply empty_root_spec|]. reflexivity.
Qed.

Lemma fresh_ring cfg :
  cfg.(roots) = replicate ROOT_HISTORY_SIZE zero32 → cfg.(roots_head) = 0 → ring_repr cfg [].
Proof.
  intros Hr Hh. unfold ring_repr. rewrite Hr, Hh. split; [done|]. split; [done|].
  cbn [length]. intros q Hq. rewrite app_nil_r.
  rewrite !lookup_replicate_2; [done|lia|apply Nat.mod_upper_bound; unfold ROOT_HISTORY_SIZE; lia].
Qed.

Lemma fresh_tree cfg :
  cfg.(leaf_count) = 0%Z → cfg.(current_root) = vault_root [] → cfg.(zero_subtree_roots) = zero_roots →
  length cfg.(right_path) = MERKLE_DEPTH → tree_repr cfg [].
Proof.
  intros Hc Hr Hz Hl. split; [constructor|apply Nat.le_0_l|exact Hc|exact Hr|exact Hz|exact Hl|].
  cbn [length]. intros d _. rewrite Nat.Div0.div_0_l. discriminate.
Qed.

Lemma fresh_repr cfg :
  cfg.(roots) = replicate ROOT_HISTORY_SIZE zero32 → cfg.(roots_head) = 0 →
  cfg.(leaf_count) = 0%Z → cfg.(current_root) = vault_root [] → cfg.(zero_subtree_roots) = zero_roots →
  length cfg.(right_path) = MERKLE_DEPTH → vault_repr cfg [].
Proof. intros. split; [by apply fresh_tree|by apply fresh_ring]. Qed.

Lemma initialize_repr admin_key tee root :
  ∃ cfg, initialize_handler admin_key tee root = Ok cfg ∧ vault_repr cfg [] ∧ cfg.(tee_pubkey) = tee.
Proof.
  eexists. split; [apply initialize_fresh|]. split; [|reflexivity].
  apply fresh_repr; try reflexivity.
Qed.

Lemma append_all_repr cfg l ls :
  vault_repr cfg l → Forall field_bytes ls → length l + length ls ≤ 2 ^ MERKLE_DEPTH →
  ∃ cfg', append_all cfg ls = Ok cfg' ∧ vault_repr cfg' (l ++ ls).
Proof.
  revert cfg l; induction ls as [|leaf ls IH]; intros cfg l Hv Hf Hmax; cbn [append_all].
  - exists cfg. by rewrite app_nil_r.
  - rewrite Forall_cons in Hf. destruct Hf as [Hleaf Hf]. cbn [length] in Hmax.
    assert (Hlt : length l < 2 ^ MERKLE_DEPTH) by (eapply Nat.lt_le_trans, Hmax; lia).
    destruct (append_leaf_repr cfg l leaf Hv Hleaf Hlt) as (cfg1 & Ha & Hv1).
    destruct (IH cfg1 (l ++ [leaf]) Hv1 Hf) as (cfg2 & Hall & Hv2).
    { rewrite length_app, <-Nat.add_assoc. exact Hmax. }
    exists cfg2. split; [by eapply bind_Ok_eq|]. by rewrite <-app_assoc in Hv2.
Qed.

(** Which roots a vault accepts. *)
Lemma contains_root_spec cfg hist r :
  ring_repr cfg hist →
  contains_root cfg r = true ↔
  r = cfg.(current_root) ∨ r ∈ drop (length hist) (replicate ROOT_HISTORY_SIZE zero32 ++ hist).
Proof.
  intros (Hlen & _ & Hq). unfold contains_root. rewrite orb_true_iff, bool_decide_eq_true, existsb_exists.
  assert (Hin : (∃ x, In x cfg.(roots) ∧ bool_decide (x = r) = true) ↔
    r ∈ drop (length hist) (replicate ROOT_HISTORY_SIZE zero32 ++ hist)).
  { split.
    - intros (x & Hx & E). apply bool_decide_eq_true in E as ->. apply list_elem_of_In, list_elem_of_lookup in Hx as [p Hp].
      pose proof (lookup_lt_Some _ _ _ Hp) as Hpl. rewrite Hlen in Hpl.
      set (n := length hist) in *. unfold ROOT_HISTORY_SIZE in *.
      (* the q with q mod 32 = p in the window *)
      set (q := n + ((p + 32 - n mod 32) mod 32)).
      assert (Hqb : n ≤ q < n + 32).
      { subst q. pose proof (Nat.mod_upper_bound (p + 32 - n mod 32) 32 ltac:(lia)). lia. }
      assert (Hqp : q mod 32 = p).
      { subst q. pose proof (Nat.mod_upper_bound n 32 ltac:(lia)). rewrite <-(Nat.Div0.add_mod_idemp_l n).
        rewrite Nat.Div0.add_mod_idemp_r. replace (n mod 32 + (p + 32 - n mod 32)) with (p + 1 * 32) by lia.
        rewrite Nat.Div0.mod_add. by apply Nat.mod_small. }
      apply list_elem_of_lookup. exists (q - n). rewrite lookup_drop.
      replace (n + (q - n)) with q by lia. rewrite <-Hq by done. by rewrite Hqp.
    - intros Hx. apply list_elem_of_lookup in Hx as [p Hp]. rewrite lookup_drop in Hp.
      pose proof (lookup_lt_Some _ _ _ Hp) as Hpl. rewrite length_app, length_replicate in Hpl.
      rewrite <-Hq in Hp by lia. exists r. split; [|by apply bool_decide_eq_true].
      apply list_elem_of_In, list_elem_of_lookup. eauto. }
  rewrite Hin. split; (intros [E|E]; [left; congruence|by right]).
Qed.
End tree_lemmas.

(** ** Properties *)

(** [C36] The incremental append refines the specification tree: a vault that
    represents a leaf list and takes one more canonical leaf returns the root of
    the longer list and represents it (next subtree hashes, leaf count, current
    root and root ring included), and a full tree refuses with
    [MerkleTreeFull].  A fresh vault represents the empty list. *)
Theorem append_leaf_refines `{Poseidon} `{!PoseidonLaws} cfg l leaf :
  vault_repr cfg l → field_bytes leaf →
  (∃ cfg0, initialize_handler cfg.(admin) cfg.(tee_pubkey) cfg.(root_key) = Ok cfg0 ∧ vault_repr cfg0 []) ∧
  ((length l < 2 ^ MERKLE_DEPTH ∧
    ∃ cfg', append_leaf cfg leaf = Ok (vault_root (l ++ [leaf]), cfg') ∧ vault_repr cfg' (l ++ [leaf])) ∨
   (length l = 2 ^ MERKLE_DEPTH ∧ append_leaf cfg leaf = Throw (VaultError "MerkleTreeFull"))).
Proof.
  intros Hv Hleaf. split.
  - destruct (initialize_repr cfg.(admin) cfg.(tee_pubkey) cfg.(root_key)) as (cfg0 & Hi & Hr & _). eauto.
  - destruct (proj1 (Nat.lt_eq_cases _ _) (repr_max _ _ (proj1 Hv))) as [Hlt|Hfull].
    + left. split; [done|]. by apply append_leaf_repr.
    + right. split; [done|]. by apply (append_leaf_full cfg l leaf (proj1 Hv)).
Qed.

Lemma append_leaf_refines_witness :
  ∃ cfg cfg', @initialize_handler Toy.toy_Poseidon [] [] [] = Ok cfg ∧
    @append_leaf Toy.toy_Poseidon cfg (replicate 32 x01) =
      Ok (@vault_root Toy.toy_Poseidon [replicate 32 x01], cfg') ∧
    @vault_repr Toy.toy_Poseidon cfg' [replicate 32 x01].
Proof.
  destruct (@initialize_repr Toy.toy_Poseidon Toy.toy_poseidon_laws [] [] []) as (cfg & Hi & Hv & _).
  destruct (@append_leaf_refines Toy.toy_Poseidon Toy.toy_poseidon_laws cfg [] (replicate 32 x01) Hv
    ltac:(split; vm_compute; reflexivity)) as [_ [(_ & cfg' & Ha & Hr)|[Hc _]]].
  - exists cfg, cfg'. split; [exact Hi|]. split; [exact Ha|exact Hr].
  - exfalso. pose proof (pow2_pos MERKLE_DEPTH) as Hp. rewrite <-Hc in Hp. apply Nat.lt_irrefl in Hp. exact Hp.
Defined.

(** [C37] The client's witness for the leaf it appends next, built from the
    right path it read before the append, is the one the chain and the circuit
    accept: its root is the root the append returns and the vault then holds as
    current, it has twenty siblings, and the circuit's Merkle check of the leaf
    reaches that root.  The module-level cache is filled with the same roots the
    vault stores. *)
Theorem latest_witness_matches_append `{Poseidon} `{!PoseidonLaws} cfg l leaf cached root cfg' :
  vault_repr cfg l → field_bytes leaf → cache_ok cached → append_leaf cfg leaf = Ok (root, cfg') →
  ∃ w, witnessFromPriorRightPath leaf cfg.(leaf_count) cfg.(right_path) cached
         = (Ok w, Some cfg.(zero_subtree_roots)) ∧
    w.(lw_root) = root ∧ cfg'.(current_root) = root ∧ contains_root cfg' w.(lw_root) = true ∧
    length w.(lw_siblings) = MERKLE_DEPTH ∧
    fold_bits hash2 leaf w.(lw_siblings) w.(lw_indices) = Some root.
Proof.
  intros Hv Hleaf Hcache Ha. pose proof (repr_max _ _ (proj1 Hv)) as Hmax.
  assert (Hlt : length l < 2 ^ MERKLE_DEPTH).
  { destruct (proj1 (Nat.lt_eq_cases _ _) Hmax) as [Hlt|Hfull]; [exact Hlt|].
    rewrite (append_leaf_full cfg l leaf (proj1 Hv) Hfull) in Ha. discriminate. }
  destruct (append_leaf_repr cfg l leaf Hv Hleaf Hlt) as (cfg'' & Ha' & Hv'). rewrite Ha in Ha'.
  apply Ok_inj in Ha'. injection Ha' as -> ->. destruct Hleaf as [Hlen _].
  eexists. rewrite (repr_zeros _ _ (proj1 Hv)).
  rewrite (witnessFromPriorRightPath_spec cfg l leaf cached (proj1 Hv) Hcache Hlen Hlt).
  split; [reflexivity|]. cbn [lw_root lw_siblings lw_indices]. split; [reflexivity|].
  pose proof (repr_root _ _ (proj1 Hv')) as Hroot. split; [exact Hroot|]. split.
  { apply (contains_root_spec _ _ _ (proj2 Hv')). left. by symmetry. }
  split; [apply length_path_from|].
  apply vault_path_checks; [by rewrite length_app, Nat.add_1_r|by apply list_lookup_middle].
Qed.

Lemma latest_witness_matches_append_witness :
  ∃ cfg cfg' root w, @append_leaf Toy.toy_Poseidon cfg (replicate 32 x01) = Ok (root, cfg') ∧
    fst (@witnessFromPriorRightPath Toy.toy_Poseidon (replicate 32 x01) cfg.(leaf_count) cfg.(right_path) None)
      = Ok w ∧ w.(lw_root) = root.
Proof.
  destruct (@initialize_repr Toy.toy_Poseidon Toy.toy_poseidon_laws [] [] []) as (cfg & _ & Hv & _).
  assert (Hf : field_bytes (replicate 32 x01)) by (split; vm_compute; reflexivity).
  destruct (@append_leaf_repr Toy.toy_Poseidon Toy.toy_poseidon_laws cfg [] _ Hv Hf (pow2_pos _)) as (cfg' & Ha & _).
  destruct (@latest_witness_matches_append Toy.toy_Poseidon Toy.toy_poseidon_laws cfg [] _ None _ cfg' Hv Hf
    ltac:(by left) Ha) as (w & Hw & Hr & _).
  eexists cfg, cfg', _, w. split; [exact Ha|]. split; [by rewrite Hw|exact Hr].
Defined.

(** The roots a vault accepts are exactly the current one and the roots
    before each of the last 32 appends, and, while fewer than 32 leaves were
    ever appended, the all-zero root of the unused ring entries.  So a witness
    stays spendable for 32 further appends, and no longer. *)
Theorem contains_root_window `{Poseidon} `{!PoseidonLaws} cfg l r :
  vault_repr cfg l →
  contains_root cfg r = true ↔
  (∃ k, length l - ROOT_HISTORY_SIZE ≤ k ≤ length l ∧ r = vault_root (take k l)) ∨
  (length l < ROOT_HISTORY_SIZE ∧ r = zero32).
Proof.
  intros [Ht Hring]. rewrite (contains_root_spec _ _ r Hring), (repr_root _ _ Ht), length_root_history.
  pose proof (length_root_history l) as Hlen. split.
  - intros [->|Hin]; [left; exists (length l); split; [lia|by rewrite firstn_all]|].
    apply list_elem_of_lookup in Hin as [p Hp]. rewrite lookup_drop in Hp.
    destruct (decide (length l + p < ROOT_HISTORY_SIZE)) as [Hlo|Hhi].
    + rewrite lookup_app_l, lookup_replicate_2 in Hp by (rewrite ?length_replicate; done).
      injection Hp as <-. right. split; [lia|done].
    + rewrite lookup_app_r in Hp by (rewrite length_replicate; lia). rewrite length_replicate in Hp.
      unfold root_history in Hp. apply list_lookup_fmap_Some in Hp as (k & -> & Hk).
      apply lookup_seq in Hk as [-> Hk]. left. eexists. split; [|reflexivity]. lia.
  - intros [(k & Hk & ->)|[Hlt ->]].
    + destruct (decide (k = length l)) as [->|Hne]; [left; by rewrite firstn_all|right].
      apply list_elem_of_lookup. exists (ROOT_HISTORY_SIZE + k - length l). rewrite lookup_drop, lookup_app_r by
        (rewrite length_replicate; lia).
      rewrite length_replicate. replace (length l + (ROOT_HISTORY_SIZE + k - length l) - ROOT_HISTORY_SIZE) with k by lia.
      unfold root_history. rewrite list_lookup_fmap, lookup_seq_lt by lia. reflexivity.
    + right. apply list_elem_of_lookup. exists 0. rewrite lookup_drop, lookup_app_l by (rewrite length_replicate; lia).
      by apply lookup_replicate_2; lia.
Qed.

Lemma contains_root_window_witness :
  ∃ cfg, @vault_repr Toy.toy_Poseidon cfg [] ∧ contains_root cfg (@vault_root Toy.toy_Poseidon []) = true.
Proof.
  destruct (@initialize_repr Toy.toy_Poseidon Toy.toy_poseidon_laws [] [] []) as (cfg & _ & Hv & _).
  exists cfg. split; [exact Hv|].
  apply (@contains_root_window Toy.toy_Poseidon Toy.toy_poseidon_laws cfg [] _ Hv). left. exists 0. split; [split; cbn; lia|reflexivity].
Defined.
