(* ===== verification/Client.v ===== *)
(** The client object ([packages/sdk/src/client.ts]), the injected providers
    ([providers.ts], [zk/prover-suite.ts]) and the log of the calls a pipeline
    makes to them.

    A client over a world [S] acts on [option bytes * S]: its own
    [resolvedSeed] field and the outside world of its providers. *)

From S2P Require Import Prelude Bytes Errors Externals Keys Note VaultClient.

Local Open Scope Z_scope.

(** ** Providers *)

Record AccountInfo := { ai_data : bytes; ai_owner : PublicKey }.

Record InclusionProof := { ip_root : bytes; ip_siblings : list bytes; ip_pathIndices : list Z }.

Record Groth16ProofBytes := { pb_piA : bytes; pb_piB : bytes; pb_piC : bytes; publicInputs : list bytes }.

Record WalletCreateInputs := {
  wc_userCommitment : Z; wc_rootKey : Z * Z; wc_spendingKey : Z; wc_viewingKey : Z;
  wc_r0 : Z; wc_r1 : Z; wc_r2 : Z }.

Record SpendInputs := {
  si_merkleRoot : Z; si_nullifier : Z; si_tokenMint : Z * Z; si_amount : Z; si_spendingKey : Z;
  si_ownerCommitmentBlinding : Z; si_nonce : Z; si_blindingR : Z; si_merklePath : list Z;
  si_merkleIndices : list Z }.

Record IDarkPoolZkProverSuite (S : Type) := {
  walletCreate_prove : WalletCreateInputs → M S Groth16ProofBytes;
  spend_prove : SpendInputs → M S Groth16ProofBytes }.
Arguments walletCreate_prove {S}.
Arguments spend_prove {S}.

(** [UnimplementedProverSuite] *)
Definition UnimplementedProverSuite {S} (reason : option string) : IDarkPoolZkProverSuite S :=
  let reason := default "wire up packages/web-zk-prover in Phase 3" reason in
  {| walletCreate_prove _ := throw (Error ("UnimplementedProverSuite.walletCreate.prove: " +:+ reason));
     spend_prove _ := throw (Error ("UnimplementedProverSuite.spend.prove: " +:+ reason)) |}.

Record Providers (S : Type) := {
  getAccountInfo : PublicKey → M S (option AccountInfo);
  sendAndConfirm : list TransactionInstruction → M S string;
  getInclusionProof : Z → M S InclusionProof }.
Arguments getAccountInfo {S}.
Arguments sendAndConfirm {S}.
Arguments getInclusionProof {S}.

(** [TransactionCallbacks]: each is optional. *)
Record TransactionCallbacks (S : Type) := {
  cb_pre : option (string → M S ());
  cb_post : option (string → string → M S ()) }.
Arguments cb_pre {S}.
Arguments cb_post {S}.

(** [await params.callbacks?.pre?.(step)] *)
Definition run_pre {S} (cbs : option (TransactionCallbacks S)) (step : string) : M S () :=
  match cbs ≫= cb_pre with Some f => f step | None => mret () end.
Definition run_post {S} (cbs : option (TransactionCallbacks S)) (step signature : string) : M S () :=
  match cbs ≫= cb_post with Some f => f step signature | None => mret () end.

(** ** The client *)

Record DarkPoolClient (S : Type) := {
  cl_programId : PublicKey;
  cl_matchingEngineProgramId : option PublicKey;
  cl_perRpcUrl : string;
  cl_seedMode : MasterSeedMode S;
  cl_randomBytes : nat → M S bytes;
  cl_tradingOffset : option Z;
  cl_ownerBlinding : Z;
  cl_providers : Providers S;
  cl_zkProver : IDarkPoolZkProverSuite S }.
Arguments cl_programId {S}.
Arguments cl_matchingEngineProgramId {S}.
Arguments cl_perRpcUrl {S}.
Arguments cl_seedMode {S}.
Arguments cl_randomBytes {S}.
Arguments cl_tradingOffset {S}.
Arguments cl_ownerBlinding {S}.
Arguments cl_providers {S}.
Arguments cl_zkProver {S}.

Record ResolvedKeys := {
  masterSeed : bytes; rk_spendingKey : Z; rk_viewingKey : Z; rk_rootKey : bytes;
  rk_tradingKey : bytes; rk_ownerBlinding : Z }.

Inductive NoteStatus := active | locked | consumed | unknown.

#[global] Instance NoteStatus_eq_dec : EqDecision NoteStatus.
Proof. solve_decision. Defined.

(** The world of a client: its [resolvedSeed] and the rest. *)
Definition World (S : Type) : Type := option bytes * S.

(** An effect of the rest of the world, seen from an object with a state of its
    own. *)
Definition outside {C S A} (m : M S A) : M (C * S) A := λ w,
  let '(r, s) := m w.2 in (r, (w.1, s)).

Section client.
Context `{NodeCrypto} `{Web3} {S : Type}.
Implicit Types c : DarkPoolClient S.

Definition perRpcUrl c : string := cl_perRpcUrl c.

Definition client_vaultConfigPda c : PublicKey :=
  (findProgramAddressSync [ascii_bytes "vault_config"] c.(cl_programId)).1.

Definition resolvedSeed_ c : M (World S) bytes := λ w,
  match w.1 with
  | Some seed => (Ok seed, w)
  | None =>
      match resolveMasterSeed c.(cl_randomBytes) c.(cl_seedMode) w.2 with
      | (Ok seed, s) => (Ok seed, (Some seed, s))
      | (Throw e, s) => (Throw e, (None, s))
      end
  end.

Definition getResolvedKeys c : M (World S) ResolvedKeys :=
  seed ← resolvedSeed_ c;
  sk ← liftR (deriveSpendingKey seed);
  vk ← liftR (deriveMasterViewingKey seed);
  rk ← liftR (deriveRootKey seed);
  tk ← liftR (deriveTradingKeyAtOffset seed (default 0 c.(cl_tradingOffset)));
  mret {| masterSeed := seed; rk_spendingKey := sk; rk_viewingKey := vk; rk_rootKey := rk;
          rk_tradingKey := tk; rk_ownerBlinding := c.(cl_ownerBlinding) |}.

Definition getNoteStatus c (noteCommitment : bytes) : M S NoteStatus :=
  try_catch
    (consumed_ ← liftR (consumedNotePda c.(cl_programId) noteCommitment);
     locked_ ← liftR (noteLockPda c.(cl_programId) noteCommitment);
     consumedInfo ← c.(cl_providers).(getAccountInfo) consumed_.1;
     if decide (consumedInfo ≠ None) then mret consumed else
     lockInfo ← c.(cl_providers).(getAccountInfo) locked_.1;
     if decide (lockInfo ≠ None) then mret locked else
     mret active)
    (λ _, mret unknown).
End client.

(** ** The log of calls

    [logged_client] is the same client with every call to an injected function
    recorded before its result is known, so theorems speak about which calls a
    run makes, and in which order, whatever the injected functions do. *)

Inductive Call :=
  | CallSeed                                        (** the storage, the wallet or the random source *)
  | CallPre (step : string)
  | CallPost (step signature : string)
  | CallGetAccountInfo (pubkey : PublicKey)
  | CallGetInclusionProof (leafIndex : Z)
  | CallProve (inputs : SpendInputs)
  | CallWalletProve (inputs : WalletCreateInputs)
  | CallSend (ixs : list TransactionInstruction).

Definition is_send (c : Call) : bool := match c with CallSend _ => true | _ => false end.

Section logged.
Context {S : Type}.

Definition Logged : Type := list Call * S.

Definition logged {A} (call : Call) (m : M S A) : M Logged A := λ w,
  let '(r, s) := m w.2 in (r, (w.1 ++ [call], s)).

Definition logged_seedMode (mode : MasterSeedMode S) : MasterSeedMode Logged :=
  match mode with
  | csprng load store => csprng (logged CallSeed load) (λ seed, logged CallSeed (store seed))
  | wallet_signature signMessage message => wallet_signature (λ m, logged CallSeed (signMessage m)) message
  end.

Definition logged_callbacks (cbs : TransactionCallbacks S) : TransactionCallbacks Logged :=
  {| cb_pre := (λ f step, logged (CallPre step) (f step)) <$> cbs.(cb_pre);
     cb_post := (λ f step sig, logged (CallPost step sig) (f step sig)) <$> cbs.(cb_post) |}.

Definition logged_client (c : DarkPoolClient S) : DarkPoolClient Logged :=
  {| cl_programId := c.(cl_programId);
     cl_matchingEngineProgramId := c.(cl_matchingEngineProgramId);
     cl_perRpcUrl := c.(cl_perRpcUrl);
     cl_seedMode := logged_seedMode c.(cl_seedMode);
     cl_randomBytes n := logged CallSeed (c.(cl_randomBytes) n);
     cl_tradingOffset := c.(cl_tradingOffset);
     cl_ownerBlinding := c.(cl_ownerBlinding);
     cl_providers :=
       {| getAccountInfo pk := logged (CallGetAccountInfo pk) (c.(cl_providers).(getAccountInfo) pk);
          sendAndConfirm ixs := logged (CallSend ixs) (c.(cl_providers).(sendAndConfirm) ixs);
          getInclusionProof i := logged (CallGetInclusionProof i) (c.(cl_providers).(getInclusionProof) i) |};
     cl_zkProver :=
       {| walletCreate_prove i := logged (CallWalletProve i) (c.(cl_zkProver).(walletCreate_prove) i);
          spend_prove i := logged (CallProve i) (c.(cl_zkProver).(spend_prove) i) |} |}.
End logged.
Arguments Logged S : clear implicits.

(** ** Guards of the vault program on a note's two slots ([withdraw.rs]) *)

(** An uninitialised PDA has no account, or one of another owner. *)
Definition owned_by (programId : PublicKey) (info : option AccountInfo) : bool :=
  match info with Some a => bool_decide (a.(ai_owner) = programId) | None => false end.

Definition withdraw_slot_guards (programId : PublicKey) (consumed_note_slot note_lock_slot : option AccountInfo)
    : res () :=
  _ ← throw_if (owned_by programId consumed_note_slot) (EError "VaultError" "NoteAlreadyConsumed");
  throw_if (owned_by programId note_lock_slot) (EError "VaultError" "NoteAlreadyLocked").

(** ** Lemmas *)

Section client_lemmas.
Context `{NodeCrypto} `{!NodeCryptoLaws} `{Web3} {S : Type}.
Implicit Types c : DarkPoolClient S.

Lemma outside_run {C A} (m : M S A) (w : C * S) r s : m w.2 = (r, s) → outside m w = (r, (w.1, s)).
Proof. intros Hm. unfold outside. by rewrite Hm. Qed.

Lemma logged_run {A} call (m : M S A) tr s r s' : m s = (r, s') → logged call m (tr, s) = (r, (tr ++ [call], s')).
Proof. intros Hm. unfold logged. cbn [fst snd]. by rewrite Hm. Qed.

Lemma logged_inv {A} call (m : M S A) w r w' : logged call m w = (r, w') → w'.1 = w.1 ++ [call] ∧ m w.2 = (r, w'.2).
Proof. unfold logged. destruct (m w.2) as [r' s'] eqn:E. by intros [= <- <-]. Qed.

(** What a seed gives: the derivations never throw. *)
Definition keys_of c (seed : bytes) (ks : ResolvedKeys) : Prop :=
  masterSeed ks = seed ∧ deriveSpendingKey seed = Ok ks.(rk_spendingKey) ∧
  deriveMasterViewingKey seed = Ok ks.(rk_viewingKey) ∧ deriveRootKey seed = Ok ks.(rk_rootKey) ∧
  deriveTradingKeyAtOffset seed (default 0 c.(cl_tradingOffset)) = Ok ks.(rk_tradingKey) ∧
  ks.(rk_ownerBlinding) = c.(cl_ownerBlinding).

Lemma getResolvedKeys_run c w r w' :
  resolvedSeed_ c w = (r, w') →
  match r with
  | Ok seed => ∃ ks, getResolvedKeys c w = (Ok ks, w') ∧ keys_of c seed ks
  | Throw e => getResolvedKeys c w = (Throw e, w')
  end.
Proof.
  intros Hs. unfold getResolvedKeys. destruct r as [seed|e]; [|by rewrite (M_bind_throw _ _ _ _ _ Hs)].
  rewrite (M_bind_run _ _ _ _ _ Hs).
  destruct (deriveSpendingKey_total seed) as (sk & Hsk & _), (deriveMasterViewingKey_total seed) as (vk & Hvk & _),
    (deriveRootKey_total seed) as (rk & Hrk & _),
    (deriveTradingKey_total seed (default 0 c.(cl_tradingOffset))) as (tk & Htk & _).
  rewrite Hsk, Hvk, Hrk, Htk. eexists. split; [reflexivity|]. repeat split; assumption.
Qed.

(** The seed is resolved once: afterwards the client keeps it. *)
Lemma resolvedSeed_cached c w seed w' :
  resolvedSeed_ c w = (Ok seed, w') → w'.1 = Some seed ∧ resolvedSeed_ c w' = (Ok seed, w').
Proof.
  unfold resolvedSeed_. destruct w as [[sd|] s]; cbn [fst snd].
  - by intros [= <- <-].
  - destruct (resolveMasterSeed _ _ s) as [[sd|e] s']; [|done]. by intros [= <- <-].
Qed.
End client_lemmas.

Lemma guard_throw_Ok {S} b e (s : S) u s' : guard_throw b e s = (Ok u, s') → b = false ∧ s' = s.
Proof. unfold guard_throw, liftR. intros [= H <-]. by apply throw_if_Ok in H. Qed.

Lemma outside_Ok {C S A} (m : M S A) (w : C * S) a w' : outside m w = (Ok a, w') → m w.2 = (Ok a, w'.2) ∧ w'.1 = w.1.
Proof. unfold outside. destruct (m w.2) as [r s]. by intros [= -> <-]. Qed.

Lemma liftR_inv {S A} (x : res A) (s : S) r s' : liftR x s = (r, s') → x = r ∧ s' = s.
Proof. unfold liftR. by intros [= -> ->]. Qed.

(** The steps of a successful run, one fact per step. *)
Ltac inv_steps :=
  repeat match goal with
  | H : (mbind _ _) _ = (Ok _, _) |- _ =>
      let a := fresh "a" in let w := fresh "w" in let Hm := fresh "Hm" in
      apply M_bind_Ok in H as (a & w & Hm & H)
  | H : guard_throw _ _ _ = (Ok _, _) |- _ => apply guard_throw_Ok in H as [H ->]
  | H : liftR _ _ = (Ok _, _) |- _ => apply liftR_inv in H as [H ->]
  end.

(** The effects of the provider calls among them. *)
Ltac inv_outside :=
  repeat match goal with
  | H : outside _ _ = (Ok _, _) |- _ =>
      let Hw := fresh "Hw" in apply outside_Ok in H as [H Hw]
  end.

Section logged_lemmas.
Context `{NodeCrypto} `{Web3} {S : Type}.
Implicit Types w : World (Logged S).

(** The calls recorded in a client's world. *)
Definition calls_of w : list Call := w.2.1.

Lemma outside_logged {A} call (m : M S A) w r w' :
  outside (logged call m) w = (r, w') → calls_of w' = calls_of w ++ [call].
Proof.
  unfold outside, calls_of. destruct (logged call m w.2) as [r' s'] eqn:E. intros [= <- <-]. by apply logged_inv in E as [? _].
Qed.

Definition pre_calls (cbs : option (TransactionCallbacks S)) (step : string) : list Call :=
  match cbs ≫= cb_pre with Some _ => [CallPre step] | None => [] end.
Definition post_calls (cbs : option (TransactionCallbacks S)) (step signature : string) : list Call :=
  match cbs ≫= cb_post with Some _ => [CallPost step signature] | None => [] end.

Lemma run_pre_logged cbs step w r w' :
  outside (run_pre (logged_callbacks <$> cbs) step) w = (r, w') → calls_of w' = calls_of w ++ pre_calls cbs step.
Proof.
  unfold run_pre, pre_calls. destruct cbs as [[[p|] q]|]; cbn.
  - apply outside_logged.
  - intros [= <- <-]. by rewrite app_nil_r.
  - intros [= <- <-]. by rewrite app_nil_r.
Qed.

Lemma run_post_logged cbs step sig w r w' :
  outside (run_post (logged_callbacks <$> cbs) step sig) w = (r, w') →
  calls_of w' = calls_of w ++ post_calls cbs step sig.
Proof.
  unfold run_post, post_calls. destruct cbs as [[p [q|]]|]; cbn.
  - apply outside_logged.
  - intros [= <- <-]. by rewrite app_nil_r.
  - intros [= <- <-]. by rewrite app_nil_r.
Qed.

Lemma resolveMasterSeed_logged rb (mode : MasterSeedMode S) v r v' :
  resolveMasterSeed (λ n, logged CallSeed (rb n)) (logged_seedMode mode) v = (r, v') →
  ∃ seeds, v'.1 = v.1 ++ seeds ∧ Forall (CallSeed =.) seeds.
Proof.
  destruct mode as [load store|sign msg]; cbn [logged_seedMode resolveMasterSeed]; intros Hr; inv_M Hr.
  - apply logged_inv in Hm as [-> _]. exists [CallSeed]. by repeat constructor.
  - apply logged_inv in Hm as [Hl _]. destruct a as [seed|].
    + injection Hr as <- <-. rewrite Hl. exists [CallSeed]. by repeat constructor.
    + unfold generateMasterSeed in Hr. inv_M Hr; apply logged_inv in Hm as [Hl2 _].
      { rewrite Hl2, Hl, <-app_assoc. eexists. split; [done|]. by repeat constructor. }
      inv_M Hr; apply logged_inv in Hm as [Hl3 _].
      * rewrite Hl3, Hl2, Hl, <-!app_assoc. eexists. split; [done|]. by repeat constructor.
      * injection Hr as <- <-. rewrite Hl3, Hl2, Hl, <-!app_assoc. eexists. split; [done|]. by repeat constructor.
  - apply logged_inv in Hm as [-> _]. exists [CallSeed]. by repeat constructor.
  - apply logged_inv in Hm as [Hl _]. injection Hr as <- <-. rewrite Hl. exists [CallSeed]. by repeat constructor.
Qed.

Lemma getResolvedKeys_logged (c : DarkPoolClient S) w r w' :
  getResolvedKeys (logged_client c) w = (r, w') →
  ∃ seeds, calls_of w' = calls_of w ++ seeds ∧ Forall (CallSeed =.) seeds.
Proof.
  intros Hk.
  assert (Hs : ∃ r1, resolvedSeed_ (logged_client c) w = (r1, w')).
  { unfold getResolvedKeys in Hk. inv_M Hk; [eauto|].
    repeat (inv_M Hk; apply liftR_inv in Hm0 as [_ ->] || idtac).
    all: try (injection Hk as <- <-); eauto. }
  destruct Hs as [r1 Hs]. unfold resolvedSeed_ in Hs. unfold calls_of. destruct w as [[seed|] v]; cbn [fst snd] in Hs.
  - injection Hs as <- <-. exists []. rewrite app_nil_r. by split; [|constructor].
  - destruct (resolveMasterSeed _ _ v) as [r2 v'] eqn:E. apply resolveMasterSeed_logged in E as (seeds & Hv & Hf).
    exists seeds. destruct r2; injection Hs as <- <-; by split.
Qed.
(** A run of [m] adds calls and ends as [Q] says. *)
Definition logs {A} (m : M (World (Logged S)) A) (Q : res A → list Call → Prop) : Prop :=
  ∀ w r w', m w = (r, w') → ∃ tr, calls_of w' = calls_of w ++ tr ∧ Q r tr.

(** The run stops within the calls [R], or makes them all and goes on as [F]. *)
Definition within {A} (R : list Call) (F : res A → list Call → Prop) (r : res A) (tr : list Call) : Prop :=
  (is_Ok r = false ∧ tr `prefix_of` R) ∨ (∃ t, tr = R ++ t ∧ F r t).

Lemma logs_impl {A} (m : M (World (Logged S)) A) (Q Q' : res A → list Call → Prop) :
  (∀ r tr, Q r tr → Q' r tr) → logs m Q → logs m Q'.
Proof. intros Himp Hm w r w' Hr. destruct (Hm w r w' Hr) as (tr & ? & ?). eauto. Qed.

(** A step that always makes the calls [E]. *)
Lemma logs_step {A B} (m : M (World (Logged S)) A) (k : A → M (World (Logged S)) B) E R F :
  (∀ w r w', m w = (r, w') → calls_of w' = calls_of w ++ E) →
  (∀ a, (∃ w w', m w = (Ok a, w')) → logs (k a) (within R F)) →
  logs (m ≫= k) (within (E ++ R) F).
Proof.
  intros HE Hk w r w' Hr. inv_M Hr.
  - subst r. exists E. split; [by eapply HE|]. left. split; [done|]. by apply prefix_app_r.
  - destruct (Hk a ltac:(eauto) _ _ _ Hr) as (tr & Htr & Hw). exists (E ++ tr).
    rewrite (assoc_L (++)), <-(HE _ _ _ Hm). split; [done|].
    destruct Hw as [[Ht Hpre]|(t & -> & Hf)].
    + left. split; [done|]. by apply prefix_app.
    + right. exists t. by rewrite (assoc_L (++)).
Qed.

Lemma logs_lift {A B} (x : res A) (k : A → M (World (Logged S)) B) R F :
  (∀ a, x = Ok a → logs (k a) (within R F)) → logs (liftR x ≫= k) (within R F).
Proof.
  intros Hk. apply (logs_step _ _ [] R F).
  - intros w r w' [_ ->]%liftR_inv. by rewrite app_nil_r.
  - intros a (w & w' & [Hx _]%liftR_inv). by apply Hk.
Qed.

Lemma logs_guard {B} b e (k : () → M (World (Logged S)) B) R F :
  (b = false → logs (k ()) (within R F)) → logs (guard_throw b e ≫= k) (within R F).
Proof. intros Hk. apply logs_lift. intros [] Hb. apply throw_if_Ok in Hb. by apply Hk. Qed.

(** A guard that passes. *)
Lemma logs_passed {B} b e (k : () → M (World (Logged S)) B) Q :
  b = false → logs (k ()) Q → logs (guard_throw b e ≫= k) Q.
Proof.
  intros -> Hk w r w' Hr. inv_M Hr; apply liftR_inv in Hm as [Hx ->]; [done|]. destruct a. by apply Hk.
Qed.

Lemma logs_call {A B} call (m : M S A) (k : A → M (World (Logged S)) B) R F :
  (∀ a, logs (k a) (within R F)) → logs (outside (logged call m) ≫= k) (within (call :: R) F).
Proof. intros Hk. apply (logs_step _ _ [call] R F); [apply outside_logged|intros; apply Hk]. Qed.

Lemma logs_pre {B} cbs step (k : () → M (World (Logged S)) B) R F :
  logs (k ()) (within R F) →
  logs (outside (run_pre (logged_callbacks <$> cbs) step) ≫= k) (within (pre_calls cbs step ++ R) F).
Proof. intros Hk. apply logs_step; [apply run_pre_logged|]. by intros []. Qed.

(** Only the calls of [F] are left. *)
Lemma logs_rest {A} (m : M (World (Logged S)) A) F : logs m F → logs m (within [] F).
Proof. apply logs_impl. intros r tr Hf. right. by exists tr. Qed.

Lemma logs_keys {B} (c : DarkPoolClient S) (k : ResolvedKeys → M (World (Logged S)) B) R F :
  (∀ ks, logs (k ks) (within R F)) →
  logs (getResolvedKeys (logged_client c) ≫= k)
    (λ r tr, ∃ seeds t, tr = seeds ++ t ∧ Forall (CallSeed =.) seeds ∧ within R F r t).
Proof.
  intros Hk w r w' Hr. inv_M Hr; apply getResolvedKeys_logged in Hm as (seeds & Hw & Hf).
  - exists seeds. split; [done|]. subst r. exists seeds, []. rewrite app_nil_r. split; [done|]. split; [done|].
    left. split; [done|]. apply prefix_nil.
  - destruct (Hk a _ _ _ Hr) as (tr & Ht & Hq). exists (seeds ++ tr). rewrite (assoc_L (++)), <-Hw. split; [done|].
    by exists seeds, tr.
Qed.
End logged_lemmas.

(** ** Properties *)

(** What the provider answers is what the ledger holds. *)
Definition reads_ledger {S} (p : Providers S) (ledger : PublicKey → option AccountInfo) : Prop :=
  ∀ pk s, match (p.(getAccountInfo) pk s).1 with Ok info => info = ledger pk | Throw _ => True end.

(** [getNoteStatus] never throws, and what it reports is what the ledger
    holds at the note's two PDAs: "active" means that neither account exists, so
    the guards of the vault's [withdraw] on these two accounts pass; "consumed"
    and "locked" mean that the account exists, which is the guard's error when
    the vault program owns it.  "unknown" means a failed read or a commitment
    that is not 32 bytes. *)
Theorem getNoteStatus_sound `{NodeCrypto} `{Web3} {S} (c : DarkPoolClient S) ledger nc (s : S) :
  reads_ledger c.(cl_providers) ledger →
  let consumed_pda := (findProgramAddressSync [CONSUMED_NOTE_SEED; nc] c.(cl_programId)).1 in
  let lock_pda := (findProgramAddressSync [NOTE_LOCK_SEED; nc] c.(cl_programId)).1 in
  let guards := withdraw_slot_guards c.(cl_programId) (ledger consumed_pda) (ledger lock_pda) in
  match getNoteStatus c nc s with
  | (Ok active, _) => ledger consumed_pda = None ∧ ledger lock_pda = None ∧ guards = Ok ()
  | (Ok locked, _) => ledger consumed_pda = None ∧
      ∃ a, ledger lock_pda = Some a ∧
        (a.(ai_owner) = c.(cl_programId) → guards = Throw (EError "VaultError" "NoteAlreadyLocked"))
  | (Ok consumed, _) => ∃ a, ledger consumed_pda = Some a ∧
        (a.(ai_owner) = c.(cl_programId) → guards = Throw (EError "VaultError" "NoteAlreadyConsumed"))
  | (Ok unknown, _) => length nc ≠ 32%nat ∨ ∃ pk s1 e s2, c.(cl_providers).(getAccountInfo) pk s1 = (Throw e, s2)
  | (Throw _, _) => False
  end.
Proof.
  intros Hread. cbn zeta. unfold getNoteStatus, try_catch, consumedNotePda, noteLockPda, fixed32.
  destruct (decide (length nc = 32%nat)) as [Hl|Hl].
  2:{ unfold fixed. rewrite decide_False by done. by left. }
  rewrite (fixed_Ok _ _ Hl). cbn [mbind res_bind].
  set (cp := findProgramAddressSync [CONSUMED_NOTE_SEED; nc] c.(cl_programId)).
  set (lp := findProgramAddressSync [NOTE_LOCK_SEED; nc] c.(cl_programId)).
  unfold liftR, mbind, M_bind.
  pose proof (Hread cp.1 s) as H1. destruct (getAccountInfo _ cp.1 s) as [[i1|e1] s1] eqn:E1; cbn in H1;
    [subst i1|right; eauto].
  unfold withdraw_slot_guards. case_decide as D1.
  { destruct (ledger cp.1) as [a|]; [|done]. exists a. split; [done|]. intros Ho. cbn.
    by rewrite (bool_decide_eq_true_2 _ Ho). }
  rewrite D1.
  pose proof (Hread lp.1 s1) as H2. destruct (getAccountInfo _ lp.1 s1) as [[i2|e2] s2] eqn:E2; cbn in H2;
    [subst i2|right; eauto 10].
  case_decide as D2.
  - destruct (ledger lp.1) as [a|]; [|done]. split; [done|]. exists a. split; [done|]. intros Ho. cbn.
    by rewrite (bool_decide_eq_true_2 _ Ho).
  - rewrite D2. done.
Qed.

(** A provider over an empty ledger. *)
Definition sample_client : DarkPoolClient () :=
  {| cl_programId := Toy.zero_key; cl_matchingEngineProgramId := Some Toy.zero_key; cl_perRpcUrl := "";
     cl_seedMode := wallet_signature (λ m, mret m) None; cl_randomBytes n := mret (replicate n x00);
     cl_tradingOffset := None; cl_ownerBlinding := 5;
     cl_providers := {| getAccountInfo _ := mret None; sendAndConfirm _ := mret "sig";
                        getInclusionProof _ := throw (Error "no proof") |};
     cl_zkProver := UnimplementedProverSuite None |}.

Lemma getNoteStatus_sound_witness :
  reads_ledger sample_client.(cl_providers) (λ _, None) ∧
  @withdraw_slot_guards Toy.zero_key None None = Ok ().
Proof.
  assert (Hr : reads_ledger sample_client.(cl_providers) (λ _, None)) by (intros pk []; reflexivity).
  split; [exact Hr|].
  exact (proj2 (proj2 (@getNoteStatus_sound Toy.toy_crypto Toy.toy_web3 _ sample_client (λ _, None)
    (replicate 32 x01) tt Hr))).
Defined.

(** The chain asks who owns the account at a note's PDA, [getNoteStatus]
    only whether there is one: an account that only received lamports, still
    owned by the system program, makes it report "consumed" (or "locked") for a
    note the vault's guards let pass. *)
Theorem getNoteStatus_ignores_owner `{NodeCrypto} `{Web3} {S} (c : DarkPoolClient S) nc a (s : S) :
  length nc = 32%nat → a.(ai_owner) ≠ c.(cl_programId) →
  let ledger := λ pk, if decide (pk = (findProgramAddressSync [CONSUMED_NOTE_SEED; nc] c.(cl_programId)).1)
                      then Some a else None in
  (∀ pk s, c.(cl_providers).(getAccountInfo) pk s = (Ok (ledger pk), s)) →
  (getNoteStatus c nc s).1 = Ok consumed ∧
  ∀ lock, owned_by c.(cl_programId) lock = false →
    withdraw_slot_guards c.(cl_programId)
      (ledger (findProgramAddressSync [CONSUMED_NOTE_SEED; nc] c.(cl_programId)).1) lock = Ok ().
Proof.
  intros Hl Ho ledger Hread. split.
  - unfold getNoteStatus, try_catch, consumedNotePda, noteLockPda, fixed32. rewrite (fixed_Ok _ _ Hl).
    cbn [mbind res_bind]. unfold liftR, mbind, M_bind. rewrite Hread. unfold ledger.
    destruct (decide (_ = _)) as [_|Hn]; [|by destruct Hn]. destruct (decide (Some a ≠ None)) as [_|Hn]; [done|by destruct Hn].
  - intros lock Hlock. unfold withdraw_slot_guards, ledger. rewrite decide_True by done. cbn [owned_by].
    rewrite (bool_decide_eq_false_2 _ Ho), Hlock. done.
Qed.

Definition dusty_account : AccountInfo := {| ai_data := []; ai_owner := Toy.key_of (replicate 32 x01) |}.

Definition dusty_client : DarkPoolClient () :=
  {| cl_programId := Toy.zero_key; cl_matchingEngineProgramId := None; cl_perRpcUrl := "";
     cl_seedMode := wallet_signature (λ m, mret m) None; cl_randomBytes n := mret (replicate n x00);
     cl_tradingOffset := None; cl_ownerBlinding := 5;
     cl_providers :=
       {| getAccountInfo pk := mret (if decide (pk = (@findProgramAddressSync Toy.toy_web3
            [CONSUMED_NOTE_SEED; replicate 32 x07] Toy.zero_key).1) then Some dusty_account else None);
          sendAndConfirm _ := mret "sig"; getInclusionProof _ := throw (Error "no proof") |};
     cl_zkProver := UnimplementedProverSuite None |}.

Lemma getNoteStatus_ignores_owner_witness :
  (@getNoteStatus Toy.toy_web3 _ dusty_client (replicate 32 x07) tt).1 = Ok consumed.
Proof.
  refine (proj1 (@getNoteStatus_ignores_owner Toy.toy_crypto Toy.toy_web3 _ dusty_client (replicate 32 x07)
    dusty_account tt eq_refl _ _)).
  - vm_compute. discriminate.
  - intros pk []. reflexivity.
Defined.
