(* ===== verification/Deposit.v ===== *)
(** The deposit pipeline ([packages/sdk/src/utxo/deposit.ts]) and the handler it
    calls ([programs/vault/src/instructions/deposit.rs],
    [crates/darkpool-crypto/src/note.rs]). *)

From S2P Require Import Prelude Bytes Errors Externals Keys Note.
From S2P Require Import Borsh VaultClient VaultProgram Merkle MerkleShadow VaultTree Client.

Local Open Scope Z_scope.

(** ** The pipeline *)

Record DepositParams (S : Type) := {
  dp_depositor : PublicKey; dp_tokenMint : bytes; dp_amount : Z; dp_depositorTokenAccount : PublicKey;
  dp_nonce : Z; dp_tokenProgramId : option PublicKey; dp_callbacks : option (TransactionCallbacks S) }.
Arguments dp_depositor {S}.
Arguments dp_tokenMint {S}.
Arguments dp_amount {S}.
Arguments dp_depositorTokenAccount {S}.
Arguments dp_nonce {S}.
Arguments dp_tokenProgramId {S}.
Arguments dp_callbacks {S}.

Record DepositReceipt := {
  dr_signature : string; dr_leafIndex : Z; dr_noteCommitment : bytes; dr_notePlaintext : Note }.

Section deposit.
Context `{NodeCrypto} `{Poseidon} `{Web3} {S : Type}.

Definition TOKEN_PROGRAM_ID : PublicKey := publicKeyFromBase58 "TokenkegQfeZyiNwAJbNbGKPFXCWuBvf9Ss623VQ5DA".

Definition getDepositFunction (client : DarkPoolClient S) (params : DepositParams S)
    : M (World S) DepositReceipt :=
  _ ← guard_throw (params.(dp_amount) <=? 0) (DarkPoolError parameter "deposit amount must be > 0" None);
  _ ← guard_throw (negb (length params.(dp_tokenMint) =? 32)%nat)
        (DarkPoolError parameter "tokenMint must be 32 bytes" None);
  keys ← getResolvedKeys client;
  (* merkle-position-fetch *)
  _ ← outside (run_pre params.(dp_callbacks) "merkle-position-fetch");
  let vaultPda := (vaultConfigPda client.(cl_programId)).1 in
  info ← outside (client.(cl_providers).(getAccountInfo) vaultPda);
  data ← match info with
         | Some info => mret info.(ai_data)
         | None => throw (DarkPoolError merkle_position_fetch
                            "vault_config not initialised — deploy/init the program first" None)
         end;
  _ ← guard_throw (length data <? 112)%nat
        (DarkPoolError merkle_position_fetch ("vault_config data too small: " +:+ pretty (length data)) None);
  leafIndex ← liftR (readU64 data 104);
  (* note-build *)
  _ ← outside (run_pre params.(dp_callbacks) "note-build");
  blindingR ← liftR (deriveBlindingFactor keys.(masterSeed) leafIndex);
  let owner := ownerCommitment keys.(rk_spendingKey) keys.(rk_ownerBlinding) in
  nonceBytes ← liftR (bn254ToBE32 params.(dp_nonce));
  blindingBytes ← liftR (bn254ToBE32 blindingR);
  ownerBytes ← liftR (bn254ToBE32 owner);
  let note := {| tokenMint := params.(dp_tokenMint); amount := params.(dp_amount);
                 ownerCommitment_ := owner; nonce := params.(dp_nonce); Note.blindingR := blindingR |} in
  commitment ← liftR (noteCommitment note);
  (* instruction-build *)
  _ ← outside (run_pre params.(dp_callbacks) "instruction-build");
  tokenMintPk ← liftR (publicKeyFromBytes params.(dp_tokenMint));
  ix ← liftR (buildDepositInstruction
    {| de_programId := client.(cl_programId); depositor := params.(dp_depositor);
       de_tokenMint := tokenMintPk; depositorTokenAccount := params.(dp_depositorTokenAccount);
       de_tokenProgramId := default TOKEN_PROGRAM_ID params.(dp_tokenProgramId);
       de_amount := params.(dp_amount); de_ownerCommitment := ownerBytes; de_nonce := nonceBytes;
       de_blindingR := blindingBytes |});
  (* transaction-send *)
  _ ← outside (run_pre params.(dp_callbacks) "transaction-send");
  signature ← outside (client.(cl_providers).(sendAndConfirm) [ix]);
  _ ← outside (run_post params.(dp_callbacks) "transaction-send" signature);
  mret {| dr_signature := signature; dr_leafIndex := leafIndex; dr_noteCommitment := commitment;
          dr_notePlaintext := note |}.
End deposit.

(** ** The handler *)

Definition CryptoError (name : string) : exn := EError "CryptoError" name.

Section handler.
Context `{Poseidon}.

Definition fr_from_be_bytes (bs : bytes) : res Z :=
  _ ← throw_if (negb (length bs =? 32)%nat) (CryptoError "InvalidByteLength");
  _ ← throw_if (BN254_R <=? be_val bs) (CryptoError "NotInField");
  Ok (be_val bs).

Definition pubkey_to_fr_pair (pk : bytes) : Z * Z := (be_val (drop 16 pk), be_val (take 16 pk)).

Definition commitment_from_fields (token_mint : bytes) (amount : Z) (owner_commitment nonce blinding_r : bytes)
    : res bytes :=
  let '(mint_lo, mint_hi) := pubkey_to_fr_pair token_mint in
  owner_fr ← fr_from_be_bytes owner_commitment;
  nonce_fr ← fr_from_be_bytes nonce;
  blinding_fr ← fr_from_be_bytes blinding_r;
  Ok (be_bytes 32 (poseidon [mint_lo; mint_hi; amount; owner_fr; nonce_fr; blinding_fr])).

Record NoteCreated := {
  nc_leaf_index : Z; nc_commitment : bytes; nc_token_mint : bytes; nc_amount : Z; nc_new_root : bytes }.

(** The handler on the vault's tree; the token transfer is the token program's. *)
Definition deposit_handler (cfg : VaultConfig) (token_mint : bytes) (amount : Z)
    (owner_commitment nonce blinding_r : bytes) : res (NoteCreated * VaultConfig) :=
  _ ← throw_if (negb (0 <? amount)) (VaultError "ZeroAmount");
  commitment ← match commitment_from_fields token_mint amount owner_commitment nonce blinding_r with
               | Ok c => Ok c
               | Throw _ => Throw (VaultError "MalformedPublicInputs")
               end;
  let leaf_index := cfg.(leaf_count) in
  r ← append_leaf cfg commitment;
  let '(new_root, cfg) := r in
  Ok ({| nc_leaf_index := leaf_index; nc_commitment := commitment; nc_token_mint := token_mint;
         nc_amount := amount; nc_new_root := new_root |}, cfg).
End handler.

(** The account data of a [VaultConfig]: the fields up to [leaf_count], after the
    8-byte discriminator, and the rest. *)
Definition vault_config_data (disc : bytes) (cfg : VaultConfig) (rest : bytes) : bytes :=
  concat [disc; cfg.(admin); cfg.(tee_pubkey); cfg.(root_key); le_bytes 8 cfg.(leaf_count); rest].

(** ** Lemmas *)

Section deposit_lemmas.
Context `{Poseidon} `{!PoseidonLaws}.

Lemma fr_from_be_bytes_be x : 0 ≤ x < BN254_R → fr_from_be_bytes (be_bytes 32 x) = Ok x.
Proof.
  intros Hx. unfold fr_from_be_bytes. rewrite length_be_bytes, be_val_field_bytes by done.
  rewrite (proj2 (Z.leb_gt _ _)) by lia. done.
Qed.

(** The client's commitment of a note is the one the program computes from the
    serialised fields. *)
Lemma commitment_matches n :
  length n.(tokenMint) = 32%nat → 0 ≤ n.(ownerCommitment_) < BN254_R →
  0 ≤ n.(nonce) < BN254_R → 0 ≤ n.(Note.blindingR) < BN254_R →
  noteCommitment n =
  commitment_from_fields n.(tokenMint) n.(amount) (be_bytes 32 n.(ownerCommitment_))
    (be_bytes 32 n.(nonce)) (be_bytes 32 n.(Note.blindingR)).
Proof.
  intros Hm Ho Hn Hb. unfold noteCommitment, commitment_from_fields. rewrite pubkeyToFrPair_32 by done.
  cbn [mbind res_bind]. unfold pubkey_to_fr_pair. rewrite !fr_from_be_bytes_be by done.
  cbn [mbind res_bind]. apply poseidonHashBytesBE_spec.
Qed.

Lemma bn254ToBE32_inv x bs : bn254ToBE32 x = Ok bs → bs = be_bytes 32 x ∧ 0 ≤ x < BN254_R.
Proof. rewrite bn254ToBE32_spec. case_decide; [|done]. by intros [= <-]. Qed.

Lemma commitment_field tm a o n b c : commitment_from_fields tm a o n b = Ok c → field_bytes c.
Proof.
  unfold commitment_from_fields, pubkey_to_fr_pair. cbn beta iota zeta. intros Hc. inv_res. subst c. split; [apply length_be_bytes|].
  rewrite be_val_field_bytes by apply poseidon_range. apply poseidon_range.
Qed.

Lemma deposit_handler_appends cfg l tm a o n b c :
  vault_repr cfg l → 0 < a → commitment_from_fields tm a o n b = Ok c → (length l < 2 ^ VaultTree.MERKLE_DEPTH)%nat →
  ∃ ev cfg', deposit_handler cfg tm a o n b = Ok (ev, cfg') ∧ vault_repr cfg' (l ++ [c]) ∧
    ev.(nc_leaf_index) = Z.of_nat (length l) ∧ ev.(nc_commitment) = c ∧ ev.(nc_new_root) = vault_root (l ++ [c]).
Proof.
  intros Hv Ha Hc Hlt. destruct (append_leaf_repr cfg l c Hv (commitment_field _ _ _ _ _ _ Hc) Hlt) as (cfg' & Hap & Hv').
  unfold deposit_handler. rewrite (proj2 (Z.ltb_lt 0 a) Ha). cbn [negb throw_if mbind res_bind]. rewrite Hc.
  eexists _, cfg'. split; [eapply bind_Ok_eq; [reflexivity|]; eapply bind_Ok_eq; [exact Hap|reflexivity]|]. cbn [nc_leaf_index nc_commitment nc_new_root].
  by rewrite (repr_count _ _ (proj1 Hv)).
Qed.
End deposit_lemmas.

Lemma vault_config_leaf_count disc cfg rest :
  length disc = 8%nat → length cfg.(admin) = 32%nat → length cfg.(tee_pubkey) = 32%nat →
  length cfg.(root_key) = 32%nat → 0 ≤ cfg.(leaf_count) < U64 →
  readU64 (vault_config_data disc cfg rest) 104 = Ok cfg.(leaf_count).
Proof.
  intros. unfold vault_config_data.
  eapply (readU64_pieces _ [8; 32; 32; 32; 8; length rest]%nat 4); [|reflexivity|reflexivity|done].
  cbn [fmap list_fmap]. rewrite length_le_bytes. congruence.
Qed.

(** A public key from 32 bytes. *)
Lemma publicKeyFromBytes_len `{Web3} `{!Web3Laws} bs pk :
  length bs = 32%nat → publicKeyFromBytes bs = Ok pk → toBytes pk = bs.
Proof.
  intros Hl Hpk.
  set (pk' := {| toBytes := bs; toBytes_length := bool_decide_eq_true_2 _ Hl |}).
  pose proof (publicKeyFromBytes_32 pk') as Hlaw. cbn [toBytes pk'] in Hlaw. rewrite Hpk in Hlaw.
  apply Ok_inj in Hlaw as ->. reflexivity.
Qed.

Definition config_wf (disc : bytes) (cfg : VaultConfig) : Prop :=
  length disc = 8%nat ∧ length cfg.(admin) = 32%nat ∧ length cfg.(tee_pubkey) = 32%nat ∧
  length cfg.(root_key) = 32%nat.

(** What a successful deposit did: the account it read, the instruction it sent
    and the four arguments in it. *)
Definition deposit_sent `{NodeCrypto} `{Poseidon} `{Web3} {S} (client : DarkPoolClient S)
    (params : DepositParams S) (receipt : DepositReceipt) (data : bytes) (seed : bytes)
    (p : BuildDepositParams) : Prop :=
  (∃ owner s1 s2, client.(cl_providers).(getAccountInfo) (vaultConfigPda client.(cl_programId)).1 s1 =
     (Ok (Some {| ai_data := data; ai_owner := owner |}), s2)) ∧
  (∃ ix s1 s2, buildDepositInstruction p = Ok ix ∧
     client.(cl_providers).(sendAndConfirm) [ix] s1 = (Ok receipt.(dr_signature), s2)) ∧
  p.(de_programId) = client.(cl_programId) ∧ publicKeyFromBytes params.(dp_tokenMint) = Ok p.(de_tokenMint) ∧
  p.(depositor) = params.(dp_depositor) ∧ p.(de_amount) = params.(dp_amount) ∧
  readU64 data 104 = Ok receipt.(dr_leafIndex) ∧
  let note := receipt.(dr_notePlaintext) in
  noteCommitment note = Ok receipt.(dr_noteCommitment) ∧
  note.(tokenMint) = params.(dp_tokenMint) ∧ note.(amount) = params.(dp_amount) ∧
  note.(nonce) = params.(dp_nonce) ∧
  deriveBlindingFactor seed receipt.(dr_leafIndex) = Ok note.(Note.blindingR) ∧
  (∃ sk, deriveSpendingKey seed = Ok sk ∧
     note.(ownerCommitment_) = ownerCommitment sk client.(cl_ownerBlinding)) ∧
  bn254ToBE32 note.(ownerCommitment_) = Ok p.(de_ownerCommitment) ∧
  bn254ToBE32 note.(nonce) = Ok p.(de_nonce) ∧ bn254ToBE32 note.(Note.blindingR) = Ok p.(de_blindingR) ∧
  p.(de_tokenProgramId) = default TOKEN_PROGRAM_ID params.(dp_tokenProgramId).

Lemma getResolvedKeys_Ok `{NodeCrypto} {S} (c : DarkPoolClient S) w ks w' :
  getResolvedKeys c w = (Ok ks, w') →
  deriveSpendingKey ks.(masterSeed) = Ok ks.(rk_spendingKey) ∧ ks.(rk_ownerBlinding) = c.(cl_ownerBlinding) ∧
  w'.1 = Some ks.(masterSeed).
Proof.
  intros Hk. unfold getResolvedKeys in Hk. inv_steps. unfold mret, M_ret in Hk. injection Hk as <- <-.
  split; [assumption|]. split; [reflexivity|]. by apply resolvedSeed_cached in Hm as [? _].
Qed.

Lemma deposit_run_Ok `{NodeCrypto} `{Poseidon} `{Web3} {S} (client : DarkPoolClient S) params w receipt w' :
  getDepositFunction client params w = (Ok receipt, w') →
  0 < params.(dp_amount) ∧ length params.(dp_tokenMint) = 32%nat ∧
  ∃ data seed p, w'.1 = Some seed ∧ (112 <= length data)%nat ∧ deposit_sent client params receipt data seed p.
Proof.
  intros Hd. unfold getDepositFunction in Hd. inv_steps. apply Z.leb_gt in Hm.
  apply negb_false_iff, Nat.eqb_eq in Hm0. apply Nat.ltb_ge in Hm5.
  destruct (getResolvedKeys_Ok _ _ _ _ Hm1) as (Hsk & Hob & Hseed). inv_outside.
  destruct a3 as [[ai_d ai_o]|]; [|done]. unfold mret, M_ret in Hm4, Hd. injection Hm4 as <- <-. injection Hd as <- <-.
  split; [done|]. split; [done|]. exists ai_d, (masterSeed a1). eexists. split; [congruence|]. split; [done|].
  unfold deposit_sent. split; [eauto|]. split; [eexists _, _, _; split; [exact Hm15|eauto]|].
  cbn [de_programId de_tokenMint depositor de_amount dr_leafIndex dr_notePlaintext dr_noteCommitment tokenMint
       amount nonce Note.blindingR ownerCommitment_ de_ownerCommitment de_nonce de_blindingR de_tokenProgramId].
  rewrite <-Hob. repeat split; try assumption. by exists (rk_spendingKey a1).
Qed.

(** *** The calls of a run *)

Definition logged_deposit {S} (params : DepositParams S) : DepositParams (Logged S) :=
  {| dp_depositor := params.(dp_depositor); dp_tokenMint := params.(dp_tokenMint);
     dp_amount := params.(dp_amount); dp_depositorTokenAccount := params.(dp_depositorTokenAccount);
     dp_nonce := params.(dp_nonce); dp_tokenProgramId := params.(dp_tokenProgramId);
     dp_callbacks := logged_callbacks <$> params.(dp_callbacks) |}.

Section deposit_calls.
Context `{NodeCrypto} `{Poseidon} `{Web3} {S : Type}.
Implicit Types (client : DarkPoolClient S) (params : DepositParams S).

(** The calls before the transaction, after the seed is resolved. *)
Definition deposit_reads client params : list Call :=
  pre_calls params.(dp_callbacks) "merkle-position-fetch" ++
  CallGetAccountInfo (vaultConfigPda client.(cl_programId)).1 ::
  pre_calls params.(dp_callbacks) "note-build" ++ pre_calls params.(dp_callbacks) "instruction-build" ++
  pre_calls params.(dp_callbacks) "transaction-send" ++ [].

(** The instruction a deposit may send. *)
Definition deposit_ix client params (ix : TransactionInstruction) : Prop :=
  ∃ p, buildDepositInstruction p = Ok ix ∧ p.(de_programId) = client.(cl_programId) ∧
    p.(depositor) = params.(dp_depositor) ∧ p.(de_amount) = params.(dp_amount) ∧
    publicKeyFromBytes params.(dp_tokenMint) = Ok p.(de_tokenMint) ∧
    bn254ToBE32 params.(dp_nonce) = Ok p.(de_nonce).

(** The transaction is sent once; a failed one has no [post] callback. *)
Definition sent_once (cbs : option (TransactionCallbacks S)) (ok_ix : TransactionInstruction → Prop)
    {A} (r : res A) (tr : list Call) : Prop :=
  ∃ ix, ok_ix ix ∧
    ((is_Ok r = false ∧ tr = [CallSend [ix]]) ∨
     (∃ sig, tr = CallSend [ix] :: post_calls cbs "transaction-send" sig)).

Lemma deposit_calls client params :
  0 < params.(dp_amount) → length params.(dp_tokenMint) = 32%nat →
  logs (getDepositFunction (logged_client client) (logged_deposit params))
    (λ r tr, ∃ seeds t, tr = seeds ++ t ∧ Forall (CallSeed =.) seeds ∧
       within (deposit_reads client params) (sent_once params.(dp_callbacks) (deposit_ix client params)) r t).
Proof.
  intros Ha Hm. unfold getDepositFunction. cbn [logged_deposit dp_amount dp_tokenMint dp_callbacks].
  apply logs_passed; [by apply Z.leb_gt|]. apply logs_passed; [by rewrite Hm|].
  apply logs_keys. intros keys. apply logs_pre. apply logs_call. intros info.
  apply (logs_step _ _ []); [|intros data _].
  { intros v r v'. destruct info; intros [= <- <-]; by rewrite app_nil_r. }
  apply logs_guard. intros _. apply logs_lift. intros li _. apply logs_pre.
  apply logs_lift. intros bR _. apply logs_lift. intros nB HnB. apply logs_lift. intros bB _.
  apply logs_lift. intros oB _. apply logs_lift. intros cm _. apply logs_pre.
  apply logs_lift. intros mint Hmint. apply logs_lift. intros ix Hix. apply logs_pre. apply logs_rest.
  intros v r v' Hr. assert (Hok : deposit_ix client params ix) by (eexists; split; [exact Hix|done]).
  inv_M Hr; apply outside_logged in Hm0.
  { eexists. split; [exact Hm0|]. subst r. exists ix. split; [done|]. by left. }
  inv_M Hr; apply run_post_logged in Hm1.
  all: rewrite Hm0, <-app_assoc in Hm1.
  - eexists. split; [exact Hm1|]. exists ix. split; [done|]. right. by eexists.
  - injection Hr as <- <-. eexists. split; [exact Hm1|]. exists ix. split; [done|]. right. by eexists.
Qed.
End deposit_calls.

(** ** Properties *)


(** A deposit over a ledger that holds the account data of an empty vault. *)
Definition sample_vault_data : bytes := replicate 112 x00.

Definition deposit_client : DarkPoolClient () :=
  {| cl_programId := Toy.zero_key; cl_matchingEngineProgramId := None; cl_perRpcUrl := "";
     cl_seedMode := wallet_signature (λ m, mret m) None; cl_randomBytes n := mret (replicate n x00);
     cl_tradingOffset := None; cl_ownerBlinding := 5;
     cl_providers :=
       {| getAccountInfo _ := mret (Some {| ai_data := sample_vault_data; ai_owner := Toy.zero_key |});
          sendAndConfirm _ := mret "sig"; getInclusionProof _ := throw (Error "no proof") |};
     cl_zkProver := UnimplementedProverSuite None |}.

Definition sample_deposit : DepositParams () :=
  {| dp_depositor := Toy.key_of (replicate 32 x02); dp_tokenMint := replicate 32 x03; dp_amount := 1000;
     dp_depositorTokenAccount := Toy.key_of (replicate 32 x04); dp_nonce := 7; dp_tokenProgramId := None;
     dp_callbacks := None |}.


(** Whatever the providers do, a deposit with bad parameters makes no call
    at all and throws a "parameter" error, and any other deposit resolves the
    seed, then makes its calls in the documented order (progress callback, vault
    account read, callbacks) and stops at the first failure; it sends at most one
    transaction, only after all of them succeeded, holding one deposit
    instruction with the caller's mint, amount and nonce; [post] runs only after
    the transaction is confirmed. *)
Theorem deposit_calls_in_order `{NodeCrypto} `{Poseidon} `{Web3} {S} (client : DarkPoolClient S) params w r w' :
  getDepositFunction (logged_client client) (logged_deposit params) w = (r, w') →
  if decide (0 < params.(dp_amount) ∧ length params.(dp_tokenMint) = 32%nat) then
    ∃ seeds t, calls_of w' = calls_of w ++ seeds ++ t ∧ Forall (CallSeed =.) seeds ∧
      within (deposit_reads client params) (sent_once params.(dp_callbacks) (deposit_ix client params)) r t
  else w' = w ∧ ∃ m, r = Throw (EDark parameter m None).
Proof.
  intros Hr. case_decide as Hp.
  - destruct Hp as [Ha Hm]. destruct (deposit_calls client params Ha Hm w r w' Hr) as (tr & Htr & seeds & t & -> & ?).
    by exists seeds, t.
  - unfold getDepositFunction in Hr. cbn [logged_deposit dp_amount dp_tokenMint] in Hr.
    destruct (Z.leb_spec params.(dp_amount) 0) as [Ha|Ha]; [injection Hr as <- <-; eauto|].
    destruct (Nat.eqb_spec (length params.(dp_tokenMint)) 32) as [Hm|Hm]; [tauto|injection Hr as <- <-; eauto].
Qed.

Lemma deposit_calls_in_order_witness :
  ∃ r w', @getDepositFunction Toy.toy_crypto Toy.toy_Poseidon Toy.toy_web3 _ (logged_client deposit_client)
            (logged_deposit sample_deposit) (None, ([], tt)) = (r, w') ∧
    ∃ seeds t, calls_of w' = seeds ++ t ∧ Forall (CallSeed =.) seeds.
Proof.
  destruct (@getDepositFunction Toy.toy_crypto Toy.toy_Poseidon Toy.toy_web3 _ (logged_client deposit_client)
            (logged_deposit sample_deposit) (None, ([], tt))) as [r w'] eqn:E.
  exists r, w'. split; [reflexivity|].
  pose proof (@deposit_calls_in_order Toy.toy_crypto Toy.toy_Poseidon Toy.toy_web3 _ deposit_client sample_deposit
    _ _ _ E) as Hc.
  rewrite decide_True in Hc by (split; reflexivity). destruct Hc as (seeds & t & Ht & Hs & _).
  exists seeds, t. split; [exact Ht|exact Hs].
Defined.

(** There is no upper bound on the amount: from 2^64 on the instruction
    carries the amount modulo 2^64, and the commitment the program computes and
    appends is not the receipt's, unless the two are a Poseidon collision. *)
Theorem deposit_amount_wraps `{NodeCrypto} `{!NodeCryptoLaws} `{Poseidon} `{!PoseidonLaws} `{Web3}
    {S} (client : DarkPoolClient S) params w receipt w' :
  distinct_discriminators (fst <$> vault_table) →
  getDepositFunction client params w = (Ok receipt, w') → U64 <= params.(dp_amount) →
  ∃ ix o n b c,
    (accepted_as client.(cl_programId) ix (VDeposit (params.(dp_amount) mod U64) o n b) ↔
     default TOKEN_PROGRAM_ID params.(dp_tokenProgramId) = token_program) ∧
    (∃ s1 s2, client.(cl_providers).(sendAndConfirm) [ix] s1 = (Ok receipt.(dr_signature), s2)) ∧
    commitment_from_fields params.(dp_tokenMint) (params.(dp_amount) mod U64) o n b = Ok c ∧
    (c = receipt.(dr_noteCommitment) → ∃ p, collides p).
Proof.
  intros Hd Hrun Hu. apply deposit_run_Ok in Hrun as (Hpos & Htm & data & seed & p & Hseed & _ & Hs).
  destruct Hs as (Hread & (ix & s1 & s2 & Hix & Hsend) & Hp1 & _ & _ & Hp4 & Hli & Hc & Hn1 & Hn2 & Hn3 &
    Hbl & (sk & Hsk & Hown) & Ho & Hn & Hb & Htok).
  apply bn254ToBE32_inv in Ho as [Ho Hor], Hn as [Hn Hnr], Hb as [Hb Hbr].
  exists ix, (de_ownerCommitment p), (de_nonce p), (de_blindingR p). eexists. split; [|split; [eauto|split]].
  - pose proof (build_vault_accepted_iff Hd (CDeposit p) ix Hix) as Hacc. cbn [call_program call_args call_token] in Hacc.
    by rewrite Hp1, Hp4, Htok in Hacc.
  - unfold commitment_from_fields, pubkey_to_fr_pair. rewrite Ho, Hn, Hb, !fr_from_be_bytes_be by done. reflexivity.
  - rewrite noteCommitment_spec in Hc by congruence. apply Ok_inj in Hc as <-. intros Heq.
    eexists (_, _). split; [|cbn [fst snd]; eapply field_bytes_inj; exact Heq].
    cbn [fst snd]. unfold note_inputs. rewrite Hn2. intros Hl. apply (f_equal (λ l : list Z, l !! 2%nat)) in Hl.
    cbn in Hl. injection Hl as Hmod.
    pose proof (Z.mod_pos_bound params.(dp_amount) U64 eq_refl). lia.
Qed.

Definition sample_huge_deposit : DepositParams () :=
  {| dp_depositor := Toy.key_of (replicate 32 x02); dp_tokenMint := replicate 32 x03; dp_amount := U64 + 1000;
     dp_depositorTokenAccount := Toy.key_of (replicate 32 x04); dp_nonce := 7; dp_tokenProgramId := None;
     dp_callbacks := None |}.

Lemma deposit_amount_wraps_witness :
  ∃ receipt ix o n b,
    (@getDepositFunction Toy.toy_crypto Toy.toy_Poseidon Toy.toy_web3 _ deposit_client sample_huge_deposit (None, tt)).1
      = Ok receipt ∧
    @accepted_as _ (@vault_program Toy.toy_web3) Toy.toy_crypto Toy.zero_key ix (VDeposit 1000 o n b).
Proof.
  assert (Hd : @distinct_discriminators Toy.toy_crypto (fst <$> vault_table)).
  { unfold distinct_discriminators. apply (bool_decide_unpack _). vm_compute. exact I. }
  destruct (@getDepositFunction Toy.toy_crypto Toy.toy_Poseidon Toy.toy_web3 _ deposit_client sample_huge_deposit (None, tt))
    as [[receipt|e] w'] eqn:E.
  - destruct (@deposit_amount_wraps Toy.toy_crypto Toy.toy_crypto_laws Toy.toy_Poseidon Toy.toy_poseidon_laws
      Toy.toy_web3 _ deposit_client sample_huge_deposit (None, tt) receipt w' Hd E ltac:(vm_compute; discriminate))
      as (ix & o & n & b & c & Ha & _).
    exists receipt, ix, o, n, b. split; [reflexivity|]. by apply Ha.
  - exfalso. vm_compute in E. discriminate E.
Defined.
