(* ===== verification/VaultState.v ===== *)
(** The vault program's state machine ([programs/vault/src/instructions/*.rs]):
    the accounts it owns, every handler, and what holds in every reachable
    state.

    An account is named by the seed that tells accounts of its kind apart (a
    commitment, a nullifier, an order id), so "this PDA is not initialised" is
    "this seed is not in the map".  A handler that fails changes nothing: the
    transaction reverts. *)

From stdpp Require Import gmap.
From S2P Require Import Prelude Bytes Errors Externals Keys Note Borsh VaultClient.
From S2P Require Import VaultProgram Settlement SettleProgram Merkle MerkleShadow VaultTree Client Deposit.

Local Open Scope Z_scope.

#[global] Instance byte_countable : Countable byte :=
  inj_countable Byte.to_N Byte.of_N Byte.of_to_N.

Record NoteLock := { lk_order_id : bytes; lk_expiry_slot : Z; lk_locked_by : bytes; lk_amount : Z }.
Record ConsumedNoteEntry := { ce_match_id : bytes; ce_consumed_slot : Z }.
Record WalletEntry := { we_owner : bytes; we_created_slot : Z }.

Record VaultState := {
  vs_config : VaultConfig;
  vs_locks : gmap bytes NoteLock;
  vs_consumed : gmap bytes ConsumedNoteEntry;
  vs_nullifiers : gmap bytes Z;              (** nullifier to the slot it was spent in *)
  vs_wallets : gmap bytes WalletEntry;
  vs_tokens : gmap bytes Z;                  (** mint to the balance of the vault's token account *)
  vs_funded : gset bytes;                    (** notes whose lock PDA holds lamports without being a lock *)
}.

Definition with_config (st : VaultState) (cfg : VaultConfig) : VaultState :=
  {| vs_config := cfg; vs_locks := st.(vs_locks); vs_consumed := st.(vs_consumed);
     vs_nullifiers := st.(vs_nullifiers); vs_wallets := st.(vs_wallets); vs_tokens := st.(vs_tokens); vs_funded := st.(vs_funded) |}.
Definition with_locks (st : VaultState) (locks : gmap bytes NoteLock) : VaultState :=
  {| vs_config := st.(vs_config); vs_locks := locks; vs_consumed := st.(vs_consumed);
     vs_nullifiers := st.(vs_nullifiers); vs_wallets := st.(vs_wallets); vs_tokens := st.(vs_tokens); vs_funded := st.(vs_funded) |}.

Definition with_funded (st : VaultState) (funded : gset bytes) : VaultState :=
  {| vs_config := st.(vs_config); vs_locks := st.(vs_locks); vs_consumed := st.(vs_consumed);
     vs_nullifiers := st.(vs_nullifiers); vs_wallets := st.(vs_wallets); vs_tokens := st.(vs_tokens);
     vs_funded := funded |}.

(** Anyone may send lamports to the address of a lock, with the system program:
    a lock keeps them until it is closed, an address without a lock is then
    funded. *)
Definition fund_lock (note : bytes) (st : VaultState) : VaultState :=
  if bool_decide (is_Some (st.(vs_locks) !! note)) then st else with_funded st ({[note]} ∪ st.(vs_funded)).

Definition fund_locks (notes : list bytes) (st : VaultState) : VaultState := foldr fund_lock st notes.

(** Anchor's [init]: the account must not exist yet; lamports at its address are
    no obstacle. *)
Definition init {A} (m : gmap bytes A) (seed : bytes) (v : A) : res (gmap bytes A) :=
  match m !! seed with
  | Some _ => Throw (EError "Anchor" "AccountAlreadyInUse")
  | None => Ok (<[seed := v]> m)
  end.

(** An account that must exist. *)
Definition load {A} (m : gmap bytes A) (seed : bytes) : res A :=
  match m !! seed with
  | Some v => Ok v
  | None => Throw (EError "Anchor" "AccountNotInitialized")
  end.

(** [u64::checked_add] *)
Definition checked_add (a b : Z) : res Z :=
  if a + b <? U64 then Ok (a + b) else Throw (VaultError "ArithmeticOverflow").

Definition NONE_ID : bytes := replicate 16 x00.

Section handlers.
Context `{NodeCrypto} `{Poseidon} `{Web3}.

(** [groth16-solana]: proof and public inputs of each circuit. *)
Context (verify_spend verify_wallet : Groth16Proof → list bytes → bool).

(** [pubkey_pair_be32] and [u64_be32] *)
Definition pubkey_pair_be32 (pk : bytes) : bytes * bytes :=
  (replicate 16 x00 ++ drop 16 pk, replicate 16 x00 ++ take 16 pk).
Definition u64_be32 (v : Z) : bytes := replicate 24 x00 ++ be_bytes 8 v.

Definition withdraw_public_inputs (merkle_root nullifier token_mint : bytes) (amount : Z) : list bytes :=
  let '(mint_lo, mint_hi) := pubkey_pair_be32 token_mint in
  [merkle_root; nullifier; mint_lo; mint_hi; u64_be32 amount].

Definition create_wallet (owner : bytes) (slot : Z) (commitment : bytes) (proof : Groth16Proof)
    (st : VaultState) : res VaultState :=
  wallets ← init st.(vs_wallets) commitment {| we_owner := owner; we_created_slot := slot |};
  _ ← throw_if (negb (verify_wallet proof [commitment])) (VaultError "InvalidProof");
  Ok {| vs_config := st.(vs_config); vs_locks := st.(vs_locks); vs_consumed := st.(vs_consumed);
        vs_nullifiers := st.(vs_nullifiers); vs_wallets := wallets; vs_tokens := st.(vs_tokens); vs_funded := st.(vs_funded) |}.

(** [transfer_checked] into or out of the vault's token account of a mint; the
    other side of the transfer is the token program's. *)
Definition balance (st : VaultState) (mint : bytes) : Z := default 0 (st.(vs_tokens) !! mint).

Definition deposit (mint : bytes) (amount : Z) (owner_commitment nonce blinding_r : bytes)
    (st : VaultState) : res VaultState :=
  r ← deposit_handler st.(vs_config) mint amount owner_commitment nonce blinding_r;
  Ok {| vs_config := r.2; vs_locks := st.(vs_locks); vs_consumed := st.(vs_consumed);
        vs_nullifiers := st.(vs_nullifiers); vs_wallets := st.(vs_wallets);
        vs_tokens := <[mint := balance st mint + amount]> st.(vs_tokens);
        vs_funded := st.(vs_funded) |}.

Definition withdraw (mint : bytes) (slot : Z) (note_commitment nullifier merkle_root : bytes) (amount : Z)
    (proof : Groth16Proof) (st : VaultState) : res VaultState :=
  nullifiers ← init st.(vs_nullifiers) nullifier slot;
  _ ← throw_if (negb (0 <? amount)) (VaultError "ZeroAmount");
  _ ← throw_if (bool_decide (is_Some (st.(vs_consumed) !! note_commitment))) (VaultError "NoteAlreadyConsumed");
  _ ← throw_if (bool_decide (is_Some (st.(vs_locks) !! note_commitment))) (VaultError "NoteAlreadyLocked");
  _ ← throw_if (negb (contains_root st.(vs_config) merkle_root)) (VaultError "StaleMerkleRoot");
  _ ← throw_if (negb (verify_spend proof (withdraw_public_inputs merkle_root nullifier mint amount)))
        (VaultError "InvalidProof");
  _ ← throw_if (balance st mint <? amount) (EError "TokenError" "InsufficientFunds");
  Ok {| vs_config := st.(vs_config); vs_locks := st.(vs_locks); vs_consumed := st.(vs_consumed);
        vs_nullifiers := nullifiers; vs_wallets := st.(vs_wallets);
        vs_tokens := <[mint := balance st mint - amount]> st.(vs_tokens);
        vs_funded := st.(vs_funded) |}.

Definition lock_note (tee_authority : bytes) (slot : Z) (note_commitment order_id : bytes)
    (expiry_slot amount : Z) (st : VaultState) : res VaultState :=
  locks ← init st.(vs_locks) note_commitment
            {| lk_order_id := order_id; lk_expiry_slot := expiry_slot; lk_locked_by := tee_authority;
               lk_amount := amount |};
  _ ← throw_if (negb (bool_decide (tee_authority = st.(vs_config).(tee_pubkey)))) (VaultError "Unauthorized");
  _ ← throw_if (negb (slot <? expiry_slot)) (VaultError "InvalidExpirySlot");
  _ ← throw_if (negb (0 <? amount)) (VaultError "ZeroAmount");
  Ok (with_funded (with_locks st locks) (st.(vs_funded) ∖ {[note_commitment]})).

(** [close = rent_receiver] removes the account. *)
Definition release_lock (slot : Z) (note_commitment : bytes) (st : VaultState) : res VaultState :=
  lock ← load st.(vs_locks) note_commitment;
  _ ← throw_if (negb (lock.(lk_expiry_slot) <=? slot)) (VaultError "LockNotExpired");
  Ok (with_locks st (delete note_commitment st.(vs_locks))).

Definition set_protocol_config (signer_key protocol_owner : bytes) (fee_rate : Z) (st : VaultState)
    : res VaultState :=
  let cfg := st.(vs_config) in
  _ ← throw_if (10000 <? fee_rate) (VaultError "InvalidFeeRate");
  _ ← throw_if (negb (bool_decide (signer_key = cfg.(admin)))) (VaultError "Unauthorized");
  Ok (with_config st
    {| admin := cfg.(admin); tee_pubkey := cfg.(tee_pubkey); root_key := cfg.(root_key);
       leaf_count := cfg.(leaf_count); current_root := cfg.(current_root); roots := cfg.(roots);
       zero_subtree_roots := cfg.(zero_subtree_roots); right_path := cfg.(right_path);
       roots_head := cfg.(roots_head); protocol_owner_commitment := protocol_owner;
       fee_rate_bps := fee_rate |}).

Definition rotate_root_key (signer_key new_root_key : bytes) (st : VaultState) : res VaultState :=
  let cfg := st.(vs_config) in
  _ ← throw_if (negb (bool_decide (signer_key = cfg.(root_key)))) (VaultError "Unauthorized");
  _ ← throw_if (bool_decide (new_root_key = replicate 32 x00)) (VaultError "Unauthorized");
  Ok (with_config st
    {| admin := cfg.(admin); tee_pubkey := cfg.(tee_pubkey); root_key := new_root_key;
       leaf_count := cfg.(leaf_count); current_root := cfg.(current_root); roots := cfg.(roots);
       zero_subtree_roots := cfg.(zero_subtree_roots); right_path := cfg.(right_path);
       roots_head := cfg.(roots_head); protocol_owner_commitment := cfg.(protocol_owner_commitment);
       fee_rate_bps := cfg.(fee_rate_bps) |}).

Definition reset_merkle_tree (signer_key : bytes) (st : VaultState) : res VaultState :=
  cfg ← reset_merkle_tree_handler signer_key st.(vs_config);
  Ok (with_config st cfg).

(** ** Settlement *)

(** The checks of the handler on the two locks. *)
Definition settle_checks (lock_a lock_b : NoteLock) (payload : MatchResultPayload) : res () :=
  _ ← throw_if (negb (bool_decide (lock_a.(lk_order_id) = payload.(mp_orderIdA)))) (VaultError "NoteNotLockedForOrder");
  _ ← throw_if (negb (bool_decide (lock_b.(lk_order_id) = payload.(mp_orderIdB)))) (VaultError "NoteNotLockedForOrder");
  a ← checked_add payload.(mp_quoteAmount) payload.(mp_buyerChangeAmt);
  expected_a ← checked_add a payload.(mp_buyerFeeAmt);
  _ ← throw_if (negb (lock_a.(lk_amount) =? expected_a)) (VaultError "ConservationViolation");
  b ← checked_add payload.(mp_baseAmount) payload.(mp_sellerChangeAmt);
  expected_b ← checked_add b payload.(mp_sellerFeeAmt);
  _ ← throw_if (negb (lock_b.(lk_amount) =? expected_b)) (VaultError "ConservationViolation");
  let has_e := negb (bool_decide (payload.(mp_noteE) = ZERO_COMMITMENT)) in
  let has_f := negb (bool_decide (payload.(mp_noteF) = ZERO_COMMITMENT)) in
  _ ← throw_if (negb (Bool.eqb has_e (0 <? payload.(mp_buyerChangeAmt)))) (VaultError "ChangeNoteInconsistent");
  _ ← throw_if (negb (Bool.eqb has_f (0 <? payload.(mp_sellerChangeAmt)))) (VaultError "ChangeNoteInconsistent");
  _ ← throw_if (negb (bool_decide (payload.(mp_buyerRelockOrderId) = NONE_ID)) && negb has_e)
        (VaultError "RelockRequiresChangeNote");
  throw_if (negb (bool_decide (payload.(mp_sellerRelockOrderId) = NONE_ID)) && negb has_f)
    (VaultError "RelockRequiresChangeNote").

(** An output leaf that is appended only when it is not the zero commitment;
    [u64::MAX] stands for "no leaf". *)
Definition append_optional (cfg : VaultConfig) (new_root leaf : bytes) : res (Z * bytes * VaultConfig) :=
  if bool_decide (leaf = ZERO_COMMITMENT) then Ok (U64_MAX, new_root, cfg)
  else
    let idx := cfg.(leaf_count) in
    r ← append_leaf cfg leaf;
    Ok (idx, r.1, r.2).

(** [create_relock_pda]: unlike [init], it asks for an address without data and
    without lamports. *)
Definition create_relock (funded : gset bytes) (locks : gmap bytes NoteLock) (payer note order_id : bytes)
    (expiry amount : Z) : res (gmap bytes NoteLock) :=
  if bool_decide (order_id = NONE_ID) then Ok locks
  else _ ← throw_if (negb (bool_decide (note ∉ funded))) (VaultError "NoteAlreadyLocked");
       match locks !! note with
       | Some _ => Throw (VaultError "NoteAlreadyLocked")
       | None => Ok (<[note := {| lk_order_id := order_id; lk_expiry_slot := expiry; lk_locked_by := payer;
                                  lk_amount := amount |}]> locks)
       end.

Definition tee_forced_settle (tee_authority : bytes) (slot : Z) (tx : list TransactionInstruction)
    (current_ix_idx : nat) (payload : MatchResultPayload) (st : VaultState) : res (TradeSettledEvent * VaultState) :=
  (* the accounts struct *)
  lock_a ← load st.(vs_locks) payload.(mp_noteA);
  lock_b ← load st.(vs_locks) payload.(mp_noteB);
  let entry := {| ce_match_id := payload.(mp_matchId); ce_consumed_slot := slot |} in
  consumed ← init st.(vs_consumed) payload.(mp_noteA) entry;
  consumed ← init consumed payload.(mp_noteB) entry;
  nullifiers ← init st.(vs_nullifiers) payload.(mp_nullifierA) slot;
  nullifiers ← init nullifiers payload.(mp_nullifierB) slot;
  (* the handler *)
  let cfg := st.(vs_config) in
  _ ← throw_if (negb (bool_decide (tee_authority = cfg.(tee_pubkey)))) (VaultError "Unauthorized");
  _ ← throw_if (negb (verify_tee_signature tx current_ix_idx cfg.(tee_pubkey) (canonical_payload_hash payload)))
        (VaultError "InvalidTeeSignature");
  _ ← settle_checks lock_a lock_b payload;
  let leaf_c := cfg.(leaf_count) in
  c ← append_leaf cfg payload.(mp_noteC); let cfg := c.2 in
  let leaf_d := cfg.(leaf_count) in
  d ← append_leaf cfg payload.(mp_noteD);
  e ← append_optional d.2 d.1 payload.(mp_noteE);
  f ← append_optional e.2 e.1.2 payload.(mp_noteF);
  _ ← throw_if (negb (bool_decide (payload.(mp_noteFee) = ZERO_COMMITMENT)) &&
                bool_decide (f.2.(protocol_owner_commitment) = ZERO_COMMITMENT)) (VaultError "ProtocolOwnerUnset");
  fee ← append_optional f.2 f.1.2 payload.(mp_noteFee);
  locks ← create_relock st.(vs_funded) st.(vs_locks) tee_authority payload.(mp_noteE) payload.(mp_buyerRelockOrderId)
            payload.(mp_buyerRelockExpiry) payload.(mp_buyerChangeAmt);
  locks ← create_relock st.(vs_funded) locks tee_authority payload.(mp_noteF) payload.(mp_sellerRelockOrderId)
            payload.(mp_sellerRelockExpiry) payload.(mp_sellerChangeAmt);
  (* on exit, [close = tee_authority] on the two input locks *)
  Ok ({| ts_matchId := payload.(mp_matchId); ts_clearingPrice := payload.(mp_clearingPrice);
         ts_baseAmount := payload.(mp_baseAmount); ts_quoteAmount := payload.(mp_quoteAmount);
         ts_buyerChangeAmt := payload.(mp_buyerChangeAmt); ts_sellerChangeAmt := payload.(mp_sellerChangeAmt);
         ts_buyerFeeAmt := payload.(mp_buyerFeeAmt); ts_sellerFeeAmt := payload.(mp_sellerFeeAmt);
         ts_noteCleaf := leaf_c; ts_noteDleaf := leaf_d; ts_noteEleaf := e.1.1; ts_noteFleaf := f.1.1;
         ts_noteFeeLeaf := fee.1.1;
         ts_buyerRelockActive := negb (bool_decide (payload.(mp_buyerRelockOrderId) = NONE_ID));
         ts_sellerRelockActive := negb (bool_decide (payload.(mp_sellerRelockOrderId) = NONE_ID));
         ts_newRoot := fee.1.2 |},
      {| vs_config := fee.2; vs_locks := delete payload.(mp_noteB) (delete payload.(mp_noteA) locks);
         vs_consumed := consumed; vs_nullifiers := nullifiers; vs_wallets := st.(vs_wallets);
         vs_tokens := st.(vs_tokens); vs_funded := st.(vs_funded) |}).
End handlers.

(** ** Lemmas *)

Lemma init_Ok {A} (m : gmap bytes A) seed v m' : init m seed v = Ok m' ↔ m !! seed = None ∧ m' = <[seed := v]> m.
Proof. unfold init. destruct (m !! seed); split; [done|by intros [? _]|intros [= <-]; done|by intros [_ ->]]. Qed.

Lemma load_Ok {A} (m : gmap bytes A) seed v : load m seed = Ok v ↔ m !! seed = Some v.
Proof. unfold load. destruct (m !! seed); split; congruence. Qed.

Lemma checked_add_Ok a b c : checked_add a b = Ok c ↔ c = a + b ∧ a + b < U64.
Proof.
  unfold checked_add. destruct (Z.ltb_spec (a + b) U64); split; try done.
  - by intros [= <-].
  - by intros [-> _].
  - intros [_ ?]. lia.
Qed.

Lemma fund_locks_config notes st : (fund_locks notes st).(vs_config) = st.(vs_config).
Proof.
  induction notes as [|note notes IH]; [done|]. cbn [fund_locks foldr]. unfold fund_lock at 1.
  case_bool_decide; cbn [with_funded vs_config]; exact IH.
Qed.

(** What of a configuration a tree operation leaves alone. *)
Definition same_keys (cfg cfg' : VaultConfig) : Prop :=
  cfg'.(admin) = cfg.(admin) ∧ cfg'.(tee_pubkey) = cfg.(tee_pubkey) ∧ cfg'.(root_key) = cfg.(root_key) ∧
  cfg'.(protocol_owner_commitment) = cfg.(protocol_owner_commitment) ∧ cfg'.(fee_rate_bps) = cfg.(fee_rate_bps).

#[global] Instance same_keys_trans : Transitive same_keys.
Proof. intros c1 c2 c3 (?&?&?&?&?) (?&?&?&?&?). repeat split; congruence. Qed.
#[global] Instance same_keys_refl : Reflexive same_keys.
Proof. by repeat split. Qed.

Section state_lemmas.
Context `{Poseidon} `{!PoseidonLaws}.

Lemma append_loop_field n lvl right zeros idx cur r :
  append_loop (S n) lvl right zeros idx cur = Ok r → be_val cur < BN254_R.
Proof.
  assert (Hp : ∀ a b x, poseidon2_onchain a b = Ok x → be_val a < BN254_R ∧ be_val b < BN254_R).
  { intros a b x. unfold poseidon2_onchain. destruct (_ || _) eqn:E; [done|]. intros _.
    by apply orb_false_iff in E as [?%Z.leb_gt ?%Z.leb_gt]. }
  cbn [append_loop]. destruct (_ =? _).
  - intros (l & _ & (x & Hx & _)%res_bind_Ok)%res_bind_Ok. by apply Hp in Hx as [? ?].
  - intros (l & _ & (x & Hx & _)%res_bind_Ok)%res_bind_Ok. by apply Hp in Hx as [? ?].
Qed.

(** A successful append, from its result. *)
Lemma append_leaf_inv cfg l leaf root cfg' :
  vault_repr cfg l → length leaf = 32%nat → append_leaf cfg leaf = Ok (root, cfg') →
  (length l < 2 ^ VaultTree.MERKLE_DEPTH)%nat ∧ root = vault_root (l ++ [leaf]) ∧ vault_repr cfg' (l ++ [leaf]) ∧
  same_keys cfg cfg' ∧ cfg.(leaf_count) = Z.of_nat (length l) ∧ field_bytes leaf.
Proof.
  intros Hv Hlen Ha.
  assert (Hlt : (length l < 2 ^ VaultTree.MERKLE_DEPTH)%nat).
  { destruct (proj1 (Nat.lt_eq_cases _ _) (repr_max _ _ (proj1 Hv))) as [Hlt|Hfull]; [exact Hlt|].
    rewrite (append_leaf_full cfg l leaf (proj1 Hv) Hfull) in Ha. discriminate. }
  assert (Hf : field_bytes leaf).
  { split; [done|]. unfold append_leaf in Ha. apply res_bind_Ok in Ha as (u & _ & Ha).
    apply res_bind_Ok in Ha as (x & Hx & _). exact (append_loop_field 19 _ _ _ _ _ _ Hx). }
  assert (Hk : same_keys cfg cfg').
  { unfold append_leaf in Ha. apply res_bind_Ok in Ha as (u & _ & Ha).
    apply res_bind_Ok in Ha as ([cur right] & _ & Ha). apply res_bind_Ok in Ha as (u' & _ & Ha).
    injection Ha as <- <-. done. }
  destruct (append_leaf_repr cfg l leaf Hv Hf Hlt) as (cfg2 & Ha2 & Hv2).
  assert (E : (root, cfg') = (vault_root (l ++ [leaf]), cfg2)) by (apply Ok_inj; rewrite <-Ha; exact Ha2).
  injection E as -> ->. split; [exact Hlt|]. split; [reflexivity|]. split; [exact Hv2|]. split; [exact Hk|].
  split; [apply (repr_count _ _ (proj1 Hv))|exact Hf].
Qed.

(** The leaves an optional output adds. *)
Definition output (leaf : bytes) : list bytes := if bool_decide (leaf = ZERO_COMMITMENT) then [] else [leaf].

(** The position an event reports for an output: its index among the leaves, or
    [u64::MAX]. *)
Definition reported (l : list bytes) (leaf : bytes) (idx : Z) : Prop :=
  if bool_decide (leaf = ZERO_COMMITMENT) then idx = U64_MAX
  else 0 <= idx < Z.of_nat (2 ^ VaultTree.MERKLE_DEPTH) ∧ l !! Z.to_nat idx = Some leaf.

Lemma reported_app l1 l2 leaf idx : reported l1 leaf idx → reported (l1 ++ l2) leaf idx.
Proof.
  unfold reported. destruct (bool_decide _); [done|]. intros [? Hl]. split; [done|]. by apply lookup_app_l_Some.
Qed.

Lemma append_optional_inv cfg l root leaf r :
  vault_repr cfg l → length leaf = 32%nat → root = vault_root l → append_optional cfg root leaf = Ok r →
  vault_repr r.2 (l ++ output leaf) ∧ r.1.2 = vault_root (l ++ output leaf) ∧ same_keys cfg r.2 ∧
  reported (l ++ output leaf) leaf r.1.1.
Proof.
  intros Hv Hlen Hroot. unfold append_optional, output, reported. destruct (bool_decide _).
  - intros [= <-]. rewrite app_nil_r. by split_and!.
  - intros Ha. apply res_bind_Ok in Ha as ([root' cfg'] & Ha & Hr). apply Ok_inj in Hr as <-. cbn [fst snd].
    destruct (append_leaf_inv _ _ _ _ _ Hv Hlen Ha) as (Hlt & -> & Hv' & Hk & Hc & _).
    split; [exact Hv'|]. split; [reflexivity|]. split; [exact Hk|]. rewrite Hc.
    split; [split; [apply Zle_0_nat|apply Nat2Z.inj_lt; exact Hlt]|].
    rewrite Nat2Z.id. by apply list_lookup_middle.
Qed.
End state_lemmas.

(** ** What a settlement does *)

Definition settle_outputs (p : MatchResultPayload) : list bytes :=
  [p.(mp_noteC); p.(mp_noteD)] ++ output p.(mp_noteE) ++ output p.(mp_noteF) ++ output p.(mp_noteFee).

(** The value under a lock is the sum of the trade leg, the change and the fee. *)
Definition conserves (lock : NoteLock) (leg change fee : Z) : Prop := lock.(lk_amount) = leg + change + fee.

(** The re-lock of a change note, when one is asked for. *)
Definition relocked (locks : gmap bytes NoteLock) (payer note order_id : bytes) (expiry amount : Z) : Prop :=
  order_id = NONE_ID ∨
  locks !! note = Some {| lk_order_id := order_id; lk_expiry_slot := expiry; lk_locked_by := payer;
                          lk_amount := amount |}.

Record settled `{Poseidon} (payer : bytes) (slot : Z) (p : MatchResultPayload) (l : list bytes)
    (st st' : VaultState) (ev : TradeSettledEvent) : Prop := {
  sd_locks : ∃ lock_a lock_b, st.(vs_locks) !! p.(mp_noteA) = Some lock_a ∧ st.(vs_locks) !! p.(mp_noteB) = Some lock_b ∧
    lock_a.(lk_order_id) = p.(mp_orderIdA) ∧ lock_b.(lk_order_id) = p.(mp_orderIdB) ∧
    conserves lock_a p.(mp_quoteAmount) p.(mp_buyerChangeAmt) p.(mp_buyerFeeAmt) ∧
    conserves lock_b p.(mp_baseAmount) p.(mp_sellerChangeAmt) p.(mp_sellerFeeAmt);
  sd_change : (p.(mp_noteE) ≠ ZERO_COMMITMENT ↔ 0 < p.(mp_buyerChangeAmt)) ∧
    (p.(mp_noteF) ≠ ZERO_COMMITMENT ↔ 0 < p.(mp_sellerChangeAmt));
  sd_fresh : st.(vs_consumed) !! p.(mp_noteA) = None ∧ st.(vs_consumed) !! p.(mp_noteB) = None ∧
    p.(mp_noteA) ≠ p.(mp_noteB) ∧
    st.(vs_nullifiers) !! p.(mp_nullifierA) = None ∧ st.(vs_nullifiers) !! p.(mp_nullifierB) = None ∧
    p.(mp_nullifierA) ≠ p.(mp_nullifierB);
  sd_consumed : st'.(vs_consumed) =
    <[p.(mp_noteB) := {| ce_match_id := p.(mp_matchId); ce_consumed_slot := slot |}]>
      (<[p.(mp_noteA) := {| ce_match_id := p.(mp_matchId); ce_consumed_slot := slot |}]> st.(vs_consumed));
  sd_nullifiers : st'.(vs_nullifiers) =
    <[p.(mp_nullifierB) := slot]> (<[p.(mp_nullifierA) := slot]> st.(vs_nullifiers));
  sd_rest : st'.(vs_wallets) = st.(vs_wallets) ∧ st'.(vs_tokens) = st.(vs_tokens) ∧
    same_keys st.(vs_config) st'.(vs_config);
  sd_tree : vault_repr st'.(vs_config) (l ++ settle_outputs p) ∧
    ev.(ts_newRoot) = vault_root (l ++ settle_outputs p) ∧
    ev.(ts_noteCleaf) = Z.of_nat (length l) ∧ ev.(ts_noteDleaf) = Z.of_nat (length l) + 1 ∧
    reported (l ++ settle_outputs p) p.(mp_noteE) ev.(ts_noteEleaf) ∧
    reported (l ++ settle_outputs p) p.(mp_noteF) ev.(ts_noteFleaf) ∧
    reported (l ++ settle_outputs p) p.(mp_noteFee) ev.(ts_noteFeeLeaf);
  sd_unlocked : st'.(vs_locks) !! p.(mp_noteA) = None ∧ st'.(vs_locks) !! p.(mp_noteB) = None ∧
    relocked st'.(vs_locks) payer p.(mp_noteE) p.(mp_buyerRelockOrderId) p.(mp_buyerRelockExpiry) p.(mp_buyerChangeAmt) ∧
    relocked st'.(vs_locks) payer p.(mp_noteF) p.(mp_sellerRelockOrderId) p.(mp_sellerRelockExpiry) p.(mp_sellerChangeAmt);
  sd_event : ev.(ts_matchId) = p.(mp_matchId) ∧ ev.(ts_clearingPrice) = p.(mp_clearingPrice) ∧
    ev.(ts_baseAmount) = p.(mp_baseAmount) ∧ ev.(ts_quoteAmount) = p.(mp_quoteAmount) ∧
    ev.(ts_buyerChangeAmt) = p.(mp_buyerChangeAmt) ∧ ev.(ts_sellerChangeAmt) = p.(mp_sellerChangeAmt) ∧
    ev.(ts_buyerFeeAmt) = p.(mp_buyerFeeAmt) ∧ ev.(ts_sellerFeeAmt) = p.(mp_sellerFeeAmt) ∧
    ev.(ts_buyerRelockActive) = negb (bool_decide (p.(mp_buyerRelockOrderId) = NONE_ID)) ∧
    ev.(ts_sellerRelockActive) = negb (bool_decide (p.(mp_sellerRelockOrderId) = NONE_ID));
}.

Lemma settle_checks_Ok lock_a lock_b p u :
  settle_checks lock_a lock_b p = Ok u →
  lock_a.(lk_order_id) = p.(mp_orderIdA) ∧ lock_b.(lk_order_id) = p.(mp_orderIdB) ∧
  conserves lock_a p.(mp_quoteAmount) p.(mp_buyerChangeAmt) p.(mp_buyerFeeAmt) ∧
  conserves lock_b p.(mp_baseAmount) p.(mp_sellerChangeAmt) p.(mp_sellerFeeAmt) ∧
  (p.(mp_noteE) ≠ ZERO_COMMITMENT ↔ 0 < p.(mp_buyerChangeAmt)) ∧
  (p.(mp_noteF) ≠ ZERO_COMMITMENT ↔ 0 < p.(mp_sellerChangeAmt)) ∧
  (p.(mp_buyerRelockOrderId) = NONE_ID ∨ 0 < p.(mp_buyerChangeAmt)) ∧
  (p.(mp_sellerRelockOrderId) = NONE_ID ∨ 0 < p.(mp_sellerChangeAmt)).
Proof.
  unfold settle_checks, conserves. intros Hc.
  assert (Hre : ∀ id note, negb (bool_decide (id = NONE_ID)) && negb (negb (bool_decide (note = ZERO_COMMITMENT))) = false →
    id = NONE_ID ∨ note ≠ ZERO_COMMITMENT).
  { intros id note. destruct (bool_decide_reflect (id = NONE_ID)), (bool_decide_reflect (note = ZERO_COMMITMENT)); auto. }
  assert (Hpos : ∀ b n, Bool.eqb (negb (bool_decide (b = ZERO_COMMITMENT))) (0 <? n) = true → (b ≠ ZERO_COMMITMENT ↔ 0 < n)).
  { intros b n. destruct (bool_decide_reflect (b = ZERO_COMMITMENT)), (Z.ltb_spec 0 n); cbn; split; try done; lia. }
  inv_res.
  repeat match goal with
  | H : negb (bool_decide _) = false |- _ => apply negb_false_iff, bool_decide_eq_true in H
  | H : negb (_ =? _) = false |- _ => apply negb_false_iff, Z.eqb_eq in H
  | H : negb (Bool.eqb _ _) = false |- _ => apply negb_false_iff, Hpos in H
  | H : checked_add _ _ = Ok _ |- _ => apply checked_add_Ok in H as [-> H]
  | H : _ && _ = false |- _ => apply Hre in H
  end.
  split_and!; tauto.
Qed.

Lemma create_relock_Ok funded locks payer note order_id expiry amount locks' :
  create_relock funded locks payer note order_id expiry amount = Ok locks' →
  (order_id = NONE_ID ∧ locks' = locks) ∨
  (order_id ≠ NONE_ID ∧ (note ∉ funded ∧ locks !! note = None) ∧
   locks' = <[note := {| lk_order_id := order_id; lk_expiry_slot := expiry; lk_locked_by := payer;
                         lk_amount := amount |}]> locks).
Proof.
  unfold create_relock. destruct (bool_decide_reflect (order_id = NONE_ID)); [intros [= <-]; by left|].
  intros (u & Hu & Hl)%res_bind_Ok. apply throw_if_Ok, negb_false_iff, bool_decide_eq_true in Hu.
  destruct (locks !! note) eqn:E; [done|]. injection Hl as <-. by right.
Qed.

Section settle_lemmas.
Context `{NodeCrypto} `{Poseidon} `{!PoseidonLaws} `{Web3}.

Lemma payload_notes_32 p : payload_sized p →
  length p.(mp_noteC) = 32%nat ∧ length p.(mp_noteD) = 32%nat ∧ length p.(mp_noteE) = 32%nat ∧
  length p.(mp_noteF) = 32%nat ∧ length p.(mp_noteFee) = 32%nat.
Proof. intros [H32 _]. decompose_Forall_hyps. by split_and!. Qed.

(** The five appends of a settlement. *)
Lemma settle_tree cfg l p c d e f fee :
  payload_sized p → vault_repr cfg l →
  append_leaf cfg p.(mp_noteC) = Ok c → append_leaf c.2 p.(mp_noteD) = Ok d →
  append_optional d.2 d.1 p.(mp_noteE) = Ok e → append_optional e.2 e.1.2 p.(mp_noteF) = Ok f →
  append_optional f.2 f.1.2 p.(mp_noteFee) = Ok fee →
  vault_repr fee.2 (l ++ settle_outputs p) ∧ fee.1.2 = vault_root (l ++ settle_outputs p) ∧
  cfg.(leaf_count) = Z.of_nat (length l) ∧ c.2.(leaf_count) = Z.of_nat (length l) + 1 ∧
  reported (l ++ settle_outputs p) p.(mp_noteE) e.1.1 ∧ reported (l ++ settle_outputs p) p.(mp_noteF) f.1.1 ∧
  reported (l ++ settle_outputs p) p.(mp_noteFee) fee.1.1 ∧ same_keys cfg f.2 ∧ same_keys cfg fee.2.
Proof.
  intros (X1 & X2 & X3 & X4 & X5)%payload_notes_32 Hv Hc Hd He Hf Hfee. destruct c as [rc c], d as [rd d]. cbn [fst snd] in Hd, He.
  destruct (append_leaf_inv _ _ _ _ _ Hv X1 Hc) as (_ & -> & Hvc & Kc & Lc & _).
  destruct (append_leaf_inv _ _ _ _ _ Hvc X2 Hd) as (_ & Rd & Hvd & Kd & Ld & _).
  destruct (append_optional_inv _ _ _ _ _ Hvd X3 Rd He) as (Hve & Re & Ke & Pe).
  destruct (append_optional_inv _ _ _ _ _ Hve X4 Re Hf) as (Hvf & Rf & Kf & Pf).
  destruct (append_optional_inv _ _ _ _ _ Hvf X5 Rf Hfee) as (Hvx & Rx & Kx & Px).
  assert (Hl : ((((l ++ [p.(mp_noteC)]) ++ [p.(mp_noteD)]) ++ output p.(mp_noteE)) ++ output p.(mp_noteF)) ++
    output p.(mp_noteFee) = l ++ settle_outputs p) by (unfold settle_outputs; by rewrite <-!(assoc_L (++))).
  rewrite Hl in Hvx, Rx, Px. cbn [fst snd] in *.
  assert (K : same_keys cfg f.2) by (etrans; [exact Kc|]; etrans; [exact Kd|]; etrans; [exact Ke|exact Kf]).
  split; [exact Hvx|]. split; [exact Rx|]. split; [exact Lc|]. split.
  { rewrite Ld, length_app. cbn [length]. lia. }
  split; [rewrite <-Hl; by do 2 apply reported_app|]. split; [rewrite <-Hl; by apply reported_app|].
  split; [exact Px|]. split; [exact K|]. by transitivity f.2.
Qed.

(** The locks after a settlement: the two inputs are gone, the re-locks are there. *)
Lemma settle_locks funded locks a b payer p locks1 locks2 :
  locks !! p.(mp_noteA) = Some a → locks !! p.(mp_noteB) = Some b →
  create_relock funded locks payer p.(mp_noteE) p.(mp_buyerRelockOrderId) p.(mp_buyerRelockExpiry) p.(mp_buyerChangeAmt)
    = Ok locks1 →
  create_relock funded locks1 payer p.(mp_noteF) p.(mp_sellerRelockOrderId) p.(mp_sellerRelockExpiry) p.(mp_sellerChangeAmt)
    = Ok locks2 →
  let final := delete p.(mp_noteB) (delete p.(mp_noteA) locks2) in
  final !! p.(mp_noteA) = None ∧ final !! p.(mp_noteB) = None ∧
  relocked final payer p.(mp_noteE) p.(mp_buyerRelockOrderId) p.(mp_buyerRelockExpiry) p.(mp_buyerChangeAmt) ∧
  relocked final payer p.(mp_noteF) p.(mp_sellerRelockOrderId) p.(mp_sellerRelockExpiry) p.(mp_sellerChangeAmt).
Proof.
  intros HA HB X1 X2 final. unfold relocked. apply create_relock_Ok in X1, X2.
  assert (Hdel : ∀ k, locks !! k = None → final !! k = locks2 !! k).
  { intros k Hk. subst final. rewrite !lookup_delete_ne by congruence. done. }
  split; [|split; [|split]].
  - subst final. destruct (decide (p.(mp_noteA) = p.(mp_noteB))) as [->|?]; simplify_map_eq; done.
  - subst final. by simplify_map_eq.
  - destruct X1 as [[? _]|(_ & [_ Hn] & ->)]; [by left|right]. rewrite Hdel by done.
    destruct X2 as [[_ ->]|(_ & [_ Hn2] & ->)]; [by simplify_map_eq|].
    rewrite lookup_insert_ne; [by simplify_map_eq|]. intros Heq. rewrite Heq in Hn2. by simplify_map_eq.
  - destruct X2 as [[? _]|(_ & [_ Hn2] & ->)]; [by left|right].
    destruct X1 as [[_ ->]|(_ & [_ Hn] & ->)]; [rewrite Hdel by done; by simplify_map_eq|].
    rewrite Hdel; [by simplify_map_eq|]. destruct (decide (p.(mp_noteE) = p.(mp_noteF))) as [He|]; [by rewrite <-He|].
    by rewrite lookup_insert_ne in Hn2.
Qed.

Lemma init_twice {A} (m : gmap bytes A) k1 k2 v m1 m2 :
  init m k1 v = Ok m1 → init m1 k2 v = Ok m2 →
  m !! k1 = None ∧ m !! k2 = None ∧ k1 ≠ k2 ∧ m2 = <[k2 := v]> (<[k1 := v]> m).
Proof.
  intros [X1 ->]%init_Ok [X2 ->]%init_Ok. destruct (decide (k1 = k2)) as [->|Hne]; [by simplify_map_eq|].
  rewrite lookup_insert_ne in X2 by done. done.
Qed.

Lemma settle_inv payer slot tx cur p st l ev st' :
  payload_sized p → vault_repr st.(vs_config) l →
  tee_forced_settle payer slot tx cur p st = Ok (ev, st') →
  settled payer slot p l st st' ev ∧ payer = st.(vs_config).(tee_pubkey) ∧
  verify_tee_signature tx cur st.(vs_config).(tee_pubkey) (canonical_payload_hash p) = true ∧
  (p.(mp_noteFee) ≠ ZERO_COMMITMENT → st.(vs_config).(protocol_owner_commitment) ≠ ZERO_COMMITMENT).
Proof.
  intros Hsz Hv Hs. unfold tee_forced_settle in Hs. inv_res.
  apply load_Ok in Ha, Ha0. destruct (init_twice _ _ _ _ _ _ Ha1 Ha2) as (F1 & F2 & F3 & Hcons).
  destruct (init_twice _ _ _ _ _ _ Ha3 Ha4) as (G1 & G2 & G3 & Hnull).
  apply negb_false_iff, bool_decide_eq_true in Ha5. apply negb_false_iff in Ha6.
  apply settle_checks_Ok in Ha7 as (C1 & C2 & C3 & C4 & C5 & C6 & _).
  destruct (settle_tree _ _ _ _ _ _ _ _ Hsz Hv Ha8 Ha9 Ha10 Ha11 Ha13) as (T1 & T2 & T3 & T4 & T5 & T6 & T7 & K & K').
  pose proof (settle_locks _ _ _ _ _ _ _ _ Ha Ha0 Ha14 Ha15) as HL.
  injection Hs as <- <-. split; [|split; [done|split; [done|]]].
  - split; cbn [vs_consumed vs_nullifiers vs_wallets vs_tokens vs_config vs_locks ts_newRoot ts_noteCleaf
      ts_noteDleaf ts_noteEleaf ts_noteFleaf ts_noteFeeLeaf ts_matchId ts_clearingPrice ts_baseAmount
      ts_quoteAmount ts_buyerChangeAmt ts_sellerChangeAmt ts_buyerFeeAmt ts_sellerFeeAmt ts_buyerRelockActive
      ts_sellerRelockActive].
    + exists a, a0. split_and!; assumption.
    + split; assumption.
    + split_and!; assumption.
    + exact Hcons.
    + exact Hnull.
    + split; [reflexivity|]. split; [reflexivity|exact K'].
    + split_and!; assumption.
    + exact HL.
    + split_and!; reflexivity.
  - intros Hfee Hzero. destruct K as (_ & _ & _ & Kp & _). rewrite <-Kp in Hzero.
    rewrite (bool_decide_eq_false_2 _ Hfee), (bool_decide_eq_true_2 _ Hzero) in Ha12. discriminate.
Qed.
End settle_lemmas.

(** ** The transition system *)

Section steps.
Context `{NodeCrypto} `{Poseidon} `{Web3}.
Context (verify_spend verify_wallet : Groth16Proof → list bytes → bool).

(** One successful instruction.  Anchor hands a handler byte arrays of their
    lengths and unsigned numbers. *)
Inductive vault_step (st st' : VaultState) : Prop :=
  | step_create_wallet owner slot c pf : create_wallet verify_wallet owner slot c pf st = Ok st' → vault_step st st'
  | step_deposit mint a o n b : deposit mint a o n b st = Ok st' → vault_step st st'
  | step_withdraw mint slot nc nf root a pf : withdraw verify_spend mint slot nc nf root a pf st = Ok st' → vault_step st st'
  | step_lock_note tee slot nc oid ex a : lock_note tee slot nc oid ex a st = Ok st' → vault_step st st'
  | step_release_lock slot nc : release_lock slot nc st = Ok st' → vault_step st st'
  | step_set_protocol_config k c f : is_32 c → 0 <= f → set_protocol_config k c f st = Ok st' → vault_step st st'
  | step_rotate_root_key k k' : is_32 k' → rotate_root_key k k' st = Ok st' → vault_step st st'
  | step_reset k : reset_merkle_tree k st = Ok st' → vault_step st st'
  | step_settle tee slot tx cur p ev : payload_sized p → tee_forced_settle tee slot tx cur p st = Ok (ev, st') →
      vault_step st st'
  | step_fund note : st' = fund_lock note st → vault_step st st'.

(** What every reachable state satisfies: the tree fields represent a leaf list,
    the fee rate is at most 100%, no balance is negative and every lock holds a
    positive amount. *)
Record vault_inv (st : VaultState) : Prop := {
  inv_tree : ∃ l, vault_repr st.(vs_config) l;
  inv_fee : st.(vs_config).(fee_rate_bps) <= 10000;
  inv_tokens : ∀ mint b, st.(vs_tokens) !! mint = Some b → 0 <= b;
  inv_locks : ∀ nc lock, st.(vs_locks) !! nc = Some lock → 0 < lock.(lk_amount);
}.

Definition initial (st : VaultState) : Prop :=
  ∃ a t r, is_32 a ∧ is_32 t ∧ is_32 r ∧ initialize_handler a t r = Ok st.(vs_config) ∧
    st.(vs_locks) = ∅ ∧ st.(vs_consumed) = ∅ ∧ st.(vs_nullifiers) = ∅ ∧ st.(vs_wallets) = ∅ ∧ st.(vs_tokens) = ∅.

(** The records of what was spent, consumed and registered only grow. *)
Definition grows (st st' : VaultState) : Prop :=
  st.(vs_nullifiers) ⊆ st'.(vs_nullifiers) ∧ st.(vs_consumed) ⊆ st'.(vs_consumed) ∧
  st.(vs_wallets) ⊆ st'.(vs_wallets).
End steps.

#[global] Instance grows_preorder : PreOrder grows.
Proof.
  split; [intros st; by split_and!|]. intros s1 s2 s3 (A1 & B1 & C1) (A2 & B2 & C2).
  by split_and!; etrans.
Qed.

Lemma relock_positive funded locks payer note id ex amount locks' nc lock :
  id = NONE_ID ∨ 0 < amount → create_relock funded locks payer note id ex amount = Ok locks' →
  locks' !! nc = Some lock → locks !! nc = Some lock ∨ 0 < lock.(lk_amount).
Proof.
  intros Hr [[_ ->]|(Hid & _ & ->)]%create_relock_Ok; [by left|]. rewrite lookup_insert_Some.
  intros [[_ <-]|[_ ?]]; [right|by left]. cbn [lk_amount]. tauto.
Qed.

(** Lamports at the address of the lock make a settlement that re-locks a change
    note fail, until a [lock_note] of that note creates the account there. *)
Lemma funded_relock_blocks `{NodeCrypto} `{Poseidon} `{Web3} payer slot tx cur p st r :
  (p.(mp_buyerRelockOrderId) ≠ NONE_ID ∧ p.(mp_noteE) ∈ st.(vs_funded)) ∨
  (p.(mp_sellerRelockOrderId) ≠ NONE_ID ∧ p.(mp_noteF) ∈ st.(vs_funded)) →
  tee_forced_settle payer slot tx cur p st ≠ Ok r.
Proof.
  intros Hf Hs. unfold tee_forced_settle in Hs. inv_res.
  destruct Hf as [[Hid Hin]|[Hid Hin]];
    match goal with H : create_relock _ _ _ _ ?id _ _ = Ok _, Hne : ?id ≠ _ |- _ =>
      apply create_relock_Ok in H as [[? _]|(_ & [? _] & _)]; by auto end.
Qed.

(** The locks a settlement adds hold the change, which is positive. *)
Lemma settle_new_locks `{NodeCrypto} `{Poseidon} `{Web3} payer slot tx cur p st ev st' nc lock :
  tee_forced_settle payer slot tx cur p st = Ok (ev, st') →
  st'.(vs_locks) !! nc = Some lock → st.(vs_locks) !! nc = Some lock ∨ 0 < lock.(lk_amount).
Proof.
  intros Hs. unfold tee_forced_settle in Hs. inv_res. injection Hs as _ <-. cbn [vs_locks].
  apply settle_checks_Ok in Ha7 as (_ & _ & _ & _ & _ & _ & RE & RF).
  rewrite !lookup_delete_Some. intros (_ & _ & Hk).
  destruct (relock_positive _ _ _ _ _ _ _ _ _ _ RF Ha15 Hk) as [Hk1|?]; [|by right].
  exact (relock_positive _ _ _ _ _ _ _ _ _ _ RE Ha14 Hk1).
Qed.

Section step_lemmas.
Context `{NodeCrypto} `{Poseidon} `{!PoseidonLaws} `{Web3}.
Context (verify_spend verify_wallet : Groth16Proof → list bytes → bool).
Notation step := (vault_step verify_spend verify_wallet).

Lemma init_grows {A} (m : gmap bytes A) k v m' : init m k v = Ok m' → m ⊆ m'.
Proof. intros [Hn ->]%init_Ok. by apply insert_subseteq. Qed.

Lemma step_grows st st' : step st st' → grows st st'.
Proof.
  destruct 1 as [? ? ? ? Hs|? ? ? ? ? Hs|? ? ? ? ? ? ? Hs|? ? ? ? ? ? Hs|? ? Hs|? ? ? _ _ Hs|? ? _ Hs|? Hs|? ? ? ? p ev Hsz Hs|? Hs];
    [..|subst st'; unfold fund_lock; case_bool_decide; by split_and!].
  all: unfold create_wallet, deposit, withdraw, lock_note, release_lock, set_protocol_config, rotate_root_key,
    reset_merkle_tree, tee_forced_settle in Hs; inv_res; try injection Hs as _ <-; try subst st';
    split_and!; cbn [with_config with_locks with_funded vs_nullifiers vs_consumed vs_wallets]; try reflexivity;
    repeat match goal with H : init _ _ _ = Ok _ |- _ => apply init_grows in H end;
    first [eassumption | etrans; eassumption].
Qed.

Lemma set_keys_repr cfg l cfg' :
  cfg'.(leaf_count) = cfg.(leaf_count) → cfg'.(current_root) = cfg.(current_root) → cfg'.(roots) = cfg.(roots) →
  cfg'.(zero_subtree_roots) = cfg.(zero_subtree_roots) → cfg'.(right_path) = cfg.(right_path) →
  cfg'.(roots_head) = cfg.(roots_head) → vault_repr cfg l → vault_repr cfg' l.
Proof.
  intros E1 E2 E3 E4 E5 E6 [[A B C D E F G] (R1 & R2 & R3)]. split.
  - split; rewrite ?E1, ?E2, ?E4, ?E5; assumption.
  - unfold ring_repr. rewrite E3, E6. by split_and!.
Qed.

Lemma reset_fresh k cfg l cfg' :
  vault_repr cfg l → reset_merkle_tree_handler k cfg = Ok cfg' → vault_repr cfg' [] ∧ same_keys cfg cfg'.
Proof.
  intros Hv Hr. unfold reset_merkle_tree_handler in Hr. apply res_bind_Ok in Hr as (u & _ & Hr).
  rewrite (repr_zeros _ _ (proj1 Hv)) in Hr. apply res_bind_Ok in Hr as (root & Hroot & Hr).
  assert (E : root = vault_root []) by (apply Ok_inj; rewrite <-Hroot; apply empty_root_spec).
  apply Ok_inj in Hr as <-. split; [|done].
  apply fresh_repr; cbn [roots roots_head leaf_count current_root zero_subtree_roots right_path];
    first [exact E|apply length_replicate|reflexivity].
Qed.

Lemma balance_nonneg st mint : vault_inv st → 0 <= balance st mint.
Proof.
  intros Hi. unfold balance. destruct (_ !! mint) eqn:E; cbn [default]; [by eapply inv_tokens|lia].
Qed.
Lemma deposit_handler_inv cfg l mint a o n b ev cfg' :
  vault_repr cfg l → deposit_handler cfg mint a o n b = Ok (ev, cfg') →
  0 < a ∧ commitment_from_fields mint a o n b = Ok ev.(nc_commitment) ∧
  vault_repr cfg' (l ++ [ev.(nc_commitment)]) ∧ ev.(nc_leaf_index) = Z.of_nat (length l) ∧ same_keys cfg cfg'.
Proof.
  intros Hv Hd. unfold deposit_handler in Hd. apply res_bind_Ok in Hd as (u & Hu & Hd).
  apply throw_if_Ok, negb_false_iff, Z.ltb_lt in Hu.
  destruct (commitment_from_fields mint a o n b) as [c|e] eqn:Hc; [|discriminate].
  apply res_bind_Ok in Hd as (c' & Hcc & Hd). apply Ok_inj in Hcc as <-.
  apply res_bind_Ok in Hd as ([root cfg2] & Ha & Hd). injection Hd as <- <-.
  destruct (append_leaf_inv _ _ _ _ _ Hv (proj1 (commitment_field _ _ _ _ _ _ Hc)) Ha) as (_ & _ & Hv' & Hk & Hl & _).
  split_and!; try assumption. reflexivity.
Qed.

(** What a step must re-establish, when it leaves a part alone. *)
Lemma inv_intro st st' :
  vault_inv st →
  (st'.(vs_config) = st.(vs_config) ∨
   ∃ l, vault_repr st'.(vs_config) l ∧ st'.(vs_config).(fee_rate_bps) <= 10000) →
  (st'.(vs_tokens) = st.(vs_tokens) ∨ ∃ mint v, st'.(vs_tokens) = <[mint := v]> st.(vs_tokens) ∧ 0 <= v) →
  (∀ nc lock, st'.(vs_locks) !! nc = Some lock → st.(vs_locks) !! nc = Some lock ∨ 0 < lock.(lk_amount)) →
  vault_inv st'.
Proof.
  intros [It If Ik Il] Hc Ht Hl. split.
  - destruct Hc as [->|(l & Hv & _)]; eauto.
  - destruct Hc as [->|(_ & _ & Hf)]; done.
  - intros mint b. destruct Ht as [->|(m & v & -> & Hv)]; [apply Ik|]. rewrite lookup_insert_Some.
    intros [[_ <-]|[_ Hb]]; [done|by eapply Ik].
  - intros nc lock Hk. destruct (Hl nc lock Hk); [by eapply Il|done].
Qed.

Lemma same_keys_fee cfg cfg' : same_keys cfg cfg' → cfg.(fee_rate_bps) <= 10000 → cfg'.(fee_rate_bps) <= 10000.
Proof. intros (_ & _ & _ & _ & ->). done. Qed.

Lemma step_inv st st' : vault_inv st → step st st' → vault_inv st'.
Proof.
  intros Hi. pose proof (inv_tree _ Hi) as [l Hv]. pose proof (inv_fee _ Hi) as Hfee.
  destruct 1 as [? ? ? ? Hs|mint a ? ? ? Hs|mint ? ? ? ? a ? Hs|? ? ? ? ? ? Hs|? ? Hs|? ? f _ _ Hs|? ? _ Hs|k Hs|? ? ? ? p ev Hsz Hs|? Hs].
  - unfold create_wallet in Hs. inv_res. subst st'. by apply (inv_intro st); eauto.
  - unfold deposit in Hs. apply res_bind_Ok in Hs as ([ev cfg'] & Hd & Hs). apply Ok_inj in Hs as <-.
    destruct (deposit_handler_inv _ _ _ _ _ _ _ _ _ Hv Hd) as (Ha & _ & Hv' & _ & Hk).
    apply (inv_intro st); cbn [vs_config vs_tokens vs_locks snd]; [done| | |eauto].
    + right. eexists. split; [exact Hv'|by eapply same_keys_fee].
    + right. exists mint, (balance st mint + a). split; [done|]. pose proof (balance_nonneg st mint Hi). lia.
  - unfold withdraw in Hs. inv_res. subst st'. apply (inv_intro st); cbn [vs_config vs_tokens vs_locks]; [done|eauto| |eauto].
    right. eexists _, _. split; [reflexivity|].
    match goal with H : (balance st mint <? a) = false |- _ => apply Z.ltb_ge in H; lia end.
  - unfold lock_note in Hs. inv_res. subst st'. apply (inv_intro st); cbn [with_funded with_locks vs_config vs_tokens vs_locks]; [done|eauto|eauto|].
    apply init_Ok in Ha as [_ ->]. intros nc' lock'. rewrite lookup_insert_Some. intros [[_ <-]|[_ ?]]; [right|by left].
    cbn [lk_amount]. by match goal with H : negb (0 <? _) = false |- _ => apply negb_false_iff, Z.ltb_lt in H end.
  - unfold release_lock in Hs. inv_res. subst st'. apply (inv_intro st); cbn [with_locks vs_config vs_tokens vs_locks]; [done|eauto|eauto|].
    intros nc' lock'. rewrite lookup_delete_Some. intros [_ ?]. by left.
  - unfold set_protocol_config in Hs. inv_res. subst st'. apply (inv_intro st); cbn [with_config vs_config vs_tokens vs_locks]; [done| |eauto|eauto].
    right. exists l. split; [by apply (set_keys_repr (vs_config st))|]. cbn [fee_rate_bps]. by apply Z.ltb_ge.
  - unfold rotate_root_key in Hs. inv_res. subst st'. apply (inv_intro st); cbn [with_config vs_config vs_tokens vs_locks]; [done| |eauto|eauto].
    right. exists l. split; [by apply (set_keys_repr (vs_config st))|]. exact Hfee.
  - unfold reset_merkle_tree in Hs. inv_res. subst st'. apply (inv_intro st); cbn [with_config vs_config vs_tokens vs_locks]; [done| |eauto|eauto].
    destruct (reset_fresh _ _ _ _ Hv Ha) as [Hv' Hk]. right. eexists. split; [exact Hv'|by eapply same_keys_fee].
  - destruct (settle_inv _ _ _ _ _ _ _ _ _ Hsz Hv Hs) as ([_ [HE HF] _ _ _ (_ & Htok & Hk) (Hv' & _) _ _] & _).
    apply (inv_intro st); [done| |by left|].
    + right. eexists. split; [exact Hv'|by eapply same_keys_fee].
    + intros nc lk. exact (settle_new_locks _ _ _ _ _ _ _ _ nc lk Hs).
  - subst st'. unfold fund_lock. case_bool_decide; [done|].
    apply (inv_intro st); cbn [with_funded vs_config vs_tokens vs_locks]; eauto.
Qed.
End step_lemmas.

(** ** An exact fill settles *)

Section exact_fill.
Context `{NodeCrypto} `{Poseidon} `{!PoseidonLaws} `{Web3}.

(** The vault is ready for an exact fill: both input notes are locked for their
    orders at exactly the amounts of the trade, and nothing was spent. *)
Record ready_for (st : VaultState) (a : ExactFillArgs) : Prop := {
  rf_lock_a : ∃ lock, st.(vs_locks) !! a.(ef_noteA) = Some lock ∧ lock.(lk_order_id) = a.(ef_orderIdA) ∧
    lock.(lk_amount) = a.(ef_quoteAmount);
  rf_lock_b : ∃ lock, st.(vs_locks) !! a.(ef_noteB) = Some lock ∧ lock.(lk_order_id) = a.(ef_orderIdB) ∧
    lock.(lk_amount) = a.(ef_baseAmount);
  rf_notes : a.(ef_noteA) ≠ a.(ef_noteB) ∧ st.(vs_consumed) !! a.(ef_noteA) = None ∧
    st.(vs_consumed) !! a.(ef_noteB) = None;
  rf_nullifiers : a.(ef_nullifierA) ≠ a.(ef_nullifierB) ∧ st.(vs_nullifiers) !! a.(ef_nullifierA) = None ∧
    st.(vs_nullifiers) !! a.(ef_nullifierB) = None;
  rf_amounts : 0 <= a.(ef_quoteAmount) < U64 ∧ 0 <= a.(ef_baseAmount) < U64;
  rf_outputs : field_bytes a.(ef_noteC) ∧ field_bytes a.(ef_noteD);
}.

Lemma checked_add_0 x : 0 <= x < U64 → checked_add x 0 = Ok x.
Proof. intros Hx. unfold checked_add. rewrite Z.add_0_r, (proj2 (Z.ltb_lt _ _)) by lia. done. Qed.

Lemma exact_fill_checks st a lock_a lock_b :
  ready_for st a → lock_a.(lk_order_id) = a.(ef_orderIdA) → lock_b.(lk_order_id) = a.(ef_orderIdB) →
  lock_a.(lk_amount) = a.(ef_quoteAmount) → lock_b.(lk_amount) = a.(ef_baseAmount) →
  settle_checks lock_a lock_b (exactFillPayload a) = Ok ().
Proof.
  intros Hr Ha Hb Va Vb. destruct (rf_amounts _ _ Hr) as [Hq Hba].
  unfold settle_checks, exactFillPayload. cbn [mp_orderIdA mp_orderIdB mp_quoteAmount mp_buyerChangeAmt mp_buyerFeeAmt
    mp_baseAmount mp_sellerChangeAmt mp_sellerFeeAmt mp_noteE mp_noteF mp_buyerRelockOrderId mp_sellerRelockOrderId].
  rewrite Ha, Hb, Va, Vb, !bool_decide_eq_true_2 by done. cbn [negb throw_if mbind res_bind].
  rewrite (checked_add_0 _ Hq). cbn [mbind res_bind]. rewrite (checked_add_0 _ Hq). cbn [mbind res_bind].
  rewrite Z.eqb_refl. cbn [negb throw_if mbind res_bind].
  rewrite (checked_add_0 _ Hba). cbn [mbind res_bind]. rewrite (checked_add_0 _ Hba). cbn [mbind res_bind].
  rewrite Z.eqb_refl. reflexivity.
Qed.

Lemma exact_fill_runs tee slot tx cur st a l :
  vault_repr st.(vs_config) l → (length l + 2 <= 2 ^ VaultTree.MERKLE_DEPTH)%nat → ready_for st a →
  tee = st.(vs_config).(tee_pubkey) →
  verify_tee_signature tx cur tee (canonical_payload_hash (exactFillPayload a)) = true →
  ∃ ev st', tee_forced_settle tee slot tx cur (exactFillPayload a) st = Ok (ev, st') ∧
    ev.(ts_noteEleaf) = U64_MAX ∧ ev.(ts_noteFleaf) = U64_MAX ∧ ev.(ts_noteFeeLeaf) = U64_MAX.
Proof.
  intros Hv Hcap Hr -> Hsig. destruct (rf_lock_a _ _ Hr) as (lock_a & La & Oa & Va), (rf_lock_b _ _ Hr) as (lock_b & Lb & Ob & Vb).
  destruct (rf_notes _ _ Hr) as (Nab & Na & Nb), (rf_nullifiers _ _ Hr) as (Mab & Ma & Mb), (rf_outputs _ _ Hr) as [Fc Fd].
  assert (Hlt : (length l < 2 ^ VaultTree.MERKLE_DEPTH)%nat) by (eapply Nat.lt_le_trans, Hcap; lia).
  destruct (append_leaf_repr _ _ _ Hv Fc Hlt) as (cfg1 & A1 & Hv1).
  assert (Hlt1 : (length (l ++ [a.(ef_noteC)]) < 2 ^ VaultTree.MERKLE_DEPTH)%nat).
  { eapply Nat.lt_le_trans, Hcap. rewrite length_app. cbn [length]. lia. }
  destruct (append_leaf_repr _ _ _ Hv1 Fd Hlt1) as (cfg2 & A2 & Hv2).
  eexists _, _. split.
  - unfold tee_forced_settle. cbn [exactFillPayload mp_noteA mp_noteB mp_nullifierA mp_nullifierB].
    eapply bind_Ok_eq; [by apply load_Ok|]. eapply bind_Ok_eq; [by apply load_Ok|].
    eapply bind_Ok_eq; [by apply init_Ok|].
    eapply bind_Ok_eq; [apply init_Ok; split; [by rewrite lookup_insert_ne|reflexivity]|].
    eapply bind_Ok_eq; [by apply init_Ok|].
    eapply bind_Ok_eq; [apply init_Ok; split; [by rewrite lookup_insert_ne|reflexivity]|].
    eapply (bind_Ok_eq _ tt); [by rewrite bool_decide_eq_true_2|].
    eapply (bind_Ok_eq _ tt); [fold (exactFillPayload a); by rewrite Hsig|].
    eapply bind_Ok_eq; [by eapply exact_fill_checks|].
    eapply bind_Ok_eq; [exact A1|]. eapply bind_Ok_eq; [exact A2|].
    eapply bind_Ok_eq; [reflexivity|]. eapply bind_Ok_eq; [reflexivity|].
    eapply (bind_Ok_eq _ tt); [reflexivity|]. eapply bind_Ok_eq; [reflexivity|].
    eapply bind_Ok_eq; [reflexivity|]. eapply bind_Ok_eq; [reflexivity|]. reflexivity.
  - split_and!; reflexivity.
Qed.
End exact_fill.

(** *** What the client is told about it *)

Lemma signed_tx_verified `{NodeCrypto} `{!NodeCryptoLaws} `{Web3} p pk sig h ix tx i n :
  canonicalPayloadHash p = Ok h →
  buildEd25519VerifyIx {| teePubkey := pk; ed_signature := sig; ed_message := h |} = Ok ix →
  tx !! i = Some ix → (i < n + 8)%nat → verify_tee_signature tx n pk (canonical_payload_hash p) = true.
Proof.
  unfold canonicalPayloadHash. intros Hh Hix Hi Hn. apply res_bind_Ok in Hh as (m & Hm & Hh).
  pose proof (canonicalPayloadUpdates_sized p m Hm) as Sp. rewrite canonicalPayloadUpdates_Ok in Hm by done.
  apply Ok_inj in Hm as <-. apply Ok_inj in Hh. apply (verify_intro tx i ix); [done|done|].
  rewrite (buildEd25519VerifyIx_matches _ _ _ _ Hix) by (cbn; rewrite <-Hh; apply length_sha256).
  by apply bool_decide_eq_true_2.
Qed.

(** The integers of the payload are [u64], as the program reads them. *)
Definition payload_in_u64 (p : MatchResultPayload) : Prop := payload_u64 p = p.

Lemma mod_fixed x : x mod U64 = x → 0 <= x < U64.
Proof. intros E. pose proof (Z.mod_pos_bound x U64 eq_refl). lia. Qed.

Lemma payload_ranges p : payload_in_u64 p →
  0 <= p.(mp_clearingPrice) < U64 ∧ 0 <= p.(mp_baseAmount) < U64 ∧ 0 <= p.(mp_quoteAmount) < U64 ∧
  0 <= p.(mp_buyerChangeAmt) < U64 ∧ 0 <= p.(mp_sellerChangeAmt) < U64 ∧ 0 <= p.(mp_buyerFeeAmt) < U64 ∧
  0 <= p.(mp_sellerFeeAmt) < U64.
Proof.
  intros E. unfold payload_in_u64 in E. split_and?; try apply mod_fixed.
  all: rewrite <-E at 2; reflexivity.
Qed.

Lemma payload_matchId_16 p : payload_sized p → length p.(mp_matchId) = 16%nat.
Proof. intros [_ H16]. by decompose_Forall_hyps. Qed.

Lemma U64_MAX_big : Z.of_nat (2 ^ VaultTree.MERKLE_DEPTH) < U64_MAX.
Proof.
  change VaultTree.MERKLE_DEPTH with TREE_DEPTH. rewrite TREE_DEPTH_pow, Nat2Z.inj_mul.
  change (Z.of_nat 1024) with 1024. unfold U64_MAX. lia.
Qed.

Lemma reported_u64 l leaf idx : reported l leaf idx → 0 <= idx < U64.
Proof.
  unfold reported. pose proof U64_MAX_big. destruct (bool_decide _); [intros ->; unfold U64_MAX, U64; lia|].
  intros [Hi _]. revert Hi H. generalize (Z.of_nat (2 ^ VaultTree.MERKLE_DEPTH)). unfold U64_MAX, U64. lia.
Qed.

Lemma reported_leaf l leaf idx : reported l leaf idx →
  leaf_or_null idx = if bool_decide (leaf = ZERO_COMMITMENT) then None else Some idx.
Proof.
  unfold reported, leaf_or_null. pose proof U64_MAX_big as Hb. destruct (bool_decide _); [by intros ->|].
  intros [Hi _]. revert Hi Hb. generalize (Z.of_nat (2 ^ VaultTree.MERKLE_DEPTH)). intros cap Hi Hb.
  destruct (Z.eqb_spec idx U64_MAX); [lia|done].
Qed.

Section told.
Context `{Poseidon} `{!PoseidonLaws}.

Lemma vault_root_32 l : Forall field_bytes l → length (vault_root l) = 32%nat.
Proof. intros Hl. unfold vault_root. exact (proj1 (vault_node_field l TREE_DEPTH 0 Hl)). Qed.

Lemma settled_event_wf payer slot p l st st' ev :
  payload_sized p → payload_in_u64 p → settled payer slot p l st st' ev → event_wf ev.
Proof.
  intros Hsz Hu64 Hs. destruct (sd_event _ _ _ _ _ _ _ Hs) as (E1 & E2 & E3 & E4 & E5 & E6 & E7 & E8 & _).
  destruct (sd_tree _ _ _ _ _ _ _ Hs) as (Hv & Hroot & Hc & Hd & He & Hf & Hfee).
  assert (Hn : (length l + 2 <= 2 ^ VaultTree.MERKLE_DEPTH)%nat).
  { pose proof (repr_max _ _ (proj1 Hv)) as Hmax. rewrite length_app in Hmax. unfold settle_outputs in Hmax.
    rewrite length_app in Hmax. cbn [length] in Hmax. eapply Nat.le_trans, Hmax. lia. }
  apply Nat2Z.inj_le in Hn. rewrite Nat2Z.inj_add in Hn. pose proof U64_MAX_big as Hb.
  assert (Hcd : 0 <= Z.of_nat (length l) < U64 ∧ 0 <= Z.of_nat (length l) + 1 < U64).
  { revert Hn Hb. generalize (Z.of_nat (2 ^ VaultTree.MERKLE_DEPTH)). unfold U64_MAX, U64. lia. }
  destruct (payload_ranges p Hu64) as (U1 & U2 & U3 & U4 & U5 & U6 & U7). split; [|split].
  - rewrite E1. by apply payload_matchId_16.
  - rewrite Hroot. apply vault_root_32, (repr_leaves _ _ (proj1 Hv)).
  - rewrite E2, E3, E4, E5, E6, E7, E8, Hc, Hd.
    repeat (apply Forall_cons; split); try apply Forall_nil_2; try assumption; try apply Hcd; by eapply reported_u64.
Qed.

(** The buyer's and the seller's notification say what happened to the tree. *)
Definition told (n : MatchNotification) (l : list bytes) (trade change fee : bytes) (change_amt : Z) : Prop :=
  l !! Z.to_nat n.(mn_tradeLeaf) = Some trade ∧
  (n.(mn_isPartialFill) = true ↔ 0 < change_amt) ∧
  (n.(mn_isPartialFill) = true ↔ is_Some n.(mn_changeLeaf)) ∧
  (∀ i, n.(mn_changeLeaf) = Some i → l !! Z.to_nat i = Some change) ∧
  (∀ i, n.(mn_feeLeaf) = Some i → l !! Z.to_nat i = Some fee) ∧
  n.(mn_newRoot) = vault_root l.

(** The terms of the trade a notification names. *)
Definition terms (n : MatchNotification) (p : MatchResultPayload) (side : NotificationSide) (fee : Z)
    (relock_id : bytes) : Prop :=
  n.(mn_side) = side ∧ n.(mn_matchId) = p.(mp_matchId) ∧ n.(mn_baseAmount) = p.(mp_baseAmount) ∧
  n.(mn_quoteAmount) = p.(mp_quoteAmount) ∧ n.(mn_clearingPrice) = p.(mp_clearingPrice) ∧
  n.(mn_feePaid) = fee ∧ (n.(mn_relockActive) = true ↔ relock_id ≠ NONE_ID).

Lemma settled_terms payer slot p l st st' ev :
  settled payer slot p l st st' ev →
  terms (buyerNotification ev) p buyer p.(mp_buyerFeeAmt) p.(mp_buyerRelockOrderId) ∧
  terms (sellerNotification ev) p seller p.(mp_sellerFeeAmt) p.(mp_sellerRelockOrderId).
Proof.
  intros Hs. destruct (sd_event _ _ _ _ _ _ _ Hs) as (E1 & E2 & E3 & E4 & _ & _ & E7 & E8 & E9 & E10).
  unfold terms, buyerNotification, sellerNotification.
  cbn [mn_side mn_matchId mn_baseAmount mn_quoteAmount mn_clearingPrice mn_feePaid mn_relockActive].
  rewrite E1, E2, E3, E4, E7, E8, E9, E10, !negb_true_iff, !bool_decide_eq_false. by split_and!.
Qed.

Lemma reported_told l leaf idx i : reported l leaf idx → leaf_or_null idx = Some i → l !! Z.to_nat i = Some leaf.
Proof.
  intros Hr Hi. rewrite (reported_leaf _ _ _ Hr) in Hi. unfold reported in Hr.
  destruct (bool_decide _); [done|]. injection Hi as <-. by destruct Hr.
Qed.

Lemma reported_some l leaf idx : reported l leaf idx → is_Some (leaf_or_null idx) ↔ leaf ≠ ZERO_COMMITMENT.
Proof.
  intros Hr. rewrite (reported_leaf _ _ _ Hr). case_bool_decide; split; try done; eauto.
Qed.

Lemma settled_told payer slot p l st st' ev :
  settled payer slot p l st st' ev →
  told (buyerNotification ev) (l ++ settle_outputs p) p.(mp_noteC) p.(mp_noteE) p.(mp_noteFee) p.(mp_buyerChangeAmt) ∧
  told (sellerNotification ev) (l ++ settle_outputs p) p.(mp_noteD) p.(mp_noteF) p.(mp_noteFee) p.(mp_sellerChangeAmt).
Proof.
  intros Hs. destruct (sd_event _ _ _ _ _ _ _ Hs) as (_ & _ & _ & _ & E5 & E6 & _).
  destruct (sd_tree _ _ _ _ _ _ _ Hs) as (Hv & Hroot & Hc & Hd & He & Hf & Hfee).
  destruct (sd_change _ _ _ _ _ _ _ Hs) as [CE CF].
  assert (Hout : ∀ k, (l ++ settle_outputs p) !! (length l + k)%nat = settle_outputs p !! k).
  { intros k. rewrite lookup_app_r by lia. f_equal. lia. }
  unfold told. cbn [buyerNotification sellerNotification mn_tradeLeaf mn_isPartialFill mn_changeLeaf mn_feeLeaf mn_newRoot].
  rewrite E5, E6, Hc, Hd, !Z.ltb_lt, (reported_some _ _ _ He), (reported_some _ _ _ Hf).
  split; split_and!; try done.
  - rewrite Nat2Z.id. rewrite <-(Nat.add_0_r (length l)). apply Hout.
  - intros i. by eapply reported_told.
  - intros i. by eapply reported_told.
  - replace (Z.to_nat (Z.of_nat (length l) + 1)) with (length l + 1)%nat by lia. apply Hout.
  - intros i. by eapply reported_told.
  - intros i. by eapply reported_told.
Qed.
End told.

(** ** Properties *)

(** [C1] What a settlement the program accepts has done, field by field: both
    input notes were locked for the payload's orders and the value under each
    lock equals its trade leg plus change plus fee; a change commitment is
    non-zero exactly when its amount is; neither note was consumed, neither
    nullifier spent, and now they are; the outputs C, D and the non-zero ones of
    E, F and the fee note are the new leaves in that order; the event reports
    their positions and the new root; the input locks are gone and the requested
    re-locks hold the change.  Only the TEE key of the configuration can do it,
    with its Ed25519 signature over this payload in the transaction. *)
Theorem settlement_effect `{NodeCrypto} `{Poseidon} `{!PoseidonLaws} `{Web3} tee slot tx cur p st l ev st' :
  payload_sized p → vault_repr st.(vs_config) l →
  tee_forced_settle tee slot tx cur p st = Ok (ev, st') →
  settled tee slot p l st st' ev ∧ tee = st.(vs_config).(tee_pubkey) ∧
  verify_tee_signature tx cur st.(vs_config).(tee_pubkey) (canonical_payload_hash p) = true ∧
  (p.(mp_noteFee) ≠ ZERO_COMMITMENT → st.(vs_config).(protocol_owner_commitment) ≠ ZERO_COMMITMENT).
Proof. apply settle_inv. Qed.

(** A vault with the two input notes of [sample_payload] locked. *)
Definition sample_args : ExactFillArgs :=
  {| ef_matchId := replicate 16 x01; ef_noteA := replicate 32 x02; ef_noteB := replicate 32 x03;
     ef_noteC := replicate 32 x04; ef_noteD := replicate 32 x05; ef_nullifierA := replicate 32 x06;
     ef_nullifierB := replicate 32 x07; ef_orderIdA := replicate 16 x08; ef_orderIdB := replicate 16 x09;
     ef_baseAmount := 100; ef_quoteAmount := 5000; ef_clearingPrice := None; ef_batchSlot := Some 3 |}.

Definition sample_locks : gmap bytes NoteLock :=
  <[replicate 32 x02 := {| lk_order_id := replicate 16 x08; lk_expiry_slot := 50; lk_locked_by := replicate 32 x21; lk_amount := 5000 |}]>
  (<[replicate 32 x03 := {| lk_order_id := replicate 16 x09; lk_expiry_slot := 50; lk_locked_by := replicate 32 x21; lk_amount := 100 |}]> ∅).

Definition sample_state (cfg : VaultConfig) : VaultState :=
  {| vs_config := cfg; vs_locks := sample_locks; vs_consumed := ∅; vs_nullifiers := ∅; vs_wallets := ∅; vs_tokens := ∅; vs_funded := ∅ |}.

Lemma sample_ready cfg : ready_for (sample_state cfg) sample_args.
Proof.
  split.
  - eexists. split; [vm_compute; reflexivity|]. split; reflexivity.
  - eexists. split; [vm_compute; reflexivity|]. split; reflexivity.
  - split; [discriminate|]. split; reflexivity.
  - split; [discriminate|]. split; reflexivity.
  - split; split; vm_compute; congruence.
  - split; split; vm_compute; reflexivity.
Qed.

(** The signed transaction of the sample settlement. *)
Lemma sample_signed : ∃ h ix,
  @canonicalPayloadHash Toy.toy_crypto sample_payload = Ok h ∧
  @buildEd25519VerifyIx Toy.toy_web3
    {| teePubkey := replicate 32 x21; ed_signature := replicate 64 x22; ed_message := h |} = Ok ix.
Proof.
  eexists _, _. split; [|reflexivity].
  unfold canonicalPayloadHash. by rewrite (canonicalPayloadUpdates_Ok _ sample_payload_sized).
Qed.

(** A settlement of the sample that runs. *)
Lemma sample_settles : ∃ cfg tx ev st',
  @vault_repr Toy.toy_Poseidon cfg [] ∧ cfg.(fee_rate_bps) = 0 ∧
  @tee_forced_settle Toy.toy_crypto Toy.toy_Poseidon Toy.toy_web3 (replicate 32 x21) 9 tx 1 sample_payload
    (sample_state cfg) = Ok (ev, st').
Proof.
  destruct (@initialize_repr Toy.toy_Poseidon Toy.toy_poseidon_laws [] (replicate 32 x21) []) as (cfg & Hi & Hv & Htee).
  assert (Hfee : cfg.(fee_rate_bps) = 0).
  { rewrite (@initialize_fresh Toy.toy_Poseidon Toy.toy_poseidon_laws [] (replicate 32 x21) []) in Hi.
    by apply Ok_inj in Hi as <-. }
  destruct sample_signed as (h & ix & Hh & Hix).
  destruct (@exact_fill_runs Toy.toy_crypto Toy.toy_Poseidon Toy.toy_poseidon_laws Toy.toy_web3 (replicate 32 x21) 9 [ix] 1
    (sample_state cfg) sample_args []) as (ev & st' & Hs & _).
  - exact Hv.
  - cbn [length Nat.add]. change 2%nat with (2 ^ 1)%nat. apply Nat.pow_le_mono_r; [done|unfold VaultTree.MERKLE_DEPTH; lia].
  - apply sample_ready.
  - by symmetry.
  - exact (@signed_tx_verified Toy.toy_crypto Toy.toy_crypto_laws Toy.toy_web3 sample_payload _ _ h ix [ix] 0 1 Hh Hix
      eq_refl ltac:(lia)).
  - exists cfg, [ix], ev, st'. split; [exact Hv|]. split; [exact Hfee|exact Hs].
Qed.

Lemma settlement_effect_witness : ∃ cfg tx ev st',
  @tee_forced_settle Toy.toy_crypto Toy.toy_Poseidon Toy.toy_web3 (replicate 32 x21) 9 tx 1 sample_payload
    (sample_state cfg) = Ok (ev, st') ∧
  @settled Toy.toy_Poseidon (replicate 32 x21) 9 sample_payload [] (sample_state cfg) st' ev.
Proof.
  destruct sample_settles as (cfg & tx & ev & st' & Hv & Hfee & Hs). exists cfg, tx, ev, st'. split; [exact Hs|].
  exact (proj1 (@settlement_effect Toy.toy_crypto Toy.toy_Poseidon Toy.toy_poseidon_laws Toy.toy_web3 _ _ _ _ _
    (sample_state cfg) [] _ _ sample_payload_sized Hv Hs)).
Defined.

(** An exact fill built with the SDK settles: when both notes are locked for
    exactly the traded amounts, nothing is spent yet and two leaves fit, the
    transaction with [buildEd25519VerifyIx] over [canonicalPayloadHash] of
    [exactFillPayload] is accepted, consumes both notes, appends exactly the two
    trade notes, and its event says that no change and no fee note exist. *)
Theorem exactFillPayload_settles `{NodeCrypto} `{!NodeCryptoLaws} `{Poseidon} `{!PoseidonLaws} `{Web3}
    slot a st l h sig ix tx i cur :
  payload_sized (exactFillPayload a) → vault_repr st.(vs_config) l →
  (length l + 2 <= 2 ^ VaultTree.MERKLE_DEPTH)%nat → ready_for st a →
  canonicalPayloadHash (exactFillPayload a) = Ok h →
  buildEd25519VerifyIx {| teePubkey := st.(vs_config).(tee_pubkey); ed_signature := sig; ed_message := h |} = Ok ix →
  tx !! i = Some ix → (i < cur + 8)%nat →
  ∃ ev st', tee_forced_settle st.(vs_config).(tee_pubkey) slot tx cur (exactFillPayload a) st = Ok (ev, st') ∧
    vault_repr st'.(vs_config) (l ++ [a.(ef_noteC); a.(ef_noteD)]) ∧
    is_Some (st'.(vs_consumed) !! a.(ef_noteA)) ∧ is_Some (st'.(vs_consumed) !! a.(ef_noteB)) ∧
    (buyerNotification ev).(mn_tradeLeaf) = Z.of_nat (length l) ∧
    (sellerNotification ev).(mn_tradeLeaf) = Z.of_nat (length l) + 1 ∧
    (buyerNotification ev).(mn_changeLeaf) = None ∧ (sellerNotification ev).(mn_changeLeaf) = None ∧
    (buyerNotification ev).(mn_feeLeaf) = None.
Proof.
  intros Hsz Hv Hcap Hr Hh Hix Hi Hn.
  pose proof (signed_tx_verified _ _ _ _ _ _ _ _ Hh Hix Hi Hn) as Hsig.
  destruct (exact_fill_runs _ slot tx cur st a l Hv Hcap Hr eq_refl Hsig) as (ev & st' & Hs & Pe & Pf & Px).
  destruct (settle_inv _ _ _ _ _ _ _ _ _ Hsz Hv Hs) as (Hd & _).
  destruct (sd_tree _ _ _ _ _ _ _ Hd) as (Hv' & _ & Hc & Hdl & _). pose proof (sd_consumed _ _ _ _ _ _ _ Hd) as Hcons.
  destruct (rf_notes _ _ Hr) as (Hab & _ & _).
  exists ev, st'. split; [exact Hs|]. split; [exact Hv'|]. rewrite Hcons.
  cbn [exactFillPayload mp_noteA mp_noteB buyerNotification sellerNotification mn_tradeLeaf mn_changeLeaf mn_feeLeaf].
  rewrite lookup_insert_ne, !lookup_insert_eq, Hc, Hdl, Pe, Pf, Px by done. by split_and!.
Qed.

Lemma exactFillPayload_settles_witness : ∃ cfg tx ev st',
  @tee_forced_settle Toy.toy_crypto Toy.toy_Poseidon Toy.toy_web3 (replicate 32 x21) 9 tx 1 (exactFillPayload sample_args)
    (sample_state cfg) = Ok (ev, st') ∧ (buyerNotification ev).(mn_changeLeaf) = None.
Proof.
  destruct (@initialize_repr Toy.toy_Poseidon Toy.toy_poseidon_laws [] (replicate 32 x21) []) as (cfg & _ & Hv & Htee).
  destruct sample_signed as (h & ix & Hh & Hix). rewrite <-Htee in Hix.
  destruct (@exactFillPayload_settles Toy.toy_crypto Toy.toy_crypto_laws Toy.toy_Poseidon Toy.toy_poseidon_laws
    Toy.toy_web3 9 sample_args (sample_state cfg) [] h (replicate 64 x22) ix [ix] 0 1 sample_payload_sized Hv)
    as (ev & st' & Hs & _ & _ & _ & _ & _ & Hc & _).
  - cbn [length Nat.add]. change 2%nat with (2 ^ 1)%nat. apply Nat.pow_le_mono_r; [done|unfold VaultTree.MERKLE_DEPTH; lia].
  - apply sample_ready.
  - exact Hh.
  - exact Hix.
  - reflexivity.
  - lia.
  - exists cfg, [ix], ev, st'. cbn [vs_config sample_state] in Hs. rewrite Htee in Hs. split; [exact Hs|exact Hc].
Defined.

(** Clients are told what happened: the event of any accepted settlement
    survives encoding and decoding, and in both notifications the trade leaf,
    the change leaf and the fee leaf are positions of the right commitments among
    the vault's leaves, a fill is partial exactly when its change is positive and
    then has a change leaf, and the new root is the root of all the leaves; match,
    amounts and price are the payload's, and each side is told its own fee and
    whether its change was locked again. *)
Theorem notifications_match_settlement `{NodeCrypto} `{Poseidon} `{!PoseidonLaws} `{Web3} tee slot tx cur p st l ev st' :
  payload_sized p → payload_in_u64 p → vault_repr st.(vs_config) l →
  tee_forced_settle tee slot tx cur p st = Ok (ev, st') →
  decodeTradeSettled (trade_settled_bytes ev) = Ok ev ∧
  vault_repr st'.(vs_config) (l ++ settle_outputs p) ∧
  told (buyerNotification ev) (l ++ settle_outputs p) p.(mp_noteC) p.(mp_noteE) p.(mp_noteFee) p.(mp_buyerChangeAmt) ∧
  told (sellerNotification ev) (l ++ settle_outputs p) p.(mp_noteD) p.(mp_noteF) p.(mp_noteFee) p.(mp_sellerChangeAmt) ∧
  terms (buyerNotification ev) p buyer p.(mp_buyerFeeAmt) p.(mp_buyerRelockOrderId) ∧
  terms (sellerNotification ev) p seller p.(mp_sellerFeeAmt) p.(mp_sellerRelockOrderId).
Proof.
  intros Hsz Hu Hv Hs. destruct (settle_inv _ _ _ _ _ _ _ _ _ Hsz Hv Hs) as (Hd & _).
  split; [by apply decodeTradeSettled_bytes; eapply settled_event_wf|].
  split; [apply (sd_tree _ _ _ _ _ _ _ Hd)|].
  destruct (settled_told _ _ _ _ _ _ _ Hd) as [? ?]. split; [done|]. split; [done|]. by eapply settled_terms.
Qed.

Lemma notifications_match_settlement_witness : ∃ cfg tx ev st',
  @tee_forced_settle Toy.toy_crypto Toy.toy_Poseidon Toy.toy_web3 (replicate 32 x21) 9 tx 1 sample_payload
    (sample_state cfg) = Ok (ev, st') ∧ decodeTradeSettled (trade_settled_bytes ev) = Ok ev.
Proof.
  destruct sample_settles as (cfg & tx & ev & st' & Hv & Hfee & Hs). exists cfg, tx, ev, st'. split; [exact Hs|].
  exact (proj1 (@notifications_match_settlement Toy.toy_crypto Toy.toy_Poseidon Toy.toy_poseidon_laws Toy.toy_web3
    _ _ _ _ _ (sample_state cfg) [] _ _ sample_payload_sized eq_refl Hv Hs)).
Defined.

Section reachable.
Context `{NodeCrypto} `{Poseidon} `{!PoseidonLaws} `{Web3}.
Context (verify_spend verify_wallet : Groth16Proof → list bytes → bool).

Lemma initial_inv st : initial st → vault_inv st.
Proof.
  intros (a & t & r & _ & _ & _ & Hi & Hl & _ & _ & _ & Ht). destruct (initialize_repr a t r) as (cfg & Hi' & Hv & _).
  assert (E : st.(vs_config) = cfg) by (apply Ok_inj; rewrite <-Hi; exact Hi'). split.
  - exists []. by rewrite E.
  - rewrite (initialize_fresh a t r) in Hi. apply Ok_inj in Hi as <-. cbn. lia.
  - intros mint b. rewrite Ht. by rewrite lookup_empty.
  - intros nc lock. rewrite Hl. by rewrite lookup_empty.
Qed.

Lemma steps_inv st st' :
  rtc (vault_step verify_spend verify_wallet) st st' → vault_inv st → vault_inv st' ∧ grows st st'.
Proof.
  induction 1 as [st|st1 st2 st3 Hs _ IH]; intros Hi; [done|].
  destruct (IH (step_inv _ _ _ _ Hi Hs)) as [Hi3 Hg]. split; [done|].
  etrans; [by eapply step_grows|exact Hg].
Qed.
End reachable.


Lemma sample_initial : ∃ st, @initial Toy.toy_Poseidon st.
Proof.
  destruct (@initialize_repr Toy.toy_Poseidon Toy.toy_poseidon_laws (replicate 32 x01) (replicate 32 x02) (replicate 32 x03))
    as (cfg & Hi & _).
  exists {| vs_config := cfg; vs_locks := ∅; vs_consumed := ∅; vs_nullifiers := ∅; vs_wallets := ∅; vs_tokens := ∅; vs_funded := ∅ |}.
  exists (replicate 32 x01), (replicate 32 x02), (replicate 32 x03). do 3 (split; [reflexivity|]).
  split; [exact Hi|]. split_and!; reflexivity.
Qed.


(** A successful operation that spends the note behind a nullifier, and one that
    consumes a note by name. *)
Definition nullifies `{NodeCrypto} `{Poseidon} `{Web3} (verify_spend : Groth16Proof → list bytes → bool)
    (nf : bytes) (st st' : VaultState) : Prop :=
  (∃ mint slot nc root a pf, withdraw verify_spend mint slot nc nf root a pf st = Ok st') ∨
  (∃ tee slot tx cur p ev, payload_sized p ∧ (nf = p.(mp_nullifierA) ∨ nf = p.(mp_nullifierB)) ∧
     tee_forced_settle tee slot tx cur p st = Ok (ev, st')).

Definition consumes `{NodeCrypto} `{Poseidon} `{Web3} (nc : bytes) (st st' : VaultState) : Prop :=
  ∃ tee slot tx cur p ev, payload_sized p ∧ (nc = p.(mp_noteA) ∨ nc = p.(mp_noteB)) ∧
    tee_forced_settle tee slot tx cur p st = Ok (ev, st').

Section spends.
Context `{NodeCrypto} `{Poseidon} `{!PoseidonLaws} `{Web3}.
Context (verify_spend verify_wallet : Groth16Proof → list bytes → bool).

(** Spending needs a free nullifier and takes it. *)
Lemma nullifies_spends nf st st' :
  vault_inv st → nullifies verify_spend nf st st' →
  st.(vs_nullifiers) !! nf = None ∧ is_Some (st'.(vs_nullifiers) !! nf) ∧ vault_step verify_spend verify_wallet st st'.
Proof.
  intros Hi [(mint & slot & nc & root & a & pf & Hw)|(tee & slot & tx & cur & p & ev & Hsz & Hnf & Hs)].
  - pose proof (step_withdraw verify_spend verify_wallet _ _ _ _ _ _ _ _ _ Hw) as Hstep. unfold withdraw in Hw. inv_res.
    apply init_Ok in Ha as [Ha ->]. subst st'. cbn [vs_nullifiers]. rewrite lookup_insert_eq. by split_and!.
  - destruct (inv_tree _ Hi) as [l Hv]. destruct (settle_inv _ _ _ _ _ _ _ _ _ Hsz Hv Hs) as (Hd & _).
    destruct (sd_fresh _ _ _ _ _ _ _ Hd) as (_ & _ & _ & Na & Nb & _). rewrite (sd_nullifiers _ _ _ _ _ _ _ Hd).
    split; [by destruct Hnf as [-> | ->]|]. split; [|by eapply step_settle].
    destruct Hnf as [-> | ->]; apply lookup_insert_is_Some'; [right; rewrite lookup_insert_eq|left]; eauto.
Qed.

Lemma consumes_takes nc st st' :
  vault_inv st → consumes nc st st' →
  st.(vs_consumed) !! nc = None ∧ is_Some (st'.(vs_consumed) !! nc) ∧ vault_step verify_spend verify_wallet st st'.
Proof.
  intros Hi (tee & slot & tx & cur & p & ev & Hsz & Hnc & Hs).
  destruct (inv_tree _ Hi) as [l Hv]. destruct (settle_inv _ _ _ _ _ _ _ _ _ Hsz Hv Hs) as (Hd & _).
  destruct (sd_fresh _ _ _ _ _ _ _ Hd) as (Na & Nb & _). rewrite (sd_consumed _ _ _ _ _ _ _ Hd).
  split; [by destruct Hnc as [-> | ->]|]. split; [|by eapply step_settle].
  destruct Hnc as [-> | ->]; apply lookup_insert_is_Some'; [right; rewrite lookup_insert_eq|left]; eauto.
Qed.

(** What one step has recorded, later steps keep. *)
Lemma recorded_stays st st1 st' :
  vault_inv st → vault_step verify_spend verify_wallet st st1 → rtc (vault_step verify_spend verify_wallet) st1 st' →
  vault_inv st' ∧ st1.(vs_nullifiers) ⊆ st'.(vs_nullifiers) ∧ st1.(vs_consumed) ⊆ st'.(vs_consumed).
Proof.
  intros Hi Hs Hr. destruct (steps_inv _ _ _ _ Hr (step_inv _ _ _ _ Hi Hs)) as (Hi' & Hn & Hc & _). done.
Qed.
End spends.

(** [C2] No double spend: after a withdrawal or a settlement that spends a
    nullifier, whatever instructions follow, no withdrawal and no settlement
    spends it again; after a settlement that consumes a note, no later settlement
    consumes it and no later withdrawal names it. *)
Theorem no_double_spend `{NodeCrypto} `{Poseidon} `{!PoseidonLaws} `{Web3} verify_spend verify_wallet st st1 st' :
  vault_inv st → rtc (vault_step verify_spend verify_wallet) st1 st' →
  (∀ nf, nullifies verify_spend nf st st1 → ∀ st2, ¬ nullifies verify_spend nf st' st2) ∧
  (∀ nc, consumes nc st st1 → ∀ st2, ¬ consumes nc st' st2 ∧
     ∀ mint slot nf root a pf, withdraw verify_spend mint slot nc nf root a pf st' ≠ Ok st2).
Proof.
  intros Hi Hr. split; intros k Hk st2.
  - destruct (nullifies_spends _ verify_wallet _ _ _ Hi Hk) as (_ & [v Hv] & Hs).
    destruct (recorded_stays _ _ _ _ _ Hi Hs Hr) as (Hi' & Hn & _). intros Hk2.
    destruct (nullifies_spends _ verify_wallet _ _ _ Hi' Hk2) as (Hnone & _).
    rewrite (lookup_weaken _ _ _ _ Hv Hn) in Hnone. discriminate.
  - destruct (consumes_takes verify_spend verify_wallet _ _ _ Hi Hk) as (_ & [v Hv] & Hs).
    destruct (recorded_stays _ _ _ _ _ Hi Hs Hr) as (Hi' & _ & Hc). pose proof (lookup_weaken _ _ _ _ Hv Hc) as Hin.
    split.
    + intros Hk2. destruct (consumes_takes verify_spend verify_wallet _ _ _ Hi' Hk2) as (Hnone & _).
      rewrite Hin in Hnone. discriminate.
    + intros ? ? ? ? ? ? Hw. unfold withdraw in Hw. inv_res. rewrite Hin in Ha1. by rewrite bool_decide_eq_true_2 in Ha1.
Qed.

Lemma no_double_spend_witness : ∃ cfg tx ev st',
  @tee_forced_settle Toy.toy_crypto Toy.toy_Poseidon Toy.toy_web3 (replicate 32 x21) 9 tx 1 sample_payload
    (sample_state cfg) = Ok (ev, st') ∧
  ∀ st2, ¬ @nullifies Toy.toy_crypto Toy.toy_Poseidon Toy.toy_web3 (λ _ _, true) (replicate 32 x06) st' st2.
Proof.
  destruct sample_settles as (cfg & tx & ev & st' & Hv & Hfee & Hs). exists cfg, tx, ev, st'. split; [exact Hs|].
  refine (proj1 (@no_double_spend Toy.toy_crypto Toy.toy_Poseidon Toy.toy_poseidon_laws Toy.toy_web3
    (λ _ _, true) (λ _ _, true) (sample_state cfg) st' st' _ (rtc_refl _ st')) (replicate 32 x06) _).
  - split; [by exists []|by cbn [vs_config sample_state]; rewrite Hfee|by intros mint b [=]|].
    intros nc lock Hl. cbn [vs_locks sample_state] in Hl. unfold sample_locks in Hl.
    apply lookup_insert_Some in Hl as [[_ <-]|[_ [[_ <-]|[_ Hl]]%lookup_insert_Some]]; [done|done|].
    discriminate Hl.
  - right. exists (replicate 32 x21), 9, tx, 1%nat, sample_payload, ev.
    split; [exact sample_payload_sized|]. split; [left; reflexivity|exact Hs].
Defined.

(** The withdrawal guards do not bind the note being spent: the commitment
    argument is no public input of the proof, so a withdrawal refused because
    its note is locked is accepted, with the same proof and nullifier, under any
    other commitment that is neither locked nor consumed. *)
Theorem locked_note_withdrawable `{Poseidon} verify_spend mint slot nc nc' nf root a pf st :
  is_Some (st.(vs_locks) !! nc) → st.(vs_consumed) !! nc = None →
  st.(vs_locks) !! nc' = None → st.(vs_consumed) !! nc' = None →
  st.(vs_nullifiers) !! nf = None → 0 < a <= balance st mint → contains_root st.(vs_config) root = true →
  verify_spend pf (withdraw_public_inputs root nf mint a) = true →
  withdraw verify_spend mint slot nc nf root a pf st = Throw (VaultError "NoteAlreadyLocked") ∧
  is_Ok (withdraw verify_spend mint slot nc' nf root a pf st) = true.
Proof.
  intros Hl Hc Hl' Hc' Hn [Ha Hb] Hroot Hpf. unfold withdraw, init. rewrite Hn. cbn [mbind res_bind].
  rewrite (proj2 (Z.ltb_lt 0 a) Ha), (proj2 (Z.ltb_ge _ _) Hb), Hc, Hc', Hl', Hroot, Hpf.
  rewrite (bool_decide_eq_true_2 _ Hl). done.
Qed.

Lemma locked_note_withdrawable_witness :
  let cfg := {| admin := []; tee_pubkey := []; root_key := []; leaf_count := 1; current_root := [x01]; roots := [];
                zero_subtree_roots := []; right_path := []; roots_head := 0; protocol_owner_commitment := [];
                fee_rate_bps := 0 |} in
  let st := {| vs_config := cfg; vs_locks := sample_locks; vs_consumed := ∅; vs_nullifiers := ∅; vs_wallets := ∅;
               vs_tokens := {[ replicate 32 x30 := 500 ]}; vs_funded := ∅ |} in
  is_Ok (withdraw (λ _ _, true) (replicate 32 x30) 9 (replicate 32 x44) (replicate 32 x45) [x01] 100
    {| pi_a := []; pi_b := []; pi_c := [] |} st) = true.
Proof.
  intros cfg st.
  exact (proj2 (@locked_note_withdrawable Toy.toy_Poseidon (λ _ _, true) (replicate 32 x30) 9 (replicate 32 x02)
    (replicate 32 x44) (replicate 32 x45) [x01] 100 {| pi_a := []; pi_b := []; pi_c := [] |} st
    ltac:(eexists; vm_compute; reflexivity) eq_refl eq_refl eq_refl eq_refl
    ltac:(split; vm_compute; congruence) eq_refl eq_refl)).
Defined.
