(* ===== verification/Withdraw.v ===== *)
(** Withdrawals: [getWithdrawFunction] ([utxo/withdraw.ts]), the relation the
    VALID_SPEND circuit proves ([circuits/valid_spend/circuit.circom]) and what
    connects the two to the vault's [withdraw] handler. *)

From stdpp Require Import gmap.
From S2P Require Import Prelude Bytes Errors Externals Keys Note Borsh.
From S2P Require Import VaultClient VaultProgram Merkle MerkleShadow VaultTree Client Deposit VaultState.

Local Open Scope Z_scope.

(** ** The client's pipeline *)

Record WithdrawParams (S : Type) := {
  wp_payer : PublicKey; wp_tokenMint : bytes; wp_amount : Z; wp_destinationTokenAccount : PublicKey;
  wp_notePlaintext : Note; wp_leafIndex : Z; wp_tokenProgramId : option PublicKey;
  wp_callbacks : option (TransactionCallbacks S) }.
Arguments wp_payer {S}.
Arguments wp_tokenMint {S}.
Arguments wp_amount {S}.
Arguments wp_destinationTokenAccount {S}.
Arguments wp_notePlaintext {S}.
Arguments wp_leafIndex {S}.
Arguments wp_tokenProgramId {S}.
Arguments wp_callbacks {S}.

Record WithdrawReceipt := { wr_signature : string; wr_nullifier : bytes; wr_merkleRoot : bytes }.

Definition uint8ArrayToBigIntBE (x : bytes) : Z := foldl be_step 0 x.

Definition pubkeyPairBE (pk : bytes) : res (Z * Z) :=
  _ ← throw_if (negb (length pk =? 32)%nat) (Error "pubkey must be 32 bytes");
  let hi := foldl be_step 0 (slice pk 0 16) in
  let lo := foldl be_step 0 (slice pk 16 16) in
  Ok (lo, hi).

(** [catch (e) { throw new DarkPoolError(stage, e.message, e); }] *)
Definition in_stage {S A} (stage : DarkPoolErrorStage) (m : M S A) : M S A :=
  try_catch m (λ e, throw (DarkPoolError stage (exn_message e) (Some e))).

Section withdraw.
Context `{NodeCrypto} `{Poseidon} `{Web3} {S : Type}.
Implicit Types (client : DarkPoolClient S) (params : WithdrawParams S).

Definition spend_inputs params (mProof : InclusionProof) (nullifierBytes : bytes) (mint : Z * Z)
    (spendingKey ownerBlinding : Z) : SpendInputs :=
  {| si_merkleRoot := uint8ArrayToBigIntBE mProof.(ip_root);
     si_nullifier := uint8ArrayToBigIntBE nullifierBytes; si_tokenMint := mint;
     si_amount := params.(wp_amount); si_spendingKey := spendingKey;
     si_ownerCommitmentBlinding := ownerBlinding; si_nonce := params.(wp_notePlaintext).(nonce);
     si_blindingR := params.(wp_notePlaintext).(Note.blindingR);
     si_merklePath := uint8ArrayToBigIntBE <$> mProof.(ip_siblings);
     si_merkleIndices := mProof.(ip_pathIndices) |}.

Definition getWithdrawFunction client params : M (World S) WithdrawReceipt :=
  _ ← guard_throw (params.(wp_amount) <=? 0) (DarkPoolError parameter "withdraw amount must be > 0" None);
  _ ← guard_throw (negb (params.(wp_amount) =? params.(wp_notePlaintext).(amount)))
        (DarkPoolError parameter
           "withdraw amount must equal the note's plaintext amount (no partial withdrawals)" None);
  keys ← getResolvedKeys client;
  let spendingKey := keys.(rk_spendingKey) in
  (* merkle-proof-fetch *)
  _ ← outside (run_pre params.(wp_callbacks) "merkle-proof-fetch");
  mProof ← in_stage merkle_proof_fetch
             (outside (client.(cl_providers).(getInclusionProof) params.(wp_leafIndex)));
  _ ← guard_throw (negb (length mProof.(ip_siblings) =? 20)%nat || negb (length mProof.(ip_pathIndices) =? 20)%nat)
        (DarkPoolError merkle_proof_fetch
           ("expected 20-level Merkle path, got " +:+ pretty (length mProof.(ip_siblings)) +:+ " siblings") None);
  (* note-build *)
  _ ← outside (run_pre params.(wp_callbacks) "note-build");
  commitment ← liftR (noteCommitment params.(wp_notePlaintext));
  nullifierBytes ← liftR (nullifier spendingKey commitment);
  (* proof-generation *)
  _ ← outside (run_pre params.(wp_callbacks) "proof-generation");
  keys ← getResolvedKeys client;
  let ownerBlinding := keys.(rk_ownerBlinding) in
  proof ← in_stage proof_generation
    (mint ← liftR (pubkeyPairBE params.(wp_tokenMint));
     outside (client.(cl_zkProver).(spend_prove)
       (spend_inputs params mProof nullifierBytes mint spendingKey ownerBlinding)));
  (* instruction-build *)
  _ ← outside (run_pre params.(wp_callbacks) "instruction-build");
  tokenMintPk ← liftR (publicKeyFromBytes params.(wp_tokenMint));
  ix ← liftR (buildWithdrawInstruction
    {| wi_programId := client.(cl_programId); wi_payer := params.(wp_payer); wi_tokenMint := tokenMintPk;
       destinationTokenAccount := params.(wp_destinationTokenAccount);
       wi_tokenProgramId := default TOKEN_PROGRAM_ID params.(wp_tokenProgramId);
       wi_noteCommitment := commitment; wi_nullifier := nullifierBytes; merkleRoot := mProof.(ip_root);
       wi_amount := params.(wp_amount);
       wi_proof := {| piA := proof.(pb_piA); piB := proof.(pb_piB); piC := proof.(pb_piC) |} |});
  (* transaction-send *)
  _ ← outside (run_pre params.(wp_callbacks) "transaction-send");
  signature ← in_stage transaction_send (outside (client.(cl_providers).(sendAndConfirm) [ix]));
  _ ← outside (run_post params.(wp_callbacks) "transaction-send" signature);
  mret {| wr_signature := signature; wr_nullifier := nullifierBytes; wr_merkleRoot := mProof.(ip_root) |}.
End withdraw.

(** ** The VALID_SPEND circuit

    A signal is a field element: an input is reduced modulo r before the
    constraints see it. *)
Section circuit.
Context `{Poseidon}.

Definition signal (x : Z) : Z := x mod BN254_R.

Definition MerkleTreeChecker (depth : nat) (leaf root : Z) (pathElements pathIndices : list Z) : bool :=
  (length pathElements =? depth)%nat && (length pathIndices =? depth)%nat &&
  bool_decide (fold_bits (λ l r, poseidon [l; r]) leaf pathElements pathIndices = Some root).

Definition ValidSpend (merkleDepth : nat) (i : SpendInputs) : bool :=
  let ownerCommitment := poseidon [signal i.(si_spendingKey); signal i.(si_ownerCommitmentBlinding)] in
  let noteCommitment := poseidon [signal i.(si_tokenMint).1; signal i.(si_tokenMint).2; signal i.(si_amount);
                                  ownerCommitment; signal i.(si_nonce); signal i.(si_blindingR)] in
  MerkleTreeChecker merkleDepth noteCommitment (signal i.(si_merkleRoot)) (signal <$> i.(si_merklePath))
    (signal <$> i.(si_merkleIndices)) &&
  (signal i.(si_nullifier) =? poseidon [signal i.(si_spendingKey); noteCommitment]).

(** The public signals, as 32 big-endian bytes each. *)
Definition spend_public (i : SpendInputs) : list bytes :=
  be_bytes 32 ∘ signal <$> [i.(si_merkleRoot); i.(si_nullifier); i.(si_tokenMint).1; i.(si_tokenMint).2;
                            i.(si_amount)].
End circuit.

(** ** Lemmas *)

Lemma in_stage_Ok {S A} stage (m : M S A) s a s' : in_stage stage m s = (Ok a, s') → m s = (Ok a, s').
Proof. unfold in_stage, try_catch, throw. by destruct (m s) as [[b|e] s1]. Qed.

Lemma pubkeyPairBE_spec pk : pubkeyPairBE pk = pubkeyToFrPair pk.
Proof. reflexivity. Qed.

Lemma pubkeyPairBE_Ok pk p :
  pubkeyPairBE pk = Ok p ↔ length pk = 32%nat ∧ p = (be_val (drop 16 pk), be_val (take 16 pk)).
Proof.
  rewrite pubkeyPairBE_spec, pubkeyToFrPair_spec. case_decide as Hl.
  - split; [by intros <-%Ok_inj|by intros [_ ->]].
  - split; [done|]. by intros [? _].
Qed.

Section circuit_lemmas.
Context `{Poseidon} `{!PoseidonLaws}.

Lemma signal_in x : 0 ≤ x < BN254_R → signal x = x.
Proof. apply Z.mod_small. Qed.

Lemma signal_poseidon l : signal (poseidon l) = poseidon l.
Proof. apply signal_in, poseidon_range. Qed.

Lemma signal_u64 x : 0 ≤ x < U64 → signal x = x.
Proof. intros Hx. apply signal_in. split; [lia|]. apply (Z.lt_trans _ U64); [lia|reflexivity]. Qed.

Lemma be_val_half bs : (length bs <= 16)%nat → 0 ≤ be_val bs < BN254_R.
Proof.
  intros Hl. pose proof (be_val_range bs) as [? Hu]. split; [done|]. eapply Z.lt_trans; [exact Hu|].
  apply (Z.le_lt_trans _ (256 ^ 16)); [apply Z.pow_le_mono_r; lia|reflexivity].
Qed.

(** The circuit's path check over field elements is the one over bytes. *)
Lemma fold_bits_field leaf sibs bits root :
  fold_bits hash2 leaf sibs bits = Some root →
  fold_bits (λ l r, poseidon [l; r]) (be_val leaf) (be_val <$> sibs) bits = Some (be_val root).
Proof.
  revert leaf bits; induction sibs as [|s sibs IH]; intros leaf [|b bits]; cbn [fold_bits fmap list_fmap]; try done.
  - by intros [= ->].
  - assert (Hh : ∀ a b, be_val (hash2 a b) = poseidon [be_val a; be_val b]).
    { intros. unfold hash2. apply be_val_field_bytes, poseidon_range. }
    rewrite <-!Hh. repeat case_decide; [apply IH|apply IH|done].
Qed.

Lemma signals_in l : Forall (λ x, 0 ≤ x < BN254_R) l → signal <$> l = l.
Proof. induction 1; cbn [fmap list_fmap]; [done|]. f_equal; [by apply signal_in|done]. Qed.

Lemma path_bits_signals i n : signal <$> path_bits i n = path_bits i n.
Proof.
  apply signals_in. revert i; induction n as [|n IH]; intros i; cbn [path_bits]; constructor; [|apply IH].
  pose proof (Nat.mod_upper_bound i 2 ltac:(lia)) as Hb. split; [lia|].
  apply (Z.le_lt_trans _ 1); [lia|reflexivity].
Qed.

Lemma field_signals l : Forall field_bytes l → signal <$> (be_val <$> l) = be_val <$> l.
Proof.
  intros Hl. apply signals_in. apply Forall_fmap. eapply Forall_impl; [exact Hl|]. intros b [_ Hb].
  split; [apply be_val_range|exact Hb].
Qed.
End circuit_lemmas.

Lemma getResolvedKeys_again `{NodeCrypto} {S} (c : DarkPoolClient S) w seed ks w' :
  w.1 = Some seed → getResolvedKeys c w = (Ok ks, w') → w' = w ∧ ks.(masterSeed) = seed.
Proof.
  intros Hw Hk. unfold getResolvedKeys in Hk. inv_steps. unfold mret, M_ret in Hk. injection Hk as <- <-.
  unfold resolvedSeed_ in Hm. rewrite Hw in Hm. by injection Hm as <- <-.
Qed.

(** What a successful withdrawal did: the path it fetched, the proof it asked
    for, and the instruction it sent. *)
Record withdraw_sent `{NodeCrypto} `{Poseidon} `{Web3} {S} (client : DarkPoolClient S) (params : WithdrawParams S)
    (receipt : WithdrawReceipt) (mp : InclusionProof) (sk : Z) (c : bytes) (pf : Groth16ProofBytes)
    (p : BuildWithdrawParams) : Prop := {
  ws_path : ∃ s1 s2, client.(cl_providers).(getInclusionProof) params.(wp_leafIndex) s1 = (Ok mp, s2);
  ws_proof : ∃ s1 s2, client.(cl_zkProver).(spend_prove)
    (spend_inputs params mp receipt.(wr_nullifier)
       (be_val (drop 16 params.(wp_tokenMint)), be_val (take 16 params.(wp_tokenMint))) sk
       client.(cl_ownerBlinding)) s1 = (Ok pf, s2);
  ws_send : ∃ ix s1 s2, buildWithdrawInstruction p = Ok ix ∧
    client.(cl_providers).(sendAndConfirm) [ix] s1 = (Ok receipt.(wr_signature), s2);
  ws_program : p.(wi_programId) = client.(cl_programId) ∧ p.(wi_payer) = params.(wp_payer) ∧
    p.(destinationTokenAccount) = params.(wp_destinationTokenAccount) ∧
    publicKeyFromBytes params.(wp_tokenMint) = Ok p.(wi_tokenMint) ∧
    p.(wi_tokenProgramId) = default TOKEN_PROGRAM_ID params.(wp_tokenProgramId);
  ws_args : p.(wi_noteCommitment) = c ∧ p.(wi_nullifier) = receipt.(wr_nullifier) ∧
    p.(merkleRoot) = mp.(ip_root) ∧ p.(wi_amount) = params.(wp_amount) ∧
    p.(wi_proof) = {| piA := pf.(pb_piA); piB := pf.(pb_piB); piC := pf.(pb_piC) |};
  ws_note : noteCommitment params.(wp_notePlaintext) = Ok c ∧ nullifier sk c = Ok receipt.(wr_nullifier);
  ws_root : receipt.(wr_merkleRoot) = mp.(ip_root);
  ws_levels : length mp.(ip_siblings) = 20%nat ∧ length mp.(ip_pathIndices) = 20%nat;
}.

Lemma withdraw_run_Ok `{NodeCrypto} `{Poseidon} `{Web3} {S} (client : DarkPoolClient S) params w receipt w' :
  getWithdrawFunction client params w = (Ok receipt, w') →
  0 < params.(wp_amount) ∧ params.(wp_amount) = params.(wp_notePlaintext).(amount) ∧
  length params.(wp_tokenMint) = 32%nat ∧
  ∃ mp seed sk c pf p, w'.1 = Some seed ∧ deriveSpendingKey seed = Ok sk ∧
    withdraw_sent client params receipt mp sk c pf p.
Proof.
  intros Hd. unfold getWithdrawFunction in Hd. inv_steps. apply Z.leb_gt in Hm.
  apply negb_false_iff, Z.eqb_eq in Hm0. apply orb_false_iff in Hm4 as [L1%negb_false_iff%Nat.eqb_eq L2%negb_false_iff%Nat.eqb_eq].
  destruct (getResolvedKeys_Ok _ _ _ _ Hm1) as (Hsk & _ & Hseed).
  destruct (getResolvedKeys_Ok _ _ _ _ Hm9) as (_ & Hob & _).
  apply in_stage_Ok in Hm3, Hm10, Hm15. apply M_bind_Ok in Hm10 as (mint & w10' & [Hmint ->]%liftR_inv & Hm10).
  apply pubkeyPairBE_Ok in Hmint as [Hl ->]. inv_outside.
  apply (getResolvedKeys_again _ _ (masterSeed a1)) in Hm9 as [-> _]; [|congruence].
  injection Hd as <- <-. split; [done|]. split; [done|]. split; [done|].
  exists a3, (masterSeed a1), (rk_spendingKey a1), a6, a10. eexists. split; [congruence|]. split; [done|].
  split; [eauto|rewrite <-Hob; cbn [wr_nullifier]; eauto|eexists _, _, _; split; [exact Hm13|exact Hm15]| | | | |].
  - split_and!; try reflexivity; assumption.
  - split_and!; reflexivity.
  - by split.
  - done.
  - by split.
Qed.

Section spend_lemmas.
Context `{Poseidon} `{!PoseidonLaws}.

(** Secrets, amounts and path elements the field holds. *)
Record spend_fits {S} (params : WithdrawParams S) (mp : InclusionProof) (sk ob : Z) : Prop := {
  sf_mint : length params.(wp_tokenMint) = 32%nat;
  sf_amount : 0 < params.(wp_amount) < U64;
  sf_whole : params.(wp_amount) = params.(wp_notePlaintext).(amount);
  sf_sk : 0 ≤ sk < BN254_R;
  sf_ob : 0 ≤ ob < BN254_R;
  sf_nonce : 0 ≤ params.(wp_notePlaintext).(nonce) < BN254_R;
  sf_blinding : 0 ≤ params.(wp_notePlaintext).(Note.blindingR) < BN254_R;
  sf_root : field_bytes mp.(ip_root);
  sf_path : Forall field_bytes mp.(ip_siblings);
  sf_bits : Forall (λ b, b = 0 ∨ b = 1) mp.(ip_pathIndices);
  sf_levels : length mp.(ip_siblings) = 20%nat ∧ length mp.(ip_pathIndices) = 20%nat;
}.

Definition mint_pair (mint : bytes) : Z * Z := (be_val (drop 16 mint), be_val (take 16 mint)).

(** The commitment the circuit recomputes from the inputs of a withdrawal. *)
Definition circuit_inputs {S} (params : WithdrawParams S) (sk ob : Z) : list Z :=
  [be_val (drop 16 params.(wp_tokenMint)); be_val (take 16 params.(wp_tokenMint)); params.(wp_amount);
   ownerCommitment sk ob; params.(wp_notePlaintext).(nonce); params.(wp_notePlaintext).(Note.blindingR)].

Lemma ValidSpend_fits {S} (params : WithdrawParams S) mp nf sk ob :
  spend_fits params mp sk ob → field_bytes nf →
  ValidSpend 20 (spend_inputs params mp nf (mint_pair params.(wp_tokenMint)) sk ob) = true ↔
  fold_bits (λ l r, poseidon [l; r]) (poseidon (circuit_inputs params sk ob))
    (be_val <$> mp.(ip_siblings)) mp.(ip_pathIndices) = Some (be_val mp.(ip_root)) ∧
  be_val nf = poseidon [sk; poseidon (circuit_inputs params sk ob)].
Proof.
  intros [? ? ? ? ? ? ? [? ?] Hp Hb [L1 L2]] [? ?].
  assert (Hs : signal <$> mp.(ip_pathIndices) = mp.(ip_pathIndices)).
  { apply signals_in. eapply Forall_impl; [exact Hb|]. intros b [-> | ->]; (split; [lia|reflexivity]). }
  unfold ValidSpend, spend_inputs, MerkleTreeChecker, mint_pair. change uint8ArrayToBigIntBE with be_val.
  cbn [si_spendingKey si_ownerCommitmentBlinding si_tokenMint si_amount si_nonce si_blindingR si_merkleRoot
       si_merklePath si_merkleIndices si_nullifier fst snd].
  rewrite (field_signals _ Hp), Hs, !length_fmap, L1, L2, (signal_u64 params.(wp_amount)) by lia.
  rewrite !signal_in by first [done | split; [apply be_val_range|done]
    | apply be_val_half; rewrite ?length_drop, ?length_take; lia].
  cbn [Nat.eqb andb]. rewrite andb_true_iff, bool_decide_eq_true, Z.eqb_eq. done.
Qed.
End spend_lemmas.

Lemma be_val_zeros n : be_val (replicate n x00) = 0.
Proof.
  induction n as [|n IH]; [done|]. cbn [replicate]. change (x00 :: replicate n x00) with ([x00] ++ replicate n x00).
  rewrite be_val_app, IH. reflexivity.
Qed.

(** Zero bytes in front of a short number. *)
Lemma be_bytes_pad m n v : 0 ≤ v < 256 ^ Z.of_nat n → be_bytes (m + n) v = replicate m x00 ++ be_bytes n v.
Proof.
  intros Hv. apply be_val_inj.
  - by rewrite length_app, length_replicate, !length_be_bytes.
  - rewrite be_val_app, be_val_zeros, !be_val_be_bytes. rewrite !Z.mod_small; [lia|lia|].
    split; [lia|]. eapply Z.lt_le_trans; [apply Hv|]. apply Z.pow_le_mono_r; lia.
Qed.

Lemma be_bytes_half bs : length bs = 16%nat → be_bytes 32 (be_val bs) = replicate 16 x00 ++ bs.
Proof.
  intros Hl. change 32%nat with (16 + 16)%nat. rewrite be_bytes_pad.
  - by rewrite be_bytes_be_val.
  - pose proof (be_val_range bs) as Hr. by rewrite Hl in Hr.
Qed.

Section spend_public_lemmas.
Context `{Poseidon} `{!PoseidonLaws}.

Lemma nullifier_Ok sk c nf : nullifier sk c = Ok nf → nf = be_bytes 32 (poseidon [sk; be_val c]) ∧ length c = 32%nat.
Proof.
  unfold nullifier. intros Hn. apply res_bind_Ok in Hn as (u & Hu & Hn). apply throw_if_Ok, negb_false_iff, Nat.eqb_eq in Hu.
  rewrite bn254ToBE32_in in Hn by apply poseidon_range. by apply Ok_inj in Hn as <-.
Qed.

Lemma poseidon_bytes_field l : field_bytes (be_bytes 32 (poseidon l)).
Proof. split; [apply length_be_bytes|]. rewrite be_val_field_bytes by apply poseidon_range. apply poseidon_range. Qed.

(** The public signals of the circuit are the public inputs the handler
    rebuilds from the instruction and the mint account. *)
Lemma spend_public_chain {S} (params : WithdrawParams S) mp nf sk ob :
  spend_fits params mp sk ob → field_bytes nf →
  spend_public (spend_inputs params mp nf (mint_pair params.(wp_tokenMint)) sk ob) =
  withdraw_public_inputs mp.(ip_root) nf params.(wp_tokenMint) params.(wp_amount).
Proof.
  intros Hf [Hn1 Hn2]. destruct Hf as [Hm [Ha0 Ha] _ _ _ _ _ [Hr1 Hr2] _ _ _].
  assert (Hrest : length (drop 16 params.(wp_tokenMint)) = 16%nat) by (rewrite length_drop; lia).
  assert (Htop : length (take 16 params.(wp_tokenMint)) = 16%nat) by (rewrite length_take; lia).
  unfold spend_public, spend_inputs, withdraw_public_inputs, pubkey_pair_be32, mint_pair, u64_be32.
  change uint8ArrayToBigIntBE with be_val.
  cbn [si_merkleRoot si_nullifier si_tokenMint si_amount fst snd fmap list_fmap]. unfold compose.
  rewrite (signal_u64 params.(wp_amount)) by lia. change 32%nat with (24 + 8)%nat at 5.
  rewrite (be_bytes_pad 24 8 params.(wp_amount)) by (change (256 ^ Z.of_nat 8) with U64; lia).
  rewrite !signal_in by first [split; [apply be_val_range|assumption]
    | apply be_val_half; first [rewrite Hrest | rewrite Htop]; reflexivity].
  by rewrite (be_bytes_half _ Hrest), (be_bytes_half _ Htop), !be_bytes_be_val by assumption.
Qed.
End spend_public_lemmas.

(** What a withdrawal of a note proves. *)
Definition owns_note `{Poseidon} {S} (params : WithdrawParams S) (mp : InclusionProof) (sk ob : Z) (c : bytes) : Prop :=
  params.(wp_notePlaintext).(tokenMint) = params.(wp_tokenMint) ∧
  params.(wp_notePlaintext).(ownerCommitment_) = ownerCommitment sk ob ∧
  fold_bits (λ l r, poseidon [l; r]) (be_val c) (be_val <$> mp.(ip_siblings)) mp.(ip_pathIndices)
    = Some (be_val mp.(ip_root)).

Lemma owns_note_valid `{Poseidon} `{!PoseidonLaws} {S} (params : WithdrawParams S) mp sk ob c nf :
  spend_fits params mp sk ob → noteCommitment params.(wp_notePlaintext) = Ok c → nullifier sk c = Ok nf →
  owns_note params mp sk ob c →
  ValidSpend 20 (spend_inputs params mp nf (mint_pair params.(wp_tokenMint)) sk ob) = true.
Proof.
  intros Hf Hc Hnf (Hm & Ho & Hp). pose proof (noteCommitment_Ok_length _ _ Hc) as [Hpl _].
  rewrite noteCommitment_spec in Hc by done. apply Ok_inj in Hc as <-. apply nullifier_Ok in Hnf as [-> _].
  rewrite (ValidSpend_fits params mp _ sk ob Hf (poseidon_bytes_field _)).
  rewrite be_val_field_bytes in Hp by apply poseidon_range.
  assert (E : circuit_inputs params sk ob = note_inputs params.(wp_notePlaintext)).
  { unfold circuit_inputs, note_inputs. by rewrite Hm, Ho, (sf_whole _ _ _ _ Hf). }
  rewrite E, !be_val_field_bytes by apply poseidon_range. by split.
Qed.

(** A withdrawal that passes every guard goes through. *)
Lemma withdraw_runs `{Poseidon} verify_spend mint slot c nf root a pf st :
  0 < a <= balance st mint → st.(vs_consumed) !! c = None → st.(vs_locks) !! c = None →
  st.(vs_nullifiers) !! nf = None → contains_root st.(vs_config) root = true →
  verify_spend pf (withdraw_public_inputs root nf mint a) = true →
  ∃ st', withdraw verify_spend mint slot c nf root a pf st = Ok st' ∧
    balance st' mint = balance st mint - a ∧ st'.(vs_nullifiers) !! nf = Some slot.
Proof.
  intros [Ha Hb] Hc Hl Hn Hr Hver. unfold withdraw, init. rewrite Hn. cbn [mbind res_bind].
  rewrite (proj2 (Z.ltb_lt _ _) Ha), Hc, Hl, Hr, Hver, (proj2 (Z.ltb_ge _ _) Hb).
  eexists. split; [reflexivity|]. unfold balance. cbn [vs_tokens vs_nullifiers]. by rewrite !lookup_insert_eq.
Qed.

(** ** Properties *)

(** The inputs a withdrawal gives the prover satisfy VALID_SPEND exactly
    when the note is the caller's: its mint is the one being withdrawn, its
    owner is the commitment of the client's spending key and blinding, and the
    fetched path leads from its commitment to the fetched root; otherwise they
    satisfy it only with a Poseidon collision. *)
Theorem withdraw_inputs_valid_iff `{Poseidon} `{!PoseidonLaws} {S} (params : WithdrawParams S) mp sk ob c nf :
  spend_fits params mp sk ob → noteCommitment params.(wp_notePlaintext) = Ok c → nullifier sk c = Ok nf →
  let i := spend_inputs params mp nf (mint_pair params.(wp_tokenMint)) sk ob in
  (owns_note params mp sk ob c → ValidSpend 20 i = true) ∧
  (ValidSpend 20 i = true → owns_note params mp sk ob c ∨ ∃ p, collides p).
Proof.
  intros Hf Hc Hnf. cbn zeta. split; [by apply owns_note_valid|].
  pose proof (noteCommitment_Ok_length _ _ Hc) as [Hpl _].
  rewrite noteCommitment_spec in Hc by done. apply Ok_inj in Hc as <-. apply nullifier_Ok in Hnf as [-> _].
  rewrite (ValidSpend_fits params mp _ sk ob Hf (poseidon_bytes_field _)). unfold owns_note.
  rewrite !be_val_field_bytes by apply poseidon_range.
  intros [Hp Hn]. destruct (decide (circuit_inputs params sk ob = note_inputs params.(wp_notePlaintext))) as [E|E].
  - left. rewrite E in Hp. unfold circuit_inputs, note_inputs in E. injection E as E1 E2 _ E3.
    split; [|split; [by rewrite <-E3|done]].
    symmetry. apply pair_halves_inj; [apply Hf|done|done|done].
  - right. destruct (decide (poseidon (circuit_inputs params sk ob) = poseidon (note_inputs params.(wp_notePlaintext))))
        as [Ep|Ep]; [by eexists (_, _)|].
      eexists ([sk; _], [sk; _]). split; [|exact Hn]. cbn [fst snd]. congruence.
Qed.

(** A note of a client in a one-leaf tree. *)
Definition sample_params : WithdrawParams () :=
  {| wp_payer := Toy.key_of (replicate 32 x02); wp_tokenMint := replicate 32 x03; wp_amount := 1000;
     wp_destinationTokenAccount := Toy.key_of (replicate 32 x04);
     wp_notePlaintext := {| tokenMint := replicate 32 x03; amount := 1000;
       ownerCommitment_ := @ownerCommitment Toy.toy_Poseidon 11 5; nonce := 7; Note.blindingR := 8 |};
     wp_leafIndex := 0; wp_tokenProgramId := None; wp_callbacks := None |}.

Definition sample_commitment : bytes :=
  be_bytes 32 (@poseidon Toy.toy_Poseidon (note_inputs sample_params.(wp_notePlaintext))).

Definition sample_path : InclusionProof :=
  let zeros := replicate 20 zero32 in
  {| ip_root := foldl (@hash2 Toy.toy_Poseidon) sample_commitment zeros; ip_siblings := zeros;
     ip_pathIndices := replicate 20 0 |}.

Lemma sample_fits : spend_fits sample_params sample_path 11 5.
Proof.
  assert (Hz : field_bytes zero32) by (split; vm_compute; reflexivity).
  split; [reflexivity|split; reflexivity|reflexivity|split; [discriminate|reflexivity]..|split; vm_compute; reflexivity| | |].
  - unfold sample_path. cbn [ip_siblings]. by apply Forall_replicate.
  - apply Forall_replicate. by left.
  - split; reflexivity.
Qed.

Lemma withdraw_inputs_valid_iff_witness :
  ∃ nf, @nullifier Toy.toy_Poseidon 11 sample_commitment = Ok nf ∧
    @ValidSpend Toy.toy_Poseidon 20
      (spend_inputs sample_params sample_path nf (mint_pair (replicate 32 x03)) 11 5) = true.
Proof.
  eexists. split; [vm_compute; reflexivity|].
  refine (proj1 (@withdraw_inputs_valid_iff Toy.toy_Poseidon Toy.toy_poseidon_laws _ sample_params sample_path 11 5
    sample_commitment _ sample_fits _ _) _).
  - vm_compute. reflexivity.
  - vm_compute. reflexivity.
  - split; [reflexivity|]. split; [reflexivity|]. vm_compute. reflexivity.
Defined.

(** A proof of the prover, as the instruction carries it. *)
Definition proof_on_chain (pf : Groth16ProofBytes) : Groth16Proof :=
  {| pi_a := pf.(pb_piA); pi_b := pf.(pb_piB); pi_c := pf.(pb_piC) |}.

(** The injected prover is complete for the verifier of the program. *)
Definition prover_complete `{Poseidon} {S} (prover : IDarkPoolZkProverSuite S)
    (verify_spend : Groth16Proof → list bytes → bool) : Prop :=
  ∀ i s1 pf s2, prover.(spend_prove) i s1 = (Ok pf, s2) → ValidSpend 20 i = true →
    verify_spend (proof_on_chain pf) (spend_public i) = true.

(** The provider's answer is the vault's path of a leaf. *)
Definition honest_path `{Poseidon} (mp : InclusionProof) (l : list bytes) (i : nat) : Prop :=
  mp = {| ip_root := vault_root l; ip_siblings := vault_path l i; ip_pathIndices := path_bits i 20 |}.

Section honest.
Context `{Poseidon} `{!PoseidonLaws}.

Lemma vault_path_field l i : Forall field_bytes l → Forall field_bytes (vault_path l i).
Proof.
  intros Hl. apply Forall_lookup. intros k b Hk. unfold vault_path in Hk.
  assert (Hlt : (k < TREE_DEPTH)%nat).
  { apply lookup_lt_Some in Hk. by rewrite length_path_from in Hk. }
  rewrite (path_from_lookup hash2 _ _ _ _ _ Hlt) in Hk. injection Hk as <-. by apply vault_node_field.
Qed.

Lemma path_bits_01 i n : Forall (λ b, b = 0 ∨ b = 1) (path_bits i n).
Proof.
  revert i; induction n as [|n IH]; intros i; cbn [path_bits]; constructor; [|apply IH].
  pose proof (Nat.mod_upper_bound i 2 ltac:(lia)). lia.
Qed.

Lemma honest_fold cfg l i mp c :
  vault_repr cfg l → l !! i = Some c → honest_path mp l i →
  field_bytes mp.(ip_root) ∧ Forall field_bytes mp.(ip_siblings) ∧
  Forall (λ b, b = 0 ∨ b = 1) mp.(ip_pathIndices) ∧
  fold_bits (λ l r, poseidon [l; r]) (be_val c) (be_val <$> mp.(ip_siblings)) mp.(ip_pathIndices)
    = Some (be_val mp.(ip_root)) ∧ contains_root cfg mp.(ip_root) = true.
Proof.
  intros Hv Hi ->. cbn [ip_root ip_siblings ip_pathIndices]. pose proof (repr_leaves _ _ (proj1 Hv)) as Hl.
  split; [exact (vault_node_field l _ _ Hl)|]. split; [exact (vault_path_field l i Hl)|].
  split; [apply path_bits_01|]. split.
  - apply fold_bits_field. apply (vault_path_checks l i c); [exact (repr_max _ _ (proj1 Hv))|exact Hi].
  - apply (contains_root_spec _ _ _ (proj2 Hv)). left. symmetry. exact (repr_root _ _ (proj1 Hv)).
Qed.
End honest.


(** A client whose provider answers a given path and whose prover answers zero
    bytes. *)
Definition withdraw_client (mp : InclusionProof) : DarkPoolClient () :=
  {| cl_programId := Toy.zero_key; cl_matchingEngineProgramId := None; cl_perRpcUrl := "";
     cl_seedMode := wallet_signature (λ m, mret m) None; cl_randomBytes n := mret (replicate n x00);
     cl_tradingOffset := None; cl_ownerBlinding := 5;
     cl_providers := {| getAccountInfo _ := mret None; sendAndConfirm _ := mret "sig";
                        getInclusionProof _ := mret mp |};
     cl_zkProver :=
       {| walletCreate_prove _ := throw (Error "unused");
          spend_prove _ := mret {| pb_piA := replicate 64 x00; pb_piB := replicate 128 x00;
                                   pb_piC := replicate 64 x00; publicInputs := [] |} |} |}.

Definition sample_seed : bytes :=
  match (@resolvedSeed_ Toy.toy_crypto _ (withdraw_client sample_path) (None, ())).1 with
  | Ok seed => seed | Throw _ => [] end.
Definition sample_sk : Z := match @deriveSpendingKey Toy.toy_crypto sample_seed with Ok sk => sk | Throw _ => 0 end.

Definition own_params : WithdrawParams () :=
  {| wp_payer := Toy.key_of (replicate 32 x02); wp_tokenMint := replicate 32 x03; wp_amount := 1000;
     wp_destinationTokenAccount := Toy.key_of (replicate 32 x04);
     wp_notePlaintext := {| tokenMint := replicate 32 x03; amount := 1000;
       ownerCommitment_ := @ownerCommitment Toy.toy_Poseidon sample_sk 5; nonce := 7; Note.blindingR := 8 |};
     wp_leafIndex := 0; wp_tokenProgramId := None; wp_callbacks := None |}.

Definition own_commitment : bytes :=
  be_bytes 32 (@poseidon Toy.toy_Poseidon (note_inputs own_params.(wp_notePlaintext))).

Lemma own_commitment_Ok : @noteCommitment Toy.toy_Poseidon own_params.(wp_notePlaintext) = Ok own_commitment.
Proof. vm_compute. reflexivity. Qed.

Ltac cells l n :=
  lazymatch n with
  | O => destruct l; [|discriminate]
  | S ?n => let x := fresh "x" in destruct l as [|x l]; [discriminate|]; cells l n
  end.

Lemma own_run r sibs :
  length r = 32%nat → length sibs = 20%nat →
  ∃ receipt, @getWithdrawFunction Toy.toy_crypto Toy.toy_Poseidon Toy.toy_web3 _
    (withdraw_client {| ip_root := r; ip_siblings := sibs; ip_pathIndices := replicate 20 0 |}) own_params (None, ())
    = (Ok receipt, (Some sample_seed, ())).
Proof.
  intros Hr Hs. cells r 32%nat. cells sibs 20%nat. eexists. vm_compute. reflexivity.
Qed.

(** A vault that holds the note as its only leaf. *)
Lemma own_vault : ∃ cfg, @vault_repr Toy.toy_Poseidon cfg [own_commitment].
Proof.
  destruct (@initialize_repr Toy.toy_Poseidon Toy.toy_poseidon_laws [] [] []) as (cfg & _ & Hv & _).
  destruct (@append_leaf_repr Toy.toy_Poseidon Toy.toy_poseidon_laws cfg [] own_commitment Hv
    (@poseidon_bytes_field Toy.toy_Poseidon Toy.toy_poseidon_laws _) (pow2_pos _)) as (cfg' & _ & Hv').
  exists cfg'. exact Hv'.
Qed.

Definition own_state (cfg : VaultConfig) : VaultState :=
  {| vs_config := cfg; vs_locks := ∅; vs_consumed := ∅; vs_nullifiers := ∅; vs_wallets := ∅;
     vs_tokens := {[ replicate 32 x03 := 1500 ]}; vs_funded := ∅ |}.

