(* ===== verification/Session.v ===== *)
(** The session with the TEE ([per/attestation.ts], [per/session-manager.ts]):
    attestation, the signed-nonce handshake for a bearer token, its cache, and
    the post of an instruction.

    [fetch] and the trading key's signature are parameters: a request is
    answered by a status and a body, or fails.  [SessionManager] is what a
    session manager promises to the order pipelines. *)

From Stdlib Require Import Ascii.
From S2P Require Import Prelude Bytes Errors Externals Client.

Local Open Scope Z_scope.

(** ** Requests and responses *)

(** The values given to [JSON.stringify]. *)
Inductive Json :=
  | JNull
  | JBool (b : bool)
  | JNum (n : Z)
  | JLit (literal : string)
  | JStr (s : string)
  | JArr (l : list Json)
  | JObj (l : list (string * Json)).

Record HttpRequest := {
  rq_url : string; rq_method : string; rq_headers : list (string * string); rq_body : option Json }.

(** The fields the sources read of a parsed body, as the types they cast it to;
    an [error] that is present and truthy carries its [JSON.stringify]. *)
Record ReplyBody := {
  rb_nonce : list Z; rb_token : option string; rb_result : option string; rb_error : option string }.

Record HttpResponse := { rs_status : Z; rs_arrayBuffer : bytes; rs_json : res ReplyBody }.

(** [res.ok] *)
Definition rs_ok (r : HttpResponse) : bool := (200 <=? r.(rs_status)) && (r.(rs_status) <=? 299).

(** A string in a condition: [undefined], [null] and "" are falsy. *)
Definition truthy (s : option string) : option string :=
  match s with Some "" => None | _ => s end.

(** [url.replace(/\/$/, "")] *)
Fixpoint strip_slash (url : string) : string :=
  match url with
  | EmptyString => ""
  | String c url =>
      if decide (c = "/"%char ∧ url = EmptyString) then "" else String c (strip_slash url)
  end.

(** [new Uint8Array(numbers)] and [Array.from(bytes)] *)
Definition from_numbers (l : list Z) : bytes := u8_of_Z <$> l.
Definition to_numbers (bs : bytes) : Json := JArr (JNum ∘ u8_val <$> bs).

(** [toString("base64")] *)
Definition b64_digit (n : Z) : ascii :=
  match String.get (Z.to_nat n) "ABCDEFGHIJKLMNOPQRSTUVWXYZabcdefghijklmnopqrstuvwxyz0123456789+/" with
  | Some c => c | None => "="%char end.

Fixpoint base64 (bs : bytes) : string :=
  match bs with
  | [] => ""
  | [a] =>
      let v := Z.shiftl (u8_val a) 16 in
      String (b64_digit (Z.shiftr v 18)) (String (b64_digit (Z.land (Z.shiftr v 12) 63)) "==")
  | [a; b] =>
      let v := Z.lor (Z.shiftl (u8_val a) 16) (Z.shiftl (u8_val b) 8) in
      String (b64_digit (Z.shiftr v 18)) (String (b64_digit (Z.land (Z.shiftr v 12) 63))
        (String (b64_digit (Z.land (Z.shiftr v 6) 63)) "="))
  | a :: b :: c :: bs =>
      let v := Z.lor (Z.lor (Z.shiftl (u8_val a) 16) (Z.shiftl (u8_val b) 8)) (u8_val c) in
      String (b64_digit (Z.shiftr v 18)) (String (b64_digit (Z.land (Z.shiftr v 12) 63))
        (String (b64_digit (Z.land (Z.shiftr v 6) 63)) (String (b64_digit (Z.land v 63)) (base64 bs))))
  end.

Example base64_known : base64 (ascii_bytes "Many hands") = "TWFueSBoYW5kcw==".
Proof. reflexivity. Qed.

(** ** Attestation *)

Definition AttestationVerifier (S : Type) : Type := string → M S bool.

Definition defaultAttestationVerifier {S} (fetch : HttpRequest → M S HttpResponse) : AttestationVerifier S := λ perRpcUrl,
  let url := (strip_slash perRpcUrl +:+ "/attestation")%string in
  res ← fetch {| rq_url := url; rq_method := "GET"; rq_headers := []; rq_body := None |};
  if negb (rs_ok res) then mret false
  else
    let buf := res.(rs_arrayBuffer) in
    if (length buf <? 64)%nat then mret false
    else if bool_decide (head buf = Some x04) then mret true else mret false.

Definition alwaysPassAttestation {S} : AttestationVerifier S := λ _, mret true.
Definition alwaysFailAttestation {S} : AttestationVerifier S := λ _, mret false.

(** ** Session managers *)

Record OrderSubmitContext := { traderPubkey : bytes }.

Record IPerSessionManager (T : Type) := {
  verifyAttestation : M T bool;
  getToken : M T string;
  invalidateToken : M T ();
  sendInstruction : TransactionInstruction → string → OrderSubmitContext → M T string }.
Arguments verifyAttestation {T}.
Arguments getToken {T}.
Arguments invalidateToken {T}.
Arguments sendInstruction {T}.

Record LivePerSessionManagerOptions (S : Type) := {
  lo_perRpcUrl : string; lo_traderPubkey : bytes; lo_signNonce : bytes → M S bytes;
  lo_attestationVerifier : option (AttestationVerifier S);
  lo_fetchImpl : option (HttpRequest → M S HttpResponse) }.
Arguments lo_perRpcUrl {S}.
Arguments lo_traderPubkey {S}.
Arguments lo_signNonce {S}.
Arguments lo_attestationVerifier {S}.
Arguments lo_fetchImpl {S}.

(** The state of a live manager is its [cachedToken], beside the world. *)
Section live.
Context {S : Type} (fetch : HttpRequest → M S HttpResponse).
Implicit Types o : LivePerSessionManagerOptions S.

(** [opts.fetchImpl ?? fetch]; the default verifier keeps the global [fetch]. *)
Definition fetchImpl o : HttpRequest → M S HttpResponse := default fetch o.(lo_fetchImpl).

Definition perRpcUrl_ o : string := strip_slash o.(lo_perRpcUrl).

Definition post_json (url : string) (body : Json) : HttpRequest :=
  {| rq_url := url; rq_method := "POST"; rq_headers := [("content-type", "application/json")];
     rq_body := Some body |}.

Definition challenge_request o : HttpRequest :=
  post_json (perRpcUrl_ o +:+ "/auth/challenge") (JObj [("pubkey", to_numbers o.(lo_traderPubkey))]).

Definition token_request o (nonce sig : bytes) : HttpRequest :=
  post_json (perRpcUrl_ o +:+ "/auth/token")
    (JObj [("pubkey", to_numbers o.(lo_traderPubkey)); ("nonce", to_numbers nonce);
           ("signature", to_numbers sig)]).

Definition submit_request o (ix : TransactionInstruction) (jwt : string) : HttpRequest :=
  let ixBytes := toBytes ix.(ix_programId) ++ ix.(ix_data) in
  {| rq_url := perRpcUrl_ o; rq_method := "POST";
     rq_headers := [("content-type", "application/json"); ("authorization", "Bearer " +:+ jwt)];
     rq_body := Some (JObj [("jsonrpc", JStr "2.0"); ("id", JNum 1); ("method", JStr "submitOrderIx");
                            ("params", JArr [JStr (base64 ixBytes); JObj [("encoding", JStr "base64")]])]) |}.

Definition fetchNewToken o : M S string :=
  nonceRes ← fetchImpl o (challenge_request o);
  _ ← guard_throw (negb (rs_ok nonceRes))
        (DarkPoolError auth_token_fetch ("challenge fetch failed: " +:+ pretty nonceRes.(rs_status)) None);
  nonceJson ← liftR nonceRes.(rs_json);
  let nonce := from_numbers nonceJson.(rb_nonce) in
  sig ← o.(lo_signNonce) nonce;
  tokRes ← fetchImpl o (token_request o nonce sig);
  _ ← guard_throw (negb (rs_ok tokRes))
        (DarkPoolError auth_token_fetch ("token exchange failed: " +:+ pretty tokRes.(rs_status)) None);
  tokJson ← liftR tokRes.(rs_json);
  match truthy tokJson.(rb_token) with
  | Some token => mret token
  | None => throw (DarkPoolError auth_token_fetch "no token in response" None)
  end.

Definition Session : Type := option string * S.

Definition set_cached (token : option string) : M Session () := λ w, (Ok tt, (token, w.2)).

Definition live_getToken o : M Session string := λ w,
  match truthy w.1 with
  | Some token => (Ok token, w)
  | None => (token ← outside (fetchNewToken o); _ ← set_cached (Some token); mret token) w
  end.

Definition live_invalidateToken : M Session () := set_cached None.

Definition live_sendInstruction o (ix : TransactionInstruction) (jwt : string) (_ctx : OrderSubmitContext)
    : M Session string :=
  res ← outside (fetchImpl o (submit_request o ix jwt));
  if res.(rs_status) =? 401 then
    _ ← live_invalidateToken;
    throw (DarkPoolError auth_token_fetch "JWT expired / rejected" None)
  else
    _ ← guard_throw (negb (rs_ok res))
          (DarkPoolError transaction_send ("PER RPC returned " +:+ pretty res.(rs_status)) None);
    json ← liftR res.(rs_json);
    match json.(rb_error) with
    | Some error => throw (DarkPoolError transaction_send ("PER RPC error: " +:+ error) None)
    | None =>
        match truthy json.(rb_result) with
        | Some result => mret result
        | None => throw (DarkPoolError transaction_send "PER RPC empty result" None)
        end
    end.

Definition LivePerSessionManager o : IPerSessionManager Session :=
  let verifier := default (defaultAttestationVerifier fetch) o.(lo_attestationVerifier) in
  {| verifyAttestation := outside (verifier (perRpcUrl_ o));
     getToken := live_getToken o;
     invalidateToken := live_invalidateToken;
     sendInstruction := live_sendInstruction o |}.
End live.
Arguments Session S : clear implicits.

(** [MockPerSessionManager]: its public fields are the state. *)
Record MockState := {
  attestationOk : bool; fixedToken : string; tokenFetchCount : Z; sendCallCount : Z; injectNext401 : bool;
  injectNextFailure : option exn; lastIx : option TransactionInstruction; lastJwt : option string }.

Definition mock_initial : MockState :=
  {| attestationOk := true; fixedToken := "mock_jwt_ok"; tokenFetchCount := 0; sendCallCount := 0;
     injectNext401 := false; injectNextFailure := None; lastIx := None; lastJwt := None |}.

Definition mock_getToken : M MockState string := λ s,
  (Ok s.(fixedToken),
   {| attestationOk := s.(attestationOk); fixedToken := s.(fixedToken); tokenFetchCount := s.(tokenFetchCount) + 1;
      sendCallCount := s.(sendCallCount); injectNext401 := s.(injectNext401);
      injectNextFailure := s.(injectNextFailure); lastIx := s.(lastIx); lastJwt := s.(lastJwt) |}).

Definition mock_invalidateToken : M MockState () := λ s,
  (Ok tt,
   {| attestationOk := s.(attestationOk);
      fixedToken := s.(fixedToken) +:+ "_refreshed_" +:+ pretty s.(tokenFetchCount);
      tokenFetchCount := s.(tokenFetchCount); sendCallCount := s.(sendCallCount);
      injectNext401 := s.(injectNext401); injectNextFailure := s.(injectNextFailure);
      lastIx := s.(lastIx); lastJwt := s.(lastJwt) |}).

(** [this.sendCallCount += 1; this.lastIx = ix; this.lastJwt = jwt] and the two
    injection flags. *)
Definition mock_sent (ix : TransactionInstruction) (jwt : string) (failure : option exn) (next401 : bool)
    (s : MockState) : MockState :=
  {| attestationOk := s.(attestationOk); fixedToken := s.(fixedToken); tokenFetchCount := s.(tokenFetchCount);
     sendCallCount := s.(sendCallCount) + 1; injectNext401 := next401; injectNextFailure := failure;
     lastIx := Some ix; lastJwt := Some jwt |}.

Definition mock_sendInstruction (replySignature : string) (ix : TransactionInstruction) (jwt : string)
    (_ctx : OrderSubmitContext) : M MockState string := λ s,
  match s.(injectNextFailure) with
  | Some err => (Throw err, mock_sent ix jwt None s.(injectNext401) s)
  | None =>
      if s.(injectNext401) then
        (_ ← mock_invalidateToken; throw (DarkPoolError auth_token_fetch "mock 401" None))
          (mock_sent ix jwt None false s)
      else (Ok replySignature, mock_sent ix jwt None false s)
  end.

Definition MockPerSessionManager (replySignature : option string) : IPerSessionManager MockState :=
  {| verifyAttestation := λ s, (Ok s.(attestationOk), s);
     getToken := mock_getToken;
     invalidateToken := mock_invalidateToken;
     sendInstruction := mock_sendInstruction (default "mock_sig_stub" replySignature) |}.

(** ** What a session manager promises

    [cached s] is the token [getToken] would answer without asking the TEE. *)
Class SessionManager {T} (m : IPerSessionManager T) := {
  cached : T → option string;
  getToken_cached : ∀ s t, cached s = Some t → m.(getToken) s = (Ok t, s);
  getToken_caches : ∀ s t s', m.(getToken) s = (Ok t, s') → cached s' = None ∨ cached s' = Some t;
  invalidate_clears : ∀ s r s', m.(invalidateToken) s = (r, s') → r = Ok () ∧ cached s' = None;
  rejected_clears : ∀ ix jwt ctx s e s',
    m.(sendInstruction) ix jwt ctx s = (Throw e, s') → exn_stage e = Some auth_token_fetch → cached s' = None;
}.

(** [fetch] and [res.json()] fail with errors of the runtime, not of the SDK. *)
Record plain_errors {S} (f : HttpRequest → M S HttpResponse) : Prop := {
  pe_fetch : ∀ r s e s', f r s = (Throw e, s') → is_dark e = false;
  pe_json : ∀ r s a s' e, f r s = (Ok a, s') → a.(rs_json) = Throw e → is_dark e = false }.

Lemma plain_stage e : is_dark e = false → exn_stage e = None.
Proof. by destruct e. Qed.

Lemma truthy_Some t s : truthy t = Some s ↔ t = Some s ∧ s ≠ EmptyString.
Proof. destruct t as [[|c t]|]; cbn; split; try done; [by intros [[= <-] ?]|by intros [= <-]|by intros [? _]|by intros [? _]]. Qed.

#[export] Instance mock_session rep : SessionManager (MockPerSessionManager rep).
Proof.
  refine {| cached _ := None |}.
  - done.
  - intros. by left.
  - intros s r s' [= <- <-]. done.
  - done.
Defined.

Section live_lemmas.
Context {S : Type} (fetch : HttpRequest → M S HttpResponse).
Implicit Types o : LivePerSessionManagerOptions S.

Lemma live_getToken_run o w :
  live_getToken fetch o w =
  match truthy w.1 with
  | Some token => (Ok token, w)
  | None => match fetchNewToken fetch o w.2 with
            | (Ok token, s) => (Ok token, (Some token, s))
            | (Throw e, s) => (Throw e, (w.1, s))
            end
  end.
Proof.
  unfold live_getToken. destruct (truthy w.1); [done|]. unfold mbind, M_bind, outside, set_cached.
  by destruct (fetchNewToken _ _ _) as [[t|e] s].
Qed.

Lemma fetchNewToken_Ok o s t s' :
  fetchNewToken fetch o s = (Ok t, s') →
  t ≠ "" ∧ ∃ r1 s1 body sig s2 r2,
    fetchImpl fetch o (challenge_request o) s = (Ok r1, s1) ∧ rs_ok r1 = true ∧ r1.(rs_json) = Ok body ∧
    o.(lo_signNonce) (from_numbers body.(rb_nonce)) s1 = (Ok sig, s2) ∧
    fetchImpl fetch o (token_request o (from_numbers body.(rb_nonce)) sig) s2 = (Ok r2, s') ∧
    rs_ok r2 = true ∧ (rb_token <$> r2.(rs_json)) = Ok (Some t).
Proof.
  unfold fetchNewToken. intros Hf. inv_steps. apply negb_false_iff in Hm0, Hm4.
  destruct (truthy _) as [t'|] eqn:Ht; [|done]. injection Hf as <- <-. apply truthy_Some in Ht as [Ht Hne].
  split; [done|]. do 6 eexists. split_and!; try eassumption. rewrite Hm5. cbn. by rewrite Ht.
Qed.

Lemma live_send_401 o ix jwt ctx w e w' :
  plain_errors (fetchImpl fetch o) →
  live_sendInstruction fetch o ix jwt ctx w = (Throw e, w') → exn_stage e = Some auth_token_fetch →
  w'.1 = None ∧ ∃ r s, fetchImpl fetch o (submit_request o ix jwt) w.2 = (Ok r, s) ∧ r.(rs_status) = 401.
Proof.
  intros Hp Hs He. unfold live_sendInstruction in Hs. inv_M Hs.
  { injection Hs as <-. unfold outside in Hm. destruct (fetchImpl _ _ _ _) as [[?|e'] s1] eqn:E; [done|].
    injection Hm as -> <-. apply (pe_fetch _ Hp), plain_stage in E. congruence. }
  apply outside_Ok in Hm as [Hf Hw]. destruct (Z.eqb_spec (rs_status a) 401) as [H401|_].
  { injection Hs as <- <-. split; [done|]. eauto. }
  exfalso. inv_M Hs; apply liftR_inv in Hm as [Hx ->].
  { injection Hs as <-. unfold throw_if in Hx. destruct (negb _); [|done]. injection Hx as <-. done. }
  inv_M Hs; apply liftR_inv in Hm as [Hj ->].
  { injection Hs as <-. apply (pe_json _ Hp _ _ _ _ _ Hf), plain_stage in Hj. congruence. }
  destruct (rb_error _); [injection Hs as <- <-; done|]. destruct (truthy _); [done|].
  injection Hs as <- <-. done.
Qed.

#[export] Instance live_session o (Hp : plain_errors (fetchImpl fetch o)) :
  SessionManager (LivePerSessionManager fetch o).
Proof.
  refine {| cached w := truthy w.1 |}.
  - intros w t Ht. cbn [getToken LivePerSessionManager]. by rewrite live_getToken_run, Ht.
  - intros w t w'. cbn [getToken LivePerSessionManager]. rewrite live_getToken_run.
    destruct (truthy w.1) eqn:E; [intros [= <- <-]; by right|].
    destruct (fetchNewToken _ _ _) as [[t'|e] s] eqn:F; [|done]. intros [= <- <-]. right.
    apply truthy_Some. split; [done|]. by apply fetchNewToken_Ok in F as [? _].
  - by intros w r w' [= <- <-].
  - intros ix jwt ctx w e w' Hs He. cbn [sendInstruction LivePerSessionManager] in Hs.
    destruct (live_send_401 _ _ _ _ _ _ _ Hp Hs He) as [-> _]. done.
Defined.
End live_lemmas.

(** ** Properties *)

(** The token of a live session.  While one is cached, [getToken] answers
    it and makes no request.  Otherwise it runs the handshake: it asks for a
    challenge, signs exactly the nonce of the reply, posts that nonce and
    signature, and caches a non-empty token only when both replies were
    successful; if anything fails, nothing is cached.  A 401 to an instruction
    clears the cache, so the next token comes from a handshake; nothing else
    that a send does changes it. *)
Theorem live_session_token {S} fetch (o : LivePerSessionManagerOptions S) (w : Session S) :
  plain_errors (fetchImpl fetch o) →
  let m := LivePerSessionManager fetch o in
  (∀ t, truthy w.1 = Some t → m.(getToken) w = (Ok t, w)) ∧
  (truthy w.1 = None → ∀ r w', m.(getToken) w = (r, w') →
     match r with
     | Ok t => t ≠ "" ∧ w'.1 = Some t ∧
         ∃ r1 s1 body sig s2 r2,
           fetchImpl fetch o (challenge_request o) w.2 = (Ok r1, s1) ∧ rs_ok r1 = true ∧ r1.(rs_json) = Ok body ∧
           o.(lo_signNonce) (from_numbers body.(rb_nonce)) s1 = (Ok sig, s2) ∧
           fetchImpl fetch o (token_request o (from_numbers body.(rb_nonce)) sig) s2 = (Ok r2, w'.2) ∧
           rs_ok r2 = true ∧ (rb_token <$> r2.(rs_json)) = Ok (Some t)
     | Throw _ => truthy w'.1 = None
     end) ∧
  (∀ ix jwt ctx r w', m.(sendInstruction) ix jwt ctx w = (r, w') →
     match r with
     | Ok sig => sig ≠ "" ∧ w'.1 = w.1
     | Throw e => if decide (exn_stage e = Some auth_token_fetch) then w'.1 = None else w'.1 = w.1
     end).
Proof.
  intros Hp. cbn zeta. cbn [LivePerSessionManager getToken sendInstruction]. split; [|split].
  - intros t Ht. by rewrite live_getToken_run, Ht.
  - intros Hn r w'. rewrite live_getToken_run, Hn. destruct (fetchNewToken _ _ _) as [[t|e] s] eqn:F.
    + intros [= <- <-]. apply fetchNewToken_Ok in F as [Hne Hf]. by split_and!.
    + by intros [= <- <-].
  - intros ix jwt ctx [sig|e] w' Hs.
    + unfold live_sendInstruction in Hs. apply M_bind_Ok in Hs as (a & w1 & [Hf Hw]%outside_Ok & Hs).
      destruct (_ =? _); [by inv_steps|]. inv_steps. destruct (rb_error _); [done|].
      destruct (truthy _) as [s|] eqn:E; [|done]. injection Hs as <- <-. by apply truthy_Some in E as [_ ?].
    + case_decide as He; [by apply (live_send_401 _ _ _ _ _ _ _ _ Hp Hs)|].
      unfold live_sendInstruction in Hs. inv_M Hs.
      { unfold outside in Hm. destruct (fetchImpl _ _ _ _) as [[?|e'] s1]; [done|]. by injection Hm as _ <-. }
      apply outside_Ok in Hm as [_ Hw]. destruct (_ =? _); [injection Hs as <- <-; done|].
      inv_M Hs; apply liftR_inv in Hm as [_ ->]; [done|]. inv_M Hs; apply liftR_inv in Hm as [_ ->]; [done|].
      destruct (rb_error _); [by injection Hs as _ <-|]. destruct (truthy _); [done|]. by injection Hs as _ <-.
Qed.

(** A TEE that accepts every signature. *)
Definition sample_fetch (_ : HttpRequest) : M () HttpResponse :=
  mret {| rs_status := 200; rs_arrayBuffer := x04 :: replicate 63 x00;
          rs_json := Ok {| rb_nonce := [7; 8]; rb_token := Some "jwt"; rb_result := Some "sig"; rb_error := None |} |}.

Definition sample_live : LivePerSessionManagerOptions () :=
  {| lo_perRpcUrl := "https://per/"; lo_traderPubkey := replicate 32 x01; lo_signNonce := λ nonce, mret nonce;
     lo_attestationVerifier := None; lo_fetchImpl := None |}.

Lemma sample_plain : plain_errors (fetchImpl sample_fetch sample_live).
Proof. split; [done|]. by intros r s a s' e [= <- <-]. Qed.

Lemma live_session_token_witness :
  ((LivePerSessionManager sample_fetch sample_live).(getToken) (Some "old", tt)).1 = Ok "old" ∧
  ∃ w', (LivePerSessionManager sample_fetch sample_live).(getToken) (None, tt) = (Ok "jwt", w') ∧ w'.1 = Some "jwt".
Proof.
  split.
  - rewrite (proj1 (live_session_token sample_fetch sample_live (Some "old", tt) sample_plain) "old" eq_refl). reflexivity.
  - eexists. split; [reflexivity|].
    exact (proj1 (proj2 (proj1 (proj2 (live_session_token sample_fetch sample_live (None, tt) sample_plain)) eq_refl
      (Ok "jwt") _ eq_refl))).
Defined.
