(* ===== verification/Orders.v ===== *)
(** Order submission and cancellation ([orders/submit-order.ts],
    [orders/cancel-order.ts]) over a session manager, the protocol they
    implement, and the handlers of the matching engine that execute them
    ([submit_order.rs], [cancel_order.rs]). *)

From S2P Require Import Prelude Bytes Errors Externals Borsh VaultClient.
From S2P Require Import MatchingEngineClient MatchingProgram Client Session.

Local Open Scope Z_scope.

(** ** The pipelines *)

Inductive OrderSide := bid | ask.
Inductive OrderTypeName := limit | ioc | fok.

Record OrderParams := {
  op_tradingKey : PublicKey; op_market : PublicKey; op_slotIdx : Z; op_userCommitment : bytes;
  op_noteCommitment : bytes; op_amount : Z; op_priceLimit : Z; op_side : OrderSide; op_noteAmount : Z;
  op_expirySlot : Z; op_orderId : bytes; op_orderType : option OrderTypeName; op_minFillQty : option Z }.

Definition ORDER_TYPE_BY_NAME (name : OrderTypeName) : OrderType :=
  match name with limit => Limit | ioc => IOC | fok => FOK end.

Record OrderReceipt := { or_signature : string; or_pendingOrderPda : PublicKey }.

Record CancelOrderParams := { cp_tradingKey : PublicKey; cp_market : PublicKey; cp_slotIdx : Z }.

Definition param_error (message : string) : exn := DarkPoolError parameter message None.

(** [catch (err) { if (err instanceof DarkPoolError) throw err; throw new DarkPoolError(stage, ...) }] *)
Definition staged {T A} (stage : DarkPoolErrorStage) (prefix : string) (m : M T A) : M T A :=
  try_catch m (λ err, throw (if is_dark err then err
                             else DarkPoolError stage (prefix +:+ exn_string err) None)).

Section orders.
Context `{NodeCrypto} `{Web3} {S T : Type}.
Implicit Types (client : DarkPoolClient S) (sm : IPerSessionManager T).

Definition order_checks (params : OrderParams) : res () :=
  _ ← throw_if (negb (length params.(op_noteCommitment) =? 32)%nat) (param_error "noteCommitment must be 32 bytes");
  _ ← throw_if (negb (length params.(op_userCommitment) =? 32)%nat) (param_error "userCommitment must be 32 bytes");
  _ ← throw_if (negb (length params.(op_orderId) =? 16)%nat) (param_error "orderId must be 16 bytes");
  _ ← throw_if (params.(op_amount) <=? 0) (param_error "amount must be > 0");
  _ ← throw_if (params.(op_priceLimit) <=? 0) (param_error "priceLimit must be > 0");
  _ ← throw_if ((params.(op_slotIdx) <? 0) || (MAX_PENDING_SLOTS_PER_USER <=? params.(op_slotIdx)))
        (param_error ("slotIdx must be in [0, " +:+ pretty MAX_PENDING_SLOTS_PER_USER +:+ ")"));
  let notional := params.(op_amount) * params.(op_priceLimit) in
  _ ← throw_if (params.(op_noteAmount) <? notional)
        (param_error "notional (amount * priceLimit) exceeds noteAmount");
  let minFillQty := default 0 params.(op_minFillQty) in
  _ ← throw_if (minFillQty <? 0) (param_error "minFillQty must be >= 0");
  throw_if (params.(op_amount) <? minFillQty) (param_error "minFillQty must be <= amount").

Definition submit_params (meProgramId : PublicKey) (params : OrderParams) : BuildSubmitOrderParams :=
  {| so_programId := meProgramId; so_tradingKey := params.(op_tradingKey); so_market := params.(op_market);
     so_slotIdx := params.(op_slotIdx); so_side := if params.(op_side) is bid then 0 else 1;
     so_amount := params.(op_amount); so_priceLimit := params.(op_priceLimit);
     so_noteAmount := params.(op_noteAmount); so_expirySlot := params.(op_expirySlot);
     so_orderId := params.(op_orderId); so_noteCommitment := params.(op_noteCommitment);
     so_userCommitment := params.(op_userCommitment);
     so_orderType := Some (ORDER_TYPE_BY_NAME (default limit params.(op_orderType)));
     so_minFillQty := Some (default 0 params.(op_minFillQty)) |}.

(** The stages both pipelines share: the send, with one retry after a 401. *)
Definition send_with_refresh sm (ix : TransactionInstruction) (jwt : string) (ctx : OrderSubmitContext) : M T string :=
  try_catch (sm.(sendInstruction) ix jwt ctx) (λ err,
    if decide (exn_stage err = Some auth_token_fetch) then
      jwt2 ← sm.(getToken);
      sm.(sendInstruction) ix jwt2 ctx
    else throw (if is_dark err then err
                else DarkPoolError transaction_send ("PER send failed: " +:+ exn_string err) None)).

Definition getOrderSubmitFunction client sm : res (OrderParams → M T OrderReceipt) :=
  match client.(cl_matchingEngineProgramId) with
  | None => Throw (param_error "DarkPoolClient.matchingEngineProgramId must be set for order submission")
  | Some meProgramId => Ok (λ params,
      _ ← liftR (order_checks params);
      (* attestation-verify *)
      attestOk ← sm.(verifyAttestation);
      _ ← guard_throw (negb attestOk)
            (DarkPoolError attestation_verify "TEE attestation failed — no order data sent" None);
      (* auth-token-fetch *)
      jwt ← staged auth_token_fetch "getToken failed: " sm.(getToken);
      (* instruction-build *)
      built ← try_catch (liftR (buildSubmitOrderInstruction (submit_params meProgramId params))) (λ err,
                throw (DarkPoolError instruction_build ("instruction build failed: " +:+ exn_string err) None));
      (* transaction-send *)
      let ctx := {| traderPubkey := toBytes params.(op_tradingKey) |} in
      signature ← send_with_refresh sm built.(submit_ix) jwt ctx;
      mret {| or_signature := signature; or_pendingOrderPda := built.(pendingOrderPda_) |})
  end.

Definition getOrderCancelFunction client sm : res (CancelOrderParams → M T string) :=
  match client.(cl_matchingEngineProgramId) with
  | None => Throw (param_error "DarkPoolClient.matchingEngineProgramId must be set for cancel_order")
  | Some meProgramId => Ok (λ params,
      _ ← guard_throw ((params.(cp_slotIdx) <? 0) || (255 <? params.(cp_slotIdx))) (param_error "slotIdx must be a u8");
      attestOk ← sm.(verifyAttestation);
      _ ← guard_throw (negb attestOk)
            (DarkPoolError attestation_verify "TEE attestation failed — no cancel sent" None);
      jwt ← staged auth_token_fetch "getToken failed: " sm.(getToken);
      ix ← liftR (buildCancelOrderInstruction
        {| co_programId := meProgramId; co_tradingKey := params.(cp_tradingKey); co_market := params.(cp_market);
           co_slotIdx := params.(cp_slotIdx) |});
      let ctx := {| traderPubkey := toBytes params.(cp_tradingKey) |} in
      send_with_refresh sm ix jwt ctx)
  end.
End orders.

(** ** The protocol *)

(** What a session manager was asked and how it answered. *)
Inductive Event :=
  | Attested (r : res bool)
  | TokenGot (r : res string)
  | Sent (ix : TransactionInstruction) (jwt : string) (ctx : OrderSubmitContext) (r : res string).

Definition observed {T A} (ev : res A → Event) (m : M T A) : M (list Event * T) A := λ w,
  let '(r, s) := m w.2 in (r, (w.1 ++ [ev r], s)).

(** A session manager that keeps its log. *)
Definition observed_manager {T} (sm : IPerSessionManager T) : IPerSessionManager (list Event * T) :=
  {| verifyAttestation := observed Attested sm.(verifyAttestation);
     getToken := observed TokenGot sm.(getToken);
     invalidateToken := outside sm.(invalidateToken);
     sendInstruction ix jwt ctx := observed (Sent ix jwt ctx) (sm.(sendInstruction) ix jwt ctx) |}.

(** The protocol of the two pipelines for one instruction: attestation, token,
    one send, and after a 401 one more token and one more send.  [built] is the
    instruction, or the error that building it ends with. *)
Section protocol.
Context (refused : exn) (built : res TransactionInstruction) (ctx : OrderSubmitContext).

(** After an answer to a send that is no 401. *)
Definition send_error (e : exn) : exn :=
  if is_dark e then e else DarkPoolError transaction_send ("PER send failed: " +:+ exn_string e) None.
Definition token_error (e : exn) : exn :=
  if is_dark e then e else DarkPoolError auth_token_fetch ("getToken failed: " +:+ exn_string e) None.

Inductive protocol : list Event → res string → Prop :=
  | attest_throws e : protocol [Attested (Throw e)] (Throw e)
  | attest_refuses : protocol [Attested (Ok false)] (Throw refused)
  | token_throws e : protocol [Attested (Ok true); TokenGot (Throw e)] (Throw (token_error e))
  | build_throws jwt e : built = Throw e → protocol [Attested (Ok true); TokenGot (Ok jwt)] (Throw e)
  | send_succeeds jwt ix sig : built = Ok ix →
      protocol [Attested (Ok true); TokenGot (Ok jwt); Sent ix jwt ctx (Ok sig)] (Ok sig)
  | send_throws jwt ix e : built = Ok ix → exn_stage e ≠ Some auth_token_fetch →
      protocol [Attested (Ok true); TokenGot (Ok jwt); Sent ix jwt ctx (Throw e)] (Throw (send_error e))
  | refresh_throws jwt ix e e' : built = Ok ix → exn_stage e = Some auth_token_fetch →
      protocol [Attested (Ok true); TokenGot (Ok jwt); Sent ix jwt ctx (Throw e); TokenGot (Throw e')] (Throw e')
  | retried jwt ix e jwt2 r : built = Ok ix → exn_stage e = Some auth_token_fetch →
      protocol [Attested (Ok true); TokenGot (Ok jwt); Sent ix jwt ctx (Throw e); TokenGot (Ok jwt2);
                Sent ix jwt2 ctx r] r.

Definition sends (tr : list Event) : list TransactionInstruction :=
  tr ≫= λ ev, match ev with Sent ix _ _ _ => [ix] | _ => [] end.

(** What the protocol means for the order: nothing is sent without an
    attestation, the same instruction is sent at most twice, and a result is a
    signature of the last send. *)
Lemma protocol_safe tr r :
  protocol tr r →
  (length (sends tr) <= 2)%nat ∧ Forall (λ ix, built = Ok ix) (sends tr) ∧
  (sends tr ≠ [] → head tr = Some (Attested (Ok true))) ∧
  (is_Ok r = true → ∃ ix jwt, last tr = Some (Sent ix jwt ctx r)).
Proof.
  destruct 1 as [| | | | | | |jwt ix e jwt2 r]; cbn; split_and!; try done; try lia; try (by repeat constructor).
  - intros _. by eexists _, _.
  - intros _. by eexists _, _.
Qed.
End protocol.

Section refines.
Context {T : Type}.
Implicit Types w : list Event * T.

Lemma observed_inv {A} ev (m : M T A) w r w' : observed ev m w = (r, w') → w'.1 = w.1 ++ [ev r] ∧ m w.2 = (r, w'.2).
Proof. unfold observed. destruct (m w.2) as [r' s']. by intros [= <- <-]. Qed.

(** The shared tail follows the protocol. *)
Lemma send_with_refresh_protocol (sm : IPerSessionManager T) refused ix jwt ctx w r w' :
  send_with_refresh (observed_manager sm) ix jwt ctx w = (r, w') →
  ∃ tr, w'.1 = w.1 ++ tr ∧ protocol refused (Ok ix) ctx (Attested (Ok true) :: TokenGot (Ok jwt) :: tr) r.
Proof.
  unfold send_with_refresh, try_catch. destruct (sendInstruction _ _ _ _ w) as [[sig|e] w1] eqn:Hs;
    apply observed_inv in Hs as [Hs _].
  - intros [= <- <-]. eexists. split; [exact Hs|]. by constructor.
  - case_decide as He.
    + intros Hr. inv_M Hr; apply observed_inv in Hm as [Hm _].
      * subst r. rewrite Hm, Hs, <-app_assoc. eexists. split; [reflexivity|]. by constructor.
      * apply observed_inv in Hr as [Hr _]. rewrite Hr, Hm, Hs, <-!app_assoc. eexists. split; [reflexivity|].
        by apply retried.
    + unfold throw. intros [= <- <-]. eexists. split; [exact Hs|]. by apply send_throws.
Qed.

(** The stages before it. *)
Lemma pipeline_protocol {A} (sm : IPerSessionManager T) refused built ctx
    (body : string → M (list Event * T) A) (sig_of : A → string) w r w' :
  (∀ jwt w r w', body jwt w = (r, w') → ∃ tr, w'.1 = w.1 ++ tr ∧
     protocol refused built ctx (Attested (Ok true) :: TokenGot (Ok jwt) :: tr) (sig_of <$> r)) →
  (attestOk ← (observed_manager sm).(verifyAttestation);
   _ ← guard_throw (negb attestOk) refused;
   jwt ← staged auth_token_fetch "getToken failed: " (observed_manager sm).(getToken);
   body jwt) w = (r, w') →
  ∃ tr, w'.1 = w.1 ++ tr ∧ protocol refused built ctx tr (sig_of <$> r).
Proof.
  intros Hbody Hr. inv_M Hr; apply observed_inv in Hm as [Hm _].
  { subst r. eexists. split; [exact Hm|]. constructor. }
  inv_M Hr; apply liftR_inv in Hm0 as [Hx ->].
  { subst r. destruct a; [done|]. injection Hx as <-. eexists. split; [exact Hm|]. constructor. }
  destruct a; [|done]. inv_M Hr; unfold staged, try_catch in Hm0;
    destruct (getToken _ s) as [[jwt|e1] w1] eqn:Ht; apply observed_inv in Ht as [Ht _]; try done.
  - unfold throw in Hm0. injection Hm0 as <- <-. subst r. rewrite Ht, Hm, <-app_assoc. eexists. split; [reflexivity|].
    apply token_throws.
  - injection Hm0 as <- <-. destruct (Hbody _ _ _ _ Hr) as (tr & Htr & Hp). rewrite Htr, Ht, Hm, <-!app_assoc.
    eexists. split; [reflexivity|]. exact Hp.
Qed.
End refines.

(** The outcome of building an order, as the pipelines see it. *)
Definition submit_built `{NodeCrypto} `{Web3} (meProgramId : PublicKey) (params : OrderParams) : res TransactionInstruction :=
  match buildSubmitOrderInstruction (submit_params meProgramId params) with
  | Ok built => Ok built.(submit_ix)
  | Throw e => Throw (DarkPoolError instruction_build ("instruction build failed: " +:+ exn_string e) None)
  end.

Definition cancel_built `{NodeCrypto} `{Web3} (meProgramId : PublicKey) (params : CancelOrderParams) : res TransactionInstruction :=
  buildCancelOrderInstruction
    {| co_programId := meProgramId; co_tradingKey := params.(cp_tradingKey); co_market := params.(cp_market);
       co_slotIdx := params.(cp_slotIdx) |}.

(** What a run that followed the protocol is known for. *)
Definition follows (refused : exn) (built : res TransactionInstruction) (ctx : OrderSubmitContext)
    {T} (w w' : list Event * T) (r : res string) : Prop :=
  ∃ tr, w'.1 = w.1 ++ tr ∧ protocol refused built ctx tr r ∧
    (length (sends tr) <= 2)%nat ∧ Forall (λ ix, built = Ok ix) (sends tr) ∧
    (sends tr ≠ [] → head tr = Some (Attested (Ok true))).

Lemma follows_intro refused built ctx {T} (w w' : list Event * T) r :
  (∃ tr, w'.1 = w.1 ++ tr ∧ protocol refused built ctx tr r) → follows refused built ctx w w' r.
Proof. intros (tr & Htr & Hp). exists tr. destruct (protocol_safe _ _ _ _ _ Hp) as (? & ? & ? & _). done. Qed.

Lemma order_checks_error params e : order_checks params = Throw e → exn_stage e = Some parameter.
Proof.
  unfold order_checks, throw_if. intros He.
  repeat match type of He with (if ?b then _ else _) ≫= _ = _ => destruct b; cbn [mbind res_bind] in He end;
    try by injection He as <-.
  destruct (_ <? _) in He; [|done]. by injection He as <-.
Qed.

(** ** Properties of the pipelines *)

(** [C28] [submitOrder] refines the order protocol, whatever the session manager
    answers.  Bad parameters fail with a "parameter" error before any call.
    Otherwise the calls are: attestation; a token, only if it passed; one send
    of the one instruction built from the parameters; and, only if that send was
    rejected for its token, one more token and one more send of the same
    instruction.  So no order data leaves the client before a positive
    attestation, and no third copy is ever sent. *)
Theorem submit_order_refines `{NodeCrypto} `{Web3} {S T} (client : DarkPoolClient S) me (sm : IPerSessionManager T)
    params w r w' :
  client.(cl_matchingEngineProgramId) = Some me →
  (∃ f, getOrderSubmitFunction client (observed_manager sm) = Ok f ∧ f params w = (r, w')) →
  match order_checks params with
  | Throw e => r = Throw e ∧ exn_stage e = Some parameter ∧ w' = w
  | Ok _ =>
      follows (DarkPoolError attestation_verify "TEE attestation failed — no order data sent" None)
        (submit_built me params) {| traderPubkey := toBytes params.(op_tradingKey) |} w w' (or_signature <$> r)
  end.
Proof.
  intros Hme (f & Hf & Hr). unfold getOrderSubmitFunction in Hf. rewrite Hme in Hf. injection Hf as <-.
  inv_M Hr; apply liftR_inv in Hm as [Hx ->]; rewrite Hx; [split; [done|]; split; [by eapply order_checks_error|done]|].
  apply follows_intro. eapply (pipeline_protocol sm _ _ _ _ or_signature); [|exact Hr].
  intros jwt v r1 v' Hb. unfold submit_built. unfold try_catch, liftR in Hb. unfold mbind at 1, M_bind in Hb.
  destruct (buildSubmitOrderInstruction _) as [built|e].
  - inv_M Hb; destruct (send_with_refresh_protocol _ (DarkPoolError attestation_verify
      "TEE attestation failed — no order data sent" None) _ _ _ _ _ _ Hm) as (tr & Htr & Hp); exists tr.
    + by subst r1.
    + injection Hb as <- <-. by split.
  - injection Hb as <- <-. exists []. rewrite app_nil_r. split; [done|]. by apply build_throws.
Qed.

(** A session that answers from the mock, rejecting the first send. *)
Definition sample_order : OrderParams :=
  {| op_tradingKey := Toy.key_of (replicate 32 x01); op_market := Toy.key_of (replicate 32 x02); op_slotIdx := 1;
     op_userCommitment := replicate 32 x03; op_noteCommitment := replicate 32 x04; op_amount := 10;
     op_priceLimit := 4; op_side := bid; op_noteAmount := 50; op_expirySlot := 99; op_orderId := replicate 16 x05;
     op_orderType := None; op_minFillQty := None |}.

Definition rejecting : MockState :=
  {| attestationOk := true; fixedToken := "jwt"; tokenFetchCount := 0; sendCallCount := 0; injectNext401 := true;
     injectNextFailure := None; lastIx := None; lastJwt := None |}.

Definition sample_submit_run : res OrderReceipt * (list Event * MockState) :=
  match @getOrderSubmitFunction Toy.toy_crypto Toy.toy_web3 _ _ sample_client (observed_manager (MockPerSessionManager None)) with
  | Ok f => f sample_order ([], rejecting)
  | Throw e => (Throw e, ([], rejecting))
  end.

Lemma submit_order_refines_witness :
  or_signature <$> sample_submit_run.1 = Ok "mock_sig_stub" ∧ length (sends sample_submit_run.2.1) = 2%nat ∧
  ∃ tr, sample_submit_run.2.1 = tr ∧ (length (sends tr) <= 2)%nat.
Proof.
  destruct (@submit_order_refines Toy.toy_crypto Toy.toy_web3 _ _ sample_client Toy.zero_key (MockPerSessionManager None)
    sample_order ([], rejecting) sample_submit_run.1 sample_submit_run.2 eq_refl) as (tr & Htr & _ & Hl & _).
  { eexists. split; [reflexivity|]. vm_compute. reflexivity. }
  split; [vm_compute; reflexivity|]. split; [vm_compute; reflexivity|]. exists tr. split; [exact Htr|exact Hl].
Defined.

(** [cancelOrder] refines the same protocol; a slot index that is a byte
    but no slot passes its check and fails after attestation and token, with an
    error that has no stage, and nothing sent. *)
Theorem cancel_order_refines `{NodeCrypto} `{Web3} {S T} (client : DarkPoolClient S) me (sm : IPerSessionManager T)
    params w r w' :
  client.(cl_matchingEngineProgramId) = Some me →
  (∃ f, getOrderCancelFunction client (observed_manager sm) = Ok f ∧ f params w = (r, w')) →
  if decide (0 <= params.(cp_slotIdx) <= 255) then
    follows (DarkPoolError attestation_verify "TEE attestation failed — no cancel sent" None)
      (cancel_built me params) {| traderPubkey := toBytes params.(cp_tradingKey) |} w w' r ∧
    (MAX_PENDING_SLOTS_PER_USER <= params.(cp_slotIdx) →
       ∃ e, cancel_built me params = Throw e ∧ exn_stage e = None ∧
         ∃ tr, w'.1 = w.1 ++ tr ∧ sends tr = [] ∧ is_Ok r = false)
  else r = Throw (param_error "slotIdx must be a u8") ∧ w' = w.
Proof.
  intros Hme (f & Hf & Hr). unfold getOrderCancelFunction in Hf. rewrite Hme in Hf. injection Hf as <-.
  assert (Hg : ((params.(cp_slotIdx) <? 0) || (255 <? params.(cp_slotIdx))) = negb (bool_decide (0 <= params.(cp_slotIdx) <= 255))).
  { destruct (Z.ltb_spec params.(cp_slotIdx) 0), (Z.ltb_spec 255 params.(cp_slotIdx)); case_bool_decide; (done || lia). }
  rewrite Hg in Hr. destruct (decide (0 <= params.(cp_slotIdx) <= 255)) as [Hd|Hd].
  2:{ rewrite bool_decide_eq_false_2 in Hr by done. by injection Hr as <- <-. }
  rewrite bool_decide_eq_true_2 in Hr by done. inv_M Hr; apply liftR_inv in Hm as [Hx ->]; [done|].
  assert (Hfo : follows (DarkPoolError attestation_verify "TEE attestation failed — no cancel sent" None)
    (cancel_built me params) {| traderPubkey := toBytes params.(cp_tradingKey) |} w w' r).
  { apply follows_intro. rewrite <-(res_fmap_id r).
    eapply (pipeline_protocol sm _ _ _ _ id); [|exact Hr].
    intros jwt v r1 v' Hb. fold (cancel_built me params) in Hb. rewrite (res_fmap_id r1).
    destruct (cancel_built me params) as [ix|e]; unfold liftR in Hb; unfold mbind at 1, M_bind in Hb.
    - by eapply send_with_refresh_protocol.
    - injection Hb as <- <-. exists []. rewrite app_nil_r. split; [done|]. by apply build_throws. }
  split; [done|]. intros Hmax. destruct Hfo as (tr & Htr & Hp & _ & Hs & _).
  assert (Hb : ∃ e, cancel_built me params = Throw e ∧ exn_stage e = None).
  { unfold cancel_built, buildCancelOrderInstruction, check_slotIdx. cbn [co_slotIdx].
    rewrite (proj2 (Z.ltb_ge _ _)), (proj2 (Z.leb_le _ _)) by lia. by eexists. }
  destruct Hb as (e & Hb & He). exists e. split; [done|]. split; [done|]. exists tr. split; [done|].
  rewrite Hb in Hp, Hs. by inversion Hp; subst.
Qed.

Definition sample_cancel_run : res string * (list Event * MockState) :=
  let params := {| cp_tradingKey := Toy.key_of (replicate 32 x01); cp_market := Toy.key_of (replicate 32 x02);
                   cp_slotIdx := 4 |} in
  match @getOrderCancelFunction Toy.toy_crypto Toy.toy_web3 _ _ sample_client (observed_manager (MockPerSessionManager None)) with
  | Ok f => f params ([], rejecting)
  | Throw e => (Throw e, ([], rejecting))
  end.

Lemma cancel_order_refines_witness : is_Ok sample_cancel_run.1 = false ∧ sends sample_cancel_run.2.1 = [].
Proof.
  destruct (@cancel_order_refines Toy.toy_crypto Toy.toy_web3 _ _ sample_client Toy.zero_key (MockPerSessionManager None)
    {| cp_tradingKey := Toy.key_of (replicate 32 x01); cp_market := Toy.key_of (replicate 32 x02); cp_slotIdx := 4 |}
    ([], rejecting) sample_cancel_run.1 sample_cancel_run.2 eq_refl) as [_ Hc].
  { eexists. split; [reflexivity|]. vm_compute. reflexivity. }
  destruct (Hc ltac:(discriminate)) as (e & _ & _ & tr & Htr & Hs & Hr).
  split; [exact Hr|]. cbn [fst app] in Htr. rewrite Htr. exact Hs.
Defined.

(** A retry asks for a token when the manager holds none: the rejected one is
    never sent again from the cache. *)
Lemma retry_refreshes {T} (sm : IPerSessionManager T) `{!SessionManager sm} ix jwt ctx s e s1 :
  sm.(sendInstruction) ix jwt ctx s = (Throw e, s1) → exn_stage e = Some auth_token_fetch →
  cached s1 = None ∧
  send_with_refresh sm ix jwt ctx s = (jwt2 ← sm.(getToken); sm.(sendInstruction) ix jwt2 ctx) s1.
Proof.
  intros Hs He. split; [by eapply rejected_clears|]. unfold send_with_refresh, try_catch. rewrite Hs.
  by rewrite decide_True.
Qed.

(** ** The handlers of the matching engine *)

Definition MatchingError (name : string) : exn := EError "MatchingError" name.

Inductive PendingStatus := EMPTY | PENDING | MATCHED | EXPIRED | CANCELLED.
#[global] Instance PendingStatus_eq_dec : EqDecision PendingStatus.
Proof. solve_decision. Defined.

Record PendingOrder := {
  po_trading_key : bytes; po_market : bytes; po_status : PendingStatus; po_side : Z; po_order_type : Z;
  po_slot_idx : Z; po_arrival_slot : Z; po_expiry_slot : Z; po_price_limit : Z; po_amount : Z;
  po_total_quantity : Z; po_filled_quantity : Z; po_min_fill_qty : Z; po_note_amount : Z;
  po_collateral_note : bytes; po_user_commitment : bytes; po_order_id : bytes;
  po_order_inclusion_commitment : bytes }.

Section handlers.
Context `{NodeCrypto}.

Definition compute_inclusion_commitment (arrival_slot : Z) (note_commitment trading_key : bytes) : bytes :=
  sha256 (le_bytes 8 arrival_slot ++ note_commitment ++ trading_key).

(** The collateral a side needs; the product of two [u64] fits a [u128]. *)
Definition required_collateral (side amount price_limit : Z) : Z :=
  if side =? 0 then amount * price_limit else amount.

Definition submit_order_handler (trading_key : bytes) (now : Z) (args : SubmitOrderArgs) (slot : PendingOrder)
    : res PendingOrder :=
  _ ← throw_if (negb ((args.(side) =? 0) || (args.(side) =? 1))) (MatchingError "InvalidSide");
  _ ← throw_if (negb ((args.(order_type) =? 0) || (args.(order_type) =? 1) || (args.(order_type) =? 2)))
        (MatchingError "InvalidOrderType");
  _ ← throw_if (negb (0 <? args.(soa_amount))) (MatchingError "ZeroAmount");
  _ ← throw_if (negb (0 <? args.(price_limit))) (MatchingError "ZeroPrice");
  _ ← throw_if (bool_decide (args.(order_id) = replicate 16 x00)) (MatchingError "InvalidOrderId");
  _ ← throw_if (negb (args.(min_fill_qty) <=? args.(soa_amount))) (MatchingError "AmountBelowMinOrderSize");
  _ ← throw_if (negb (required_collateral args.(side) args.(soa_amount) args.(price_limit) <=? args.(note_amount)))
        (MatchingError "NotionalExceedsNoteValue");
  _ ← throw_if (negb (now <? args.(expiry_slot))) (MatchingError "ExpiryInPast");
  _ ← throw_if (negb (bool_decide (slot.(po_trading_key) = trading_key))) (MatchingError "UnauthorizedTradingKey");
  _ ← throw_if (negb (bool_decide (slot.(po_market) = args.(soa_market)))) (MatchingError "MarketMismatch");
  _ ← throw_if (negb (slot.(po_slot_idx) =? args.(slot_idx))) (MatchingError "InvalidPendingSlot");
  _ ← throw_if (bool_decide (slot.(po_status) = PENDING)) (MatchingError "SlotAlreadyOccupied");
  Ok {| po_trading_key := slot.(po_trading_key); po_market := slot.(po_market); po_status := PENDING;
        po_side := args.(side); po_order_type := args.(order_type); po_slot_idx := slot.(po_slot_idx);
        po_arrival_slot := now; po_expiry_slot := args.(expiry_slot); po_price_limit := args.(price_limit);
        po_amount := args.(soa_amount); po_total_quantity := args.(soa_amount); po_filled_quantity := 0;
        po_min_fill_qty := args.(min_fill_qty); po_note_amount := args.(note_amount);
        po_collateral_note := args.(note_commitment); po_user_commitment := args.(user_commitment);
        po_order_id := args.(order_id);
        po_order_inclusion_commitment := compute_inclusion_commitment now args.(note_commitment) trading_key |}.

Definition cancel_order_handler (trading_key market : bytes) (slot_index : Z) (slot : PendingOrder) : res PendingOrder :=
  _ ← throw_if (negb (bool_decide (slot.(po_trading_key) = trading_key))) (MatchingError "UnauthorizedTradingKey");
  _ ← throw_if (negb (bool_decide (slot.(po_market) = market))) (MatchingError "MarketMismatch");
  _ ← throw_if (negb (slot.(po_slot_idx) =? slot_index)) (MatchingError "InvalidPendingSlot");
  _ ← throw_if (negb (bool_decide (slot.(po_status) = PENDING))) (MatchingError "OrderNotFound");
  Ok {| po_trading_key := slot.(po_trading_key); po_market := slot.(po_market); po_status := CANCELLED;
        po_side := slot.(po_side); po_order_type := slot.(po_order_type); po_slot_idx := slot.(po_slot_idx);
        po_arrival_slot := slot.(po_arrival_slot); po_expiry_slot := slot.(po_expiry_slot); po_price_limit := 0;
        po_amount := 0; po_total_quantity := slot.(po_total_quantity); po_filled_quantity := slot.(po_filled_quantity);
        po_min_fill_qty := 0; po_note_amount := 0; po_collateral_note := replicate 32 x00;
        po_user_commitment := replicate 32 x00; po_order_id := replicate 16 x00;
        po_order_inclusion_commitment := slot.(po_order_inclusion_commitment) |}.
End handlers.

(** A slot a trader may write an order to. *)
Definition own_slot (params : OrderParams) (slot : PendingOrder) : Prop :=
  slot.(po_trading_key) = toBytes params.(op_tradingKey) ∧ slot.(po_market) = toBytes params.(op_market) ∧
  slot.(po_slot_idx) = params.(op_slotIdx) ∧ slot.(po_status) ≠ PENDING.

(** What an order slot records of the parameters. *)
Definition records `{NodeCrypto} (params : OrderParams) (now : Z) (slot : PendingOrder) : Prop :=
  slot.(po_status) = PENDING ∧ slot.(po_side) = (if params.(op_side) is bid then 0 else 1) ∧
  slot.(po_amount) = params.(op_amount) ∧ slot.(po_total_quantity) = params.(op_amount) ∧
  slot.(po_filled_quantity) = 0 ∧ slot.(po_price_limit) = params.(op_priceLimit) ∧
  slot.(po_note_amount) = params.(op_noteAmount) ∧ slot.(po_min_fill_qty) = default 0 params.(op_minFillQty) ∧
  slot.(po_expiry_slot) = params.(op_expirySlot) ∧ slot.(po_order_id) = params.(op_orderId) ∧
  slot.(po_collateral_note) = params.(op_noteCommitment) ∧
  slot.(po_user_commitment) = params.(op_userCommitment) ∧ slot.(po_arrival_slot) = now ∧
  slot.(po_order_inclusion_commitment) =
    sha256 (le_bytes 8 now ++ params.(op_noteCommitment) ++ toBytes params.(op_tradingKey)).

Record order_fits (params : OrderParams) (now : Z) : Prop := {
  of_lengths : length params.(op_noteCommitment) = 32%nat ∧ length params.(op_userCommitment) = 32%nat ∧
    length params.(op_orderId) = 16%nat;
  of_slot : 0 <= params.(op_slotIdx) < MAX_PENDING_SLOTS_PER_USER;
  of_amount : 0 < params.(op_amount) < U64;
  of_price : 0 < params.(op_priceLimit) < U64;
  of_note : 0 <= params.(op_noteAmount) < U64;
  of_fill : 0 <= default 0 params.(op_minFillQty) <= params.(op_amount);
  of_id : params.(op_orderId) ≠ replicate 16 x00;
  of_expiry : now < params.(op_expirySlot) < U64;
  of_now : 0 <= now }.

Section order_lemmas.
Context `{NodeCrypto} `{!NodeCryptoLaws} `{Web3}.

Lemma order_checks_Ok params :
  order_checks params = Ok () →
  length params.(op_noteCommitment) = 32%nat ∧ length params.(op_userCommitment) = 32%nat ∧
  length params.(op_orderId) = 16%nat ∧ 0 < params.(op_amount) ∧ 0 < params.(op_priceLimit) ∧
  0 <= params.(op_slotIdx) < MAX_PENDING_SLOTS_PER_USER ∧
  params.(op_amount) * params.(op_priceLimit) <= params.(op_noteAmount) ∧
  0 <= default 0 params.(op_minFillQty) <= params.(op_amount).
Proof.
  unfold order_checks. intros Hc. inv_res.
  repeat match goal with Ht : throw_if _ _ = Ok _ |- _ => apply throw_if_Ok in Ht end.
  repeat match goal with
  | Ht : negb _ = false |- _ => apply negb_false_iff, Nat.eqb_eq in Ht
  | Ht : (_ <=? _) = false |- _ => apply Z.leb_gt in Ht
  | Ht : (_ <? _) = false |- _ => apply Z.ltb_ge in Ht
  | Ht : _ || _ = false |- _ => apply orb_false_iff in Ht as [? ?]
  end. lia.
Qed.

Lemma submit_args_fits me params now :
  order_fits params now →
  submit_args (submit_params me params) =
  {| soa_market := toBytes params.(op_market); slot_idx := params.(op_slotIdx);
     side := if params.(op_side) is bid then 0 else 1;
     order_type := OrderType_value (ORDER_TYPE_BY_NAME (default limit params.(op_orderType)));
     soa_padding := replicate 5 x00; soa_amount := params.(op_amount);
     min_fill_qty := default 0 params.(op_minFillQty); price_limit := params.(op_priceLimit);
     note_amount := params.(op_noteAmount); expiry_slot := params.(op_expirySlot); order_id := params.(op_orderId);
     note_commitment := params.(op_noteCommitment); user_commitment := params.(op_userCommitment) |}.
Proof.
  intros [_ _ ? ? ? ? _ ? ?]. unfold submit_args, submit_params.
  cbn [so_amount so_minFillQty so_priceLimit so_noteAmount so_expirySlot so_orderType so_market so_slotIdx so_side
       so_orderId so_noteCommitment so_userCommitment].
  rewrite !Z.mod_small by (unfold default, id in *; lia). reflexivity.
Qed.

(** The handler accepts a fitting order whose note covers what its side needs. *)
Lemma submit_handler_runs me params now slot :
  order_fits params now → own_slot params slot →
  required_collateral (if params.(op_side) is bid then 0 else 1) params.(op_amount) params.(op_priceLimit)
    <= params.(op_noteAmount) →
  ∃ slot', submit_order_handler (toBytes params.(op_tradingKey)) now (submit_args (submit_params me params)) slot
             = Ok slot' ∧ records params now slot' ∧
    slot'.(po_trading_key) = slot.(po_trading_key) ∧ slot'.(po_market) = slot.(po_market) ∧
    slot'.(po_slot_idx) = slot.(po_slot_idx).
Proof.
  intros Hf (Hk & Hm & Hi & Hs) Hc. rewrite (submit_args_fits me params now Hf). destruct Hf as [_ _ ? ? ? ? Hid ? ?].
  unfold submit_order_handler.
  cbn [side order_type soa_amount price_limit order_id min_fill_qty note_amount expiry_slot soa_market slot_idx
       note_commitment user_commitment].
  rewrite Hk, Hm, Hi, (bool_decide_eq_false_2 _ Hid), (bool_decide_eq_false_2 _ Hs), !bool_decide_eq_true_2, Z.eqb_refl by done.
  rewrite !(proj2 (Z.ltb_lt _ _)), !(proj2 (Z.leb_le _ _)) by (assumption || lia).
  unfold records. destruct params.(op_side), (default limit params.(op_orderType)).
  all: eexists; split; [reflexivity|]; by split_and!.
Qed.
End order_lemmas.

(** A built call reaches the program as the caller means it. *)
Lemma built_accepted `{NodeCrypto} `{!NodeCryptoLaws} `{Web3} vault_id c :
  distinct_discriminators (fst <$> matching_table) → matching_call_sized c → matching_call_env vault_id c →
  ∃ tx, build_matching c = Ok tx ∧
    accepted_as (Program0 := matching_program vault_id) (matching_call_program c) tx (matching_call_args c).
Proof.
  intros Hd Hs He. pose proof (build_matching_total c Hs) as Ht. destruct (build_matching c) as [tx|] eqn:Hb; [|done].
  exists tx. split; [done|]. by apply (build_matching_accepted vault_id Hd c tx He Hb).
Qed.

(** [C29] Parameters the client lets through make an order the chain accepts, when
    moreover the note amount is below 2^64, the expiry lies after the current slot
    and below 2^64, the order id is not zero, and the slot is one of the trader that
    is not occupied (the client checks none of these). The instruction the pipeline
    builds then parses as exactly these arguments, nothing having wrapped, and
    [submit_order] records all of them in the slot as a pending order. The
    instruction [cancelOrder] builds for the slot then cancels it, which wipes the
    order and frees the slot for the next one. *)
Theorem submit_then_cancel `{NodeCrypto} `{!NodeCryptoLaws} `{Web3} vault_id me params now slot :
  distinct_discriminators (fst <$> matching_table) → order_checks params = Ok () →
  params.(op_noteAmount) < U64 → now < params.(op_expirySlot) < U64 → 0 <= now →
  params.(op_orderId) ≠ replicate 16 x00 → own_slot params slot →
  ∃ ix args slot', submit_built me params = Ok ix ∧
    accepted_as (Program0 := matching_program vault_id) me ix (MSubmitOrder args) ∧
    submit_order_handler (toBytes params.(op_tradingKey)) now args slot = Ok slot' ∧ records params now slot' ∧
    ∃ cix slot'',
      cancel_built me {| cp_tradingKey := params.(op_tradingKey); cp_market := params.(op_market);
                         cp_slotIdx := params.(op_slotIdx) |} = Ok cix ∧
      accepted_as (Program0 := matching_program vault_id) me cix
        (MCancelOrder (toBytes params.(op_market)) params.(op_slotIdx)) ∧
      cancel_order_handler (toBytes params.(op_tradingKey)) (toBytes params.(op_market)) params.(op_slotIdx) slot'
        = Ok slot'' ∧
      own_slot params slot'' ∧ slot''.(po_status) = CANCELLED ∧ slot''.(po_amount) = 0 ∧
      slot''.(po_collateral_note) = replicate 32 x00.
Proof.
  intros Hd Hc Hn He Hnow Hid Hslot.
  destruct (order_checks_Ok _ Hc) as (L1 & L2 & L3 & Ha & Hp & Hs & Hnot & Hfill).
  assert (Hf : order_fits params now) by (split; try done; try lia; nia).
  assert (Hcol : required_collateral (if params.(op_side) is bid then 0 else 1) params.(op_amount) params.(op_priceLimit)
    <= params.(op_noteAmount)).
  { unfold required_collateral. destruct params.(op_side); cbn [Z.eqb]; nia. }
  destruct (submit_handler_runs me params now slot Hf Hslot Hcol) as (slot' & Hh & Hr & Hk1 & Hk2 & Hk3).
  destruct (built_accepted vault_id (KSubmitOrder (submit_params me params)) Hd) as (ix & Hix & Hacc); [|done|].
  { split; [done|]. split; [|done]. cbn [submit_params so_side]. destruct params.(op_side); auto. }
  destruct (built_accepted vault_id (KCancelOrder {| co_programId := me; co_tradingKey := params.(op_tradingKey);
    co_market := params.(op_market); co_slotIdx := params.(op_slotIdx) |}) Hd Hs) as (cix & Hcix & Hcacc); [done|].
  exists ix, (submit_args (submit_params me params)), slot'. split.
  { unfold submit_built. cbn [build_matching] in Hix. destruct (buildSubmitOrderInstruction _) as [b|]; [|done].
    by apply Ok_inj in Hix as ->. }
  split; [exact Hacc|]. split; [done|]. split; [done|]. destruct Hslot as (Hs1 & Hs2 & Hs3 & _).
  exists cix. eexists. split; [exact Hcix|]. split; [exact Hcacc|]. split.
  - unfold cancel_order_handler. rewrite Hk1, Hk2, Hk3, Hs1, Hs2, Hs3, (proj1 Hr).
    rewrite !bool_decide_eq_true_2, Z.eqb_refl by done. reflexivity.
  - unfold own_slot. cbn [po_trading_key po_market po_slot_idx po_status po_amount po_collateral_note].
    by split_and!.
Qed.

Definition empty_slot : PendingOrder :=
  {| po_trading_key := replicate 32 x01; po_market := replicate 32 x02; po_status := EMPTY; po_side := 0;
     po_order_type := 0; po_slot_idx := 1; po_arrival_slot := 0; po_expiry_slot := 0; po_price_limit := 0;
     po_amount := 0; po_total_quantity := 0; po_filled_quantity := 0; po_min_fill_qty := 0; po_note_amount := 0;
     po_collateral_note := []; po_user_commitment := []; po_order_id := []; po_order_inclusion_commitment := [] |}.

Lemma submit_then_cancel_witness :
  order_checks sample_order = Ok () ∧
  ∃ args slot', @submit_order_handler Toy.toy_crypto (replicate 32 x01) 7 args empty_slot = Ok slot' ∧
    slot'.(po_amount) = 10.
Proof.
  split; [reflexivity|].
  destruct (@submit_then_cancel Toy.toy_crypto Toy.toy_crypto_laws Toy.toy_web3 Toy.zero_key Toy.zero_key sample_order 7 empty_slot)
    as (ix & args & slot' & _ & _ & Hh & (_ & _ & Ha & _) & _).
  - unfold distinct_discriminators. apply (bool_decide_unpack _). vm_compute. exact I.
  - reflexivity.
  - reflexivity.
  - split; reflexivity.
  - discriminate.
  - discriminate.
  - split_and!; try reflexivity. discriminate.
  - exists args, slot'. split; [exact Hh|exact Ha].
Defined.

(** The client's collateral check is the bid's for both sides.  An ask is
    collateralised by the base amount itself, which is all the program asks for;
    an ask whose note holds at least the amount but less than amount times price
    is refused by the client and accepted by the program. *)
Theorem client_refuses_valid_ask `{NodeCrypto} `{!NodeCryptoLaws} me params now slot :
  order_fits params now → params.(op_side) = ask → own_slot params slot →
  params.(op_amount) <= params.(op_noteAmount) < params.(op_amount) * params.(op_priceLimit) →
  order_checks params = Throw (param_error "notional (amount * priceLimit) exceeds noteAmount") ∧
  ∃ slot', submit_order_handler (toBytes params.(op_tradingKey)) now (submit_args (submit_params me params)) slot
             = Ok slot' ∧ records params now slot'.
Proof.
  intros Hf Hask Hslot [Hlo Hhi]. split.
  - destruct Hf as [(L1 & L2 & L3) Hs Ha Hp _ _ _ _ _]. unfold order_checks. rewrite L1, L2, L3.
    rewrite (proj2 (Z.leb_gt params.(op_amount) 0)), (proj2 (Z.leb_gt params.(op_priceLimit) 0)) by lia.
    rewrite (proj2 (Z.ltb_ge params.(op_slotIdx) 0)), (proj2 (Z.leb_gt _ params.(op_slotIdx))) by lia.
    by rewrite (proj2 (Z.ltb_lt params.(op_noteAmount) _)) by lia.
  - destruct (submit_handler_runs me params now slot Hf Hslot) as (slot' & Hh & Hr & _).
    + rewrite Hask. exact Hlo.
    + eauto.
Qed.

Definition sample_ask : OrderParams :=
  {| op_tradingKey := Toy.key_of (replicate 32 x01); op_market := Toy.key_of (replicate 32 x02); op_slotIdx := 1;
     op_userCommitment := replicate 32 x03; op_noteCommitment := replicate 32 x04; op_amount := 10;
     op_priceLimit := 4; op_side := ask; op_noteAmount := 12; op_expirySlot := 99; op_orderId := replicate 16 x05;
     op_orderType := None; op_minFillQty := None |}.

Lemma client_refuses_valid_ask_witness :
  is_Ok (order_checks sample_ask) = false ∧
  is_Ok (@submit_order_handler Toy.toy_crypto (replicate 32 x01) 7 (submit_args (submit_params Toy.zero_key sample_ask))
    empty_slot) = true.
Proof.
  destruct (@client_refuses_valid_ask Toy.toy_crypto Toy.toy_crypto_laws Toy.zero_key sample_ask 7 empty_slot)
    as [Hc (slot' & Hh & _)].
  - split; try (split; (discriminate || reflexivity)); [split; [reflexivity|split; reflexivity]|discriminate|discriminate].
  - reflexivity.
  - split_and!; try reflexivity. discriminate.
  - split; [discriminate|reflexivity].
  - rewrite Hc. split; [reflexivity|]. exact (f_equal is_Ok Hh).
Defined.
