(* ===== verification/DecimalText.v ===== *)
(** Decimal text: the digits of a string, their value, and
    [bigint.toString()], as used by the proof formatter, the prover and the
    amount conversions. *)

From Stdlib Require Import Ascii.
From S2P Require Import Prelude Bytes Errors.

Local Open Scope Z_scope.

(** [c.charCodeAt(0) - 48], for the characters [\d] matches. *)
Definition digit_of (c : ascii) : option Z :=
  let n := Z.of_N (N_of_ascii c) in
  if (48 <=? n) && (n <=? 57) then Some (n - 48) else None.

Fixpoint digits (s : string) : option (list Z) :=
  match s with
  | EmptyString => Some []
  | String c s => d ← digit_of c; ds ← digits s; Some (d :: ds)
  end.

Definition dec_val (ds : list Z) : Z := foldl (λ acc d, acc * 10 + d) 0 ds.

(** [/^\d+$/.test(s)], with the digits. *)
Definition decimal (s : string) : option (list Z) :=
  ds ← digits s; if decide (ds = []) then None else Some ds.

Definition all_digits (ds : list Z) : Prop := Forall (λ d, 0 <= d < 10) ds.

Lemma digit_of_range c d : digit_of c = Some d → 0 <= d < 10.
Proof.
  unfold digit_of. destruct (_ && _) eqn:E; [|done]. intros [= <-].
  apply andb_true_iff in E as [H1%Z.leb_le H2%Z.leb_le]. lia.
Qed.

Lemma digits_range s ds : digits s = Some ds → all_digits ds.
Proof.
  revert ds; induction s as [|c s IH]; intros ds; cbn [digits]; [intros [= <-]; constructor|].
  destruct (digit_of c) as [d|] eqn:Hc; [|done]. destruct (digits s) as [ds'|]; [|done]. intros [= <-].
  constructor; [by eapply digit_of_range|by apply IH].
Qed.

Lemma dec_val_from acc ds : foldl (λ acc d, acc * 10 + d) acc ds = acc * 10 ^ Z.of_nat (length ds) + dec_val ds.
Proof.
  unfold dec_val. revert acc; induction ds as [|d ds IH]; intros acc; cbn [foldl length]; [lia|].
  rewrite IH, (IH (0 * 10 + d)), Nat2Z.inj_succ, Z.pow_succ_r by lia. lia.
Qed.

Lemma dec_val_app a b : dec_val (a ++ b) = dec_val a * 10 ^ Z.of_nat (length b) + dec_val b.
Proof. unfold dec_val at 1. rewrite foldl_app. apply dec_val_from. Qed.

Lemma dec_val_cons d ds : dec_val (d :: ds) = d * 10 ^ Z.of_nat (length ds) + dec_val ds.
Proof. change (d :: ds) with ([d] ++ ds). by rewrite dec_val_app. Qed.

Lemma dec_val_range ds : all_digits ds → 0 <= dec_val ds < 10 ^ Z.of_nat (length ds).
Proof.
  induction 1 as [|d ds Hd _ IH]; [done|]. rewrite dec_val_cons. cbn [length].
  rewrite Nat2Z.inj_succ, Z.pow_succ_r by lia. nia.
Qed.

Lemma digits_app s1 s2 : digits (s1 +:+ s2) = (a ← digits s1; b ← digits s2; Some (a ++ b)).
Proof.
  induction s1 as [|c s IH].
  - change (EmptyString +:+ s2) with s2. cbn. by destruct (digits s2).
  - change (String c s +:+ s2) with (String c (s +:+ s2)). cbn [digits]. rewrite IH.
    destruct (digit_of c); [|done]. destruct (digits s); [|done]. cbn. by destruct (digits s2).
Qed.

(** ** [toString()] *)

Lemma digit_of_pretty (x : N) : (x < 10)%N → digit_of (pretty_N_char x) = Some (Z.of_N x).
Proof.
  intros Hx. assert (x = 0 ∨ x = 1 ∨ x = 2 ∨ x = 3 ∨ x = 4 ∨ x = 5 ∨ x = 6 ∨ x = 7 ∨ x = 8 ∨ x = 9)%N by lia.
  naive_solver.
Qed.

Lemma pretty_go_digits (x : N) s ds :
  digits s = Some ds →
  ∃ ds', digits (pretty_N_go x s) = Some (ds' ++ ds) ∧ dec_val ds' = Z.of_N x ∧ head ds' ≠ Some 0.
Proof.
  revert s ds. induction (N.lt_wf_0 x) as [x _ IH]; intros s ds Hs.
  destruct (decide (x = 0%N)) as [->|Hx]; [exists []; rewrite pretty_N_go_0; by split_and!|].
  rewrite pretty_N_go_step by lia. pose proof (N.mod_upper_bound x 10 ltac:(lia)) as Hm.
  destruct (IH (x / 10)%N ltac:(apply N.div_lt; lia) (String (pretty_N_char (x mod 10)) s) (Z.of_N (x mod 10) :: ds))
    as (ds' & Hd & Hv & Hh).
  { cbn [digits]. rewrite digit_of_pretty by done. cbn. by rewrite Hs. }
  exists (ds' ++ [Z.of_N (x mod 10)]). split; [by rewrite <-app_assoc|]. split.
  - rewrite dec_val_app, Hv, N2Z.inj_div, N2Z.inj_mod. cbn. pose proof (Z.div_mod (Z.of_N x) 10 ltac:(lia)). lia.
  - destruct ds' as [|d ds']; [|done]. cbn in Hv |- *. intros [= Hz].
    rewrite N2Z.inj_div in Hv. rewrite N2Z.inj_mod in Hz.
    pose proof (Z.div_mod (Z.of_N x) 10 ltac:(lia)). lia.
Qed.

(** The decimal text of a number: its digits, with no leading zero but its own. *)
Lemma digits_pretty x :
  0 <= x → ∃ ds, digits (pretty x) = Some ds ∧ ds ≠ [] ∧ dec_val ds = x ∧ (x ≠ 0 → head ds ≠ Some 0) ∧
    (x = 0 → ds = [0]).
Proof.
  intros Hx. destruct (decide (x = 0)) as [->|Hne]; [by exists [0]|].
  destruct x as [|p|p]; [done| |lia]. change (pretty (Z.pos p)) with (pretty (N.pos p)).
  unfold pretty, pretty_N. rewrite decide_False by done.
  destruct (pretty_go_digits (N.pos p) "" [] eq_refl) as (ds & Hd & Hv & Hh). rewrite app_nil_r in Hd.
  exists ds. split; [done|]. split; [by intros ->|]. by split_and!.
Qed.

Lemma decimal_pretty x : 0 <= x → ∃ ds, decimal (pretty x) = Some ds ∧ dec_val ds = x.
Proof.
  intros Hx. destruct (digits_pretty x Hx) as (ds & Hd & Hne & Hv & _). exists ds. unfold decimal.
  rewrite Hd. cbn. by rewrite decide_False.
Qed.

Lemma decimal_digits s ds : decimal s = Some ds → digits s = Some ds ∧ ds ≠ [].
Proof. unfold decimal. destruct (digits s); cbn; [|done]. case_decide; [done|]. by intros [= <-]. Qed.
