(* ===== verification/Groth16.v ===== *)
(** snarkjs proofs as the bytes the verifier reads ([zk/groth16-format.ts]). *)

From S2P Require Import Prelude Bytes Errors VaultClient DecimalText.

Local Open Scope Z_scope.

(** BN254 base field modulus, big-endian. *)
Definition BN254_P : bytes :=
  [x30; x64; x4e; x72; xe1; x31; xa0; x29; xb8; x50; x45; xb6; x81;
   x81; x58; x5d; x97; x81; x6a; x91; x68; x71; xca; x8d; x3c; x20;
   x8c; x16; xd8; x7c; xfd; x47].

Record SnarkjsRawProof := { sp_pi_a : list string; sp_pi_b : list (list string); sp_pi_c : list string }.

Record FormatGroth16Result := { fg_proof : Groth16OnChainProof; publicInputsBE : list bytes }.

(** One division of a decimal number by 256: [next] and [rem]. *)
Fixpoint div256_loop (digits : list Z) (rem : Z) (next : list Z) : list Z * Z :=
  match digits with
  | [] => (next, rem)
  | d :: digits =>
      let cur := rem * 10 + d in
      let q := cur / 256 in
      let rem := cur mod 256 in
      div256_loop digits rem (if negb (bool_decide (next = []) && (q =? 0)) then next ++ [q] else next)
  end.

(** [while (digits.length > 0 && byteIdx > 0)] *)
Fixpoint dec_loop (byteIdx : nat) (digits : list Z) (out : bytes) : bytes :=
  match byteIdx with
  | O => out
  | S byteIdx =>
      if decide (digits = []) then out
      else
        let '(next, rem) := div256_loop digits 0 [] in
        dec_loop byteIdx next (<[byteIdx := u8_of_Z rem]> out)
  end.

Definition decToBe32 (s : string) : res bytes :=
  match decimal s with
  | None => Throw (Error ("non-decimal: " +:+ s))
  | Some digits => Ok (dec_loop 32 digits (replicate 32 x00))
  end.

(** [decToBe32(v[i])]: a missing element is the text "undefined". *)
Definition dec_at (v : list string) (i : nat) : res bytes := decToBe32 (default "undefined" (v !! i)).

Definition groth16G1Bytes (v : list string) : res bytes :=
  x ← dec_at v 0;
  y ← dec_at v 1;
  Ok (x ++ y).

(** [v[i][j]] *)
Definition row (v : list (list string)) (i : nat) : res (list string) :=
  match v !! i with
  | Some r => Ok r
  | None => Throw (EError "TypeError" "Cannot read properties of undefined")
  end.

Definition groth16G2Bytes (v : list (list string)) : res bytes :=
  r0 ← row v 0;
  x0 ← dec_at r0 0;
  x1 ← dec_at r0 1;
  r1 ← row v 1;
  y0 ← dec_at r1 0;
  y1 ← dec_at r1 1;
  Ok (x1 ++ x0 ++ y1 ++ y0).

(** [for (let i = 31; i >= 0; i--)], on the digits from the last one on. *)
Fixpoint sub_loop (a b : bytes) (borrow : Z) : bytes :=
  match a, b with
  | x :: a, y :: b =>
      let diff := u8_val x - u8_val y - borrow in
      if diff <? 0 then u8_of_Z (diff + 256) :: sub_loop a b 1
      else u8_of_Z diff :: sub_loop a b 0
  | _, _ => []
  end.

Definition subBe (a b : bytes) : res bytes :=
  _ ← throw_if (negb (length a =? 32)%nat || negb (length b =? 32)%nat) (Error "32B operands only");
  Ok (reverse (sub_loop (reverse a) (reverse b) 0)).

Definition negateG1 (point : bytes) : res bytes :=
  _ ← throw_if (negb (length point =? 64)%nat) (Error "G1 point must be 64 bytes");
  yNeg ← subBe BN254_P (slice point 32 32);
  Ok (slice point 0 32 ++ yNeg).

Definition formatGroth16ForOnChain (proofJson : SnarkjsRawProof) (publicJson : list string) : res FormatGroth16Result :=
  piA ← groth16G1Bytes proofJson.(sp_pi_a);
  piB ← groth16G2Bytes proofJson.(sp_pi_b);
  piC ← groth16G1Bytes proofJson.(sp_pi_c);
  piANeg ← negateG1 piA;
  publicInputsBE ← mapM decToBe32 publicJson;
  Ok {| fg_proof := {| piA := piANeg; piB := piB; piC := piC |}; publicInputsBE := publicInputsBE |}.

Example decToBe32_258 : decToBe32 "258" = Ok (replicate 30 x00 ++ [x01; x02]).
Proof. vm_compute. reflexivity. Qed.

(** ** Lemmas *)

(** One pass divides exactly. *)
Lemma div256_loop_spec ds rem next next' rem' :
  all_digits ds → 0 <= rem < 256 → all_digits next → head next ≠ Some 0 →
  div256_loop ds rem next = (next', rem') →
  0 <= rem' < 256 ∧ all_digits next' ∧ head next' ≠ Some 0 ∧
  dec_val next' * 256 + rem' = (dec_val next * 256 + rem) * 10 ^ Z.of_nat (length ds) + dec_val ds.
Proof.
  revert rem next; induction ds as [|d ds IH]; intros rem next Hds Hrem Hnext Hh; cbn [div256_loop].
  - intros [= <- <-]. split_and!; try done; try lia. cbn. lia.
  - apply Forall_cons in Hds as [Hd Hds]. cbv zeta. intros Hrun.
    pose proof (Z.div_mod (rem * 10 + d) 256 ltac:(lia)) as Hdm.
    pose proof (Z.mod_pos_bound (rem * 10 + d) 256 ltac:(lia)) as Hmod.
    assert (Hq : 0 <= (rem * 10 + d) / 256 < 10) by (split; [apply Z.div_pos|apply Z.div_lt_upper_bound]; lia).
    set (q := (rem * 10 + d) / 256) in *. set (m := (rem * 10 + d) mod 256) in *.
    cbn [length]. rewrite Nat2Z.inj_succ, Z.pow_succ_r, dec_val_cons by lia.
    destruct (negb _) eqn:E.
    + assert (Hn2 : all_digits (next ++ [q])) by (apply Forall_app; split; [done|]; constructor; [exact Hq|constructor]).
      apply IH in Hrun as (? & ? & ? & He); [|done|done|done|].
      * do 3 (split; [done|]). rewrite He, dec_val_app. cbn. nia.
      * destruct next as [|n next]; [|done]. cbn in E |- *. apply negb_true_iff, Z.eqb_neq in E. congruence.
    + apply negb_false_iff, andb_true_iff in E as [En%bool_decide_eq_true Eq%Z.eqb_eq]. subst next.
      apply IH in Hrun as (? & ? & ? & He); [|done|done|done|done]. do 3 (split; [done|]). rewrite He. cbn. nia.
Qed.

Lemma be_bytes_0 n : be_bytes n 0 = replicate n x00.
Proof.
  apply be_val_inj; [by rewrite length_be_bytes, length_replicate|].
  rewrite be_val_be_bytes, Z.mod_0_l by (apply Z.pow_nonzero; lia). symmetry.
  induction n as [|n IH]; [done|]. cbn [replicate]. change (x00 :: ?l) with ([x00] ++ l).
  by rewrite be_val_app, IH.
Qed.

Lemma u8_of_Z_low x y : u8_of_Z (x * 256 + y) = u8_of_Z y.
Proof. apply (inj u8_val). rewrite !u8_val_of_Z. rewrite Z.add_comm. by rewrite Z.mod_add. Qed.

Lemma dec_loop_spec n ds tail :
  all_digits ds → dec_loop n ds (replicate n x00 ++ tail) = be_bytes n (dec_val ds) ++ tail.
Proof.
  revert ds tail; induction n as [|n IH]; intros ds tail Hds; cbn [dec_loop]; [done|].
  case_decide as Hne; [subst ds; change (dec_val []) with 0; by rewrite be_bytes_0|].
  destruct (div256_loop ds 0 []) as [next rem] eqn:E.
  apply div256_loop_spec in E as (Hr & Hn & _ & He); [|done|lia|constructor|done].
  change (dec_val []) with 0 in He. rewrite be_bytes_S.
  replace (dec_val ds) with (dec_val next * 256 + rem) by lia.
  rewrite Z.div_add_l, (Z.div_small rem), Z.add_0_r, u8_of_Z_low, <-app_assoc by lia.
  rewrite <-IH by done. f_equal. change (S n) with (1 + n)%nat. rewrite Nat.add_comm, replicate_add, <-app_assoc.
  rewrite insert_app_r_alt by (rewrite length_replicate; lia). rewrite length_replicate, Nat.sub_diag. done.
Qed.

Lemma decToBe32_spec s :
  decToBe32 s = match decimal s with
                | Some ds => Ok (be_bytes 32 (dec_val ds))
                | None => Throw (Error ("non-decimal: " +:+ s))
                end.
Proof.
  unfold decToBe32. destruct (decimal s) as [ds|] eqn:E; [|done]. apply decimal_digits in E as [E%digits_range _].
  pose proof (dec_loop_spec 32 ds [] E) as Hd. rewrite !app_nil_r in Hd. by rewrite Hd.
Qed.

Lemma decToBe32_pretty x : 0 <= x → decToBe32 (pretty x) = Ok (be_bytes 32 x).
Proof. intros Hx. destruct (decimal_pretty x Hx) as (ds & E & Hv). by rewrite decToBe32_spec, E, Hv. Qed.

Lemma sub_loop_spec a b borrow :
  length a = length b → 0 <= borrow <= 1 →
  sub_loop a b borrow = le_bytes (length a) (le_val a - le_val b - borrow).
Proof.
  revert b borrow; induction a as [|x a IH]; intros [|y b] borrow Hl Hb; try done.
  cbn [length] in Hl. injection Hl as Hl. cbn [sub_loop length le_bytes le_val].
  pose proof (u8_val_range x). pose proof (u8_val_range y).
  set (v := u8_val x + 256 * le_val a - (u8_val y + 256 * le_val b) - borrow).
  set (d := u8_val x - u8_val y - borrow).
  assert (Hv : v = (le_val a - le_val b) * 256 + d) by (unfold v, d; lia).
  assert (Hdr : -256 <= d < 256) by (unfold d; lia).
  destruct (Z.ltb_spec d 0) as [Hd|Hd]; rewrite IH by (done || lia); f_equal.
  - rewrite Hv. replace ((le_val a - le_val b) * 256 + d) with ((le_val a - le_val b - 1) * 256 + (d + 256)) by lia.
    by rewrite u8_of_Z_low.
  - f_equal. rewrite Hv. replace ((le_val a - le_val b) * 256 + d) with ((le_val a - le_val b - 1) * 256 + (d + 256)) by lia.
    rewrite Z.div_add_l, (Z.div_small (d + 256)) by lia. lia.
  - rewrite Hv. by rewrite u8_of_Z_low.
  - f_equal. rewrite Hv, Z.div_add_l, (Z.div_small d) by lia. lia.
Qed.

Lemma subBe_spec a b :
  length a = 32%nat → length b = 32%nat → subBe a b = Ok (be_bytes 32 (be_val a - be_val b)).
Proof.
  intros La Lb. unfold subBe. rewrite La, Lb. cbn [mbind res_bind throw_if negb Nat.eqb orb]. f_equal.
  rewrite sub_loop_spec by (rewrite ?length_reverse; lia || congruence). rewrite length_reverse, La, Z.sub_0_r.
  unfold be_bytes. by rewrite !be_val_rev.
Qed.

Definition P : Z := 21888242871839275222246405745257275088696311157297823662689037894645226208583.
Lemma BN254_P_val : be_val BN254_P = P.
Proof. reflexivity. Qed.

Lemma negateG1_spec x y :
  length x = 32%nat → length y = 32%nat → negateG1 (x ++ y) = Ok (x ++ be_bytes 32 (P - be_val y)).
Proof.
  intros Lx Ly. unfold negateG1. rewrite length_app, Lx, Ly. cbn [mbind res_bind throw_if negb Nat.eqb Nat.add].
  rewrite slice_app_l by done. rewrite (slice_app_r x y 32 32 32) by (done || lia). cbn [Nat.sub].
  rewrite slice_all, subBe_spec, BN254_P_val by done. reflexivity.
Qed.

(** A point and a proof over numbers, as snarkjs prints them. *)
Definition g1_text (x y : Z) : list string := [pretty x; pretty y; "1"].
Definition g2_text (x0 x1 y0 y1 : Z) : list (list string) :=
  [[pretty x0; pretty x1]; [pretty y0; pretty y1]; ["1"; "0"]].

Lemma groth16G1Bytes_text x y :
  0 <= x → 0 <= y → groth16G1Bytes (g1_text x y) = Ok (be_bytes 32 x ++ be_bytes 32 y).
Proof.
  intros. unfold groth16G1Bytes, dec_at, g1_text. eapply bind_Ok_eq; [by apply decToBe32_pretty|].
  eapply bind_Ok_eq; [by apply decToBe32_pretty|reflexivity].
Qed.

Lemma groth16G2Bytes_text x0 x1 y0 y1 :
  0 <= x0 → 0 <= x1 → 0 <= y0 → 0 <= y1 →
  groth16G2Bytes (g2_text x0 x1 y0 y1) = Ok (be_bytes 32 x1 ++ be_bytes 32 x0 ++ be_bytes 32 y1 ++ be_bytes 32 y0).
Proof.
  intros. unfold groth16G2Bytes, dec_at, row, g2_text. eapply bind_Ok_eq; [reflexivity|].
  do 2 (eapply bind_Ok_eq; [by apply decToBe32_pretty|]). eapply bind_Ok_eq; [reflexivity|].
  do 2 (eapply bind_Ok_eq; [by apply decToBe32_pretty|]). reflexivity.
Qed.

Lemma public_text pubs : Forall (λ v, 0 <= v) pubs → mapM decToBe32 (pretty <$> pubs) = Ok (be_bytes 32 <$> pubs).
Proof.
  induction 1 as [|v pubs Hv _ IH]; [done|]. cbn [fmap list_fmap mapM]. eapply bind_Ok_eq; [by apply decToBe32_pretty|].
  eapply bind_Ok_eq; [exact IH|reflexivity].
Qed.

(** ** Properties *)

(** [C31] [formatGroth16ForOnChain] of the decimal text of a proof gives the bytes
    of its coordinates, 32 big-endian bytes each: [pi_a] with its y coordinate
    subtracted from the base field modulus, so that the two y coordinates add up
    to the modulus, [pi_b] with the coefficients of both coordinates swapped,
    [pi_c] as it is, and the public signals in order.  The lengths are those the
    instruction builder requires, so a formatted proof always serialises. *)
Theorem formatGroth16_correct ax ay bx0 bx1 by0 by1 cx cy pubs :
  Forall (λ v, 0 <= v < P) [ax; ay; bx0; bx1; by0; by1; cx; cy] → 0 < ay → Forall (λ v, 0 <= v) pubs →
  ∃ r, formatGroth16ForOnChain
         {| sp_pi_a := g1_text ax ay; sp_pi_b := g2_text bx0 bx1 by0 by1; sp_pi_c := g1_text cx cy |}
         (pretty <$> pubs) = Ok r ∧
    r.(fg_proof).(piA) = be_bytes 32 ax ++ be_bytes 32 (P - ay) ∧
    0 < be_val (drop 32 r.(fg_proof).(piA)) < P ∧ be_val (drop 32 r.(fg_proof).(piA)) + ay = P ∧
    r.(fg_proof).(piB) = be_bytes 32 bx1 ++ be_bytes 32 bx0 ++ be_bytes 32 by1 ++ be_bytes 32 by0 ∧
    r.(fg_proof).(piC) = be_bytes 32 cx ++ be_bytes 32 cy ∧
    r.(publicInputsBE) = be_bytes 32 <$> pubs ∧
    serializeProof r.(fg_proof) = Ok (r.(fg_proof).(piA) ++ r.(fg_proof).(piB) ++ r.(fg_proof).(piC)).
Proof.
  intros Hf Hay Hp. repeat (apply Forall_cons in Hf as [? Hf]).
  assert (Hy : be_val (be_bytes 32 (P - ay)) = P - ay).
  { rewrite be_val_be_bytes. apply Z.mod_small. split; [lia|]. apply (Z.lt_trans _ P); [lia|reflexivity]. }
  assert (Hneg : negateG1 (be_bytes 32 ax ++ be_bytes 32 ay) = Ok (be_bytes 32 ax ++ be_bytes 32 (P - ay))).
  { rewrite negateG1_spec, be_val_be_bytes by apply length_be_bytes.
    by rewrite (Z.mod_small ay) by (split; [lia|]; apply (Z.lt_trans _ P); [lia|reflexivity]). }
  eexists. split.
  { unfold formatGroth16ForOnChain. cbn [sp_pi_a sp_pi_b sp_pi_c].
    eapply bind_Ok_eq; [apply groth16G1Bytes_text; lia|]. eapply bind_Ok_eq; [apply groth16G2Bytes_text; lia|].
    eapply bind_Ok_eq; [apply groth16G1Bytes_text; lia|]. eapply bind_Ok_eq; [exact Hneg|].
    eapply bind_Ok_eq; [by apply public_text|]. reflexivity. }
  cbn [fg_proof piA piB piC publicInputsBE].
  rewrite drop_app_length' by (by rewrite length_be_bytes). rewrite Hy. split; [done|]. split; [lia|]. split; [lia|].
  do 3 (split; [done|]). apply serializeProof_Ok. cbn [piA piB piC]. by rewrite !length_app, !length_be_bytes.
Qed.

Lemma formatGroth16_correct_witness :
  ∃ r, formatGroth16ForOnChain
         {| sp_pi_a := g1_text 1 2; sp_pi_b := g2_text 3 4 5 6; sp_pi_c := g1_text 7 8 |} (pretty <$> [9]) = Ok r ∧
    r.(publicInputsBE) = [be_bytes 32 9].
Proof.
  destruct (formatGroth16_correct 1 2 3 4 5 6 7 8 [9]) as (r & Hr & _ & _ & _ & _ & _ & Hp & _).
  - repeat (apply Forall_cons_2; [split; [discriminate|reflexivity]|]). apply Forall_nil_2.
  - reflexivity.
  - apply Forall_cons_2; [discriminate|apply Forall_nil_2].
  - exists r. split; [exact Hr|exact Hp].
Defined.

(** A G1 point with y = 0 keeps a y coordinate that is not reduced. *)
Lemma negateG1_zero x : length x = 32%nat → negateG1 (x ++ be_bytes 32 0) = Ok (x ++ BN254_P).
Proof.
  intros Lx. rewrite negateG1_spec by (done || apply length_be_bytes). do 2 f_equal.
Qed.
