(* ===== verification/WebProver.v ===== *)
(** The browser prover: [WebProverSuite] ([lib/web-prover/web-prover-suite.ts])
    and the worker it talks to ([workers/prover.worker.ts]).

    [snarkjs.groth16.fullProve] is a parameter.  The methods and the event
    listeners of the suite are functions on its state; [prover_step] interleaves
    them with the worker and with messages in flight. *)

From stdpp Require Import relations.
From S2P Require Import Prelude Bytes Errors Externals VaultClient DecimalText Groth16 Client.

Local Open Scope Z_scope.

(** ** Messages *)

(** [Record<string, string | string[]>] *)
Definition Signals : Type := list (string * (string + list string)).

Record ProverWorkerRequest := { req_id : string; req_inputs : Signals; req_wasmUrl : string; req_zkeyUrl : string }.

Inductive ProverWorkerResponse :=
  | ReplyOk (id : string) (proof : SnarkjsRawProof) (publicSignals : list string) (durationMs : Z)
  | ReplyError (id : string) (error : string).

Definition reply_id (r : ProverWorkerResponse) : string :=
  match r with ReplyOk id _ _ _ => id | ReplyError id _ => id end.

Record CircuitAssets := { wasmUrl : string; zkeyUrl : string }.
Record WebProverAssets := { as_walletCreate : CircuitAssets; as_spend : CircuitAssets }.

Definition DEFAULT_ASSETS : WebProverAssets :=
  {| as_walletCreate := {| wasmUrl := "/circuits/valid_wallet_create/circuit.wasm";
                           zkeyUrl := "/circuits/valid_wallet_create/circuit.zkey" |};
     as_spend := {| wasmUrl := "/circuits/valid_spend/circuit.wasm";
                    zkeyUrl := "/circuits/valid_spend/circuit.zkey" |} |}.

Record ProveCircuitOpts := { pc_inputs : Signals; pc_assets : CircuitAssets }.

(** ** The worker *)

Section worker.
Context (fullProve : Signals → string → string → res (SnarkjsRawProof * list string)).

(** The "message" listener; the two clock readings are arguments. *)
Definition worker_message (start stop : Z) (m : ProverWorkerRequest) : ProverWorkerResponse :=
  match fullProve m.(req_inputs) m.(req_wasmUrl) m.(req_zkeyUrl) with
  | Ok (proof, publicSignals) => ReplyOk m.(req_id) proof publicSignals (stop - start)
  | Throw err => ReplyError m.(req_id) (exn_message err)
  end.
End worker.

(** ** The suite *)

(** How a request's promise settled. *)
Inductive Outcome :=
  | Resolved (r : ProverWorkerResponse)
  | Rejected (message : string).

(** [worker] names one of the workers created so far, [pending] holds the ids of
    the map in insertion order. *)
Record WebProverSuite := { worker : option nat; created : nat; pending : list string; nextId : Z }.

Definition new_suite : WebProverSuite := {| worker := None; created := 0; pending := []; nextId := 0 |}.

Definition ensureWorker (browser : bool) (s : WebProverSuite) : res (nat * WebProverSuite) :=
  match s.(worker) with
  | Some w => Ok (w, s)
  | None =>
      if browser then
        let w := s.(created) in
        Ok (w, {| worker := Some w; created := S s.(created); pending := s.(pending); nextId := s.(nextId) |})
      else Throw (Error "WebProverSuite can only run in a browser context")
  end.

Definition request_id (n : Z) : string := "req-" +:+ pretty n.

(** The synchronous part of [proveOne]: the worker posted to and the message. *)
Definition post_request (browser : bool) (opts : ProveCircuitOpts) (s : WebProverSuite)
    : res (nat * ProverWorkerRequest * WebProverSuite) :=
  '(w, s) ← ensureWorker browser s;
  let id := request_id s.(nextId) in
  let msg := {| req_id := id; req_inputs := opts.(pc_inputs); req_wasmUrl := opts.(pc_assets).(wasmUrl);
                req_zkeyUrl := opts.(pc_assets).(zkeyUrl) |} in
  Ok (w, msg, {| worker := s.(worker); created := s.(created); pending := s.(pending) ++ [id];
                 nextId := s.(nextId) + 1 |}).

Definition settle_reply (r : ProverWorkerResponse) : Outcome :=
  match r with ReplyOk _ _ _ _ => Resolved r | ReplyError _ error => Rejected error end.

(** The "message" listener. *)
Definition on_message (reply : ProverWorkerResponse) (s : WebProverSuite) : WebProverSuite * list (string * Outcome) :=
  let id := reply_id reply in
  if decide (id ∈ s.(pending)) then
    ({| worker := s.(worker); created := s.(created); pending := filter (λ i, i ≠ id) s.(pending);
        nextId := s.(nextId) |}, [(id, settle_reply reply)])
  else (s, []).

(** The "error" listener. *)
Definition on_error (err_message : string) (s : WebProverSuite) : WebProverSuite * list (string * Outcome) :=
  let message := if decide (err_message = "") then "prover worker crashed" else err_message in
  ({| worker := None; created := s.(created); pending := []; nextId := s.(nextId) |},
   (λ id, (id, Rejected (message +:+ " (request " +:+ id +:+ ")"))) <$> s.(pending)).

Definition dispose (s : WebProverSuite) : WebProverSuite * list (string * Outcome) :=
  ({| worker := None; created := s.(created); pending := []; nextId := s.(nextId) |},
   (λ id, (id, Rejected "WebProverSuite disposed before resolving")) <$> s.(pending)).

(** [proveOne] after the await. *)
Definition prove_result (o : Outcome) : res Groth16ProofBytes :=
  match o with
  | Resolved (ReplyOk _ proof publicSignals _) =>
      r ← formatGroth16ForOnChain proof publicSignals;
      Ok {| pb_piA := r.(fg_proof).(piA); pb_piB := r.(fg_proof).(piB); pb_piC := r.(fg_proof).(piC);
            publicInputs := r.(publicInputsBE) |}
  | Resolved (ReplyError _ error) => Throw (Error error)
  | Rejected message => Throw (Error message)
  end.

(** ** Circuit inputs *)

Definition one (x : Z) : string + list string := inl (pretty x).
Definition many (l : list Z) : string + list string := inr (pretty <$> l).

Definition wallet_create_signals (i : WalletCreateInputs) : Signals :=
  [("userCommitment", one i.(wc_userCommitment)); ("rootKey", many [i.(wc_rootKey).1; i.(wc_rootKey).2]);
   ("spendingKey", one i.(wc_spendingKey)); ("viewingKey", one i.(wc_viewingKey));
   ("r0", one i.(wc_r0)); ("r1", one i.(wc_r1)); ("r2", one i.(wc_r2))].

Definition spend_signals (i : SpendInputs) : Signals :=
  [("merkleRoot", one i.(si_merkleRoot)); ("nullifier", one i.(si_nullifier));
   ("tokenMint", many [i.(si_tokenMint).1; i.(si_tokenMint).2]); ("amount", one i.(si_amount));
   ("spendingKey", one i.(si_spendingKey)); ("ownerCommitmentBlinding", one i.(si_ownerCommitmentBlinding));
   ("nonce", one i.(si_nonce)); ("blindingR", one i.(si_blindingR));
   ("merklePath", many i.(si_merklePath)); ("merkleIndices", many i.(si_merkleIndices))].

Definition walletCreate_opts (assets : WebProverAssets) (i : WalletCreateInputs) : ProveCircuitOpts :=
  {| pc_inputs := wallet_create_signals i; pc_assets := assets.(as_walletCreate) |}.

Definition spend_opts (assets : WebProverAssets) (i : SpendInputs) : res ProveCircuitOpts :=
  _ ← throw_if (negb (length i.(si_merklePath) =? 20)%nat || negb (length i.(si_merkleIndices) =? 20)%nat)
        (Error ("WebProverSuite.spend.prove: expected merkle path/indices length 20, got " +:+
                pretty (length i.(si_merklePath)) +:+ "/" +:+ pretty (length i.(si_merkleIndices))));
  Ok {| pc_inputs := spend_signals i; pc_assets := assets.(as_spend) |}.

(** ** The suite, its workers and the messages between them *)

Record System := {
  sy_suite : WebProverSuite;
  issued : list ProverWorkerRequest;
  posted : list (nat * ProverWorkerRequest);
  replies : list ProverWorkerResponse;
  settled : list (string * Outcome);
  stopped : list nat }.

Definition new_system : System :=
  {| sy_suite := new_suite; issued := []; posted := []; replies := []; settled := []; stopped := [] |}.

Section system.
Context (fullProve : Signals → string → string → res (SnarkjsRawProof * list string)).

(** A worker that is not terminated answers a message it holds; a reply reaches
    the suite.  Proofs run concurrently, so neither is in order. *)
Inductive quiet_step (s : System) : System → Prop :=
  | work pre w m post start stop :
      s.(posted) = pre ++ (w, m) :: post → w ∉ s.(stopped) →
      quiet_step s
        {| sy_suite := s.(sy_suite); issued := s.(issued); posted := pre ++ post;
           replies := s.(replies) ++ [worker_message fullProve start stop m]; settled := s.(settled);
           stopped := s.(stopped) |}
  | deliver pre r post :
      s.(replies) = pre ++ r :: post →
      quiet_step s
        {| sy_suite := (on_message r s.(sy_suite)).1; issued := s.(issued); posted := s.(posted);
           replies := pre ++ post; settled := s.(settled) ++ (on_message r s.(sy_suite)).2; stopped := s.(stopped) |}.

Inductive calm_step (s : System) : System → Prop :=
  | quiet s' : quiet_step s s' → calm_step s s'
  | request opts w m suite' :
      post_request true opts s.(sy_suite) = Ok (w, m, suite') →
      calm_step s
        {| sy_suite := suite'; issued := s.(issued) ++ [m]; posted := s.(posted) ++ [(w, m)]; replies := s.(replies);
           settled := s.(settled); stopped := s.(stopped) |}.

Inductive prover_step (s : System) : System → Prop :=
  | calm s' : calm_step s s' → prover_step s s'
  | crash w message :
      (w < s.(sy_suite).(created))%nat → w ∉ s.(stopped) →
      prover_step s
        {| sy_suite := (on_error message s.(sy_suite)).1; issued := s.(issued); posted := s.(posted);
           replies := s.(replies); settled := s.(settled) ++ (on_error message s.(sy_suite)).2; stopped := s.(stopped) |}
  | disposed :
      prover_step s
        {| sy_suite := (dispose s.(sy_suite)).1; issued := s.(issued); posted := s.(posted);
           replies := s.(replies); settled := s.(settled) ++ (dispose s.(sy_suite)).2;
           stopped := s.(stopped) ++ option_list s.(sy_suite).(worker) |}.

(** A reply, or a settlement, that belongs to a request. *)
Definition answers (r : ProverWorkerResponse) (m : ProverWorkerRequest) : Prop :=
  ∃ start stop, r = worker_message fullProve start stop m.

Definition settles_as (io : string * Outcome) (m : ProverWorkerRequest) : Prop :=
  io.1 = m.(req_id) ∧
  ((∃ r, answers r m ∧ io.2 = settle_reply r) ∨ (∃ message, io.2 = Rejected message)).

Record system_inv (s : System) : Prop := {
  iv_next : 0 <= s.(sy_suite).(nextId);
  iv_ids : req_id <$> s.(issued) = request_id ∘ Z.of_nat <$> seq 0 (Z.to_nat s.(sy_suite).(nextId));
  iv_count : s.(sy_suite).(pending) ++ s.(settled).*1 ≡ₚ req_id <$> s.(issued);
  iv_posted : Forall (λ wm, wm.2 ∈ s.(issued)) s.(posted);
  iv_replies : Forall (λ r, ∃ m, m ∈ s.(issued) ∧ answers r m) s.(replies);
  iv_settled : Forall (λ io, ∃ m, m ∈ s.(issued) ∧ settles_as io m) s.(settled) }.

Lemma reply_id_worker start stop m : reply_id (worker_message fullProve start stop m) = m.(req_id).
Proof. unfold worker_message. by destruct (fullProve _ _ _) as [[? ?]|]. Qed.

#[export] Instance request_id_inj : Inj (=) (=) request_id.
Proof. intros a b H. unfold request_id in H. apply (inj (String.append "req-")) in H. by apply (inj pretty) in H. Qed.

Lemma ids_NoDup n : NoDup (request_id ∘ Z.of_nat <$> seq 0 n).
Proof. apply NoDup_fmap; [apply _|apply NoDup_seq]. Qed.

(** The pending ids, all rejected. *)
Lemma reject_all s f :
  system_inv s →
  Forall (λ io, ∃ m, m ∈ s.(issued) ∧ settles_as io m) ((λ id, (id, Rejected (f id))) <$> s.(sy_suite).(pending)).
Proof.
  intros [_ _ Hc _ _ _]. apply Forall_fmap, Forall_forall. intros id Hid. cbn.
  assert (Hin : id ∈ req_id <$> s.(issued)) by (rewrite <-Hc; set_solver).
  apply list_elem_of_fmap in Hin as (m & -> & Hm). exists m. split; [done|]. split; [done|]. right. by eexists.
Qed.

Lemma filter_out_fresh (id : string) (l : list string) : id ∉ l → filter (λ i, i ≠ id) l = l.
Proof.
  induction l as [|x l IH]; intros Hx; [done|]. apply not_elem_of_cons in Hx as [Hne Hx].
  rewrite filter_cons_True by (by intros ->). by rewrite IH.
Qed.

Lemma filter_out_perm (id : string) (l : list string) :
  NoDup l → id ∈ l → filter (λ i, i ≠ id) l ++ [id] ≡ₚ l.
Proof.
  induction 1 as [|x l Hx Hnd IH]; intros Hin; [set_solver|]. apply elem_of_cons in Hin as [->|Hin].
  - rewrite filter_cons_False by (by intros ?). by rewrite filter_out_fresh, Permutation_app_comm.
  - rewrite filter_cons_True by (by intros ->). cbn [app]. by rewrite IH.
Qed.

Lemma on_message_inv s pre r post :
  system_inv s → s.(replies) = pre ++ r :: post →
  let '(suite', out) := on_message r s.(sy_suite) in
  suite'.(pending) ++ (s.(settled) ++ out).*1 ≡ₚ req_id <$> s.(issued) ∧
  suite'.(nextId) = s.(sy_suite).(nextId) ∧ Forall (λ io, ∃ m, m ∈ s.(issued) ∧ settles_as io m) out.
Proof.
  intros [_ Hids Hc _ Hr _] Heq. unfold on_message.
  assert (Hnd : NoDup (s.(sy_suite).(pending) ++ s.(settled).*1)) by (rewrite Hc, Hids; apply ids_NoDup).
  case_decide as Hin; cbn [pending nextId].
  - rewrite fmap_app. cbn [fmap list_fmap fst]. split; [|split; [done|]].
    + pose proof (filter_out_perm (reply_id r) s.(sy_suite).(pending) ltac:(by apply NoDup_app in Hnd as (? & _)) Hin) as Hf.
      rewrite <-Hc. transitivity ((filter (λ i, i ≠ reply_id r) s.(sy_suite).(pending) ++ [reply_id r]) ++ s.(settled).*1);
        [|by rewrite Hf].
      rewrite <-!app_assoc. f_equiv. apply Permutation_app_comm.
    + apply Forall_singleton. rewrite Heq in Hr. apply Forall_app in Hr as [_ [(m & Hm & start & stop & ->) _]%Forall_cons].
      exists m. split; [done|]. split; [apply reply_id_worker|]. left. eexists. split; [by eexists _, _|done].
  - by rewrite app_nil_r.
Qed.

Lemma calm_inv s s' : calm_step s s' → system_inv s → system_inv s'.
Proof.
  intros [s1 [pre w m post start stop Hp _|pre r post Hr]|opts w m suite' Hreq] Hi.
  - pose proof (iv_posted _ Hi) as Hpo. rewrite Hp in Hpo. apply Forall_app in Hpo as [Hp1 [Hm Hp2]%Forall_cons].
    destruct Hi as [? ? ? _ Hr ?]. split; try done; cbn [posted replies sy_suite issued].
    + by apply Forall_app.
    + apply Forall_app. split; [done|]. apply Forall_singleton. exists m. split; [done|]. by eexists _, _.
  - pose proof (on_message_inv s pre r post Hi Hr) as Hom.
    destruct (on_message r (sy_suite s)) as [suite' out] eqn:E. destruct Hom as (Hc & Hn & Ho).
    destruct Hi as [Hn0 Hids _ ? Hrep Hs]. rewrite Hr in Hrep. apply Forall_app in Hrep as [? [_ ?]%Forall_cons].
    split; cbn [posted replies sy_suite issued settled fst snd]; rewrite ?Hn; try done; by apply Forall_app.
  - unfold post_request in Hreq. apply res_bind_Ok in Hreq as ([w' s1] & He & Hreq). injection Hreq as <- <- <-.
    assert (Hs1 : s1.(pending) = s.(sy_suite).(pending) ∧ s1.(nextId) = s.(sy_suite).(nextId)).
    { unfold ensureWorker in He. destruct (worker _); by injection He as <- <-. }
    destruct Hs1 as [Hp Hn]. destruct Hi as [Hn0 Hids Hc Hpo Hr Hs].
    set (m := {| req_id := request_id (nextId s1); req_inputs := _; req_wasmUrl := _; req_zkeyUrl := _ |}).
    assert (Hmono : ∀ m', m' ∈ s.(issued) → m' ∈ s.(issued) ++ [m]) by (intros; set_solver).
    split; cbn [posted replies sy_suite issued settled pending nextId]; rewrite ?Hp, ?Hn.
    + lia.
    + rewrite fmap_app, Hids, Z2Nat.inj_add, seq_app, fmap_app by lia. change (Z.to_nat 1) with 1%nat. f_equal.
      cbn [seq fmap list_fmap Nat.add req_id m]. unfold compose. by rewrite Z2Nat.id, Hn.
    + rewrite fmap_app, <-Hc. cbn. rewrite Hn, <-!app_assoc. f_equiv. apply Permutation_app_comm.
    + apply Forall_app. split; [|apply Forall_singleton; cbn; set_solver]. eapply Forall_impl; [exact Hpo|]. auto.
    + eapply Forall_impl; [exact Hr|]. intros r (m' & ? & ?). eauto.
    + eapply Forall_impl; [exact Hs|]. intros io (m' & ? & ?). eauto.
Qed.

Lemma rejected_inv s suite' f stopped' :
  system_inv s → suite'.(nextId) = s.(sy_suite).(nextId) → suite'.(pending) = [] →
  system_inv {| sy_suite := suite'; issued := s.(issued); posted := s.(posted); replies := s.(replies);
                settled := s.(settled) ++ ((λ id, (id, Rejected (f id))) <$> s.(sy_suite).(pending));
                stopped := stopped' |}.
Proof.
  intros Hi Hn Hp. pose proof (reject_all s f Hi) as Hrej. destruct Hi as [? ? Hc ? ? ?].
  split; cbn [posted replies sy_suite issued settled]; rewrite ?Hn, ?Hp; try done.
  - rewrite <-Hc, fmap_app, <-list_fmap_compose. cbn [app].
    rewrite (list_fmap_ext _ id); [|done]. rewrite list_fmap_id. apply Permutation_app_comm.
  - by apply Forall_app.
Qed.

Lemma prover_inv s s' : prover_step s s' → system_inv s → system_inv s'.
Proof.
  intros [s1 Hs|w message _ _|] Hi; [by eapply calm_inv|..].
  - by apply (rejected_inv s _ (λ id, (if decide (message = "") then "prover worker crashed" else message) +:+
      " (request " +:+ id +:+ ")") (stopped s)).
  - by apply (rejected_inv s _ (λ _, "WebProverSuite disposed before resolving")).
Qed.

Lemma new_system_inv : system_inv new_system.
Proof. by split. Qed.

Lemma steps_system_inv s s' : rtc prover_step s s' → system_inv s → system_inv s'.
Proof. induction 1; eauto using prover_inv. Qed.

(** Without a crash or a disposal, whatever is pending is on its way. *)
Definition on_its_way (s : System) : Prop :=
  s.(stopped) = [] ∧
  Forall (λ id, id ∈ (req_id ∘ snd <$> s.(posted)) ++ (reply_id <$> s.(replies))) s.(sy_suite).(pending).

Lemma calm_on_its_way s s' : calm_step s s' → on_its_way s → on_its_way s'.
Proof.
  intros [s1 [pre w m post start stop Hp _|pre r post Hr]|opts w m suite' Hreq] [Hst Hf]; (split; [done|]);
    cbn [posted replies sy_suite].
  - rewrite Hp in Hf. eapply Forall_impl; [exact Hf|]. cbn beta. intros id Hid. rewrite !fmap_app in Hid. rewrite !fmap_app.
    cbn [fmap list_fmap] in Hid |- *. rewrite reply_id_worker. unfold compose in *. cbn [snd] in *. set_solver.
  - rewrite Hr in Hf. unfold on_message. case_decide as Hin; cbn [fst pending].
    + apply Forall_forall. intros id [Hne Hid]%list_elem_of_filter. rewrite Forall_forall in Hf. specialize (Hf id Hid).
      rewrite !fmap_app in Hf. rewrite !fmap_app. cbn [fmap list_fmap] in Hf. set_solver.
    + apply Forall_forall. intros id Hid. rewrite Forall_forall in Hf. specialize (Hf id Hid).
      assert (id ≠ reply_id r) by congruence. rewrite !fmap_app in Hf. rewrite !fmap_app. cbn [fmap list_fmap] in Hf. set_solver.
  - unfold post_request in Hreq. apply res_bind_Ok in Hreq as ([w' s1] & He & Hreq). injection Hreq as <- <- <-.
    cbn [pending]. assert (Hp : s1.(pending) = s.(sy_suite).(pending)).
    { unfold ensureWorker in He. destruct (worker _); by injection He as <- <-. }
    rewrite Hp. apply Forall_app. split.
    + eapply Forall_impl; [exact Hf|]. cbn beta. intros id Hid. rewrite fmap_app. set_solver.
    + apply Forall_singleton. rewrite fmap_app. unfold compose at 2. cbn [fmap list_fmap snd req_id]. set_solver.
Qed.

(** The messages still to be handled. *)
Definition in_flight (s : System) : nat := 2 * length s.(posted) + length s.(replies).

Lemma quiet_decreases s s' : quiet_step s s' → (in_flight s = 1 + in_flight s')%nat.
Proof.
  unfold in_flight. intros [pre w m post start stop Hp _|pre r post Hr]; cbn [posted replies].
  - rewrite Hp, !length_app. cbn [length]. lia.
  - rewrite Hr, !length_app. cbn [length]. lia.
Qed.

Lemma quiet_possible s : on_its_way s → s.(sy_suite).(pending) ≠ [] → ∃ s', quiet_step s s'.
Proof.
  intros [Hst Hf] Hp. destruct s.(posted) as [|[w m] post] eqn:E1.
  - destruct s.(replies) as [|r post] eqn:E2.
    + destruct s.(sy_suite).(pending) as [|id l]; [done|]. apply Forall_cons in Hf as [Hf _]. set_solver.
    + eexists. by apply (deliver _ []).
  - eexists. apply (work _ [] w m post 0 0); [done|]. rewrite Hst. set_solver.
Qed.

Lemma quiet_nsteps n s s' : nsteps quiet_step n s s' → on_its_way s → (n + in_flight s' = in_flight s)%nat ∧ on_its_way s'.
Proof.
  induction 1 as [s|n s1 s2 s3 Hs _ IH]; intros Hw; [done|].
  destruct (IH (calm_on_its_way _ _ (quiet _ _ Hs) Hw)) as [Hn Hw']. apply quiet_decreases in Hs. split; [lia|done].
Qed.
End system.

(** ** Properties *)

(** [C32] Whatever the interleaving of requests, worker replies, worker errors
    and disposals, every request of the suite has its own id and is at any time
    either pending or settled, and never both or twice; and what it settled with
    is a worker's answer to that very request, or a rejection. *)
Theorem prover_settles_once fullProve s :
  rtc (prover_step fullProve) new_system s →
  NoDup (req_id <$> s.(issued)) ∧ s.(sy_suite).(pending) ++ s.(settled).*1 ≡ₚ req_id <$> s.(issued) ∧
  Forall (λ io, ∃ m, m ∈ s.(issued) ∧ settles_as fullProve io m) s.(settled).
Proof.
  intros Hr. destruct (steps_system_inv fullProve _ _ Hr (new_system_inv fullProve)) as [_ Hids Hc _ _ Hs].
  split; [rewrite Hids; apply ids_NoDup|done].
Qed.

(** A prover that always succeeds, and a run of one request. *)
Definition sample_prove (_ : Signals) (_ _ : string) : res (SnarkjsRawProof * list string) :=
  Ok ({| sp_pi_a := g1_text 1 2; sp_pi_b := g2_text 3 4 5 6; sp_pi_c := g1_text 7 8 |}, ["9"]).

Definition sample_opts : ProveCircuitOpts := {| pc_inputs := []; pc_assets := DEFAULT_ASSETS.(as_spend) |}.

Definition sample_request : ProverWorkerRequest :=
  {| req_id := "req-0"; req_inputs := []; req_wasmUrl := "/circuits/valid_spend/circuit.wasm";
     req_zkeyUrl := "/circuits/valid_spend/circuit.zkey" |}.

Definition sample_posted : System :=
  {| sy_suite := {| worker := Some 0%nat; created := 1; pending := ["req-0"]; nextId := 1 |};
     issued := [sample_request]; posted := [(0%nat, sample_request)]; replies := []; settled := []; stopped := [] |}.

Lemma sample_reached : rtc (calm_step sample_prove) new_system sample_posted.
Proof.
  apply rtc_once. exact (request _ new_system sample_opts 0 sample_request _ eq_refl).
Qed.

Lemma prover_settles_once_witness :
  rtc (prover_step sample_prove) new_system sample_posted ∧ NoDup (req_id <$> sample_posted.(issued)).
Proof.
  assert (Hr : rtc (prover_step sample_prove) new_system sample_posted).
  { exact (rtc_once _ _ (calm _ _ _ (request _ new_system sample_opts 0 sample_request _ eq_refl))). }
  split; [exact Hr|]. exact (proj1 (prover_settles_once sample_prove sample_posted Hr)).
Defined.

(** [C33] No request is lost: in a session without crash and disposal, once no
    new request is made, the worker and the messages in flight always have a
    step to do while something is pending, and they do at most twice the posted
    messages plus the replies under way; then nothing is pending. *)
Theorem prover_drains fullProve s :
  rtc (calm_step fullProve) new_system s →
  (∀ n s', nsteps (quiet_step fullProve) n s s' →
     (n <= in_flight s)%nat ∧ (s'.(sy_suite).(pending) = [] ∨ ∃ s'', quiet_step fullProve s' s'')) ∧
  ∃ s', rtc (quiet_step fullProve) s s' ∧ s'.(sy_suite).(pending) = [].
Proof.
  intros Hr. assert (Hw : on_its_way s).
  { revert Hr. assert (H0 : on_its_way new_system) by (split; [done|constructor]). revert H0. generalize new_system.
    intros s0 H0 Hr. induction Hr as [|s1 s2 s3 Hs _ IH]; [done|]. by apply IH, (calm_on_its_way fullProve s1). }
  clear Hr. split.
  - intros n s' Hn. destruct (quiet_nsteps fullProve _ _ _ Hn Hw) as [Hc Hw']. split; [lia|].
    destruct (decide (s'.(sy_suite).(pending) = [])); [by left|right]. by apply quiet_possible.
  - remember (in_flight s) as k eqn:Hk. revert s Hk Hw. induction k as [k IH] using lt_wf_ind. intros s -> Hw.
    destruct (decide (s.(sy_suite).(pending) = [])) as [He|He]; [by exists s|].
    destruct (quiet_possible fullProve s Hw He) as [s1 Hs].
    destruct (IH (in_flight s1) ltac:(apply quiet_decreases in Hs; lia) s1 eq_refl) as (s' & Hr & He').
    { exact (calm_on_its_way _ _ _ (quiet _ _ _ Hs) Hw). }
    exists s'. split; [by eapply rtc_l|done].
Qed.

Lemma prover_drains_witness :
  rtc (calm_step sample_prove) new_system sample_posted ∧
  ∃ s', rtc (quiet_step sample_prove) sample_posted s' ∧ s'.(sy_suite).(pending) = [].
Proof. split; [exact sample_reached|]. exact (proj2 (prover_drains sample_prove sample_posted sample_reached)). Defined.
