(* ===== verification/LeafHistory.v ===== *)
(** Replay of the vault's leaves from the chain's transaction history
    ([apps/demo/src/lib/dapp/vault-leaf-history.ts]): the pages of signatures,
    the walk over a transaction's instructions, the leaves each of them adds.
    The theorem is that against an honest RPC node the replay is the list of
    leaves the vault's tree holds. *)

From stdpp Require Import gmap.
From S2P Require Import Prelude Bytes Errors Externals Keys Note Borsh VaultClient.
From S2P Require Import VaultProgram Settlement SettleProgram Merkle MerkleShadow VaultTree Client Deposit VaultState.

Local Open Scope Z_scope.

(** ** The node and its answers *)

(** An inner instruction as [getTransaction] returns it: compiled (key indices
    and base58 text or raw bytes) or parsed (addresses as text). *)
Inductive InnerIx :=
  | CompiledInner (programIdIndex : nat) (data : string + bytes) (accounts : option (list nat))
  | ParsedInner (programId : option string) (data : option string) (accounts : option (list string)).

Record CompiledIx := { ci_programIdIndex : nat; ci_accountKeyIndexes : option (list nat); ci_data : bytes }.

Record TxMeta := {
  tm_err : bool;
  tm_loadedAddresses : option (list PublicKey * list PublicKey);   (** writable, readonly *)
  tm_innerInstructions : option (list (nat * list InnerIx));
}.

Record VersionedTransactionResponse := {
  tx_staticAccountKeys : list PublicKey;
  tx_compiledInstructions : list CompiledIx;
  tx_meta : option TxMeta;
}.

(** The part of [Connection] the replay calls. *)
Record Connection (S : Type) := {
  getSignaturesForAddress : PublicKey → nat → option string → M S (list string);   (** limit, before *)
  getTransaction : string → M S (option VersionedTransactionResponse);
}.
Arguments getSignaturesForAddress {S}.
Arguments getTransaction {S}.

(** [bs58.decode] and [new PublicKey(value)] on a value that may be missing. *)
Class Base58 := {
  bs58_decode : string → res bytes;
  newPublicKey : option string → res PublicKey;
}.

(** ** Leaves of one instruction *)

(** [xs.every((x, i) => x === ys[i])] *)
Fixpoint every_eq (xs ys : bytes) : bool :=
  match xs, ys with
  | [], _ => true
  | x :: xs, y :: ys => bool_decide (x = y) && every_eq xs ys
  | _ :: _, [] => false
  end.

Definition isZero32 (b : bytes) : bool := forallb (λ x, bool_decide (x = x00)) b.

Definition push_nonzero (leaves : list bytes) (note : bytes) : list bytes :=
  if isZero32 note then leaves else leaves ++ [note].

Definition pushSettleLeaves (leaves : list bytes) (p : bytes) : res (list bytes) :=
  _ ← throw_if (length p <? 448)%nat (Error ("settle payload too short: " +:+ pretty (length p)));
  let noteC := slice p 80 32 in
  let noteD := slice p 112 32 in
  let noteE := slice p 144 32 in
  let noteF := slice p 176 32 in
  let noteFee := slice p 352 32 in
  let leaves := leaves ++ [noteC; noteD] in
  let leaves := push_nonzero leaves noteE in
  let leaves := push_nonzero leaves noteF in
  Ok (push_nonzero leaves noteFee).

(** The payload the module serialises when it is loaded, and the check on it. *)
Definition dummy_payload : MatchResultPayload :=
  let z16 := replicate 16 x00 in
  let z32 := replicate 32 x00 in
  {| mp_matchId := z16; mp_noteA := z32; mp_noteB := z32; mp_noteC := z32; mp_noteD := z32;
     mp_noteE := z32; mp_noteF := z32; mp_nullifierA := z32; mp_nullifierB := z32;
     mp_orderIdA := z16; mp_orderIdB := z16; mp_baseAmount := 1; mp_quoteAmount := 1;
     mp_buyerChangeAmt := 0; mp_sellerChangeAmt := 0; mp_buyerFeeAmt := 0; mp_sellerFeeAmt := 0;
     mp_noteFee := z32; mp_buyerRelockOrderId := z16; mp_buyerRelockExpiry := 0;
     mp_sellerRelockOrderId := z16; mp_sellerRelockExpiry := 0; mp_clearingPrice := 0; mp_batchSlot := 0 |}.

Definition assertPayloadLayout : res () :=
  bs ← serializePayload dummy_payload;
  throw_if (negb (length bs =? 448)%nat) (Error "serializePayload length drift").

Definition DEPOSIT_TOKEN_MINT_IX_INDEX : nat := 2.

Section replay.
Context `{NodeCrypto} `{Poseidon} `{Base58}.

Definition DEPOSIT_DISC : bytes := anchorDiscriminator "deposit".
Definition SETTLE_DISC : bytes := anchorDiscriminator "tee_forced_settle".

(** An account key is [undefined] when its index is past the key list. *)
Definition pushDepositLeafAsync (leaves : list bytes) (data : bytes) (ixAccountKeys : list (option PublicKey))
    : res (list bytes) :=
  if (length data <? 8 + 8 + 32 + 32 + 32)%nat then Ok leaves
  else if negb (every_eq (slice data 0 8) DEPOSIT_DISC) then Ok leaves
  else
    amount ← readU64 data 8;
    let owner := slice data 16 32 in
    let nonce := slice data 48 32 in
    let blindingR := slice data 80 32 in
    if (length ixAccountKeys <=? DEPOSIT_TOKEN_MINT_IX_INDEX)%nat then Ok leaves
    else
      key ← elem ixAccountKeys DEPOSIT_TOKEN_MINT_IX_INDEX;
      tokenMint ← match key with
                  | Some k => Ok (toBytes k)
                  | None => Throw (TypeError "undefined.toBytes")
                  end;
      ownerCommitment ← bytesToBigInt owner;
      nonce ← bytesToBigInt nonce;
      blindingR ← bytesToBigInt blindingR;
      leaf ← noteCommitment {| tokenMint := tokenMint; amount := amount; ownerCommitment_ := ownerCommitment;
                               nonce := nonce; blindingR := blindingR |};
      Ok (leaves ++ [leaf]).

Definition processIxDataAsync (leaves : list bytes) (data : bytes) (ixAccountKeys : list (option PublicKey))
    : res (list bytes) :=
  if (8 <=? length data)%nat && every_eq (slice data 0 8) DEPOSIT_DISC then
    pushDepositLeafAsync leaves data ixAccountKeys
  else if (8 <=? length data)%nat && every_eq (slice data 0 8) SETTLE_DISC then
    pushSettleLeaves leaves (drop 8 data)
  else Ok leaves.

(** ** The walk over a transaction *)

Definition resolveAccountKeys (tx : VersionedTransactionResponse) : list PublicKey :=
  match tx.(tx_meta) ≫= tm_loadedAddresses with
  | Some (writable, readonly) => tx.(tx_staticAccountKeys) ++ writable ++ readonly
  | None => tx.(tx_staticAccountKeys)
  end.

(** [new Map()] and [set] in the order of the groups. *)
Definition inner_by_top (groups : list (nat * list InnerIx)) : gmap nat (list InnerIx) :=
  foldl (λ m g, <[g.1 := g.2]> m) ∅ groups.

Definition walkIx (vaultProgramId : PublicKey) (cap : nat) (data : bytes) (programId : option PublicKey)
    (ixAccountKeys : list (option PublicKey)) (leaves : list bytes) : res (list bytes) :=
  if (cap <=? length leaves)%nat then Ok leaves
  else
    match programId with
    | None => Throw (TypeError "undefined.equals")
    | Some pid =>
        if bool_decide (pid = vaultProgramId) then processIxDataAsync leaves data ixAccountKeys else Ok leaves
    end.

(** Program, data and account keys of an inner instruction. *)
Definition inner_parts (keys : list PublicKey) (ixi : InnerIx)
    : res (option PublicKey * bytes * list (option PublicKey)) :=
  match ixi with
  | CompiledInner programIdIndex data accounts =>
      raw ← match data with inl text => bs58_decode text | inr bs => Ok bs end;
      Ok (keys !! programIdIndex, raw, (λ kIdx, keys !! kIdx) <$> default [] accounts)
  | ParsedInner programId data accounts =>
      pid ← newPublicKey programId;
      raw ← match data with
            | Some text => if bool_decide (text = "") then Ok [] else bs58_decode text
            | None => Ok []
            end;
      ixKeys ← mapM (λ s, newPublicKey (Some s)) (default [] accounts);
      Ok (Some pid, raw, Some <$> ixKeys)
  end.

Fixpoint walk_inners (vaultProgramId : PublicKey) (cap : nat) (keys : list PublicKey) (inners : list InnerIx)
    (leaves : list bytes) : res (list bytes) :=
  match inners with
  | [] => Ok leaves
  | ixi :: inners =>
      if (cap <=? length leaves)%nat then Ok leaves
      else
        '(pid, raw, ixKeys) ← inner_parts keys ixi;
        leaves ← walkIx vaultProgramId cap raw pid ixKeys leaves;
        walk_inners vaultProgramId cap keys inners leaves
  end.

(** The loop over the top-level instructions from index [ti]. *)
Fixpoint walk_top (vaultProgramId : PublicKey) (cap : nat) (keys : list PublicKey)
    (innerByTop : gmap nat (list InnerIx)) (ti : nat) (top : list CompiledIx) (leaves : list bytes)
    : res (list bytes) :=
  match top with
  | [] => Ok leaves
  | ix :: top =>
      if (cap <=? length leaves)%nat then Ok leaves
      else
        let pid := keys !! ix.(ci_programIdIndex) in
        let ixKeys := (λ kIdx, keys !! kIdx) <$> default [] ix.(ci_accountKeyIndexes) in
        leaves ← walkIx vaultProgramId cap ix.(ci_data) pid ixKeys leaves;
        leaves ← walk_inners vaultProgramId cap keys (default [] (innerByTop !! ti)) leaves;
        walk_top vaultProgramId cap keys innerByTop (S ti) top leaves
  end.

Definition walk_transaction (vaultProgramId : PublicKey) (cap : nat) (tx : VersionedTransactionResponse)
    (leaves : list bytes) : res (list bytes) :=
  if from_option tm_err false tx.(tx_meta) then Ok leaves
  else
    let keys := resolveAccountKeys tx in
    let innerByTop := inner_by_top (default [] (tx.(tx_meta) ≫= tm_innerInstructions)) in
    walk_top vaultProgramId cap keys innerByTop 0 tx.(tx_compiledInstructions) leaves.

Section node.
Context {S : Type} (connection : Connection S) (vaultProgramId : PublicKey).

Definition walkTransactionOrdered (sig : string) (leaves : list bytes) (cap : nat) : M S (list bytes) :=
  tx ← connection.(getTransaction) sig;
  match tx with
  | None => mret leaves
  | Some tx => liftR (walk_transaction vaultProgramId cap tx leaves)
  end.

(** ** Pages of signatures *)

Definition RPC_SIG_PAGE_LIMIT : nat := 1000.

Fixpoint fetch_loop (fuel hardCap : nat) (before : option string) (out : list string) : M S (list string) :=
  match fuel with
  | O => throw EFuel
  | Datatypes.S fuel =>
      if (length out <? hardCap)%nat then
        let remaining := Nat.min RPC_SIG_PAGE_LIMIT (hardCap - length out) in
        page ← connection.(getSignaturesForAddress) vaultProgramId remaining before;
        if (length page =? 0)%nat then mret out
        else
          let out := out ++ page in
          let before := last page in
          if (length page <? remaining)%nat then mret out
          else fetch_loop fuel hardCap before out
      else mret out
  end.

Definition fetchSignaturesPaginated (hardCap : nat) : M S (list string) :=
  fetch_loop (Datatypes.S hardCap) hardCap None [].

(** ** The whole replay *)

Fixpoint collect_loop (targetCount : nat) (chronological : list string) (leaves : list bytes)
    : M S (list bytes) :=
  match chronological with
  | [] => mret leaves
  | signature :: chronological =>
      if (targetCount <=? length leaves)%nat then mret leaves
      else
        leaves ← walkTransactionOrdered signature leaves targetCount;
        collect_loop targetCount chronological leaves
  end.

Definition collectVaultLeavesOrdered (targetCount : nat) (maxSignatures : option nat) : M S (list bytes) :=
  let maxSig := default 10000%nat maxSignatures in
  sigs ← fetchSignaturesPaginated maxSig;
  _ ← guard_throw (length sigs =? 0)%nat
        (Error "no vault program signatures — cannot replay Merkle history");
  let chronological := reverse sigs in
  leaves ← collect_loop targetCount chronological [];
  _ ← guard_throw (negb (length leaves =? targetCount)%nat)
        (Error ("Merkle replay incomplete: parsed " +:+ pretty (length leaves) +:+ " leaves, vault expects "
                +:+ pretty targetCount +:+ ". Scanned " +:+ pretty (length sigs)
                +:+ " vault signatures. Try raising maxSignatures (default 10000) or reset devnet vault."));
  mret leaves.
End node.
End replay.

(** ** The chain behind the node

    [None] is the vault before [initialize].  The instructions of the vault
    program as they ran, less [reset_merkle_tree] (below). *)

Definition vault_handler_names : list string :=
  ["initialize"; "rotate_root_key"; "create_wallet"; "deposit"; "withdraw"; "lock_note"; "release_lock";
   "set_protocol_config"; "reset_merkle_tree"; "tee_forced_settle"].

Section chain.
Context `{NodeCrypto} `{Poseidon} `{Web3} `{Base58}.
Context (verify_spend verify_wallet : Groth16Proof → list bytes → bool).

(** The handlers that leave the tree alone. *)
Inductive other_ran : string → VaultState → VaultState → Prop :=
  | other_rotate k k' st st' : is_32 k' → rotate_root_key k k' st = Ok st' → other_ran "rotate_root_key" st st'
  | other_create_wallet owner slot c pf st st' :
      create_wallet verify_wallet owner slot c pf st = Ok st' → other_ran "create_wallet" st st'
  | other_withdraw mint slot nc nf root a pf st st' :
      withdraw verify_spend mint slot nc nf root a pf st = Ok st' → other_ran "withdraw" st st'
  | other_lock_note tee slot nc oid ex a st st' : lock_note tee slot nc oid ex a st = Ok st' → other_ran "lock_note" st st'
  | other_release_lock slot nc st st' : release_lock slot nc st = Ok st' → other_ran "release_lock" st st'
  | other_set_config k c f st st' : is_32 c → 0 <= f → set_protocol_config k c f st = Ok st' → other_ran "set_protocol_config" st st'.

(** One instruction of the vault program, by its data and account keys. *)
Inductive vault_ran : option VaultState → option VaultState → bytes → list PublicKey → Prop :=
  | ran_initialize st data keys :
      take 8 data = anchorDiscriminator "initialize" → initial st → vault_ran None (Some st) data keys
  | ran_deposit st st' data keys mint a o n b :
      dispatch vault_table data = Some (VDeposit a o n b) → keys !! 2%nat = Some mint →
      deposit (toBytes mint) a o n b st = Ok st' → vault_ran (Some st) (Some st') data keys
  | ran_settle st st' data keys tee slot tx cur p ev :
      dispatch settle_table data = Some p →
      tee_forced_settle tee slot tx cur p st = Ok (ev, st') → vault_ran (Some st) (Some st') data keys
  | ran_other name st st' data keys :
      take 8 data = anchorDiscriminator name → other_ran name st st' → vault_ran (Some st) (Some st') data keys.

(** An instruction as the walk meets it: program, data, account keys. *)
Definition call : Type := option PublicKey * bytes * list (option PublicKey).

Definition top_parts (keys : list PublicKey) (ix : CompiledIx) : call :=
  (keys !! ix.(ci_programIdIndex), ix.(ci_data),
   (λ kIdx, keys !! kIdx) <$> default [] ix.(ci_accountKeyIndexes)).

(** The instructions of a transaction in the order of execution: each top-level
    one, then the ones it invoked. *)
Fixpoint calls_from (keys : list PublicKey) (innerByTop : gmap nat (list InnerIx)) (ti : nat)
    (top : list CompiledIx) : res (list call) :=
  match top with
  | [] => Ok []
  | ix :: top =>
      inners ← mapM (inner_parts keys) (default [] (innerByTop !! ti));
      rest ← calls_from keys innerByTop (S ti) top;
      Ok (top_parts keys ix :: inners ++ rest)
  end.

Definition tx_calls (tx : VersionedTransactionResponse) : res (list call) :=
  calls_from (resolveAccountKeys tx) (inner_by_top (default [] (tx.(tx_meta) ≫= tm_innerInstructions))) 0
    tx.(tx_compiledInstructions).

Context (vault : PublicKey).

Inductive calls_ran : option VaultState → option VaultState → list call → Prop :=
  | calls_nil c : calls_ran c c []
  | calls_elsewhere c c' pid data keys calls notes :
      pid ≠ vault → calls_ran (fund_locks notes <$> c) c' calls → calls_ran c c' ((Some pid, data, keys) :: calls)
  | calls_vault c c1 c' data keys calls :
      vault_ran c c1 data keys → calls_ran c1 c' calls →
      calls_ran c c' ((Some vault, data, Some <$> keys) :: calls).

(** The ledger: the transactions that name the vault, oldest first.  A failed
    one changed nothing.  Other instructions and other transactions may send
    lamports to the addresses of locks. *)
Inductive ledger_ran : option VaultState → option VaultState → list (string * VersionedTransactionResponse) → Prop :=
  | ledger_nil c : ledger_ran c c []
  | ledger_failed c c' sig tx ledger :
      from_option tm_err false tx.(tx_meta) = true → ledger_ran c c' ledger → ledger_ran c c' ((sig, tx) :: ledger)
  | ledger_ok c c1 c' sig tx calls ledger notes :
      from_option tm_err false tx.(tx_meta) = false → tx_calls tx = Ok calls →
      calls_ran (fund_locks notes <$> c) c1 calls → ledger_ran c1 c' ledger → ledger_ran c c' ((sig, tx) :: ledger).
End chain.

(** What follows a signature in the newest-first list. *)
Fixpoint after (s : string) (l : list string) : list string :=
  match l with
  | [] => []
  | x :: l => if decide (x = s) then l else after s l
  end.

Definition older (before : option string) (l : list string) : list string :=
  match before with Some s => after s l | None => l end.

(** A node that serves this ledger: pages of at most 1000 signatures, newest
    first, and every transaction it lists. *)
Record honest_node {S} (conn : Connection S) (vault : PublicKey)
    (ledger : list (string * VersionedTransactionResponse)) : Prop := {
  hn_distinct : NoDup ledger.*1;
  hn_signatures : ∀ limit before w, (limit ≤ RPC_SIG_PAGE_LIMIT)%nat →
    conn.(getSignaturesForAddress) vault limit before w = (Ok (take limit (older before (reverse ledger.*1))), w);
  hn_transactions : ∀ sig tx w, (sig, tx) ∈ ledger → conn.(getTransaction) sig w = (Ok (Some tx), w);
}.

(** ** Lemmas: one instruction *)

Lemma every_eq_refl xs : every_eq xs xs = true.
Proof. induction xs as [|x xs IH]; cbn [every_eq]; [done|]. by rewrite bool_decide_eq_true_2, IH. Qed.

Lemma every_eq_length xs ys : length xs = length ys → every_eq xs ys = bool_decide (xs = ys).
Proof.
  revert ys; induction xs as [|x xs IH]; intros [|y ys] Hl; cbn [every_eq length] in *; try done. rewrite IH by lia.
  apply eq_true_iff_eq. rewrite andb_true_iff, !bool_decide_eq_true. split; [by intros [-> ->]|by intros [= -> ->]].
Qed.

Lemma isZero32_spec b : length b = 32%nat → isZero32 b = bool_decide (b = ZERO_COMMITMENT).
Proof.
  intros Hl. unfold isZero32, ZERO_COMMITMENT. apply eq_true_iff_eq. rewrite bool_decide_eq_true, forallb_forall.
  split.
  - intros Hz. rewrite <-Hl. apply list_eq_same_length with (n := length b); [by rewrite length_replicate|done|].
    intros i x y Hi Hx Hy. apply lookup_replicate in Hy as [-> _]. apply list_elem_of_lookup_2, list_elem_of_In, Hz in Hx.
    by apply bool_decide_eq_true in Hx.
  - intros -> x Hx. apply list_elem_of_In, elem_of_replicate in Hx as [-> _]. done.
Qed.

Lemma push_nonzero_output leaves b : length b = 32%nat → push_nonzero leaves b = leaves ++ output b.
Proof.
  intros Hl. unfold push_nonzero, output. rewrite isZero32_spec by done. by destruct (bool_decide _); [rewrite app_nil_r|].
Qed.

(** What a reader consumed. *)
Lemma p_bind_inv {A B} (p : parser A) (k : A → parser B) bs r :
  (p ≫= k) bs = Some r → ∃ a t, p bs = Some (a, t) ∧ k a t = Some r.
Proof. unfold mbind, parser_bind. destruct (p bs) as [[a t]|]; [|done]. eauto. Qed.

Lemma p_bytes_inv n bs a t : p_bytes n bs = Some (a, t) → bs = a ++ t ∧ length a = n.
Proof.
  unfold p_bytes. case_decide; [|done]. intros [= <- <-]. rewrite take_drop, length_take. split; [done|lia].
Qed.

Lemma p_u64_inv bs v t : p_u64 bs = Some (v, t) → bs = le_bytes 8 v ++ t ∧ 0 <= v < U64.
Proof.
  intros (b & t' & (-> & Hl)%p_bytes_inv & Hk)%p_bind_inv. injection Hk as <- <-.
  rewrite le_bytes_le_val by done. split; [done|]. pose proof (le_val_range b) as Hr. by rewrite Hl in Hr.
Qed.

Lemma parse_all_inv {A} (p : parser A) bs a : parse_all p bs = Some a → p bs = Some (a, []).
Proof. unfold parse_all. destruct (p bs) as [[x [|]]|]; [|done|done]. by intros [= ->]. Qed.

(** Undoes a sequence of readers. *)
Ltac inv_parser :=
  repeat match goal with
  | H : (mbind _ _) _ = Some _ |- _ =>
      let a := fresh "x" in let t := fresh "t" in let Ha := fresh "Hp" in
      apply p_bind_inv in H as (a & t & Ha & H)
  | H : p_bytes _ _ = Some _ |- _ => apply p_bytes_inv in H as (-> & ?)
  | H : p_u64 _ = Some _ |- _ => apply p_u64_inv in H as (-> & ?)
  | H : mret _ _ = Some _ |- _ => injection H; clear H; intros
  end.

(** The Borsh pieces of a payload. *)
Definition payload_pieces (p : MatchResultPayload) : list bytes :=
  [p.(mp_matchId); p.(mp_noteA); p.(mp_noteB); p.(mp_noteC); p.(mp_noteD); p.(mp_noteE); p.(mp_noteF);
   p.(mp_nullifierA); p.(mp_nullifierB); p.(mp_orderIdA); p.(mp_orderIdB);
   le_bytes 8 p.(mp_baseAmount); le_bytes 8 p.(mp_quoteAmount); le_bytes 8 p.(mp_buyerChangeAmt);
   le_bytes 8 p.(mp_sellerChangeAmt); le_bytes 8 p.(mp_buyerFeeAmt); le_bytes 8 p.(mp_sellerFeeAmt);
   p.(mp_noteFee); p.(mp_buyerRelockOrderId); le_bytes 8 p.(mp_buyerRelockExpiry);
   p.(mp_sellerRelockOrderId); le_bytes 8 p.(mp_sellerRelockExpiry); le_bytes 8 p.(mp_clearingPrice);
   le_bytes 8 p.(mp_batchSlot)].

Definition payload_lens : list nat :=
  [16; 32; 32; 32; 32; 32; 32; 32; 32; 16; 16; 8; 8; 8; 8; 8; 8; 32; 16; 8; 16; 8; 8; 8]%nat.

Lemma payload_parsed bs p :
  p_payload bs = Some (p, []) → bs = concat (payload_pieces p) ∧ payload_sized p.
Proof.
  unfold p_payload. intros Hp. inv_parser. subst. split.
  - cbn [payload_pieces concat mp_matchId mp_noteA mp_noteB mp_noteC mp_noteD mp_noteE mp_noteF mp_nullifierA
      mp_nullifierB mp_orderIdA mp_orderIdB mp_baseAmount mp_quoteAmount mp_buyerChangeAmt mp_sellerChangeAmt
      mp_buyerFeeAmt mp_sellerFeeAmt mp_noteFee mp_buyerRelockOrderId mp_buyerRelockExpiry mp_sellerRelockOrderId
      mp_sellerRelockExpiry mp_clearingPrice mp_batchSlot]. reflexivity.
  - split; repeat constructor; assumption.
Qed.

Lemma payload_pieces_lengths p : payload_sized p → length <$> payload_pieces p = payload_lens.
Proof.
  intros [H32 H16]. decompose_Forall_hyps. unfold is_32, is_16 in *.
  unfold payload_pieces. cbn [fmap list_fmap]. unfold payload_lens. repeat f_equal; done.
Qed.

Lemma pushSettleLeaves_spec leaves p :
  payload_sized p → pushSettleLeaves leaves (concat (payload_pieces p)) = Ok (leaves ++ settle_outputs p).
Proof.
  intros Hs. pose proof (payload_pieces_lengths p Hs) as HL.
  destruct (payload_notes_32 p Hs) as (HC & HD & HE & HF & HX). unfold pushSettleLeaves.
  rewrite (pieces_length _ _ HL). change (sum_list payload_lens <? 448)%nat with false. cbn [throw_if mbind res_bind].
  rewrite (pieces_slice _ _ 3 p.(mp_noteC) 80 32 HL), (pieces_slice _ _ 4 p.(mp_noteD) 112 32 HL),
    (pieces_slice _ _ 5 p.(mp_noteE) 144 32 HL), (pieces_slice _ _ 6 p.(mp_noteF) 176 32 HL),
    (pieces_slice _ _ 17 p.(mp_noteFee) 352 32 HL) by reflexivity.
  rewrite !push_nonzero_output by done. unfold settle_outputs. by rewrite <-!(assoc_L (++)).
Qed.

Section process.
Context `{NodeCrypto} `{!NodeCryptoLaws} `{Poseidon} `{!PoseidonLaws} `{Web3} `{Base58}.

(** The first matching entry of the dispatch is the one that parsed. *)
Lemma dispatch_inv {A} (table : list (string * parser A)) data a :
  dispatch table data = Some a →
  ∃ name p, (name, p) ∈ table ∧ take 8 data = anchorDiscriminator name ∧ parse_all p (drop 8 data) = Some a.
Proof.
  induction table as [|[n p] table IH]; [done|]. cbn [dispatch]. case_decide as Hd.
  - intros Hp. exists n, p. split; [apply elem_of_cons; by left|done].
  - intros (name & q & Hin & ?)%IH. exists name, q. split; [apply elem_of_cons; by right|done].
Qed.

Lemma deposit_dispatched data a o n b :
  dispatch vault_table data = Some (VDeposit a o n b) →
  data = concat [DEPOSIT_DISC; le_bytes 8 a; o; n; b] ∧ 0 <= a < U64 ∧
  length o = 32%nat ∧ length n = 32%nat ∧ length b = 32%nat.
Proof.
  intros (name & p & Hin & Hd & Hp)%dispatch_inv. apply parse_all_inv in Hp. unfold vault_table, p_proof in Hin.
  repeat (apply elem_of_cons in Hin as [[= -> ->]|Hin]; [try (by inv_parser)|]); [|by apply not_elem_of_nil in Hin].
  rewrite <-(take_drop 8 data), Hd. inv_parser. subst.
  split; [|split; [assumption|by split_and!]]. cbn [concat]. reflexivity.
Qed.

Lemma length_disc name : length (anchorDiscriminator name) = 8%nat.
Proof. apply length_anchorDiscriminator. Qed.

(** A discriminator at the head of the data, as the replay tests it. *)
Lemma disc_test data name name' :
  take 8 data = anchorDiscriminator name' →
  (8 <=? length data)%nat && every_eq (slice data 0 8) (anchorDiscriminator name) =
  bool_decide (anchorDiscriminator name' = anchorDiscriminator name).
Proof.
  intros Hd. assert (Hl : (8 ≤ length data)%nat).
  { pose proof (f_equal length Hd) as E. rewrite length_disc, length_take in E. lia. }
  rewrite (proj2 (Nat.leb_le _ _) Hl), slice_0, Hd. cbn [andb]. apply every_eq_length. by rewrite !length_disc.
Qed.

Lemma fr_from_be_bytes_inv bs x : fr_from_be_bytes bs = Ok x → length bs = 32%nat ∧ x = be_val bs ∧ 0 <= x < BN254_R.
Proof.
  unfold fr_from_be_bytes. intros Hf. inv_res. subst x.
  match goal with E : negb _ = false |- _ => apply negb_false_iff, Nat.eqb_eq in E end.
  match goal with E : (_ <=? _) = false |- _ => apply Z.leb_gt in E end.
  split_and!; try done. apply be_val_range.
Qed.

Lemma bytesToBigInt_32 b : length b = 32%nat → bytesToBigInt b = Ok (be_val b).
Proof. intros Hl. unfold bytesToBigInt. rewrite decide_False; [done|]. by intros ->. Qed.

(** The client's commitment of the parsed fields is the one the handler computes. *)
Lemma parsed_commitment mint a o n b c :
  commitment_from_fields (toBytes mint) a o n b = Ok c →
  noteCommitment {| tokenMint := toBytes mint; amount := a; ownerCommitment_ := be_val o; nonce := be_val n;
                    blindingR := be_val b |} = Ok c.
Proof.
  intros Hc. pose proof Hc as Hf. unfold commitment_from_fields in Hf.
  destruct (pubkey_to_fr_pair (toBytes mint)). inv_res.
  repeat match goal with E : fr_from_be_bytes _ = Ok _ |- _ => apply fr_from_be_bytes_inv in E as (? & -> & ?) end.
  rewrite commitment_matches by first [apply length_toBytes|assumption].
  cbn [tokenMint amount ownerCommitment_ nonce Note.blindingR]. by rewrite !be_bytes_be_val.
Qed.

(** The replayed leaf of a deposit is the commitment the handler computes. *)
Lemma process_deposit leaves data keys mint a o n b c :
  dispatch vault_table data = Some (VDeposit a o n b) → keys !! 2%nat = Some mint →
  commitment_from_fields (toBytes mint) a o n b = Ok c →
  processIxDataAsync leaves data (Some <$> keys) = Ok (leaves ++ [c]).
Proof.
  intros (Hdata & Ha & Ho & Hn & Hb)%deposit_dispatched Hk Hc.
  assert (HL : length <$> [DEPOSIT_DISC; le_bytes 8 a; o; n; b] = [8; 8; 32; 32; 32]%nat).
  { cbn [fmap list_fmap]. unfold DEPOSIT_DISC. rewrite length_disc, length_le_bytes. congruence. }
  pose proof (pieces_length _ _ HL) as Hlen. rewrite <-Hdata in Hlen. change (length data = 112%nat) in Hlen.
  assert (Hd : slice data 0 8 = DEPOSIT_DISC) by (rewrite Hdata; exact (pieces_slice _ _ 0 _ 0 8 HL eq_refl eq_refl eq_refl)).
  unfold processIxDataAsync. rewrite Hd, every_eq_refl, Hlen. cbn [Nat.leb andb].
  unfold pushDepositLeafAsync. rewrite Hlen, Hd, every_eq_refl. cbn [Nat.ltb Nat.leb Nat.add negb].
  rewrite Hdata, (readU64_pieces _ _ 1 a 8 HL), (pieces_slice _ _ 2 o 16 32 HL), (pieces_slice _ _ 3 n 48 32 HL),
    (pieces_slice _ _ 4 b 80 32 HL) by done. cbn [mbind res_bind].
  assert (Hk2 : (length (Some <$> keys) <=? DEPOSIT_TOKEN_MINT_IX_INDEX)%nat = false).
  { apply Nat.leb_gt. rewrite length_fmap. by apply lookup_lt_Some in Hk. }
  assert (He : elem (Some <$> keys) DEPOSIT_TOKEN_MINT_IX_INDEX = Ok (Some mint)).
  { unfold elem, DEPOSIT_TOKEN_MINT_IX_INDEX. by rewrite list_lookup_fmap, Hk. }
  rewrite Hk2, He. cbn [mbind res_bind].
  rewrite !bytesToBigInt_32 by done. cbn [mbind res_bind].
  eapply bind_Ok_eq; [exact (parsed_commitment _ _ _ _ _ _ Hc)|reflexivity].
Qed.

Lemma settle_dispatched data p :
  dispatch settle_table data = Some p →
  take 8 data = SETTLE_DISC ∧ drop 8 data = concat (payload_pieces p) ∧ payload_sized p.
Proof.
  intros (name & q & Hin & Hd & Hp)%dispatch_inv. apply list_elem_of_singleton in Hin as [= -> ->].
  apply parse_all_inv, payload_parsed in Hp as [? ?]. done.
Qed.

Lemma vault_names_differ n1 n2 :
  distinct_discriminators vault_handler_names → n1 ∈ vault_handler_names → n2 ∈ vault_handler_names → n1 ≠ n2 →
  anchorDiscriminator n1 ≠ anchorDiscriminator n2.
Proof.
  unfold distinct_discriminators. intros Hd [i Hi]%list_elem_of_lookup [j Hj]%list_elem_of_lookup Hne E.
  apply Hne. assert (i = j); [|congruence]. eapply NoDup_lookup; [exact Hd| |].
  - rewrite list_lookup_fmap, Hi. reflexivity.
  - rewrite list_lookup_fmap, Hj. cbn. by rewrite E.
Qed.

Lemma process_settle leaves data keys p :
  distinct_discriminators vault_handler_names → dispatch settle_table data = Some p →
  processIxDataAsync leaves data keys = Ok (leaves ++ settle_outputs p).
Proof.
  intros Hdist (Hd & Hp & Hs)%settle_dispatched. unfold processIxDataAsync, DEPOSIT_DISC, SETTLE_DISC.
  rewrite !(disc_test _ _ _ Hd), bool_decide_eq_false_2, bool_decide_eq_true_2 by
    first [done|apply vault_names_differ; first [done|set_solver]].
  rewrite Hp. by apply pushSettleLeaves_spec.
Qed.

(** Every other instruction adds nothing. *)
Lemma process_other leaves data keys name :
  distinct_discriminators vault_handler_names → name ∈ vault_handler_names →
  name ≠ "deposit" → name ≠ "tee_forced_settle" → take 8 data = anchorDiscriminator name →
  processIxDataAsync leaves data keys = Ok leaves.
Proof.
  intros Hdist Hin Hn1 Hn2 Hd. unfold processIxDataAsync, DEPOSIT_DISC, SETTLE_DISC.
  by rewrite !(disc_test _ _ _ Hd), !bool_decide_eq_false_2 by (apply vault_names_differ; first [done|set_solver]).
Qed.
End process.

(** ** Lemmas: the walk *)

(** The leaves of the vault: none before it exists. *)
Definition holds `{Poseidon} (c : option VaultState) (l : list bytes) : Prop :=
  match c with Some st => vault_repr st.(vs_config) l | None => l = [] end.

(** A call of which the walk makes the leaves [new], as long as they fit. *)
Definition emits `{NodeCrypto} `{Poseidon} (vault : PublicKey) (c : call) (new : list bytes) : Prop :=
  ∀ cap leaves, (length leaves + length new ≤ cap)%nat →
    walkIx vault cap c.1.2 c.1.1 c.2 leaves = Ok (leaves ++ new).

Lemma holds_funded `{Poseidon} notes c l : holds c l → holds (fund_locks notes <$> c) l.
Proof. destruct c; [|done]. cbn [fmap option_fmap option_map holds]. by rewrite fund_locks_config. Qed.

Section walk.
Context `{NodeCrypto} `{!NodeCryptoLaws} `{Poseidon} `{!PoseidonLaws} `{Web3} `{Base58}.
Context (verify_spend verify_wallet : Groth16Proof → list bytes → bool) (vault : PublicKey).
Hypothesis Hdist : distinct_discriminators vault_handler_names.

Lemma other_keeps name st st' l :
  other_ran verify_spend verify_wallet name st st' → vault_repr st.(vs_config) l → vault_repr st'.(vs_config) l.
Proof.
  destruct 1 as [? ? ? ? _ Hs|? ? ? ? ? ? Hs|? ? ? ? ? ? ? ? ? Hs|? ? ? ? ? ? ? ? Hs|? ? ? ? Hs|? ? ? ? ? _ _ Hs];
    intros Hv; unfold rotate_root_key, create_wallet, withdraw, lock_note, release_lock, set_protocol_config in Hs;
    inv_res; subst; cbn [vs_config with_config with_locks]; first [exact Hv | by apply (set_keys_repr (vs_config st))].
Qed.

Lemma other_name name st st' :
  other_ran verify_spend verify_wallet name st st' →
  name ∈ vault_handler_names ∧ name ≠ "deposit" ∧ name ≠ "tee_forced_settle".
Proof. destruct 1; (split; [set_solver|done]). Qed.

(** An instruction that ran: what it added to the tree is what its data replays to. *)
Lemma vault_ran_replays c c' data keys l :
  vault_ran verify_spend verify_wallet c c' data keys → holds c l →
  ∃ new, holds c' (l ++ new) ∧ ∀ leaves, processIxDataAsync leaves data (Some <$> keys) = Ok (leaves ++ new).
Proof.
  destruct 1 as [st data keys Hd (a & t & r & _ & _ & _ & Hi & _)|st st' data keys mint a o n b Hd Hk Hs
    |st st' data keys tee slot tx cur p ev Hd Hs|name st st' data keys Hd Ho]; cbn [holds]; intros Hv.
  - subst l. destruct (initialize_repr a t r) as (cfg & Hi' & Hcfg & _). rewrite Hi' in Hi. apply Ok_inj in Hi as <-.
    exists []. split; [exact Hcfg|]. intros leaves. rewrite app_nil_r.
    eapply process_other; [done| | | |exact Hd]; [set_solver|done|done].
  - unfold deposit in Hs. apply res_bind_Ok in Hs as ([ev cfg'] & Hdep & Hs). apply Ok_inj in Hs as <-.
    destruct (deposit_handler_inv _ _ _ _ _ _ _ _ _ Hv Hdep) as (_ & Hc & Hv' & _).
    exists [ev.(nc_commitment)]. split; [exact Hv'|]. intros leaves. by eapply process_deposit.
  - destruct (settle_dispatched _ _ Hd) as (_ & _ & Hsz).
    destruct (settle_inv _ _ _ _ _ _ _ _ _ Hsz Hv Hs) as (Hset & _). destruct (sd_tree _ _ _ _ _ _ _ Hset) as (Hv' & _).
    exists (settle_outputs p). split; [exact Hv'|]. intros leaves. by apply process_settle.
  - destruct (other_name _ _ _ Ho) as (Hin & Hn1 & Hn2). exists []. rewrite app_nil_r.
    split; [by eapply other_keeps|]. intros leaves. rewrite app_nil_r. by eapply process_other.
Qed.

Lemma emits_vault data keys new :
  (∀ leaves, processIxDataAsync leaves data keys = Ok (leaves ++ new)) → emits vault (Some vault, data, keys) new.
Proof.
  intros Hp cap leaves Hle. unfold walkIx. cbn [fst snd]. destruct (Nat.leb_spec cap (length leaves)).
  - destruct new; [by rewrite app_nil_r|]. cbn [length] in Hle. lia.
  - by rewrite bool_decide_eq_true_2.
Qed.

Lemma emits_elsewhere pid data keys : pid ≠ vault → emits vault (Some pid, data, keys) [].
Proof.
  intros Hne cap leaves _. unfold walkIx. cbn [fst snd]. rewrite app_nil_r. case_match; [done|].
  by rewrite bool_decide_eq_false_2.
Qed.

Lemma calls_replay c c' calls l :
  calls_ran verify_spend verify_wallet vault c c' calls → holds c l →
  ∃ news, Forall2 (emits vault) calls news ∧ holds c' (l ++ concat news).
Proof.
  intros Hr. revert l. induction Hr as [c|c c' pid data keys calls notes Hne Hr IH|c c1 c' data keys calls Hran Hr IH]; intros l Hl.
  - exists []. rewrite app_nil_r. split; [constructor|done].
  - destruct (IH _ (holds_funded notes _ _ Hl)) as (news & Hn & Hh). exists ([] :: news). split; [|done].
    constructor; [by apply emits_elsewhere|done].
  - destruct (vault_ran_replays _ _ _ _ _ Hran Hl) as (new & Hl1 & Hp).
    destruct (IH _ Hl1) as (news & Hn & Hh). exists (new :: news).
    split; [constructor; [by apply emits_vault|done]|]. cbn [concat]. by rewrite (assoc_L (++)).
Qed.

Lemma full_nothing_left {A} (leaves new : list A) cap :
  (cap ≤ length leaves)%nat → (length leaves + length new ≤ cap)%nat → new = [].
Proof. intros. destruct new; [done|]. cbn [length] in *. lia. Qed.

Lemma walk_inners_emits keys inners calls news cap leaves :
  mapM (inner_parts keys) inners = Ok calls → Forall2 (emits vault) calls news →
  (length leaves + length (concat news) ≤ cap)%nat →
  walk_inners vault cap keys inners leaves = Ok (leaves ++ concat news).
Proof.
  intros Hm. revert calls Hm news leaves. induction inners as [|ixi inners IH]; intros calls Hm news leaves Hn Hle.
  - injection Hm as <-. apply Forall2_nil_inv_l in Hn as ->. by rewrite app_nil_r.
  - cbn [walk_inners]. destruct (Nat.leb_spec cap (length leaves)) as [Hc|Hc].
    { by rewrite (full_nothing_left _ _ _ Hc Hle), app_nil_r. }
    cbn [mapM] in Hm. apply res_bind_Ok in Hm as ([[pid raw] ks] & Hi & Hm). apply res_bind_Ok in Hm as (rest & Hm & E).
    injection E as <-. apply Forall2_cons_inv_l in Hn as (new & news' & He & Hn & ->). cbn [concat] in Hle |- *.
    rewrite length_app in Hle. rewrite Hi. cbn [mbind res_bind]. eapply bind_Ok_eq.
    { apply (He cap leaves). lia. }
    rewrite (IH _ Hm news') by (try done; rewrite length_app; lia). by rewrite (assoc_L (++)).
Qed.

Lemma walk_top_emits keys inner top ti calls news cap leaves :
  calls_from keys inner ti top = Ok calls → Forall2 (emits vault) calls news →
  (length leaves + length (concat news) ≤ cap)%nat →
  walk_top vault cap keys inner ti top leaves = Ok (leaves ++ concat news).
Proof.
  revert ti calls news leaves. induction top as [|ix top IH]; intros ti calls news leaves Hf Hn Hle.
  - injection Hf as <-. apply Forall2_nil_inv_l in Hn as ->. by rewrite app_nil_r.
  - cbn [walk_top]. destruct (Nat.leb_spec cap (length leaves)) as [Hc|Hc].
    { by rewrite (full_nothing_left _ _ _ Hc Hle), app_nil_r. }
    cbn [calls_from] in Hf. apply res_bind_Ok in Hf as (ins & Hi & Hf). apply res_bind_Ok in Hf as (rest & Hf & E).
    injection E as <-. apply Forall2_cons_inv_l in Hn as (new & news' & He & Hn & ->).
    apply Forall2_app_inv_l in Hn as (news1 & news2 & Hn1 & Hn2 & ->). cbn [concat] in Hle |- *.
    rewrite concat_app, !length_app in Hle. eapply bind_Ok_eq; [apply (He cap leaves); lia|].
    eapply bind_Ok_eq; [apply (walk_inners_emits _ _ _ news1 cap _ Hi Hn1); rewrite length_app; lia|].
    rewrite (IH _ _ news2 _ Hf Hn2) by (rewrite !length_app; lia). by rewrite concat_app, !(assoc_L (++)).
Qed.
End walk.

(** ** Lemmas: pages *)

Lemma after_lookup l i x : NoDup l → l !! i = Some x → after x l = drop (S i) l.
Proof.
  revert i; induction l as [|y l IH]; intros i Hd Hi; [done|]. apply NoDup_cons in Hd as [Hy Hd]. cbn [after].
  destruct i as [|i]; cbn in Hi.
  - injection Hi as ->. by rewrite decide_True.
  - rewrite decide_False; [by apply IH|]. intros ->. apply Hy. by eapply list_elem_of_lookup_2.
Qed.

Lemma older_last l k : NoDup l → (k ≤ length l)%nat → older (last (take k l)) l = drop k l.
Proof.
  intros Hd Hk. destruct k as [|k]; [done|]. rewrite last_lookup, length_take.
  replace (Nat.pred (Nat.min (S k) (length l))) with k by lia. rewrite lookup_take_lt by lia.
  destruct (l !! k) as [x|] eqn:Hx; [by apply after_lookup|]. apply lookup_ge_None in Hx. lia.
Qed.

Section pages.
Context {S : Type} (connection : Connection S) (vault : PublicKey).

(** The loop needs no more fuel than signatures are still wanted: a page that is
    not empty brings at least one. *)
Lemma fetch_loop_fuel fuel hardCap before out w w' :
  (∀ limit b w r w', connection.(getSignaturesForAddress) vault limit b w = (Throw r, w') → r ≠ EFuel) →
  (hardCap - length out < fuel)%nat → fetch_loop connection vault fuel hardCap before out w ≠ (Throw EFuel, w').
Proof.
  intros Hc. revert before out w. induction fuel as [|fuel IH]; intros before out w Hf; [lia|].
  cbn [fetch_loop]. destruct (Nat.ltb_spec (length out) hardCap) as [Hlt|Hge]; [|done].
  intros Hrun. inv_M Hrun.
  - injection Hrun as <-. by apply Hc in Hm.
  - destruct (Nat.eqb_spec (length a) 0); [done|]. destruct (_ <? _)%nat; [done|].
    revert Hrun. apply IH. rewrite length_app. lia.
Qed.

Lemma fetch_loop_honest all :
  NoDup all →
  (∀ limit before w, (limit ≤ RPC_SIG_PAGE_LIMIT)%nat →
    connection.(getSignaturesForAddress) vault limit before w = (Ok (take limit (older before all)), w)) →
  ∀ fuel hardCap k w, (k ≤ length all)%nat → (k ≤ hardCap)%nat → (hardCap - k < fuel)%nat →
  fetch_loop connection vault fuel hardCap (last (take k all)) (take k all) w = (Ok (take hardCap all), w).
Proof.
  intros Hd Hrpc fuel. induction fuel as [|fuel IH]; intros hardCap k w Hk Hcap Hf; [lia|].
  cbn [fetch_loop]. rewrite length_take, (Nat.min_l _ _ Hk). destruct (Nat.ltb_spec k hardCap) as [Hlt|Hge].
  2:{ by replace hardCap with k by lia. }
  set (r := Nat.min RPC_SIG_PAGE_LIMIT (hardCap - k)).
  assert (Hr : (0 < r ≤ hardCap - k)%nat) by (unfold r, RPC_SIG_PAGE_LIMIT; lia).
  erewrite M_bind_run by (apply Hrpc; apply Nat.le_min_l). rewrite older_last by done.
  rewrite length_take, length_drop, take_take_drop. destruct (Nat.eqb_spec (Nat.min r (length all - k)) 0) as [E|E].
  { rewrite !take_ge by lia. done. }
  destruct (Nat.ltb_spec (Nat.min r (length all - k)) r) as [Hs|Hs].
  { rewrite !take_ge by lia. done. }
  assert (Hlast : last (take r (drop k all)) = last (take (k + r) all)).
  { rewrite <-take_take_drop, last_app. destruct (last (take r (drop k all))) eqn:El; [done|].
    apply last_None in El. apply (f_equal length) in El. rewrite length_take, length_drop in El. cbn [length] in El. lia. }
  rewrite Hlast. apply IH; lia.
Qed.
End pages.

Section ledger.
Context `{NodeCrypto} `{!NodeCryptoLaws} `{Poseidon} `{!PoseidonLaws} `{Web3} `{Base58}.
Context (verify_spend verify_wallet : Groth16Proof → list bytes → bool) (vault : PublicKey).
Hypothesis Hdist : distinct_discriminators vault_handler_names.

(** One transaction of the replay. *)
Lemma collect_tx {S} (conn : Connection S) cap sig tx calls news rest leaves w :
  from_option tm_err false tx.(tx_meta) = false → tx_calls tx = Ok calls → Forall2 (emits vault) calls news →
  conn.(getTransaction) sig w = (Ok (Some tx), w) → (length leaves + length (concat news) ≤ cap)%nat →
  collect_loop conn vault cap (sig :: rest) leaves w = collect_loop conn vault cap rest (leaves ++ concat news) w.
Proof.
  intros Herr Hcalls Hn Htx Hle. cbn [collect_loop]. destruct (Nat.leb_spec cap (length leaves)) as [Hfull|_].
  { rewrite (full_nothing_left leaves _ cap Hfull Hle), app_nil_r. destruct rest; [done|]. cbn [collect_loop].
    by rewrite (proj2 (Nat.leb_le _ _) Hfull). }
  unfold walkTransactionOrdered. erewrite M_bind_run; [reflexivity|]. erewrite M_bind_run by exact Htx.
  unfold liftR, walk_transaction. rewrite Herr. by rewrite (walk_top_emits vault _ _ _ _ _ news cap leaves Hcalls Hn Hle).
Qed.

(** The replay of a ledger adds what the ledger added to the tree. *)
Lemma ledger_replay {S} (conn : Connection S) c c' ledger l :
  ledger_ran verify_spend verify_wallet vault c c' ledger →
  (∀ sig tx w, (sig, tx) ∈ ledger → conn.(getTransaction) sig w = (Ok (Some tx), w)) → holds c l →
  ∃ new, holds c' (l ++ new) ∧ ∀ cap leaves w, (length leaves + length new ≤ cap)%nat →
    collect_loop conn vault cap ledger.*1 leaves w = (Ok (leaves ++ new), w).
Proof.
  intros Hr. revert l. induction Hr as [c|c c' sig tx ledger Herr Hr IH|c c1 c' sig tx calls ledger notes Herr Hcalls Hran Hr IH];
    intros l Hrpc Hl.
  - exists []. rewrite app_nil_r. split; [done|]. intros cap leaves w _. by rewrite app_nil_r.
  - destruct (IH l) as (new & Hh & Hc); [by intros; apply Hrpc, elem_of_cons; right|done|].
    exists new. split; [done|]. intros cap leaves w Hle. cbn [fmap list_fmap fst collect_loop].
    destruct (Nat.leb_spec cap (length leaves)) as [Hfull|_].
    { by rewrite (full_nothing_left _ _ _ Hfull Hle), app_nil_r. }
    unfold walkTransactionOrdered. rewrite <-(Hc cap leaves w Hle). erewrite M_bind_run; [reflexivity|].
    erewrite M_bind_run by (apply Hrpc, elem_of_cons; by left). unfold walk_transaction. by rewrite Herr.
  - destruct (calls_replay _ _ _ Hdist _ _ _ _ Hran (holds_funded notes _ _ Hl)) as (news & Hn & Hh).
    destruct (IH (l ++ concat news)) as (new & Hh' & Hc); [by intros; apply Hrpc, elem_of_cons; right|done|].
    exists (concat news ++ new). split; [by rewrite (assoc_L (++))|]. intros cap leaves w Hle.
    rewrite length_app in Hle. cbn [fmap list_fmap fst].
    rewrite (collect_tx conn cap sig tx calls news) by (done || lia || (apply Hrpc, elem_of_cons; by left)).
    rewrite Hc by (rewrite length_app; lia). by rewrite (assoc_L (++)).
Qed.
End ledger.

Lemma collect_full `{NodeCrypto} `{Poseidon} `{Base58} {S} (conn : Connection S) vault cap sigs leaves w :
  (cap ≤ length leaves)%nat → collect_loop conn vault cap sigs leaves w = (Ok leaves, w).
Proof. intros Hc. destruct sigs as [|x s]; [done|]. cbn [collect_loop]. by rewrite (proj2 (Nat.leb_le _ _) Hc). Qed.

Lemma collect_join `{NodeCrypto} `{Poseidon} `{Base58} {S} (conn : Connection S) vault cap s1 s2 leaves mid w w1 r :
  collect_loop conn vault cap s1 leaves w = (Ok mid, w1) → collect_loop conn vault cap s2 mid w1 = r →
  collect_loop conn vault cap (s1 ++ s2) leaves w = r.
Proof.
  revert leaves w. induction s1 as [|x s IH]; intros leaves w E1 E2.
  - by injection E1 as <- <-.
  - cbn [app collect_loop] in E1 |- *. destruct (Nat.leb_spec cap (length leaves)) as [Hc|Hc].
    + injection E1 as <- <-. rewrite <-E2. symmetry. by apply collect_full.
    + apply M_bind_Ok in E1 as (m & w2 & Hw & E1). erewrite M_bind_run by exact Hw. by apply IH.
Qed.

(** The run of the whole replay, once the pages are in. *)
Lemma collect_honest `{NodeCrypto} `{Poseidon} `{Base58} {S} (conn : Connection S) vault ledger maxSignatures n (w : S) l :
  honest_node conn vault ledger → (length ledger ≤ default 10000%nat maxSignatures)%nat → ledger ≠ [] →
  collect_loop conn vault n ledger.*1 [] w = (Ok l, w) → length l = n →
  collectVaultLeavesOrdered conn vault n maxSignatures w = (Ok l, w).
Proof.
  intros Hnode Hmax Hne Hc Hl. unfold collectVaultLeavesOrdered, fetchSignaturesPaginated. erewrite M_bind_run; cycle 1.
  { apply (fetch_loop_honest conn vault (reverse ledger.*1)) with (k := 0%nat); try lia;
      [rewrite reverse_Permutation; apply Hnode|intros; by apply Hnode]. }
  rewrite take_ge by (rewrite length_reverse, length_fmap; done).
  assert (E : (length (reverse ledger.*1) =? 0)%nat = false).
  { apply Nat.eqb_neq. rewrite length_reverse, length_fmap. by destruct ledger. }
  rewrite E, reverse_involutive. erewrite M_bind_run by reflexivity. erewrite M_bind_run by exact Hc.
  by rewrite Hl, Nat.eqb_refl.
Qed.

(** ** A settlement in the history *)

(** The transaction succeeded, and its only call of the vault is the settlement
    with these data. *)
Record settled_in `{Base58} (vault : PublicKey) (data : bytes) (tx : VersionedTransactionResponse) : Prop := {
  si_ok : from_option tm_err false tx.(tx_meta) = false;
  si_calls : ∃ others keys, tx_calls tx = Ok (others ++ [(Some vault, data, Some <$> keys)]) ∧
    Forall (λ c : call, ∃ pid, c.1.1 = Some pid ∧ pid ≠ vault) others;
}.

Section settled.
Context `{NodeCrypto} `{!NodeCryptoLaws} `{Poseidon} `{!PoseidonLaws} `{Web3} `{Base58}.
Context (verify_spend verify_wallet : Groth16Proof → list bytes → bool) (vault : PublicKey).
Hypothesis Hdist : distinct_discriminators vault_handler_names.

Lemma emits_inj c n1 n2 : emits vault c n1 → emits vault c n2 → n1 = n2.
Proof.
  intros E1 E2. specialize (E1 (length n1 + length n2)%nat []). specialize (E2 (length n1 + length n2)%nat []).
  cbn [length app] in E1, E2. rewrite E1 in E2 by lia. injection (E2 ltac:(lia)). done.
Qed.

Lemma emits_all_inj calls ns1 ns2 : Forall2 (emits vault) calls ns1 → Forall2 (emits vault) calls ns2 → ns1 = ns2.
Proof.
  intros E1. revert ns2. induction E1 as [|c n calls ns Hn _ IH]; intros ns2 E2.
  - by apply Forall2_nil_inv_l in E2 as ->.
  - apply Forall2_cons_inv_l in E2 as (n2 & ns2' & Hn2 & E2 & ->). f_equal; [by eapply emits_inj|by apply IH].
Qed.

Lemma emits_others others : Forall (λ c : call, ∃ pid, c.1.1 = Some pid ∧ pid ≠ vault) others →
  Forall2 (emits vault) others (replicate (length others) []).
Proof.
  induction 1 as [|[[pid data] keys] others (p & Hp & Hne) _ IH]; cbn [replicate length]; constructor; [|exact IH].
  cbn in Hp. subst pid. by apply emits_elsewhere.
Qed.

Lemma concat_nils {A} n : concat (replicate n ([] : list A)) = [].
Proof. by induction n. Qed.

Lemma settlement_kept {S} (conn : Connection S) st1 st2 ledger1 sig tx ledger2 data p maxSignatures w :
  ledger_ran verify_spend verify_wallet vault None (Some st1) ledger1 → settled_in vault data tx →
  dispatch settle_table data = Some p →
  ledger_ran verify_spend verify_wallet vault (Some st1) (Some st2) ((sig, tx) :: ledger2) →
  honest_node conn vault (ledger1 ++ (sig, tx) :: ledger2) →
  (length (ledger1 ++ (sig, tx) :: ledger2) ≤ default 10000%nat maxSignatures)%nat →
  ∃ l1 rest, vault_repr st1.(vs_config) l1 ∧ vault_repr st2.(vs_config) (l1 ++ settle_outputs p ++ rest) ∧
    collectVaultLeavesOrdered conn vault (length (l1 ++ settle_outputs p ++ rest)) maxSignatures w
    = (Ok (l1 ++ settle_outputs p ++ rest), w).
Proof.
  intros Hran1 [Herr (others & keys & Hcalls & Hoth)] Hdata Hran2 Hnode Hmax.
  assert (Hrpc : ∀ s t w, (s, t) ∈ ledger1 ++ (sig, tx) :: ledger2 → conn.(getTransaction) s w = (Ok (Some t), w))
    by (intros; by eapply hn_transactions).
  destruct (ledger_replay _ _ _ Hdist conn _ _ _ [] Hran1) as (l1 & Hl1 & Hc1);
    [intros; apply Hrpc, elem_of_app; by left|done|].
  inversion Hran2 as [|? ? ? ? ? Herr' _|? c1 ? ? ? calls ? notes _ Hcalls' Hcr Hran3]; subst; [congruence|].
  assert (calls = others ++ [(Some vault, data, Some <$> keys)]) as -> by congruence.
  destruct (calls_replay _ _ _ Hdist _ _ _ _ Hcr (holds_funded notes (Some st1) _ Hl1)) as (news & Hn & Hh).
  assert (Hnews : news = replicate (length others) [] ++ [settle_outputs p]).
  { eapply emits_all_inj; [exact Hn|]. apply Forall2_app; [by apply emits_others|]. constructor; [|constructor].
    apply emits_vault. intros leaves. by apply process_settle. }
  assert (Hcat : concat news = settle_outputs p) by (by rewrite Hnews, concat_app, concat_nils, <-app_nil_r).
  rewrite Hcat in Hh. destruct (ledger_replay _ _ _ Hdist conn _ _ _ _ Hran3 ltac:(intros; apply Hrpc, elem_of_app; right; apply elem_of_cons; by right) Hh)
    as (rest & Hh2 & Hc2).
  exists l1, rest. split; [exact Hl1|]. rewrite (assoc_L (++)). split; [exact Hh2|].
  eapply collect_honest; [exact Hnode|exact Hmax|by destruct ledger1| |reflexivity].
  set (cap := length _). rewrite fmap_app. eapply collect_join.
  - apply (Hc1 cap [] w). unfold cap. rewrite !length_app. cbn [length]. lia.
  - cbn [app fmap list_fmap fst]. rewrite (collect_tx _ conn cap sig tx _ news) by
      (done || (apply Hrpc, elem_of_app; right; apply elem_of_cons; by left) || (rewrite Hcat; unfold cap; rewrite !length_app; lia)).
    rewrite Hcat. apply Hc2. unfold cap. rewrite !length_app. lia.
Qed.
End settled.

(** ** The replay and the chain *)

(** [C11] Against a node that serves the vault's ledger, the replay returns
    exactly the leaves the vault's tree holds, and a shadow tree built from them
    has the root stored on chain.  The ledger is any history of the vault's
    instructions since its initialisation, [reset_merkle_tree] apart, within the
    number of signatures the replay fetches. *)
Theorem collect_matches_chain `{NodeCrypto} `{!NodeCryptoLaws} `{Poseidon} `{!PoseidonLaws} `{Web3} `{Base58}
    verify_spend verify_wallet {S} (conn : Connection S) vault ledger st maxSignatures w :
  distinct_discriminators vault_handler_names →
  ledger_ran verify_spend verify_wallet vault None (Some st) ledger → honest_node conn vault ledger →
  (length ledger ≤ default 10000%nat maxSignatures)%nat →
  ∃ l, collectVaultLeavesOrdered conn vault (Z.to_nat st.(vs_config).(leaf_count)) maxSignatures w = (Ok l, w) ∧
    vault_repr st.(vs_config) l ∧ computeRoot (shadow_of l) = Ok st.(vs_config).(current_root).
Proof.
  intros Hdist Hran Hnode Hmax. destruct (ledger_replay _ _ _ Hdist conn _ _ _ [] Hran) as (l & Hl & Hc);
    [intros; by eapply hn_transactions|done|]. cbn [holds app] in Hl.
  exists l. split; [|split; [exact Hl|]].
  - rewrite (repr_count _ _ (proj1 Hl)), Nat2Z.id. eapply collect_honest; [exact Hnode|exact Hmax| | |reflexivity].
    + by inversion Hran.
    + apply Hc. cbn. lia.
  - rewrite (repr_root _ _ (proj1 Hl)). apply computeRoot_spec.
    eapply Forall_impl; [exact (repr_leaves _ _ (proj1 Hl))|]. intros b [Hb _] ->. discriminate.
Qed.

(** A ledger of two transactions, the initialisation and a deposit, and the node
    that serves it. *)
Module SampleLedger.
Import Toy.

#[export] Instance sample_base58 : Base58 := {|
  bs58_decode text := Ok (ascii_bytes text);
  newPublicKey _ := Ok Toy.zero_key;
|}.

Definition owner : bytes := replicate 31 x00 ++ [x07].

Definition vault_ix (data : bytes) : VersionedTransactionResponse := {|
  tx_staticAccountKeys := [Toy.zero_key; Toy.key_of (replicate 32 x30)];
  tx_compiledInstructions := [{| ci_programIdIndex := 0; ci_accountKeyIndexes := Some [1; 0; 1]%nat; ci_data := data |}];
  tx_meta := None |}.

Definition tx1 : VersionedTransactionResponse := vault_ix (anchorDiscriminator "initialize" ++ replicate 64 x01).
Definition tx2 : VersionedTransactionResponse :=
  vault_ix (concat [anchorDiscriminator "deposit"; le_bytes 8 100; owner; owner; owner]).
Definition ledger : list (string * VersionedTransactionResponse) := [("s1", tx1); ("s2", tx2)].

Definition node : Connection () := {|
  getSignaturesForAddress _ limit before w := (Ok (take limit (older before ["s2"; "s1"])), w);
  getTransaction sig w := (Ok (if decide (sig = "s1") then Some tx1 else if decide (sig = "s2") then Some tx2 else None), w) |}.

Lemma node_honest vault : honest_node node vault ledger.
Proof.
  split.
  - apply (bool_decide_unpack _). vm_compute. exact I.
  - reflexivity.
  - intros sig tx w Hin. repeat (apply elem_of_cons in Hin as [[= -> ->]|Hin]; [reflexivity|]).
    by apply not_elem_of_nil in Hin.
Qed.

Lemma ran : ∃ st, ledger_ran (λ _ _, true) (λ _ _, true) Toy.zero_key None (Some st) ledger.
Proof.
  destruct (initialize_repr (replicate 32 x01) (replicate 32 x02) (replicate 32 x03)) as (cfg & Hi & Hv & _).
  set (st := {| vs_config := cfg; vs_locks := ∅; vs_consumed := ∅; vs_nullifiers := ∅; vs_wallets := ∅;
                vs_tokens := ∅; vs_funded := ∅ |}).
  assert (Hc : ∃ c, commitment_from_fields (replicate 32 x30) 100 owner owner owner = Ok c).
  { eexists. vm_compute. reflexivity. }
  destruct Hc as (c & Hc).
  destruct (deposit_handler_appends cfg [] (replicate 32 x30) 100 owner owner owner c Hv ltac:(lia) Hc (pow2_pos _))
    as (ev & cfg' & Hd & _).
  eexists. eapply (ledger_ok _ _ _ _ (Some st)) with (notes := []); [reflexivity|reflexivity| |].
  - eapply calls_vault with (data := anchorDiscriminator "initialize" ++ replicate 64 x01)
      (keys := [Toy.key_of (replicate 32 x30); Toy.zero_key; Toy.key_of (replicate 32 x30)]); [|apply calls_nil].
    apply ran_initialize; [reflexivity|]. exists (replicate 32 x01), (replicate 32 x02), (replicate 32 x03).
      do 3 (split; [reflexivity|]). split; [exact Hi|]. repeat split.
  - eapply ledger_ok with (notes := []); [reflexivity|reflexivity| |apply ledger_nil].
    eapply calls_vault with (data := concat [anchorDiscriminator "deposit"; le_bytes 8 100; owner; owner; owner])
      (keys := [Toy.key_of (replicate 32 x30); Toy.zero_key; Toy.key_of (replicate 32 x30)]); [|apply calls_nil].
    eapply (ran_deposit _ _ _ _ _ _ _ 100 owner owner owner); [vm_compute; reflexivity|reflexivity|].
    unfold deposit. eapply bind_Ok_eq; [exact Hd|reflexivity].
Qed.
End SampleLedger.

Lemma collect_matches_chain_witness : ∃ n l,
  @collectVaultLeavesOrdered Toy.toy_crypto Toy.toy_Poseidon SampleLedger.sample_base58 () SampleLedger.node
    Toy.zero_key n None tt = (Ok l, tt).
Proof.
  destruct SampleLedger.ran as (st & Hran).
  destruct (@collect_matches_chain Toy.toy_crypto Toy.toy_crypto_laws Toy.toy_Poseidon Toy.toy_poseidon_laws Toy.toy_web3
    SampleLedger.sample_base58 (λ _ _, true) (λ _ _, true) () SampleLedger.node Toy.zero_key SampleLedger.ledger st None tt)
    as (l & Hl & _).
  - apply (bool_decide_unpack _). vm_compute. exact I.
  - exact Hran.
  - apply SampleLedger.node_honest.
  - apply Nat.leb_le. vm_compute. reflexivity.
  - eexists _, l. exact Hl.
Defined.

(** Paging ends: whatever the node answers, the loop over the pages returns
    (or rethrows the node's error) within one round per signature still wanted,
    so the fuel of the model is never used up. *)
Theorem fetchSignatures_terminates {S} (conn : Connection S) vault hardCap w :
  (∀ limit before w r w', conn.(getSignaturesForAddress) vault limit before w = (Throw r, w') → r ≠ EFuel) →
  ∀ w', fetchSignaturesPaginated conn vault hardCap w ≠ (Throw EFuel, w').
Proof. intros Hc w'. apply fetch_loop_fuel; [exact Hc|]. cbn [length]. lia. Qed.

Lemma fetchSignatures_terminates_witness :
  fetchSignaturesPaginated SampleLedger.node Toy.zero_key 10 tt ≠ (Throw EFuel, tt).
Proof. exact (fetchSignatures_terminates SampleLedger.node Toy.zero_key 10 tt ltac:(intros ? ? ? ? ? [=]) tt). Defined.

(** The replay does not know [reset_merkle_tree]: after a reset, once as many
    leaves as before have been appended again, it returns the old leaves. *)
Theorem replay_ignores_reset `{NodeCrypto} `{!NodeCryptoLaws} `{Poseidon} `{!PoseidonLaws} `{Web3} `{Base58}
    verify_spend verify_wallet {S} (conn : Connection S) vault ledger sig tx ledger2 st l k st1 st2 maxSignatures w :
  distinct_discriminators vault_handler_names →
  ledger_ran verify_spend verify_wallet vault None (Some st) ledger → vault_repr st.(vs_config) l →
  reset_merkle_tree k st = Ok st1 → ledger_ran verify_spend verify_wallet vault (Some st1) (Some st2) ledger2 →
  st2.(vs_config).(leaf_count) = Z.of_nat (length l) →
  honest_node conn vault (ledger ++ (sig, tx) :: ledger2) →
  (length (ledger ++ (sig, tx) :: ledger2) ≤ default 10000%nat maxSignatures)%nat →
  ∃ old l2, collectVaultLeavesOrdered conn vault (Z.to_nat st2.(vs_config).(leaf_count)) maxSignatures w = (Ok old, w) ∧
    vault_repr st.(vs_config) old ∧ vault_repr st2.(vs_config) l2 ∧ length l2 = length old.
Proof.
  intros Hdist Hran Hv Hres Hran2 Hcount Hnode Hmax. assert (Hfresh : vault_repr st1.(vs_config) []).
  { unfold reset_merkle_tree in Hres. apply res_bind_Ok in Hres as (cfg & Hr & E). apply Ok_inj in E as <-.
    exact (proj1 (reset_fresh _ _ _ _ Hv Hr)). }
  destruct (ledger_replay _ _ _ Hdist conn _ _ _ [] Hran) as (old & Hold & Hc);
    [intros; eapply hn_transactions; [exact Hnode|apply elem_of_app; by left]|done|]. cbn [holds app] in Hold, Hc.
  destruct (ledger_replay _ _ _ Hdist conn _ _ _ [] Hran2) as (l2 & Hl2 & _);
    [intros; eapply hn_transactions; [exact Hnode|apply elem_of_app; right; apply elem_of_cons; by right]|exact Hfresh|].
  cbn [holds app] in Hl2. pose proof (repr_count _ _ (proj1 Hold)) as N1. pose proof (repr_count _ _ (proj1 Hv)) as N2.
  pose proof (repr_count _ _ (proj1 Hl2)) as N3. assert (El : length old = length l) by lia.
  assert (E2 : length l2 = length old) by lia.
  exists old, l2. split; [|done]. rewrite N3, Nat2Z.id, E2. eapply collect_honest; [exact Hnode|exact Hmax| | |reflexivity].
  - by destruct ledger.
  - rewrite fmap_app. eapply collect_join; [apply Hc; cbn; lia|]. by apply collect_full.
Qed.
