(* ===== verification/Decimals.v ===== *)
(** Amounts as text ([apps/demo/src/lib/dapp/decimals.ts]): human units to atoms
    and back, and the display form with thousands separators.  Text is ASCII. *)

From Stdlib Require Import Ascii.
From S2P Require Import Prelude Bytes Errors DecimalText.

Local Open Scope Z_scope.

(** ** String operations of the language *)

Fixpoint zeros (n : nat) : string :=
  match n with O => "" | S n => String "0"%char (zeros n) end.

(** [s.padEnd(n, "0")] and [s.padStart(n, "0")] *)
Definition padEnd0 (s : string) (n : nat) : string := s +:+ zeros (n - String.length s).
Definition padStart0 (s : string) (n : nat) : string := zeros (n - String.length s) +:+ s.

(** [s.slice(0, n)] and [s.slice(n)] *)
Fixpoint str_take (n : nat) (s : string) : string :=
  match n, s with S n, String c s => String c (str_take n s) | _, _ => "" end.
Fixpoint str_drop (n : nat) (s : string) : string :=
  match n, s with S n, String _ s => str_drop n s | _, _ => s end.

(** [s.replace(/0+$/, "")] *)
Fixpoint strip0 (s : string) : string :=
  match s with
  | "" => ""
  | String c s => let t := strip0 s in if bool_decide (t = "") && bool_decide (c = "0"%char) then "" else String c t
  end.

(** The text before the first dot, and what follows it. *)
Fixpoint break_dot (s : string) : string * option string :=
  match s with
  | "" => ("", None)
  | String c s =>
      if decide (c = "."%char) then ("", Some s)
      else let '(a, b) := break_dot s in (String c a, b)
  end.

(** [s.trim()] *)
Definition is_space (c : ascii) : bool :=
  let n := N_of_ascii c in (n =? 32)%N || ((9 <=? n)%N && (n <=? 13)%N).
Fixpoint trimStart (s : string) : string :=
  match s with String c s' => if is_space c then trimStart s' else s | "" => "" end.
Fixpoint trimEnd (s : string) : string :=
  match s with
  | "" => ""
  | String c s => let t := trimEnd s in if bool_decide (t = "") && is_space c then "" else String c t
  end.
Definition trim (s : string) : string := trimEnd (trimStart s).

(** [BigInt(s)] on an optional minus and digits. *)
Definition bigint_text (s : string) : option Z :=
  match s with
  | String "-"%char s => ds ← decimal s; Some (- dec_val ds)
  | _ => ds ← decimal s; Some (dec_val ds)
  end.

(** [x.toString()] *)
Definition bigint_string (x : Z) : string := if x <? 0 then "-" +:+ pretty (- x) else pretty x.

Definition dquote : string := String (ascii_of_nat 34) EmptyString.

(** ** [toAtoms] *)

(** A number argument is given by its [toString()]. *)
Inductive Human := HBigint (z : Z) | HNumber (text : string) | HString (text : string).

Definition human_text (h : Human) : string :=
  match h with HBigint z => bigint_string z | HNumber t | HString t => t end.

(** [/^(-)?(\d+)(?:\.(\d+))?$/], with its groups; a missing third group is [""]. *)
Definition amount_regex (raw : string) : option (bool * string * string) :=
  let '(minus, rest) := match raw with String "-"%char r => (true, r) | _ => (false, raw) end in
  let '(intPart, frac) := break_dot rest in
  _ ← decimal intPart;
  match frac with
  | None => Some (minus, intPart, "")
  | Some f => _ ← decimal f; Some (minus, intPart, f)
  end.

Definition toAtoms (human : Human) (decimals : nat) : res Z :=
  match human with
  | HBigint z => Ok z
  | HNumber text | HString text =>
      let raw := match human with HString _ => trim text | _ => text end in
      if bool_decide (raw = "") then Ok 0
      else
        match amount_regex raw with
        | None => Throw (Error ("invalid amount: " +:+ human_text human))
        | Some (minus, intPart, fracPart) =>
            let sign := if (minus : bool) then -1 else 1 in
            _ ← throw_if (decimals <? String.length fracPart)%nat
                  (Error ("amount " +:+ dquote +:+ raw +:+ dquote +:+ " has " +:+ pretty (String.length fracPart)
                          +:+ " fractional digits, but the mint only supports " +:+ pretty decimals));
            let padded := padEnd0 fracPart decimals in
            v ← match bigint_text (intPart +:+ padded) with
                | Some v => Ok v
                | None => Throw (EError "SyntaxError" "Cannot convert to a BigInt")
                end;
            Ok (sign * v)
        end
  end.

(** ** [fromAtoms] and [formatAtoms], on a bigint *)

Definition fromAtoms (v : Z) (decimals : nat) : string :=
  let neg := v <? 0 in
  let abs := if neg then - v else v in
  if (decimals =? 0)%nat then (if neg then "-" else "") +:+ bigint_string abs
  else
    let s := padStart0 (bigint_string abs) (decimals + 1) in
    let cut := (String.length s - decimals)%nat in
    let intPart := let i := str_take cut s in if bool_decide (i = "") then "0" else i in
    let fracPart := strip0 (str_drop cut s) in
    (if neg then "-" else "") +:+ (if bool_decide (fracPart = "") then intPart else intPart +:+ "." +:+ fracPart).

(** A comma before every group of three digits but the first. *)
Fixpoint group3 (s : string) : string :=
  match s with
  | "" => ""
  | String c s =>
      if bool_decide (s = "") || negb (String.length s mod 3 =? 0)%nat then String c (group3 s)
      else String c (String ","%char (group3 s))
  end.

(** [x.toLocaleString("en-US")] *)
Definition toLocaleString (x : Z) : string :=
  if x <? 0 then "-" +:+ group3 (bigint_string (- x)) else group3 (bigint_string x).

Definition formatAtoms (atoms : Z) (decimals : nat) : string :=
  let raw := fromAtoms atoms decimals in
  let '(intPart, rest) := break_dot raw in
  let fracPart := from_option (λ r, (break_dot r).1) "" rest in
  match bigint_text intPart with
  | Some x =>
      let withCommas := toLocaleString x in
      if bool_decide (fracPart = "") then withCommas else withCommas +:+ "." +:+ fracPart
  | None => raw
  end.

(** ** Lemmas *)

Lemma str_app_nil s : s +:+ "" = s.
Proof. induction s as [|c s IH]; [done|]. change (String c (s +:+ "") = String c s). by rewrite IH. Qed.

Lemma str_app_assoc a b c : (a +:+ b) +:+ c = a +:+ (b +:+ c).
Proof. induction a as [|x a IH]; [done|]. change (String x ((a +:+ b) +:+ c) = String x (a +:+ (b +:+ c))). by rewrite IH. Qed.

Lemma str_length_app a b : String.length (a +:+ b) = (String.length a + String.length b)%nat.
Proof. induction a as [|x a IH]; [done|]. change (S (String.length (a +:+ b)) = S (String.length a + String.length b)). by rewrite IH. Qed.

Lemma length_zeros n : String.length (zeros n) = n.
Proof. induction n as [|n IH]; cbn; [done|]. by rewrite IH. Qed.

Lemma take_drop_str n s : str_take n s +:+ str_drop n s = s.
Proof.
  revert n; induction s as [|c s IH]; intros [|n]; try done. change (String c (str_take n s +:+ str_drop n s) = String c s).
  by rewrite IH.
Qed.

Lemma length_str_take n s : (n ≤ String.length s)%nat → String.length (str_take n s) = n.
Proof. revert n; induction s as [|c s IH]; intros [|n]; cbn; intros; try done; [lia|]. rewrite IH; lia. Qed.

Lemma length_str_drop n s : String.length (str_drop n s) = (String.length s - n)%nat.
Proof. revert n; induction s as [|c s IH]; intros [|n]; cbn; done. Qed.

Lemma digits_length s ds : digits s = Some ds → length ds = String.length s.
Proof.
  revert ds; induction s as [|c s IH]; intros ds; cbn [digits]; [by intros [= <-]|].
  destruct (digit_of c); [|done]. destruct (digits s) as [ds'|]; [|done]. intros [= <-]. cbn. by rewrite (IH ds').
Qed.

Lemma digits_zeros n : digits (zeros n) = Some (replicate n 0).
Proof. induction n as [|n IH]; [done|]. cbn [zeros digits]. rewrite IH. done. Qed.

Lemma dec_val_zeros n ds : dec_val (replicate n 0 ++ ds) = dec_val ds.
Proof. induction n as [|n IH]; [done|]. cbn [replicate app]. rewrite dec_val_cons, IH. lia. Qed.

Lemma digits_app_inv a b ds :
  digits (a +:+ b) = Some ds → ∃ da db, digits a = Some da ∧ digits b = Some db ∧ ds = da ++ db.
Proof.
  rewrite digits_app. destruct (digits a) as [da|]; [|done]. destruct (digits b) as [db|]; [|done].
  intros [= <-]. by exists da, db.
Qed.

(** What was stripped are zeros. *)
Lemma strip0_spec s : ∃ k, s = strip0 s +:+ zeros k.
Proof.
  induction s as [|c s [k IH]]; [by exists 0%nat|]. cbn [strip0].
  destruct (bool_decide_reflect (strip0 s = "")) as [E|E]; cbn [andb].
  - destruct (bool_decide_reflect (c = "0"%char)) as [->|Hc].
    + exists (S k). rewrite E in IH. by rewrite IH at 1.
    + exists k. change (String c s = String c (strip0 s +:+ zeros k)). by rewrite <-IH.
  - exists k. change (String c s = String c (strip0 s +:+ zeros k)). by rewrite <-IH.
Qed.

(** Characters of decimal text: no dot, no minus, no space. *)
Lemma digit_char c d : digit_of c = Some d → c ≠ "."%char ∧ c ≠ "-"%char ∧ is_space c = false.
Proof. intros Hd. split_and!; [intros ->; discriminate|intros ->; discriminate|]. revert Hd. by destruct c as [[] [] [] [] [] [] [] []]. Qed.

Lemma break_dot_digits s ds t : digits s = Some ds → break_dot (s +:+ t) = (s +:+ (break_dot t).1, (break_dot t).2).
Proof.
  revert ds; induction s as [|c s IH]; intros ds; [intros _; exact (surjective_pairing (break_dot t))|].
  change (String c s +:+ t) with (String c (s +:+ t)). cbn [digits break_dot].
  destruct (digit_of c) as [d|] eqn:Hc; [|done]. destruct (digits s) as [ds'|] eqn:Hs; [|done]. intros _.
  rewrite decide_False by apply (digit_char _ _ Hc). by rewrite (IH ds').
Qed.

(** [trim] leaves text without spaces alone. *)
Fixpoint unspaced (s : string) : Prop :=
  match s with "" => True | String c s => is_space c = false ∧ unspaced s end.

Lemma trimEnd_unspaced s : unspaced s → trimEnd s = s.
Proof.
  induction s as [|c s IH]; [done|]. intros [Hc Hs]. cbn [trimEnd]. by rewrite (IH Hs), Hc, andb_false_r.
Qed.

Lemma trim_unspaced s : unspaced s → trim s = s.
Proof.
  intros Hs. unfold trim. destruct s as [|c s]; [done|]. cbn [trimStart]. rewrite (proj1 Hs). by apply trimEnd_unspaced.
Qed.

Lemma unspaced_app a b : unspaced a → unspaced b → unspaced (a +:+ b).
Proof. induction a as [|c a IH]; [done|]. intros [Hc Ha] Hb. split; [done|by apply IH]. Qed.

Lemma digits_unspaced s ds : digits s = Some ds → unspaced s.
Proof.
  revert ds; induction s as [|c s IH]; intros ds; cbn [digits]; [done|].
  destruct (digit_of c) as [d|] eqn:Hc; [|done]. destruct (digits s) as [ds'|]; [|done]. intros _.
  split; [apply (digit_char _ _ Hc)|by eapply IH].
Qed.

Lemma decimal_intro s ds : digits s = Some ds → s ≠ "" → decimal s = Some ds.
Proof.
  intros Hd Hs. unfold decimal. rewrite Hd. cbn. rewrite decide_False; [done|]. intros ->.
  apply digits_length in Hd. by destruct s.
Qed.

Lemma bigint_digits s ds : digits s = Some ds → s ≠ "" → bigint_text s = Some (dec_val ds).
Proof.
  intros Hd Hs. pose proof (decimal_intro _ _ Hd Hs) as Hdec. destruct s as [|c s]; [done|].
  assert (Hc : c ≠ "-"%char).
  { intros ->. discriminate Hd. }
  unfold bigint_text. rewrite Hdec. destruct c as [[] [] [] [] [] [] [] []]; first [done|by destruct Hc].
Qed.

(** Amount text in its parts. *)
Definition amount_text (minus : bool) (i f : string) : string :=
  (if minus then "-" else "") +:+ (if bool_decide (f = "") then i else i +:+ "." +:+ f).

Lemma amount_regex_text minus i f di df :
  digits i = Some di → i ≠ "" → digits f = Some df → amount_regex (amount_text minus i f) = Some (minus, i, f).
Proof.
  intros Hi Hne Hf. set (body := if bool_decide (f = "") then i else i +:+ "." +:+ f).
  assert (Hb : break_dot body = (i, if bool_decide (f = "") then None else Some f)).
  { unfold body. destruct (bool_decide_reflect (f = "")).
    - rewrite <-(str_app_nil i) at 1. rewrite (break_dot_digits _ _ _ Hi). cbn. by rewrite str_app_nil.
    - rewrite (break_dot_digits _ _ _ Hi). cbn. by rewrite str_app_nil. }
  assert (Hrest : ∀ m, (let '(intPart, frac) := break_dot body in
    _ ← decimal intPart; match frac with None => Some (m, intPart, "") | Some f => _ ← decimal f; Some (m, intPart, f) end)
    = Some (m : bool, i, f)).
  { intros m. rewrite Hb. cbn [mbind option_bind]. rewrite (decimal_intro _ _ Hi Hne). cbn [mbind option_bind].
    destruct (bool_decide_reflect (f = "")) as [->|Hf0]; [done|]. by rewrite (decimal_intro _ _ Hf Hf0). }
  unfold amount_text. fold body. destruct minus; [exact (Hrest true)|].
  change ("" +:+ body) with body. unfold amount_regex. rewrite <-(Hrest false).
  assert (Hfirst : ∃ c s, body = String c s ∧ c ≠ "-"%char).
  { destruct i as [|c i]; [done|]. exists c. unfold body. destruct (bool_decide _); eexists; (split; [reflexivity|]);
      intros ->; discriminate Hi. }
  destruct Hfirst as (c & s & E & Hc). rewrite E. destruct c as [[] [] [] [] [] [] [] []]; first [reflexivity|by destruct Hc].
Qed.

(** The atoms of well-formed amount text. *)
Lemma toAtoms_text minus i f di df decimals :
  digits i = Some di → i ≠ "" → digits f = Some df → (String.length f ≤ decimals)%nat →
  toAtoms (HString (amount_text minus i f)) decimals =
  Ok ((if minus then -1 else 1) * dec_val (di ++ df ++ replicate (decimals - String.length f) 0)).
Proof.
  intros Hi Hne Hf Hl. assert (Hu : unspaced (amount_text minus i f)).
  { unfold amount_text. apply unspaced_app; [by destruct minus|]. destruct (bool_decide _); [by eapply digits_unspaced|].
    apply unspaced_app; [by eapply digits_unspaced|]. split; [done|by eapply digits_unspaced]. }
  unfold toAtoms. rewrite (trim_unspaced _ Hu). rewrite bool_decide_eq_false_2.
  2:{ unfold amount_text. destruct i; [done|]. destruct minus; [done|]. by destruct (bool_decide _). }
  rewrite (amount_regex_text _ _ _ _ _ Hi Hne Hf), (proj2 (Nat.ltb_ge _ _) Hl). cbn [throw_if mbind res_bind].
  assert (Hd : digits (i +:+ padEnd0 f decimals) = Some (di ++ df ++ replicate (decimals - String.length f) 0)).
  { unfold padEnd0. by rewrite !digits_app, Hi, Hf, digits_zeros. }
  rewrite (bigint_digits _ _ Hd); [done|]. by destruct i.
Qed.

Lemma bigint_string_nonneg x : 0 <= x → bigint_string x = pretty x.
Proof. intros Hx. unfold bigint_string. by rewrite (proj2 (Z.ltb_ge _ _) Hx). Qed.

(** The parts [fromAtoms] prints. *)
Lemma fromAtoms_text v decimals : ∃ i f di df,
  fromAtoms v decimals = amount_text (v <? 0) i f ∧ digits i = Some di ∧ i ≠ "" ∧ digits f = Some df ∧
  (String.length f ≤ decimals)%nat ∧
  dec_val (di ++ df ++ replicate (decimals - String.length f) 0) = Z.abs v.
Proof.
  assert (Habs : (if v <? 0 then - v else v) = Z.abs v) by (destruct (Z.ltb_spec v 0); lia).
  destruct (digits_pretty (Z.abs v) ltac:(lia)) as (ds & Hds & Hne & Hval & _).
  assert (Hp : pretty (Z.abs v) ≠ "") by (intros E; rewrite E in Hds; injection Hds as <-; done).
  unfold fromAtoms. rewrite Habs, bigint_string_nonneg by lia. destruct (Nat.eqb_spec decimals 0) as [->|Hd].
  { exists (pretty (Z.abs v)), "", ds, []. unfold amount_text. rewrite bool_decide_eq_true_2 by done.
    split_and!; try done. by rewrite app_nil_r. }
  set (s := padStart0 (pretty (Z.abs v)) (decimals + 1)). set (cut := (String.length s - decimals)%nat).
  assert (Hlen : (decimals + 1 ≤ String.length s)%nat).
  { unfold s, padStart0. rewrite str_length_app, length_zeros. lia. }
  assert (Hs : digits s = Some (replicate (decimals + 1 - String.length (pretty (Z.abs v))) 0 ++ ds)).
  { unfold s, padStart0. by rewrite digits_app, digits_zeros, Hds. }
  pose proof Hs as Hparts. rewrite <-(take_drop_str cut s) in Hparts.
  apply digits_app_inv in Hparts as (di & dr & Hdi & Hdr & Hsplit).
  destruct (strip0_spec (str_drop cut s)) as (k & Hk). pose proof Hdr as Hf. rewrite Hk in Hf.
  apply digits_app_inv in Hf as (df & dz & Hdf & Hdz & ->). rewrite digits_zeros in Hdz. injection Hdz as <-.
  assert (Hi : str_take cut s ≠ "").
  { intros E. apply (f_equal String.length) in E. rewrite length_str_take in E by (unfold cut; lia). cbn in E.
    unfold cut in E. lia. }
  assert (Hkl : (String.length (strip0 (str_drop cut s)) + k = decimals)%nat).
  { apply (f_equal String.length) in Hk. rewrite str_length_app, length_zeros, length_str_drop in Hk. unfold cut in *. lia. }
  exists (str_take cut s), (strip0 (str_drop cut s)), di, df. rewrite (bool_decide_eq_false_2 _ Hi).
  split; [by unfold amount_text; destruct (v <? 0)|]. do 3 (split; [done|]). split; [lia|].
  replace (decimals - String.length (strip0 (str_drop cut s)))%nat with k by lia. rewrite <-Hsplit, dec_val_zeros. done.
Qed.

(** Converting atoms to display text and back is lossless, for every
    amount, negative ones too, and every number of decimals. *)
Theorem toAtoms_fromAtoms v decimals : toAtoms (HString (fromAtoms v decimals)) decimals = Ok v.
Proof.
  destruct (fromAtoms_text v decimals) as (i & f & di & df & -> & Hi & Hne & Hf & Hl & Hval).
  rewrite (toAtoms_text _ _ _ _ _ _ Hi Hne Hf Hl), Hval. f_equal. destruct (Z.ltb_spec v 0); lia.
Qed.

Lemma amount_regex_inv raw minus i f :
  amount_regex raw = Some (minus, i, f) →
  ∃ di df, digits i = Some di ∧ i ≠ "" ∧ digits f = Some df ∧ raw ≠ "".
Proof.
  unfold amount_regex. destruct (match raw with String "-" r => _ | _ => _ end) as [m rest] eqn:Hm.
  destruct (break_dot rest) as [ip fr] eqn:Hb. destruct (decimal ip) as [di|] eqn:Hi; [|done]. cbn [mbind option_bind].
  apply decimal_digits in Hi as [Hi Hdi].
  assert (Hne : ip ≠ "") by (intros ->; injection Hi as <-; done).
  assert (Hraw : raw ≠ "").
  { intros ->. injection Hm as <- <-. injection Hb as <- <-. done. }
  destruct fr as [fr|].
  - destruct (decimal fr) as [df|] eqn:Hf; [|done]. intros [= <- <- <-]. apply decimal_digits in Hf as [Hf _]. eauto 10.
  - intros [= <- <- <-]. exists di, []. done.
Qed.

(** Parsing drops no precision: text of the accepted form is read as its
    digits scaled by the power of ten that is left, exactly when it has at most
    [decimals] fractional digits; more of them, or other text, is an error, and
    blank text is zero. *)
Theorem toAtoms_exact text decimals :
  match amount_regex (trim text) with
  | Some (minus, i, f) =>
      ∃ di df, digits i = Some di ∧ digits f = Some df ∧
        (is_Ok (toAtoms (HString text) decimals) = bool_decide (String.length f ≤ decimals)%nat) ∧
        ((String.length f ≤ decimals)%nat →
         toAtoms (HString text) decimals =
         Ok ((if minus then -1 else 1) * (dec_val (di ++ df) * 10 ^ Z.of_nat (decimals - String.length f))))
  | None => if bool_decide (trim text = "") then toAtoms (HString text) decimals = Ok 0
            else is_Ok (toAtoms (HString text) decimals) = false
  end.
Proof.
  unfold toAtoms. destruct (amount_regex (trim text)) as [[[minus i] f]|] eqn:E.
  2:{ by destruct (bool_decide _). }
  apply amount_regex_inv in E as (di & df & Hi & Hne & Hf & Hraw). rewrite (bool_decide_eq_false_2 _ Hraw).
  assert (Hd : digits (i +:+ padEnd0 f decimals) = Some ((di ++ df) ++ replicate (decimals - String.length f) 0)).
  { unfold padEnd0. rewrite !digits_app, Hi, Hf, digits_zeros. cbn. by rewrite <-app_assoc. }
  assert (Hdne : i +:+ padEnd0 f decimals ≠ "") by by destruct i.
  exists di, df. do 2 (split; [done|]). destruct (Nat.ltb_spec decimals (String.length f)) as [Hlt|Hle].
  - cbn. rewrite bool_decide_eq_false_2 by lia. split; [done|]. lia.
  - cbn [throw_if mbind res_bind]. rewrite (bigint_digits _ _ Hd Hdne), bool_decide_eq_true_2 by done. split; [done|].
    intros _. rewrite (dec_val_app (di ++ df)), length_replicate.
    assert (Hz : dec_val (replicate (decimals - String.length f) 0) = 0).
    { rewrite <-(app_nil_r (replicate _ 0)), dec_val_zeros. done. }
    by rewrite Hz, Z.add_0_r.
Qed.

(** ** The display form *)

Lemma fromAtoms_neg v decimals : 0 < v → fromAtoms (- v) decimals = "-" +:+ fromAtoms v decimals.
Proof.
  intros Hv. unfold fromAtoms. rewrite (proj2 (Z.ltb_lt (- v) 0)), (proj2 (Z.ltb_ge v 0)), Z.opp_involutive by lia.
  destruct (_ =? 0)%nat; reflexivity.
Qed.

Lemma break_dot_amount i di f : digits i = Some di →
  break_dot (amount_text false i f) = (i, if bool_decide (f = "") then None else Some f).
Proof.
  intros Hi. unfold amount_text. change ("" +:+ ?x) with x. destruct (bool_decide (f = "")).
  - rewrite <-(str_app_nil i) at 1. rewrite (break_dot_digits _ _ _ Hi). cbn. by rewrite str_app_nil.
  - rewrite (break_dot_digits _ _ _ Hi). cbn. by rewrite str_app_nil.
Qed.

(** [formatAtoms] drops the sign of a debit of less than one token: [BigInt("-0")]
    is [0n], so both amounts are displayed alike. *)
Theorem formatAtoms_drops_sign v decimals :
  0 < v < 10 ^ Z.of_nat decimals → formatAtoms (- v) decimals = formatAtoms v decimals.
Proof.
  intros [Hv Hlt]. unfold formatAtoms. rewrite fromAtoms_neg by done.
  destruct (fromAtoms_text v decimals) as (i & f & di & df & -> & Hi & Hne & Hf & Hl & Hval).
  rewrite (proj2 (Z.ltb_ge v 0)) by lia.
  assert (Hz : dec_val di = 0).
  { rewrite dec_val_app, length_app, length_replicate, (digits_length _ _ Hf) in Hval.
    replace (String.length f + (decimals - String.length f))%nat with decimals in Hval by lia.
    pose proof (dec_val_range _ (digits_range _ _ Hi)) as [? _].
    assert (Hr : all_digits (df ++ replicate (decimals - String.length f) 0)).
    { apply Forall_app_2; [by eapply digits_range|]. apply Forall_replicate. lia. }
    pose proof (dec_val_range _ Hr) as [? _]. nia. }
  assert (Hb : break_dot ("-" +:+ amount_text false i f) =
    ("-" +:+ i, if bool_decide (f = "") then None else Some f)).
  { change ("-" +:+ amount_text false i f) with (String "-"%char (amount_text false i f)). cbn [break_dot].
    rewrite decide_False by done. by rewrite (break_dot_amount _ _ _ Hi). }
  rewrite Hb, (break_dot_amount _ _ _ Hi), (bigint_digits _ _ Hi Hne), Hz.
  change (bigint_text ("-" +:+ i)) with (ds ← decimal i; Some (- dec_val ds)).
  rewrite (decimal_intro _ _ Hi Hne). cbn [mbind option_bind]. by rewrite Hz.
Qed.
