(* ===== verification/DemoText.v ===== *)
(** Text forms the demo exchanges ([apps/demo/src/lib/dapp/ix-json.ts]): hex, as
    [Buffer] writes and reads it, and the JSON form of an instruction. *)

From Stdlib Require Import Ascii.
From S2P Require Import Prelude Bytes Errors Externals Keys Note Merkle LeafHistory.

Local Open Scope Z_scope.

(** ** [Buffer.toString("hex")] and [Buffer.from(text, "hex")] *)

Definition hex_digit (n : Z) : ascii :=
  ascii_of_N (Z.to_N (if n <? 10 then 48 + n else 87 + n)).

Fixpoint toHex (bs : bytes) : string :=
  match bs with
  | [] => ""
  | b :: bs => String (hex_digit (u8_val b / 16)) (String (hex_digit (u8_val b mod 16)) (toHex bs))
  end.

Definition hex_value (c : ascii) : option Z :=
  let n := Z.of_N (N_of_ascii c) in
  if (48 <=? n) && (n <=? 57) then Some (n - 48)
  else if (97 <=? n) && (n <=? 102) then Some (n - 87)
  else if (65 <=? n) && (n <=? 70) then Some (n - 55)
  else None.

(** Pairs of digits, up to the first that is not one. *)
Fixpoint fromHex (s : string) : bytes :=
  match s with
  | String a (String b s) =>
      match hex_value a, hex_value b with
      | Some x, Some y => u8_of_Z (x * 16 + y) :: fromHex s
      | _, _ => []
      end
  | _ => []
  end.

(** [s.toLowerCase()], on ASCII text, and [s.replace(/^0x/, "")]. *)
Definition lower_char (c : ascii) : ascii :=
  let n := N_of_ascii c in if ((65 <=? n) && (n <=? 90))%N then ascii_of_N (n + 32) else c.
Fixpoint toLowerCase (s : string) : string :=
  match s with "" => "" | String c s => String (lower_char c) (toLowerCase s) end.
Definition strip_0x (s : string) : string :=
  match s with String "0"%char (String "x"%char s) => s | _ => s end.

(** ** [ix-json.ts] *)

Record KeyJson := { kj_pubkey : string; kj_isSigner : bool; kj_isWritable : bool }.
Record InstructionJson := { ij_programId : string; ij_keys : list KeyJson; ij_data : string }.

Class Base58Laws `{Web3} `{Base58} : Prop := {
  newPublicKey_toBase58 : ∀ pk, newPublicKey (Some (toBase58 pk)) = Ok pk;
  toBase58_nonempty : ∀ pk, toBase58 pk ≠ EmptyString;
}.

Section json.
Context `{Web3} `{Base58}.

Definition instructionToJson (ix : TransactionInstruction) : InstructionJson :=
  {| ij_programId := toBase58 ix.(ix_programId);
     ij_keys := (λ m, {| kj_pubkey := toBase58 m.(pubkey); kj_isSigner := m.(isSigner);
                         kj_isWritable := m.(isWritable) |}) <$> ix.(ix_keys);
     ij_data := toHex ix.(ix_data) |}.

Definition instructionFromJson (j : InstructionJson) : res TransactionInstruction :=
  programId ← newPublicKey (Some j.(ij_programId));
  keys ← mapM (λ k, pk ← newPublicKey (Some k.(kj_pubkey));
                    Ok {| pubkey := pk; isSigner := k.(kj_isSigner); isWritable := k.(kj_isWritable) |}) j.(ij_keys);
  Ok {| ix_programId := programId; ix_keys := keys; ix_data := fromHex j.(ij_data) |}.
End json.

(** ** Lemmas *)

Lemma hex_value_digit n : 0 <= n < 16 → hex_value (hex_digit n) = Some n.
Proof.
  intros Hn. assert (n = 0 ∨ n = 1 ∨ n = 2 ∨ n = 3 ∨ n = 4 ∨ n = 5 ∨ n = 6 ∨ n = 7 ∨ n = 8 ∨ n = 9 ∨ n = 10 ∨ n = 11 ∨
    n = 12 ∨ n = 13 ∨ n = 14 ∨ n = 15) by lia. naive_solver.
Qed.

Lemma fromHex_toHex bs : fromHex (toHex bs) = bs.
Proof.
  induction bs as [|b bs IH]; [done|]. cbn [toHex fromHex]. pose proof (u8_val_range b) as Hb.
  rewrite !hex_value_digit, IH; [|apply Z.mod_pos_bound; lia|split; [apply Z.div_pos; lia|apply Z.div_lt_upper_bound; lia]].
  f_equal. rewrite (Z.mul_comm _ 16), <-Z.div_mod by lia. apply u8_of_Z_val.
Qed.

Lemma toHex_inj a b : toHex a = toHex b → a = b.
Proof. intros E. by rewrite <-(fromHex_toHex a), E, fromHex_toHex. Qed.

(** Hex text is lower case already. *)
Lemma toLowerCase_toHex bs : toLowerCase (toHex bs) = toHex bs.
Proof.
  induction bs as [|b bs IH]; [done|]. cbn [toHex toLowerCase]. pose proof (u8_val_range b) as Hb.
  assert (Hd : ∀ n, 0 <= n < 16 → lower_char (hex_digit n) = hex_digit n).
  { intros n Hn. assert (n = 0 ∨ n = 1 ∨ n = 2 ∨ n = 3 ∨ n = 4 ∨ n = 5 ∨ n = 6 ∨ n = 7 ∨ n = 8 ∨ n = 9 ∨ n = 10 ∨ n = 11 ∨
      n = 12 ∨ n = 13 ∨ n = 14 ∨ n = 15) by lia. naive_solver. }
  rewrite !Hd, IH; [done|apply Z.mod_pos_bound; lia|split; [apply Z.div_pos; lia|apply Z.div_lt_upper_bound; lia]].
Qed.

(** An instruction survives the trip through JSON: program, every account
    with its flags, and the data bytes. *)
Theorem instructionJson_roundtrip `{Web3} `{Base58} `{!Base58Laws} ix :
  instructionFromJson (instructionToJson ix) = Ok ix.
Proof.
  destruct ix as [pid keys data]. unfold instructionFromJson, instructionToJson. cbn [ij_programId ij_keys ij_data
    ix_programId ix_keys ix_data]. rewrite newPublicKey_toBase58, fromHex_toHex. cbn [mbind res_bind].
  eapply bind_Ok_eq; [|reflexivity]. induction keys as [|[pk s w] keys IH]; [done|].
  cbn [fmap list_fmap mapM pubkey isSigner isWritable kj_pubkey kj_isSigner kj_isWritable].
  rewrite newPublicKey_toBase58. cbn [mbind res_bind]. eapply bind_Ok_eq; [exact IH|reflexivity].
Qed.

(** Addresses as hex text: an instance of the laws. *)
Module SampleText.
Import Toy.
Definition hex_web3 : Web3 := {|
  findProgramAddressSync := @findProgramAddressSync toy_web3;
  publicKeyFromBase58 := @publicKeyFromBase58 toy_web3;
  publicKeyFromBytes := @publicKeyFromBytes toy_web3;
  toBase58 pk := toHex (toBytes pk);
  SystemProgram_programId := zero_key;
  SYSVAR_INSTRUCTIONS_PUBKEY := @SYSVAR_INSTRUCTIONS_PUBKEY toy_web3;
|}.

Definition hex_base58 : Base58 := {|
  bs58_decode text := Ok (fromHex text);
  newPublicKey text := match text with
                       | Some t => @publicKeyFromBytes toy_web3 (fromHex t)
                       | None => Throw (TypeError "undefined address")
                       end;
|}.

Lemma hex_web3_laws : @Web3Laws hex_web3.
Proof. split. apply (@publicKeyFromBytes_32 toy_web3 toy_web3_laws). Qed.

Lemma hex_base58_laws : @Base58Laws hex_web3 hex_base58.
Proof.
  split; intros pk; unfold toBase58, newPublicKey, hex_web3, hex_base58.
  - rewrite fromHex_toHex. apply publicKeyFromBytes_32.
  - pose proof (length_toBytes pk) as Hl. by destruct (toBytes pk).
Qed.

Definition sample_ix : TransactionInstruction := {|
  ix_programId := zero_key;
  ix_keys := [{| pubkey := key_of (replicate 32 x1f); isSigner := true; isWritable := false |}];
  ix_data := [x00; xff; x10] |}.
End SampleText.

Lemma instructionJson_roundtrip_witness :
  @instructionFromJson SampleText.hex_base58 (@instructionToJson SampleText.hex_web3 SampleText.sample_ix)
  = Ok SampleText.sample_ix.
Proof.
  exact (@instructionJson_roundtrip SampleText.hex_web3 SampleText.hex_base58 SampleText.hex_base58_laws SampleText.sample_ix).
Defined.
