(* ===== verification/JsonText.v ===== *)
(** JSON as text: [JSON.parse], and [JSON.stringify], with two spaces of
    indentation or without, as the demo server reads its configuration and key
    files ([apps/demo/src/lib/dapp/demo-devnet.ts]) and keeps the state of its flow
    ([apps/demo/src/app/api/live-er-flow/route.ts]), and as the page keeps its
    session.  Strings are UTF-8 texts.  The lemmas are the round trips. *)

From Stdlib Require Import Ascii.
From S2P Require Import Prelude Bytes Errors DecimalText Decimals Session LeafHistory DemoText.

Local Open Scope Z_scope.

(** ** Characters *)

Definition chr (n : nat) : ascii := ascii_of_nat n.
Definition QUOTE : ascii := "034".
Definition BACKSLASH : ascii := "092".
Definition NEWLINE : ascii := "010".

(** The white space of JSON. *)
Definition is_ws (c : ascii) : bool :=
  bool_decide (c = " "%char) || bool_decide (c = "009"%char) || bool_decide (c = NEWLINE) || bool_decide (c = "013"%char).
Fixpoint skip_ws (s : string) : string :=
  match s with String c s' => if is_ws c then skip_ws s' else s | "" => "" end.

(** ** Strings *)

(** The characters a string may not hold as they are. *)
Definition escape (c : ascii) : string :=
  let n := Z.of_N (N_of_ascii c) in
  if bool_decide (c = QUOTE) then String BACKSLASH (String QUOTE "")
  else if bool_decide (c = BACKSLASH) then String BACKSLASH (String BACKSLASH "")
  else if n =? 8 then String BACKSLASH "b"
  else if n =? 12 then String BACKSLASH "f"
  else if n =? 10 then String BACKSLASH "n"
  else if n =? 13 then String BACKSLASH "r"
  else if n =? 9 then String BACKSLASH "t"
  else if n <? 32 then String BACKSLASH ("u00" +:+ String (hex_digit (n / 16)) (String (hex_digit (n mod 16)) ""))
  else String c "".

Fixpoint escaped (s : string) : string :=
  match s with "" => "" | String c s => escape c +:+ escaped s end.
Definition quoted (s : string) : string := String QUOTE (escaped s +:+ String QUOTE "").

Definition unescape (c : ascii) : option ascii :=
  if bool_decide (c = QUOTE) then Some QUOTE
  else if bool_decide (c = BACKSLASH) then Some BACKSLASH
  else if bool_decide (c = "/"%char) then Some "/"%char
  else if bool_decide (c = "b"%char) then Some "008"%char
  else if bool_decide (c = "f"%char) then Some "012"%char
  else if bool_decide (c = "n"%char) then Some "010"%char
  else if bool_decide (c = "r"%char) then Some "013"%char
  else if bool_decide (c = "t"%char) then Some "009"%char
  else None.

(** A code unit as UTF-8. *)
Definition utf8 (u : Z) : string :=
  let byte n := ascii_of_N (Z.to_N n) in
  if u <? 128 then String (byte u) ""
  else if u <? 2048 then String (byte (192 + u / 64)) (String (byte (128 + u mod 64)) "")
  else String (byte (224 + u / 4096)) (String (byte (128 + (u / 64) mod 64)) (String (byte (128 + u mod 64)) "")).

(** The rest of a string literal, after its opening quote. *)
Fixpoint read_string (s : string) : option (string * string) :=
  match s with
  | "" => None
  | String c s =>
      if bool_decide (c = QUOTE) then Some ("", s)
      else if bool_decide (c = BACKSLASH) then
        match s with
        | String e s1 =>
            match unescape e with
            | Some c => '(t, rest) ← read_string s1; Some (String c t, rest)
            | None =>
                match s1 with
                | String a (String b (String c (String d s2))) =>
                    if bool_decide (e = "u"%char) then
                      x ← hex_value a; y ← hex_value b; z ← hex_value c; w ← hex_value d;
                      '(t, rest) ← read_string s2;
                      Some (utf8 (((x * 16 + y) * 16 + z) * 16 + w) +:+ t, rest)
                    else None
                | _ => None
                end
            end
        | "" => None
        end
      else if (N_of_ascii c <? 32)%N then None
      else '(t, rest) ← read_string s; Some (String c t, rest)
  end.

(** ** Numbers *)

Definition in_number (c : ascii) : bool :=
  match digit_of c with
  | Some _ => true
  | None => bool_decide (c = "-"%char) || bool_decide (c = "+"%char) || bool_decide (c = "."%char)
            || bool_decide (c = "e"%char) || bool_decide (c = "E"%char)
  end.

Fixpoint span_number (s : string) : string * string :=
  match s with
  | "" => ("", "")
  | String c s' => if in_number c then let '(a, b) := span_number s' in (String c a, b) else ("", s)
  end.

Fixpoint break_exp (s : string) : string * option string :=
  match s with
  | "" => ("", None)
  | String c s =>
      if bool_decide (c = "e"%char ∨ c = "E"%char) then ("", Some s)
      else let '(a, b) := break_exp s in (String c a, b)
  end.

(** Digits without a leading zero but their own. *)
Definition plain_int (s : string) : option Z :=
  ds ← decimal s;
  match ds with
  | 0 :: _ :: _ => None
  | _ => Some (dec_val ds)
  end.

(** Integers a double holds exactly are numbers of the model; another literal of
    the grammar is kept as it is written. *)
Definition read_number (lit : string) : option Json :=
  let '(minus, s) := match lit with String "-"%char s => (true, s) | _ => (false, lit) end in
  let '(mantissa, exp) := break_exp s in
  let '(int, frac) := break_dot mantissa in
  n ← plain_int int;
  _ ← (match frac with Some f => decimal f | None => Some [] end);
  _ ← (match exp with
       | Some (String c e) => decimal (if bool_decide (c = "+"%char ∨ c = "-"%char) then e else String c e)
       | Some "" => None
       | None => Some []
       end);
  Some (match frac, exp with
        | None, None => if n <=? 2 ^ 53 then JNum (if minus : bool then - n else n) else JLit lit
        | _, _ => JLit lit
        end).

(** ** [JSON.parse] *)

Fixpoint strip_word (w s : string) : option string :=
  match w, s with
  | "", _ => Some s
  | String a w, String b s => if bool_decide (a = b) then strip_word w s else None
  | _, "" => None
  end.

(** The key of a member, and its colon. *)
Definition read_key (s : string) : option (string * string) :=
  match skip_ws s with
  | String c s1 =>
      if bool_decide (c = QUOTE) then
        '(k, s2) ← read_string s1;
        match skip_ws s2 with String ":"%char s3 => Some (k, s3) | _ => None end
      else None
  | "" => None
  end.

Fixpoint read_value (fuel : nat) (s : string) : option (Json * string) :=
  match fuel with
  | O => None
  | S fuel =>
      match skip_ws s with
      | "" => None
      | String c s1 =>
          if bool_decide (c = QUOTE) then '(t, rest) ← read_string s1; Some (JStr t, rest)
          else if bool_decide (c = "{"%char) then
            match skip_ws s1 with
            | String "}"%char rest => Some (JObj [], rest)
            | _ => '(l, rest) ← read_members fuel s1; Some (JObj l, rest)
            end
          else if bool_decide (c = "["%char) then
            match skip_ws s1 with
            | String "]"%char rest => Some (JArr [], rest)
            | _ => '(l, rest) ← read_elements fuel s1; Some (JArr l, rest)
            end
          else
            match strip_word "true" (String c s1), strip_word "false" (String c s1), strip_word "null" (String c s1) with
            | Some rest, _, _ => Some (JBool true, rest)
            | _, Some rest, _ => Some (JBool false, rest)
            | _, _, Some rest => Some (JNull, rest)
            | None, None, None => let '(lit, rest) := span_number (String c s1) in j ← read_number lit; Some (j, rest)
            end
      end
  end
with read_members (fuel : nat) (s : string) : option (list (string * Json) * string) :=
  match fuel with
  | O => None
  | S fuel =>
      '(k, s1) ← read_key s;
      '(v, s2) ← read_value fuel s1;
      match skip_ws s2 with
      | String ","%char s3 => '(l, rest) ← read_members fuel s3; Some ((k, v) :: l, rest)
      | String "}"%char rest => Some ([(k, v)], rest)
      | _ => None
      end
  end
with read_elements (fuel : nat) (s : string) : option (list Json * string) :=
  match fuel with
  | O => None
  | S fuel =>
      '(v, s1) ← read_value fuel s;
      match skip_ws s1 with
      | String ","%char s2 => '(l, rest) ← read_elements fuel s2; Some (v :: l, rest)
      | String "]"%char rest => Some ([v], rest)
      | _ => None
      end
  end.

Definition JSON_read (text : string) : option Json :=
  '(j, rest) ← read_value (2 * String.length text + 2)%nat text;
  if decide (skip_ws rest = "") then Some j else None.

(** ** [JSON.stringify(j, null, 2)] and [JSON.stringify(j)]

    The indentation of a line; there is none in the compact form. *)

Definition line (ind : option string) : string := match ind with Some i => String NEWLINE i | None => "" end.
Definition deeper (ind : option string) : option string := i ← ind; Some (i +:+ "  ").
Definition colon (ind : option string) : string := if ind then ": " else ":".

Fixpoint stringify (ind : option string) (j : Json) : string :=
  let ind' := deeper ind in
  match j with
  | JNull => "null"
  | JBool b => if b then "true" else "false"
  | JNum n => bigint_string n
  | JLit lit => lit
  | JStr s => quoted s
  | JArr [] => "[]"
  | JArr l => "[" +:+ line ind' +:+ String.concat ("," +:+ line ind') (List.map (stringify ind') l) +:+ line ind +:+ "]"
  | JObj [] => "{}"
  | JObj l =>
      "{" +:+ line ind' +:+ String.concat ("," +:+ line ind') (List.map (λ kv, quoted kv.1 +:+ colon ind' +:+ stringify ind' kv.2) l)
      +:+ line ind +:+ "}"
  end.

Definition JSON_write (j : Json) : string := stringify (Some "") j.
Definition JSON_compact (j : Json) : string := stringify None j.

Example write_known :
  JSON_write (JObj [("a", JNum 12); ("b", JArr [JStr "x"; JObj []]); ("c", JObj [("d", JBool true)])]) =
  "{" +:+ line (Some "  ") +:+ quoted "a" +:+ ": 12," +:+ line (Some "  ") +:+ quoted "b" +:+ ": [" +:+ line (Some "    ") +:+ quoted "x" +:+ ","
  +:+ line (Some "    ") +:+ "{}" +:+ line (Some "  ") +:+ "]," +:+ line (Some "  ") +:+ quoted "c" +:+ ": {" +:+ line (Some "    ") +:+ quoted "d" +:+ ": true"
  +:+ line (Some "  ") +:+ "}" +:+ line (Some "") +:+ "}".
Proof. reflexivity. Qed.

Example compact_known :
  JSON_compact (JObj [("a", JNum 12); ("b", JArr [JStr "x"; JObj []])]) = "{" +:+ quoted "a" +:+ ":12," +:+ quoted "b" +:+ ":[" +:+ quoted "x" +:+ ",{}]}".
Proof. reflexivity. Qed.

Example read_known : JSON_read "[1, -20 ,0.5, null,[ ]]" = Some (JArr [JNum 1; JNum (-20); JLit "0.5"; JNull; JArr []]).
Proof. reflexivity. Qed.

Example read_refuses : JSON_read "[1,]" = None ∧ JSON_read "01" = None ∧ JSON_read "{}x" = None.
Proof. split_and!; reflexivity. Qed.

(** ** The round trip *)

Section json_ind.
Context (P : Json → Prop).
Hypothesis (Hnull : P JNull) (Hbool : ∀ b, P (JBool b)) (Hnum : ∀ n, P (JNum n)) (Hlit : ∀ s, P (JLit s)) (Hstr : ∀ s, P (JStr s)).
Hypothesis (Harr : ∀ l, Forall P l → P (JArr l)) (Hobj : ∀ l, Forall (λ kv, P kv.2) l → P (JObj l)).

Fixpoint Json_nested_ind (j : Json) : P j :=
  match j with
  | JNull => Hnull | JBool b => Hbool b | JNum n => Hnum n | JLit s => Hlit s | JStr s => Hstr s
  | JArr l => Harr l ((fix go l : Forall P l :=
      match l with [] => Forall_nil_2 _ | j :: l => Forall_cons_2 _ _ _ (Json_nested_ind j) (go l) end) l)
  | JObj l => Hobj l ((fix go l : Forall (λ kv, P kv.2) l :=
      match l with [] => Forall_nil_2 _ | kv :: l => Forall_cons_2 _ _ _ (Json_nested_ind kv.2) (go l) end) l)
  end.
End json_ind.

(** Values whose numbers are exact integers. *)
Inductive writable : Json → Prop :=
  | writable_null : writable JNull
  | writable_bool b : writable (JBool b)
  | writable_num n : Z.abs n <= 2 ^ 53 → writable (JNum n)
  | writable_str s : writable (JStr s)
  | writable_arr l : Forall writable l → writable (JArr l)
  | writable_obj l : Forall (λ kv, writable kv.2) l → writable (JObj l).

Lemma read_escape c s : read_string (escape c +:+ s) = ('(t, rest) ← read_string s; Some (String c t, rest)).
Proof. destruct c as [[] [] [] [] [] [] [] []]; reflexivity. Qed.

Lemma read_quoted s rest : read_string (escaped s +:+ String QUOTE rest) = Some (s, rest).
Proof.
  induction s as [|c s IH]; [reflexivity|]. cbn [escaped]. rewrite str_app_assoc, read_escape, IH. reflexivity.
Qed.

(** What may follow a value. *)
Definition ends (rest : string) : Prop := match rest with String c _ => in_number c = false | "" => True end.

Lemma number_head c : in_number c = true →
  is_ws c = false ∧ bool_decide (c = QUOTE) = false ∧ bool_decide (c = "{"%char) = false ∧ bool_decide (c = "["%char) = false ∧
  bool_decide ("t"%char = c) = false ∧ bool_decide ("f"%char = c) = false ∧ bool_decide ("n"%char = c) = false.
Proof. destruct c as [[] [] [] [] [] [] [] []]; intros H; first [discriminate H | (split_and!; reflexivity)]. Qed.

Lemma digit_head c d : digit_of c = Some d →
  in_number c = true ∧ bool_decide (c = "e"%char ∨ c = "E"%char) = false ∧ c ≠ "."%char ∧ c ≠ "-"%char.
Proof.
  intros Hd. split; [unfold in_number; by rewrite Hd|]. split; [apply bool_decide_eq_false_2; intros [-> | ->]; discriminate|].
  split; intros ->; discriminate.
Qed.

Lemma digits_plain s ds rest : digits s = Some ds → ends rest →
  span_number (s +:+ rest) = (s, rest) ∧ break_exp s = (s, None) ∧ break_dot s = (s, None).
Proof.
  intros Hs Hr. revert ds Hs. induction s as [|c s IH]; intros ds; cbn [digits].
  - intros _. split; [|done]. destruct rest as [|c rest]; [done|].
    change ("" +:+ String c rest) with (String c rest). cbn [ends] in Hr. cbn [span_number]. by rewrite Hr.
  - destruct (digit_of c) as [d|] eqn:Hc; [|done]. destruct (digits s) as [ds'|]; [|done]. intros _.
    destruct (digit_head c d Hc) as (Hn & He & Hdot & _), (IH _ eq_refl) as (I1 & I2 & I3).
    change (String c s +:+ rest) with (String c (s +:+ rest)). cbn [span_number break_exp break_dot].
    rewrite Hn, I1, He, I2, I3, decide_False by done. done.
Qed.

Lemma plain_int_pretty x : 0 <= x → plain_int (pretty x) = Some x.
Proof.
  intros Hx. destruct (digits_pretty x Hx) as (ds & Hd & Hne & Hv & Hh & Hz). unfold plain_int, decimal. rewrite Hd. cbn.
  rewrite decide_False by done. cbn. destruct (decide (x = 0)) as [->|Hx0]; [by rewrite Hz|].
  rewrite Hv. destruct ds as [|d [|d2 ds]]; [done|idtac|].
    { by destruct d. }
    specialize (Hh Hx0). destruct d; [by destruct Hh|done..].
Qed.

Lemma pretty_head x : 0 <= x → ∃ c s d, pretty x = String c s ∧ digit_of c = Some d.
Proof.
  intros Hx. destruct (digits_pretty x Hx) as (ds & Hd & Hne & _). destruct (pretty x) as [|c s].
  { cbn in Hd. injection Hd as Hd. congruence. }
  cbn [digits] in Hd. destruct (digit_of c) as [d|] eqn:Hc; [|discriminate Hd]. by exists c, s, d.
Qed.

Lemma bigint_text_read n rest : Z.abs n <= 2 ^ 53 → ends rest →
  span_number (bigint_string n +:+ rest) = (bigint_string n, rest) ∧ read_number (bigint_string n) = Some (JNum n) ∧
  ∃ c s, bigint_string n = String c s ∧ in_number c = true.
Proof.
  intros Hn Hr. unfold bigint_string. destruct (Z.ltb_spec n 0) as [Hneg|Hpos].
  - destruct (digits_pretty (- n) ltac:(lia)) as (ds & Hd & _). destruct (digits_plain _ _ rest Hd Hr) as (S1 & E1 & D1).
    change ("-" +:+ pretty (- n)) with (String "-" (pretty (- n))).
    change (String "-" (pretty (- n)) +:+ rest) with (String "-" (pretty (- n) +:+ rest)). cbn [span_number].
    change (in_number "-") with true. cbn beta iota. rewrite S1. split; [done|]. split; [|by do 2 eexists].
    unfold read_number. rewrite E1, D1, plain_int_pretty by lia. cbn. rewrite (proj2 (Z.leb_le (- n) _)) by lia.
    by rewrite Z.opp_involutive.
  - destruct (digits_pretty n Hpos) as (ds & Hd & _). destruct (digits_plain _ _ rest Hd Hr) as (S1 & E1 & D1).
    rewrite S1. split; [done|]. destruct (pretty_head n Hpos) as (c & s & d & Hp & Hc). destruct (digit_head c d Hc) as (Hin & _ & _ & Hm).
    split; [|exists c, s; by split]. unfold read_number.
    assert (Hm' : (match pretty n with String "-"%char s => (true, s) | _ => (false, pretty n) end) = (false, pretty n)).
    { rewrite Hp. destruct c as [[] [] [] [] [] [] [] []]; done. }
    rewrite Hm', E1, D1, plain_int_pretty by lia. cbn. by rewrite (proj2 (Z.leb_le n _)) by lia.
Qed.

(** The first character of a text is not white space, nor a closing bracket. *)
Definition starts (s : string) : Prop :=
  match s with String c _ => is_ws c = false ∧ c ≠ "]"%char ∧ c ≠ "}"%char | "" => False end.

Lemma skip_starts s t : starts s → skip_ws (s +:+ t) = s +:+ t.
Proof.
  destruct s as [|c s]; [done|]. intros [Hc _]. change (String c s +:+ t) with (String c (s +:+ t)). cbn [skip_ws]. by rewrite Hc.
Qed.

(** The indentation is blank. *)
Definition blank (ind : option string) : Prop := match ind with Some i => skip_ws i = "" | None => True end.

Lemma skip_line ind t : blank ind → skip_ws (line ind +:+ t) = skip_ws t.
Proof.
  destruct ind as [ind|]; [|done]. cbn [blank line]. intros Hi. change (String NEWLINE ind +:+ t) with (String NEWLINE (ind +:+ t)).
  cbn [skip_ws]. change (is_ws NEWLINE) with true. cbn beta iota. induction ind as [|c ind IH]; [done|]. cbn [skip_ws] in Hi.
  change (String c ind +:+ t) with (String c (ind +:+ t)). cbn [skip_ws]. destruct (is_ws c); [by apply IH|discriminate Hi].
Qed.

Lemma skip_deeper ind : blank ind → blank (deeper ind).
Proof.
  destruct ind as [ind|]; [|done]. cbn [blank deeper mbind option_bind]. induction ind as [|c ind IH]; [done|]. cbn [skip_ws]. intros Hi.
  change (String c ind +:+ "  ") with (String c (ind +:+ "  ")). cbn [skip_ws]. destruct (is_ws c); [by apply IH|discriminate Hi].
Qed.

Lemma quoted_starts s : starts (quoted s).
Proof. by repeat split. Qed.

Lemma in_number_starts c s : in_number c = true → starts (String c s).
Proof. destruct c as [[] [] [] [] [] [] [] []]; intros H; first [discriminate H | by repeat split]. Qed.

Lemma stringify_starts ind j : writable j → starts (stringify ind j).
Proof.
  destruct 1 as [|[]|n Hn|s|l Hl|l Hl]; cbn [stringify]; try by repeat split.
  - destruct (bigint_text_read n "" Hn I) as (_ & _ & c & s & -> & Hc). by apply in_number_starts.
  - destruct l; by repeat split.
  - destruct l; by repeat split.
Qed.

(** How much fuel reading a text back takes. *)
Fixpoint cost (j : Json) : nat :=
  match j with
  | JArr l => S (sum_list (List.map (λ j, S (cost j)) l))
  | JObj l => S (sum_list (List.map (λ kv, S (cost kv.2)) l))
  | _ => 1
  end.

Lemma read_value_skip fuel s t : skip_ws s = skip_ws t → read_value fuel s = read_value fuel t.
Proof. intros E. destruct fuel; [done|]. cbn [read_value]. by rewrite E. Qed.

(** What follows the colon. *)
Definition gap (ind : option string) : string := if ind then " " else "".

Lemma read_space ind fuel s : read_value fuel (gap ind +:+ s) = read_value fuel s.
Proof. apply read_value_skip. by destruct ind. Qed.

(** [j] is read back from its text under [ind], whatever follows. *)
Definition reads_back (ind : option string) (j : Json) : Prop :=
  ∀ fuel rest, (cost j ≤ fuel)%nat → ends rest → read_value fuel (stringify ind j +:+ rest) = Some (j, rest).

Lemma read_line ind' j fuel rest : blank ind' → writable j → reads_back ind' j → (cost j ≤ fuel)%nat → ends rest →
  read_value fuel (line ind' +:+ stringify ind' j +:+ rest) = Some (j, rest).
Proof.
  intros Hi Hw Hj Hc Hr. rewrite (read_value_skip _ _ (stringify ind' j +:+ rest)); [by apply Hj|]. by apply skip_line.
Qed.

Lemma skip_close ind c rest : blank ind → is_ws c = false → skip_ws (line ind +:+ String c rest) = String c rest.
Proof. intros Hi Hc. rewrite skip_line by done. cbn [skip_ws]. by rewrite Hc. Qed.

Lemma ends_close ind c rest : ends (String c rest) → ends (line ind +:+ String c rest).
Proof. by destruct ind. Qed.

Lemma concat_two sep (x y : string) ls : String.concat sep (x :: y :: ls) = x +:+ sep +:+ String.concat sep (y :: ls).
Proof. reflexivity. Qed.

Lemma read_elements_text ind ind' l rest fuel : blank ind → blank ind' →
  Forall writable l → Forall (reads_back ind') l → l ≠ [] → (sum_list (List.map (λ j, S (cost j)) l) ≤ fuel)%nat →
  read_elements fuel (line ind' +:+ String.concat ("," +:+ line ind') (List.map (stringify ind') l) +:+ line ind +:+ String "]" rest)
  = Some (l, rest).
Proof.
  intros Hi Hi' Hw Hb Hne. revert fuel. induction l as [|j l IH]; [done|]. intros fuel Hf.
  apply Forall_cons in Hw as [Wj Wl], Hb as [Bj Bl]. cbn [List.map sum_list] in Hf. destruct fuel as [|fuel]; [cbn in Hf; lia|].
  cbn [read_elements]. destruct l as [|j2 l].
  - cbn [List.map String.concat]. rewrite read_line; [|done|done|done|cbn in Hf; lia|by apply ends_close]. cbn [mbind option_bind].
    by rewrite skip_close.
  - cbn [List.map] in *. rewrite concat_two, !str_app_assoc, read_line; [|done|done|done|cbn in Hf; lia|done]. cbn [mbind option_bind].
    change (skip_ws ("," +:+ ?t)) with ("," +:+ t). change ("," +:+ ?t) with (String "," t). cbn beta iota.
    rewrite IH; [done|done|done|done|cbn in Hf |- *; lia].
Qed.

Definition member (ind' : option string) (kv : string * Json) : string := quoted kv.1 +:+ colon ind' +:+ stringify ind' kv.2.

Lemma read_member_key ind' k j rest : blank ind' → writable j →
  read_key (line ind' +:+ member ind' (k, j) +:+ rest) = Some (k, gap ind' +:+ stringify ind' j +:+ rest).
Proof.
  intros Hi Hw. unfold read_key, member. cbn [fst snd]. rewrite !str_app_assoc, skip_line, skip_starts by (done || apply quoted_starts).
  unfold quoted. change (String QUOTE ?a +:+ ?b) with (String QUOTE (a +:+ b)). cbn beta iota. rewrite bool_decide_eq_true_2 by done.
  rewrite str_app_assoc. change (String QUOTE "" +:+ ?b) with (String QUOTE b). rewrite read_quoted. by destruct ind'.
Qed.

Lemma read_members_text ind ind' l rest fuel : blank ind → blank ind' →
  Forall (λ kv, writable kv.2) l → Forall (λ kv, reads_back ind' kv.2) l → l ≠ [] →
  (sum_list (List.map (λ kv, S (cost kv.2)) l) ≤ fuel)%nat →
  read_members fuel (line ind' +:+ String.concat ("," +:+ line ind') (List.map (member ind') l) +:+ line ind +:+ String "}" rest)
  = Some (l, rest).
Proof.
  intros Hi Hi' Hw Hb Hne. revert fuel. induction l as [|[k j] l IH]; [done|]. intros fuel Hf.
  apply Forall_cons in Hw as [Wj Wl], Hb as [Bj Bl]. cbn [List.map sum_list snd] in *. destruct fuel as [|fuel]; [cbn in Hf; lia|].
  cbn [read_members].
  destruct l as [|kv l].
  - cbn [List.map String.concat]. rewrite read_member_key by done. cbn [mbind option_bind].
    rewrite read_space, Bj; [|cbn in Hf; lia|by apply ends_close]. cbn [mbind option_bind]. by rewrite skip_close.
  - cbn [List.map] in *. rewrite concat_two, !str_app_assoc, read_member_key by done. cbn [mbind option_bind]. rewrite read_space, Bj; [|cbn in Hf; lia|done].
    cbn [mbind option_bind]. change (skip_ws ("," +:+ ?t)) with ("," +:+ t). change ("," +:+ ?t) with (String "," t). cbn beta iota.
    rewrite IH; [done|done|done|done|cbn in Hf |- *; lia].
Qed.

Lemma concat_head sep x ls : ∃ t, String.concat sep (x :: ls) = x +:+ t.
Proof. destruct ls as [|y ls]; [exists ""|by eexists]. cbn [String.concat]. by rewrite str_app_nil. Qed.

Lemma array_open {B} ind x ls t (a : string → B) b : blank ind → starts x →
  (match skip_ws (line ind +:+ String.concat ("," +:+ line ind) (x :: ls) +:+ t) with String "]"%char r => a r | _ => b end) = b.
Proof.
  intros Hi Hx. destruct (concat_head ("," +:+ line ind) x ls) as [u ->]. rewrite skip_line, !str_app_assoc, skip_starts by done.
  destruct x as [|c x]; [done|]. destruct Hx as (_ & Hc & _). change (String c x +:+ ?r) with (String c (x +:+ r)). by destruct c as [[] [] [] [] [] [] [] []].
Qed.

Lemma object_open {B} ind x ls t (a : string → B) b : blank ind → starts x →
  (match skip_ws (line ind +:+ String.concat ("," +:+ line ind) (x :: ls) +:+ t) with String "}"%char r => a r | _ => b end) = b.
Proof.
  intros Hi Hx. destruct (concat_head ("," +:+ line ind) x ls) as [u ->]. rewrite skip_line, !str_app_assoc, skip_starts by done.
  destruct x as [|c x]; [done|]. destruct Hx as (_ & _ & Hc). change (String c x +:+ ?r) with (String c (x +:+ r)). by destruct c as [[] [] [] [] [] [] [] []].
Qed.

Lemma member_starts ind kv : starts (member ind kv).
Proof. by repeat split. Qed.

Lemma length_str_app (a b : string) : String.length (a +:+ b) = (String.length a + String.length b)%nat.
Proof. induction a as [|c a IH]; [done|]. change (S (String.length (a +:+ b)) = S (String.length a) + String.length b)%nat. by rewrite IH. Qed.

Lemma cost_concat {A} (f : A → nat) (g : A → string) sep l : Forall (λ a, f a ≤ String.length (g a))%nat l → (1 ≤ String.length sep)%nat →
  (sum_list (List.map (λ a, S (f a)) l) ≤ S (String.length (String.concat sep (List.map g l))))%nat.
Proof.
  intros Hl Hs. induction Hl as [|a l Ha Hl IH]; [cbn; lia|]. destruct l as [|b l]; [cbn in *; lia|].
  change (List.map g (a :: b :: l)) with (g a :: g b :: List.map g l). rewrite concat_two, !length_str_app.
  change (String.concat sep (g b :: List.map g l)) with (String.concat sep (List.map g (b :: l))).
  change (sum_list (List.map (λ a, S (f a)) (a :: b :: l))) with (S (f a) + sum_list (List.map (λ a, S (f a)) (b :: l)))%nat. lia.
Qed.

Lemma stringify_reads_back j : writable j → ∀ ind, blank ind → reads_back ind j.
Proof.
  induction j as [|b|n|lit|s|l IH|l IH] using Json_nested_ind; intros Hw ind Hi fuel rest Hf Hr;
    (destruct fuel as [|fuel]; [cbn in Hf; lia|]).
  - reflexivity.
  - by destruct b.
  - inversion Hw as [| |? Hn| | |]; subst. cbn [stringify read_value].
    destruct (bigint_text_read n rest Hn Hr) as (Hs & Hread & c & s & Ht & Hc).
    assert (Hsk : skip_ws (bigint_string n +:+ rest) = String c (s +:+ rest)).
    { rewrite Ht. change (String c s +:+ rest) with (String c (s +:+ rest)). cbn [skip_ws].
      by destruct (number_head c Hc) as (-> & _). }
    rewrite Hsk. destruct (number_head c Hc) as (_ & -> & -> & -> & Ht1 & Hf1 & Hn1).
    cbn [strip_word]. rewrite Ht1, Hf1, Hn1. change (String c (s +:+ rest)) with (String c s +:+ rest). rewrite <-Ht, Hs.
    cbn beta iota. by rewrite Hread.
  - inversion Hw.
  - cbn [stringify read_value]. rewrite skip_starts by apply quoted_starts. unfold quoted.
    change (String QUOTE ?a +:+ ?b) with (String QUOTE (a +:+ b)). cbn beta iota. rewrite bool_decide_eq_true_2 by done.
    rewrite str_app_assoc. change (String QUOTE "" +:+ ?b) with (String QUOTE b). by rewrite read_quoted.
  - inversion Hw as [| | | |? Wl|]; subst. destruct l as [|j l]; [reflexivity|].
    assert (Hb : Forall (reads_back (deeper ind)) (j :: l)).
    { apply Forall_forall. intros x Hx. rewrite Forall_forall in IH, Wl. apply IH; [done|by apply Wl|by apply skip_deeper]. }
    pose proof (read_elements_text ind (deeper ind) (j :: l) rest fuel Hi (skip_deeper _ Hi) Wl Hb ltac:(done)
      ltac:(cbn [cost] in Hf; lia)) as He.
    change (stringify ind (JArr (j :: l))) with
      ("[" +:+ line (deeper ind) +:+ String.concat ("," +:+ line (deeper ind)) (List.map (stringify (deeper ind)) (j :: l)) +:+ line ind +:+ "]").
    rewrite !str_app_assoc. change ("]" +:+ rest) with (String "]" rest). cbn [read_value].
    change (skip_ws ("[" +:+ ?t)) with (String "[" t). cbn beta iota.
    change (bool_decide ("["%char = QUOTE)) with false. change (bool_decide ("["%char = "{"%char)) with false.
    change (bool_decide ("["%char = "["%char)) with true. cbn beta iota.
    etransitivity; [apply array_open; [by apply skip_deeper|by inversion Wl; apply stringify_starts]|]. by rewrite He.
  - inversion Hw as [| | | | |? Wl]; subst. destruct l as [|[k j] l]; [reflexivity|].
    assert (Hb : Forall (λ kv, reads_back (deeper ind) kv.2) ((k, j) :: l)).
    { apply Forall_forall. intros x Hx. rewrite Forall_forall in IH, Wl. apply IH; [done|by apply Wl|by apply skip_deeper]. }
    pose proof (read_members_text ind (deeper ind) ((k, j) :: l) rest fuel Hi (skip_deeper _ Hi) Wl Hb ltac:(done)
      ltac:(cbn [cost] in Hf; lia)) as He.
    change (stringify ind (JObj ((k, j) :: l))) with
      ("{" +:+ line (deeper ind) +:+ String.concat ("," +:+ line (deeper ind)) (List.map (member (deeper ind)) ((k, j) :: l)) +:+ line ind +:+ "}").
    rewrite !str_app_assoc. change ("}" +:+ rest) with (String "}" rest). cbn [read_value].
    change (skip_ws ("{" +:+ ?t)) with (String "{" t). cbn beta iota.
    change (bool_decide ("{"%char = QUOTE)) with false. change (bool_decide ("{"%char = "{"%char)) with true. cbn beta iota.
    etransitivity; [apply object_open; [by apply skip_deeper|apply member_starts]|]. by rewrite He.
Qed.

(** The fuel of [JSON_read] is enough. *)
Lemma cost_length j : writable j → ∀ ind, (cost j ≤ String.length (stringify ind j))%nat.
Proof.
  induction j as [|b|n|lit|s|l IH|l IH] using Json_nested_ind; intros Hw ind.
  - cbn. lia.
  - destruct b; cbn; lia.
  - inversion Hw as [| |? Hn| | |]; subst. destruct (bigint_text_read n "" Hn I) as (_ & _ & c & s & Ht & _). cbn [cost stringify].
    rewrite Ht. cbn. lia.
  - inversion Hw.
  - cbn. lia.
  - inversion Hw as [| | | |? Wl|]; subst. destruct l as [|j l]; [cbn; lia|].
    change (stringify ind (JArr (j :: l))) with
      ("[" +:+ line (deeper ind) +:+ String.concat ("," +:+ line (deeper ind)) (List.map (stringify (deeper ind)) (j :: l)) +:+ line ind +:+ "]").
    rewrite !length_str_app. cbn [cost String.length line].
    assert (Hc : (sum_list (List.map (λ j, S (cost j)) (j :: l)) ≤ S (String.length (String.concat ("," +:+ line (deeper ind)) (List.map (stringify (deeper ind)) (j :: l)))))%nat);
      [|lia].
    clear Hw. apply cost_concat; [|rewrite length_str_app; apply le_n_S, Nat.le_0_l]. rewrite Forall_forall in IH, Wl. apply Forall_forall. intros x Hx. apply IH; [done|by apply Wl].
  - inversion Hw as [| | | | |? Wl]; subst. destruct l as [|kv l]; [cbn; lia|].
    change (stringify ind (JObj (kv :: l))) with
      ("{" +:+ line (deeper ind) +:+ String.concat ("," +:+ line (deeper ind)) (List.map (member (deeper ind)) (kv :: l)) +:+ line ind +:+ "}").
    rewrite !length_str_app. cbn [cost String.length line].
    assert (Hc : (sum_list (List.map (λ kv, S (cost kv.2)) (kv :: l)) ≤ S (String.length (String.concat ("," +:+ line (deeper ind)) (List.map (member (deeper ind)) (kv :: l)))))%nat);
      [|lia].
    clear Hw. apply (cost_concat (λ kv, cost kv.2)); [|rewrite length_str_app; apply le_n_S, Nat.le_0_l]. rewrite Forall_forall in IH, Wl. apply Forall_forall. intros x Hx.
    unfold member. rewrite !length_str_app. pose proof (IH x Hx (Wl x Hx) (deeper ind)). lia.
Qed.

(** Text that [JSON.stringify] wrote is read back by [JSON.parse] as it was. *)
Lemma stringify_roundtrip ind j : blank ind → writable j → JSON_read (stringify ind j) = Some j.
Proof.
  intros Hi Hw. unfold JSON_read. pose proof (stringify_reads_back j Hw ind Hi (2 * String.length (stringify ind j) + 2)%nat ""
    ltac:(pose proof (cost_length j Hw ind); lia) I) as Hr.
  rewrite str_app_nil in Hr. rewrite Hr. cbn [mbind option_bind]. by rewrite decide_True.
Qed.

Lemma JSON_roundtrip j : writable j → JSON_read (JSON_write j) = Some j.
Proof. by apply stringify_roundtrip. Qed.
Lemma compact_roundtrip j : writable j → JSON_read (JSON_compact j) = Some j.
Proof. by apply stringify_roundtrip. Qed.
