(* ===== verification/DemoKeys.v ===== *)
(** Key material of the demo server: the secrets of settlement notes
    ([apps/demo/src/lib/dapp/change-note-derive.ts], mirrored from
    [programs/matching_engine/src/state/change_note.rs]), the persona seeds
    ([persona-client.ts]) and the master seed of a Phantom signature
    ([phantom-verify.ts]). *)

From S2P Require Import Prelude Bytes Errors Externals Keys Note Merkle MerkleShadow VaultTree Deposit LeafHistory.

Local Open Scope Z_scope.

(** ** [tweetnacl] *)

Class Nacl := {
  nacl_sign : bytes → bytes → bytes;              (** message, secret key *)
  nacl_verify : bytes → bytes → bytes → bool;     (** message, signature, public key *)
  nacl_seed_key : bytes → bytes;                  (** public key of [keyPair.fromSeed] *)
}.

(** ** [change-note-derive.ts] *)

Definition TRADE_ROLE_BUYER : Z := 193.     (** 0xc1 *)
Definition TRADE_ROLE_SELLER : Z := 209.    (** 0xd1 *)
Definition FEE_ROLE_QUOTE : Z := 252.       (** 0xfc *)

(** [d[0] = 0; d[1] &= 0x0f;]: a write past the end of a typed array does nothing. *)
Definition mask_field (d : bytes) : bytes :=
  let d := <[0%nat := x00]> d in
  match d !! 1%nat with Some b => <[1%nat := u8_of_Z (Z.land (u8_val b) 15)]> d | None => d end.

Section derive.
Context `{NodeCrypto}.

Definition deriveNonce (matchId role : Z) : bytes :=
  let mid := le_bytes 8 matchId in
  let d := sha256 (ascii_bytes "nyx-change-nonce" ++ mid ++ [u8_of_Z role]) in
  mask_field d.

Definition deriveBlinding (matchId role : Z) : bytes :=
  let mid := le_bytes 8 matchId in
  let d := sha256 (ascii_bytes "nyx-change-blind" ++ mid ++ [u8_of_Z role]) in
  mask_field d.

(** [BigInt("0x" + hex)] *)
Definition be32ToBigInt (x : bytes) : res Z := bytesToBigInt x.

(** [setBigUint64(8, matchId, true)] on 16 zero bytes. *)
Definition matchIdToPayloadBytes (matchId : Z) : bytes := replicate 8 x00 ++ le_bytes 8 matchId.

(** *** [change_note.rs]

    [hashv] hashes the concatenation of its slices; the arguments are a [u64]
    and a [u8]. *)
Definition derive_nonce (match_id role : Z) : bytes :=
  let h := sha256 (concat [ascii_bytes "nyx-change-nonce"; u64LE match_id; [u8_of_Z role]]) in
  <[1%nat := u8_of_Z (Z.land (u8_val (nth 1 h x00)) 15)]> (<[0%nat := x00]> h).
Definition derive_blinding (match_id role : Z) : bytes :=
  let h := sha256 (concat [ascii_bytes "nyx-change-blind"; u64LE match_id; [u8_of_Z role]]) in
  <[1%nat := u8_of_Z (Z.land (u8_val (nth 1 h x00)) 15)]> (<[0%nat := x00]> h).

(** ** [persona-client.ts]: [actorSeed] *)
Definition actorSeed (role : string) (publicKey : PublicKey) : bytes :=
  let h1 := sha256 (ascii_bytes ("demo-" +:+ role +:+ "-seed-v1") ++ toBytes publicKey) in
  let h2 := sha256 (ascii_bytes ("demo-" +:+ role +:+ "-seed-v2") ++ toBytes publicKey) in
  h1 ++ h2.

(** ** [phantom-verify.ts] *)

Context `{Base58} `{Nacl}.

Definition SEED_MESSAGE : bytes := ascii_bytes "NYX_DARKPOOL_SEED_V1".

Record VerifiedSeed := { vf_ownerPubkey : bytes; vf_signature : bytes; vf_seed : bytes }.

Definition verifyPhantomSeedSignature (phantomSignatureBase58 ownerPubkeyBase58 : string) : res VerifiedSeed :=
  signature ← bs58_decode phantomSignatureBase58;
  ownerPubkey ← bs58_decode ownerPubkeyBase58;
  _ ← throw_if (negb (length signature =? 64)%nat || negb (length ownerPubkey =? 32)%nat)
        (Error ("expected 64B sig + 32B pubkey, got " +:+ pretty (length signature) +:+ "B + "
                +:+ pretty (length ownerPubkey) +:+ "B"));
  _ ← throw_if (negb (nacl_verify SEED_MESSAGE signature ownerPubkey))
        (Error "Phantom signature does not verify against owner pubkey");
  let seed := take MASTER_SEED_BYTES (sha512 signature) in
  Ok {| vf_ownerPubkey := ownerPubkey; vf_signature := signature; vf_seed := seed |}.
End derive.

(** ** Lemmas *)

Section derive_lemmas.
Context `{NodeCrypto} `{!NodeCryptoLaws}.

(** A masked digest is a field element: its top byte is zero and 4 bits of the
    next are. *)
Lemma mask_field_32 d : length d = 32%nat →
  mask_field d = <[1%nat := u8_of_Z (Z.land (u8_val (nth 1 d x00)) 15)]> (<[0%nat := x00]> d) ∧
  length (mask_field d) = 32%nat ∧ be_val (mask_field d) < 2 ^ 244.
Proof.
  intros Hl. destruct d as [|b0 [|b1 d]]; [done|done|].
  unfold mask_field. cbn [insert list_insert lookup list_lookup nth]. split; [done|]. split; [done|].
  change (x00 :: u8_of_Z (Z.land (u8_val b1) 15) :: d) with ([x00] ++ [u8_of_Z (Z.land (u8_val b1) 15)] ++ d).
  cbn [length] in Hl. rewrite !be_val_app, length_app. replace (length d) with 30%nat by lia.
  pose proof (be_val_range d) as Hd. replace (length d) with 30%nat in Hd by lia.
  assert (H1 : be_val [u8_of_Z (Z.land (u8_val b1) 15)] < 16).
  { change (be_val [?b]) with (be_step 0 b). rewrite be_step_arith, u8_val_of_Z.
    change 15 with (Z.ones 4). rewrite Z.land_ones by lia. pose proof (Z.mod_pos_bound (u8_val b1) (2 ^ 4) ltac:(lia)).
    rewrite Z.mod_small; lia. }
  change (be_val [x00]) with 0. change (Z.of_nat 30) with 30 in *. nia.
Qed.

Lemma derived_sha m : length (sha256 m) = 32%nat.
Proof. apply length_sha256. Qed.

Lemma masked_in_field d : length d = 32%nat →
  ∃ x, be32ToBigInt (mask_field d) = Ok x ∧ 0 <= x < BN254_R ∧ bn254ToBE32 x = Ok (mask_field d).
Proof.
  intros Hl. destruct (mask_field_32 d Hl) as (_ & Hm & Hv). exists (be_val (mask_field d)).
  assert (Hr : 0 <= be_val (mask_field d) < BN254_R).
  { split; [apply be_val_range|]. eapply Z.lt_trans; [exact Hv|]. reflexivity. }
  split; [by apply bytesToBigInt_32|]. split; [done|]. rewrite bn254ToBE32_in by done. by rewrite be_bytes_be_val.
Qed.
End derive_lemmas.

(** The secrets of a settlement note are the ones the matching engine
    derives: for every match id and role, reduced to [u64] and [u8] as on
    chain, nonce and blinding factor are the program's bytes, and both are
    canonical field elements, so that reading them as integers and serialising
    them again for a note gives the same bytes. *)
Theorem note_secrets_match_chain `{NodeCrypto} `{!NodeCryptoLaws} matchId role :
  deriveNonce matchId role = derive_nonce (matchId mod U64) (role mod 256) ∧
  deriveBlinding matchId role = derive_blinding (matchId mod U64) (role mod 256) ∧
  (∃ x, be32ToBigInt (deriveNonce matchId role) = Ok x ∧ 0 <= x < BN254_R ∧
        bn254ToBE32 x = Ok (deriveNonce matchId role)) ∧
  (∃ x, be32ToBigInt (deriveBlinding matchId role) = Ok x ∧ 0 <= x < BN254_R ∧
        bn254ToBE32 x = Ok (deriveBlinding matchId role)).
Proof.
  assert (Hm : u64LE (matchId mod U64) = le_bytes 8 matchId) by apply (le_bytes_mod 8).
  unfold deriveNonce, deriveBlinding, derive_nonce, derive_blinding. rewrite Hm, u8_of_Z_mod. cbn [concat].
  rewrite !app_nil_r. split; [apply mask_field_32, derived_sha|]. split; [apply mask_field_32, derived_sha|].
  split; apply masked_in_field, derived_sha.
Qed.

Lemma note_secrets_match_chain_witness :
  @deriveNonce Toy.toy_crypto 5 TRADE_ROLE_BUYER = @derive_nonce Toy.toy_crypto 5 TRADE_ROLE_BUYER.
Proof. exact (proj1 (@note_secrets_match_chain Toy.toy_crypto Toy.toy_crypto_laws 5 TRADE_ROLE_BUYER)). Defined.

(** The demo server and the SDK agree on a Phantom wallet's identity: a
    signature the server accepts is a 64-byte signature of the seed message that
    verifies under the 32-byte owner key, and the 64-byte master seed it derives
    is the one a client in wallet-signature mode resolves when its wallet
    returns that signature. *)
Theorem phantom_seed_matches_client `{NodeCrypto} `{!NodeCryptoLaws} `{Base58} `{Nacl} sig58 owner58 v :
  verifyPhantomSeedSignature sig58 owner58 = Ok v →
  bs58_decode sig58 = Ok v.(vf_signature) ∧ bs58_decode owner58 = Ok v.(vf_ownerPubkey) ∧
  length v.(vf_signature) = 64%nat ∧ length v.(vf_ownerPubkey) = 32%nat ∧
  nacl_verify SEED_MESSAGE v.(vf_signature) v.(vf_ownerPubkey) = true ∧ length v.(vf_seed) = 64%nat ∧
  ∀ S (randomBytes : nat → M S bytes) signMessage s s',
    signMessage SEED_MESSAGE s = (Ok v.(vf_signature), s') →
    resolveMasterSeed randomBytes (wallet_signature signMessage None) s = (Ok v.(vf_seed), s').
Proof.
  unfold verifyPhantomSeedSignature. intros Hv. inv_res. subst v. cbn [vf_signature vf_ownerPubkey vf_seed].
  match goal with E : _ || _ = false |- _ => apply orb_false_iff in E as [L1%negb_false_iff%Nat.eqb_eq L2%negb_false_iff%Nat.eqb_eq] end.
  match goal with E : negb (nacl_verify _ _ _) = false |- _ => apply negb_false_iff in E; rename E into Hver end.
  do 5 (split; [assumption|]). split; [by rewrite length_take, length_sha512|].
  intros S randomBytes signMessage s s' Hs. unfold resolveMasterSeed. cbn [default]. by erewrite M_bind_run by exact Hs.
Qed.

(** A wallet whose signature is 64 zero bytes. *)
Module SamplePhantom.
Definition nacl : Nacl := {| nacl_sign _ _ := replicate 64 x00; nacl_verify _ _ _ := true; nacl_seed_key s := s |}.
Definition base58 : Base58 := {| bs58_decode text := Ok (ascii_bytes text); newPublicKey _ := Ok Toy.zero_key |}.
Definition sig58 : string := "0123456789012345678901234567890123456789012345678901234567890123".
Definition owner58 : string := "01234567890123456789012345678901".
End SamplePhantom.

Lemma phantom_seed_matches_client_witness : ∃ v,
  @verifyPhantomSeedSignature Toy.toy_crypto SamplePhantom.base58 SamplePhantom.nacl SamplePhantom.sig58
    SamplePhantom.owner58 = Ok v ∧ length v.(vf_seed) = 64%nat.
Proof.
  eexists. split; [vm_compute; reflexivity|].
  exact (proj1 (proj2 (proj2 (proj2 (proj2 (proj2 (@phantom_seed_matches_client Toy.toy_crypto Toy.toy_crypto_laws
    SamplePhantom.base58 SamplePhantom.nacl SamplePhantom.sig58 SamplePhantom.owner58 _ eq_refl))))))).
Defined.
