(* ===== verification/DemoChain.v ===== *)
(** The demo server's view of the chain: the account bytes of the vault
    ([programs/vault/src/state.rs]) as the demo reads them, the pre-flight that
    sets the protocol fee to zero ([ensure-zero-fee.ts]), the delegation of a
    market ([ensure-market-delegated.ts]), the top-up ([top-up-sol.ts]) and the
    persona's client ([persona-client.ts]). *)

From stdpp Require Import gmap.
From S2P Require Import Prelude Bytes Errors Externals Keys Note Borsh VaultClient VaultProgram MatchingEngineClient ErClient.
From S2P Require Import Settlement SettleProgram.
From S2P Require Import Merkle MerkleShadow VaultTree Client Deposit VaultState LeafHistory DemoKeys.

Local Open Scope Z_scope.

(** ** [@solana/web3.js] *)

Record Keypair := { kp_publicKey : PublicKey; kp_secretKey : bytes }.

(** A connection: what the demo asks of it.  [l1_send] is
    [sendAndConfirmTransaction(connection, tx, signers)]. *)
Record L1Connection (S : Type) := {
  l1_getAccountInfo : PublicKey → M S (option AccountInfo);
  l1_send : list TransactionInstruction → list Keypair → M S string;
  l1_getSlot : M S Z;
  l1_getBalance : PublicKey → M S Z;
  l1_history : Connection S;
}.
Arguments l1_getAccountInfo {S}.
Arguments l1_send {S}.
Arguments l1_getSlot {S}.
Arguments l1_getBalance {S}.
Arguments l1_history {S}.

(** Instructions of other programs. *)
Class ForeignIx := {
  SystemProgram_transfer : PublicKey → PublicKey → Z → TransactionInstruction;   (** from, to, lamports *)
  setComputeUnitLimit : Z → TransactionInstruction;
  getAssociatedTokenAddress : PublicKey → PublicKey → res PublicKey;             (** mint, owner *)
  createAssociatedTokenAccountIdempotent : PublicKey → PublicKey → PublicKey → PublicKey → TransactionInstruction;
  createMintTo : PublicKey → PublicKey → PublicKey → Z → TransactionInstruction;
}.

(** ** The account of the vault

    [VaultConfig] is zero-copy: its fields one after the other, behind the
    8-byte discriminator. *)

Definition vault_account_pieces (disc : bytes) (bump : byte) (cfg : VaultConfig) : list bytes :=
  [disc; cfg.(admin); cfg.(tee_pubkey); cfg.(root_key); le_bytes 8 cfg.(leaf_count); cfg.(current_root);
   concat cfg.(roots); concat cfg.(zero_subtree_roots); concat cfg.(right_path);
   [u8_of_Z (Z.of_nat cfg.(roots_head))]; [bump]; cfg.(protocol_owner_commitment); le_bytes 2 cfg.(fee_rate_bps);
   replicate 4 x00].

Definition vault_account (disc : bytes) (bump : byte) (cfg : VaultConfig) : bytes :=
  concat (vault_account_pieces disc bump cfg).

(** The array types of the struct. *)
Record account_wf (disc : bytes) (cfg : VaultConfig) : Prop := {
  aw_keys : length disc = 8%nat ∧ length cfg.(admin) = 32%nat ∧ length cfg.(tee_pubkey) = 32%nat ∧
    length cfg.(root_key) = 32%nat;
  aw_count : 0 <= cfg.(leaf_count) < U64;
  aw_root : length cfg.(current_root) = 32%nat;
  aw_roots : length cfg.(roots) = 32%nat ∧ Forall is_32 cfg.(roots);
  aw_zeros : length cfg.(zero_subtree_roots) = 20%nat ∧ Forall is_32 cfg.(zero_subtree_roots);
  aw_right : length cfg.(right_path) = 20%nat ∧ Forall is_32 cfg.(right_path);
  aw_owner : length cfg.(protocol_owner_commitment) = 32%nat;
  aw_fee : 0 <= cfg.(fee_rate_bps) < 65536;
}.

(** ** [ensure-zero-fee.ts] *)

Definition PROTOCOL_OWNER_COMMITMENT_OFFSET : nat := 8 + 32 + 32 + 32 + 8 + 32 + 32 * 32 + 20 * 32 + 20 * 32 + 1 + 1.
Definition FEE_RATE_BPS_OFFSET : nat := PROTOCOL_OWNER_COMMITMENT_OFFSET + 32.

Record EnsureZeroFeeOutcome := { observedFeeBps : Z; zeroed : bool; zf_signature : option string }.

(** [data.readUInt16LE(off)], where the length was checked. *)
Definition readUInt16LE (data : bytes) (off : nat) : Z := le_val (slice data off 2).

Section demo_chain.
Context `{NodeCrypto} `{Poseidon} `{Web3} `{ForeignIx} {S : Type} (l1 : L1Connection S).

Definition ensureZeroProtocolFee (vaultProgramId : PublicKey) (admin_ : Keypair) : M S EnsureZeroFeeOutcome :=
  let vaultPda := (vaultConfigPda vaultProgramId).1 in
  acct ← l1.(l1_getAccountInfo) vaultPda;
  match acct with
  | None => throw (Error ("vault_config account not found at " +:+ toBase58 vaultPda))
  | Some acct =>
      let data := acct.(ai_data) in
      _ ← guard_throw (length data <? FEE_RATE_BPS_OFFSET + 2)%nat
            (Error ("vault_config account too small (got " +:+ pretty (length data) +:+ " bytes, need ≥ "
                    +:+ pretty (FEE_RATE_BPS_OFFSET + 2)%nat
                    +:+ "). VaultConfig zero-copy layout may have drifted from this helper's offsets."));
      let observed := readUInt16LE data FEE_RATE_BPS_OFFSET in
      if observed =? 0 then mret {| observedFeeBps := 0; zeroed := false; zf_signature := None |}
      else
        let protocolOwner := slice data PROTOCOL_OWNER_COMMITMENT_OFFSET 32 in
        ix ← liftR (buildSetProtocolConfigInstruction
               {| sp_programId := vaultProgramId; sp_admin := admin_.(kp_publicKey);
                  protocolOwnerCommitment := protocolOwner; feeRateBps := 0 |});
        sig ← l1.(l1_send) [ix] [admin_];
        mret {| observedFeeBps := observed; zeroed := true; zf_signature := Some sig |}
  end.

(** ** [ensure-market-delegated.ts] *)

Definition ensureMarketDelegatedOnL1 (meProgramId market : PublicKey) (funder : Keypair) : M S () :=
  let clobPda := (darkClobPda meProgramId market).1 in
  clob ← l1.(l1_getAccountInfo) clobPda;
  match clob with
  | None => throw (Error "DarkCLOB account missing on L1.")
  | Some clob =>
      if bool_decide (clob.(ai_owner) = DELEGATION_PROGRAM_ID) then mret ()
      else
        let p := {| dm_programId := meProgramId; dm_payer := funder.(kp_publicKey); dm_market := market |} in
        _ ← l1.(l1_send) [buildDelegateDarkClobInstruction p; buildDelegateMatchingConfigInstruction p;
                          buildDelegateBatchResultsInstruction p] [funder];
        mret ()
  end.

(** ** [top-up-sol.ts], by the whole lamports of [minSol] (0.06 SOL by default) *)

Definition DEFAULT_MIN_LAMPORTS : Z := 60000000.

Definition topUpSol (funder : Keypair) (recipient : PublicKey) (minLamports : option Z) : M S () :=
  let minLamports := default DEFAULT_MIN_LAMPORTS minLamports in
  current ← l1.(l1_getBalance) recipient;
  if minLamports <=? current then mret ()
  else
    let delta := minLamports - current in
    _ ← l1.(l1_send) [SystemProgram_transfer funder.(kp_publicKey) recipient delta] [funder];
    mret ().

(** ** [persona-client.ts]: [makePersonaDarkPoolClient] *)

Definition makePersonaDarkPoolClient (randomBytes : nat → M S bytes) (erRpcUrl : string)
    (vaultProgramId meProgramId : PublicKey) (signer_ : Keypair) (role : string) : DarkPoolClient S :=
  let seed := actorSeed role signer_.(kp_publicKey) in
  {| cl_programId := vaultProgramId; cl_matchingEngineProgramId := Some meProgramId; cl_perRpcUrl := erRpcUrl;
     cl_seedMode := csprng (mret (Some seed)) (λ _, mret ()); cl_randomBytes := randomBytes;
     cl_tradingOffset := None;
     cl_ownerBlinding := if bool_decide (role = "taker") then 1111 else 2222;
     cl_providers :=
       {| getAccountInfo := l1.(l1_getAccountInfo);
          sendAndConfirm ixs := l1.(l1_send) ixs [signer_];
          getInclusionProof _ := throw (Error "merkleProofProvider not used for persona deposit") |};
     cl_zkProver := UnimplementedProverSuite (Some "not needed for deposit") |}.
End demo_chain.

(** ** Lemmas *)

Definition vault_account_lens : list nat := [8; 32; 32; 32; 8; 32; 1024; 640; 640; 1; 1; 32; 2; 4]%nat.

Lemma length_concat_32 (ls : list bytes) : Forall is_32 ls → length (concat ls) = (32 * length ls)%nat.
Proof. induction 1 as [|x ls Hx _ IH]; [done|]. cbn [concat length]. rewrite length_app, IH, Hx. lia. Qed.

Lemma vault_account_lengths disc bump cfg :
  account_wf disc cfg → length <$> vault_account_pieces disc bump cfg = vault_account_lens.
Proof.
  intros [(? & ? & ? & ?) _ ? [R1 R2] [Z1 Z2] [P1 P2] ? _]. unfold vault_account_pieces. cbn [fmap list_fmap].
  rewrite (length_concat_32 _ R2), (length_concat_32 _ Z2), (length_concat_32 _ P2), R1, Z1, P1.
  unfold vault_account_lens. repeat f_equal; done.
Qed.

Section reads.
Context (disc : bytes) (bump : byte) (cfg : VaultConfig).
Hypothesis Hwf : account_wf disc cfg.
Let HL := vault_account_lengths disc bump cfg Hwf.

Lemma read_leaf_count : readU64 (vault_account disc bump cfg) 104 = Ok cfg.(leaf_count).
Proof. apply (readU64_pieces _ _ 4 _ _ HL); [reflexivity|reflexivity|apply Hwf]. Qed.

Lemma read_current_root : slice (vault_account disc bump cfg) 112 32 = cfg.(current_root).
Proof. apply (pieces_slice _ _ 5 _ _ _ HL); reflexivity. Qed.

Lemma read_owner : slice (vault_account disc bump cfg) PROTOCOL_OWNER_COMMITMENT_OFFSET 32 = cfg.(protocol_owner_commitment).
Proof. apply (pieces_slice _ _ 11 _ _ _ HL); reflexivity. Qed.

Lemma read_fee : readUInt16LE (vault_account disc bump cfg) FEE_RATE_BPS_OFFSET = cfg.(fee_rate_bps).
Proof.
  unfold readUInt16LE, vault_account. rewrite (pieces_slice _ _ 12 (le_bytes 2 cfg.(fee_rate_bps)) _ _ HL) by reflexivity.
  rewrite le_val_le_bytes. apply Z.mod_small, Hwf.
Qed.

Lemma length_vault_account : length (vault_account disc bump cfg) = 2488%nat.
Proof. exact (pieces_length _ _ HL). Qed.
End reads.

Lemma set_protocol_config_zero owner st :
  let cfg := st.(vs_config) in
  owner = cfg.(protocol_owner_commitment) →
  ∃ st', set_protocol_config cfg.(admin) owner 0 st = Ok st' ∧ st'.(vs_config).(fee_rate_bps) = 0 ∧
    st'.(vs_config).(protocol_owner_commitment) = cfg.(protocol_owner_commitment) ∧
    st'.(vs_config).(current_root) = cfg.(current_root) ∧ st'.(vs_config).(leaf_count) = cfg.(leaf_count).
Proof.
  intros cfg ->. eexists. unfold set_protocol_config. fold cfg. rewrite bool_decide_eq_true_2 by done.
  split; [reflexivity|]. by split_and!.
Qed.

(** The fee pre-flight reads the vault's own fee rate out of the account
    bytes.  When it is zero nothing is sent; otherwise one instruction is, the
    program accepts it as [set_protocol_config] with fee 0 and the protocol
    owner the account holds, and the handler, called by the admin, sets the fee
    to zero and changes neither the owner nor the tree. *)
Theorem ensure_zero_fee_correct `{NodeCrypto} `{!NodeCryptoLaws} `{Web3} {S} (l1 : L1Connection S) vault admin_
    disc bump cfg owner w w1 :
  distinct_discriminators (fst <$> vault_table) → account_wf disc cfg →
  l1.(l1_getAccountInfo) (vaultConfigPda vault).1 w =
    (Ok (Some {| ai_data := vault_account disc bump cfg; ai_owner := owner |}), w1) →
  ∃ ix, accepted_as vault ix (VSetProtocolConfig cfg.(protocol_owner_commitment) 0) ∧
    (ensureZeroProtocolFee l1 vault admin_ w =
       if cfg.(fee_rate_bps) =? 0 then (Ok {| observedFeeBps := 0; zeroed := false; zf_signature := None |}, w1)
       else match l1.(l1_send) [ix] [admin_] w1 with
            | (Ok sig, w2) =>
                (Ok {| observedFeeBps := cfg.(fee_rate_bps); zeroed := true; zf_signature := Some sig |}, w2)
            | (Throw e, w2) => (Throw e, w2)
            end) ∧
    ∀ st, st.(vs_config) = cfg → ∃ st',
      set_protocol_config cfg.(admin) cfg.(protocol_owner_commitment) 0 st = Ok st' ∧
      st'.(vs_config).(fee_rate_bps) = 0 ∧
      st'.(vs_config).(protocol_owner_commitment) = cfg.(protocol_owner_commitment) ∧
      st'.(vs_config).(current_root) = cfg.(current_root) ∧ st'.(vs_config).(leaf_count) = cfg.(leaf_count).
Proof.
  intros Hd Hwf Hacct.
  set (p := {| sp_programId := vault; sp_admin := admin_.(kp_publicKey);
               protocolOwnerCommitment := cfg.(protocol_owner_commitment); feeRateBps := 0 |}).
  pose proof (build_vault_total (CSetProtocolConfig p)) as Htot. cbn [build_vault call_sized] in Htot.
  destruct (buildSetProtocolConfigInstruction p) as [ix|] eqn:Hix.
  2:{ discriminate Htot. split; [exact (aw_owner _ _ Hwf)|]. cbn [feeRateBps p]. lia. }
  exists ix. split; [exact (build_vault_accepted Hd (CSetProtocolConfig p) ix Hix I)|]. split.
  - unfold ensureZeroProtocolFee. erewrite M_bind_run by exact Hacct. cbn [ai_data].
    rewrite (length_vault_account _ _ _ Hwf), (read_fee _ _ _ Hwf), (read_owner _ _ _ Hwf).
    destruct (cfg.(fee_rate_bps) =? 0); [reflexivity|]. fold p. rewrite Hix. reflexivity.
  - intros st <-. by apply set_protocol_config_zero.
Qed.

(** A vault with a fee of 30 basis points, and a node that serves it. *)
Module SampleChain.
Definition cfg : VaultConfig := {|
  admin := replicate 32 x0a; tee_pubkey := replicate 32 x0b; root_key := replicate 32 x0c; leaf_count := 0;
  current_root := replicate 32 x01; roots := replicate 32 (replicate 32 x00);
  zero_subtree_roots := replicate 20 (replicate 32 x00); right_path := replicate 20 (replicate 32 x00);
  roots_head := 0; protocol_owner_commitment := replicate 32 x0d; fee_rate_bps := 30 |}.

Definition l1 : L1Connection () := {|
  l1_getAccountInfo _ := mret (Some {| ai_data := vault_account (replicate 8 x07) x01 cfg; ai_owner := Toy.zero_key |});
  l1_send _ _ := mret "sig"; l1_getSlot := mret 5; l1_getBalance _ := mret 0; l1_history := SampleLedger.node |}.

Definition admin_keypair : Keypair := {| kp_publicKey := Toy.key_of (replicate 32 x0a); kp_secretKey := [] |}.

Lemma cfg_wf : account_wf (replicate 8 x07) cfg.
Proof. split; repeat split; try reflexivity; try (cbn; lia); repeat constructor. Qed.
End SampleChain.

Lemma ensure_zero_fee_correct_witness :
  @ensureZeroProtocolFee Toy.toy_crypto Toy.toy_web3 () SampleChain.l1 Toy.zero_key SampleChain.admin_keypair tt =
  (Ok {| observedFeeBps := 30; zeroed := true; zf_signature := Some "sig" |}, tt).
Proof.
  destruct (@ensure_zero_fee_correct Toy.toy_crypto Toy.toy_crypto_laws Toy.toy_web3 () SampleChain.l1 Toy.zero_key
    SampleChain.admin_keypair (replicate 8 x07) x01 SampleChain.cfg Toy.zero_key tt tt
    ltac:(unfold distinct_discriminators; apply (bool_decide_unpack _); vm_compute; exact I) SampleChain.cfg_wf eq_refl)
    as (ix & _ & Hrun & _).
  exact Hrun.
Defined.
