(* ===== verification/Auction.v ===== *)
(** The batch auction of the matching engine
    ([programs/matching_engine/src/instructions/run_batch.rs]) on the orders it
    has read: the uniform clearing price ([compute_clearing_price]) and the
    crossing of bids and asks at it ([generate_matches]).  The handler around
    them is in [RunBatch]. *)

From Stdlib Require Import Sorted.
From S2P Require Import Prelude Bytes Errors Externals Keys Note Borsh VaultClient MatchingEngineClient MatchingProgram.
From S2P Require Import BatchResults Merkle MerkleShadow VaultTree Client Deposit Session Orders LeafHistory DemoKeys.

Local Open Scope Z_scope.

(** ** Orders in memory *)

Record OrderSnapshot := {
  sn_rem_idx : nat; sn_side : Z; sn_order_type : Z; sn_arrival_slot : Z; sn_expiry_slot : Z;
  sn_price_limit : Z; sn_amount : Z; sn_min_fill_qty : Z; sn_note_amount : Z;
  sn_collateral_note : bytes; sn_user_commitment : bytes; sn_trading_key : bytes; sn_order_id : bytes;
  sn_inclusion : bytes }.

Definition PENDING_TYPE_LIMIT : Z := 0.
Definition PENDING_TYPE_IOC : Z := 1.
Definition PENDING_TYPE_FOK : Z := 2.
(** [u8::MAX], the mark of an order that is cancelled and not filled. *)
Definition KILLED : Z := 255.

Definition CHANGE_ROLE_BUYER : Z := 177.    (** 0xB1 *)
Definition CHANGE_ROLE_SELLER : Z := 94.    (** 0x5E *)
Definition NO_NOTE : bytes := replicate 32 x00.
Definition NO_ORDER : bytes := replicate 16 x00.

Definition snapshot_from_slot (slot : PendingOrder) (rem_idx : nat) : OrderSnapshot :=
  {| sn_rem_idx := rem_idx; sn_side := slot.(po_side); sn_order_type := slot.(po_order_type);
     sn_arrival_slot := slot.(po_arrival_slot); sn_expiry_slot := slot.(po_expiry_slot);
     sn_price_limit := slot.(po_price_limit); sn_amount := slot.(po_amount);
     sn_min_fill_qty := slot.(po_min_fill_qty); sn_note_amount := slot.(po_note_amount);
     sn_collateral_note := slot.(po_collateral_note); sn_user_commitment := slot.(po_user_commitment);
     sn_trading_key := slot.(po_trading_key); sn_order_id := slot.(po_order_id);
     sn_inclusion := slot.(po_order_inclusion_commitment) |}.

(** ** Machine arithmetic *)

Definition saturating_add (a b : Z) : Z := Z.min (U64 - 1) (a + b).
Definition saturating_sub (a b : Z) : Z := Z.max 0 (a - b).
Definition U128 : Z := 2 ^ 128.
Definition saturating_mul_u128 (a b : Z) : Z := Z.min (U128 - 1) (a * b).
Definition u64_add (e : string) (a b : Z) : res Z := if a + b <? U64 then Ok (a + b) else Throw (MatchingError e).
Definition u64_sub (e : string) (a b : Z) : res Z := if b <=? a then Ok (a - b) else Throw (MatchingError e).

Definition deviates_by_more_than_bps (p reference bps : Z) : bool :=
  if reference =? 0 then true
  else let diff := Z.abs (p - reference) in
       saturating_mul_u128 reference bps <? saturating_mul_u128 diff 10000.

(** ** Sorting

    [sort_by] is stable: an element goes before the later ones it does not
    exceed. *)
Section sort.
Context {A : Type} (le : A → A → bool).

Fixpoint insert_before (x : A) (l : list A) : list A :=
  match l with
  | [] => [x]
  | y :: l => if le x y then x :: y :: l else y :: insert_before x l
  end.
Definition sort_by (l : list A) : list A := foldr insert_before [] l.
End sort.

(** [dedup]: of equal neighbours one stays. *)
Fixpoint dedup (l : list Z) : list Z :=
  match l with
  | [] => []
  | x :: l => match dedup l with
              | y :: r => if x =? y then x :: r else x :: y :: r
              | [] => [x]
              end
  end.

(** Bids: descending price; asks: ascending price; older orders first. *)
Definition bid_before (a b : OrderSnapshot) : bool :=
  (b.(sn_price_limit) <? a.(sn_price_limit))
  || ((b.(sn_price_limit) =? a.(sn_price_limit)) && (a.(sn_arrival_slot) <=? b.(sn_arrival_slot))).
Definition ask_before (a b : OrderSnapshot) : bool :=
  (a.(sn_price_limit) <? b.(sn_price_limit))
  || ((a.(sn_price_limit) =? b.(sn_price_limit)) && (a.(sn_arrival_slot) <=? b.(sn_arrival_slot))).

(** ** [compute_clearing_price] *)

Definition sum_amounts (l : list OrderSnapshot) : Z := foldl (λ acc s, saturating_add acc s.(sn_amount)) 0 l.
Definition demand (bids : list OrderSnapshot) (p : Z) : Z :=
  sum_amounts (filter (λ b, p <= b.(sn_price_limit)) bids).
Definition supply (asks : list OrderSnapshot) (p : Z) : Z :=
  sum_amounts (filter (λ a, a.(sn_price_limit) <= p) asks).

Definition best_step (bids asks : list OrderSnapshot) (best : option Z * Z) (p : Z) : option Z * Z :=
  let matched := Z.min (demand bids p) (supply asks p) in
  if best.2 <? matched then (Some p, matched) else best.

Definition compute_clearing_price (bids asks : list OrderSnapshot) : option (Z * Z) :=
  if decide (bids = [] ∨ asks = []) then None
  else
    let candidates := dedup (sort_by Z.leb ((sn_price_limit <$> bids) ++ (sn_price_limit <$> asks))) in
    let '(best_p, best_matched) := foldl (best_step bids asks) (None, 0) candidates in
    (λ p, (p, best_matched)) <$> best_p.

(** ** [generate_matches] *)

Record MatchState := {
  ms_bids : list OrderSnapshot; ms_asks : list OrderSnapshot; ms_bi : nat; ms_ai : nat;
  ms_results : BatchResultsView; ms_produced : Z }.

(** The amount left, and the note that backs it. *)
Definition set_amount (s : OrderSnapshot) (amount : Z) (order_type : Z) (note : bytes) (note_amount : Z) : OrderSnapshot :=
  {| sn_rem_idx := s.(sn_rem_idx); sn_side := s.(sn_side); sn_order_type := order_type;
     sn_arrival_slot := s.(sn_arrival_slot); sn_expiry_slot := s.(sn_expiry_slot);
     sn_price_limit := s.(sn_price_limit); sn_amount := amount; sn_min_fill_qty := s.(sn_min_fill_qty);
     sn_note_amount := note_amount; sn_collateral_note := note; sn_user_commitment := s.(sn_user_commitment);
     sn_trading_key := s.(sn_trading_key); sn_order_id := s.(sn_order_id); sn_inclusion := s.(sn_inclusion) |}.
Definition kill (s : OrderSnapshot) : OrderSnapshot :=
  set_amount s 0 KILLED s.(sn_collateral_note) s.(sn_note_amount).

Definition fee_at (rate amount : Z) : Z := (amount * rate / 10000) mod U64.

(** The residual of a limit order goes on trading on its change note. *)
Definition relocks (s : OrderSnapshot) (remaining change : Z) : bool :=
  (0 <? remaining) && (s.(sn_order_type) =? 0) && (0 <? change).
Definition relock_of (s : OrderSnapshot) (relock : bool) : bytes * Z :=
  if relock then (s.(sn_order_id), s.(sn_expiry_slot)) else (NO_ORDER, 0).
Definition after_fill (s : OrderSnapshot) (remaining : Z) (relock : bool) (note : bytes) (change : Z) : OrderSnapshot :=
  if relock then set_amount s remaining s.(sn_order_type) note change
  else set_amount s remaining s.(sn_order_type) s.(sn_collateral_note) s.(sn_note_amount).

Definition add_fees (fees : Z) (acc : FeeAccumulatorRecord) : FeeAccumulatorRecord :=
  {| fa_tokenMint := acc.(fa_tokenMint); fa_accumulatedFees := saturating_add acc.(fa_accumulatedFees) fees;
     fa_batchSlot := acc.(fa_batchSlot); fa_flushedCommitment := acc.(fa_flushedCommitment) |}.

(** A match written into the ring, and its fees. *)
Definition record_match (br : BatchResultsView) (mr : MatchResultRecord) : BatchResultsView :=
  {| br_market := br.(br_market); br_lastInclusionRoot := br.(br_lastInclusionRoot);
     br_lastBatchSlot := br.(br_lastBatchSlot); br_lastMatchCount := br.(br_lastMatchCount);
     br_lastClearingPrice := br.(br_lastClearingPrice); br_lastPythTwap := br.(br_lastPythTwap);
     br_lastCircuitBreakerTripped := br.(br_lastCircuitBreakerTripped);
     br_writeCursor := saturating_add br.(br_writeCursor) 1;
     br_nextMatchId := saturating_add br.(br_nextMatchId) 1;
     br_results := <[Z.to_nat (br.(br_writeCursor) mod Z.of_nat BATCH_RESULTS_CAPACITY) := mr]> br.(br_results);
     br_feeAccumulators :=
       alter (add_fees mr.(mr_buyerFeeAmt)) 1%nat (alter (add_fees mr.(mr_sellerFeeAmt)) 0%nat br.(br_feeAccumulators));
     br_bump := br.(br_bump) |}.

Section auction.
Context `{NodeCrypto} `{Poseidon}.
Context (p_star pyth_twap now_slot : Z) (base_mint quote_mint : bytes) (fee_rate_bps : Z).

Definition change_note (mint : bytes) (change : Z) (user_commitment : bytes) (match_id role : Z) : res bytes :=
  if 0 <? change then
    match commitment_from_fields mint change user_commitment (derive_nonce match_id role) (derive_blinding match_id role) with
    | Ok c => Ok c
    | Throw _ => Throw (MatchingError "PoseidonFailed")
    end
  else Ok NO_NOTE.

(** The result of crossing [crossable] of a bid and an ask. *)
Definition trade (b a : OrderSnapshot) (crossable match_id : Z) : res MatchResultRecord :=
  let quote_amt := crossable * p_star in
  _ ← throw_if (U64 - 1 <? quote_amt) (MatchingError "NotionalOverflow");
  let buyer_fee_amt := fee_at fee_rate_bps quote_amt in
  let seller_fee_amt := fee_at fee_rate_bps crossable in
  buyer_charge ← u64_add "FeeOverflow" quote_amt buyer_fee_amt;
  seller_charge ← u64_add "FeeOverflow" crossable seller_fee_amt;
  buyer_change_amt ← u64_sub "ConservationViolation" b.(sn_note_amount) buyer_charge;
  seller_change_amt ← u64_sub "ConservationViolation" a.(sn_note_amount) seller_charge;
  note_e ← change_note quote_mint buyer_change_amt b.(sn_user_commitment) match_id CHANGE_ROLE_BUYER;
  note_f ← change_note base_mint seller_change_amt a.(sn_user_commitment) match_id CHANGE_ROLE_SELLER;
  let buyer_relock := relock_of b (relocks b (saturating_sub b.(sn_amount) crossable) buyer_change_amt) in
  let seller_relock := relock_of a (relocks a (saturating_sub a.(sn_amount) crossable) seller_change_amt) in
  Ok {| mr_noteBuyer := b.(sn_collateral_note); mr_noteSeller := a.(sn_collateral_note);
        mr_noteE := note_e; mr_noteF := note_f;
        mr_ownerBuyer := b.(sn_trading_key); mr_ownerSeller := a.(sn_trading_key);
        mr_userCommitmentBuyer := b.(sn_user_commitment); mr_userCommitmentSeller := a.(sn_user_commitment);
        mr_buyerNoteValue := b.(sn_note_amount); mr_sellerNoteValue := a.(sn_note_amount);
        mr_baseAmt := crossable; mr_quoteAmt := quote_amt;
        mr_buyerChangeAmt := buyer_change_amt; mr_sellerChangeAmt := seller_change_amt;
        mr_buyerFeeAmt := buyer_fee_amt; mr_sellerFeeAmt := seller_fee_amt;
        mr_buyerRelockOrderId := buyer_relock.1; mr_buyerRelockExpiry := buyer_relock.2;
        mr_sellerRelockOrderId := seller_relock.1; mr_sellerRelockExpiry := seller_relock.2;
        mr_price := p_star; mr_pythAtMatch := pyth_twap; mr_batchSlot := now_slot; mr_matchId := match_id;
        mr_status := 1 |}.

(** Moves the indices. *)
Definition skip (st : MatchState) (bid ask : bool) : MatchState :=
  {| ms_bids := st.(ms_bids); ms_asks := st.(ms_asks);
     ms_bi := if bid then S st.(ms_bi) else st.(ms_bi); ms_ai := if ask then S st.(ms_ai) else st.(ms_ai);
     ms_results := st.(ms_results); ms_produced := st.(ms_produced) |}.
Definition kill_bid (st : MatchState) (b : OrderSnapshot) : MatchState :=
  {| ms_bids := <[st.(ms_bi) := kill b]> st.(ms_bids); ms_asks := st.(ms_asks);
     ms_bi := S st.(ms_bi); ms_ai := st.(ms_ai); ms_results := st.(ms_results); ms_produced := st.(ms_produced) |}.
Definition kill_ask (st : MatchState) (a : OrderSnapshot) : MatchState :=
  {| ms_bids := st.(ms_bids); ms_asks := <[st.(ms_ai) := kill a]> st.(ms_asks);
     ms_bi := st.(ms_bi); ms_ai := S st.(ms_ai); ms_results := st.(ms_results); ms_produced := st.(ms_produced) |}.

Definition fill_pair (st : MatchState) (b a : OrderSnapshot) (mr : MatchResultRecord) : MatchState :=
  let b_remaining_after := saturating_sub b.(sn_amount) mr.(mr_baseAmt) in
  let a_remaining_after := saturating_sub a.(sn_amount) mr.(mr_baseAmt) in
  let b' := after_fill b b_remaining_after (relocks b b_remaining_after mr.(mr_buyerChangeAmt)) mr.(mr_noteE)
              mr.(mr_buyerChangeAmt) in
  let a' := after_fill a a_remaining_after (relocks a a_remaining_after mr.(mr_sellerChangeAmt)) mr.(mr_noteF)
              mr.(mr_sellerChangeAmt) in
  {| ms_bids := <[st.(ms_bi) := b']> st.(ms_bids); ms_asks := <[st.(ms_ai) := a']> st.(ms_asks);
     ms_bi := if b_remaining_after =? 0 then S st.(ms_bi) else st.(ms_bi);
     ms_ai := if a_remaining_after =? 0 then S st.(ms_ai) else st.(ms_ai);
     ms_results := record_match st.(ms_results) mr; ms_produced := st.(ms_produced) + 1 |}.

(** The body of the loop, on the orders the indices point to. *)
Definition match_step (st : MatchState) (b a : OrderSnapshot) : res MatchState :=
  let low := b.(sn_price_limit) <? p_star in
  let high := p_star <? a.(sn_price_limit) in
  if low || high then Ok (skip st low high)
  else
    let crossable := Z.min b.(sn_amount) a.(sn_amount) in
    if (b.(sn_order_type) =? PENDING_TYPE_FOK) && (crossable <? b.(sn_amount)) then Ok (kill_bid st b)
    else if (a.(sn_order_type) =? PENDING_TYPE_FOK) && (crossable <? a.(sn_amount)) then Ok (kill_ask st a)
    else if (crossable <? b.(sn_min_fill_qty)) || (crossable <? a.(sn_min_fill_qty)) then
      let first := b.(sn_amount) <=? a.(sn_amount) in Ok (skip st first (negb first))
    else
      mr ← trade b a crossable st.(ms_results).(br_nextMatchId);
      Ok (fill_pair st b a mr).

Fixpoint match_loop (fuel : nat) (st : MatchState) : res MatchState :=
  match fuel with
  | O => Throw EFuel
  | S fuel =>
      match st.(ms_bids) !! st.(ms_bi), st.(ms_asks) !! st.(ms_ai) with
      | Some b, Some a => st ← match_step st b a; match_loop fuel st
      | _, _ => Ok st
      end
  end.

Definition generate_matches (bids asks : list OrderSnapshot) (br : BatchResultsView) : res MatchState :=
  match_loop (S (length bids + length asks))
    {| ms_bids := bids; ms_asks := asks; ms_bi := 0; ms_ai := 0; ms_results := br; ms_produced := 0 |}.
End auction.

(** ** Specification *)

(** The amounts, added up exactly. *)
Definition total (l : list OrderSnapshot) : Z := foldr (λ s acc, s.(sn_amount) + acc) 0 l.

(** What can trade at a price: the smaller of what bids take and asks give. *)
Definition crossing_bids (p : Z) (bids : list OrderSnapshot) : list OrderSnapshot :=
  filter (λ b, p <= b.(sn_price_limit)) bids.
Definition crossing_asks (p : Z) (asks : list OrderSnapshot) : list OrderSnapshot :=
  filter (λ a, a.(sn_price_limit) <= p) asks.
Definition tradable (bids asks : list OrderSnapshot) (p : Z) : Z :=
  Z.min (total (crossing_bids p bids)) (total (crossing_asks p asks)).

Definition amounts_ok (l : list OrderSnapshot) : Prop := Forall (λ s, 0 <= s.(sn_amount)) l.

(** ** Lemmas: sorting *)

Section sort_lemmas.
Context {A : Type} (le : A → A → bool).

Lemma insert_before_perm x l : insert_before le x l ≡ₚ x :: l.
Proof.
  induction l as [|y l IH]; [done|]. cbn. destruct (le x y); [done|]. rewrite IH. by constructor.
Qed.

Lemma sort_by_perm l : sort_by le l ≡ₚ l.
Proof. induction l as [|x l IH]; [done|]. cbn. by rewrite insert_before_perm, IH. Qed.

Definition ordered : list A → Prop := StronglySorted (λ x y, le x y = true).

Context (le_total : ∀ x y, le x y = false → le y x = true).
Context (le_trans : ∀ x y z, le x y = true → le y z = true → le x z = true).

Lemma insert_before_sorted x l : ordered l → ordered (insert_before le x l).
Proof.
  induction 1 as [|y l Hs IH Hy]; cbn; [by repeat constructor|]. destruct (le x y) eqn:Hxy.
  - constructor; [by constructor|]. constructor; [done|]. eapply Forall_impl; [exact Hy|]. intros z Hz. by eapply le_trans.
  - constructor; [done|]. rewrite insert_before_perm. constructor; [by apply le_total|done].
Qed.

Lemma sort_by_sorted l : ordered (sort_by le l).
Proof. induction l as [|x l IH]; [constructor|]. by apply insert_before_sorted. Qed.
End sort_lemmas.

Lemma dedup_head x l : ∃ r, dedup (x :: l) = x :: r.
Proof.
  cbn. destruct (dedup l) as [|y r]; [by eexists|]. destruct (x =? y); by eexists.
Qed.

Lemma dedup_elem x l : x ∈ dedup l ↔ x ∈ l.
Proof.
  induction l as [|y l IH]; [done|]. rewrite elem_of_cons, <-IH. cbn. destruct (dedup l) as [|z r].
  - set_solver.
  - destruct (Z.eqb_spec y z) as [->|]; set_solver.
Qed.

Lemma dedup_sorted l : ordered Z.leb l → ordered Z.leb (dedup l).
Proof.
  induction 1 as [|x l Hs IH Hx]; [constructor|]. cbn. destruct (dedup l) as [|y r] eqn:Hd; [by repeat constructor|].
  assert (Hall : Forall (λ z, (x <=? z) = true) (y :: r)).
  { apply Forall_forall. intros z Hz. rewrite <-Hd in Hz. apply (proj1 (dedup_elem _ _)) in Hz.
    by apply (proj1 (Forall_forall _ _) Hx). }
  destruct (x =? y); [|by constructor]. inversion_clear IH. constructor; [done|]. by inversion Hall.
Qed.

(** ** Lemmas: the clearing price *)

Lemma total_cons s l : total (s :: l) = s.(sn_amount) + total l.
Proof. done. Qed.

Lemma total_nonneg l : amounts_ok l → 0 <= total l.
Proof. unfold amounts_ok. induction 1 as [|x l Hx Hl IH]; cbn beta in *; [done|]. rewrite total_cons. lia. Qed.

Lemma amounts_ok_filter P `{∀ x, Decision (P x)} l : amounts_ok l → amounts_ok (filter P l).
Proof.
  intros Hl. apply Forall_forall. intros x [_ Hx]%list_elem_of_filter. by apply (proj1 (Forall_forall _ _) Hl).
Qed.

Lemma sum_amounts_total l : amounts_ok l → sum_amounts l = Z.min (U64 - 1) (total l).
Proof.
  intros Hl. unfold sum_amounts. assert (Hg : ∀ acc, 0 <= acc < U64 →
    foldl (λ acc s, saturating_add acc s.(sn_amount)) acc l = Z.min (U64 - 1) (acc + total l)).
  { induction Hl as [|s l Hs Hl IH]; intros acc Hacc; cbn [foldl]; [change (total []) with 0; lia|].
    cbn beta in Hs. rewrite total_cons. pose proof (total_nonneg _ Hl).
    unfold saturating_add. rewrite IH by lia. lia. }
  by rewrite Hg by (unfold U64; lia).
Qed.

Lemma total_filter_le P Q `{∀ x, Decision (P x)} `{∀ x, Decision (Q x)} l :
  amounts_ok l → (∀ x, x ∈ l → P x → Q x) → total (filter P l) <= total (filter Q l).
Proof.
  induction 1 as [|x l Hx Hl IH]; intros Hi; [done|].
  assert (Hi' : ∀ y, y ∈ l → P y → Q y) by (intros; apply Hi; [by right|done]). specialize (IH Hi').
  cbn beta in Hx. rewrite !filter_cons. destruct (decide (P x)) as [HP|].
  - rewrite decide_True by (apply Hi; [by left|done]). rewrite !total_cons. lia.
  - case_decide; [|done]. rewrite total_cons. lia.
Qed.

Lemma matched_tradable bids asks p :
  amounts_ok bids → amounts_ok asks →
  Z.min (demand bids p) (supply asks p) = Z.min (U64 - 1) (tradable bids asks p).
Proof.
  intros Hb Ha. unfold demand, supply, tradable, crossing_bids, crossing_asks.
  rewrite !sum_amounts_total by by apply amounts_ok_filter. lia.
Qed.

(** The highest ask limit up to a price. *)
Lemma last_ask asks q :
  crossing_asks q asks = [] ∨
  ∃ a, a ∈ asks ∧ a.(sn_price_limit) <= q ∧
    ∀ a', a' ∈ asks → a'.(sn_price_limit) <= q → a'.(sn_price_limit) <= a.(sn_price_limit).
Proof.
  induction asks as [|x asks IH]; [by left|]. unfold crossing_asks in *. rewrite filter_cons. case_decide as Hx.
  - right. destruct IH as [Hn|(a & Ha & Hq & Hm)].
    + exists x. split; [by left|]. split; [done|]. intros a' [->|Ha']%elem_of_cons Hq'; [done|].
      exfalso. assert (Hin : a' ∈ filter (λ a, a.(sn_price_limit) <= q) asks) by by apply list_elem_of_filter.
      rewrite Hn in Hin. by apply not_elem_of_nil in Hin.
    + destruct (decide (x.(sn_price_limit) <= a.(sn_price_limit))).
      * exists a. split; [by right|]. split; [done|]. intros a' [->|Ha']%elem_of_cons Hq'; [done|]. by apply Hm.
      * exists x. split; [by left|]. split; [done|]. intros a' [->|Ha']%elem_of_cons Hq'; [done|].
        specialize (Hm a' Ha' Hq'). lia.
  - destruct IH as [Hn|(a & Ha & Hq & Hm)]; [by left|right]. exists a. split; [by right|]. split; [done|].
    intros a' [->|Ha']%elem_of_cons Hq'; [done|]. by apply Hm.
Qed.

(** Every price trades no more than some candidate up to it. *)
Lemma candidate_below bids asks q :
  amounts_ok bids → amounts_ok asks →
  tradable bids asks q <= 0 ∨
  ∃ c, c ∈ (sn_price_limit <$> bids) ++ (sn_price_limit <$> asks) ∧ c <= q ∧
    tradable bids asks q <= tradable bids asks c.
Proof.
  intros Hb Ha. destruct (last_ask asks q) as [Hn|(a & Hin & Hq & Hm)].
  - left. unfold tradable. rewrite Hn. cbn. lia.
  - right. exists a.(sn_price_limit). split; [|split; [done|]].
    + apply elem_of_app. right. apply list_elem_of_fmap. by exists a.
    + assert (Hbs : total (crossing_bids q bids) <= total (crossing_bids a.(sn_price_limit) bids))
        by (apply total_filter_le; [done|]; intros; lia).
      assert (Has : total (crossing_asks q asks) <= total (crossing_asks a.(sn_price_limit) asks))
        by (apply total_filter_le; [done|]; intros; by apply Hm).
      unfold tradable. lia.
Qed.

Definition best_of (f : Z → Z) (cs : list Z) (best : option Z * Z) : Prop :=
  0 <= best.2 ∧ (∀ q, q ∈ cs → f q <= best.2) ∧
  match best.1 with
  | Some p => p ∈ cs ∧ 0 < best.2 ∧ f p = best.2 ∧ ∀ q, q ∈ cs → q < p → f q < best.2
  | None => best.2 = 0
  end.

Lemma ordered_snoc (cs : list Z) c : ordered Z.leb (cs ++ [c]) → ordered Z.leb cs ∧ ∀ q, q ∈ cs → q <= c.
Proof.
  induction cs as [|x cs IH]; cbn; [split; [constructor|set_solver]|]. intros Hs. inversion_clear Hs as [|? ? Hs' Hx].
  destruct (IH Hs') as [Ho Hq]. apply Forall_app in Hx as [Hx Hc]. split; [by constructor|].
  intros q [->|?]%elem_of_cons; [|by apply Hq]. inversion_clear Hc as [|? ? Hle]. by apply Z.leb_le.
Qed.

Lemma foldl_best (f : Z → Z) cs :
  ordered Z.leb cs →
  best_of f cs (foldl (λ best p, if best.2 <? f p then (Some p, f p) else best) (None, 0) cs).
Proof.
  induction cs as [|c cs IH] using rev_ind; intros Hs; [split; [done|]; split; [set_solver|done]|].
  apply ordered_snoc in Hs as [Ho Hc]. destruct (IH Ho) as (H0 & Hmax & Hp). rewrite foldl_snoc.
  set (best := foldl _ _ cs) in *. clearbody best.
  assert (Hsnoc : ∀ P : Z → Prop, (∀ q, q ∈ cs → P q) → P c → ∀ q, q ∈ cs ++ [c] → P q).
  { intros P HP Hpc q [Hq|Hq]%elem_of_app; [by apply HP|]. by apply list_elem_of_singleton in Hq as ->. }
  destruct (Z.ltb_spec best.2 (f c)) as [Hlt|Hge].
  - split; [cbn; lia|]. split; [|cbn [fst snd]; split; [set_solver|]; split; [lia|]; split; [done|]].
    + apply (Hsnoc (λ q, f q <= f c)); [|done]. intros q Hq. specialize (Hmax q Hq). lia.
    + apply (Hsnoc (λ q, q < c → f q < f c)); [|lia]. intros q Hq _. specialize (Hmax q Hq). lia.
  - split; [done|]. split; [by apply (Hsnoc (λ q, f q <= best.2))|]. destruct best.1 as [p|]; [|done].
    destruct Hp as (Hin & Hpos & Hf & Hlow). split; [set_solver|]. split; [done|]. split; [done|].
    apply (Hsnoc (λ q, q < p → f q < best.2)); [done|]. specialize (Hc p Hin). lia.
Qed.

(** ** The clearing price is the best one *)

Lemma clearing_price_best bids asks :
  amounts_ok bids → amounts_ok asks →
  let volume q := Z.min (U64 - 1) (tradable bids asks q) in
  match compute_clearing_price bids asks with
  | Some (p, matched) =>
      0 < matched ∧ matched = volume p ∧ (∀ q, volume q <= matched) ∧ (∀ q, q < p → volume q < matched) ∧
      p ∈ (sn_price_limit <$> bids) ++ (sn_price_limit <$> asks)
  | None => ∀ q, volume q <= 0
  end.
Proof.
  intros Hb Ha volume. unfold compute_clearing_price. case_decide as Hn.
  { intros q. unfold volume, tradable. assert (crossing_bids q bids = [] ∨ crossing_asks q asks = []) as [-> | ->]
      by (destruct Hn as [-> | ->]; auto); cbn; lia. }
  set (cs := dedup _). assert (Hcs : ordered Z.leb cs).
  { apply dedup_sorted, sort_by_sorted; intros; rewrite ?Z.leb_le, ?Z.leb_gt in *; lia. }
  assert (Hel : ∀ q, q ∈ cs ↔ q ∈ (sn_price_limit <$> bids) ++ (sn_price_limit <$> asks)).
  { intros q. unfold cs. by rewrite dedup_elem, sort_by_perm. }
  destruct (foldl_best (λ q, Z.min (demand bids q) (supply asks q)) cs Hcs) as (H0 & Hmax & Hp).
  change (foldl (best_step bids asks) (None, 0) cs) with
    (foldl (λ best p, if best.2 <? Z.min (demand bids p) (supply asks p) then (Some p, Z.min (demand bids p) (supply asks p)) else best) (None, 0) cs).
  destruct (foldl _ _ cs) as [best m]. cbn [fst snd] in *.
  assert (Hvol : ∀ q, Z.min (demand bids q) (supply asks q) = volume q) by (intros; by apply matched_tradable).
  assert (Hall : ∀ q, volume q <= 0 ∨ ∃ c, c ∈ cs ∧ c <= q ∧ volume q <= volume c).
  { intros q. destruct (candidate_below bids asks q Hb Ha) as [?|(c & Hc & Hq & Hle)]; [left; unfold volume; lia|].
    right. exists c. split; [by apply Hel|]. split; [done|]. unfold volume. lia. }
  destruct best as [p|]; cbn.
  - destruct Hp as (Hin & Hpos & Hf & Hlow). rewrite Hvol in Hf. split; [done|]. split; [done|]. split; [|split].
    + intros q. destruct (Hall q) as [?|(c & Hc & _ & Hle)]; [lia|]. specialize (Hmax c Hc). rewrite Hvol in Hmax. lia.
    + intros q Hq. destruct (Hall q) as [?|(c & Hc & Hcq & Hle)]; [lia|]. specialize (Hlow c Hc ltac:(lia)).
      rewrite Hvol in Hlow. lia.
    + by apply Hel.
  - subst m. intros q. destruct (Hall q) as [?|(c & Hc & _ & Hle)]; [lia|]. specialize (Hmax c Hc). rewrite Hvol in Hmax. lia.
Qed.

(** [C6] [compute_clearing_price] finds the best uniform price.  A price it
    returns trades a positive volume, and the matched amount it reports is what
    bids at or above that price and asks at or below it have in common (as a
    saturated [u64]); no price at all, candidate or not, trades more, and every
    lower price trades strictly less, so ties go to the lowest price.  When it
    returns none, nothing can trade at any price. *)
Theorem clearing_price_optimal bids asks :
  amounts_ok bids → amounts_ok asks →
  let volume q := Z.min (U64 - 1) (tradable bids asks q) in
  match compute_clearing_price bids asks with
  | Some (p, matched) =>
      0 < matched ∧ matched = volume p ∧ (∀ q, volume q <= matched) ∧ (∀ q, q < p → volume q < matched) ∧
      p ∈ (sn_price_limit <$> bids) ++ (sn_price_limit <$> asks)
  | None => ∀ q, volume q <= 0
  end.
Proof. apply clearing_price_best. Qed.

(** ** The crossing loop as a step relation *)

(** A match, with the positions of its bid and its ask. *)
Record Fill := { f_bid : nat; f_ask : nat; f_match : MatchResultRecord }.

(** What was executed, in all and of one order. *)
Definition executed (fs : list Fill) : Z := foldr (λ f acc, f.(f_match).(mr_baseAmt) + acc) 0 fs.
Definition filled (side : Fill → nat) (k : nat) (fs : list Fill) : Z :=
  executed (filter (λ f, side f = k) fs).

Lemma executed_cons f fs : executed (f :: fs) = f.(f_match).(mr_baseAmt) + executed fs.
Proof. done. Qed.

Lemma executed_app fs fs' : executed (fs ++ fs') = executed fs + executed fs'.
Proof. induction fs as [|f fs IH]; [done|]. cbn [app]. rewrite !executed_cons, IH. lia. Qed.

Lemma filled_app side k fs fs' : filled side k (fs ++ fs') = filled side k fs + filled side k fs'.
Proof. unfold filled. by rewrite filter_app, executed_app. Qed.

(** What a batch may change of an order. *)
Record same_order (s s' : OrderSnapshot) : Prop := {
  so_slot : s'.(sn_rem_idx) = s.(sn_rem_idx) ∧ s'.(sn_side) = s.(sn_side);
  so_times : s'.(sn_arrival_slot) = s.(sn_arrival_slot) ∧ s'.(sn_expiry_slot) = s.(sn_expiry_slot);
  so_limits : s'.(sn_price_limit) = s.(sn_price_limit) ∧ s'.(sn_min_fill_qty) = s.(sn_min_fill_qty);
  so_owner : s'.(sn_user_commitment) = s.(sn_user_commitment) ∧ s'.(sn_trading_key) = s.(sn_trading_key);
  so_id : s'.(sn_order_id) = s.(sn_order_id) ∧ s'.(sn_inclusion) = s.(sn_inclusion) }.

(** Its fate: killed whole, or filled by the matches it is in; a fill-or-kill
    order is filled completely or not at all. *)
Definition fate (s s' : OrderSnapshot) (x : Z) : Prop :=
  same_order s s' ∧
  ((s.(sn_order_type) = PENDING_TYPE_FOK ∧ s'.(sn_order_type) = KILLED ∧ 0 < s.(sn_amount) ∧ s'.(sn_amount) = 0 ∧ x = 0) ∨
   (s'.(sn_order_type) = s.(sn_order_type) ∧ 0 <= x ∧ 0 <= s'.(sn_amount) ∧ x + s'.(sn_amount) = s.(sn_amount) ∧
    (s.(sn_order_type) = PENDING_TYPE_FOK → x = 0 ∨ s'.(sn_amount) = 0))).

Lemma same_order_refl s : same_order s s.
Proof. by split. Qed.

Lemma same_order_trans s1 s2 s3 : same_order s1 s2 → same_order s2 s3 → same_order s1 s3.
Proof. intros [[] [] [] [] []] [[] [] [] [] []]. split; split; congruence. Qed.

Lemma same_order_set s amount type note na : same_order s (set_amount s amount type note na).
Proof. by split. Qed.

Lemma fate_none s : 0 <= s.(sn_amount) → fate s s 0.
Proof. intros Hs. split; [apply same_order_refl|]. right. split_and!; auto; lia. Qed.

Lemma fate_trans s1 s2 s3 x y : fate s1 s2 x → fate s2 s3 y → fate s1 s3 (x + y).
Proof.
  unfold KILLED, PENDING_TYPE_FOK. intros [S1 F1] [S2 F2]. split; [by eapply same_order_trans|].
  destruct F1 as [(T1 & K1 & P1 & A1 & ->)|(T1 & X1 & A1 & E1 & W1)], F2 as [(T2 & K2 & P2 & A2 & ->)|(T2 & X2 & A2 & E2 & W2)].
  - exfalso. rewrite K1 in T2. discriminate.
  - left. rewrite K1 in T2. split_and!; (done || lia).
  - left. rewrite T1 in T2. specialize (W1 T2). split_and!; (done || lia).
  - right. split_and!; [congruence|lia|lia|lia|]. intros HF. specialize (W1 HF). rewrite <-T1 in HF. specialize (W2 HF). lia.
Qed.

(** The notes an order spends, each with the change it leaves: every match
    after the first spends the change of the one before. *)
Definition spends (side : Fill → nat) (note change : MatchResultRecord → bytes) (k : nat) (fs : list Fill) : list (bytes * bytes) :=
  (λ f, (note f.(f_match), change f.(f_match))) <$> filter (λ f, side f = k) fs.

Fixpoint chained (note : bytes) (l : list (bytes * bytes)) : Prop :=
  match l with [] => True | (spent, change) :: l => spent = note ∧ chained change l end.

Section runs.
Context `{NodeCrypto} `{Poseidon}.
Context (p_star pyth_twap now_slot : Z) (base_mint quote_mint : bytes) (fee_rate_bps : Z).

Definition crosses (b a : OrderSnapshot) : Prop := p_star <= b.(sn_price_limit) ∧ a.(sn_price_limit) <= p_star.

(** An order that is filled at once or not at all. *)
Definition whole (s : OrderSnapshot) (crossable : Z) : Prop :=
  s.(sn_order_type) = PENDING_TYPE_FOK → s.(sn_amount) <= crossable.

Notation trades := (trade p_star pyth_twap now_slot base_mint quote_mint fee_rate_bps).

Inductive advance (st : MatchState) (b a : OrderSnapshot) : list Fill → MatchState → Prop :=
  | adv_apart : b.(sn_price_limit) < p_star ∨ p_star < a.(sn_price_limit) →
      advance st b a [] (skip st (b.(sn_price_limit) <? p_star) (p_star <? a.(sn_price_limit)))
  | adv_kill_bid : crosses b a → b.(sn_order_type) = PENDING_TYPE_FOK → a.(sn_amount) < b.(sn_amount) →
      advance st b a [] (kill_bid st b)
  | adv_kill_ask : crosses b a → a.(sn_order_type) = PENDING_TYPE_FOK → b.(sn_amount) < a.(sn_amount) →
      advance st b a [] (kill_ask st a)
  | adv_small : crosses b a →
      Z.min b.(sn_amount) a.(sn_amount) < b.(sn_min_fill_qty) ∨
      Z.min b.(sn_amount) a.(sn_amount) < a.(sn_min_fill_qty) →
      advance st b a [] (skip st (b.(sn_amount) <=? a.(sn_amount)) (negb (b.(sn_amount) <=? a.(sn_amount))))
  | adv_fill mr : crosses b a → let crossable := Z.min b.(sn_amount) a.(sn_amount) in
      whole b crossable → whole a crossable →
      b.(sn_min_fill_qty) <= crossable → a.(sn_min_fill_qty) <= crossable →
      trades b a crossable st.(ms_results).(br_nextMatchId) = Ok mr →
      advance st b a [{| f_bid := st.(ms_bi); f_ask := st.(ms_ai); f_match := mr |}] (fill_pair st b a mr).

Inductive auction_run : MatchState → list Fill → MatchState → Prop :=
  | run_done st : st.(ms_bids) !! st.(ms_bi) = None ∨ st.(ms_asks) !! st.(ms_ai) = None → auction_run st [] st
  | run_step st b a fs st1 fs' st2 :
      st.(ms_bids) !! st.(ms_bi) = Some b → st.(ms_asks) !! st.(ms_ai) = Some a →
      advance st b a fs st1 → auction_run st1 fs' st2 → auction_run st (fs ++ fs') st2.

Lemma match_step_cases st b a :
  (∃ fs st', match_step p_star pyth_twap now_slot base_mint quote_mint fee_rate_bps st b a = Ok st' ∧ advance st b a fs st') ∨
  (crosses b a ∧ ∃ e, match_step p_star pyth_twap now_slot base_mint quote_mint fee_rate_bps st b a = Throw e ∧
     trades b a (Z.min b.(sn_amount) a.(sn_amount)) st.(ms_results).(br_nextMatchId) = Throw e).
Proof.
  unfold match_step. cbv zeta. match goal with |- context [if ?c then _ else _] => destruct c eqn:E1 end.
  { left. eexists _, _. split; [reflexivity|]. apply adv_apart. apply orb_true_iff in E1. lia. }
  apply orb_false_iff in E1 as [Hl Hh]. assert (Hc : crosses b a) by (split; lia).
  match goal with |- context [if ?c then _ else _] => destruct c eqn:E2 end.
  { left. eexists _, _. split; [reflexivity|]. apply andb_true_iff in E2. apply adv_kill_bid; [done|lia|lia]. }
  assert (Wb : whole b (Z.min b.(sn_amount) a.(sn_amount))).
  { intros Hf. apply andb_false_iff in E2. lia. }
  match goal with |- context [if ?c then _ else _] => destruct c eqn:E3 end.
  { left. eexists _, _. split; [reflexivity|]. apply andb_true_iff in E3. apply adv_kill_ask; [done|lia|lia]. }
  assert (Wa : whole a (Z.min b.(sn_amount) a.(sn_amount))).
  { intros Hf. apply andb_false_iff in E3. lia. }
  match goal with |- context [if ?c then _ else _] => destruct c eqn:E4 end.
  { left. eexists _, _. split; [reflexivity|]. apply orb_true_iff in E4. apply adv_small; [done|lia]. }
  apply orb_false_iff in E4. destruct (trade _ _ _ _ _ _ _ _ _ _) as [mr|e] eqn:Ht; [left|right].
  - eexists _, _. split; [reflexivity|]. apply adv_fill; (done || lia).
  - split; [done|]. by exists e.
Qed.

(** What a match states of the two orders it crosses. *)
Record fair_match (b a : OrderSnapshot) (mr : MatchResultRecord) : Prop := {
  fm_buyer : mr.(mr_noteBuyer) = b.(sn_collateral_note) ∧ mr.(mr_ownerBuyer) = b.(sn_trading_key) ∧
    mr.(mr_userCommitmentBuyer) = b.(sn_user_commitment) ∧ mr.(mr_buyerNoteValue) = b.(sn_note_amount);
  fm_seller : mr.(mr_noteSeller) = a.(sn_collateral_note) ∧ mr.(mr_ownerSeller) = a.(sn_trading_key) ∧
    mr.(mr_userCommitmentSeller) = a.(sn_user_commitment) ∧ mr.(mr_sellerNoteValue) = a.(sn_note_amount);
  fm_legs : mr.(mr_baseAmt) = Z.min b.(sn_amount) a.(sn_amount) ∧ mr.(mr_quoteAmt) = mr.(mr_baseAmt) * p_star ∧
    mr.(mr_quoteAmt) < U64 ∧ mr.(mr_price) = p_star ∧ mr.(mr_status) = 1 ∧ mr.(mr_batchSlot) = now_slot ∧
    mr.(mr_pythAtMatch) = pyth_twap;
  fm_conserved :
    mr.(mr_buyerNoteValue) = mr.(mr_quoteAmt) + mr.(mr_buyerChangeAmt) + mr.(mr_buyerFeeAmt) ∧
    mr.(mr_sellerNoteValue) = mr.(mr_baseAmt) + mr.(mr_sellerChangeAmt) + mr.(mr_sellerFeeAmt) ∧
    0 <= mr.(mr_buyerChangeAmt) ∧ 0 <= mr.(mr_sellerChangeAmt);
  fm_fees : mr.(mr_buyerFeeAmt) = fee_at fee_rate_bps mr.(mr_quoteAmt) ∧
    mr.(mr_sellerFeeAmt) = fee_at fee_rate_bps mr.(mr_baseAmt);
  fm_change :
    change_note quote_mint mr.(mr_buyerChangeAmt) b.(sn_user_commitment) mr.(mr_matchId) CHANGE_ROLE_BUYER = Ok mr.(mr_noteE) ∧
    change_note base_mint mr.(mr_sellerChangeAmt) a.(sn_user_commitment) mr.(mr_matchId) CHANGE_ROLE_SELLER = Ok mr.(mr_noteF);
  fm_relock :
    (mr.(mr_buyerRelockOrderId), mr.(mr_buyerRelockExpiry)) =
      relock_of b (relocks b (saturating_sub b.(sn_amount) mr.(mr_baseAmt)) mr.(mr_buyerChangeAmt)) ∧
    (mr.(mr_sellerRelockOrderId), mr.(mr_sellerRelockExpiry)) =
      relock_of a (relocks a (saturating_sub a.(sn_amount) mr.(mr_baseAmt)) mr.(mr_sellerChangeAmt)) }.

Lemma trade_inv b a id mr :
  trades b a (Z.min b.(sn_amount) a.(sn_amount)) id = Ok mr → fair_match b a mr ∧ mr.(mr_matchId) = id.
Proof.
  unfold trade, u64_add, u64_sub. set (c := Z.min _ _). intros Ht. apply res_bind_Ok in Ht as ([] & Hq & Ht).
  apply throw_if_Ok in Hq. do 4 (apply res_bind_Ok in Ht as (? & Hx & Ht);
    match type of Hx with (if ?c then _ else _) = _ => destruct c eqn:?; [|discriminate Hx] end; apply Ok_inj in Hx as <-).
  apply res_bind_Ok in Ht as (e & He & Ht). apply res_bind_Ok in Ht as (f & Hf & Ht). apply Ok_inj in Ht as <-.
  split; [|done]. split; cbn [mr_noteBuyer mr_noteSeller mr_noteE mr_noteF mr_ownerBuyer mr_ownerSeller mr_userCommitmentBuyer
    mr_userCommitmentSeller mr_buyerNoteValue mr_sellerNoteValue mr_baseAmt mr_quoteAmt mr_buyerChangeAmt mr_sellerChangeAmt
    mr_buyerFeeAmt mr_sellerFeeAmt mr_buyerRelockOrderId mr_buyerRelockExpiry mr_sellerRelockOrderId mr_sellerRelockExpiry
    mr_price mr_pythAtMatch mr_batchSlot mr_matchId mr_status].
  - by split_and!.
  - by split_and!.
  - split_and!; (done || lia).
  - split_and!; lia.
  - done.
  - done.
  - by rewrite <-!surjective_pairing.
Qed.

Lemma match_loop_run fuel st st' :
  match_loop p_star pyth_twap now_slot base_mint quote_mint fee_rate_bps fuel st = Ok st' → ∃ fs, auction_run st fs st'.
Proof.
  revert st. induction fuel as [|fuel IH]; intros st Hr; [done|]. cbn [match_loop] in Hr.
  destruct (_ !! st.(ms_bi)) as [b|] eqn:Hb; [|apply Ok_inj in Hr as <-; exists []; by apply run_done; left].
  destruct (_ !! st.(ms_ai)) as [a|] eqn:Ha; [|apply Ok_inj in Hr as <-; exists []; by apply run_done; right].
  apply res_bind_Ok in Hr as (st1 & Hs & Hr). destruct (IH _ Hr) as (fs' & Hrun).
  destruct (match_step_cases st b a) as [(fs & st2 & Hs' & Hadv)|(_ & e & Hs' & _)]; [|congruence].
  exists (fs ++ fs'). eapply run_step; [done|done| |done]. congruence.
Qed.

(** *** Termination *)

Definition orders_left (st : MatchState) : nat :=
  (length st.(ms_bids) - st.(ms_bi)) + (length st.(ms_asks) - st.(ms_ai)).

Definition state_ok (st : MatchState) : Prop := amounts_ok st.(ms_bids) ∧ amounts_ok st.(ms_asks).

Lemma after_fill_amount s r rl note ch : (after_fill s r rl note ch).(sn_amount) = r.
Proof. unfold after_fill. by destruct rl. Qed.

Lemma advance_progress st b a fs st' :
  state_ok st → st.(ms_bids) !! st.(ms_bi) = Some b → st.(ms_asks) !! st.(ms_ai) = Some a → advance st b a fs st' →
  state_ok st' ∧ (orders_left st' + length fs <= orders_left st)%nat ∧ (orders_left st' < orders_left st)%nat.
Proof.
  intros [Ob Oa] Hb Ha Hadv. pose proof (lookup_lt_Some _ _ _ Hb). pose proof (lookup_lt_Some _ _ _ Ha).
  assert (0 <= b.(sn_amount)) by by apply (proj1 (Forall_lookup _ _) Ob _ _ Hb).
  assert (0 <= a.(sn_amount)) by by apply (proj1 (Forall_lookup _ _) Oa _ _ Ha).
  assert (Hup : ∀ l k s, amounts_ok l → 0 <= s.(sn_amount) → amounts_ok (<[k := s]> l)) by (intros; by apply Forall_insert).
  unfold state_ok, orders_left. destruct Hadv as [Hap|_ _ _|_ _ _|_ _|mr _ c _ _ _ _ Ht];
    cbn [skip kill_bid kill_ask fill_pair ms_bids ms_asks ms_bi ms_ai length]; rewrite ?length_insert.
  - split; [by split|]. destruct (Z.ltb_spec b.(sn_price_limit) p_star), (Z.ltb_spec p_star a.(sn_price_limit)); lia.
  - split; [split; [apply Hup; [done|cbn; lia]|done]|]. lia.
  - split; [split; [done|apply Hup; [done|cbn; lia]]|]. lia.
  - split; [by split|]. destruct (_ <=? _); cbn [negb]; lia.
  - apply trade_inv in Ht as [Hf _]. destruct (fm_legs _ _ _ Hf) as (-> & _). unfold saturating_sub.
    split; [split; apply Hup; [done|rewrite after_fill_amount; lia|done|rewrite after_fill_amount; lia]|].
    destruct (Z.eqb_spec (Z.max 0 (b.(sn_amount) - Z.min b.(sn_amount) a.(sn_amount))) 0),
      (Z.eqb_spec (Z.max 0 (a.(sn_amount) - Z.min b.(sn_amount) a.(sn_amount))) 0); lia.
Qed.

(** No more matches than orders: each step uses one up. *)
Lemma run_length st fs st' : state_ok st → auction_run st fs st' → state_ok st' ∧ (length fs <= orders_left st)%nat.
Proof.
  intros Hok Hr. induction Hr as [st|st b a fs st1 fs' st2 Hb Ha Hadv Hr IH]; [by split; [|cbn; lia]|].
  destruct (advance_progress _ _ _ _ _ Hok Hb Ha Hadv) as (Hok1 & Hl & _). destruct (IH Hok1) as [? ?].
  rewrite length_app. split; [done|lia].
Qed.

(** With fuel for every order, a run that fails fails in a trade. *)
Lemma match_loop_total fuel st :
  state_ok st → (orders_left st < fuel)%nat →
  (∃ st', match_loop p_star pyth_twap now_slot base_mint quote_mint fee_rate_bps fuel st = Ok st') ∨
  (∃ e b a c id, match_loop p_star pyth_twap now_slot base_mint quote_mint fee_rate_bps fuel st = Throw e ∧
     trades b a c id = Throw e).
Proof.
  revert st. induction fuel as [|fuel IH]; intros st Hok Hf; [lia|]. cbn [match_loop].
  destruct (_ !! st.(ms_bi)) as [b|] eqn:Hb; [|left; by eexists]. destruct (_ !! st.(ms_ai)) as [a|] eqn:Ha; [|left; by eexists].
  destruct (match_step_cases st b a) as [(fs & st1 & -> & Hadv)|(_ & e & -> & Ht)]; cbn [mbind res_bind].
  - destruct (advance_progress _ _ _ _ _ Hok Hb Ha Hadv) as (Hok1 & _ & Hlt). apply IH; [done|lia].
  - right. by exists e, b, a, (Z.min b.(sn_amount) a.(sn_amount)), st.(ms_results).(br_nextMatchId).
Qed.

(** *** What becomes of the orders *)

Definition fates (side : Fill → nat) (l l' : list OrderSnapshot) (fs : list Fill) : Prop :=
  ∀ k s, l !! k = Some s → ∃ s', l' !! k = Some s' ∧ fate s s' (filled side k fs).

Lemma fates_none side l : amounts_ok l → fates side l l [].
Proof. intros Hl k s Hs. exists s. split; [done|]. apply fate_none. by apply (proj1 (Forall_lookup _ _) Hl _ _ Hs). Qed.

Lemma fates_trans side l1 l2 l3 fs fs' : fates side l1 l2 fs → fates side l2 l3 fs' → fates side l1 l3 (fs ++ fs').
Proof.
  intros F1 F2 k s Hs. destruct (F1 k s Hs) as (s1 & Hs1 & Hf1), (F2 k s1 Hs1) as (s2 & Hs2 & Hf2).
  exists s2. split; [done|]. rewrite filled_app. by eapply fate_trans.
Qed.

Lemma fates_insert (side : Fill → nat) l i s s' fs :
  amounts_ok l → l !! i = Some s → Forall (λ f, side f = i) fs → fate s s' (executed fs) →
  fates side l (<[i := s']> l) fs.
Proof.
  intros Hl Hi Hfs Hf k t Ht. assert (Hk : filter (λ f, side f = k) fs = if decide (k = i) then fs else []).
  { clear Hf. induction Hfs as [|f fs Hside Hfs IH]; [by case_decide|]. rewrite filter_cons, IH. repeat case_decide; congruence. }
  unfold filled. rewrite Hk. destruct (decide (k = i)) as [->|Hne].
  - exists s'. rewrite list_lookup_insert_eq by by eapply lookup_lt_Some. split; [done|]. congruence.
  - exists t. rewrite list_lookup_insert_ne by done. split; [done|]. apply fate_none.
    by apply (proj1 (Forall_lookup _ _) Hl _ _ Ht).
Qed.

Lemma fate_kill s : s.(sn_order_type) = PENDING_TYPE_FOK → 0 < s.(sn_amount) → fate s (kill s) 0.
Proof. intros Ht Hs. split; [apply same_order_set|]. by left. Qed.

Lemma fate_filled s x r rl note ch :
  0 <= x <= s.(sn_amount) → whole s x → r = saturating_sub s.(sn_amount) x → fate s (after_fill s r rl note ch) x.
Proof.
  intros Hx Hw ->. unfold saturating_sub, whole, after_fill in *. split; [by destruct rl|]. right.
  destruct rl; cbn [set_amount sn_order_type sn_amount]; split_and!; try done; try lia; intros HF; specialize (Hw HF); lia.
Qed.

Lemma advance_fates st b a fs st' :
  state_ok st → st.(ms_bids) !! st.(ms_bi) = Some b → st.(ms_asks) !! st.(ms_ai) = Some a → advance st b a fs st' →
  fates f_bid st.(ms_bids) st'.(ms_bids) fs ∧ fates f_ask st.(ms_asks) st'.(ms_asks) fs.
Proof.
  intros [Ob Oa] Hb Ha Hadv.
  assert (0 <= b.(sn_amount)) by by apply (proj1 (Forall_lookup _ _) Ob _ _ Hb).
  assert (0 <= a.(sn_amount)) by by apply (proj1 (Forall_lookup _ _) Oa _ _ Ha).
  destruct Hadv as [_|_ Hf Hlt|_ Hf Hlt|_ _|mr _ c Wb Wa _ _ Ht]; cbn [skip kill_bid kill_ask fill_pair ms_bids ms_asks].
  - split; by apply fates_none.
  - split; [|by apply fates_none]. eapply fates_insert; [done|done|done|]. apply fate_kill; [done|lia].
  - split; [by apply fates_none|]. eapply fates_insert; [done|done|done|]. apply fate_kill; [done|lia].
  - split; by apply fates_none.
  - apply trade_inv in Ht as [Hf _]. destruct (fm_legs _ _ _ Hf) as (Hbase & _). fold c in Hbase.
    split; (eapply fates_insert; [done|done|by repeat constructor|]); rewrite executed_cons; cbn [f_match];
      change (executed []) with 0; rewrite Hbase, Z.add_0_r; apply fate_filled; (done || lia).
Qed.

Lemma run_fates st fs st' : state_ok st → auction_run st fs st' →
  fates f_bid st.(ms_bids) st'.(ms_bids) fs ∧ fates f_ask st.(ms_asks) st'.(ms_asks) fs.
Proof.
  intros Hok Hr. induction Hr as [st|st b a fs st1 fs' st2 Hb Ha Hadv Hr IH].
  - destruct Hok. split; by apply fates_none.
  - destruct (advance_progress _ _ _ _ _ Hok Hb Ha Hadv) as (Hok1 & _ & _). destruct (IH Hok1) as [Fb Fa].
    destruct (advance_fates _ _ _ _ _ Hok Hb Ha Hadv) as [Gb Ga]. split; by eapply fates_trans.
Qed.

Lemma run_length_orders st fs st' : auction_run st fs st' →
  length st'.(ms_bids) = length st.(ms_bids) ∧ length st'.(ms_asks) = length st.(ms_asks).
Proof.
  induction 1 as [|st b a fs st1 fs' st2 Hb Ha Hadv Hr [-> ->]]; [done|].
  destruct Hadv; cbn [skip kill_bid kill_ask fill_pair ms_bids ms_asks]; by rewrite ?length_insert.
Qed.

(** The orders are the same ones, in the same places. *)
Lemma run_same st fs st' : state_ok st → auction_run st fs st' →
  Forall2 (λ s s', same_order s s' ∧ 0 <= s'.(sn_amount)) st.(ms_bids) st'.(ms_bids) ∧
  Forall2 (λ s s', same_order s s' ∧ 0 <= s'.(sn_amount)) st.(ms_asks) st'.(ms_asks).
Proof.
  intros Hok Hr. destruct (run_fates _ _ _ Hok Hr) as [Fb Fa], (run_length_orders _ _ _ Hr) as [Lb La].
  assert (Hgen : ∀ side l l', fates side l l' fs → length l' = length l →
    Forall2 (λ s s', same_order s s' ∧ 0 <= s'.(sn_amount)) l l').
  { intros side l l' HF HL. apply Forall2_same_length_lookup_2; [done|]. intros k s s' Hs Hs'.
    destruct (HF k s Hs) as (s1 & Hs1 & Hsame & Hf). replace s1 with s' in * by congruence. split; [done|].
    destruct Hf as [(_ & _ & _ & -> & _)|(_ & _ & ? & _)]; lia. }
  split; by eapply Hgen.
Qed.

(** *** What the matches are *)

(** A match between two orders of a state, as they stood when they met. *)
Definition fair_fill (st : MatchState) (f : Fill) : Prop :=
  ∃ b0 a0 b a, st.(ms_bids) !! f.(f_bid) = Some b0 ∧ st.(ms_asks) !! f.(f_ask) = Some a0 ∧
    same_order b0 b ∧ same_order a0 a ∧ crosses b0 a0 ∧
    b0.(sn_min_fill_qty) <= f.(f_match).(mr_baseAmt) ∧ a0.(sn_min_fill_qty) <= f.(f_match).(mr_baseAmt) ∧
    fair_match b a f.(f_match).

Lemma run_results st fs st' : auction_run st fs st' →
  st'.(ms_results) = foldl record_match st.(ms_results) (f_match <$> fs) ∧
  st'.(ms_produced) = st.(ms_produced) + Z.of_nat (length fs).
Proof.
  induction 1 as [st|st b a fs st1 fs' st2 Hb Ha Hadv Hr [IHr IHp]]; [split; [done|cbn; lia]|].
  rewrite IHr, IHp, fmap_app, foldl_app, length_app.
  destruct Hadv; cbn [skip kill_bid kill_ask fill_pair ms_results ms_produced fmap list_fmap foldl f_match length]; split; (done || lia).
Qed.

Lemma run_fair st fs st' : state_ok st → auction_run st fs st' → Forall (fair_fill st) fs.
Proof.
  intros Hok Hr. induction Hr as [st|st b a fs st1 fs' st2 Hb Ha Hadv Hr IH]; [constructor|].
  destruct (advance_progress _ _ _ _ _ Hok Hb Ha Hadv) as (Hok1 & _ & _). specialize (IH Hok1).
  apply Forall_app. split.
  - destruct Hadv as [_|_ _ _|_ _ _|_ _|mr Hc c _ _ Mb Ma Ht]; constructor; [|constructor].
    apply trade_inv in Ht as [Hf _]. destruct (fm_legs _ _ _ Hf) as (Hbase & _).
    exists b, a, b, a. cbn [f_bid f_ask f_match]. rewrite Hbase. split_and!; try done; apply same_order_refl.
  - destruct (advance_fates _ _ _ _ _ Hok Hb Ha Hadv) as [Gb Ga]. eapply Forall_impl; [exact IH|].
    intros f (b1 & a1 & b2 & a2 & Hb1 & Ha1 & Sb & Sa & Hc & Mb & Ma & Hf).
    destruct (lookup_lt_is_Some_2 st.(ms_bids) f.(f_bid)) as [b0 Hb0].
    { apply lookup_lt_Some in Hb1. destruct Hadv; cbn in Hb1; rewrite ?length_insert in Hb1; done. }
    destruct (lookup_lt_is_Some_2 st.(ms_asks) f.(f_ask)) as [a0 Ha0].
    { apply lookup_lt_Some in Ha1. destruct Hadv; cbn in Ha1; rewrite ?length_insert in Ha1; done. }
    destruct (Gb _ _ Hb0) as (b1' & Hb1' & Fb & _), (Ga _ _ Ha0) as (a1' & Ha1' & Fa & _).
    replace b1' with b1 in * by congruence. replace a1' with a1 in * by congruence.
    exists b0, a0, b2, a2. pose proof (so_limits _ _ Fb) as [Pb Qb]. pose proof (so_limits _ _ Fa) as [Pa Qa].
    unfold crosses in *. split_and!; [done|done|by eapply same_order_trans|by eapply same_order_trans|lia|lia|lia|lia|done].
Qed.

(** *** How much is executed, and in which order *)

(** An order that trades any part of itself and rests. *)
Definition plain (s : OrderSnapshot) : Prop := s.(sn_order_type) = PENDING_TYPE_LIMIT ∧ s.(sn_min_fill_qty) <= 0.

Definition bids_passed (st : MatchState) : Prop :=
  ∀ k b, (k < st.(ms_bi))%nat → st.(ms_bids) !! k = Some b → p_star <= b.(sn_price_limit) → b.(sn_amount) = 0.
Definition asks_passed (st : MatchState) : Prop :=
  ∀ k a, (k < st.(ms_ai))%nat → st.(ms_asks) !! k = Some a → a.(sn_price_limit) <= p_star → a.(sn_amount) = 0.

Definition plain_state (st : MatchState) : Prop :=
  Forall plain st.(ms_bids) ∧ Forall plain st.(ms_asks) ∧ bids_passed st ∧ asks_passed st.

Lemma after_fill_type s r rl note ch : (after_fill s r rl note ch).(sn_order_type) = s.(sn_order_type).
Proof. unfold after_fill. by destruct rl. Qed.
Lemma after_fill_limits s r rl note ch :
  (after_fill s r rl note ch).(sn_price_limit) = s.(sn_price_limit) ∧
  (after_fill s r rl note ch).(sn_min_fill_qty) = s.(sn_min_fill_qty).
Proof. unfold after_fill. by destruct rl. Qed.

Lemma plain_advance st b a fs st' :
  state_ok st → plain_state st → st.(ms_bids) !! st.(ms_bi) = Some b → st.(ms_asks) !! st.(ms_ai) = Some a →
  advance st b a fs st' → plain_state st'.
Proof.
  intros [Ob Oa] (Pb & Pa & Qb & Qa) Hb Ha Hadv.
  destruct (proj1 (Forall_lookup _ _) Pb _ _ Hb) as [Tb Mb], (proj1 (Forall_lookup _ _) Pa _ _ Ha) as [Ta Ma].
  assert (0 <= b.(sn_amount)) by by apply (proj1 (Forall_lookup _ _) Ob _ _ Hb).
  assert (0 <= a.(sn_amount)) by by apply (proj1 (Forall_lookup _ _) Oa _ _ Ha).
  destruct Hadv as [Hap|_ Hf _|_ Hf _|_ Hs|mr Hc c _ _ _ _ Ht].
  - split_and!; [done|done| |]; intros k s Hk Hs Hp; cbn [skip ms_bids ms_asks ms_bi ms_ai] in *.
    + destruct (Z.ltb_spec b.(sn_price_limit) p_star); [|by eapply Qb]. destruct (decide (k = st.(ms_bi))) as [->|].
      * rewrite Hb in Hs. injection Hs as <-. lia.
      * apply (Qb k); [lia|done|done].
    + destruct (Z.ltb_spec p_star a.(sn_price_limit)); [|by eapply Qa]. destruct (decide (k = st.(ms_ai))) as [->|].
      * rewrite Ha in Hs. injection Hs as <-. lia.
      * apply (Qa k); [lia|done|done].
  - rewrite Tb in Hf. discriminate.
  - rewrite Ta in Hf. discriminate.
  - lia.
  - apply trade_inv in Ht as [Hf _]. destruct (fm_legs _ _ _ Hf) as (Hbase & _).
    split_and!; cbn [fill_pair ms_bids ms_asks].
    + apply Forall_insert; [done|]. split; [by rewrite after_fill_type|]. by rewrite (proj2 (after_fill_limits _ _ _ _ _)).
    + apply Forall_insert; [done|]. split; [by rewrite after_fill_type|]. by rewrite (proj2 (after_fill_limits _ _ _ _ _)).
    + intros k s Hk Hs Hp. cbn [fill_pair ms_bi ms_bids] in *. destruct (decide (k = st.(ms_bi))) as [->|Hne].
      * rewrite list_lookup_insert_eq in Hs by by eapply lookup_lt_Some. injection Hs as <-. rewrite after_fill_amount.
        destruct (Z.eqb_spec (saturating_sub b.(sn_amount) mr.(mr_baseAmt)) 0); [done|lia].
      * rewrite list_lookup_insert_ne in Hs by done. apply (Qb k); [|done|done]. destruct (_ =? 0); lia.
    + intros k s Hk Hs Hp. cbn [fill_pair ms_ai ms_asks] in *. destruct (decide (k = st.(ms_ai))) as [->|Hne].
      * rewrite list_lookup_insert_eq in Hs by by eapply lookup_lt_Some. injection Hs as <-. rewrite after_fill_amount.
        destruct (Z.eqb_spec (saturating_sub a.(sn_amount) mr.(mr_baseAmt)) 0); [done|lia].
      * rewrite list_lookup_insert_ne in Hs by done. apply (Qa k); [|done|done]. destruct (_ =? 0); lia.
Qed.

Lemma total_insert P `{∀ x, Decision (P x)} l i s s' :
  l !! i = Some s → (P s ↔ P s') → P s →
  total (filter P (<[i := s']> l)) = total (filter P l) - s.(sn_amount) + s'.(sn_amount).
Proof.
  intros Hi Hp Hs. revert i Hi. induction l as [|x l IH]; intros [|i] Hi; [done|done| |].
  - injection Hi as ->. change (<[0%nat := s']> (s :: l)) with (s' :: l). rewrite !filter_cons, !decide_True by tauto. rewrite !total_cons. lia.
  - change (<[S i := s']> (x :: l)) with (x :: <[i := s']> l). rewrite !filter_cons.
    case_decide; rewrite ?total_cons, (IH i) by done; lia.
Qed.

Lemma total_zero P `{∀ x, Decision (P x)} l : (∀ k s, l !! k = Some s → P s → s.(sn_amount) = 0) → total (filter P l) = 0.
Proof.
  induction l as [|x l IH]; intros Hz; [done|]. assert (IH' : total (filter P l) = 0) by (apply IH; intros k s Hk; apply (Hz (S k) s Hk)).
  rewrite filter_cons. case_decide as Hx; [|done]. rewrite total_cons, (Hz 0%nat x eq_refl Hx). lia.
Qed.

Lemma run_volume st fs st' : state_ok st → plain_state st → auction_run st fs st' →
  executed fs = tradable st.(ms_bids) st.(ms_asks) p_star.
Proof.
  intros Hok Hpl Hr. induction Hr as [st Hd|st b a fs st1 fs' st2 Hb Ha Hadv Hr IH].
  - destruct Hok as [Ob Oa], Hpl as (_ & _ & Qb & Qa). unfold tradable, crossing_bids, crossing_asks. change (executed []) with 0.
    pose proof (total_nonneg _ (amounts_ok_filter (λ b, p_star <= b.(sn_price_limit)) _ Ob)).
    pose proof (total_nonneg _ (amounts_ok_filter (λ a, a.(sn_price_limit) <= p_star) _ Oa)).
    destruct Hd as [Hd|Hd]; apply lookup_ge_None in Hd.
    + rewrite (total_zero (λ b, p_star <= b.(sn_price_limit)) st.(ms_bids)); [lia|]. intros k s Hk Hs.
      apply (Qb k s); [|done|done]. apply lookup_lt_Some in Hk. lia.
    + rewrite (total_zero (λ a, a.(sn_price_limit) <= p_star) st.(ms_asks)); [lia|]. intros k s Hk Hs.
      apply (Qa k s); [|done|done]. apply lookup_lt_Some in Hk. lia.
  - destruct (advance_progress _ _ _ _ _ Hok Hb Ha Hadv) as (Hok1 & _ & _).
    specialize (IH Hok1 (plain_advance _ _ _ _ _ Hok Hpl Hb Ha Hadv)). rewrite executed_app, IH. clear IH Hr Hok1.
    destruct Hok as [Ob Oa], Hpl as (Pb & Pa & _ & _).
    destruct (proj1 (Forall_lookup _ _) Pb _ _ Hb) as [Tb Mb], (proj1 (Forall_lookup _ _) Pa _ _ Ha) as [Ta Ma].
    assert (0 <= b.(sn_amount)) by by apply (proj1 (Forall_lookup _ _) Ob _ _ Hb).
    assert (0 <= a.(sn_amount)) by by apply (proj1 (Forall_lookup _ _) Oa _ _ Ha).
    destruct Hadv as [_|_ Hf _|_ Hf _|_ Hs|mr [Cb Ca] c _ _ _ _ Ht].
    + done.
    + rewrite Tb in Hf. discriminate.
    + rewrite Ta in Hf. discriminate.
    + done.
    + apply trade_inv in Ht as [Hf _]. destruct (fm_legs _ _ _ Hf) as (Hbase & _).
      unfold tradable, crossing_bids, crossing_asks. cbn [fill_pair ms_bids ms_asks]. rewrite executed_cons. cbn [f_match].
      change (executed []) with 0.
      rewrite (total_insert (λ b, p_star <= b.(sn_price_limit)) _ _ b), (total_insert (λ a, a.(sn_price_limit) <= p_star) _ _ a);
        [|done|by rewrite (proj1 (after_fill_limits _ _ _ _ _))|done|done|by rewrite (proj1 (after_fill_limits _ _ _ _ _))|done].
      rewrite !after_fill_amount, Hbase. unfold saturating_sub. lia.
Qed.

(** A later order trades only when every better one is exhausted. *)
Lemma run_priority st fs st' : state_ok st → plain_state st → auction_run st fs st' →
  Forall (λ f,
    (∀ k b, (k < f.(f_bid))%nat → st'.(ms_bids) !! k = Some b → p_star <= b.(sn_price_limit) → b.(sn_amount) = 0) ∧
    (∀ k a, (k < f.(f_ask))%nat → st'.(ms_asks) !! k = Some a → a.(sn_price_limit) <= p_star → a.(sn_amount) = 0)) fs.
Proof.
  intros Hok Hpl Hr. induction Hr as [st|st b a fs st1 fs' st2 Hb Ha Hadv Hr IH]; [constructor|].
  destruct (advance_progress _ _ _ _ _ Hok Hb Ha Hadv) as (Hok1 & _ & _).
  apply Forall_app. split; [|apply IH; [done|exact (plain_advance _ _ _ _ _ Hok Hpl Hb Ha Hadv)]]. clear IH.
  destruct (run_fates _ _ _ Hok (run_step _ _ _ _ _ _ _ Hb Ha Hadv Hr)) as [Fb Fa], Hpl as (_ & _ & Qb & Qa).
  assert (Hdone : ∀ side l l' i k s' (P : Z → Prop), fates side l l' (fs ++ fs') → (k < i)%nat → (i < length l)%nat →
    (∀ s, l !! k = Some s → P s.(sn_price_limit) → s.(sn_amount) = 0) →
    l' !! k = Some s' → P s'.(sn_price_limit) → s'.(sn_amount) = 0).
  { intros side l l' i k s' P HF Hk Hi Hz Hs' HP. destruct (lookup_lt_is_Some_2 l k) as [s Hs]; [lia|].
    destruct (HF k s Hs) as (s1 & Hs1 & Hsame & Hf). replace s1 with s' in * by congruence.
    pose proof (so_limits _ _ Hsame) as [Hp _]. rewrite Hp in HP. specialize (Hz s Hs HP).
    destruct Hf as [(_ & _ & Hpos & _)|(_ & X & A & E & _)]; lia. }
  pose proof (lookup_lt_Some _ _ _ Hb) as Lb. pose proof (lookup_lt_Some _ _ _ Ha) as La.
  destruct Hadv as [_|_ _ _|_ _ _|_ _|mr Hc c _ _ _ _ Ht]; [by constructor ..|]. constructor; [|constructor]. cbn [f_bid f_ask]. split.
  - intros k s' Hk Hs' HP. eapply (Hdone _ _ _ _ k s' (λ x, p_star <= x) Fb Hk Lb); [|done|done]. intros s Hs. by apply (Qb k).
  - intros k s' Hk Hs' HP. eapply (Hdone _ _ _ _ k s' (λ x, x <= p_star) Fa Hk La); [|done|done]. intros s Hs. by apply (Qa k).
Qed.

(** *** Types *)

(** The fields of a [PendingOrder] have their widths. *)
Record snapshot_typed (s : OrderSnapshot) : Prop := {
  st_keys : length s.(sn_collateral_note) = 32%nat ∧ length s.(sn_user_commitment) = 32%nat ∧
    length s.(sn_trading_key) = 32%nat ∧ length s.(sn_order_id) = 16%nat ∧ length s.(sn_inclusion) = 32%nat;
  st_words : u64_ok s.(sn_amount) ∧ u64_ok s.(sn_price_limit) ∧ u64_ok s.(sn_note_amount) ∧ u64_ok s.(sn_expiry_slot) }.

Definition typed_state (st : MatchState) : Prop :=
  Forall snapshot_typed st.(ms_bids) ∧ Forall snapshot_typed st.(ms_asks) ∧ batch_results_wf st.(ms_results).

Lemma saturating_add_u64 a b : 0 <= a → 0 <= b → u64_ok (saturating_add a b).
Proof. unfold u64_ok, saturating_add, U64. lia. Qed.

Lemma change_note_length mint ch uc id role c : change_note mint ch uc id role = Ok c → length c = 32%nat.
Proof.
  unfold change_note. destruct (0 <? ch); [|by intros [= <-]].
  destruct (commitment_from_fields _ _ _ _ _) as [x|] eqn:Hc; [|done]. intros [= <-].
  unfold commitment_from_fields, pubkey_to_fr_pair in Hc. cbn beta iota zeta in Hc. inv_res. subst x. apply length_be_bytes.
Qed.

Lemma typed_result br mr : batch_results_wf br → match_result_wf mr → batch_results_wf (record_match br mr).
Proof.
  intros (Hm & Hi & Hw & Hb & Hl & Hr & Hf & Ha) Hmr. pose proof Hmr as (_ & _ & Hu & _). decompose_Forall_hyps.
  assert (Hadd : ∀ x acc, u64_ok x → fee_wf acc → fee_wf (add_fees x acc)).
  { intros x acc [Hx _] (? & ? & [? ?] & ?). split_and!; try done; by apply saturating_add_u64. }
  unfold batch_results_wf. cbn [record_match br_market br_lastInclusionRoot br_lastBatchSlot br_lastMatchCount br_lastClearingPrice
    br_lastPythTwap br_writeCursor br_nextMatchId br_bump br_results br_feeAccumulators].
  rewrite length_insert, !length_alter. split_and!; try done.
  - repeat constructor; try (apply saturating_add_u64; [unfold u64_ok in *; lia|done]); try (unfold u64_ok in *; lia).
  - by apply Forall_insert.
  - apply Forall_alter; [|intros; by apply Hadd]. apply Forall_alter; [done|intros; by apply Hadd].
Qed.

Lemma fair_match_typed b a mr :
  u64_ok p_star → u64_ok pyth_twap → u64_ok now_slot → u64_ok mr.(mr_matchId) → snapshot_typed b → snapshot_typed a →
  fair_match b a mr → match_result_wf mr.
Proof.
  intros Hp Ht Hn Hid [(B1 & B2 & B3 & B4 & B5) (B6 & B7 & B8 & B9)] [(A1 & A2 & A3 & A4 & A5) (A6 & A7 & A8 & A9)]
    [(F1 & F2 & F3 & F4) (G1 & G2 & G3 & G4) (L1 & L2 & L3 & L4 & L5 & L6 & L7) (C1 & C2 & C3 & C4) (D1 & D2) (E1 & E2) (R1 & R2)].
  pose proof (change_note_length _ _ _ _ _ _ E1). pose proof (change_note_length _ _ _ _ _ _ E2).
  assert (Hfee : ∀ r x, u64_ok (fee_at r x)) by (intros; unfold u64_ok, fee_at; by apply Z.mod_pos_bound).
  pose proof (Hfee fee_rate_bps mr.(mr_quoteAmt)). pose proof (Hfee fee_rate_bps mr.(mr_baseAmt)).
  assert (Hrl : ∀ s rl id ex, (id, ex) = relock_of s rl → length s.(sn_order_id) = 16%nat → u64_ok s.(sn_expiry_slot) →
    length id = 16%nat ∧ u64_ok ex).
  { intros s rl id ex Hr Hs Hx. unfold relock_of in Hr. destruct rl; injection Hr as -> ->; by split. }
  destruct (Hrl _ _ _ _ R1 B4 B9), (Hrl _ _ _ _ R2 A4 A9).
  assert (0 <= mr.(mr_baseAmt) * p_star) by (unfold u64_ok in *; nia).
  split; [repeat constructor; congruence|]. split; [by repeat constructor|].
  split; [|unfold u8_ok; lia]. repeat constructor; unfold u64_ok in *; lia.
Qed.

Lemma typed_after_fill s r rl note ch :
  snapshot_typed s → u64_ok r → length note = 32%nat → u64_ok ch → snapshot_typed (after_fill s r rl note ch).
Proof. intros [(? & ? & ? & ? & ?) (? & ? & ? & ?)] ? ? ?. unfold after_fill. destruct rl; split; by split_and!. Qed.

Lemma typed_advance st b a fs st' :
  u64_ok p_star → u64_ok pyth_twap → u64_ok now_slot → typed_state st →
  st.(ms_bids) !! st.(ms_bi) = Some b → st.(ms_asks) !! st.(ms_ai) = Some a → advance st b a fs st' → typed_state st'.
Proof.
  intros Hp Ht Hn (Tb & Ta & Hr) Hb Ha Hadv.
  pose proof (proj1 (Forall_lookup _ _) Tb _ _ Hb) as Sb. pose proof (proj1 (Forall_lookup _ _) Ta _ _ Ha) as Sa.
  assert (Hkill : ∀ s, snapshot_typed s → snapshot_typed (kill s)).
  { intros s [(? & ? & ? & ? & ?) (? & ? & ? & ?)]. split; by split_and!. }
  destruct Hadv as [_|_ _ _|_ _ _|_ _|mr _ c _ _ _ _ Htr].
  - done.
  - split; [|done]. apply Forall_insert; [done|by apply Hkill].
  - split; [done|]. split; [|done]. apply Forall_insert; [done|by apply Hkill].
  - done.
  - apply trade_inv in Htr as [Hf Hid]. pose proof Hr as (_ & _ & Hw & _). decompose_Forall_hyps.
    assert (Hmr : match_result_wf mr) by (apply (fair_match_typed b a); try done; by rewrite Hid).
    pose proof (fm_change _ _ _ Hf) as [E1 E2]. apply change_note_length in E1, E2.
    pose proof Hmr as (_ & _ & Hu & _). decompose_Forall_hyps.
    assert (Hsub : ∀ x y, u64_ok x → u64_ok y → u64_ok (saturating_sub x y)) by (unfold u64_ok, saturating_sub; lia).
    destruct Sb as [? [? ?]] eqn:Eb, Sa as [? [? ?]] eqn:Ea.
    split; [|split]; cbn [fill_pair ms_bids ms_asks ms_results]; [| |by apply typed_result];
      (apply Forall_insert; [done|]); apply typed_after_fill; auto.
Qed.

Lemma typed_run st fs st' :
  u64_ok p_star → u64_ok pyth_twap → u64_ok now_slot → typed_state st → auction_run st fs st' → typed_state st'.
Proof.
  intros Hp Ht Hn Hty Hr. induction Hr as [|st b a fs st1 fs' st2 Hb Ha Hadv Hr IH]; [done|]. by apply IH; eapply typed_advance.
Qed.

(** *** A batch without fees goes through *)

Definition owned (s : OrderSnapshot) : Prop := length s.(sn_user_commitment) = 32%nat ∧ be_val s.(sn_user_commitment) < BN254_R.

Record backed_bid (b : OrderSnapshot) : Prop := {
  bb_note : b.(sn_amount) * b.(sn_price_limit) <= b.(sn_note_amount) < U64;
  bb_amount : 0 <= b.(sn_amount) ∧ 0 <= b.(sn_price_limit);
  bb_owned : owned b }.
Record backed_ask (a : OrderSnapshot) : Prop := {
  ba_note : a.(sn_amount) <= a.(sn_note_amount) < U64;
  ba_amount : 0 <= a.(sn_amount);
  ba_owned : owned a }.
Definition backed (st : MatchState) : Prop := Forall backed_bid st.(ms_bids) ∧ Forall backed_ask st.(ms_asks).

Lemma derived_in_field `{!NodeCryptoLaws} id role :
  (∃ x, fr_from_be_bytes (derive_nonce id role) = Ok x) ∧ (∃ x, fr_from_be_bytes (derive_blinding id role) = Ok x).
Proof.
  assert (Hm : ∀ m, ∃ x, fr_from_be_bytes (<[1%nat := u8_of_Z (Z.land (u8_val (nth 1 (sha256 m) x00)) 15)]> (<[0%nat := x00]> (sha256 m))) = Ok x).
  { intros m. destruct (mask_field_32 (sha256 m) (derived_sha m)) as (<- & Hl & Hv). unfold fr_from_be_bytes. rewrite Hl.
    assert (Hb : be_val (mask_field (sha256 m)) < BN254_R) by (eapply Z.lt_trans; [exact Hv|reflexivity]).
    rewrite (proj2 (Z.leb_gt _ _) Hb). by eexists. }
  split; apply Hm.
Qed.

Lemma change_note_runs `{!NodeCryptoLaws} mint ch uc id role :
  length uc = 32%nat → be_val uc < BN254_R → ∃ c, change_note mint ch uc id role = Ok c.
Proof.
  intros Hl Hv. unfold change_note. destruct (0 <? ch); [|by eexists].
  destruct (derived_in_field id role) as [(n & Hn) (r & Hr)].
  assert (Hu : fr_from_be_bytes uc = Ok (be_val uc)).
  { unfold fr_from_be_bytes. rewrite Hl. by rewrite (proj2 (Z.leb_gt _ _) Hv). }
  unfold commitment_from_fields, pubkey_to_fr_pair. rewrite Hu, Hn, Hr. by eexists.
Qed.

Lemma fee_at_0 x : fee_at 0 x = 0.
Proof. unfold fee_at. by rewrite Z.mul_0_r. Qed.

Lemma trade_runs `{!NodeCryptoLaws} b a id :
  fee_rate_bps = 0 → 0 <= p_star → crosses b a → backed_bid b → backed_ask a →
  ∃ mr, trades b a (Z.min b.(sn_amount) a.(sn_amount)) id = Ok mr.
Proof.
  intros Hfee Hp [Cb Ca] [[Nb Ub] [Ab Pb] [Lb Vb]] [[Na Ua] Aa [La Va]]. unfold trade. cbv zeta. rewrite Hfee, !fee_at_0.
  set (c := Z.min _ _). assert (Hc : 0 <= c <= b.(sn_amount) ∧ c <= a.(sn_amount)) by lia. clearbody c.
  assert (Hq : c * p_star <= b.(sn_note_amount)) by nia. unfold u64_add, u64_sub. rewrite !Z.add_0_r.
  rewrite (proj2 (Z.ltb_ge (U64 - 1) (c * p_star))) by lia. cbn [throw_if mbind res_bind].
  rewrite (proj2 (Z.ltb_lt (c * p_star) U64)), (proj2 (Z.ltb_lt c U64)) by lia. cbn [mbind res_bind].
  rewrite (proj2 (Z.leb_le _ _) Hq), (proj2 (Z.leb_le c a.(sn_note_amount))) by lia. cbn [mbind res_bind].
  destruct (change_note_runs quote_mint (b.(sn_note_amount) - c * p_star) _ id CHANGE_ROLE_BUYER Lb Vb) as (e & ->).
  destruct (change_note_runs base_mint (a.(sn_note_amount) - c) _ id CHANGE_ROLE_SELLER La Va) as (f & ->).
  by eexists.
Qed.

Lemma backed_advance st b a fs st' :
  fee_rate_bps = 0 → 0 <= p_star → backed st →
  st.(ms_bids) !! st.(ms_bi) = Some b → st.(ms_asks) !! st.(ms_ai) = Some a → advance st b a fs st' → backed st'.
Proof.
  intros Hfee Hp [Bb Ba] Hb Ha Hadv.
  pose proof (proj1 (Forall_lookup _ _) Bb _ _ Hb) as Kb. pose proof (proj1 (Forall_lookup _ _) Ba _ _ Ha) as Ka.
  destruct Kb as [[Nb Ub] [Ab Pb] Ob] eqn:Eb, Ka as [[Na Ua] Aa Oa] eqn:Ea. clear Eb Ea.
  destruct Hadv as [_|_ _ _|_ _ _|_ _|mr [Cb Ca] c _ _ _ _ Ht]; cbn [skip kill_bid kill_ask fill_pair ms_bids ms_asks].
  - by split.
  - split; [|done]. apply Forall_insert; [done|]. split; cbn; [lia|lia|done].
  - split; [done|]. apply Forall_insert; [done|]. split; cbn; [lia|lia|done].
  - by split.
  - apply trade_inv in Ht as [Hf _]. destruct (fm_legs _ _ _ Hf) as (Hbase & Hquote & _).
    destruct (fm_conserved _ _ _ Hf) as (C1 & C2 & _), (fm_fees _ _ _ Hf) as [F1 F2].
    rewrite Hfee, fee_at_0 in F1, F2. destruct (fm_buyer _ _ _ Hf) as (_ & _ & _ & V1), (fm_seller _ _ _ Hf) as (_ & _ & _ & V2).
    fold c in Hbase. assert (Hc : 0 <= c <= b.(sn_amount) ∧ c <= a.(sn_amount)) by lia. clearbody c.
    split; (apply Forall_insert; [done|]); unfold after_fill, saturating_sub; rewrite Hbase.
    + destruct (relocks _ _ _); (split; cbn [set_amount sn_amount sn_note_amount sn_price_limit]; [nia|lia|done]).
    + destruct (relocks _ _ _); (split; cbn [set_amount sn_amount sn_note_amount]; [lia|lia|done]).
Qed.

Lemma zero_fee_runs `{!NodeCryptoLaws} fuel st :
  fee_rate_bps = 0 → 0 <= p_star → backed st → (orders_left st < fuel)%nat →
  ∃ st', match_loop p_star pyth_twap now_slot base_mint quote_mint fee_rate_bps fuel st = Ok st'.
Proof.
  intros Hfee Hp. revert st. induction fuel as [|fuel IH]; intros st Hbk Hf; [lia|]. cbn [match_loop].
  destruct (_ !! st.(ms_bi)) as [b|] eqn:Hb; [|by eexists]. destruct (_ !! st.(ms_ai)) as [a|] eqn:Ha; [|by eexists].
  assert (Hok : state_ok st) by (destruct Hbk as [Bb Ba]; split; eapply Forall_impl; eauto; intros ? []; lia).
  pose proof (proj1 (Forall_lookup _ _) (proj1 Hbk) _ _ Hb) as Kb. pose proof (proj1 (Forall_lookup _ _) (proj2 Hbk) _ _ Ha) as Ka.
  destruct (match_step_cases st b a) as [(fs & st1 & -> & Hadv)|(Hc & e & _ & Ht)]; cbn [mbind res_bind].
  - destruct (advance_progress _ _ _ _ _ Hok Hb Ha Hadv) as (_ & _ & Hlt). apply IH; [|lia].
    exact (backed_advance _ _ _ _ _ Hfee Hp Hbk Hb Ha Hadv).
  - destruct (trade_runs b a st.(ms_results).(br_nextMatchId) Hfee Hp Hc Kb Ka) as (mr & Hmr). congruence.
Qed.

(** *** Which notes are spent *)

Lemma run_from st fs st' : auction_run st fs st' →
  Forall (λ f, (st.(ms_bi) <= f.(f_bid))%nat ∧ (st.(ms_ai) <= f.(f_ask))%nat) fs.
Proof.
  induction 1 as [|st b a fs st1 fs' st2 Hb Ha Hadv Hr IH]; [constructor|]. apply Forall_app. split.
  - destruct Hadv; constructor; [cbn; lia|constructor].
  - eapply Forall_impl; [exact IH|]. intros f [? ?].
    assert ((st.(ms_bi) <= st1.(ms_bi))%nat ∧ (st.(ms_ai) <= st1.(ms_ai))%nat); [|lia].
    destruct Hadv; cbn [skip kill_bid kill_ask fill_pair ms_bi ms_ai]; repeat case_bool; lia.
Qed.

Lemma filled_after (side : Fill → nat) k fs : Forall (λ f, (S k <= side f)%nat) fs → filter (λ f, side f = k) fs = [].
Proof. induction 1 as [|f fs Hf _ IH]; [done|]. rewrite filter_cons, decide_False by lia. exact IH. Qed.

(** What a resting order keeps behind its next match. *)
Lemma collateral_rotates s x note ch :
  s.(sn_order_type) = PENDING_TYPE_LIMIT → 0 < saturating_sub s.(sn_amount) x → 0 < ch →
  (after_fill s (saturating_sub s.(sn_amount) x) (relocks s (saturating_sub s.(sn_amount) x) ch) note ch).(sn_collateral_note) = note.
Proof.
  intros Ht Hr Hch. unfold relocks. rewrite Ht, (proj2 (Z.ltb_lt _ _) Hr), (proj2 (Z.ltb_lt _ _) Hch). done.
Qed.

Lemma run_chained st fs st' :
  fee_rate_bps = 0 → 0 < p_star → state_ok st → backed st → auction_run st fs st' →
  (∀ k b, st.(ms_bids) !! k = Some b → b.(sn_order_type) = PENDING_TYPE_LIMIT →
     chained b.(sn_collateral_note) (spends f_bid mr_noteBuyer mr_noteE k fs)) ∧
  (∀ k a, st.(ms_asks) !! k = Some a → a.(sn_order_type) = PENDING_TYPE_LIMIT →
     chained a.(sn_collateral_note) (spends f_ask mr_noteSeller mr_noteF k fs)).
Proof.
  intros Hfee Hp Hok Hbk Hr. induction Hr as [st|st b a fs st1 fs' st2 Hb Ha Hadv Hr IH]; [done|].
  destruct (advance_progress _ _ _ _ _ Hok Hb Ha Hadv) as (Hok1 & _ & _).
  destruct (IH Hok1 (backed_advance _ _ _ _ _ Hfee ltac:(lia) Hbk Hb Ha Hadv)) as [Ib Ia]. clear IH Hok1.
  pose proof (run_from _ _ _ Hr) as Hfrom.
  pose proof (proj1 (Forall_lookup _ _) (proj1 Hbk) _ _ Hb) as [[Nb _] [Pb _] _].
  pose proof (proj1 (Forall_lookup _ _) (proj2 Hbk) _ _ Ha) as [[Na _] Pa _].
  assert (Hcons : ∀ side n c k f fs0, spends side n c k (f :: fs0) =
    if decide (side f = k) then (n f.(f_match), c f.(f_match)) :: spends side n c k fs0 else spends side n c k fs0).
  { intros. unfold spends. rewrite filter_cons. by case_decide. }
  destruct Hadv as [_|_ Hf _|_ Hf _|_ _|mr [Cb Ca] c _ _ _ _ Ht]; cbn [app].
  - by split.
  - split; [|done]. intros k s Hs Hl. destruct (decide (k = st.(ms_bi))) as [->|Hne].
    + rewrite Hb in Hs. injection Hs as <-. rewrite Hl in Hf. discriminate.
    + apply Ib; [|done]. cbn. by rewrite list_lookup_insert_ne.
  - split; [done|]. intros k s Hs Hl. destruct (decide (k = st.(ms_ai))) as [->|Hne].
    + rewrite Ha in Hs. injection Hs as <-. rewrite Hl in Hf. discriminate.
    + apply Ia; [|done]. cbn. by rewrite list_lookup_insert_ne.
  - by split.
  - apply trade_inv in Ht as [Hf _]. destruct (fm_legs _ _ _ Hf) as (Hbase & Hquote & _).
    destruct (fm_conserved _ _ _ Hf) as (C1 & C2 & _), (fm_fees _ _ _ Hf) as [F1 F2].
    rewrite Hfee, fee_at_0 in F1, F2. destruct (fm_buyer _ _ _ Hf) as (B1 & _ & _ & V1), (fm_seller _ _ _ Hf) as (S1 & _ & _ & V2).
    fold c in Hbase. assert (Hc : 0 <= c <= b.(sn_amount) ∧ c <= a.(sn_amount)) by lia. clearbody c.
    cbn [fill_pair ms_bids ms_asks ms_bi ms_ai] in *. split; intros k s Hs Hl; rewrite Hcons; cbn [f_bid f_ask f_match];
      destruct (decide (_ = k)) as [<-|Hne].
    + rewrite Hb in Hs. injection Hs as <-. split; [done|]. destruct (Z.eqb_spec (saturating_sub b.(sn_amount) mr.(mr_baseAmt)) 0) as [Hz|Hnz].
      * unfold spends. rewrite filled_after; [done|]. eapply Forall_impl; [exact Hfrom|]. intros f [? _]. done.
      * assert (0 < saturating_sub b.(sn_amount) mr.(mr_baseAmt)) by (unfold saturating_sub in *; lia).
        rewrite <-(collateral_rotates b mr.(mr_baseAmt) mr.(mr_noteE) mr.(mr_buyerChangeAmt)); [|done|done|unfold saturating_sub in *; nia].
        apply Ib; [by rewrite list_lookup_insert_eq by by eapply lookup_lt_Some|]. by rewrite after_fill_type.
    + apply Ib; [by rewrite list_lookup_insert_ne|done].
    + rewrite Ha in Hs. injection Hs as <-. split; [done|]. destruct (Z.eqb_spec (saturating_sub a.(sn_amount) mr.(mr_baseAmt)) 0) as [Hz|Hnz].
      * unfold spends. rewrite filled_after; [done|]. eapply Forall_impl; [exact Hfrom|]. intros f [_ ?]. done.
      * assert (0 < saturating_sub a.(sn_amount) mr.(mr_baseAmt)) by (unfold saturating_sub in *; lia).
        rewrite <-(collateral_rotates a mr.(mr_baseAmt) mr.(mr_noteF) mr.(mr_sellerChangeAmt)); [|done|done|unfold saturating_sub in *; lia].
        apply Ia; [by rewrite list_lookup_insert_eq by by eapply lookup_lt_Some|]. by rewrite after_fill_type.
    + apply Ia; [by rewrite list_lookup_insert_ne|done].
Qed.
End runs.

(** ** Properties *)

Definition auction_start (bids asks : list OrderSnapshot) (br : BatchResultsView) : MatchState :=
  {| ms_bids := bids; ms_asks := asks; ms_bi := 0; ms_ai := 0; ms_results := br; ms_produced := 0 |}.

Lemma generate_matches_run `{NodeCrypto} `{Poseidon} p pyth now base quote fee bids asks br st :
  generate_matches p pyth now base quote fee bids asks br = Ok st →
  ∃ fs, auction_run p pyth now base quote fee (auction_start bids asks br) fs st.
Proof. apply match_loop_run. Qed.

(** The number of matches. *)
Lemma auction_fair_count `{NodeCrypto} `{Poseidon} p pyth now base quote fee bids asks br st :
  amounts_ok bids → amounts_ok asks → generate_matches p pyth now base quote fee bids asks br = Ok st →
  0 <= st.(ms_produced) ∧ (Z.to_nat st.(ms_produced) <= length bids + length asks)%nat.
Proof.
  intros Ob Oa Hg. destruct (generate_matches_run _ _ _ _ _ _ _ _ _ _ Hg) as (fs & Hr).
  destruct (run_results _ _ _ _ _ _ _ _ _ Hr) as [_ Hpr].
  destruct (run_length _ _ _ _ _ _ _ _ _ (conj Ob Oa : state_ok (auction_start bids asks br)) Hr) as [_ Hlen].
  unfold orders_left in Hlen. cbn [auction_start ms_bids ms_asks ms_bi ms_ai ms_produced] in *. lia.
Qed.

(** [C4] The matches of a batch are fair.  Each is between a bid whose limit is
    at least the clearing price and an ask whose limit is at most that, covers
    both orders' minimum fill, is priced at the clearing price, and conserves
    both notes: note value = leg + change + fee.  Each order ends killed whole,
    if it is fill-or-kill, or with exactly the amount its matches left, and a
    fill-or-kill order is never filled in part.  The results are these matches,
    written one after the other, never more than there are orders. *)
Theorem auction_fair `{NodeCrypto} `{Poseidon} p pyth now base quote fee bids asks br st :
  amounts_ok bids → amounts_ok asks →
  generate_matches p pyth now base quote fee bids asks br = Ok st →
  ∃ fs, st.(ms_results) = foldl record_match br (f_match <$> fs) ∧
    st.(ms_produced) = Z.of_nat (length fs) ∧ (length fs <= length bids + length asks)%nat ∧
    Forall (fair_fill p pyth now base quote fee (auction_start bids asks br)) fs ∧
    fates f_bid bids st.(ms_bids) fs ∧ fates f_ask asks st.(ms_asks) fs.
Proof.
  intros Ob Oa Hg. destruct (generate_matches_run _ _ _ _ _ _ _ _ _ _ Hg) as (fs & Hr). exists fs.
  assert (Hok : state_ok (auction_start bids asks br)) by by split.
  destruct (run_results _ _ _ _ _ _ _ _ _ Hr) as [Hres Hpr]. destruct (run_length _ _ _ _ _ _ _ _ _ Hok Hr) as [_ Hlen].
  split; [exact Hres|]. split; [rewrite Hpr; cbn; lia|]. split; [unfold orders_left in Hlen; cbn in Hlen; lia|].
  split; [by eapply run_fair|]. exact (run_fates _ _ _ _ _ _ _ _ _ Hok Hr).
Qed.



(** ** A book for the witnesses *)
Module SampleBook.
Definition order (i : nat) (side type price amount note : Z) : OrderSnapshot :=
  {| sn_rem_idx := i; sn_side := side; sn_order_type := type; sn_arrival_slot := 10 + Z.of_nat i; sn_expiry_slot := 900;
     sn_price_limit := price; sn_amount := amount; sn_min_fill_qty := 0; sn_note_amount := note;
     sn_collateral_note := replicate 31 x00 ++ [u8_of_Z (Z.of_nat i + 1)]; sn_user_commitment := replicate 31 x00 ++ [x07];
     sn_trading_key := replicate 32 x08; sn_order_id := replicate 16 (u8_of_Z (Z.of_nat i + 1)); sn_inclusion := replicate 32 x09 |}.

Definition bids : list OrderSnapshot := [order 0 0 0 102 5 600; order 1 0 0 100 7 700].
Definition asks : list OrderSnapshot := [order 2 1 0 99 8 8; order 3 1 0 101 9 9].

Definition no_result : MatchResultRecord :=
  {| mr_noteBuyer := NO_NOTE; mr_noteSeller := NO_NOTE; mr_noteE := NO_NOTE; mr_noteF := NO_NOTE; mr_ownerBuyer := NO_NOTE;
     mr_ownerSeller := NO_NOTE; mr_userCommitmentBuyer := NO_NOTE; mr_userCommitmentSeller := NO_NOTE;
     mr_buyerNoteValue := 0; mr_sellerNoteValue := 0; mr_baseAmt := 0; mr_quoteAmt := 0; mr_buyerChangeAmt := 0;
     mr_sellerChangeAmt := 0; mr_buyerFeeAmt := 0; mr_sellerFeeAmt := 0; mr_buyerRelockOrderId := NO_ORDER;
     mr_buyerRelockExpiry := 0; mr_sellerRelockOrderId := NO_ORDER; mr_sellerRelockExpiry := 0; mr_price := 0;
     mr_pythAtMatch := 0; mr_batchSlot := 0; mr_matchId := 0; mr_status := 0 |}.
Definition no_fees : FeeAccumulatorRecord :=
  {| fa_tokenMint := NO_NOTE; fa_accumulatedFees := 0; fa_batchSlot := 0; fa_flushedCommitment := NO_NOTE |}.
Definition results : BatchResultsView :=
  {| br_market := replicate 32 x03; br_lastInclusionRoot := NO_NOTE; br_lastBatchSlot := 0; br_lastMatchCount := 0;
     br_lastClearingPrice := 0; br_lastPythTwap := 0; br_lastCircuitBreakerTripped := false; br_writeCursor := 0;
     br_nextMatchId := 1; br_results := replicate 16 no_result; br_feeAccumulators := [no_fees; no_fees]; br_bump := 255 |}.

Definition base : bytes := replicate 32 x11.
Definition quote : bytes := replicate 32 x12.
Definition run (bids asks : list OrderSnapshot) (p fee : Z) : res MatchState :=
  @generate_matches Toy.toy_crypto Toy.toy_Poseidon p 100 50 base quote fee bids asks results.

Lemma book_ok : amounts_ok bids ∧ amounts_ok asks.
Proof. split; repeat constructor; cbn; lia. Qed.
Lemma book_plain : Forall plain bids ∧ Forall plain asks.
Proof. split; repeat constructor; cbn; lia. Qed.
Lemma book_price : compute_clearing_price bids asks = Some (99, 8).
Proof. reflexivity. Qed.
End SampleBook.

Lemma clearing_price_optimal_witness : compute_clearing_price SampleBook.bids SampleBook.asks = Some (99, 8) ∧
  ∀ q, Z.min (U64 - 1) (tradable SampleBook.bids SampleBook.asks q) <= 8.
Proof.
  pose proof (clearing_price_optimal SampleBook.bids SampleBook.asks (proj1 SampleBook.book_ok) (proj2 SampleBook.book_ok)) as Ho.
  rewrite SampleBook.book_price in Ho. split; [exact SampleBook.book_price|exact (proj1 (proj2 (proj2 Ho)))].
Defined.

Lemma sample_auction_runs : ∃ st, SampleBook.run SampleBook.bids SampleBook.asks 99 30 = Ok st ∧ st.(ms_produced) = 2.
Proof. eexists. split; [vm_compute; reflexivity|reflexivity]. Qed.

Lemma auction_fair_witness : ∃ st fs, SampleBook.run SampleBook.bids SampleBook.asks 99 30 = Ok st ∧ length fs = 2%nat ∧
  fates f_bid SampleBook.bids st.(ms_bids) fs.
Proof.
  destruct sample_auction_runs as (st & Hst & Hp).
  destruct (@auction_fair Toy.toy_crypto Toy.toy_Poseidon _ _ _ _ _ _ _ _ _ _ (proj1 SampleBook.book_ok) (proj2 SampleBook.book_ok) Hst)
    as (fs & _ & Hl & _ & _ & Hb & _).
  exists st, fs. split; [exact Hst|]. split; [lia|exact Hb].
Defined.



(** An immediate-or-cancel order keeps its note while it goes on matching: two
    matches of one batch spend the same note, and the vault settles only one. *)
Lemma ioc_note_spent_twice :
  let bids := [SampleBook.order 0 0 PENDING_TYPE_IOC 100 10 1000] in
  let asks := [SampleBook.order 1 1 0 100 4 4; SampleBook.order 2 1 0 100 6 6] in
  ∃ st m1 m2, SampleBook.run bids asks 100 0 = Ok st ∧ st.(ms_results).(br_results) !! 0%nat = Some m1 ∧
    st.(ms_results).(br_results) !! 1%nat = Some m2 ∧ m1.(mr_status) = 1 ∧ m2.(mr_status) = 1 ∧
    m1.(mr_noteBuyer) = m2.(mr_noteBuyer) ∧ m1.(mr_buyerNoteValue) = 1000 ∧ m2.(mr_buyerNoteValue) = 1000.
Proof. do 3 eexists. split; [vm_compute; reflexivity|]. by split_and!. Qed.

(** With a fee, an order whose note just covers it stops the whole batch. *)
Lemma fee_aborts_batch :
  let bids := [SampleBook.order 0 0 0 100 10 1000; SampleBook.order 1 0 0 100 10 2000] in
  let asks := [SampleBook.order 2 1 0 100 20 40] in
  Forall backed_bid bids ∧ SampleBook.run bids asks 100 30 = Throw (MatchingError "ConservationViolation").
Proof. split; [repeat constructor; try reflexivity; cbn; lia|vm_compute; reflexivity]. Qed.

(** Seventeen matches in one batch overwrite the first in the ring of sixteen. *)
Lemma ring_overflow_loses_match :
  let bids := (λ i, SampleBook.order i 0 0 100 1 100) <$> seq 0 17 in
  let asks := [SampleBook.order 17 1 0 100 17 17] in
  ∃ st, SampleBook.run bids asks 100 0 = Ok st ∧ st.(ms_produced) = 17 ∧
    Forall (λ mr, mr.(mr_matchId) ≠ 1) st.(ms_results).(br_results).
Proof.
  eexists. split; [vm_compute; reflexivity|]. split; [reflexivity|]. cbn [ms_results br_results].
  repeat (apply Forall_cons; split; [discriminate|]). apply Forall_nil. exact I.
Qed.
