(* ===== verification/RunBatch.v ===== *)
(** The [run_batch] handler of the matching engine
    ([programs/matching_engine/src/instructions/run_batch.rs]): reading the
    order slots, the oracle and its circuit breaker, the auction of [Auction],
    and what is written back into the slots and the [BatchResults] account. *)

From stdpp Require Import gmap.
From S2P Require Import Prelude Bytes Errors Externals Keys Note Borsh VaultClient MatchingEngineClient ErClient MatchingProgram.
From S2P Require Import BatchResults Merkle InclusionTree MerkleShadow VaultTree Client Deposit Session Orders LeafHistory DemoKeys Auction.

Local Open Scope Z_scope.

(** ** Accounts *)

Record MatchingConfig := {
  mc_market : bytes; mc_root_key : bytes; mc_base_mint : bytes; mc_quote_mint : bytes; mc_pyth_account : bytes;
  mc_batch_interval_slots : Z; mc_circuit_breaker_bps : Z; mc_tick_size : Z; mc_min_order_size : Z }.

(** An account on the rollup: its owner, and the order it holds if its
    discriminator is that of [PendingOrder]. *)
Record SlotAccount := { sl_owner : bytes; sl_order : option PendingOrder }.
Notation SlotStore := (gmap bytes SlotAccount).

(** What the transaction passes: the accounts of [RunBatch], the clock and
    [remaining_accounts]. *)
Record RunBatchContext := {
  rc_tee_authority : bytes; rc_config : MatchingConfig; rc_vault : VaultConfig;
  rc_oracle_key : bytes; rc_oracle_data : bytes; rc_slot : Z; rc_remaining : list AccountMeta }.

Definition SETTLEMENT_BUFFER_SLOTS : Z := 20.
Definition MAX_PENDING_ACCOUNTS_PER_BATCH : nat := 24.
Definition FEE_ROLE_BASE : Z := 251.      (** 0xFB *)

Record BatchExecuted := {
  be_market : bytes; be_batch_slot : Z; be_match_count : Z; be_clearing_price : Z; be_pyth_twap : Z;
  be_circuit_breaker_tripped : bool; be_inclusion_root : bytes }.

(** ** [pyth.rs] *)

Definition MOCK_PYTH_MAGIC : bytes := ascii_bytes "NYXMKPTH".
Definition PYTH_PRICE_UPDATE_V2_DISC : bytes := u8_of_Z <$> [34; 241; 35; 99; 157; 126; 244; 205].
Definition PYTH_EMA_PRICE_OFFSET : nat := 110.

(** [i64::from_le_bytes] is negative from 2^63 on. *)
Definition read_oracle_price (data : bytes) : res Z :=
  if (length data <? 16)%nat then Throw (MatchingError "OraclePayloadTooShort")
  else
    let disc := slice data 0 8 in
    if bool_decide (disc = MOCK_PYTH_MAGIC) then Ok (le_val (slice data 8 8))
    else if bool_decide (disc = PYTH_PRICE_UPDATE_V2_DISC) then
      if (length data <? PYTH_EMA_PRICE_OFFSET + 8)%nat then Throw (MatchingError "OraclePayloadTooShort")
      else let raw := le_val (slice data PYTH_EMA_PRICE_OFFSET 8) in
           if 2 ^ 63 <=? raw then Throw (MatchingError "OracleNegativePrice") else Ok raw
    else Throw (MatchingError "OracleUnrecognisedLayout").

(** ** Writes to a slot *)

(** The status, the residual amount and its note. *)
Definition close_slot (slot : PendingOrder) (status : PendingStatus) : PendingOrder :=
  {| po_trading_key := slot.(po_trading_key); po_market := slot.(po_market); po_status := status;
     po_side := slot.(po_side); po_order_type := slot.(po_order_type); po_slot_idx := slot.(po_slot_idx);
     po_arrival_slot := slot.(po_arrival_slot); po_expiry_slot := slot.(po_expiry_slot);
     po_price_limit := slot.(po_price_limit); po_amount := 0; po_total_quantity := slot.(po_total_quantity);
     po_filled_quantity := slot.(po_filled_quantity); po_min_fill_qty := slot.(po_min_fill_qty);
     po_note_amount := slot.(po_note_amount); po_collateral_note := NO_NOTE;
     po_user_commitment := slot.(po_user_commitment); po_order_id := slot.(po_order_id);
     po_order_inclusion_commitment := slot.(po_order_inclusion_commitment) |}.

Definition fill_slot (slot : PendingOrder) : PendingOrder :=
  {| po_trading_key := slot.(po_trading_key); po_market := slot.(po_market); po_status := MATCHED;
     po_side := slot.(po_side); po_order_type := slot.(po_order_type); po_slot_idx := slot.(po_slot_idx);
     po_arrival_slot := slot.(po_arrival_slot); po_expiry_slot := slot.(po_expiry_slot); po_price_limit := 0;
     po_amount := 0; po_total_quantity := slot.(po_total_quantity); po_filled_quantity := slot.(po_total_quantity);
     po_min_fill_qty := 0; po_note_amount := 0; po_collateral_note := NO_NOTE; po_user_commitment := NO_NOTE;
     po_order_id := NO_ORDER; po_order_inclusion_commitment := slot.(po_order_inclusion_commitment) |}.

Definition rest_slot (slot : PendingOrder) (s : OrderSnapshot) : PendingOrder :=
  {| po_trading_key := slot.(po_trading_key); po_market := slot.(po_market); po_status := slot.(po_status);
     po_side := slot.(po_side); po_order_type := slot.(po_order_type); po_slot_idx := slot.(po_slot_idx);
     po_arrival_slot := slot.(po_arrival_slot); po_expiry_slot := slot.(po_expiry_slot);
     po_price_limit := slot.(po_price_limit); po_amount := s.(sn_amount); po_total_quantity := slot.(po_total_quantity);
     po_filled_quantity := saturating_add slot.(po_filled_quantity) (saturating_sub slot.(po_amount) s.(sn_amount));
     po_min_fill_qty := slot.(po_min_fill_qty); po_note_amount := s.(sn_note_amount);
     po_collateral_note := s.(sn_collateral_note); po_user_commitment := slot.(po_user_commitment);
     po_order_id := slot.(po_order_id); po_order_inclusion_commitment := slot.(po_order_inclusion_commitment) |}.

(** The slot after its order went through the auction.  The source has two
    branches for [amount = 0] that write the same fields. *)
Definition update_slot (s : OrderSnapshot) (slot : PendingOrder) : PendingOrder :=
  if s.(sn_order_type) =? KILLED then close_slot slot CANCELLED
  else if s.(sn_amount) =? 0 then fill_slot slot
  else if s.(sn_amount) <? slot.(po_amount) then
    let slot := rest_slot slot s in
    if s.(sn_order_type) =? PENDING_TYPE_IOC then close_slot slot CANCELLED else slot
  else slot.

(** ** The handler *)

Section run_batch.
Context `{NodeCrypto} `{Poseidon}.
(** [crate::ID] *)
Context (me_id : bytes).

(** [AccountLoader::try_from] and [load]; an account that is not there belongs
    to the system program. *)
Definition load_order (slots : SlotStore) (key : bytes) : res PendingOrder :=
  match slots !! key with
  | Some acct =>
      _ ← throw_if (negb (bool_decide (acct.(sl_owner) = me_id))) (MatchingError "PendingOrderInvalidOwner");
      match acct.(sl_order) with
      | Some slot => Ok slot
      | None => Throw (EError "Anchor" "AccountDiscriminatorMismatch")
      end
  | None => Throw (MatchingError "PendingOrderInvalidOwner")
  end.

(** [load_mut]: the account must be writable. *)
Definition store_order (slots : SlotStore) (ai : AccountMeta) (slot : PendingOrder) : res SlotStore :=
  _ ← throw_if (negb ai.(isWritable)) (EError "Anchor" "AccountNotMutable");
  Ok (<[toBytes ai.(pubkey) := {| sl_owner := me_id; sl_order := Some slot |}]> slots).

Record Book := { bk_slots : SlotStore; bk_bids : list OrderSnapshot; bk_asks : list OrderSnapshot; bk_leaves : list bytes }.

(** One account of pass 1. *)
Definition read_order (market : bytes) (now min_order_size : Z) (i : nat) (ai : AccountMeta) (bk : Book) : res Book :=
  slot ← load_order bk.(bk_slots) (toBytes ai.(pubkey));
  _ ← throw_if (negb (bool_decide (slot.(po_market) = market))) (MatchingError "MarketMismatch");
  if negb (bool_decide (slot.(po_status) = PENDING)) then Ok bk
  else if slot.(po_expiry_slot) <=? saturating_add now SETTLEMENT_BUFFER_SLOTS then
    slots ← store_order bk.(bk_slots) ai (close_slot slot EXPIRED);
    Ok {| bk_slots := slots; bk_bids := bk.(bk_bids); bk_asks := bk.(bk_asks); bk_leaves := bk.(bk_leaves) |}
  else if (slot.(po_amount) <? min_order_size) && (0 <? min_order_size) then Ok bk
  else
    let s := snapshot_from_slot slot i in
    Ok {| bk_slots := bk.(bk_slots);
          bk_bids := if s.(sn_side) =? 0 then bk.(bk_bids) ++ [s] else bk.(bk_bids);
          bk_asks := if s.(sn_side) =? 1 then bk.(bk_asks) ++ [s] else bk.(bk_asks);
          bk_leaves := bk.(bk_leaves) ++ [s.(sn_inclusion)] |}.

Fixpoint read_orders (market : bytes) (now min_order_size : Z) (i : nat) (ais : list AccountMeta) (bk : Book) : res Book :=
  match ais with
  | [] => Ok bk
  | ai :: ais => bk ← read_order market now min_order_size i ai bk; read_orders market now min_order_size (S i) ais bk
  end.

(** [apply_slot_updates]; the index points into [remaining_accounts]. *)
Fixpoint apply_slot_updates (remaining : list AccountMeta) (orders : list OrderSnapshot) (slots : SlotStore) : res SlotStore :=
  match orders with
  | [] => Ok slots
  | s :: orders =>
      match remaining !! s.(sn_rem_idx) with
      | None => Throw (EError "panic" "index out of bounds")
      | Some ai =>
          slot ← load_order slots (toBytes ai.(pubkey));
          slots ← store_order slots ai (update_slot s slot);
          apply_slot_updates remaining orders slots
      end
  end.

Definition fresh_accumulator (mint : bytes) (now : Z) : FeeAccumulatorRecord :=
  {| fa_tokenMint := mint; fa_accumulatedFees := 0; fa_batchSlot := now; fa_flushedCommitment := NO_NOTE |}.

Definition set_accumulators (br : BatchResultsView) (accs : list FeeAccumulatorRecord) : BatchResultsView :=
  {| br_market := br.(br_market); br_lastInclusionRoot := br.(br_lastInclusionRoot);
     br_lastBatchSlot := br.(br_lastBatchSlot); br_lastMatchCount := br.(br_lastMatchCount);
     br_lastClearingPrice := br.(br_lastClearingPrice); br_lastPythTwap := br.(br_lastPythTwap);
     br_lastCircuitBreakerTripped := br.(br_lastCircuitBreakerTripped); br_writeCursor := br.(br_writeCursor);
     br_nextMatchId := br.(br_nextMatchId); br_results := br.(br_results); br_feeAccumulators := accs;
     br_bump := br.(br_bump) |}.

(** The note of the fees one accumulator holds. *)
Definition flush (now : Z) (owner : bytes) (role : Z) (acc : FeeAccumulatorRecord) : res FeeAccumulatorRecord :=
  if 0 <? acc.(fa_accumulatedFees) then
    match commitment_from_fields acc.(fa_tokenMint) acc.(fa_accumulatedFees) owner (derive_nonce now role) (derive_blinding now role) with
    | Ok c => Ok {| fa_tokenMint := acc.(fa_tokenMint); fa_accumulatedFees := acc.(fa_accumulatedFees);
                    fa_batchSlot := acc.(fa_batchSlot); fa_flushedCommitment := c |}
    | Throw _ => Throw (MatchingError "PoseidonFailed")
    end
  else Ok acc.

Definition flush_fees (now : Z) (owner : bytes) (accs : list FeeAccumulatorRecord) : res (list FeeAccumulatorRecord) :=
  match accs with
  | [base; quote] =>
      base ← flush now owner FEE_ROLE_BASE base;
      quote ← flush now owner FEE_ROLE_QUOTE quote;
      Ok [base; quote]
  | _ => Ok accs
  end.

Definition publish (br : BatchResultsView) (root : bytes) (now count price twap : Z) (tripped : bool) : BatchResultsView :=
  {| br_market := br.(br_market); br_lastInclusionRoot := root; br_lastBatchSlot := now; br_lastMatchCount := count;
     br_lastClearingPrice := price; br_lastPythTwap := twap; br_lastCircuitBreakerTripped := tripped;
     br_writeCursor := br.(br_writeCursor); br_nextMatchId := br.(br_nextMatchId); br_results := br.(br_results);
     br_feeAccumulators := br.(br_feeAccumulators); br_bump := br.(br_bump) |}.

(** The auction behind its circuit breaker: the clearing price, whether the
    breaker tripped, and the state the orders and results are in. *)
Definition run_auction (ctx : RunBatchContext) (twap : Z) (bids asks : list OrderSnapshot) (br : BatchResultsView)
    : res (Z * bool * MatchState) :=
  let idle := auction_start bids asks br in
  match compute_clearing_price bids asks with
  | None => Ok (0, false, idle)
  | Some (p_star, _) =>
      if deviates_by_more_than_bps p_star twap ctx.(rc_config).(mc_circuit_breaker_bps) then Ok (0, true, idle)
      else
        st ← generate_matches p_star twap ctx.(rc_slot) ctx.(rc_config).(mc_base_mint) ctx.(rc_config).(mc_quote_mint)
               ctx.(rc_vault).(fee_rate_bps) bids asks br;
        Ok (p_star, false, st)
  end.

Definition run_batch_handler (ctx : RunBatchContext) (market : bytes) (slots : SlotStore) (br : BatchResultsView)
    : res (BatchExecuted * SlotStore * BatchResultsView) :=
  let cfg := ctx.(rc_config) in
  let now := ctx.(rc_slot) in
  _ ← throw_if (negb (bool_decide (cfg.(mc_market) = market))) (MatchingError "MarketMismatch");
  _ ← throw_if (negb (bool_decide (ctx.(rc_oracle_key) = cfg.(mc_pyth_account)))) (MatchingError "OracleAccountMismatch");
  _ ← throw_if (negb (bool_decide (ctx.(rc_tee_authority) = ctx.(rc_vault).(tee_pubkey)))) (MatchingError "NotRootKey");
  twap ← read_oracle_price ctx.(rc_oracle_data);
  _ ← throw_if (negb (0 <? twap)) (MatchingError "OracleZeroPrice");
  _ ← throw_if (MAX_PENDING_ACCOUNTS_PER_BATCH <? length ctx.(rc_remaining))%nat (MatchingError "OrderbookFull");
  bk ← read_orders market now cfg.(mc_min_order_size) 0 ctx.(rc_remaining)
         {| bk_slots := slots; bk_bids := []; bk_asks := []; bk_leaves := [] |};
  let br := set_accumulators br [fresh_accumulator cfg.(mc_base_mint) now; fresh_accumulator cfg.(mc_quote_mint) now] in
  auction ← run_auction ctx twap (sort_by bid_before bk.(bk_bids)) (sort_by ask_before bk.(bk_asks)) br;
  let '(clearing_price, tripped, st) := auction in
  let root := merkle_root_sha256 bk.(bk_leaves) in
  slots ← apply_slot_updates ctx.(rc_remaining) (st.(ms_bids) ++ st.(ms_asks)) bk.(bk_slots);
  accs ← (if negb (bool_decide (ctx.(rc_vault).(protocol_owner_commitment) = NO_NOTE)) && negb tripped
          then flush_fees now ctx.(rc_vault).(protocol_owner_commitment) st.(ms_results).(br_feeAccumulators)
          else Ok st.(ms_results).(br_feeAccumulators));
  let br := publish (set_accumulators st.(ms_results) accs) root now st.(ms_produced) clearing_price twap tripped in
  Ok ({| be_market := market; be_batch_slot := now; be_match_count := st.(ms_produced);
         be_clearing_price := clearing_price; be_pyth_twap := twap; be_circuit_breaker_tripped := tripped;
         be_inclusion_root := root |}, slots, br).
End run_batch.

(** ** What a batch does to a slot *)

Definition same_slot (slot slot' : PendingOrder) : Prop :=
  slot'.(po_trading_key) = slot.(po_trading_key) ∧ slot'.(po_market) = slot.(po_market) ∧
  slot'.(po_slot_idx) = slot.(po_slot_idx) ∧ slot'.(po_side) = slot.(po_side) ∧
  slot'.(po_order_type) = slot.(po_order_type) ∧ slot'.(po_arrival_slot) = slot.(po_arrival_slot) ∧
  slot'.(po_expiry_slot) = slot.(po_expiry_slot) ∧ slot'.(po_total_quantity) = slot.(po_total_quantity) ∧
  slot'.(po_order_inclusion_commitment) = slot.(po_order_inclusion_commitment).

(** A pending order rests with no more than it had, or it is closed: nothing
    left and no note. *)
Definition slot_evolves (slot slot' : PendingOrder) : Prop :=
  same_slot slot slot' ∧ slot'.(po_amount) <= slot.(po_amount) ∧ 0 <= slot'.(po_amount) ∧
  (slot'.(po_status) = PENDING ∨
   (slot'.(po_status) = MATCHED ∨ slot'.(po_status) = EXPIRED ∨ slot'.(po_status) = CANCELLED) ∧
   slot'.(po_amount) = 0 ∧ slot'.(po_collateral_note) = NO_NOTE).

Definition order_evolves (slot slot' : PendingOrder) : Prop :=
  if decide (slot.(po_status) = PENDING) then slot_evolves slot slot' else slot' = slot.

Definition account_evolves (acct acct' : SlotAccount) : Prop :=
  acct'.(sl_owner) = acct.(sl_owner) ∧
  match acct.(sl_order), acct'.(sl_order) with
  | Some slot, Some slot' => order_evolves slot slot'
  | None, None => True
  | _, _ => False
  end.

(** Every account evolves, those that are not listed stay as they were. *)
Definition store_evolves (listed : list bytes) (slots slots' : SlotStore) : Prop :=
  ∀ key, (key ∉ listed → slots' !! key = slots !! key) ∧
    match slots !! key, slots' !! key with
    | Some acct, Some acct' => account_evolves acct acct'
    | None, None => True
    | _, _ => False
    end.

(** The amounts are [u64]s. *)
Definition store_typed (slots : SlotStore) : Prop :=
  ∀ key acct slot, slots !! key = Some acct → acct.(sl_order) = Some slot → 0 <= slot.(po_amount).

Lemma same_slot_refl slot : same_slot slot slot.
Proof. by split_and!. Qed.

Lemma slot_evolves_refl slot : slot.(po_status) = PENDING → 0 <= slot.(po_amount) → slot_evolves slot slot.
Proof. intros Hs Ha. split; [apply same_slot_refl|]. split; [lia|]. split; [done|by left]. Qed.

Lemma order_evolves_refl slot : 0 <= slot.(po_amount) → order_evolves slot slot.
Proof. intros Ha. unfold order_evolves. case_decide; [by apply slot_evolves_refl|done]. Qed.

Lemma store_evolves_refl listed slots : store_typed slots → store_evolves listed slots slots.
Proof.
  intros Ht key. split; [done|]. destruct (slots !! key) as [acct|] eqn:Hk; [|done]. split; [done|].
  destruct (sl_order acct) as [slot|] eqn:Ho; [|done]. apply order_evolves_refl. by eapply Ht.
Qed.

Lemma slot_evolves_close slot slot' status :
  slot_evolves slot slot' → status = EXPIRED ∨ status = CANCELLED → slot_evolves slot (close_slot slot' status).
Proof.
  intros (Hs & Ha & H0 & _) Hst. split; [exact Hs|]. split; [cbn; lia|]. split; [done|]. right.
  split; [|done]. destruct Hst as [-> | ->]; cbn; auto.
Qed.

Lemma slot_evolves_update slot slot' s :
  slot_evolves slot slot' → 0 <= s.(sn_amount) → slot_evolves slot (update_slot s slot').
Proof.
  intros Hev Hs. unfold update_slot. destruct (_ =? KILLED); [apply slot_evolves_close; auto|].
  destruct (Z.eqb_spec s.(sn_amount) 0) as [Hz|Hz].
  { destruct Hev as (Hsame & Ha & H0 & _). split; [exact Hsame|]. split; [cbn; lia|]. split; [done|]. right.
    split; [|done]. cbn. auto. }
  destruct (Z.ltb_spec s.(sn_amount) slot'.(po_amount)) as [Hlt|]; [|done].
  assert (Hrest : slot_evolves slot (rest_slot slot' s)).
  { destruct Hev as (Hsame & Ha & H0 & Hst). split; [exact Hsame|]. split; [cbn; lia|]. split; [cbn; lia|].
    destruct Hst as [Hst|(_ & Hz' & _)]; [by left|lia]. }
  destruct (_ =? PENDING_TYPE_IOC); [apply slot_evolves_close; auto|done].
Qed.

Section evolve.
Context `{NodeCrypto} `{Poseidon} (me_id : bytes).

Lemma load_order_inv slots key slot :
  load_order me_id slots key = Ok slot →
  slots !! key = Some {| sl_owner := me_id; sl_order := Some slot |}.
Proof.
  unfold load_order. destruct (slots !! key) as [[o so]|]; [|done]. cbn. intros Hl. inv_res.
  apply negb_false_iff, bool_decide_eq_true_1 in Ha. destruct so; [|done]. apply Ok_inj in Hl as ->. by subst.
Qed.

Lemma store_order_inv slots ai slot slots' :
  store_order me_id slots ai slot = Ok slots' →
  slots' = <[toBytes ai.(pubkey) := {| sl_owner := me_id; sl_order := Some slot |}]> slots ∧ ai.(isWritable) = true.
Proof. unfold store_order. intros Hl. inv_res. apply negb_false_iff in Ha. by subst. Qed.

(** The original of an order that is pending now. *)
Lemma evolved_pending listed slots0 slots key slot :
  store_evolves listed slots0 slots → slots !! key = Some {| sl_owner := me_id; sl_order := Some slot |} →
  ∃ slot0, slots0 !! key = Some {| sl_owner := me_id; sl_order := Some slot0 |} ∧ order_evolves slot0 slot ∧
    (slot.(po_status) = PENDING → slot0.(po_status) = PENDING).
Proof.
  intros Hev Hk. destruct (Hev key) as [_ He]. rewrite Hk in He. destruct (slots0 !! key) as [[o so]|]; [|done].
  destruct He as [Ho He]. cbn in Ho, He. destruct so as [slot0|]; [|done]. exists slot0. subst o. split; [done|]. split; [done|].
  intros Hs. unfold order_evolves in He. case_decide as Hd; [done|]. congruence.
Qed.

Lemma evolves_store listed slots0 slots ai slot slot0 slot' slots' :
  store_evolves listed slots0 slots → toBytes ai.(pubkey) ∈ listed →
  slots0 !! toBytes ai.(pubkey) = Some {| sl_owner := me_id; sl_order := Some slot0 |} →
  slots !! toBytes ai.(pubkey) = Some {| sl_owner := me_id; sl_order := Some slot |} →
  slot0.(po_status) = PENDING → slot_evolves slot0 slot' →
  store_order me_id slots ai slot' = Ok slots' → store_evolves listed slots0 slots'.
Proof.
  intros Hev Hin H0k Hk Hs He Hst. apply store_order_inv in Hst as [-> _]. intros key.
  destruct (decide (toBytes ai.(pubkey) = key)) as [<-|Hne].
  - rewrite lookup_insert_eq. split; [done|]. rewrite H0k. split; [done|]. cbn. unfold order_evolves. by rewrite decide_True.
  - rewrite lookup_insert_ne by done. apply Hev.
Qed.

(** Where a snapshot comes from. *)
Definition snapshot_of (slots0 : SlotStore) (remaining : list AccountMeta) (s : OrderSnapshot) : Prop :=
  0 <= s.(sn_amount) ∧ ∃ ai slot0, remaining !! s.(sn_rem_idx) = Some ai ∧
    slots0 !! toBytes ai.(pubkey) = Some {| sl_owner := me_id; sl_order := Some slot0 |} ∧ slot0.(po_status) = PENDING.

(** The accounts have evolved, and the orders in memory come from slots that
    were pending. *)
Definition book_evolves (slots0 : SlotStore) (remaining : list AccountMeta) (bk : Book) : Prop :=
  store_evolves (toBytes ∘ pubkey <$> remaining) slots0 bk.(bk_slots) ∧
  Forall (snapshot_of slots0 remaining) bk.(bk_bids) ∧ Forall (snapshot_of slots0 remaining) bk.(bk_asks).

Lemma listed_key (remaining : list AccountMeta) (i : nat) ai : remaining !! i = Some ai → toBytes ai.(pubkey) ∈ (toBytes ∘ pubkey <$> remaining).
Proof. intros Hi. apply list_elem_of_fmap. exists ai. split; [done|]. by eapply list_elem_of_lookup_2. Qed.

Lemma read_order_evolve market now min_order remaining slots0 i ai bk bk' :
  remaining !! i = Some ai → book_evolves slots0 remaining bk →
  read_order me_id market now min_order i ai bk = Ok bk' → book_evolves slots0 remaining bk'.
Proof.
  intros Hi (Hev & Hb & Ha) Hr. unfold read_order in Hr. apply res_bind_Ok in Hr as (slot & Hl & Hr).
  apply load_order_inv in Hl. apply res_bind_Ok in Hr as (? & _ & Hr).
  destruct (evolved_pending _ _ _ _ _ Hev Hl) as (slot0 & Hk0 & He0 & Hp0).
  destruct (bool_decide_reflect (slot.(po_status) = PENDING)) as [Hs|Hs]; cbn [negb] in Hr; [|by apply Ok_inj in Hr as <-].
  specialize (Hp0 Hs). unfold order_evolves in He0. rewrite decide_True in He0 by done. destruct (_ <=? _) in Hr.
  { apply res_bind_Ok in Hr as (slots1 & Hst & Hr). apply Ok_inj in Hr as <-. split; [|done]. cbn [bk_slots].
    refine (evolves_store _ _ _ ai slot slot0 _ _ Hev _ Hk0 Hl Hp0 _ Hst); [by eapply listed_key|apply slot_evolves_close; auto]. }
  destruct (_ && _) in Hr; apply Ok_inj in Hr as <-; [done|]. cbv zeta. split; [done|]. cbn [bk_bids bk_asks].
  assert (Hnew : Forall (snapshot_of slots0 remaining) [snapshot_from_slot slot i]).
  { constructor; [|constructor]. split; [apply He0|]. by exists ai, slot0. }
  split; case_bool; (done || by apply Forall_app).
Qed.

Lemma read_orders_evolve market now min_order remaining slots0 todo i bk bk' :
  (∀ j ai, todo !! j = Some ai → remaining !! (i + j)%nat = Some ai) → book_evolves slots0 remaining bk →
  read_orders me_id market now min_order i todo bk = Ok bk' → book_evolves slots0 remaining bk'.
Proof.
  revert i bk. induction todo as [|ai todo IH]; intros i bk Hat Hbk Hr; [by apply Ok_inj in Hr as <-|].
  cbn [read_orders] in Hr. apply res_bind_Ok in Hr as (bk1 & H1 & Hr).
  apply (IH (S i) bk1); [| |done].
  - intros j aj Hj. rewrite Nat.add_succ_l, <-Nat.add_succ_r. by apply Hat.
  - eapply read_order_evolve; [|exact Hbk|exact H1]. rewrite <-(Nat.add_0_r i). by apply Hat.
Qed.

Lemma apply_updates_evolve listed remaining slots0 orders slots slots' :
  listed = (toBytes ∘ pubkey <$> remaining) →
  store_evolves listed slots0 slots → Forall (snapshot_of slots0 remaining) orders →
  apply_slot_updates me_id remaining orders slots = Ok slots' → store_evolves listed slots0 slots'.
Proof.
  intros -> Hev Ho. revert slots Hev. induction Ho as [|s orders (Hs & ai & slot0 & Hat & Hk0 & Hp) Ho IH]; intros slots Hev Hr.
  { by apply Ok_inj in Hr as <-. }
  cbn [apply_slot_updates] in Hr. rewrite Hat in Hr. apply res_bind_Ok in Hr as (slot & Hl & Hr).
  apply res_bind_Ok in Hr as (slots1 & Hst & Hr). apply load_order_inv in Hl.
  destruct (evolved_pending _ _ _ _ _ Hev Hl) as (slot0' & Hk0' & He0 & _). replace slot0' with slot0 in * by congruence.
  unfold order_evolves in He0. rewrite decide_True in He0 by done. apply (IH slots1); [|done].
  refine (evolves_store _ _ _ ai slot slot0 _ _ Hev _ Hk0 Hl Hp _ Hst); [by eapply listed_key|by apply slot_evolves_update].
Qed.
End evolve.

Section handler.
Context `{NodeCrypto} `{Poseidon} (me_id : bytes).

Lemma snapshots_amounts slots0 remaining l : Forall (snapshot_of me_id slots0 remaining) l → amounts_ok l.
Proof. intros Hl. eapply Forall_impl; [exact Hl|]. by intros s [? _]. Qed.

Lemma snapshots_same slots0 remaining l l' :
  Forall (snapshot_of me_id slots0 remaining) l → Forall2 (λ s s', same_order s s' ∧ 0 <= s'.(sn_amount)) l l' →
  Forall (snapshot_of me_id slots0 remaining) l'.
Proof.
  intros Hl H2. induction H2 as [|s s' l l' [Hs Ha] H2 IH]; [done|].
  apply Forall_cons_1 in Hl as [(_ & ai & slot0 & Hat & Hk & Hp) Hl]. constructor; [|by apply IH].
  split; [done|]. exists ai, slot0. by rewrite (proj1 (so_slot _ _ Hs)).
Qed.

(** The breaker: what an auction leaves when it did not run. *)
Lemma run_auction_inv ctx twap bids asks br p tripped st :
  amounts_ok bids → amounts_ok asks → run_auction ctx twap bids asks br = Ok (p, tripped, st) →
  (st = auction_start bids asks br ∧ p = 0) ∨
  (tripped = false ∧ (∃ matched, compute_clearing_price bids asks = Some (p, matched)) ∧
   deviates_by_more_than_bps p twap ctx.(rc_config).(mc_circuit_breaker_bps) = false ∧
   generate_matches p twap ctx.(rc_slot) ctx.(rc_config).(mc_base_mint) ctx.(rc_config).(mc_quote_mint)
     ctx.(rc_vault).(fee_rate_bps) bids asks br = Ok st).
Proof.
  intros Hb Ha. unfold run_auction. cbv zeta. destruct (compute_clearing_price bids asks) as [[p_star m]|].
  - destruct (deviates_by_more_than_bps _ _ _) eqn:Hd; [intros [= <- <- <-]; by left|].
    intros Hr. apply res_bind_Ok in Hr as (st' & Hg & [= <- <- <-]). right. split; [done|]. split; [by eexists|]. done.
  - intros [= <- <- <-]. by left.
Qed.

Lemma run_auction_orders ctx twap slots0 remaining bids asks br p tripped st :
  Forall (snapshot_of me_id slots0 remaining) bids → Forall (snapshot_of me_id slots0 remaining) asks →
  run_auction ctx twap bids asks br = Ok (p, tripped, st) →
  Forall (snapshot_of me_id slots0 remaining) (st.(ms_bids) ++ st.(ms_asks)).
Proof.
  intros Hb Ha Hr. pose proof (snapshots_amounts _ _ _ Hb) as Ob. pose proof (snapshots_amounts _ _ _ Ha) as Oa.
  destruct (run_auction_inv _ _ _ _ _ _ _ _ Ob Oa Hr) as [[-> _]|(_ & _ & _ & Hg)]; [by apply Forall_app|].
  destruct (generate_matches_run _ _ _ _ _ _ _ _ _ _ Hg) as (fs & Hrun).
  destruct (run_same _ _ _ _ _ _ _ _ _ (conj Ob Oa : state_ok (auction_start bids asks br)) Hrun) as [Sb Sa].
  apply Forall_app. split; [exact (snapshots_same _ _ _ _ Hb Sb)|exact (snapshots_same _ _ _ _ Ha Sa)].
Qed.
End handler.

(** [C7] [run_batch] runs for the TEE of the vault, with the oracle of its
    market and at most 24 accounts, and touches only the slots it is given.  A
    slot that holds no pending order is left as it is; a pending order keeps its
    owner, market, side and times, never grows, and is either still pending or
    closed (matched, expired or cancelled) with no amount and no note left.
    The [BatchResults] account states what the event states, and when the
    circuit breaker tripped no match was written. *)
Theorem run_batch_evolves `{NodeCrypto} `{Poseidon} me_id ctx market slots br ev slots' br' :
  store_typed slots → run_batch_handler me_id ctx market slots br = Ok (ev, slots', br') →
  (ctx.(rc_tee_authority) = ctx.(rc_vault).(tee_pubkey) ∧ ctx.(rc_config).(mc_market) = market ∧
   ctx.(rc_oracle_key) = ctx.(rc_config).(mc_pyth_account) ∧ (length ctx.(rc_remaining) <= 24)%nat ∧
   ∃ twap, read_oracle_price ctx.(rc_oracle_data) = Ok twap ∧ 0 < twap ∧ br'.(br_lastPythTwap) = twap) ∧
  store_evolves (toBytes ∘ pubkey <$> ctx.(rc_remaining)) slots slots' ∧
  (br'.(br_lastBatchSlot) = ctx.(rc_slot) ∧ br'.(br_lastMatchCount) = ev.(be_match_count) ∧
   br'.(br_lastClearingPrice) = ev.(be_clearing_price) ∧ br'.(br_lastInclusionRoot) = ev.(be_inclusion_root) ∧
   br'.(br_lastCircuitBreakerTripped) = ev.(be_circuit_breaker_tripped)) ∧
  (ev.(be_circuit_breaker_tripped) = true →
   ev.(be_match_count) = 0 ∧ ev.(be_clearing_price) = 0 ∧ br'.(br_results) = br.(br_results)).
Proof.
  intros Ht Hr. unfold run_batch_handler in Hr. cbv zeta in Hr.
  apply res_bind_Ok in Hr as (? & Hmk & Hr). apply res_bind_Ok in Hr as (? & Hor & Hr).
  apply res_bind_Ok in Hr as (? & Htee & Hr). apply res_bind_Ok in Hr as (twap & Htw & Hr).
  apply res_bind_Ok in Hr as (? & Hpos & Hr). apply res_bind_Ok in Hr as (? & Hlen & Hr).
  apply throw_if_Ok in Hmk, Hor, Htee, Hpos, Hlen.
  apply negb_false_iff, bool_decide_eq_true_1 in Hmk, Hor, Htee. apply negb_false_iff, Z.ltb_lt in Hpos. apply Nat.ltb_ge in Hlen.
  apply res_bind_Ok in Hr as (bk & Hbk & Hr). apply res_bind_Ok in Hr as ([[p tripped] st] & Hau & Hr).
  apply res_bind_Ok in Hr as (slots1 & Hsl & Hr). apply res_bind_Ok in Hr as (accs & _ & Hr). injection Hr as <- <- <-.
  apply read_orders_evolve with (remaining := ctx.(rc_remaining)) (slots0 := slots) in Hbk as (Hev & Hb & Ha).
  2:{ intros j ai Hj. exact Hj. }
  2:{ split; [by apply store_evolves_refl|]. split; constructor. }
  assert (Hb' : Forall (snapshot_of me_id slots ctx.(rc_remaining)) (sort_by bid_before bk.(bk_bids))) by by rewrite sort_by_perm.
  assert (Ha' : Forall (snapshot_of me_id slots ctx.(rc_remaining)) (sort_by ask_before bk.(bk_asks))) by by rewrite sort_by_perm.
  pose proof (run_auction_orders _ _ _ _ _ _ _ _ _ _ _ Hb' Ha' Hau) as Hst.
  split; [split_and!; try done; by exists twap|]. split; [by eapply apply_updates_evolve|]. split; [done|].
  cbn [be_circuit_breaker_tripped be_match_count be_clearing_price]. intros ->.
  destruct (run_auction_inv _ _ _ _ _ _ _ _ (snapshots_amounts _ _ _ _ Hb') (snapshots_amounts _ _ _ _ Ha') Hau)
    as [[-> ->]|(Hf & _)]; [done|discriminate].
Qed.

(** ** Types *)

(** The arrays and words of a [PendingOrder]. *)
Record slot_typed (slot : PendingOrder) : Prop := {
  po_keys : length slot.(po_collateral_note) = 32%nat ∧ length slot.(po_user_commitment) = 32%nat ∧
    length slot.(po_trading_key) = 32%nat ∧ length slot.(po_order_id) = 16%nat ∧
    length slot.(po_order_inclusion_commitment) = 32%nat;
  po_words : u64_ok slot.(po_amount) ∧ u64_ok slot.(po_price_limit) ∧ u64_ok slot.(po_note_amount) ∧
    u64_ok slot.(po_expiry_slot);
  po_totals : u64_ok slot.(po_total_quantity) ∧ u64_ok slot.(po_filled_quantity) ∧ u64_ok slot.(po_min_fill_qty) }.

Definition slots_typed (slots : SlotStore) : Prop :=
  ∀ key acct slot, slots !! key = Some acct → acct.(sl_order) = Some slot → slot_typed slot.

Section types.
Context `{NodeCrypto} `{!NodeCryptoLaws} `{Poseidon} (me_id : bytes).

Lemma u64_ok_0 : u64_ok 0.
Proof. done. Qed.

Lemma close_typed slot status : slot_typed slot → slot_typed (close_slot slot status).
Proof. intros [(? & ? & ? & ? & ?) (? & ? & ? & ?) (? & ? & ?)]. split; by split_and!. Qed.

Lemma update_typed s slot : snapshot_typed s → slot_typed slot → slot_typed (update_slot s slot).
Proof.
  intros [(A1 & A2 & A3 & A4 & A5) (B1 & B2 & B3 & B4)] Hs. pose proof Hs as [(? & ? & ? & ? & ?) (? & ? & ? & ?) (? & ? & ?)].
  unfold update_slot. destruct (_ =? KILLED); [by apply close_typed|]. destruct (_ =? 0); [split; by split_and!|].
  destruct (_ <? _); [|done]. assert (Hr : slot_typed (rest_slot slot s)).
  { split; cbn; split_and!; try done. apply saturating_add_u64; unfold saturating_sub, u64_ok in *; lia. }
  destruct (_ =? PENDING_TYPE_IOC); [by apply close_typed|done].
Qed.

Lemma store_typed_insert slots ai slot slots' :
  slots_typed slots → slot_typed slot → store_order me_id slots ai slot = Ok slots' → slots_typed slots'.
Proof.
  intros Hs Ht Hst. apply store_order_inv in Hst as [-> _]. intros key acct sl Hk Ho.
  apply lookup_insert_Some in Hk as [[_ <-]|[_ Hk]]; [by injection Ho as <-|by eapply Hs].
Qed.

Definition book_typed (bk : Book) : Prop :=
  slots_typed bk.(bk_slots) ∧ Forall snapshot_typed bk.(bk_bids) ∧ Forall snapshot_typed bk.(bk_asks) ∧
  Forall (λ b, length b = 32%nat) bk.(bk_leaves).
Definition book_size (bk : Book) : nat := length bk.(bk_bids) + length bk.(bk_asks).

Lemma read_orders_typed market now min_order i ais bk bk' :
  book_typed bk → read_orders me_id market now min_order i ais bk = Ok bk' →
  book_typed bk' ∧ (book_size bk' <= book_size bk + length ais)%nat.
Proof.
  revert i bk. induction ais as [|ai ais IH]; intros i bk (Hs & Hb & Ha & Hlv) Hr; [apply Ok_inj in Hr as <-; split; [done|lia]|].
  cbn [read_orders] in Hr. apply res_bind_Ok in Hr as (bk1 & Hone & Hr).
  assert (Hst : book_typed bk1 ∧ (book_size bk1 <= book_size bk + 1)%nat); [clear IH Hr|].
  2:{ destruct Hst as [Ht Hsz]. destruct (IH (S i) bk1 Ht Hr) as [? ?]. split; [done|]. cbn [length]. lia. }
  unfold read_order in Hone. apply res_bind_Ok in Hone as (slot & Hl & Hone). apply load_order_inv in Hl.
  apply res_bind_Ok in Hone as (? & _ & Hone). assert (Hsl : slot_typed slot) by (by eapply Hs).
  destruct (negb _) in Hone; [apply Ok_inj in Hone as <-; split; [done|lia]|]. destruct (_ <=? _) in Hone.
  { apply res_bind_Ok in Hone as (slots1 & Hst & Hone). apply Ok_inj in Hone as <-. split; [split; [|done]|unfold book_size; cbn [bk_bids bk_asks]; lia].
    eapply store_typed_insert; [exact Hs| |exact Hst]. by apply close_typed. }
  destruct (_ && _) in Hone; apply Ok_inj in Hone as <-; [split; [done|lia]|]. cbv zeta. destruct Hsl as [Hkeys Hwords _].
  assert (Hn : Forall snapshot_typed [snapshot_from_slot slot i]) by (constructor; [by split|constructor]).
  split; [split; [done|]|unfold book_size; cbn [bk_bids bk_asks]; repeat case_bool; rewrite ?length_app; cbn; lia].
  cbn [bk_bids bk_asks bk_leaves]. split_and!; [case_bool; [by apply Forall_app|done]|case_bool; [by apply Forall_app|done]|].
  apply Forall_app. split; [done|]. constructor; [by apply Hkeys|constructor].
Qed.

Lemma apply_updates_typed remaining orders slots slots' :
  slots_typed slots → Forall snapshot_typed orders → apply_slot_updates me_id remaining orders slots = Ok slots' →
  slots_typed slots'.
Proof.
  intros Hs Ho. revert slots Hs. induction Ho as [|s orders Hty Ho IH]; intros slots Hs Hr; [by apply Ok_inj in Hr as <-|].
  cbn [apply_slot_updates] in Hr. destruct (remaining !! _) as [ai|]; [|done].
  apply res_bind_Ok in Hr as (slot & Hl & Hr). apply res_bind_Ok in Hr as (slots1 & Hst & Hr).
  apply load_order_inv in Hl. apply (IH slots1); [|done]. eapply store_typed_insert; [done| |done].
  apply update_typed; [done|by eapply Hs].
Qed.

Lemma flush_typed now owner role acc acc' : fee_wf acc → flush now owner role acc = Ok acc' → fee_wf acc'.
Proof.
  intros (A & B & C & D). unfold flush. destruct (0 <? _); [|by intros [= <-]].
  destruct (commitment_from_fields _ _ _ _ _) as [c|] eqn:Hc; [|done]. intros [= <-]. split_and!; try done.
  unfold commitment_from_fields, pubkey_to_fr_pair in Hc. cbn beta iota zeta in Hc. inv_res. subst c. apply length_be_bytes.
Qed.

Lemma flush_fees_typed now owner accs accs' :
  length accs = FEE_ACCUMULATOR_COUNT → Forall fee_wf accs → flush_fees now owner accs = Ok accs' →
  length accs' = FEE_ACCUMULATOR_COUNT ∧ Forall fee_wf accs'.
Proof.
  intros Hl Hf. destruct accs as [|a [|b [|]]]; try discriminate Hl. decompose_Forall_hyps. intros Hr. cbn [flush_fees] in Hr.
  apply res_bind_Ok in Hr as (a' & Ha & Hr). apply res_bind_Ok in Hr as (b' & Hb & Hr). apply Ok_inj in Hr as <-.
  split; [done|]. apply Forall_cons; split; [by eapply flush_typed; [|exact Ha]|]. apply Forall_singleton. by eapply flush_typed; [|exact Hb].
Qed.

Lemma set_accumulators_typed br accs :
  batch_results_wf br → length accs = FEE_ACCUMULATOR_COUNT → Forall fee_wf accs → batch_results_wf (set_accumulators br accs).
Proof. intros (? & ? & ? & ? & ? & ? & _ & _) ? ?. by split_and!. Qed.

Lemma oracle_price_u64 data p : read_oracle_price data = Ok p → u64_ok p.
Proof.
  unfold read_oracle_price. assert (Hr : ∀ off, (off + 8 <= length data)%nat → u64_ok (le_val (slice data off 8))).
  { intros off Ho. pose proof (le_val_range (slice data off 8)) as Hr. rewrite length_slice in Hr by done. exact Hr. }
  destruct (Nat.ltb_spec (length data) 16); [done|]. destruct (bool_decide _); [intros [= <-]; apply Hr; lia|].
  destruct (bool_decide _); [|done]. destruct (Nat.ltb_spec (length data) (PYTH_EMA_PRICE_OFFSET + 8)); [done|].
  destruct (_ <=? _); [done|]. intros [= <-]. by apply Hr.
Qed.

Lemma typed_amounts l : Forall snapshot_typed l → amounts_ok l.
Proof. intros Hl. eapply Forall_impl; [exact Hl|]. intros s [_ (Hs & _)]. by apply Hs. Qed.

Lemma run_auction_count ctx twap bids asks br p tripped st :
  Forall snapshot_typed bids → Forall snapshot_typed asks → run_auction ctx twap bids asks br = Ok (p, tripped, st) →
  0 <= st.(ms_produced) ∧ (Z.to_nat st.(ms_produced) <= length bids + length asks)%nat.
Proof.
  intros Tb%typed_amounts Ta%typed_amounts Hr.
  destruct (run_auction_inv _ _ _ _ _ _ _ _ Tb Ta Hr) as [[-> _]|(_ & _ & _ & Hg)]; [cbn; lia|].
  exact (auction_fair_count _ _ _ _ _ _ _ _ _ _ Tb Ta Hg).
Qed.

Lemma run_auction_typed ctx twap bids asks br p tripped st :
  u64_ok twap → u64_ok ctx.(rc_slot) → typed_state (auction_start bids asks br) →
  run_auction ctx twap bids asks br = Ok (p, tripped, st) → typed_state st ∧ u64_ok p.
Proof.
  intros Htw Hnow Hty Hr. pose proof Hty as (Tb & Ta & _). cbn [auction_start ms_bids ms_asks] in Tb, Ta.
  destruct (run_auction_inv _ _ _ _ _ _ _ _ (typed_amounts _ Tb) (typed_amounts _ Ta) Hr) as [[-> ->]|(_ & (m & Hp) & _ & Hg)]; [by split|].
  assert (Hpu : u64_ok p).
  { pose proof (clearing_price_best bids asks (typed_amounts _ Tb) (typed_amounts _ Ta)) as Ho. rewrite Hp in Ho.
    destruct Ho as (_ & _ & _ & _ & [Hin|Hin]%elem_of_app); apply list_elem_of_fmap in Hin as (s & -> & Hin).
    - by destruct (proj1 (Forall_forall _ _) Tb _ Hin) as [_ (_ & ? & _)].
    - by destruct (proj1 (Forall_forall _ _) Ta _ Hin) as [_ (_ & ? & _)]. }
  split; [|done]. destruct (generate_matches_run _ _ _ _ _ _ _ _ _ _ Hg) as (fs & Hrun).
  exact (typed_run _ _ _ _ _ _ _ _ _ Hpu Htw Hnow Hty Hrun).
Qed.
End types.

Lemma merkle_root_32 `{NodeCrypto} `{!NodeCryptoLaws} leaves :
  Forall (λ b, length b = 32%nat) leaves → length (merkle_root_sha256 leaves) = 32%nat.
Proof.
  intros Hl. rewrite merkle_root_sha256_spec. case_decide as Hn; [done|].
  apply (node_P _ (λ b : bytes, length b = 32%nat)); [intros; apply length_sha256|]. intros i. by apply inclusion_leaf_32.
Qed.

Lemma run_batch_typed `{NodeCrypto} `{!NodeCryptoLaws} `{Poseidon} me_id ctx market slots br ev slots' br' disc :
  slots_typed slots → batch_results_wf br → u64_ok ctx.(rc_slot) →
  length ctx.(rc_config).(mc_base_mint) = 32%nat → length ctx.(rc_config).(mc_quote_mint) = 32%nat → length disc = 8%nat →
  run_batch_handler me_id ctx market slots br = Ok (ev, slots', br') →
  slots_typed slots' ∧ batch_results_wf br' ∧ decodeBatchResults (batch_results_bytes disc br') = Ok br'.
Proof.
  intros Hs Hbr Hnow Hbase Hquote Hdisc Hr.
  assert (Hgo : slots_typed slots' ∧ batch_results_wf br').
  2:{ destruct Hgo as [? Hwf]. split; [done|]. split; [done|]. by apply decodeBatchResults_bytes. }
  unfold run_batch_handler in Hr. cbv zeta in Hr. do 3 (apply res_bind_Ok in Hr as (? & _ & Hr)).
  apply res_bind_Ok in Hr as (twap & Htw & Hr). apply res_bind_Ok in Hr as (? & _ & Hr).
  apply res_bind_Ok in Hr as (? & Hlen & Hr). apply throw_if_Ok, Nat.ltb_ge in Hlen.
  apply res_bind_Ok in Hr as (bk & Hbk & Hr). apply res_bind_Ok in Hr as ([[p tripped] st] & Hau & Hr).
  apply res_bind_Ok in Hr as (slots1 & Hsl & Hr). apply res_bind_Ok in Hr as (accs & Hacc & Hr). injection Hr as _ <- <-.
  apply read_orders_typed in Hbk as [(Ts & Tb & Ta & Tl) Hsize]; [|split; [exact Hs|]; split_and!; by apply Forall_nil].
  unfold book_size in Hsize. cbn [bk_bids bk_asks length Nat.add] in Hsize. apply oracle_price_u64 in Htw.
  assert (Tb' : Forall snapshot_typed (sort_by bid_before bk.(bk_bids))) by by rewrite sort_by_perm.
  assert (Ta' : Forall snapshot_typed (sort_by ask_before bk.(bk_asks))) by by rewrite sort_by_perm.
  set (accs0 := [fresh_accumulator ctx.(rc_config).(mc_base_mint) ctx.(rc_slot);
    fresh_accumulator ctx.(rc_config).(mc_quote_mint) ctx.(rc_slot)]) in *.
  assert (Hstart : typed_state (auction_start (sort_by bid_before bk.(bk_bids)) (sort_by ask_before bk.(bk_asks)) (set_accumulators br accs0))).
  { split; [done|]. split; [done|]. apply set_accumulators_typed; [done|done|].
    apply Forall_cons; split; [by split_and!|]. apply Forall_singleton. by split_and!. }
  destruct (run_auction_typed _ _ _ _ _ _ _ _ Htw Hnow Hstart Hau) as [(Sb & Sa & Sr) Hp].
  split; [refine (apply_updates_typed _ _ _ _ _ Ts _ Hsl); by apply Forall_app|].
  pose proof Sr as (_ & _ & _ & _ & _ & _ & Hal & Haf).
  assert (Hacc' : length accs = FEE_ACCUMULATOR_COUNT ∧ Forall fee_wf accs).
  { destruct (_ && _) in Hacc; [by eapply flush_fees_typed|by apply Ok_inj in Hacc as <-]. }
  destruct Hacc' as [Hl' Hf']. pose proof (set_accumulators_typed _ _ Sr Hl' Hf') as (A & B & C & D & E).
  assert (Hprod : u64_ok st.(ms_produced)).
  { pose proof (run_auction_count _ _ _ _ _ _ _ _ Tb' Ta' Hau) as [Hc0 Hc]. rewrite !sort_by_perm in Hc.
    change MAX_PENDING_ACCOUNTS_PER_BATCH with 24%nat in Hlen. unfold u64_ok, U64. lia. }
  unfold batch_results_wf. cbn [publish br_market br_lastInclusionRoot br_lastBatchSlot br_lastMatchCount br_lastClearingPrice
    br_lastPythTwap br_writeCursor br_nextMatchId br_bump br_results br_feeAccumulators].
  split; [exact A|]. split; [by apply merkle_root_32|]. split; [|done].
  cbn [set_accumulators br_writeCursor br_nextMatchId] in *. decompose_Forall_hyps. repeat (apply Forall_cons; split; [done|]). by apply Forall_nil.
Qed.

(** [C19] [run_batch] keeps every account typed: given slots, oracle and results
    of the declared widths, the slots it writes have them too, and the
    [BatchResults] account it leaves is one the SDK decodes to exactly these
    results, no amount, price, counter or commitment cut off or wrapped. *)
Theorem run_batch_types `{NodeCrypto} `{!NodeCryptoLaws} `{Poseidon} me_id ctx market slots br ev slots' br' disc :
  slots_typed slots → batch_results_wf br → u64_ok ctx.(rc_slot) →
  length ctx.(rc_config).(mc_base_mint) = 32%nat → length ctx.(rc_config).(mc_quote_mint) = 32%nat → length disc = 8%nat →
  run_batch_handler me_id ctx market slots br = Ok (ev, slots', br') →
  slots_typed slots' ∧ batch_results_wf br' ∧ decodeBatchResults (batch_results_bytes disc br') = Ok br'.
Proof. apply run_batch_typed. Qed.

(** ** Two orders that mirror each other *)

Section pair.
Context `{NodeCrypto} `{!NodeCryptoLaws} `{Poseidon}.

Lemma pair_price b a p q :
  b.(sn_price_limit) = p → a.(sn_price_limit) = p → b.(sn_amount) = q → a.(sn_amount) = q → 0 < q < U64 →
  compute_clearing_price [b] [a] = Some (p, q).
Proof.
  intros Pb Pa Qb Qa Hq. unfold compute_clearing_price. rewrite decide_False by (intros [|]; discriminate).
  cbn [fmap list_fmap app sort_by foldr insert_before]. rewrite Pb, Pa, Z.leb_refl. cbn [dedup]. rewrite Z.eqb_refl.
  cbn [foldl]. unfold best_step, demand, supply. rewrite !filter_cons, !filter_nil, !decide_True by lia.
  cbn [sum_amounts foldl snd]. unfold sum_amounts. cbn [foldl]. rewrite Qb, Qa. unfold saturating_add.
  rewrite Z.add_0_l, !Z.min_r by lia. by rewrite (proj2 (Z.ltb_lt 0 q)) by lia.
Qed.

Lemma pair_matches b a p q twap now base quote br :
  plain b → plain a → backed_bid b → backed_ask a →
  b.(sn_price_limit) = p → a.(sn_price_limit) = p → b.(sn_amount) = q → a.(sn_amount) = q → 0 < q → 0 <= p →
  ∃ mr, fair_match p twap now base quote 0 b a mr ∧ mr.(mr_matchId) = br.(br_nextMatchId) ∧
    generate_matches p twap now base quote 0 [b] [a] br = Ok
      {| ms_bids := [after_fill b 0 false mr.(mr_noteE) mr.(mr_buyerChangeAmt)];
         ms_asks := [after_fill a 0 false mr.(mr_noteF) mr.(mr_sellerChangeAmt)];
         ms_bi := 1; ms_ai := 1; ms_results := record_match br mr; ms_produced := 1 |}.
Proof.
  intros [Tb Mb] [Ta Ma] Bb Ba Pb Pa Qb Qa Hq Hp. assert (Hc : crosses p b a) by (split; lia).
  destruct (trade_runs p twap now base quote 0 b a br.(br_nextMatchId) eq_refl Hp Hc Bb Ba) as (mr & Hmr).
  pose proof Hmr as Hf. apply trade_inv in Hf as [Hf Hid]. exists mr. split; [done|]. split; [done|].
  destruct (fm_legs _ _ _ _ _ _ _ _ _ Hf) as (Hbase & _). rewrite Qb, Qa, Z.min_id in Hbase.
  unfold generate_matches. cbn [length Nat.add match_loop ms_bids ms_bi ms_asks ms_ai lookup list_lookup].
  assert (Hstep : match_step p twap now base quote 0 (auction_start [b] [a] br) b a = Ok (fill_pair (auction_start [b] [a] br) b a mr)).
  { unfold match_step. cbv zeta. rewrite Pb, Pa, Z.ltb_irrefl. cbn [orb].
    rewrite (proj2 (Z.ltb_ge (Z.min b.(sn_amount) a.(sn_amount)) b.(sn_amount))), andb_false_r by lia.
    rewrite (proj2 (Z.ltb_ge (Z.min b.(sn_amount) a.(sn_amount)) a.(sn_amount))), andb_false_r by lia.
    rewrite !(proj2 (Z.ltb_ge _ _)) by lia. cbn [orb auction_start ms_results]. rewrite Hmr. reflexivity. }
  fold (auction_start [b] [a] br). rewrite Hstep. cbn [mbind res_bind].
  assert (Hfill : fill_pair (auction_start [b] [a] br) b a mr =
    {| ms_bids := [after_fill b 0 false mr.(mr_noteE) mr.(mr_buyerChangeAmt)];
       ms_asks := [after_fill a 0 false mr.(mr_noteF) mr.(mr_sellerChangeAmt)];
       ms_bi := 1; ms_ai := 1; ms_results := record_match br mr; ms_produced := 1 |}).
  { unfold fill_pair. cbn [auction_start ms_bids ms_asks ms_bi ms_ai ms_results ms_produced insert list_insert].
    rewrite Hbase, Qb, Qa. unfold saturating_sub. rewrite Z.sub_diag. reflexivity. }
  rewrite Hfill. reflexivity.
Qed.

(** An order [run_batch] takes into the auction. *)
Record ready_order (ctx : RunBatchContext) (market : bytes) (slot : PendingOrder) : Prop := {
  ro_status : slot.(po_status) = PENDING ∧ slot.(po_market) = market;
  ro_expiry : saturating_add ctx.(rc_slot) SETTLEMENT_BUFFER_SLOTS < slot.(po_expiry_slot);
  ro_size : ctx.(rc_config).(mc_min_order_size) <= slot.(po_amount) ∧ 0 < slot.(po_amount) < U64;
  ro_price : 0 < slot.(po_price_limit);
  ro_type : slot.(po_order_type) = PENDING_TYPE_LIMIT ∧ slot.(po_min_fill_qty) <= 0;
  ro_note : required_collateral slot.(po_side) slot.(po_amount) slot.(po_price_limit) <= slot.(po_note_amount) < U64;
  ro_side : slot.(po_side) = 0 ∨ slot.(po_side) = 1;
  ro_owner : length slot.(po_user_commitment) = 32%nat ∧ be_val slot.(po_user_commitment) < BN254_R }.

Lemma read_ready ctx me_id market i ai slot bk :
  ready_order ctx market slot →
  bk.(bk_slots) !! toBytes ai.(pubkey) = Some {| sl_owner := me_id; sl_order := Some slot |} →
  read_order me_id market ctx.(rc_slot) ctx.(rc_config).(mc_min_order_size) i ai bk =
  Ok {| bk_slots := bk.(bk_slots);
        bk_bids := if slot.(po_side) =? 0 then bk.(bk_bids) ++ [snapshot_from_slot slot i] else bk.(bk_bids);
        bk_asks := if slot.(po_side) =? 1 then bk.(bk_asks) ++ [snapshot_from_slot slot i] else bk.(bk_asks);
        bk_leaves := bk.(bk_leaves) ++ [slot.(po_order_inclusion_commitment)] |}.
Proof.
  intros [[Hs Hm] He [Hsz Ha] _ _ _ _ _] Hk. unfold read_order, load_order. rewrite Hk. cbn [sl_owner sl_order mbind res_bind].
  rewrite (bool_decide_eq_true_2 (me_id = me_id)) by done. cbn [negb throw_if mbind res_bind].
  rewrite (bool_decide_eq_true_2 _ Hm), (bool_decide_eq_true_2 _ Hs). cbn [negb throw_if mbind res_bind].
  rewrite (proj2 (Z.leb_gt _ _) He), (proj2 (Z.ltb_ge _ _) Hsz). reflexivity.
Qed.

Lemma ready_snapshot ctx market slot i :
  ready_order ctx market slot → let s := snapshot_from_slot slot i in
  plain s ∧ (slot.(po_side) = 0 → backed_bid s) ∧ (slot.(po_side) = 1 → backed_ask s).
Proof.
  intros [_ _ [_ Ha] Hp [Ht Hm] Hn _ Ho] s. split; [by split|]. unfold required_collateral in Hn.
  split; intros Hs; rewrite Hs in Hn; (split; [exact Hn|cbn; lia|exact Ho]).
Qed.

Lemma update_filled s rl note ch slot :
  s.(sn_order_type) = PENDING_TYPE_LIMIT → update_slot (after_fill s 0 rl note ch) slot = fill_slot slot.
Proof. intros Ht. unfold update_slot. by rewrite after_fill_type, after_fill_amount, Ht. Qed.

Lemma apply_filled me_id remaining (ai : AccountMeta) i slot slots rest note ch :
  remaining !! i = Some ai → ai.(isWritable) = true →
  slots !! toBytes ai.(pubkey) = Some {| sl_owner := me_id; sl_order := Some slot |} →
  slot.(po_order_type) = PENDING_TYPE_LIMIT →
  apply_slot_updates me_id remaining (after_fill (snapshot_from_slot slot i) 0 false note ch :: rest) slots =
  apply_slot_updates me_id remaining rest
    (<[toBytes ai.(pubkey) := {| sl_owner := me_id; sl_order := Some (fill_slot slot) |}]> slots).
Proof.
  intros Hi Hw Hk Ht. cbn [apply_slot_updates].
  change (sn_rem_idx (after_fill (snapshot_from_slot slot i) 0 false note ch)) with i. rewrite Hi.
  unfold load_order. rewrite Hk. cbn [sl_owner sl_order]. rewrite bool_decide_eq_true_2 by done. cbn [negb throw_if mbind res_bind].
  rewrite update_filled by done. unfold store_order. rewrite Hw. reflexivity.
Qed.

(** The two slots, as the auction reads them. *)
Definition bid_of (u m : PendingOrder) : OrderSnapshot :=
  if u.(po_side) =? 0 then snapshot_from_slot u 0 else snapshot_from_slot m 1.
Definition ask_of (u m : PendingOrder) : OrderSnapshot :=
  if u.(po_side) =? 0 then snapshot_from_slot m 1 else snapshot_from_slot u 0.

Lemma pair_run_auction ctx market twap u m br :
  ready_order ctx market u → ready_order ctx market m → m.(po_side) = 1 - u.(po_side) →
  u.(po_amount) = m.(po_amount) → u.(po_price_limit) = m.(po_price_limit) → ctx.(rc_vault).(fee_rate_bps) = 0 →
  deviates_by_more_than_bps u.(po_price_limit) twap ctx.(rc_config).(mc_circuit_breaker_bps) = false →
  ∃ mr st, fair_match u.(po_price_limit) twap ctx.(rc_slot) ctx.(rc_config).(mc_base_mint) ctx.(rc_config).(mc_quote_mint) 0
             (bid_of u m) (ask_of u m) mr ∧ mr.(mr_matchId) = br.(br_nextMatchId) ∧
    run_auction ctx twap [bid_of u m] [ask_of u m] br = Ok (u.(po_price_limit), false, st) ∧
    ms_results st = record_match br mr ∧ ms_produced st = 1 ∧
    ms_bids st = [after_fill (bid_of u m) 0 false mr.(mr_noteE) mr.(mr_buyerChangeAmt)] ∧
    ms_asks st = [after_fill (ask_of u m) 0 false mr.(mr_noteF) mr.(mr_sellerChangeAmt)].
Proof.
  intros Hu Hm Hside Hq Hp Hfee Hdev. pose proof (ro_size _ _ _ Hu) as [_ Hrange]. pose proof (ro_price _ _ _ Hu) as Hpos.
  destruct (ready_snapshot _ _ _ 0 Hu) as (Pu & Bu & Au), (ready_snapshot _ _ _ 1 Hm) as (Pm & Bm & Am).
  assert (Hprice : (bid_of u m).(sn_price_limit) = u.(po_price_limit) ∧ (ask_of u m).(sn_price_limit) = u.(po_price_limit) ∧
    (bid_of u m).(sn_amount) = u.(po_amount) ∧ (ask_of u m).(sn_amount) = u.(po_amount))
    by (unfold bid_of, ask_of; destruct (_ =? 0); cbn; split_and!; congruence).
  destruct Hprice as (P1 & P2 & Q1 & Q2).
  assert (Hb : plain (bid_of u m) ∧ plain (ask_of u m) ∧ backed_bid (bid_of u m) ∧ backed_ask (ask_of u m)).
  { unfold bid_of, ask_of. destruct (Z.eqb_spec u.(po_side) 0) as [Hs|Hs].
    - split; [done|]. split; [done|]. split; [by apply Bu|]. apply Am. lia.
    - destruct (ro_side _ _ _ Hu) as [|Hs1]; [done|]. split; [done|]. split; [done|]. split; [apply Bm; lia|by apply Au]. }
  destruct Hb as (Kb & Ka & Lb & La).
  destruct (pair_matches (bid_of u m) (ask_of u m) u.(po_price_limit) u.(po_amount) twap ctx.(rc_slot)
    ctx.(rc_config).(mc_base_mint) ctx.(rc_config).(mc_quote_mint) br Kb Ka Lb La P1 P2 Q1 Q2 (proj1 Hrange) ltac:(lia))
    as (mr & Hf & Hid & Hg).
  eexists mr, _. split; [exact Hf|]. split; [exact Hid|]. split.
  { unfold run_auction. rewrite (pair_price _ _ _ _ P1 P2 Q1 Q2 Hrange), Hdev, Hfee, Hg. reflexivity. }
  by split_and!.
Qed.

Lemma apply_pair me_id (ua ma : AccountMeta) u m slots noteE chE noteF chF :
  ua.(isWritable) = true → ma.(isWritable) = true → toBytes ua.(pubkey) ≠ toBytes ma.(pubkey) →
  slots !! toBytes ua.(pubkey) = Some {| sl_owner := me_id; sl_order := Some u |} →
  slots !! toBytes ma.(pubkey) = Some {| sl_owner := me_id; sl_order := Some m |} →
  u.(po_order_type) = PENDING_TYPE_LIMIT → m.(po_order_type) = PENDING_TYPE_LIMIT →
  ∃ slots', apply_slot_updates me_id [ua; ma]
      [after_fill (bid_of u m) 0 false noteE chE; after_fill (ask_of u m) 0 false noteF chF] slots = Ok slots' ∧
    slots' !! toBytes ua.(pubkey) = Some {| sl_owner := me_id; sl_order := Some (fill_slot u) |} ∧
    slots' !! toBytes ma.(pubkey) = Some {| sl_owner := me_id; sl_order := Some (fill_slot m) |}.
Proof.
  intros Wu Wm Hne Ku Km Tu Tm. unfold bid_of, ask_of. destruct (_ =? 0).
  - rewrite (apply_filled me_id [ua; ma] ua 0 u), (apply_filled me_id [ua; ma] ma 1 m);
      [|done|done|by rewrite lookup_insert_ne|done|done|done|done|done].
    eexists. split; [reflexivity|]. split; [by rewrite lookup_insert_ne, lookup_insert_eq|by rewrite lookup_insert_eq].
  - rewrite (apply_filled me_id [ua; ma] ma 1 m), (apply_filled me_id [ua; ma] ua 0 u);
      [|done|done|by rewrite lookup_insert_ne|done|done|done|done|done].
    eexists. split; [reflexivity|]. split; [by rewrite lookup_insert_eq|by rewrite lookup_insert_ne, lookup_insert_eq].
Qed.
End pair.

(** A call of [run_batch] for two slots of a market without fees. *)
Record pair_context (ctx : RunBatchContext) (market : bytes) (twap : Z) (ua ma : AccountMeta) : Prop := {
  pc_market : ctx.(rc_config).(mc_market) = market;
  pc_oracle : ctx.(rc_oracle_key) = ctx.(rc_config).(mc_pyth_account) ∧ read_oracle_price ctx.(rc_oracle_data) = Ok twap ∧ 0 < twap;
  pc_tee : ctx.(rc_tee_authority) = ctx.(rc_vault).(tee_pubkey);
  pc_fee : ctx.(rc_vault).(fee_rate_bps) = 0;
  pc_accounts : ctx.(rc_remaining) = [ua; ma] ∧ ua.(isWritable) = true ∧ ma.(isWritable) = true ∧
    toBytes ua.(pubkey) ≠ toBytes ma.(pubkey) }.

Section pair_run.
Context `{NodeCrypto} `{!NodeCryptoLaws} `{Poseidon}.

Lemma read_pair me_id ctx market u m (ua ma : AccountMeta) slots :
  ready_order ctx market u → ready_order ctx market m → m.(po_side) = 1 - u.(po_side) →
  slots !! toBytes ua.(pubkey) = Some {| sl_owner := me_id; sl_order := Some u |} →
  slots !! toBytes ma.(pubkey) = Some {| sl_owner := me_id; sl_order := Some m |} →
  read_orders me_id market ctx.(rc_slot) ctx.(rc_config).(mc_min_order_size) 0 [ua; ma]
    {| bk_slots := slots; bk_bids := []; bk_asks := []; bk_leaves := [] |} =
  Ok {| bk_slots := slots; bk_bids := [bid_of u m]; bk_asks := [ask_of u m];
        bk_leaves := [u.(po_order_inclusion_commitment); m.(po_order_inclusion_commitment)] |}.
Proof.
  intros Hu Hm Hside Ku Km. cbn [read_orders].
  rewrite (read_ready ctx me_id market 0 ua u) by done. cbn [mbind res_bind bk_slots bk_bids bk_asks bk_leaves app].
  rewrite (read_ready ctx me_id market 1 ma m) by done. cbn [mbind res_bind bk_slots bk_bids bk_asks bk_leaves].
  unfold bid_of, ask_of. rewrite Hside. destruct (ro_side _ _ _ Hu) as [-> | ->]; reflexivity.
Qed.

(** The fee accumulators of a match without fees. *)
Lemma no_fees_flushed now owner base quote br mr :
  mr.(mr_buyerFeeAmt) = 0 → mr.(mr_sellerFeeAmt) = 0 →
  let accs := [fresh_accumulator base now; fresh_accumulator quote now] in
  (record_match (set_accumulators br accs) mr).(br_feeAccumulators) = accs ∧ flush_fees now owner accs = Ok accs.
Proof.
  intros Hb Hs accs. split; [|reflexivity]. unfold record_match. cbn [br_feeAccumulators set_accumulators accs alter list_alter].
  rewrite Hb, Hs. reflexivity.
Qed.
End pair_run.

Lemma mirrored_orders_run `{NodeCrypto} `{!NodeCryptoLaws} `{Poseidon} me_id ctx market twap ua ma u m slots br :
  pair_context ctx market twap ua ma →
  ready_order ctx market u → ready_order ctx market m → m.(po_side) = 1 - u.(po_side) →
  u.(po_amount) = m.(po_amount) → u.(po_price_limit) = m.(po_price_limit) →
  deviates_by_more_than_bps u.(po_price_limit) twap ctx.(rc_config).(mc_circuit_breaker_bps) = false →
  slots !! toBytes ua.(pubkey) = Some {| sl_owner := me_id; sl_order := Some u |} →
  slots !! toBytes ma.(pubkey) = Some {| sl_owner := me_id; sl_order := Some m |} →
  ∃ ev slots' br' mr, run_batch_handler me_id ctx market slots br = Ok (ev, slots', br') ∧
    ev.(be_match_count) = 1 ∧ ev.(be_clearing_price) = u.(po_price_limit) ∧ ev.(be_circuit_breaker_tripped) = false ∧
    fair_match u.(po_price_limit) twap ctx.(rc_slot) ctx.(rc_config).(mc_base_mint) ctx.(rc_config).(mc_quote_mint) 0
      (bid_of u m) (ask_of u m) mr ∧
    mr.(mr_matchId) = br.(br_nextMatchId) ∧ mr.(mr_baseAmt) = u.(po_amount) ∧
    br'.(br_results) = <[Z.to_nat (br.(br_writeCursor) mod 16) := mr]> br.(br_results) ∧
    slots' !! toBytes ua.(pubkey) = Some {| sl_owner := me_id; sl_order := Some (fill_slot u) |} ∧
    slots' !! toBytes ma.(pubkey) = Some {| sl_owner := me_id; sl_order := Some (fill_slot m) |}.
Proof.
  intros [Hmk (Hok & Htw & Hpos) Htee Hfee (Hrem & Wu & Wm & Hne)] Hu Hm Hside Hq Hp Hdev Ku Km.
  set (accs := [fresh_accumulator ctx.(rc_config).(mc_base_mint) ctx.(rc_slot); fresh_accumulator ctx.(rc_config).(mc_quote_mint) ctx.(rc_slot)]).
  destruct (pair_run_auction ctx market twap u m (set_accumulators br accs) Hu Hm Hside Hq Hp Hfee Hdev)
    as (mr & st & Hf & Hid & Hau & Hres & Hprod & Hbids & Hasks).
  destruct (apply_pair me_id ua ma u m slots mr.(mr_noteE) mr.(mr_buyerChangeAmt) mr.(mr_noteF) mr.(mr_sellerChangeAmt)
    Wu Wm Hne Ku Km (proj1 (ro_type _ _ _ Hu)) (proj1 (ro_type _ _ _ Hm))) as (slots' & Hsl & Su & Sm).
  destruct (fm_fees _ _ _ _ _ _ _ _ _ Hf) as [F1 F2]. rewrite fee_at_0 in F1, F2.
  destruct (no_fees_flushed ctx.(rc_slot) ctx.(rc_vault).(protocol_owner_commitment) ctx.(rc_config).(mc_base_mint)
    ctx.(rc_config).(mc_quote_mint) br mr F1 F2) as [Hacc Hfl]. fold accs in Hacc, Hfl.
  destruct (fm_legs _ _ _ _ _ _ _ _ _ Hf) as (Hbase & _).
  eexists _, slots', _, mr. split.
  { unfold run_batch_handler. cbv zeta.
    eapply (bind_Ok_eq _ tt); [by rewrite bool_decide_eq_true_2|].
    eapply (bind_Ok_eq _ tt); [by rewrite bool_decide_eq_true_2|].
    eapply (bind_Ok_eq _ tt); [by rewrite bool_decide_eq_true_2|].
    eapply bind_Ok_eq; [exact Htw|].
    eapply (bind_Ok_eq _ tt); [by rewrite (proj2 (Z.ltb_lt _ _) Hpos)|].
    eapply (bind_Ok_eq _ tt); [by rewrite Hrem|].
    eapply bind_Ok_eq; [rewrite Hrem; by apply (read_pair me_id ctx market u m)|].
    cbn [bk_bids bk_asks bk_slots bk_leaves sort_by foldr insert_before]. fold accs.
    eapply bind_Ok_eq; [exact Hau|]. cbv beta iota.
    eapply bind_Ok_eq; [rewrite Hrem, Hbids, Hasks; exact Hsl|].
    eapply (bind_Ok_eq _ accs); [rewrite Hres, Hacc, Hfl; by destruct (_ && _)|]. reflexivity. }
  rewrite Hres.
  cbn [be_match_count be_clearing_price be_circuit_breaker_tripped publish set_accumulators br_results record_match].
  split_and!; try done.
  rewrite Hbase. unfold bid_of, ask_of. destruct (_ =? 0); cbn; lia.
Qed.

(** Two live limit orders that mirror each other are matched with each
    other: for opposite sides, equal amounts and equal prices inside the circuit
    breaker's band, and no protocol fee, [run_batch] returns; it reports one
    match at their price, writes it at the cursor of the ring under the next
    match id, for both orders in full and each against its own note; and both
    slots end matched and free again. *)
Theorem mirrored_orders_match `{NodeCrypto} `{!NodeCryptoLaws} `{Poseidon} me_id ctx market twap ua ma u m slots br :
  pair_context ctx market twap ua ma →
  ready_order ctx market u → ready_order ctx market m → m.(po_side) = 1 - u.(po_side) →
  u.(po_amount) = m.(po_amount) → u.(po_price_limit) = m.(po_price_limit) →
  deviates_by_more_than_bps u.(po_price_limit) twap ctx.(rc_config).(mc_circuit_breaker_bps) = false →
  slots !! toBytes ua.(pubkey) = Some {| sl_owner := me_id; sl_order := Some u |} →
  slots !! toBytes ma.(pubkey) = Some {| sl_owner := me_id; sl_order := Some m |} →
  ∃ ev slots' br' mr, run_batch_handler me_id ctx market slots br = Ok (ev, slots', br') ∧
    ev.(be_match_count) = 1 ∧ ev.(be_clearing_price) = u.(po_price_limit) ∧ ev.(be_circuit_breaker_tripped) = false ∧
    fair_match u.(po_price_limit) twap ctx.(rc_slot) ctx.(rc_config).(mc_base_mint) ctx.(rc_config).(mc_quote_mint) 0
      (bid_of u m) (ask_of u m) mr ∧
    mr.(mr_matchId) = br.(br_nextMatchId) ∧ mr.(mr_baseAmt) = u.(po_amount) ∧
    br'.(br_results) = <[Z.to_nat (br.(br_writeCursor) mod 16) := mr]> br.(br_results) ∧
    slots' !! toBytes ua.(pubkey) = Some {| sl_owner := me_id; sl_order := Some (fill_slot u) |} ∧
    slots' !! toBytes ma.(pubkey) = Some {| sl_owner := me_id; sl_order := Some (fill_slot m) |}.
Proof. apply mirrored_orders_run. Qed.

(** A bid and an ask of 10 at 100, with an oracle at 101. *)
Module SampleBatch.
Definition word (b : byte) : bytes := replicate 31 x00 ++ [b].
Definition slot (side : Z) (note owner : byte) (value : Z) : PendingOrder :=
  {| po_trading_key := word x21; po_market := word x22; po_status := PENDING; po_side := side; po_order_type := 0;
     po_slot_idx := 0; po_arrival_slot := 5; po_expiry_slot := 500; po_price_limit := 100; po_amount := 10;
     po_total_quantity := 10; po_filled_quantity := 0; po_min_fill_qty := 0; po_note_amount := value;
     po_collateral_note := word note; po_user_commitment := word owner; po_order_id := replicate 16 note;
     po_order_inclusion_commitment := word note |}.
Definition user : PendingOrder := slot 0 x31 x41 1000.
Definition maker : PendingOrder := slot 1 x32 x42 30.

Definition account (b : byte) : AccountMeta := {| pubkey := Toy.key_of (word b); isSigner := false; isWritable := true |}.
Definition me_id : bytes := word x01.
Definition slots : SlotStore :=
  {[ word x51 := {| sl_owner := me_id; sl_order := Some user |}; word x52 := {| sl_owner := me_id; sl_order := Some maker |} ]}.

Definition config : MatchingConfig :=
  {| mc_market := word x22; mc_root_key := word x02; mc_base_mint := word x11; mc_quote_mint := word x12;
     mc_pyth_account := word x61; mc_batch_interval_slots := 1; mc_circuit_breaker_bps := 500; mc_tick_size := 1;
     mc_min_order_size := 1 |}.
Definition vault : VaultConfig :=
  {| admin := word x0a; tee_pubkey := word x0b; root_key := word x0c; leaf_count := 0; current_root := word x00;
     roots := []; zero_subtree_roots := []; right_path := []; roots_head := 0; protocol_owner_commitment := word x0d;
     fee_rate_bps := 0 |}.
Definition ctx : RunBatchContext :=
  {| rc_tee_authority := word x0b; rc_config := config; rc_vault := vault; rc_oracle_key := word x61;
     rc_oracle_data := MOCK_PYTH_MAGIC ++ le_bytes 8 101; rc_slot := 50; rc_remaining := [account x51; account x52] |}.

Lemma slots_typed : store_typed slots.
Proof.
  unfold store_typed, slots. intros key acct s [[_ <-]|[_ Hk]]%lookup_insert_Some Hs.
  - injection Hs as <-. cbn. lia.
  - apply lookup_singleton_Some in Hk as [_ <-]. injection Hs as <-. cbn. lia.
Qed.

Lemma user_ready : ready_order ctx (word x22) user.
Proof. split; cbn; repeat split; try reflexivity; try lia; by left. Qed.
Lemma maker_ready : ready_order ctx (word x22) maker.
Proof. split; cbn; repeat split; try reflexivity; try lia; by right. Qed.
Lemma context_fits : pair_context ctx (word x22) 101 (account x51) (account x52).
Proof. split; try reflexivity; repeat split; try reflexivity; try lia; discriminate. Qed.
End SampleBatch.

Lemma mirrored_orders_match_witness : ∃ ev slots' br' mr,
  @run_batch_handler Toy.toy_crypto Toy.toy_Poseidon SampleBatch.me_id SampleBatch.ctx (SampleBatch.word x22) SampleBatch.slots
    SampleBook.results = Ok (ev, slots', br') ∧ ev.(be_match_count) = 1 ∧ br'.(br_results) !! 0%nat = Some mr ∧
  mr.(mr_baseAmt) = 10.
Proof.
  destruct (@mirrored_orders_match Toy.toy_crypto Toy.toy_crypto_laws Toy.toy_Poseidon SampleBatch.me_id SampleBatch.ctx
    (SampleBatch.word x22) 101 (SampleBatch.account x51) (SampleBatch.account x52) SampleBatch.user SampleBatch.maker
    SampleBatch.slots SampleBook.results SampleBatch.context_fits SampleBatch.user_ready SampleBatch.maker_ready
    eq_refl eq_refl eq_refl eq_refl eq_refl eq_refl) as (ev & slots' & br' & mr & Hrun & Hc & _ & _ & _ & _ & Hb & Hr & _).
  exists ev, slots', br', mr. split; [exact Hrun|]. split; [exact Hc|]. split; [rewrite Hr; reflexivity|exact Hb].
Defined.

Lemma sample_batch_runs : ∃ ev slots' br',
  @run_batch_handler Toy.toy_crypto Toy.toy_Poseidon SampleBatch.me_id SampleBatch.ctx (SampleBatch.word x22) SampleBatch.slots
    SampleBook.results = Ok (ev, slots', br').
Proof.
  assert (Hok : is_Ok (@run_batch_handler Toy.toy_crypto Toy.toy_Poseidon SampleBatch.me_id SampleBatch.ctx (SampleBatch.word x22)
    SampleBatch.slots SampleBook.results) = true) by (vm_compute; reflexivity).
  destruct (run_batch_handler _ _ _ _ _) as [[[ev slots'] br']|]; [by exists ev, slots', br'|discriminate].
Qed.

Lemma run_batch_evolves_witness : ∃ slots',
  store_evolves [SampleBatch.word x51; SampleBatch.word x52] SampleBatch.slots slots'.
Proof.
  destruct sample_batch_runs as (ev & slots' & br' & Hrun). exists slots'.
  exact (proj1 (proj2 (run_batch_evolves _ _ _ _ _ _ _ _ SampleBatch.slots_typed Hrun))).
Defined.

Lemma sample_slots_wf : slots_typed SampleBatch.slots.
Proof.
  unfold slots_typed, SampleBatch.slots. intros key acct s [[_ <-]|[_ Hk]]%lookup_insert_Some Hs.
  - injection Hs as <-. split; cbn; split_and!; done.
  - apply lookup_singleton_Some in Hk as [_ <-]. injection Hs as <-. split; cbn; split_and!; done.
Qed.

Lemma sample_results_wf : batch_results_wf SampleBook.results.
Proof.
  assert (Hm : match_result_wf SampleBook.no_result).
  { split; [by repeat (apply Forall_cons; split; [done|])|]. split; [by repeat (apply Forall_cons; split; [done|])|].
    split; [by repeat (apply Forall_cons; split; [done|])|done]. }
  split_and!; try done; [by repeat (apply Forall_cons; split; [done|])|by apply Forall_replicate|].
  by repeat (apply Forall_cons; split; [done|]).
Qed.

Lemma run_batch_types_witness : ∃ ev slots' br',
  @run_batch_handler Toy.toy_crypto Toy.toy_Poseidon SampleBatch.me_id SampleBatch.ctx (SampleBatch.word x22) SampleBatch.slots
    SampleBook.results = Ok (ev, slots', br') ∧
  decodeBatchResults (batch_results_bytes (replicate 8 x01) br') = Ok br'.
Proof.
  destruct sample_batch_runs as (ev & slots' & br' & Hrun). exists ev, slots', br'. split; [exact Hrun|].
  destruct (@run_batch_types Toy.toy_crypto Toy.toy_crypto_laws Toy.toy_Poseidon SampleBatch.me_id SampleBatch.ctx
    (SampleBatch.word x22) SampleBatch.slots SampleBook.results ev slots' br' (replicate 8 x01) sample_slots_wf sample_results_wf
    ltac:(split; [discriminate|reflexivity]) eq_refl eq_refl eq_refl Hrun) as (_ & _ & Hd). exact Hd.
Defined.
