(* ===== verification/AccountTypes.v ===== *)
(** The vault's account keeps its types.  Whatever instructions the vault runs,
    its configuration has the widths of the zero-copy struct, so the offsets the
    clients read ([104], [112], the fee) hold the program's own fields. *)

From stdpp Require Import gmap.
From S2P Require Import Prelude Bytes Errors Externals Keys Note Borsh VaultClient VaultProgram Settlement SettleProgram.
From S2P Require Import Merkle MerkleShadow VaultTree Client Deposit VaultState Session DecimalText LeafHistory DemoKeys DemoChain.

Local Open Scope Z_scope.

Lemma account_wf_fresh `{Poseidon} `{!PoseidonLaws} disc a t r :
  length disc = 8%nat → length a = 32%nat → length t = 32%nat → length r = 32%nat →
  account_wf disc (fresh_config a t r).
Proof.
  intros Hd Ha Ht Hr. split; cbn [fresh_config admin tee_pubkey root_key leaf_count current_root roots zero_subtree_roots
    right_path protocol_owner_commitment fee_rate_bps].
  - by split_and!.
  - split; [lia|reflexivity].
  - exact (proj1 (vault_node_field [] TREE_DEPTH 0 (Forall_nil_2 _))).
  - split; [apply length_replicate|]. by apply Forall_replicate.
  - unfold zero_roots. split; [by rewrite length_fmap, length_seq|]. apply Forall_fmap, Forall_true.
    intros d. exact (proj1 (zero_node_field d)).
  - split; [apply length_replicate|]. by apply Forall_replicate.
  - reflexivity.
  - lia.
Qed.

Section types.
Context `{Poseidon}.

Lemma poseidon2_32 a b c : poseidon2_onchain a b = Ok c → is_32 c.
Proof. unfold poseidon2_onchain. destruct (_ || _); [done|]. intros [= <-]. apply length_be_bytes. Qed.

Lemma append_loop_types n lvl right zeros idx cur r :
  append_loop n lvl right zeros idx cur = Ok r → is_32 cur → Forall is_32 right →
  is_32 r.1 ∧ length r.2 = length right ∧ Forall is_32 r.2.
Proof.
  revert lvl right idx cur; induction n as [|n IH]; intros lvl right idx cur; cbn [append_loop].
  - by intros [= <-] Hc Hr.
  - intros Hr Hc Hf. destruct (_ =? 1); inv_res; match goal with H : poseidon2_onchain _ _ = Ok _ |- _ => apply poseidon2_32 in H end.
    + eapply IH; eassumption.
    + destruct (IH _ _ _ _ Hr) as (H1 & H2 & H3); [assumption|by apply Forall_insert|].
      rewrite length_insert in H2. done.
Qed.

Lemma append_leaf_types disc cfg leaf r :
  account_wf disc cfg → is_32 leaf → append_leaf cfg leaf = Ok r → account_wf disc r.2.
Proof.
  intros [Hk [Hc _] Hr [Rl Rf] Hz [Pl Pf] Ho Hfee] Hleaf Ha. unfold append_leaf in Ha. inv_res.
  destruct a0 as [cur rpath]. inv_res. subst r.
  match goal with H : append_loop _ _ _ _ _ _ = Ok _ |- _ => destruct (append_loop_types _ _ _ _ _ _ _ H Hleaf Pf) as (C & L & F) end.
  match goal with H : negb (_ <? U64) = false |- _ => apply negb_false_iff, Z.ltb_lt in H end. cbn [fst snd] in C, L, F.
  split; cbn [push_root set_tree snd admin tee_pubkey root_key leaf_count current_root roots zero_subtree_roots right_path
    protocol_owner_commitment fee_rate_bps]; try assumption.
  - lia.
  - rewrite length_insert. split; [exact Rl|]. by apply Forall_insert.
  - rewrite L. by split.
Qed.

Lemma append_optional_types disc cfg root leaf r :
  account_wf disc cfg → is_32 leaf → append_optional cfg root leaf = Ok r → account_wf disc r.2.
Proof.
  intros Hwf Hl Ha. unfold append_optional in Ha. destruct (bool_decide _).
  - apply Ok_inj in Ha as <-. exact Hwf.
  - apply res_bind_Ok in Ha as (a & Ha & Hr). apply Ok_inj in Hr as <-. cbn [snd]. by eapply append_leaf_types.
Qed.

Lemma deposit_types disc cfg mint a o n b ev cfg' :
  account_wf disc cfg → deposit_handler cfg mint a o n b = Ok (ev, cfg') → account_wf disc cfg'.
Proof.
  intros Hwf Hd. unfold deposit_handler in Hd. apply res_bind_Ok in Hd as (u & _ & Hd).
  destruct (commitment_from_fields mint a o n b) as [c|e] eqn:Hc; [|discriminate].
  apply res_bind_Ok in Hd as (c' & Hcc & Hd). apply Ok_inj in Hcc as <-.
  apply res_bind_Ok in Hd as (r & Ha & Hd). destruct r as [root cfg2]. injection Hd as _ <-.
  assert (Hl : is_32 c).
  { unfold commitment_from_fields, pubkey_to_fr_pair in Hc. cbn beta iota zeta in Hc. inv_res. subst c. apply length_be_bytes. }
  exact (append_leaf_types _ _ _ _ Hwf Hl Ha).
Qed.
End types.

Section step_types.
Context `{NodeCrypto} `{Poseidon} `{Web3}.
Context (verify_spend verify_wallet : Groth16Proof → list bytes → bool).

Lemma settle_types disc tee slot tx cur p st ev st' :
  payload_sized p → account_wf disc st.(vs_config) → tee_forced_settle tee slot tx cur p st = Ok (ev, st') →
  account_wf disc st'.(vs_config).
Proof.
  intros (X1 & X2 & X3 & X4 & X5)%payload_notes_32 Hwf Hs. unfold tee_forced_settle in Hs. inv_res. injection Hs as _ <-.
  cbn [vs_config].
  repeat match goal with
  | H : append_leaf _ _ = Ok ?r |- _ => apply append_leaf_types with (disc := disc) in H; [|assumption|assumption]
  | H : append_optional _ _ _ = Ok ?r |- _ => apply append_optional_types with (disc := disc) in H; [|assumption|assumption]
  end. assumption.
Qed.

(** Every instruction keeps the types of the account. *)
Lemma step_types disc st st' :
  vault_step verify_spend verify_wallet st st' → account_wf disc st.(vs_config) → account_wf disc st'.(vs_config).
Proof.
  destruct 1 as [? ? ? ? Hs|? ? ? ? ? Hs|? ? ? ? ? ? ? Hs|? ? ? ? ? ? Hs|? ? Hs|? ? f Hc Hf Hs|? ? Hk Hs|? Hs|? ? ? ? p ev Hsz Hs|? Hs];
    intros Hwf; [..|by eapply settle_types|subst st'; unfold fund_lock; by case_bool_decide].
  all: unfold create_wallet, deposit, withdraw, lock_note, release_lock, set_protocol_config, rotate_root_key,
    reset_merkle_tree, reset_merkle_tree_handler in Hs; inv_res; try subst st'; cbn [with_config with_locks with_funded vs_config];
    try exact Hwf.
  - destruct a0 as [? cfg']. by eapply deposit_types.
  - destruct Hwf as [? ? ? ? ? ? _ _]. split; cbn; try assumption.
    match goal with H : (10000 <? _) = false |- _ => apply Z.ltb_ge in H; lia end.
  - destruct Hwf as [(? & ? & ? & _) ? ? ? ? ? ? ?]. split; cbn; try assumption. by split_and!.
  - destruct Hwf as [? _ _ _ ? _ ? ?]. subst. split; cbn [admin tee_pubkey root_key leaf_count current_root roots
      zero_subtree_roots right_path protocol_owner_commitment fee_rate_bps]; try assumption.
    + split; [lia|reflexivity].
    + match goal with H : empty_root _ = Ok _ |- _ => unfold empty_root in H; apply res_bind_Ok in H as (z & _ & H); by eapply poseidon2_32 end.
    + split; [apply length_replicate|]. by apply Forall_replicate.
    + split; [apply length_replicate|]. by apply Forall_replicate.
Qed.

Lemma steps_types disc st st' :
  rtc (vault_step verify_spend verify_wallet) st st' → account_wf disc st.(vs_config) → account_wf disc st'.(vs_config).
Proof. induction 1 as [|? ? ? Hs _ IH]; [done|]. intros Hwf. apply IH. by eapply step_types. Qed.

Context `{!PoseidonLaws}.

Lemma initial_types disc st : length disc = 8%nat → initial st → account_wf disc st.(vs_config).
Proof.
  intros Hd (a & t & r & Ha & Ht & Hr & Hi & _). rewrite initialize_fresh in Hi. apply Ok_inj in Hi as <-.
  by apply account_wf_fresh.
Qed.
End step_types.

(** ** The ledger's instructions are steps *)

Section ledger_steps.
Context `{NodeCrypto} `{!NodeCryptoLaws} `{Poseidon} `{Web3} `{Base58}.
Context (verify_spend verify_wallet : Groth16Proof → list bytes → bool) (vault : PublicKey).
Notation steps := (rtc (vault_step verify_spend verify_wallet)).

(** From [c] the vault got to [c'], through its initialisation if need be. *)
Definition leads (c c' : option VaultState) : Prop :=
  match c with
  | Some st => ∃ st', c' = Some st' ∧ steps st st'
  | None => c' = None ∨ ∃ st0 st', c' = Some st' ∧ initial st0 ∧ steps st0 st'
  end.

#[local] Instance leads_refl : Reflexive leads.
Proof. intros [st|]; [exists st; split; [done|apply rtc_refl]|by left]. Qed.

#[local] Instance leads_trans : Transitive leads.
Proof.
  intros [st|] c2 c3 H1' H2'; cbn in H1'.
  - destruct H1' as (st2 & -> & Hs). destruct H2' as (st3 & -> & Hs'). exists st3. split; [done|by etrans].
  - destruct H1' as [->|(st0 & st2 & -> & Hi & Hs)]; [exact H2'|]. destruct H2' as (st3 & -> & Hs').
    right. exists st0, st3. split; [done|]. split; [done|by etrans].
Qed.

Lemma vault_ran_leads c c' data keys : vault_ran verify_spend verify_wallet c c' data keys → leads c c'.
Proof.
  destruct 1 as [st data keys _ Hi|st st' data keys mint a o n b _ _ Hs|st st' data keys tee slot tx cur p ev Hd Hs
    |name st st' data keys _ Ho]; cbn.
  - right. exists st, st. split; [done|]. split; [exact Hi|apply rtc_refl].
  - exists st'. split; [done|]. apply rtc_once. by eapply step_deposit.
  - exists st'. split; [done|]. apply rtc_once. destruct (settle_dispatched _ _ Hd) as (_ & _ & Hsz). by eapply step_settle.
  - exists st'. split; [done|]. apply rtc_once. destruct Ho;
      [eapply step_rotate_root_key|eapply step_create_wallet|eapply step_withdraw|eapply step_lock_note
      |eapply step_release_lock|eapply step_set_protocol_config]; eassumption.
Qed.

Lemma funded_leads notes c : leads c (fund_locks notes <$> c).
Proof.
  destruct c as [st|]; [|by left]. exists (fund_locks notes st). split; [done|].
  induction notes as [|note notes IH]; [apply rtc_refl|]. eapply rtc_r; [exact IH|]. by apply (step_fund _ _ _ _ note).
Qed.

Lemma calls_ran_leads c c' calls : calls_ran verify_spend verify_wallet vault c c' calls → leads c c'.
Proof.
  induction 1; [done| |].
  - etrans; [apply funded_leads|done].
  - etrans; [by eapply vault_ran_leads|done].
Qed.

Lemma ledger_ran_leads c c' ledger : ledger_ran verify_spend verify_wallet vault c c' ledger → leads c c'.
Proof. induction 1; [done|done|]. etrans; [apply funded_leads|]. etrans; [by eapply calls_ran_leads|done]. Qed.

Lemma ledger_reachable st ledger :
  ledger_ran verify_spend verify_wallet vault None (Some st) ledger → ∃ st0, initial st0 ∧ steps st0 st.
Proof. intros Hr. apply ledger_ran_leads in Hr as [?|(st0 & st' & [= <-] & Hi & Hs)]; [done|eauto]. Qed.
End ledger_steps.

(** ** The account *)

(** The account keeps its types.  In every state reachable from an
    initialised vault the configuration has the widths of the zero-copy struct,
    so the account is 2488 bytes long and what the clients read at their offsets
    is what the program holds: the leaf count at 104, the current root at 112,
    the protocol owner and the fee rate where [ensure-zero-fee.ts] looks. *)
Theorem reachable_account `{NodeCrypto} `{Poseidon} `{!PoseidonLaws} `{Web3} verify_spend verify_wallet st0 st disc bump :
  initial st0 → rtc (vault_step verify_spend verify_wallet) st0 st → length disc = 8%nat →
  let cfg := st.(vs_config) in let data := vault_account disc bump cfg in
  account_wf disc cfg ∧ length data = 2488%nat ∧ readU64 data 104 = Ok cfg.(leaf_count) ∧
  slice data 112 32 = cfg.(current_root) ∧
  slice data PROTOCOL_OWNER_COMMITMENT_OFFSET 32 = cfg.(protocol_owner_commitment) ∧
  readUInt16LE data FEE_RATE_BPS_OFFSET = cfg.(fee_rate_bps).
Proof.
  intros Hi Hs Hd cfg data. assert (Hwf : account_wf disc cfg) by (eapply steps_types; [exact Hs|by apply initial_types]).
  split; [exact Hwf|]. split; [by apply length_vault_account|]. split; [by apply read_leaf_count|].
  split; [by apply read_current_root|]. split; [by apply read_owner|by apply read_fee].
Qed.

Lemma reachable_account_witness : ∃ st,
  @initial Toy.toy_Poseidon st ∧ account_wf (replicate 8 x07) st.(vs_config).
Proof.
  destruct sample_initial as [st Hi]. exists st. split; [exact Hi|].
  exact (proj1 (@reachable_account Toy.toy_crypto Toy.toy_Poseidon Toy.toy_poseidon_laws Toy.toy_web3
    (λ _ _, true) (λ _ _, true) st st (replicate 8 x07) x01 Hi (rtc_refl _ st) eq_refl)).
Defined.
