(* ===== verification/Routes.v ===== *)
(** What the demo's request handlers ([apps/demo/src/app/api/dapp/*/route.ts])
    share: text read as a [BigInt], answers with their status, the configuration
    ([apps/demo/src/lib/dapp/demo-devnet.ts]) and the answer that hands a note to
    the prover.  The lemmas say when such an answer is a valid spend. *)

From Stdlib Require Import Ascii.
From stdpp Require Import gmap.
From S2P Require Import Prelude Bytes Errors Externals Keys Note Borsh VaultClient VaultProgram Settlement.
From S2P Require Import Merkle MerkleShadow VaultTree Client Deposit VaultState Withdraw Session DecimalText.
From S2P Require Import LeafHistory Decimals DemoText DemoKeys DemoChain.

Local Open Scope Z_scope.

(** ** [BigInt(text)]

    Spaces around the literal do not count, the empty text is 0; a sign goes
    with decimal digits only, a prefix gives hexadecimal, octal or binary ones. *)

Definition digit_below (r : Z) (c : ascii) : option Z :=
  d ← hex_value c; if d <? r then Some d else None.

Fixpoint radix_digits (r : Z) (s : string) : option (list Z) :=
  match s with
  | "" => Some []
  | String c s => d ← digit_below r c; ds ← radix_digits r s; Some (d :: ds)
  end.

Definition radix_value (r : Z) (s : string) : option Z :=
  ds ← radix_digits r s;
  if decide (ds = []) then None else Some (foldl (λ acc d, acc * r + d) 0 ds).

Definition radix_of (c : ascii) : option Z :=
  if decide (c = "x"%char ∨ c = "X"%char) then Some 16
  else if decide (c = "o"%char ∨ c = "O"%char) then Some 8
  else if decide (c = "b"%char ∨ c = "B"%char) then Some 2
  else None.

Definition decimal_value (s : string) : option Z := ds ← decimal s; Some (dec_val ds).

Definition StringToBigInt (text : string) : option Z :=
  match trim text with
  | "" => Some 0
  | String c s =>
      if decide (c = "-"%char) then Z.opp <$> decimal_value s
      else if decide (c = "+"%char) then decimal_value s
      else match (if decide (c = "0"%char) then match s with String x _ => radix_of x | "" => None end else None) with
           | Some r => match s with String _ s => radix_value r s | "" => None end
           | None => decimal_value (String c s)
           end
  end.

Definition BigInt (text : string) : res Z :=
  match StringToBigInt text with
  | Some x => Ok x
  | None => Throw (EError "SyntaxError" ("Cannot convert " +:+ text +:+ " to a BigInt"))
  end.

(** ** Answers

    [NextResponse.json]: the handler's answer, or an error with its status. *)
Inductive Answer (A : Type) :=
  | Sent (a : A)
  | Refused (status : Z) (error : string) (diagnostics : option Json).
Arguments Sent {A} a.
Arguments Refused {A} status error diagnostics.

(** [catch (e) { return NextResponse.json({ ok: false, error }, { status: 500 }); }] *)
Definition route {S A} (handler : M S (Answer A)) : M S (Answer A) :=
  try_catch handler (λ e, mret (Refused 500 (exn_message e) None)).

Definition bad_request {A} (error : string) : Answer A := Refused 400 error None.

(** The rest of a handler, unless it has answered already. *)
Definition and_then {S A B} (m : M S (Answer A)) (k : A → M S (Answer B)) : M S (Answer B) :=
  a ← m; match a with Sent a => k a | Refused status error d => mret (Refused status error d) end.

(** ** [demo-devnet.ts] *)

Record DemoE2eConfigJson := {
  cfg_l1RpcUrl : string; cfg_vaultProgramId : string; cfg_matchingEngineProgramId : string;
  cfg_pythAccount : string; cfg_market : string; cfg_baseMint : string; cfg_quoteMint : string }.

Record DemoPrograms := {
  vaultProgramId : PublicKey; meProgramId : PublicKey; market : PublicKey; pythAccount : PublicKey;
  baseMint : PublicKey; quoteMint : PublicKey }.

(** The server: its environment variables, [Date.now()], the configuration file
    behind [resolveRepoRoot] and [loadDemoE2eConfig], and [new Connection(url)]. *)
Record DemoServer (S : Type) := {
  ds_env : string → option string;
  ds_now : M S Z;
  ds_config : M S DemoE2eConfigJson;
  ds_connection : string → L1Connection S;
}.
Arguments ds_env {S}.
Arguments ds_now {S}.
Arguments ds_config {S}.
Arguments ds_connection {S}.

Record DemoConnections (S : Type) := { dc_l1 : L1Connection S; dc_er : L1Connection S; dc_erRpcUrl : string }.
Arguments dc_l1 {S}.
Arguments dc_er {S}.
Arguments dc_erRpcUrl {S}.

Definition getDemoConnections {S} (server : DemoServer S) (cfg : DemoE2eConfigJson) : DemoConnections S :=
  let l1RpcUrl := default cfg.(cfg_l1RpcUrl) (server.(ds_env) "DEMO_L1_RPC_URL") in
  let erRpcUrl := default "https://devnet.magicblock.app" (server.(ds_env) "DEMO_ER_RPC_URL") in
  {| dc_l1 := server.(ds_connection) l1RpcUrl; dc_er := server.(ds_connection) erRpcUrl; dc_erRpcUrl := erRpcUrl |}.

Definition parseDemoPrograms `{Base58} (cfg : DemoE2eConfigJson) : res DemoPrograms :=
  vault ← newPublicKey (Some cfg.(cfg_vaultProgramId));
  me ← newPublicKey (Some cfg.(cfg_matchingEngineProgramId));
  mkt ← newPublicKey (Some cfg.(cfg_market));
  pyth ← newPublicKey (Some cfg.(cfg_pythAccount));
  base ← newPublicKey (Some cfg.(cfg_baseMint));
  quote ← newPublicKey (Some cfg.(cfg_quoteMint));
  Ok {| vaultProgramId := vault; meProgramId := me; market := mkt; pythAccount := pyth; baseMint := base;
        quoteMint := quote |}.

(** Configuration, connections and programs, as each handler sets them up. *)
Definition demo_setup `{Base58} {S} (server : DemoServer S) : M S (DemoConnections S * DemoPrograms) :=
  cfg ← server.(ds_config);
  programs ← liftR (parseDemoPrograms cfg);
  mret (getDemoConnections server cfg, programs).

(** ** The answer that hands a note to the prover *)

Definition hexToBytes (hex : string) : bytes := fromHex (strip_0x hex).
Definition beBytesToBigInt (x : bytes) : Z := foldl be_step 0 x.

Record SpendProverInputs := {
  pi_merkleRoot : string; pi_nullifier : string; pi_tokenMint : string * string; pi_amount : string;
  pi_spendingKey : string; pi_ownerCommitmentBlinding : string; pi_nonce : string; pi_blindingR : string;
  pi_merklePath : list string; pi_merkleIndices : list string }.
Record IxContext := {
  ic_commitmentHex : string; ic_nullifierHex : string; ic_merkleRootHex : string; ic_ownerCommitmentHex : string }.
Record SpendAnswer := { sa_proverInputs : SpendProverInputs; sa_ixContext : IxContext }.

Definition spend_answer `{Poseidon} (spendingKey ownerBlinding owner : Z) (tokenMint : PublicKey)
    (amount nonce blindingR : Z) (commitment root : bytes) (siblings : list bytes) (indices : list Z)
    : res SpendAnswer :=
  nullifierBytes ← nullifier spendingKey commitment;
  mint ← pubkeyToFrPair (toBytes tokenMint);
  ownerBytes ← bn254ToBE32 owner;
  Ok {| sa_proverInputs :=
          {| pi_merkleRoot := bigint_string (beBytesToBigInt root);
             pi_nullifier := bigint_string (beBytesToBigInt nullifierBytes);
             pi_tokenMint := (bigint_string mint.1, bigint_string mint.2);
             pi_amount := bigint_string amount;
             pi_spendingKey := bigint_string spendingKey;
             pi_ownerCommitmentBlinding := bigint_string ownerBlinding;
             pi_nonce := bigint_string nonce; pi_blindingR := bigint_string blindingR;
             pi_merklePath := bigint_string ∘ beBytesToBigInt <$> siblings;
             pi_merkleIndices := bigint_string <$> indices |};
        sa_ixContext :=
          {| ic_commitmentHex := toHex commitment; ic_nullifierHex := toHex nullifierBytes;
             ic_merkleRootHex := toHex root; ic_ownerCommitmentHex := toHex ownerBytes |} |}.

(** The prover reads each text as a number. *)
Definition read_inputs (p : SpendProverInputs) : option SpendInputs :=
  root ← StringToBigInt p.(pi_merkleRoot);
  nf ← StringToBigInt p.(pi_nullifier);
  lo ← StringToBigInt p.(pi_tokenMint).1;
  hi ← StringToBigInt p.(pi_tokenMint).2;
  amount ← StringToBigInt p.(pi_amount);
  sk ← StringToBigInt p.(pi_spendingKey);
  ob ← StringToBigInt p.(pi_ownerCommitmentBlinding);
  nonce ← StringToBigInt p.(pi_nonce);
  r ← StringToBigInt p.(pi_blindingR);
  path ← mapM StringToBigInt p.(pi_merklePath);
  bits ← mapM StringToBigInt p.(pi_merkleIndices);
  Some {| si_merkleRoot := root; si_nullifier := nf; si_tokenMint := (lo, hi); si_amount := amount;
          si_spendingKey := sk; si_ownerCommitmentBlinding := ob; si_nonce := nonce; si_blindingR := r;
          si_merklePath := path; si_merkleIndices := bits |}.

(** ** Lemmas: text *)

Lemma radix_of_digit c d : digit_of c = Some d → radix_of c = None.
Proof.
  intros Hc. unfold radix_of. repeat (rewrite decide_False; [|by intros [-> | ->]]). done.
Qed.

Lemma StringToBigInt_pretty x : 0 <= x → StringToBigInt (pretty x) = Some x.
Proof.
  intros Hx. destruct (digits_pretty x Hx) as (ds & Hd & Hne & Hv & _).
  assert (Hdec : decimal_value (pretty x) = Some x).
  { unfold decimal_value, decimal. rewrite Hd. cbn. rewrite decide_False by done. cbn. by rewrite Hv. }
  unfold StringToBigInt. rewrite (trim_unspaced _ (digits_unspaced _ _ Hd)). destruct (pretty x) as [|c s].
  - cbn in Hd. congruence.
  - cbn [digits] in Hd. destruct (digit_of c) as [d|] eqn:Hc; [|done].
    rewrite !(decide_False (P := c = _)) by by intros ->. case_decide; [|exact Hdec].
    destruct s as [|y s]; [exact Hdec|]. cbn [digits] in Hd. destruct (digit_of y) as [e|] eqn:Hy; [|done].
    by rewrite (radix_of_digit _ _ Hy).
Qed.

Lemma read_text x : 0 <= x → StringToBigInt (bigint_string x) = Some x.
Proof. intros Hx. rewrite bigint_string_nonneg by done. by apply StringToBigInt_pretty. Qed.

Lemma bigint_string_ne x : 0 <= x → bigint_string x ≠ EmptyString.
Proof.
  intros Hx. rewrite bigint_string_nonneg by done. destruct (digits_pretty x Hx) as (ds & Hd & Hne & _).
  intros E. rewrite E in Hd. cbn in Hd. congruence.
Qed.

Lemma truthy_text x : 0 <= x → truthy (Some (bigint_string x)) = Some (bigint_string x).
Proof. intros Hx. pose proof (bigint_string_ne x Hx). by destruct (bigint_string x). Qed.

Lemma BigInt_text x : 0 <= x → BigInt (bigint_string x) = Ok x.
Proof. intros Hx. unfold BigInt. by rewrite read_text. Qed.

Lemma read_texts {A} (f : A → Z) l :
  Forall (λ a, 0 <= f a) l → mapM StringToBigInt (bigint_string ∘ f <$> l) = Some (f <$> l).
Proof.
  induction 1 as [|a l Ha _ IH]; [done|]. cbn [fmap list_fmap mapM compose]. rewrite read_text by done.
  cbn. by rewrite IH.
Qed.

Lemma strip_0x_toHex bs : strip_0x (toHex bs) = toHex bs.
Proof.
  destruct bs as [|b bs]; [done|]. cbn [toHex]. pose proof (u8_val_range b) as Hb.
  assert (Hd : hex_value (hex_digit (u8_val b mod 16)) ≠ None).
  { rewrite hex_value_digit; [done|]. apply Z.mod_pos_bound. lia. }
  unfold strip_0x. generalize (hex_digit (u8_val b / 16)). intros c. revert Hd.
  generalize (hex_digit (u8_val b mod 16)). intros c' Hd.
  destruct c as [[] [] [] [] [] [] [] []]; try reflexivity.
  destruct c' as [[] [] [] [] [] [] [] []]; try reflexivity. exfalso. apply Hd. reflexivity.
Qed.

Lemma hexToBytes_toHex bs : hexToBytes (toHex bs) = bs.
Proof. unfold hexToBytes. by rewrite strip_0x_toHex, fromHex_toHex. Qed.

(** ** Lemmas: answers *)

Lemma route_Sent {S A} (handler : M S (Answer A)) w a w' :
  route handler w = (Ok (Sent a), w') → handler w = (Ok (Sent a), w').
Proof. unfold route, try_catch. by destruct (handler w) as [[b|e] w1]. Qed.

Lemma route_Ok {S A} (handler : M S (Answer A)) w a w' :
  handler w = (Ok a, w') → route handler w = (Ok a, w').
Proof. unfold route, try_catch. by intros ->. Qed.

Lemma M_bind_lift {S A B} (r : res A) (a : A) (k : A → M S B) w : r = Ok a → (liftR r ≫= k) w = k a w.
Proof. by intros ->. Qed.

(** A handler answers: it does not throw. *)
Lemma route_answers {S A} (handler : M S (Answer A)) w : ∃ a w', route handler w = (Ok a, w').
Proof. unfold route, try_catch. destruct (handler w) as [[b|e] w1]; cbn; eauto. Qed.

(** The withdrawal a spend answer prepares, as the client's own parameters. *)
Definition as_params (note : Note) (mint : PublicKey) : WithdrawParams () :=
  {| wp_payer := mint; wp_tokenMint := toBytes mint; wp_amount := note.(amount); wp_destinationTokenAccount := mint;
     wp_notePlaintext := note; wp_leafIndex := 0; wp_tokenProgramId := None; wp_callbacks := None |}.

(** A spend answer prepares a withdrawal: the texts read back as inputs that
    satisfy the circuit, and with any proof the program's verifier accepts for
    them, the vault pays the whole note out, unless it is locked or spent. *)
Definition spend_ok `{Poseidon} (cfg : VaultConfig) (mint : PublicKey) (note : Note) (sk : Z) (c : bytes)
    (ans : SpendAnswer) : Prop :=
  ∃ i nf root, read_inputs ans.(sa_proverInputs) = Some i ∧ ValidSpend 20 i = true ∧ nullifier sk c = Ok nf ∧
    hexToBytes ans.(sa_ixContext).(ic_commitmentHex) = c ∧
    hexToBytes ans.(sa_ixContext).(ic_nullifierHex) = nf ∧
    hexToBytes ans.(sa_ixContext).(ic_merkleRootHex) = root ∧ length root = 32%nat ∧
    ∀ verify_spend pf slot st, st.(vs_config) = cfg → verify_spend pf (spend_public i) = true →
      st.(vs_consumed) !! c = None → st.(vs_locks) !! c = None → st.(vs_nullifiers) !! nf = None →
      note.(amount) <= balance st (toBytes mint) →
      ∃ st', withdraw verify_spend (toBytes mint) slot c nf root note.(amount) pf st = Ok st' ∧
        balance st' (toBytes mint) = balance st (toBytes mint) - note.(amount) ∧
        st'.(vs_nullifiers) !! nf = Some slot.

Section spend.
Context `{Poseidon} `{!PoseidonLaws} `{Web3}.

Lemma spend_answer_valid cfg sk ob mint note c root sibs bits ans :
  spend_answer sk ob (ownerCommitment sk ob) mint note.(amount) note.(nonce) note.(blindingR) c root sibs bits = Ok ans →
  let mp := {| ip_root := root; ip_siblings := sibs; ip_pathIndices := bits |} in
  spend_fits (as_params note mint) mp sk ob → noteCommitment note = Ok c → note.(tokenMint) = toBytes mint →
  note.(ownerCommitment_) = ownerCommitment sk ob → fold_bits hash2 c sibs bits = Some root →
  contains_root cfg root = true → spend_ok cfg mint note sk c ans.
Proof.
  intros Hans mp Hfit Hc Hmint Hown Hfold Hroot. unfold spend_answer in Hans.
  apply res_bind_Ok in Hans as (nf & Hnf & Hans). apply res_bind_Ok in Hans as (pair & Hpair & Hans).
  apply res_bind_Ok in Hans as (ob32 & _ & Hans). apply Ok_inj in Hans as <-.
  rewrite <-pubkeyPairBE_spec in Hpair. apply pubkeyPairBE_Ok in Hpair as [_ ->].
  pose proof (nullifier_Ok _ _ _ Hnf) as [Enf _].
  assert (Hnff : field_bytes nf) by (rewrite Enf; apply poseidon_bytes_field).
  assert (Hbits : Forall (λ b, 0 <= b) bits).
  { eapply Forall_impl; [exact (sf_bits _ _ _ _ Hfit)|]. cbn. intros b [-> | ->]; lia. }
  exists (spend_inputs (as_params note mint) mp nf (mint_pair (toBytes mint)) sk ob), nf, root.
  split; [|split; [|split; [exact Hnf|]]].
  - destruct Hfit as [_ [Ha _] _ [Hsk _] [Hob _] [Hn _] [Hr _] _ _ _ _]. unfold read_inputs.
    cbn [sa_proverInputs pi_merkleRoot pi_nullifier pi_tokenMint pi_amount pi_spendingKey pi_ownerCommitmentBlinding
      pi_nonce pi_blindingR pi_merklePath pi_merkleIndices fst snd].
    cbn [as_params wp_amount wp_notePlaintext] in *.
    rewrite !read_text by (lia || apply be_val_range). cbn [mbind option_bind].
    rewrite (read_texts beBytesToBigInt) by (apply Forall_true; intros; apply be_val_range). cbn [mbind option_bind].
    rewrite (read_texts (λ b, b) bits Hbits : mapM StringToBigInt (bigint_string <$> bits) = _). cbn [mbind option_bind].
    rewrite list_fmap_id. reflexivity.
  - apply (owns_note_valid (as_params note mint) mp sk ob c nf); [exact Hfit|exact Hc|exact Hnf|]. split; [exact Hmint|]. split; [exact Hown|].
    by apply fold_bits_field.
  - cbn [sa_ixContext ic_commitmentHex ic_nullifierHex ic_merkleRootHex]. rewrite !hexToBytes_toHex.
    split; [reflexivity|]. split; [reflexivity|]. split; [reflexivity|]. split; [exact (proj1 (sf_root _ _ _ _ Hfit))|].
    pose proof (spend_public_chain (as_params note mint) mp nf sk ob Hfit Hnff) as Hpub.
    cbn [as_params wp_tokenMint wp_amount ip_root mp] in Hpub.
    intros verify_spend pf slot st <- Hver Hcons Hlock Hnull Hbal. rewrite Hpub in Hver.
    apply withdraw_runs; try assumption. split; [apply Hfit|exact Hbal].
Qed.

(** The answer itself never fails for a commitment and an owner of the field. *)
Lemma spend_answer_total sk ob mint a n r c root sibs bits :
  length c = 32%nat → length (toBytes mint) = 32%nat →
  ∃ ans, spend_answer sk ob (ownerCommitment sk ob) mint a n r c root sibs bits = Ok ans.
Proof.
  intros Hc Hm. unfold spend_answer, nullifier. rewrite Hc. cbn [negb Nat.eqb throw_if mbind res_bind].
  rewrite bn254ToBE32_in by apply poseidon_range. cbn [mbind res_bind].
  rewrite pubkeyToFrPair_spec, decide_True by done. cbn [mbind res_bind].
  unfold ownerCommitment. rewrite bn254ToBE32_in by apply poseidon_range. eexists. reflexivity.
Qed.
End spend.

(** A server whose addresses are hex text and whose node serves one account. *)
Module SampleServer.
Import Toy.
#[export] Instance web3 : Web3 := SampleText.hex_web3.
#[export] Instance base58 : Base58 := SampleText.hex_base58.
#[export] Instance base58_laws : @Base58Laws web3 base58 := SampleText.hex_base58_laws.
#[export] Instance nacl : Nacl := SamplePhantom.nacl.
#[export] Instance foreign_ix : ForeignIx := {|
  SystemProgram_transfer from to lamports := {| ix_programId := zero_key; ix_keys := []; ix_data := le_bytes 8 lamports |};
  setComputeUnitLimit units := {| ix_programId := zero_key; ix_keys := []; ix_data := le_bytes 4 units |};
  getAssociatedTokenAddress mint owner := Ok mint;
  createAssociatedTokenAccountIdempotent _ _ _ _ := {| ix_programId := zero_key; ix_keys := []; ix_data := [] |};
  createMintTo _ _ _ _ := {| ix_programId := zero_key; ix_keys := []; ix_data := [] |} |}.

Definition key (b : byte) : PublicKey := key_of (replicate 32 b).
Definition programs : DemoPrograms := {|
  vaultProgramId := zero_key; meProgramId := key x02; market := key x03; pythAccount := key x04; baseMint := key x05;
  quoteMint := key x06 |}.
Definition config : DemoE2eConfigJson := {|
  cfg_l1RpcUrl := "http://l1"; cfg_vaultProgramId := toBase58 zero_key; cfg_matchingEngineProgramId := toBase58 (key x02);
  cfg_pythAccount := toBase58 (key x04); cfg_market := toBase58 (key x03); cfg_baseMint := toBase58 (key x05);
  cfg_quoteMint := toBase58 (key x06) |}.

Lemma config_parses : parseDemoPrograms config = Ok programs.
Proof. unfold parseDemoPrograms, config. cbn [cfg_vaultProgramId cfg_matchingEngineProgramId cfg_market cfg_pythAccount
  cfg_baseMint cfg_quoteMint]. by rewrite !newPublicKey_toBase58. Qed.

(** The node answers with this account data and this history. *)
Definition l1 (data : bytes) (history : Connection ()) : L1Connection () := {|
  l1_getAccountInfo _ := mret (Some {| ai_data := data; ai_owner := zero_key |});
  l1_send _ _ := mret "sig"; l1_getSlot := mret 5; l1_getBalance _ := mret 0; l1_history := history |}.

Definition server (data : bytes) (history : Connection ()) : DemoServer () := {|
  ds_env _ := None; ds_now := mret 1; ds_config := mret config; ds_connection _ := l1 data history |}.

Definition cfg : VaultConfig :=
  @fresh_config toy_Poseidon (replicate 32 x01) (replicate 32 x02) (replicate 32 x03).

Definition signature : string := toHex (replicate 64 x11).
Definition owner : string := toHex (replicate 32 x12).
End SampleServer.
