(* ===== verification/WalletRoutes.v ===== *)
(** The handlers behind the wallet's private deposit and withdrawal
    ([apps/demo/src/app/api/dapp]): [deposit-prepare], [private-deposit],
    [withdraw-prepare] and [withdraw-finalize].  The wallet keeps the tracking
    data of a deposit and hands it back to withdraw; the theorem is that the
    round trip ends in a withdrawal the vault accepts. *)

From stdpp Require Import gmap.
From S2P Require Import Prelude Bytes Errors Externals Keys Note Borsh VaultClient VaultProgram Settlement.
From S2P Require Import SettleProgram Merkle MerkleShadow VaultTree Client Deposit VaultState Withdraw Session DecimalText.
From S2P Require Import LeafHistory Decimals DemoText DemoKeys DemoChain AccountTypes Routes.

Local Open Scope Z_scope.

(** ** Requests and answers *)

Record DepositBody := {
  db_phantomSignatureBase58 : option string; db_ownerPubkeyBase58 : option string; db_side : option string;
  db_amount : option string; db_nonce : option string }.

(** What both deposit handlers compute. *)
Record PreparedDeposit := {
  prd_tokenMint : PublicKey; prd_data : bytes; prd_leafCount : Z; prd_amount : Z; prd_nonce : Z; prd_blindingR : Z;
  prd_commitment : bytes; prd_ownerBytes : bytes; prd_depositor : PublicKey; prd_tokenAccount : PublicKey;
  prd_ix : TransactionInstruction }.

Record DepositTracking := {
  dt_leafIndex : string; dt_priorLeafCount : string; dt_priorRightPathHex : list string; dt_commitmentHex : string;
  dt_nonce : string; dt_blindingR : string; dt_amount : string; dt_side : option string; dt_tokenMintBase58 : string }.
Record PrivateDepositAnswer := { pda_instructions : list InstructionJson; pda_tracking : DepositTracking }.

Record DepositPreview := {
  dv_leafIndex : string; dv_noteCommitmentHex : string; dv_nonce : string; dv_blindingR : string;
  dv_ownerCommitmentHex : string; dv_ownerCommitForOrderHex : string }.
Record DepositPrepareAnswer := { dpa_instruction : InstructionJson; dpa_preview : DepositPreview }.

Record WithdrawPrepareBody := {
  wb_phantomSignatureBase58 : option string; wb_ownerPubkeyBase58 : option string; wb_tokenMintBase58 : option string;
  wb_amount : option string; wb_nonce : option string; wb_blindingR : option string; wb_leafIndex : option string;
  wb_priorRightPathHex : option (list string) }.

Record FinalizeProof := { fp_piA : option string; fp_piB : option string; fp_piC : option string }.
Record WithdrawFinalizeBody := {
  fb_phantomSignatureBase58 : option string; fb_ownerPubkeyBase58 : option string; fb_tokenMintBase58 : option string;
  fb_amount : option string; fb_commitmentHex : option string; fb_nullifierHex : option string;
  fb_merkleRootHex : option string; fb_proof : option FinalizeProof }.
Record WithdrawFinalizeAnswer := { fa_instruction : InstructionJson; fa_destAtaBase58 : string }.

Definition RIGHT_PATH_OFFSET : nat := 1808.

(** Every field a non-empty text. *)
Definition present (fields : list (option string)) : option (list string) := mapM truthy fields.

Section wallet.
Context `{NodeCrypto} `{Poseidon} `{Web3} `{Base58} `{Nacl} `{ForeignIx} {S : Type}.
Implicit Types server : DemoServer S.

(** ** [deposit-prepare] and [private-deposit] *)

(** The vault's account, which must exist. *)
Definition vault_data (l1 : L1Connection S) (vault : PublicKey) : M S bytes :=
  info ← l1.(l1_getAccountInfo) (vaultConfigPda vault).1;
  match info with Some info => mret info.(ai_data) | None => throw (Error "vault_config missing on L1") end.

Definition prepare_deposit server (req : res DepositBody) : M S (Answer PreparedDeposit) :=
  body ← liftR req;
  match present [body.(db_phantomSignatureBase58); body.(db_ownerPubkeyBase58); body.(db_side); body.(db_amount)] with
  | Some [phantomSignature; ownerPubkey; side; amountText] =>
      verified ← liftR (verifyPhantomSeedSignature phantomSignature ownerPubkey);
      let seed := verified.(vf_seed) in
      amount ← liftR (BigInt amountText);
      if amount <=? 0 then mret (bad_request "amount must be > 0") else
      nonce ← match body.(db_nonce) with Some text => liftR (BigInt text) | None => server.(ds_now) end;
      '(connections, programs) ← demo_setup server;
      let tokenMint := if decide (side = "base") then programs.(baseMint) else programs.(quoteMint) in
      spendingKey ← liftR (deriveSpendingKey seed);
      ownerBlinding ← liftR (deriveBlindingFactor seed 0);
      data ← vault_data connections.(dc_l1) programs.(vaultProgramId);
      leafCount ← liftR (readU64 data 104);
      blindingR ← liftR (deriveBlindingFactor seed leafCount);
      let owner := ownerCommitment spendingKey ownerBlinding in
      commitment ← liftR (noteCommitment {| tokenMint := toBytes tokenMint; amount := amount;
                            ownerCommitment_ := owner; nonce := nonce; Note.blindingR := blindingR |});
      ownerBytes ← liftR (bn254ToBE32 owner);
      nonceBytes ← liftR (bn254ToBE32 nonce);
      blindingBytes ← liftR (bn254ToBE32 blindingR);
      depositor ← liftR (newPublicKey (Some ownerPubkey));
      depositorTokenAccount ← liftR (getAssociatedTokenAddress tokenMint depositor);
      ix ← liftR (buildDepositInstruction
             {| de_programId := programs.(vaultProgramId); depositor := depositor; de_tokenMint := tokenMint;
                depositorTokenAccount := depositorTokenAccount; de_tokenProgramId := TOKEN_PROGRAM_ID;
                de_amount := amount; de_ownerCommitment := ownerBytes; de_nonce := nonceBytes;
                de_blindingR := blindingBytes |});
      mret (Sent {| prd_tokenMint := tokenMint; prd_data := data; prd_leafCount := leafCount; prd_amount := amount;
                    prd_nonce := nonce; prd_blindingR := blindingR; prd_commitment := commitment;
                    prd_ownerBytes := ownerBytes; prd_depositor := depositor;
                    prd_tokenAccount := depositorTokenAccount; prd_ix := ix |})
  | _ => mret (bad_request "missing phantomSignatureBase58, ownerPubkeyBase58, side, or amount")
  end.

Definition deposit_prepare server (req : res DepositBody) : M S (Answer DepositPrepareAnswer) :=
  route (and_then (prepare_deposit server req) (λ p,
    mret (Sent {| dpa_instruction := instructionToJson p.(prd_ix);
                  dpa_preview :=
                    {| dv_leafIndex := bigint_string p.(prd_leafCount);
                       dv_noteCommitmentHex := toHex p.(prd_commitment);
                       dv_nonce := bigint_string p.(prd_nonce); dv_blindingR := bigint_string p.(prd_blindingR);
                       dv_ownerCommitmentHex := toHex p.(prd_ownerBytes);
                       dv_ownerCommitForOrderHex := toHex p.(prd_ownerBytes) |} |}))).

(** The frontier of the tree before the deposit, out of the account bytes. *)
Definition right_path_hex (data : bytes) : list string :=
  (λ i, toHex (slice data (RIGHT_PATH_OFFSET + i * 32) 32)) <$> seq 0 VaultTree.MERKLE_DEPTH.

Definition private_deposit server (req : res DepositBody) : M S (Answer PrivateDepositAnswer) :=
  route (and_then (prepare_deposit server req) (λ p,
    body ← liftR req;
    let createAtaIx := createAssociatedTokenAccountIdempotent p.(prd_depositor) p.(prd_tokenAccount)
                         p.(prd_depositor) p.(prd_tokenMint) in
    mret (Sent {| pda_instructions := [instructionToJson createAtaIx; instructionToJson p.(prd_ix)];
                  pda_tracking :=
                    {| dt_leafIndex := bigint_string p.(prd_leafCount);
                       dt_priorLeafCount := bigint_string p.(prd_leafCount);
                       dt_priorRightPathHex := right_path_hex p.(prd_data);
                       dt_commitmentHex := toHex p.(prd_commitment);
                       dt_nonce := bigint_string p.(prd_nonce); dt_blindingR := bigint_string p.(prd_blindingR);
                       dt_amount := bigint_string p.(prd_amount); dt_side := body.(db_side);
                       dt_tokenMintBase58 := toBase58 p.(prd_tokenMint) |} |}))).

(** ** [withdraw-prepare]

    The zero subtree roots that [merkle-witness.ts] caches belong to the
    process: the handler acts on the cache and the world. *)

Definition on_cache {C A} (m : M C A) : M (C * S) A := λ w, let '(r, c) := m w.1 in (r, (c, w.2)).

Definition withdraw_fields (body : WithdrawPrepareBody) : option (list string) :=
  present [body.(wb_phantomSignatureBase58); body.(wb_ownerPubkeyBase58); body.(wb_tokenMintBase58);
           body.(wb_amount); body.(wb_nonce); body.(wb_blindingR)].

Definition withdraw_prepare server (req : res WithdrawPrepareBody)
    : M (option (list bytes) * S) (Answer SpendAnswer) :=
  route (
    body ← liftR req;
    match withdraw_fields body, body.(wb_leafIndex), body.(wb_priorRightPathHex) with
    | Some [phantomSignature; ownerPubkey; tokenMintText; amountText; nonceText; blindingText], Some leafIndexText,
      Some priorRightPathHex =>
        if negb (length priorRightPathHex =? VaultTree.MERKLE_DEPTH)%nat then
          mret (bad_request "missing or malformed withdraw-prepare fields")
        else
        verified ← liftR (verifyPhantomSeedSignature phantomSignature ownerPubkey);
        let seed := verified.(vf_seed) in
        '(connections, programs) ← outside (demo_setup server);
        tokenMint ← liftR (newPublicKey (Some tokenMintText));
        amount ← liftR (BigInt amountText);
        nonce ← liftR (BigInt nonceText);
        blindingR ← liftR (BigInt blindingText);
        leafIndex ← liftR (BigInt leafIndexText);
        spendingKey ← liftR (deriveSpendingKey seed);
        ownerBlinding ← liftR (deriveBlindingFactor seed 0);
        let owner := ownerCommitment spendingKey ownerBlinding in
        commitment ← liftR (noteCommitment {| tokenMint := toBytes tokenMint; amount := amount;
                              ownerCommitment_ := owner; nonce := nonce; Note.blindingR := blindingR |});
        data ← outside (vault_data connections.(dc_l1) programs.(vaultProgramId));
        liveLeafCount ← liftR (readU64 data 104);
        if negb (liveLeafCount =? leafIndex + 1) then
          mret (Refused 409 ("vault leaf_count moved since deposit (live=" +:+ bigint_string liveLeafCount
                  +:+ ", expected=" +:+ bigint_string (leafIndex + 1)
                  +:+ "). Demo withdraw needs your deposit to be the most-recent leaf.") None)
        else
        let priorRightPath := hexToBytes <$> priorRightPathHex in
        w ← on_cache (witnessFromPriorRightPath commitment leafIndex priorRightPath);
        if negb (bool_decide (slice data 112 32 = w.(lw_root))) then
          mret (Refused 409 "computed Merkle root does not match on-chain current_root — your deposit may not have landed yet, or another append slipped in." None)
        else
        ans ← liftR (spend_answer spendingKey ownerBlinding owner tokenMint amount nonce blindingR commitment
                       w.(lw_root) w.(lw_siblings) w.(lw_indices));
        mret (Sent ans)
    | _, _, _ => mret (bad_request "missing or malformed withdraw-prepare fields")
    end).

(** ** [withdraw-finalize] *)

Definition finalize_fields (body : WithdrawFinalizeBody) : option (list string) :=
  present [body.(fb_phantomSignatureBase58); body.(fb_ownerPubkeyBase58); body.(fb_tokenMintBase58);
           body.(fb_amount); body.(fb_commitmentHex); body.(fb_nullifierHex); body.(fb_merkleRootHex);
           p ← body.(fb_proof); p.(fp_piA); p ← body.(fb_proof); p.(fp_piB); p ← body.(fb_proof); p.(fp_piC)].

Definition withdraw_finalize server (req : res WithdrawFinalizeBody) : M S (Answer WithdrawFinalizeAnswer) :=
  route (
    body ← liftR req;
    match finalize_fields body with
    | Some [phantomSignature; ownerPubkey; tokenMintText; amountText; commitmentHex; nullifierHex; merkleRootHex;
            piAHex; piBHex; piCHex] =>
        _ ← liftR (verifyPhantomSeedSignature phantomSignature ownerPubkey);
        cfg ← server.(ds_config);
        programs ← liftR (parseDemoPrograms cfg);
        owner ← liftR (newPublicKey (Some ownerPubkey));
        tokenMint ← liftR (newPublicKey (Some tokenMintText));
        destAta ← liftR (getAssociatedTokenAddress tokenMint owner);
        amount ← liftR (BigInt amountText);
        ix ← liftR (buildWithdrawInstruction
               {| wi_programId := programs.(vaultProgramId); wi_payer := owner; wi_tokenMint := tokenMint;
                  destinationTokenAccount := destAta; wi_tokenProgramId := TOKEN_PROGRAM_ID;
                  wi_noteCommitment := hexToBytes commitmentHex; wi_nullifier := hexToBytes nullifierHex;
                  merkleRoot := hexToBytes merkleRootHex; wi_amount := amount;
                  wi_proof := {| piA := hexToBytes piAHex; piB := hexToBytes piBHex; piC := hexToBytes piCHex |} |});
        mret (Sent {| fa_instruction := instructionToJson ix; fa_destAtaBase58 := toBase58 destAta |})
    | _ => mret (bad_request "missing or malformed withdraw-finalize fields")
    end).
End wallet.

(** ** Lemmas *)

(** A slice inside one piece of a concatenation. *)
Lemma pieces_subslice {A} (ls : list (list A)) lens k p off i n :
  length <$> ls = lens → ls !! k = Some p → sum_list (take k lens) = off → (i + n <= length p)%nat →
  slice (concat ls) (off + i) n = slice p i n.
Proof.
  intros HL Hk Hoff Hi. assert (Hn : lens !! k = Some (length p)).
  { rewrite <-HL. by rewrite list_lookup_fmap, Hk. }
  pose proof (pieces_slice ls lens k p off (length p) HL Hk Hoff Hn) as Hp.
  transitivity (slice (slice (concat ls) off (length p)) i n); [|by rewrite Hp].
  unfold slice. rewrite skipn_firstn_comm, drop_drop, firstn_firstn. f_equal. lia.
Qed.

Lemma slice_concat_32 (ls : list bytes) i b :
  Forall is_32 ls → ls !! i = Some b → slice (concat ls) (i * 32) 32 = b.
Proof.
  intros Hl. revert i; induction Hl as [|x ls Hx Hl IH]; intros [|i] Hi; [done|done| |].
  - injection Hi as ->. cbn [concat]. by apply slice_app_l.
  - cbn [concat]. rewrite (slice_app_r x _ _ _ 32 Hx) by lia. rewrite <-(IH _ Hi). f_equal. lia.
Qed.

Lemma read_32s {A} (f : bytes → A) disc bump cfg k (ls : list bytes) off n :
  account_wf disc cfg → vault_account_pieces disc bump cfg !! k = Some (concat ls) →
  sum_list (take k vault_account_lens) = off → length ls = n → Forall is_32 ls →
  (λ i, f (slice (vault_account disc bump cfg) (off + i * 32) 32)) <$> seq 0 n = f <$> ls.
Proof.
  intros Hwf Hk Hoff <- Hl. apply list_eq. intros i. rewrite !list_lookup_fmap.
  destruct (ls !! i) as [b|] eqn:Hb.
  - pose proof (lookup_lt_Some _ _ _ Hb) as Hlt. rewrite lookup_seq_lt by done. cbn. f_equal. f_equal.
    unfold vault_account. rewrite (pieces_subslice _ _ _ _ _ _ _ (vault_account_lengths _ _ _ Hwf) Hk Hoff).
    + by apply slice_concat_32.
    + rewrite length_concat_32 by done. lia.
  - rewrite lookup_seq_ge by (apply lookup_ge_None; exact Hb). done.
Qed.

Lemma right_path_hex_account disc bump cfg :
  account_wf disc cfg → right_path_hex (vault_account disc bump cfg) = toHex <$> cfg.(right_path).
Proof.
  intros Hwf. destruct (aw_right _ _ Hwf) as [Hl Hr]. unfold right_path_hex.
  by apply (read_32s toHex disc bump cfg 8).
Qed.

Lemma hexToBytes_texts (l : list bytes) : hexToBytes <$> (toHex <$> l) = l.
Proof. induction l as [|b l IH]; [done|]. cbn [fmap list_fmap]. by rewrite hexToBytes_toHex, IH. Qed.

Section wallet_lemmas.
Context `{NodeCrypto} `{Poseidon} `{Web3} `{Base58} `{Nacl} `{ForeignIx} {S : Type}.
Implicit Types server : DemoServer S.

(** A server that is set up for these programs, and whose node serves this vault
    account. *)
Definition serves server (programs : DemoPrograms) (disc : bytes) (bump : byte) (cfg : VaultConfig) : Prop :=
  ∀ w, ∃ connections w1 w2, demo_setup server w = (Ok (connections, programs), w1) ∧
    vault_data connections.(dc_l1) programs.(vaultProgramId) w1 = (Ok (vault_account disc bump cfg), w2).

(** What a prepared deposit holds. *)
Record deposit_prepared (programs : DemoPrograms) (cfg : VaultConfig) (body : DepositBody) (d : PreparedDeposit)
    (signature owner : string) (verified : VerifiedSeed) (sk ob : Z) (p : BuildDepositParams) : Prop := {
  dpp_seed : truthy body.(db_phantomSignatureBase58) = Some signature ∧ truthy body.(db_ownerPubkeyBase58) = Some owner ∧
    verifyPhantomSeedSignature signature owner = Ok verified;
  dpp_amount : 0 < d.(prd_amount) ∧ ∃ text, truthy body.(db_amount) = Some text ∧ BigInt text = Ok d.(prd_amount);
  dpp_mint : d.(prd_tokenMint) = if decide (body.(db_side) = Some "base") then programs.(baseMint) else programs.(quoteMint);
  dpp_keys : deriveSpendingKey verified.(vf_seed) = Ok sk ∧ deriveBlindingFactor verified.(vf_seed) 0 = Ok ob;
  dpp_leaf : d.(prd_leafCount) = cfg.(leaf_count) ∧ deriveBlindingFactor verified.(vf_seed) cfg.(leaf_count) = Ok d.(prd_blindingR);
  dpp_note : noteCommitment {| tokenMint := toBytes d.(prd_tokenMint); amount := d.(prd_amount);
               ownerCommitment_ := ownerCommitment sk ob; nonce := d.(prd_nonce); Note.blindingR := d.(prd_blindingR) |}
             = Ok d.(prd_commitment);
  dpp_ix : buildDepositInstruction p = Ok d.(prd_ix) ∧ p.(de_programId) = programs.(vaultProgramId) ∧
    p.(de_amount) = d.(prd_amount) ∧ bn254ToBE32 (ownerCommitment sk ob) = Ok p.(de_ownerCommitment) ∧
    bn254ToBE32 d.(prd_nonce) = Ok p.(de_nonce) ∧ bn254ToBE32 d.(prd_blindingR) = Ok p.(de_blindingR) ∧
    p.(de_tokenProgramId) = TOKEN_PROGRAM_ID;
}.

Lemma present_4 a b c d sig own side text :
  present [a; b; c; d] = Some [sig; own; side; text] →
  truthy a = Some sig ∧ truthy b = Some own ∧ truthy c = Some side ∧ truthy d = Some text.
Proof.
  unfold present. cbn [mapM]. destruct (truthy a), (truthy b), (truthy c), (truthy d); cbn; try done.
  intros [= -> -> -> ->]. done.
Qed.

Lemma prepare_deposit_inv server programs disc bump cfg body w d w' :
  account_wf disc cfg → serves server programs disc bump cfg →
  prepare_deposit server (Ok body) w = (Ok (Sent d), w') →
  d.(prd_data) = vault_account disc bump cfg ∧
  ∃ signature owner verified sk ob p, deposit_prepared programs cfg body d signature owner verified sk ob p.
Proof.
  intros Hwf Hserve Hr. unfold prepare_deposit in Hr. apply M_bind_Ok in Hr as (b & w0 & Hb & Hr).
  apply liftR_inv in Hb as [[= <-] ->].
  destruct (present _) as [[|sig [|own [|side [|text [|? ?]]]]]|] eqn:Hp; try discriminate Hr.
  apply present_4 in Hp as (P1 & P2 & P3 & P4).
  apply M_bind_Ok in Hr as (verified & w1 & [Hver ->]%liftR_inv & Hr).
  apply M_bind_Ok in Hr as (amount & w1' & [Ham ->]%liftR_inv & Hr).
  destruct (Z.leb_spec amount 0) as [|Hpos]; [discriminate Hr|].
  apply M_bind_Ok in Hr as (nonce & w2 & _ & Hr).
  destruct (Hserve w2) as (connections & w3 & w4 & Hset & Hdata). rewrite (M_bind_run _ _ _ _ _ Hset) in Hr.
  apply M_bind_Ok in Hr as (sk & w5 & [Hsk ->]%liftR_inv & Hr).
  apply M_bind_Ok in Hr as (ob & w5' & [Hob ->]%liftR_inv & Hr).
  rewrite (M_bind_run _ _ _ _ _ Hdata) in Hr.
  apply M_bind_Ok in Hr as (count & w6 & [Hcount ->]%liftR_inv & Hr).
  rewrite (read_leaf_count disc bump cfg Hwf) in Hcount. apply Ok_inj in Hcount as <-.
  inv_steps. unfold mret, M_ret in Hr. injection Hr as <- <-. split; [reflexivity|].
  eexists sig, own, verified, sk, ob, _. split.
  - split_and!; assumption.
  - split; [exact Hpos|]. exists text. split; assumption.
  - cbn [prd_tokenMint]. assert (E : body.(db_side) = Some side).
    { revert P3. unfold truthy. destruct (db_side body) as [[|c s]|]; [done|by intros [= <-]|done]. }
    rewrite E. destruct (decide (side = "base")) as [->|Hne]; [by rewrite decide_True|].
    rewrite decide_False; [reflexivity|]. intros [= E']. exact (Hne E').
  - split; assumption.
  - split; [reflexivity|assumption].
  - eassumption.
  - split; [eassumption|]. cbn [de_programId de_amount de_ownerCommitment de_nonce de_blindingR de_tokenProgramId]. split_and!; first [reflexivity | assumption].
Qed.

(** The wallet's request to withdraw the note it deposited, and the run of
    [withdraw-prepare] on it. *)
Definition withdraw_body (body : DepositBody) (t : DepositTracking) : WithdrawPrepareBody :=
  {| wb_phantomSignatureBase58 := body.(db_phantomSignatureBase58);
     wb_ownerPubkeyBase58 := body.(db_ownerPubkeyBase58);
     wb_tokenMintBase58 := Some t.(dt_tokenMintBase58); wb_amount := Some t.(dt_amount);
     wb_nonce := Some t.(dt_nonce); wb_blindingR := Some t.(dt_blindingR); wb_leafIndex := Some t.(dt_leafIndex);
     wb_priorRightPathHex := Some t.(dt_priorRightPathHex) |}.

Context `{!NodeCryptoLaws} `{!PoseidonLaws} `{!Base58Laws}.

Lemma withdraw_prepare_runs server programs disc bump cfg cfg' l body d signature owner verified sk ob p t cached s :
  account_wf disc cfg' → vault_repr cfg l → (length l < 2 ^ VaultTree.MERKLE_DEPTH)%nat →
  serves server programs disc bump cfg' → cache_ok cached →
  deposit_prepared programs cfg body d signature owner verified sk ob p → d.(prd_amount) < U64 →
  vault_repr cfg' (l ++ [d.(prd_commitment)]) →
  t.(dt_tokenMintBase58) = toBase58 d.(prd_tokenMint) → t.(dt_amount) = bigint_string d.(prd_amount) →
  t.(dt_nonce) = bigint_string d.(prd_nonce) → t.(dt_blindingR) = bigint_string d.(prd_blindingR) →
  t.(dt_leafIndex) = bigint_string d.(prd_leafCount) → t.(dt_priorRightPathHex) = toHex <$> cfg.(right_path) →
  ∃ sa w', withdraw_prepare server (Ok (withdraw_body body t)) (cached, s) = (Ok (Sent sa), w') ∧
    spend_ok cfg' d.(prd_tokenMint)
      {| tokenMint := toBytes d.(prd_tokenMint); amount := d.(prd_amount); ownerCommitment_ := ownerCommitment sk ob;
         nonce := d.(prd_nonce); Note.blindingR := d.(prd_blindingR) |} sk d.(prd_commitment) sa.
Proof.
  intros Hwf' Hv Hlt Hserve Hcache [Hseed [Hpos _] _ [Hsk Hob] [Hleaf Hbl] Hnote [_ (_ & _ & _ & Hn & Hb & _)]] Hu Hv' T1 T2 T3 T4 T5 T6.
  apply bn254ToBE32_inv in Hn as [_ Hnr], Hb as [_ Hbr]. destruct Hseed as (S1 & S2 & Hver).
  destruct (deriveSpendingKey_total verified.(vf_seed)) as (sk' & Hsk' & Hskr). rewrite Hsk in Hsk'. apply Ok_inj in Hsk' as <-.
  destruct (deriveBlindingFactor_total verified.(vf_seed) 0) as (ob' & Hob' & Hobr). rewrite Hob in Hob'. apply Ok_inj in Hob' as <-.
  assert (Hl0 : 0 <= cfg.(leaf_count)) by (rewrite (repr_count _ _ (proj1 Hv)); lia).
  assert (Hfields : withdraw_fields (withdraw_body body t) = Some [signature; owner; toBase58 d.(prd_tokenMint);
    bigint_string d.(prd_amount); bigint_string d.(prd_nonce); bigint_string d.(prd_blindingR)]).
  { unfold withdraw_fields, withdraw_body, present. cbn [wb_phantomSignatureBase58 wb_ownerPubkeyBase58
      wb_tokenMintBase58 wb_amount wb_nonce wb_blindingR mapM]. rewrite S1, S2, T1, T2, T3, T4, !truthy_text by lia.
    pose proof (toBase58_nonempty d.(prd_tokenMint)) as Hne. destruct (toBase58 d.(prd_tokenMint)); [by destruct Hne|reflexivity]. }
  destruct (Hserve s) as (connections & w1 & w2 & Hset & Hdata).
  pose proof (repr_leaves _ _ (proj1 Hv')) as Hls. apply Forall_app in Hls as [Hls Hc]. apply Forall_inv in Hc.
  destruct (spend_answer_total sk ob d.(prd_tokenMint) d.(prd_amount) d.(prd_nonce) d.(prd_blindingR) d.(prd_commitment)
    (vault_root (l ++ [d.(prd_commitment)])) (vault_path (l ++ [d.(prd_commitment)]) (length l))
    (path_bits (length l) TREE_DEPTH) (proj1 Hc) (length_toBytes _)) as (sa & Hsa).
  exists sa, (Some zero_roots, w2). split.
  - apply route_Ok. rewrite M_bind_lift with (a := withdraw_body body t) by done. rewrite Hfields.
    cbn [withdraw_body wb_leafIndex wb_priorRightPathHex]. rewrite T5, T6, Hleaf.
    rewrite length_fmap, (repr_right_len _ _ (proj1 Hv)), Nat.eqb_refl. cbn [negb].
    rewrite (M_bind_lift _ _ _ _ Hver). erewrite M_bind_run by (apply outside_run; exact Hset). cbv beta iota zeta.
    rewrite (M_bind_lift _ _ _ _ (newPublicKey_toBase58 _)).
    rewrite (M_bind_lift _ _ _ _ (BigInt_text d.(prd_amount) ltac:(lia))).
    rewrite (M_bind_lift _ _ _ _ (BigInt_text d.(prd_nonce) ltac:(lia))).
    rewrite (M_bind_lift _ _ _ _ (BigInt_text d.(prd_blindingR) ltac:(lia))).
    rewrite (M_bind_lift _ _ _ _ (BigInt_text cfg.(leaf_count) Hl0)).
    rewrite (M_bind_lift _ _ _ _ Hsk), (M_bind_lift _ _ _ _ Hob), (M_bind_lift _ _ _ _ Hnote).
    erewrite M_bind_run by (apply outside_run; exact Hdata).
    rewrite (M_bind_lift _ _ _ _ (read_leaf_count disc bump cfg' Hwf')).
    rewrite (repr_count _ _ (proj1 Hv')), (repr_count _ _ (proj1 Hv)), length_app, Nat2Z.inj_add, Z.eqb_refl.
    cbn [negb length]. rewrite hexToBytes_texts, <-(repr_count _ _ (proj1 Hv)).
    erewrite M_bind_run by (unfold on_cache; cbn [fst snd];
      rewrite (witnessFromPriorRightPath_spec cfg l _ cached (proj1 Hv) Hcache (proj1 Hc) Hlt); reflexivity).
    rewrite (read_current_root disc bump cfg' Hwf'), (repr_root _ _ (proj1 Hv')). cbn [lw_root lw_siblings lw_indices].
    rewrite bool_decide_eq_true_2 by done. cbn [negb]. by rewrite (M_bind_lift _ _ _ _ Hsa).
  - eapply spend_answer_valid; [exact Hsa| |exact Hnote|reflexivity|reflexivity| |].
    + split; cbn [as_params wp_tokenMint wp_amount wp_notePlaintext amount nonce Note.blindingR ip_root ip_siblings ip_pathIndices].
      * apply length_toBytes.
      * lia.
      * reflexivity.
      * exact Hskr.
      * exact Hobr.
      * exact Hnr.
      * exact Hbr.
      * exact (vault_node_field _ _ _ (repr_leaves _ _ (proj1 Hv'))).
      * exact (vault_path_field _ _ (repr_leaves _ _ (proj1 Hv'))).
      * apply path_bits_01.
      * split; [apply length_path_from|apply length_path_bits].
    + apply vault_path_checks; [exact (repr_max _ _ (proj1 Hv'))|by apply list_lookup_middle].
    + apply (contains_root_spec _ _ _ (proj2 Hv')). left. symmetry. exact (repr_root _ _ (proj1 Hv')).
Qed.
End wallet_lemmas.

(** A deposit request with a valid signature, amount and nonce is answered. *)
Lemma private_deposit_runs `{NodeCrypto} `{!NodeCryptoLaws} `{Poseidon} `{!PoseidonLaws} `{Web3} `{Base58} `{Nacl}
    `{ForeignIx} {S} (server : DemoServer S) programs disc bump cfg signature owner verified side a n depositor ata w :
  let body := {| db_phantomSignatureBase58 := Some signature; db_ownerPubkeyBase58 := Some owner; db_side := Some side;
                 db_amount := Some (bigint_string a); db_nonce := Some (bigint_string n) |} in
  account_wf disc cfg → serves server programs disc bump cfg → present [Some signature; Some owner; Some side] ≠ None →
  verifyPhantomSeedSignature signature owner = Ok verified → 0 < a → 0 <= n < BN254_R →
  newPublicKey (Some owner) = Ok depositor → (∀ mint, getAssociatedTokenAddress mint depositor = Ok (ata mint)) →
  ∃ ans w', private_deposit server (Ok body) w = (Ok (Sent ans), w').
Proof.
  intros body Hwf Hserve Hpres Hver Ha Hn Hdep Hata.
  assert (Hp : present [db_phantomSignatureBase58 body; db_ownerPubkeyBase58 body; db_side body; db_amount body]
    = Some [signature; owner; side; bigint_string a]).
  { unfold present in *. cbn [body db_phantomSignatureBase58 db_ownerPubkeyBase58 db_side db_amount mapM] in *.
    rewrite truthy_text by lia. by destruct signature, owner, side. }
  destruct (Hserve w) as (connections & w1 & w2 & Hset & Hdata).
  set (mint := if decide (side = "base") then baseMint programs else quoteMint programs).
  destruct (deriveSpendingKey_total verified.(vf_seed)) as (sk & Hsk & _).
  destruct (deriveBlindingFactor_total verified.(vf_seed) 0) as (ob & Hob & _).
  destruct (deriveBlindingFactor_total verified.(vf_seed) cfg.(leaf_count)) as (r & Hr & Hrr).
  set (note := {| tokenMint := toBytes mint; amount := a; ownerCommitment_ := ownerCommitment sk ob; nonce := n;
                  Note.blindingR := r |}).
  pose proof (noteCommitment_spec note (length_toBytes mint)) as Hc.
  set (p := {| de_programId := programs.(vaultProgramId); depositor := depositor; de_tokenMint := mint;
    depositorTokenAccount := ata mint; de_tokenProgramId := TOKEN_PROGRAM_ID; de_amount := a;
    de_ownerCommitment := be_bytes 32 (ownerCommitment sk ob); de_nonce := be_bytes 32 n; de_blindingR := be_bytes 32 r |}).
  pose proof (build_vault_total (CDeposit p)) as Hb. cbn [call_sized build_vault] in Hb.
  destruct (buildDepositInstruction p) as [ix|] eqn:Hix; [|discriminate Hb; split_and!; apply length_be_bytes].
  assert (Hor : 0 ≤ ownerCommitment sk ob < BN254_R) by apply poseidon_range.
  assert (Hprep : ∃ d, prepare_deposit server (Ok body) w = (Ok (Sent d), w2)); cycle 1.
  { destruct Hprep as [d Hprep]. eexists _, w2. apply route_Ok. unfold and_then. by rewrite (M_bind_run _ _ _ _ _ Hprep). }
  eexists. unfold prepare_deposit. rewrite M_bind_lift with (a := body) by done. rewrite Hp.
  rewrite (M_bind_lift _ _ _ _ Hver), (M_bind_lift _ _ _ _ (BigInt_text a ltac:(lia))), (proj2 (Z.leb_gt a 0) Ha).
  cbn [body db_nonce]. rewrite (M_bind_lift _ _ _ _ (BigInt_text n ltac:(lia))).
  rewrite (M_bind_run _ _ _ _ _ Hset). cbv beta iota zeta. fold mint.
  rewrite (M_bind_lift _ _ _ _ Hsk), (M_bind_lift _ _ _ _ Hob), (M_bind_run _ _ _ _ _ Hdata).
  rewrite (M_bind_lift _ _ _ _ (read_leaf_count disc bump cfg Hwf)), (M_bind_lift _ _ _ _ Hr). fold note.
  rewrite (M_bind_lift _ _ _ _ Hc), (M_bind_lift _ _ _ _ (bn254ToBE32_in (ownerCommitment sk ob) Hor)),
    (M_bind_lift _ _ _ _ (bn254ToBE32_in n Hn)), (M_bind_lift _ _ _ _ (bn254ToBE32_in r Hrr)).
  rewrite (M_bind_lift _ _ _ _ Hdep), (M_bind_lift _ _ _ _ (Hata mint)). fold p. by rewrite (M_bind_lift _ _ _ _ Hix).
Qed.

(** The deposit's run, and the withdrawal of what it deposited. *)
Lemma private_deposit_spendable `{NodeCrypto} `{!NodeCryptoLaws} `{Poseidon} `{!PoseidonLaws} `{Web3} `{Base58}
    `{!Base58Laws} `{Nacl} `{ForeignIx} {S} (server : DemoServer S) programs disc bump cfg l body w ans w' :
  distinct_discriminators (fst <$> vault_table) → account_wf disc cfg → vault_repr cfg l →
  (length l < 2 ^ VaultTree.MERKLE_DEPTH)%nat → serves server programs disc bump cfg →
  private_deposit server (Ok body) w = (Ok (Sent ans), w') →
  ∃ ata ix mint note sk c o n b,
    ans.(pda_instructions) = [instructionToJson ata; instructionToJson ix] ∧
    ans.(pda_tracking).(dt_commitmentHex) = toHex c ∧ ans.(pda_tracking).(dt_amount) = bigint_string note.(amount) ∧
    ans.(pda_tracking).(dt_tokenMintBase58) = toBase58 mint ∧ noteCommitment note = Ok c ∧ 0 < note.(amount) ∧
    (∃ text, body.(db_amount) = Some text ∧ BigInt text = Ok note.(amount)) ∧
    mint = (if decide (body.(db_side) = Some "base") then programs.(baseMint) else programs.(quoteMint)) ∧
    accepted_as programs.(vaultProgramId) ix (VDeposit (note.(amount) mod U64) o n b) ∧
    (note.(amount) < U64 →
     accepted_as programs.(vaultProgramId) ix (VDeposit note.(amount) o n b) ∧
     ∃ ev cfg', deposit_handler cfg (toBytes mint) note.(amount) o n b = Ok (ev, cfg') ∧ vault_repr cfg' (l ++ [c]) ∧
       (∀ (server' : DemoServer S) cached s, serves server' programs disc bump cfg' → cache_ok cached →
        ∃ sa w2, withdraw_prepare server' (Ok (withdraw_body body ans.(pda_tracking))) (cached, s) = (Ok (Sent sa), w2) ∧
          spend_ok cfg' mint note sk c sa)).
Proof.
  intros Hd Hwf Hv Hlt Hserve Hrun. apply route_Sent in Hrun. unfold and_then in Hrun.
  apply M_bind_Ok in Hrun as ([d|? ? ?] & w1 & Hprep & Hrun); [|discriminate Hrun]. injection Hrun as <- <-.
  destruct (prepare_deposit_inv _ _ _ _ _ _ _ _ _ Hwf Hserve Hprep) as (Hdata & sig & own & ver & sk & ob & p & Hp).
  destruct (dpp_amount _ _ _ _ _ _ _ _ _ _ Hp) as (Hpos & amt & Htext & Hamt). pose proof (dpp_note _ _ _ _ _ _ _ _ _ _ Hp) as Hnote.
  destruct (dpp_ix _ _ _ _ _ _ _ _ _ _ Hp) as (Hix & Hpid & Hpa & Ho & Hn & Hb & Htok).
  apply bn254ToBE32_inv in Ho as [Ho Hor], Hn as [Hn Hnr], Hb as [Hb Hbr].
  eexists _, d.(prd_ix), d.(prd_tokenMint), {| tokenMint := _; amount := _; ownerCommitment_ := _; nonce := _; Note.blindingR := _ |}, sk,
    d.(prd_commitment), p.(de_ownerCommitment), p.(de_nonce), p.(de_blindingR).
  cbn [amount]. do 4 (split; [reflexivity|]). split; [exact Hnote|]. split; [exact Hpos|].
  split; [exists amt; apply truthy_Some in Htext as [? _]; by split|]. split; [exact (dpp_mint _ _ _ _ _ _ _ _ _ _ Hp)|].
  pose proof (build_vault_accepted Hd (CDeposit p) _ Hix Htok) as Hacc. cbn [call_program call_args] in Hacc. rewrite Hpid, Hpa in Hacc.
  split; [exact Hacc|]. intros Hu. split.
  - rewrite Z.mod_small in Hacc by lia. exact Hacc.
  - rewrite (commitment_matches {| tokenMint := _ |}) in Hnote by (done || apply length_toBytes).
    cbn [tokenMint amount ownerCommitment_ nonce Note.blindingR] in Hnote. rewrite <-Ho, <-Hn, <-Hb in Hnote.
    destruct (deposit_handler_appends cfg l _ _ _ _ _ _ Hv Hpos Hnote Hlt) as (ev & cfg' & Hh & Hv' & _).
    exists ev, cfg'. split; [exact Hh|]. split; [exact Hv'|]. intros server' cached s Hserve' Hcache.
    pose proof (deposit_types _ _ _ _ _ _ _ _ _ Hwf Hh) as Hwf'.
    apply (withdraw_prepare_runs server' programs disc bump cfg cfg' l body d sig own ver sk ob p _ cached s
      Hwf' Hv Hlt Hserve' Hcache Hp Hu Hv'); try reflexivity. cbn [pda_tracking dt_priorRightPathHex].
    by rewrite Hdata, right_path_hex_account.
Qed.

(** ** Properties *)



(** [withdraw_finalize] answers only with an instruction the vault reads as the
    withdrawal the request describes, in the configured program. *)
Theorem withdraw_finalize_accepted `{NodeCrypto} `{!NodeCryptoLaws} `{Web3} `{Base58} `{Nacl} `{ForeignIx} {S}
    (server : DemoServer S) body w ans w' :
  distinct_discriminators (fst <$> vault_table) → withdraw_finalize server (Ok body) w = (Ok (Sent ans), w') →
  ∃ sig own mint amountText c nf root a b d amount cfg programs ix w1,
    finalize_fields body = Some [sig; own; mint; amountText; c; nf; root; a; b; d] ∧
    BigInt amountText = Ok amount ∧ server.(ds_config) w = (Ok cfg, w1) ∧ parseDemoPrograms cfg = Ok programs ∧
    is_Ok (verifyPhantomSeedSignature sig own) = true ∧ ans.(fa_instruction) = instructionToJson ix ∧
    accepted_as programs.(vaultProgramId) ix
      (VWithdraw (hexToBytes c) (hexToBytes nf) (hexToBytes root) (amount mod U64)
         {| pi_a := hexToBytes a; pi_b := hexToBytes b; pi_c := hexToBytes d |}).
Proof.
  intros Hd Hrun. apply route_Sent in Hrun. rewrite (M_bind_lift _ body) in Hrun by reflexivity.
  destruct (finalize_fields body) as [[|sig [|own [|mint [|amountText [|c [|nf [|root [|a [|b [|d [|? ?]]]]]]]]]]]|] eqn:Hf;
    try discriminate Hrun.
  apply M_bind_Ok in Hrun as (v & w0 & [Hv ->]%liftR_inv & Hrun).
  apply M_bind_Ok in Hrun as (cfg & w1 & Hcfg & Hrun).
  apply M_bind_Ok in Hrun as (programs & w2 & [Hp ->]%liftR_inv & Hrun).
  apply M_bind_Ok in Hrun as (owner & w2 & [_ ->]%liftR_inv & Hrun).
  apply M_bind_Ok in Hrun as (mintKey & w2 & [_ ->]%liftR_inv & Hrun).
  apply M_bind_Ok in Hrun as (ata & w2 & [_ ->]%liftR_inv & Hrun).
  apply M_bind_Ok in Hrun as (amount & w2 & [Ha ->]%liftR_inv & Hrun).
  apply M_bind_Ok in Hrun as (ix & w2 & [Hix ->]%liftR_inv & Hrun). injection Hrun as <- <-.
  exists sig, own, mint, amountText, c, nf, root, a, b, d, amount, cfg, programs, ix, w1.
  split; [reflexivity|]. split; [exact Ha|]. split; [exact Hcfg|]. split; [exact Hp|]. split; [by rewrite Hv|].
  split; [reflexivity|]. exact (build_vault_accepted Hd (CWithdraw _) ix Hix eq_refl).
Qed.
