(* ===== verification/TradeSettle.v ===== *)
(** Settlement of a demo trade on L1
    ([apps/demo/src/lib/dapp/run-trade-l1-settle.ts]): from the [BatchResults]
    account to the two [lock_note] instructions and the signed
    [tee_forced_settle], and what the vault does with them. *)

From stdpp Require Import gmap.
From S2P Require Import Prelude Bytes Errors Externals Keys Note Borsh VaultClient VaultProgram.
From S2P Require Import Settlement SettleProgram BatchResults Merkle MerkleShadow VaultTree Client Deposit VaultState.
From S2P Require Import Withdraw LeafHistory DemoText DemoKeys DemoChain.

Local Open Scope Z_scope.

Record TradeL1SettleContext (S : Type) := {
  tc_l1 : L1Connection S;
  tc_vaultProgramId : PublicKey;
  tc_baseMint : PublicKey; tc_quoteMint : PublicKey;
  tc_batchPda : PublicKey;
  tc_tee : Keypair; tc_maker : Keypair;
  tc_userMasterSeed : bytes;
  tc_userQuoteNoteCommitment : bytes; tc_userOrderId : bytes; tc_userExpirySlot : Z;
  tc_makerNoteCommitment : bytes; tc_makerOrderId : bytes; tc_makerExpirySlot : Z;
}.
Arguments tc_l1 {S}.
Arguments tc_vaultProgramId {S}.
Arguments tc_baseMint {S}.
Arguments tc_quoteMint {S}.
Arguments tc_batchPda {S}.
Arguments tc_tee {S}.
Arguments tc_maker {S}.
Arguments tc_userMasterSeed {S}.
Arguments tc_userQuoteNoteCommitment {S}.
Arguments tc_userOrderId {S}.
Arguments tc_userExpirySlot {S}.
Arguments tc_makerNoteCommitment {S}.
Arguments tc_makerOrderId {S}.
Arguments tc_makerExpirySlot {S}.

Record BuyerBaseNote := {
  bn_matchId : string; bn_leafIndex : string; bn_amount : string; bn_nonce : string; bn_blindingR : string;
  bn_commitmentHex : string; bn_tokenMintBase58 : string; bn_vaultLeafCountAfter : string }.

Record TradeL1SettleResult := {
  tr_signatures : list (string * string);    (** label, signature; all on L1 *)
  tr_buyerBaseNote : BuyerBaseNote }.

(** [id.length === 16 && id.every((x) => x === 0)] *)
Definition isRelockNone (id : bytes) : bool := (length id =? 16)%nat && isZero32 id.

(** The match of this run: filled, between the two notes. *)
Definition is_run_match (userNote makerNote : bytes) (r : MatchResultRecord) : bool :=
  (r.(mr_status) =? 1) && bool_decide (r.(mr_noteBuyer) = userNote) && bool_decide (r.(mr_noteSeller) = makerNote).

Definition no_match_hint (v : BatchResultsView) : string :=
  if v.(br_lastCircuitBreakerTripped) then
    "Circuit breaker tripped (last clearing price " +:+ pretty v.(br_lastClearingPrice)
    +:+ " deviated > circuit_breaker_bps from oracle TWAP " +:+ pretty v.(br_lastPythTwap)
    +:+ "). Set NEXT_PUBLIC_DEMO_EXCHANGE_QUOTE_PER_BASE close to the mock-oracle TWAP (default 100) so the clearing price stays within the 5% band."
  else
    "last_match_count=" +:+ pretty v.(br_lastMatchCount) +:+ ", last_clearing_price="
    +:+ pretty v.(br_lastClearingPrice) +:+ ", twap=" +:+ pretty v.(br_lastPythTwap) +:+ ", write_cursor="
    +:+ pretty v.(br_writeCursor)
    +:+ ". run_batch may not have crossed any orders for this market — check that maker submit_order succeeded and prices crossed.".

Section settle_trade.
Context `{NodeCrypto} `{Poseidon} `{Web3} `{Base58} `{Nacl} `{ForeignIx}.

(** A trade output: the note of [owner] in [mint], with derived secrets. *)
Definition trade_note (mint : PublicKey) (amount : Z) (ownerCommitment : Z) (matchId role : Z) : res Note :=
  nonce ← be32ToBigInt (deriveNonce matchId role);
  blindingR ← be32ToBigInt (deriveBlinding matchId role);
  Ok {| tokenMint := toBytes mint; amount := amount; ownerCommitment_ := ownerCommitment; nonce := nonce;
        Note.blindingR := blindingR |}.

Definition zero_or (note : bytes) : bytes := if isZero32 note then ZERO_COMMITMENT else note.
Definition relock_or_none (id : bytes) : bytes := if isRelockNone id then RELOCK_ORDER_ID_NONE else id.

Definition trade_payload {S} (ctx : TradeL1SettleContext S) (mr : MatchResultRecord)
    (noteC noteD nullA nullB : bytes) : MatchResultPayload :=
  {| mp_matchId := matchIdToPayloadBytes mr.(mr_matchId);
     mp_noteA := mr.(mr_noteBuyer); mp_noteB := mr.(mr_noteSeller); mp_noteC := noteC; mp_noteD := noteD;
     mp_noteE := zero_or mr.(mr_noteE); mp_noteF := zero_or mr.(mr_noteF);
     mp_nullifierA := nullA; mp_nullifierB := nullB;
     mp_orderIdA := ctx.(tc_userOrderId); mp_orderIdB := ctx.(tc_makerOrderId);
     mp_baseAmount := mr.(mr_baseAmt); mp_quoteAmount := mr.(mr_quoteAmt);
     mp_buyerChangeAmt := mr.(mr_buyerChangeAmt); mp_sellerChangeAmt := mr.(mr_sellerChangeAmt);
     mp_buyerFeeAmt := mr.(mr_buyerFeeAmt); mp_sellerFeeAmt := mr.(mr_sellerFeeAmt);
     mp_noteFee := ZERO_COMMITMENT;
     mp_buyerRelockOrderId := relock_or_none mr.(mr_buyerRelockOrderId);
     mp_buyerRelockExpiry := mr.(mr_buyerRelockExpiry);
     mp_sellerRelockOrderId := relock_or_none mr.(mr_sellerRelockOrderId);
     mp_sellerRelockExpiry := mr.(mr_sellerRelockExpiry);
     mp_clearingPrice := mr.(mr_price); mp_batchSlot := mr.(mr_batchSlot) |}.

(** [MerkleShadow.create()] and one [append] per leaf. *)
Fixpoint append_leaves (leaves : list bytes) (t : MerkleShadow) : res MerkleShadow :=
  match leaves with
  | [] => Ok t
  | leaf :: leaves =>
      match MerkleShadow.append leaf t with
      | (Ok _, t) => append_leaves leaves t
      | (Throw e, _) => Throw e
      end
  end.
Definition shadow_from (leaves : list bytes) : res MerkleShadow := t ← create; append_leaves leaves t.

Section run.
Context {S : Type} (ctx : TradeL1SettleContext S).
Let l1 := ctx.(tc_l1).

(** [getAccountInfo(pda)], then [if (!info?.data) throw new Error(missing)]. *)
Definition account_data (pda : PublicKey) (missing : string) : M S bytes :=
  info ← l1.(l1_getAccountInfo) pda;
  match info with Some info => mret info.(ai_data) | None => throw (Error missing) end.

Definition lock_tx (mr : MatchResultRecord) : res (list TransactionInstruction) :=
  lockA ← buildLockNoteInstruction
    {| ln_programId := ctx.(tc_vaultProgramId); ln_teeAuthority := ctx.(tc_tee).(kp_publicKey);
       ln_noteCommitment := mr.(mr_noteBuyer); ln_orderId := ctx.(tc_userOrderId);
       ln_expirySlot := ctx.(tc_userExpirySlot); ln_amount := mr.(mr_buyerNoteValue) |};
  lockB ← buildLockNoteInstruction
    {| ln_programId := ctx.(tc_vaultProgramId); ln_teeAuthority := ctx.(tc_tee).(kp_publicKey);
       ln_noteCommitment := mr.(mr_noteSeller); ln_orderId := ctx.(tc_makerOrderId);
       ln_expirySlot := ctx.(tc_makerExpirySlot); ln_amount := mr.(mr_sellerNoteValue) |};
  Ok [setComputeUnitLimit 400000; lockA; lockB].

Definition settle_tx (payload : MatchResultPayload) (msg sigTee : bytes) : res (list TransactionInstruction) :=
  ed ← buildEd25519VerifyIx {| teePubkey := toBytes ctx.(tc_tee).(kp_publicKey); ed_signature := sigTee; ed_message := msg |};
  ix ← buildSettleIx {| bs_programId := ctx.(tc_vaultProgramId); bs_teeAuthority := ctx.(tc_tee).(kp_publicKey);
                        bs_payload := payload |};
  Ok [setComputeUnitLimit 1400000; ed; ix].

(** The replay after the settlement: whatever it finds or throws is only logged. *)
Definition post_settle_check (leafBeforeSettle leafAfter : Z) : M S () :=
  try_catch
    (leaves ← collectVaultLeavesOrdered l1.(l1_history) ctx.(tc_vaultProgramId) (Z.to_nat leafAfter) (Some 2000%nat);
     shadow ← liftR (shadow_from leaves);
     _ ← liftR (witness shadow leafBeforeSettle);
     mret ())
    (λ _, mret ()).

Definition runTradeL1Settle : M S TradeL1SettleResult :=
  brData ← account_data ctx.(tc_batchPda) "BatchResults account missing on L1";
  brView ← liftR (decodeBatchResults brData);
  mr ← match List.find (is_run_match ctx.(tc_userQuoteNoteCommitment) ctx.(tc_makerNoteCommitment)) brView.(br_results) with
       | Some mr => mret mr
       | None => throw (Error ("No FILLED MatchResult for this run. " +:+ no_match_hint brView))
       end;
  _ ← guard_throw (negb (mr.(mr_buyerFeeAmt) =? 0) || negb (mr.(mr_sellerFeeAmt) =? 0))
        (Error ("Demo L1 settle + BASE withdraw currently requires zero protocol fees on the match (buyer_fee="
                +:+ pretty mr.(mr_buyerFeeAmt) +:+ ", seller_fee=" +:+ pretty mr.(mr_sellerFeeAmt)
                +:+ "). The dapp's pre-flight should have auto-zeroed vault.fee_rate_bps before run_batch — try the trade flow again from step 4."));
  let vaultPda := (vaultConfigPda ctx.(tc_vaultProgramId)).1 in
  vcPre ← account_data vaultPda "vault_config missing";
  leafBeforeSettle ← liftR (readU64 vcPre 104);
  userSpending ← liftR (deriveSpendingKey ctx.(tc_userMasterSeed));
  let makerSeed := actorSeed "maker" ctx.(tc_maker).(kp_publicKey) in
  makerSpending ← liftR (deriveSpendingKey makerSeed);
  nullA ← liftR (nullifier userSpending mr.(mr_noteBuyer));
  nullB ← liftR (nullifier makerSpending mr.(mr_noteSeller));
  ucBuyer ← liftR (be32ToBigInt mr.(mr_userCommitmentBuyer));
  ucSeller ← liftR (be32ToBigInt mr.(mr_userCommitmentSeller));
  noteC ← liftR (trade_note ctx.(tc_baseMint) mr.(mr_baseAmt) ucBuyer mr.(mr_matchId) TRADE_ROLE_BUYER);
  noteCcommitment ← liftR (noteCommitment noteC);
  noteD ← liftR (trade_note ctx.(tc_quoteMint) mr.(mr_quoteAmt) ucSeller mr.(mr_matchId) TRADE_ROLE_SELLER);
  noteDcommitment ← liftR (noteCommitment noteD);
  let payload := trade_payload ctx mr noteCcommitment noteDcommitment nullA nullB in
  msg ← liftR (canonicalPayloadHash payload);
  let sigTee := nacl_sign msg ctx.(tc_tee).(kp_secretKey) in
  lockTx ← liftR (lock_tx mr);
  lockSig ← l1.(l1_send) lockTx [ctx.(tc_tee)];
  settleTx ← liftR (settle_tx payload msg sigTee);
  settleSig ← l1.(l1_send) settleTx [ctx.(tc_tee)];
  vcPost ← account_data vaultPda "vault_config missing after settle";
  leafAfter ← liftR (readU64 vcPost 104);
  _ ← post_settle_check leafBeforeSettle leafAfter;
  mret {| tr_signatures := [("lock_note ×2 (L1)", lockSig); ("Ed25519 + tee_forced_settle (L1)", settleSig)];
          tr_buyerBaseNote :=
            {| bn_matchId := pretty mr.(mr_matchId); bn_leafIndex := pretty leafBeforeSettle;
               bn_amount := pretty mr.(mr_baseAmt); bn_nonce := pretty noteC.(nonce);
               bn_blindingR := pretty noteC.(Note.blindingR); bn_commitmentHex := toHex noteCcommitment;
               bn_tokenMintBase58 := toBase58 ctx.(tc_baseMint); bn_vaultLeafCountAfter := pretty leafAfter |} |}.
End run.
End settle_trade.

(** ** When a settlement goes through *)

(** An output is absent or a canonical commitment. *)
Definition output_ok (leaf : bytes) : Prop := leaf = ZERO_COMMITMENT ∨ field_bytes leaf.

Definition relock_free (st : VaultState) (note order_id : bytes) : Prop :=
  order_id = NONE_ID ∨ (st.(vs_locks) !! note = None ∧ note ∉ st.(vs_funded)).

Record settle_ready (st : VaultState) (l : list bytes) (p : MatchResultPayload) : Prop := {
  sr_lock_a : ∃ lock, st.(vs_locks) !! p.(mp_noteA) = Some lock ∧ lock.(lk_order_id) = p.(mp_orderIdA) ∧
    conserves lock p.(mp_quoteAmount) p.(mp_buyerChangeAmt) p.(mp_buyerFeeAmt) ∧ lock.(lk_amount) < U64;
  sr_lock_b : ∃ lock, st.(vs_locks) !! p.(mp_noteB) = Some lock ∧ lock.(lk_order_id) = p.(mp_orderIdB) ∧
    conserves lock p.(mp_baseAmount) p.(mp_sellerChangeAmt) p.(mp_sellerFeeAmt) ∧ lock.(lk_amount) < U64;
  sr_amounts : Forall (λ x, 0 <= x) [p.(mp_quoteAmount); p.(mp_buyerChangeAmt); p.(mp_buyerFeeAmt);
    p.(mp_baseAmount); p.(mp_sellerChangeAmt); p.(mp_sellerFeeAmt)];
  sr_change : (p.(mp_noteE) ≠ ZERO_COMMITMENT ↔ 0 < p.(mp_buyerChangeAmt)) ∧
    (p.(mp_noteF) ≠ ZERO_COMMITMENT ↔ 0 < p.(mp_sellerChangeAmt));
  sr_relock : (p.(mp_buyerRelockOrderId) = NONE_ID ∨ p.(mp_noteE) ≠ ZERO_COMMITMENT) ∧
    (p.(mp_sellerRelockOrderId) = NONE_ID ∨ p.(mp_noteF) ≠ ZERO_COMMITMENT);
  sr_relock_free : relock_free st p.(mp_noteE) p.(mp_buyerRelockOrderId) ∧
    relock_free st p.(mp_noteF) p.(mp_sellerRelockOrderId) ∧
    (p.(mp_buyerRelockOrderId) = NONE_ID ∨ p.(mp_sellerRelockOrderId) = NONE_ID ∨ p.(mp_noteE) ≠ p.(mp_noteF));
  sr_fresh : p.(mp_noteA) ≠ p.(mp_noteB) ∧ st.(vs_consumed) !! p.(mp_noteA) = None ∧
    st.(vs_consumed) !! p.(mp_noteB) = None;
  sr_nullifiers : p.(mp_nullifierA) ≠ p.(mp_nullifierB) ∧ st.(vs_nullifiers) !! p.(mp_nullifierA) = None ∧
    st.(vs_nullifiers) !! p.(mp_nullifierB) = None;
  sr_outputs : field_bytes p.(mp_noteC) ∧ field_bytes p.(mp_noteD) ∧ output_ok p.(mp_noteE) ∧
    output_ok p.(mp_noteF);
  sr_fee : p.(mp_noteFee) = ZERO_COMMITMENT;
  sr_room : (length l + 4 <= 2 ^ VaultTree.MERKLE_DEPTH)%nat;
}.

Section ready.
Context `{NodeCrypto} `{Poseidon} `{!PoseidonLaws} `{Web3}.

Lemma append_optional_runs cfg l root leaf :
  vault_repr cfg l → output_ok leaf → (length l < 2 ^ VaultTree.MERKLE_DEPTH)%nat → root = vault_root l →
  ∃ r, append_optional cfg root leaf = Ok r ∧ vault_repr r.2 (l ++ output leaf) ∧ r.1.2 = vault_root (l ++ output leaf) ∧
    same_keys cfg r.2.
Proof.
  intros Hv [-> | Hf] Hroom ->.
  - eexists. unfold append_optional, output. rewrite bool_decide_eq_true_2, app_nil_r by done. by split_and!.
  - destruct (append_leaf_repr cfg l leaf Hv Hf Hroom) as (cfg' & Ha & Hv'). unfold append_optional, output.
    destruct (bool_decide _).
    + eexists. split; [reflexivity|]. rewrite app_nil_r. by split_and!.
    + destruct (append_leaf_inv _ _ _ _ _ Hv (proj1 Hf) Ha) as (_ & _ & _ & Hk & _).
      eexists. split; [eapply bind_Ok_eq; [exact Ha|reflexivity]|]. by split_and!.
Qed.

Lemma settle_checks_runs lock_a lock_b st l p :
  settle_ready st l p → lock_a.(lk_order_id) = p.(mp_orderIdA) → lock_b.(lk_order_id) = p.(mp_orderIdB) →
  conserves lock_a p.(mp_quoteAmount) p.(mp_buyerChangeAmt) p.(mp_buyerFeeAmt) → lock_a.(lk_amount) < U64 →
  conserves lock_b p.(mp_baseAmount) p.(mp_sellerChangeAmt) p.(mp_sellerFeeAmt) → lock_b.(lk_amount) < U64 →
  settle_checks lock_a lock_b p = Ok ().
Proof.
  intros Hr Oa Ob Ca Ua Cb Ub. pose proof (sr_amounts _ _ _ Hr) as Ham. decompose_Forall_hyps. unfold conserves in *.
  destruct (sr_change _ _ _ Hr) as [CE CF], (sr_relock _ _ _ Hr) as [RE RF].
  assert (Hadd : ∀ a b, a + b < U64 → checked_add a b = Ok (a + b)) by (intros; by apply checked_add_Ok).
  assert (Hch : ∀ note x, (note ≠ ZERO_COMMITMENT ↔ 0 < x) →
    negb (Bool.eqb (negb (bool_decide (note = ZERO_COMMITMENT))) (0 <? x)) = false).
  { intros note x Hi. destruct (bool_decide_reflect (note = ZERO_COMMITMENT)), (Z.ltb_spec 0 x); cbn; try done; exfalso;
      [by apply Hi|]. assert (0 < x) by by apply Hi. lia. }
  assert (Hre : ∀ id note, id = NONE_ID ∨ note ≠ ZERO_COMMITMENT →
    negb (bool_decide (id = NONE_ID)) && negb (negb (bool_decide (note = ZERO_COMMITMENT))) = false).
  { intros id note Hi. destruct (bool_decide_reflect (id = NONE_ID)), (bool_decide_reflect (note = ZERO_COMMITMENT)); cbn; tauto. }
  unfold settle_checks. rewrite Oa, Ob, (bool_decide_eq_true_2 _ (eq_refl p.(mp_orderIdA))), (bool_decide_eq_true_2 _ (eq_refl p.(mp_orderIdB))).
  cbn [negb throw_if mbind res_bind].
  rewrite !Hadd by lia. cbn [mbind res_bind]. rewrite !Hadd by lia. cbn [mbind res_bind].
  rewrite Ca, Cb, !Z.eqb_refl. cbn [negb throw_if mbind res_bind].
  by rewrite (Hch _ _ CE), (Hch _ _ CF), (Hre _ _ RE), (Hre _ _ RF).
Qed.

Lemma create_relock_runs funded locks payer note id ex amount :
  id = NONE_ID ∨ (locks !! note = None ∧ note ∉ funded) →
  ∃ locks', create_relock funded locks payer note id ex amount = Ok locks' ∧
    ∀ k, locks !! k = None → locks' !! k = None ∨ (id ≠ NONE_ID ∧ k = note).
Proof.
  intros Hf. unfold create_relock. destruct (bool_decide_reflect (id = NONE_ID)) as [->|Hid].
  - eexists. split; [reflexivity|]. auto.
  - destruct Hf as [Hx|[Hx Hn]]; [by destruct Hid|]. rewrite (bool_decide_eq_true_2 _ Hn). cbn [negb throw_if mbind res_bind]. rewrite Hx. eexists. split; [reflexivity|]. intros k Hk.
    destruct (decide (k = note)) as [->|?]; [by right|]. left. by rewrite lookup_insert_ne.
Qed.

(** A settlement the vault is ready for goes through. *)
Lemma settle_runs tee slot tx cur st l p :
  vault_repr st.(vs_config) l → settle_ready st l p → tee = st.(vs_config).(tee_pubkey) →
  verify_tee_signature tx cur tee (canonical_payload_hash p) = true →
  ∃ ev st', tee_forced_settle tee slot tx cur p st = Ok (ev, st').
Proof.
  intros Hv Hr -> Hsig.
  destruct (sr_lock_a _ _ _ Hr) as (lock_a & La & Oa & Ca & Ua), (sr_lock_b _ _ _ Hr) as (lock_b & Lb & Ob & Cb & Ub).
  destruct (sr_fresh _ _ _ Hr) as (Nab & Na & Nb), (sr_nullifiers _ _ _ Hr) as (Mab & Ma & Mb).
  destruct (sr_outputs _ _ _ Hr) as (Fc & Fd & Fe & Ff), (sr_relock_free _ _ _ Hr) as (FE & FF & FEF).
  pose proof (sr_room _ _ _ Hr) as Hroom. set (cap := (2 ^ VaultTree.MERKLE_DEPTH)%nat) in *.
  assert (Hout : ∀ b, (length (output b) <= 1)%nat) by (intros b; unfold output; destruct (bool_decide _); cbn; lia).
  set (lc := l ++ [p.(mp_noteC)]) in *. set (ld := lc ++ [p.(mp_noteD)]) in *.
  assert (Rc : (length l < cap)%nat) by lia.
  assert (Rd : (length lc < cap)%nat) by (unfold lc; rewrite length_app; cbn [length]; lia).
  assert (Re : (length ld < cap)%nat) by (unfold ld, lc; rewrite !length_app; cbn [length]; lia).
  assert (Rf : (length (ld ++ output p.(mp_noteE)) < cap)%nat).
  { unfold ld, lc. rewrite !length_app. pose proof (Hout p.(mp_noteE)). cbn [length]. lia. }
  destruct (append_leaf_repr _ _ _ Hv Fc Rc) as (cfg1 & A1 & Hv1).
  destruct (append_leaf_repr _ _ _ Hv1 Fd Rd) as (cfg2 & A2 & Hv2).
  destruct (append_optional_runs cfg2 ld (vault_root ld) p.(mp_noteE) Hv2 Fe Re eq_refl) as (e & A3 & Hv3 & Te & _).
  destruct (append_optional_runs e.2 _ e.1.2 p.(mp_noteF) Hv3 Ff Rf Te) as (f & A4 & _).
  destruct (create_relock_runs st.(vs_funded) st.(vs_locks) st.(vs_config).(tee_pubkey) p.(mp_noteE) p.(mp_buyerRelockOrderId)
    p.(mp_buyerRelockExpiry) p.(mp_buyerChangeAmt) FE) as (locks1 & R1 & Hl1).
  destruct (create_relock_runs st.(vs_funded) locks1 st.(vs_config).(tee_pubkey) p.(mp_noteF) p.(mp_sellerRelockOrderId)
    p.(mp_sellerRelockExpiry) p.(mp_sellerChangeAmt)) as (locks2 & R2 & _).
  { destruct FF as [?|[HF HFu]]; [by left|]. destruct (Hl1 _ HF) as [?|[Hn Heq]]; [by right|left].
    destruct FEF as [?|[?|Hne]]; [by destruct Hn|done|by destruct Hne]. }
  eexists _, _. unfold tee_forced_settle.
  eapply bind_Ok_eq; [by apply load_Ok|]. eapply bind_Ok_eq; [by apply load_Ok|].
  eapply bind_Ok_eq; [by apply init_Ok|].
  eapply bind_Ok_eq; [apply init_Ok; split; [by rewrite lookup_insert_ne|reflexivity]|].
  eapply bind_Ok_eq; [by apply init_Ok|].
  eapply bind_Ok_eq; [apply init_Ok; split; [by rewrite lookup_insert_ne|reflexivity]|].
  eapply (bind_Ok_eq _ tt); [by rewrite bool_decide_eq_true_2|].
  eapply (bind_Ok_eq _ tt); [by rewrite Hsig|].
  eapply bind_Ok_eq; [by eapply settle_checks_runs|].
  eapply bind_Ok_eq; [exact A1|]. eapply bind_Ok_eq; [exact A2|].
  eapply bind_Ok_eq; [exact A3|]. eapply bind_Ok_eq; [exact A4|].
  eapply (bind_Ok_eq _ tt).
  { rewrite (sr_fee _ _ _ Hr), (bool_decide_eq_true_2 (ZERO_COMMITMENT = ZERO_COMMITMENT)) by done. reflexivity. }
  eapply bind_Ok_eq.
  { rewrite (sr_fee _ _ _ Hr). unfold append_optional. rewrite (bool_decide_eq_true_2 (ZERO_COMMITMENT = ZERO_COMMITMENT)) by done.
    reflexivity. }
  eapply bind_Ok_eq; [exact R1|]. eapply bind_Ok_eq; [exact R2|]. reflexivity.
Qed.
End ready.

(** What a finished run did: the match it found, the two transactions it sent
    and the note it reports. *)
Record trade_ran `{NodeCrypto} `{Poseidon} `{Web3} `{Base58} `{Nacl} `{ForeignIx} {S} (ctx : TradeL1SettleContext S)
    (out : TradeL1SettleResult) (mr : MatchResultRecord) (p : MatchResultPayload) (noteC : Note) (leafBefore : Z)
    (sk : Z) (lockA lockB ed settle : TransactionInstruction) : Prop := {
  rn_match : is_run_match ctx.(tc_userQuoteNoteCommitment) ctx.(tc_makerNoteCommitment) mr = true ∧
    mr.(mr_buyerFeeAmt) = 0 ∧ mr.(mr_sellerFeeAmt) = 0;
  rn_batch : ∃ s s' info view, ctx.(tc_l1).(l1_getAccountInfo) ctx.(tc_batchPda) s = (Ok (Some info), s') ∧
    decodeBatchResults info.(ai_data) = Ok view ∧ In mr view.(br_results);
  rn_leaf : ∃ s s' info, ctx.(tc_l1).(l1_getAccountInfo) (vaultConfigPda ctx.(tc_vaultProgramId)).1 s = (Ok (Some info), s') ∧
    readU64 info.(ai_data) 104 = Ok leafBefore;
  rn_key : deriveSpendingKey ctx.(tc_userMasterSeed) = Ok sk ∧ nullifier sk mr.(mr_noteBuyer) = Ok p.(mp_nullifierA);
  rn_payload : ∃ noteD d makerSk nullB, p = trade_payload ctx mr p.(mp_noteC) d p.(mp_nullifierA) nullB ∧
    noteCommitment noteD = Ok d ∧ deriveSpendingKey (actorSeed "maker" ctx.(tc_maker).(kp_publicKey)) = Ok makerSk ∧
    nullifier makerSk mr.(mr_noteSeller) = Ok nullB;
  rn_note : noteC.(tokenMint) = toBytes ctx.(tc_baseMint) ∧ noteC.(amount) = mr.(mr_baseAmt) ∧
    be32ToBigInt mr.(mr_userCommitmentBuyer) = Ok noteC.(ownerCommitment_) ∧
    be32ToBigInt (deriveNonce mr.(mr_matchId) TRADE_ROLE_BUYER) = Ok noteC.(nonce) ∧
    be32ToBigInt (deriveBlinding mr.(mr_matchId) TRADE_ROLE_BUYER) = Ok noteC.(Note.blindingR) ∧
    noteCommitment noteC = Ok p.(mp_noteC);
  rn_lock_tx : lock_tx ctx mr = Ok [setComputeUnitLimit 400000; lockA; lockB] ∧ ∃ sig s s',
    ctx.(tc_l1).(l1_send) [setComputeUnitLimit 400000; lockA; lockB] [ctx.(tc_tee)] s = (Ok sig, s');
  rn_settle_tx : ∃ h sig sig' s s', canonicalPayloadHash p = Ok h ∧
    settle_tx ctx p h sig' = Ok [setComputeUnitLimit 1400000; ed; settle] ∧
    ctx.(tc_l1).(l1_send) [setComputeUnitLimit 1400000; ed; settle] [ctx.(tc_tee)] s = (Ok sig, s');
  rn_report : out.(tr_buyerBaseNote).(bn_leafIndex) = pretty leafBefore ∧
    out.(tr_buyerBaseNote).(bn_matchId) = pretty mr.(mr_matchId) ∧
    out.(tr_buyerBaseNote).(bn_amount) = pretty mr.(mr_baseAmt) ∧
    out.(tr_buyerBaseNote).(bn_nonce) = pretty noteC.(nonce) ∧
    out.(tr_buyerBaseNote).(bn_blindingR) = pretty noteC.(Note.blindingR) ∧
    out.(tr_buyerBaseNote).(bn_commitmentHex) = toHex p.(mp_noteC) ∧
    out.(tr_buyerBaseNote).(bn_tokenMintBase58) = toBase58 ctx.(tc_baseMint);
}.

Section ran.
Context `{NodeCrypto} `{Poseidon} `{Web3} `{Base58} `{Nacl} `{ForeignIx} {S : Type} (ctx : TradeL1SettleContext S).

Lemma account_data_inv pda missing s data s' :
  account_data ctx pda missing s = (Ok data, s') →
  ∃ info, ctx.(tc_l1).(l1_getAccountInfo) pda s = (Ok (Some info), s') ∧ info.(ai_data) = data.
Proof.
  unfold account_data. intros Hr. apply M_bind_Ok in Hr as (info & s1 & Hg & Hr). destruct info as [info|]; [|done].
  injection Hr as <- <-. by exists info.
Qed.

Lemma trade_note_inv mint a oc mid role n :
  trade_note mint a oc mid role = Ok n →
  n.(tokenMint) = toBytes mint ∧ n.(amount) = a ∧ n.(ownerCommitment_) = oc ∧
  be32ToBigInt (deriveNonce mid role) = Ok n.(nonce) ∧ be32ToBigInt (deriveBlinding mid role) = Ok n.(Note.blindingR).
Proof. unfold trade_note. intros Hn. inv_res. by subst n. Qed.

Lemma lock_tx_inv mr tx : lock_tx ctx mr = Ok tx → ∃ a b, tx = [setComputeUnitLimit 400000; a; b].
Proof. unfold lock_tx. intros Ht. inv_res. subst tx. eauto. Qed.

Lemma settle_tx_inv p h sig tx : settle_tx ctx p h sig = Ok tx → ∃ a b, tx = [setComputeUnitLimit 1400000; a; b].
Proof. unfold settle_tx. intros Ht. inv_res. subst tx. eauto. Qed.

Lemma runTradeL1Settle_inv w out w' :
  runTradeL1Settle ctx w = (Ok out, w') →
  ∃ mr p noteC leafBefore sk lockA lockB ed settle,
    trade_ran ctx out mr p noteC leafBefore sk lockA lockB ed settle.
Proof.
  unfold runTradeL1Settle. intros Hr. inv_steps.
  destruct (List.find _ _) as [mr|] eqn:Hfind; [|done]. apply find_some in Hfind as [Hin Hmr].
  injection Hm1 as <- <-. injection Hr as <- <-.
  apply account_data_inv in Hm as (ib & Hb1 & <-), Hm3 as (ic & Hc1 & <-).
  apply orb_false_iff in Hm2 as [Z1%negb_false_iff%Z.eqb_eq Z2%negb_false_iff%Z.eqb_eq].
  match goal with H : trade_note _ _ _ _ TRADE_ROLE_BUYER = Ok ?n |- _ =>
    apply trade_note_inv in H as (N1 & N2 & N3 & N4 & N5) end.
  match goal with H : lock_tx _ _ = Ok _ |- _ =>
    pose proof H as Hlock; apply lock_tx_inv in H as (la & lb & ->) end.
  match goal with H : settle_tx _ _ _ _ = Ok _ |- _ =>
    pose proof H as Hset; apply settle_tx_inv in H as (ed & sx & ->) end.
  match goal with H : canonicalPayloadHash ?p = Ok _ |- _ => exists mr, p end. do 7 eexists. split.
  - by split.
  - do 4 eexists. split; [exact Hb1|]. by split.
  - do 3 eexists. split; [exact Hc1|]. eassumption.
  - split; [eassumption|]. eassumption.
  - do 4 eexists. split; [reflexivity|]. split; [eassumption|]. split; [eassumption|]. eassumption.
  - split_and!; [eassumption|eassumption| |eassumption|eassumption|eassumption]. rewrite N3. eassumption.
  - split; [exact Hlock|]. do 3 eexists. eassumption.
  - do 5 eexists. split; [eassumption|]. split; [exact Hset|]. eassumption.
  - by split_and!.
Qed.
End ran.

(** The settlement of a finished run goes through on a vault that is ready. *)
Lemma ran_settles `{NodeCrypto} `{!NodeCryptoLaws} `{Poseidon} `{!PoseidonLaws} `{Web3} `{Base58} `{Nacl} `{ForeignIx}
    {S} (ctx : TradeL1SettleContext S) out mr p noteC leafBefore sk lockA lockB ed settle st l slot :
  let tee := toBytes ctx.(tc_tee).(kp_publicKey) in
  trade_ran ctx out mr p noteC leafBefore sk lockA lockB ed settle →
  vault_repr st.(vs_config) l → settle_ready st l (payload_u64 p) → st.(vs_config).(tee_pubkey) = tee →
  ∃ ev st', tee_forced_settle tee slot [setComputeUnitLimit 1400000; ed; settle] 2 (payload_u64 p) st = Ok (ev, st').
Proof.
  intros tee Hr Hv Hready Htee. destruct (rn_settle_tx _ _ _ _ _ _ _ _ _ _ _ Hr) as (h & sig & sig' & s & s' & Hh & Hset & _).
  unfold settle_tx in Hset. apply res_bind_Ok in Hset as (a & Hed & Hset).
  apply res_bind_Ok in Hset as (b & Hse & Hset). injection Hset as -> ->.
  assert (Hsig : verify_tee_signature [setComputeUnitLimit 1400000; ed; settle] 2 tee (canonical_payload_hash (payload_u64 p)) = true).
  { unfold canonical_payload_hash. rewrite canonical_slices_u64.
    exact (signed_tx_verified p tee _ h ed [setComputeUnitLimit 1400000; ed; settle] 1 2 Hh Hed eq_refl ltac:(lia)). }
  exact (settle_runs tee slot _ 2 st l (payload_u64 p) Hv Hready (eq_sym Htee) Hsig).
Qed.

Lemma noteCommitment_field `{Poseidon} `{!PoseidonLaws} n c : noteCommitment n = Ok c → field_bytes c.
Proof.
  intros Hc. destruct (noteCommitment_Ok_length _ _ Hc) as [Hl _]. rewrite (noteCommitment_spec _ Hl) in Hc.
  apply Ok_inj in Hc as <-. apply poseidon_bytes_field.
Qed.

(** [C10] A finished run has settled its match.  It found a filled, fee-free
    match between the two notes in the batch account, and sent two
    transactions: the first holds instructions the vault reads as [lock_note] of
    the buyer's and the seller's note under their orders, for the values the
    match records; the second holds the TEE's signature and an instruction the
    vault reads as [tee_forced_settle] of the match.  On every vault state that
    is ready for that settlement the handler accepts it, and when its leaf count
    is the one the run read, the new leaf there is the commitment of the note
    the run reports: base mint, traded amount, the buyer's owner commitment and
    the secrets derived from the match id. *)
Theorem trade_settle_lands `{NodeCrypto} `{!NodeCryptoLaws} `{Poseidon} `{!PoseidonLaws} `{Web3} `{Base58} `{Nacl} `{ForeignIx}
    {S} (ctx : TradeL1SettleContext S) w out w' :
  distinct_discriminators (fst <$> vault_table) → runTradeL1Settle ctx w = (Ok out, w') →
  let vault := ctx.(tc_vaultProgramId) in let tee := toBytes ctx.(tc_tee).(kp_publicKey) in
  ∃ mr p noteC leafBefore sk lockA lockB ed settle,
    trade_ran ctx out mr p noteC leafBefore sk lockA lockB ed settle ∧
    accepted_as vault lockA (VLockNote mr.(mr_noteBuyer) ctx.(tc_userOrderId) (ctx.(tc_userExpirySlot) mod U64)
      (mr.(mr_buyerNoteValue) mod U64)) ∧
    accepted_as vault lockB (VLockNote mr.(mr_noteSeller) ctx.(tc_makerOrderId) (ctx.(tc_makerExpirySlot) mod U64)
      (mr.(mr_sellerNoteValue) mod U64)) ∧
    accepted_as vault settle (payload_u64 p) ∧
    ∀ st l slot, vault_repr st.(vs_config) l → settle_ready st l (payload_u64 p) →
      st.(vs_config).(tee_pubkey) = tee →
      ∃ ev st', tee_forced_settle tee slot [setComputeUnitLimit 1400000; ed; settle] 2 (payload_u64 p) st = Ok (ev, st') ∧
        vault_repr st'.(vs_config) (l ++ settle_outputs p) ∧
        (leafBefore = st.(vs_config).(leaf_count) →
         noteCommitment noteC = Ok p.(mp_noteC) ∧ (l ++ settle_outputs p) !! Z.to_nat leafBefore = Some p.(mp_noteC)).
Proof.
  intros Hd Hrun vault tee. destruct (runTradeL1Settle_inv _ _ _ _ Hrun) as (mr & p & noteC & leafBefore & sk & lockA & lockB & ed & settle & Hr).
  exists mr, p, noteC, leafBefore, sk, lockA, lockB, ed, settle. split; [exact Hr|].
  destruct (rn_lock_tx _ _ _ _ _ _ _ _ _ _ _ Hr) as [Hlock _].
  destruct (rn_settle_tx _ _ _ _ _ _ _ _ _ _ _ Hr) as (h & sig & sig' & s & s' & Hh & Hset & _).
  unfold lock_tx in Hlock. apply res_bind_Ok in Hlock as (a & Ha & Hlock). apply res_bind_Ok in Hlock as (b & Hb & Hlock).
  injection Hlock as -> ->. unfold settle_tx in Hset. apply res_bind_Ok in Hset as (a & Hed & Hset).
  apply res_bind_Ok in Hset as (b & Hse & Hset). injection Hset as -> ->.
  split; [exact (build_vault_accepted Hd (CLockNote _) lockA Ha I)|].
  split; [exact (build_vault_accepted Hd (CLockNote _) lockB Hb I)|].
  destruct (buildSettleIx_accepted _ _ Hse) as (Hsz & Hacc & _). split; [exact Hacc|].
  intros st l slot Hv Hready Htee. destruct (ran_settles ctx out mr p noteC leafBefore sk lockA lockB ed settle st l slot Hr Hv Hready Htee)
    as (ev & st' & Hs).
  exists ev, st'. split; [exact Hs|].
  destruct (settle_inv _ _ _ _ _ _ _ _ _ (Hsz : payload_sized (payload_u64 p)) Hv Hs) as (Hdone & _).
  destruct (sd_tree _ _ _ _ _ _ _ Hdone) as (Hv' & _). split; [exact Hv'|]. intros ->.
  split; [apply (rn_note _ _ _ _ _ _ _ _ _ _ _ Hr)|].
  rewrite (repr_count _ _ (proj1 Hv)), Nat2Z.id. by apply list_lookup_middle.
Qed.

(** A match of 100 base for 5000 quote, with 200 base left to the seller. *)
Module SampleTrade.
Import Toy.
Definition word (b : byte) : bytes := replicate 31 x00 ++ [b].

(** With the owner commitment the buyer's order carried. *)
Definition match_for (uc : bytes) : MatchResultRecord := {|
  mr_noteBuyer := word x02; mr_noteSeller := word x03; mr_noteE := word x00; mr_noteF := word x04;
  mr_ownerBuyer := word x05; mr_ownerSeller := word x06; mr_userCommitmentBuyer := uc;
  mr_userCommitmentSeller := word x08; mr_buyerNoteValue := 5000; mr_sellerNoteValue := 300; mr_baseAmt := 100;
  mr_quoteAmt := 5000; mr_buyerChangeAmt := 0; mr_sellerChangeAmt := 200; mr_buyerFeeAmt := 0; mr_sellerFeeAmt := 0;
  mr_buyerRelockOrderId := replicate 16 x00; mr_buyerRelockExpiry := 0; mr_sellerRelockOrderId := replicate 16 x00;
  mr_sellerRelockExpiry := 0; mr_price := 50; mr_pythAtMatch := 50; mr_batchSlot := 9; mr_matchId := 12; mr_status := 1 |}.

Definition no_match : MatchResultRecord := {|
  mr_noteBuyer := word x00; mr_noteSeller := word x00; mr_noteE := word x00; mr_noteF := word x00;
  mr_ownerBuyer := word x00; mr_ownerSeller := word x00; mr_userCommitmentBuyer := word x00;
  mr_userCommitmentSeller := word x00; mr_buyerNoteValue := 0; mr_sellerNoteValue := 0; mr_baseAmt := 0;
  mr_quoteAmt := 0; mr_buyerChangeAmt := 0; mr_sellerChangeAmt := 0; mr_buyerFeeAmt := 0; mr_sellerFeeAmt := 0;
  mr_buyerRelockOrderId := replicate 16 x00; mr_buyerRelockExpiry := 0; mr_sellerRelockOrderId := replicate 16 x00;
  mr_sellerRelockExpiry := 0; mr_price := 0; mr_pythAtMatch := 0; mr_batchSlot := 0; mr_matchId := 0; mr_status := 0 |}.

Definition sample_fee : FeeAccumulatorRecord :=
  {| fa_tokenMint := word x00; fa_accumulatedFees := 0; fa_batchSlot := 0; fa_flushedCommitment := word x00 |}.

Definition batch_for (uc : bytes) : BatchResultsView := {|
  br_market := word x01; br_lastInclusionRoot := word x00; br_lastBatchSlot := 9; br_lastMatchCount := 1;
  br_lastClearingPrice := 50; br_lastPythTwap := 50; br_lastCircuitBreakerTripped := false; br_writeCursor := 1;
  br_nextMatchId := 13; br_results := no_match :: match_for uc :: replicate 14 no_match;
  br_feeAccumulators := [sample_fee; sample_fee]; br_bump := 1 |}.

Definition batch_pda : PublicKey := key_of (word x55).

#[export] Instance foreign_ix : ForeignIx := {|
  SystemProgram_transfer from to lamports := {| ix_programId := zero_key; ix_keys := []; ix_data := le_bytes 8 lamports |};
  setComputeUnitLimit units := {| ix_programId := key_of (word x77); ix_keys := []; ix_data := le_bytes 4 units |};
  getAssociatedTokenAddress mint owner := Ok mint;
  createAssociatedTokenAccountIdempotent _ _ _ _ := {| ix_programId := zero_key; ix_keys := []; ix_data := [] |};
  createMintTo _ _ _ _ := {| ix_programId := zero_key; ix_keys := []; ix_data := [] |} |}.
#[export] Instance nacl : Nacl := SamplePhantom.nacl.
#[export] Instance base58 : Base58 := SamplePhantom.base58.

Definition l1_for (uc : bytes) : L1Connection () := {|
  l1_getAccountInfo pda := mret (Some
    {| ai_data := if bool_decide (pda = batch_pda) then batch_results_bytes (replicate 8 x09) (batch_for uc)
                  else vault_account (replicate 8 x07) x01 SampleChain.cfg;
       ai_owner := zero_key |});
  l1_send _ _ := mret "sig"; l1_getSlot := mret 5; l1_getBalance _ := mret 0; l1_history := SampleLedger.node |}.

Definition keypair (b : byte) : Keypair := {| kp_publicKey := key_of (word b); kp_secretKey := word b |}.

Definition ctx_for (uc : bytes) (base : PublicKey) : TradeL1SettleContext () := {|
  tc_l1 := l1_for uc; tc_vaultProgramId := zero_key; tc_baseMint := base; tc_quoteMint := key_of (word x32);
  tc_batchPda := batch_pda; tc_tee := keypair x21; tc_maker := keypair x22; tc_userMasterSeed := replicate 64 x01;
  tc_userQuoteNoteCommitment := word x02; tc_userOrderId := replicate 16 x41; tc_userExpirySlot := 500;
  tc_makerNoteCommitment := word x03; tc_makerOrderId := replicate 16 x42; tc_makerExpirySlot := 500 |}.

Definition ctx : TradeL1SettleContext () := ctx_for (word x07) (key_of (word x31)).

Lemma sample_batch_decodes : decodeBatchResults (batch_results_bytes (replicate 8 x09) (batch_for (word x07))) = Ok (batch_for (word x07)).
Proof. vm_compute. reflexivity. Qed.

Lemma sample_run_Ok : ∃ out, runTradeL1Settle ctx tt = (Ok out, tt).
Proof. eexists. vm_compute. reflexivity. Qed.

Lemma account_served uc pda s info s' :
  (l1_for uc).(l1_getAccountInfo) pda s = (Ok (Some info), s') →
  info.(ai_data) = if bool_decide (pda = batch_pda) then batch_results_bytes (replicate 8 x09) (batch_for uc)
                   else vault_account (replicate 8 x07) x01 SampleChain.cfg.
Proof. by intros [= <- <-]. Qed.

Lemma batch_match uc mr :
  In mr (batch_for uc).(br_results) → is_run_match (word x02) (word x03) mr = true → mr = match_for uc.
Proof.
  intros Hin Hm. cbn [batch_for br_results replicate] in Hin.
  repeat (destruct Hin as [<-|Hin]; [try reflexivity; discriminate Hm|]). destruct Hin.
Qed.
End SampleTrade.

(** A vault that has locked the two notes of the sample. *)
Definition trade_locks : gmap bytes NoteLock :=
  <[SampleTrade.word x02 := {| lk_order_id := replicate 16 x41; lk_expiry_slot := 500; lk_locked_by := SampleTrade.word x21; lk_amount := 5000 |}]>
  (<[SampleTrade.word x03 := {| lk_order_id := replicate 16 x42; lk_expiry_slot := 500; lk_locked_by := SampleTrade.word x21; lk_amount := 300 |}]> ∅).

Definition trade_state (cfg : VaultConfig) : VaultState :=
  {| vs_config := cfg; vs_locks := trade_locks; vs_consumed := ∅; vs_nullifiers := ∅; vs_wallets := ∅; vs_tokens := ∅; vs_funded := ∅ |}.

Lemma trade_state_ready cfg uc base noteC noteD nullA nullB :
  nullA ≠ nullB → field_bytes noteC → field_bytes noteD →
  settle_ready (trade_state cfg) [] (payload_u64 (trade_payload (SampleTrade.ctx_for uc base) (SampleTrade.match_for uc) noteC noteD nullA nullB)).
Proof.
  intros Hn HC HD. split.
  - eexists. split; [vm_compute; reflexivity|]. by split_and!.
  - eexists. split; [vm_compute; reflexivity|]. by split_and!.
  - repeat (apply Forall_cons_2; [vm_compute; discriminate|]). apply Forall_nil_2.
  - split; split; vm_compute; try done; intros _; congruence.
  - split; by left.
  - split; [by left|]. split; [by left|by left].
  - split; [vm_compute; congruence|]. split; reflexivity.
  - split; [exact Hn|]. split; reflexivity.
  - split; [exact HC|]. split; [exact HD|]. split; [by left|right]. split; [reflexivity|vm_compute; reflexivity].
  - reflexivity.
  - change (4 <= 2 ^ VaultTree.MERKLE_DEPTH)%nat. change 4%nat with (2 ^ 2)%nat.
    apply Nat.pow_le_mono_r; [done|unfold VaultTree.MERKLE_DEPTH; lia].
Qed.

(** The match a run finds in the sample, and its settlement. *)
Lemma sample_ran_match (w3 : Web3) (b58 : Base58) (nc : Nacl) (fx : ForeignIx) uc base out mr p noteC leaf sk a b c d :
  decodeBatchResults (batch_results_bytes (replicate 8 x09) (SampleTrade.batch_for uc)) = Ok (SampleTrade.batch_for uc) →
  @trade_ran Toy.toy_crypto Toy.toy_Poseidon w3 b58 nc fx () (SampleTrade.ctx_for uc base) out mr p noteC leaf sk a b c d →
  mr = SampleTrade.match_for uc.
Proof.
  intros Hdec Hr. destruct (rn_match _ _ _ _ _ _ _ _ _ _ _ Hr) as [Hm _].
  destruct (rn_batch _ _ _ _ _ _ _ _ _ _ _ Hr) as (s & s' & info & view & Hi & Hd & Hin).
  assert (Hdat : info.(ai_data) = batch_results_bytes (replicate 8 x09) (SampleTrade.batch_for uc)).
  { injection Hi as <- _. reflexivity. }
  rewrite Hdat, Hdec in Hd. apply Ok_inj in Hd as <-. exact (SampleTrade.batch_match _ _ Hin Hm).
Qed.

Lemma sample_ran_ready (w3 : Web3) (b58 : Base58) (nc : Nacl) (fx : ForeignIx) cfg uc base out p noteC leaf sk a b c d :
  @trade_ran Toy.toy_crypto Toy.toy_Poseidon w3 b58 nc fx () (SampleTrade.ctx_for uc base) out (SampleTrade.match_for uc)
    p noteC leaf sk a b c d →
  @settle_ready (trade_state cfg) [] (payload_u64 p).
Proof.
  intros Hr. destruct (rn_payload _ _ _ _ _ _ _ _ _ _ _ Hr) as (noteD & dd & mk & nB & Hp & HD & Hmk & HnB).
  destruct (rn_key _ _ _ _ _ _ _ _ _ _ _ Hr) as [Hsk HnA].
  destruct (rn_note _ _ _ _ _ _ _ _ _ _ _ Hr) as (_ & _ & _ & _ & _ & HC).
  rewrite Hp. apply trade_state_ready; [|by eapply (@noteCommitment_field Toy.toy_Poseidon Toy.toy_poseidon_laws)..].
  clear -Hsk Hmk HnA HnB. revert HnA HnB. generalize (mp_nullifierA p). intros nA HnA HnB ->.
  vm_compute in Hsk. injection Hsk as <-. vm_compute in Hmk. injection Hmk as <-.
  vm_compute in HnA. vm_compute in HnB. congruence.
Qed.

Lemma trade_settle_lands_witness : ∃ out p st ev st' ed settle,
  @runTradeL1Settle Toy.toy_crypto Toy.toy_Poseidon Toy.toy_web3 SampleTrade.base58 SampleTrade.nacl
    SampleTrade.foreign_ix () SampleTrade.ctx tt = (Ok out, tt) ∧
  @tee_forced_settle Toy.toy_crypto Toy.toy_Poseidon Toy.toy_web3 (SampleTrade.word x21) 9
    [@setComputeUnitLimit SampleTrade.foreign_ix 1400000; ed; settle] 2 p st = Ok (ev, st').
Proof.
  destruct SampleTrade.sample_run_Ok as (out & Hrun).
  destruct (@trade_settle_lands Toy.toy_crypto Toy.toy_crypto_laws Toy.toy_Poseidon Toy.toy_poseidon_laws Toy.toy_web3
    SampleTrade.base58 SampleTrade.nacl SampleTrade.foreign_ix () SampleTrade.ctx tt out tt
    ltac:(unfold distinct_discriminators; apply (bool_decide_unpack _); vm_compute; exact I) Hrun)
    as (mr & p & noteC & leaf & sk & lockA & lockB & ed & settle & Hr & _ & _ & _ & Hall).
  pose proof (sample_ran_match _ _ _ _ _ _ _ _ _ _ _ _ _ _ _ _ SampleTrade.sample_batch_decodes Hr) as Hmr. subst mr.
  destruct (@initialize_repr Toy.toy_Poseidon Toy.toy_poseidon_laws [] (SampleTrade.word x21) []) as (cfg & _ & Hv & Htee).
  destruct (Hall (trade_state cfg) [] 9 Hv) as (ev & st' & Hs & _).
  - exact (sample_ran_ready _ _ _ _ _ _ _ _ _ _ _ _ _ _ _ _ Hr).
  - exact Htee.
  - exists out, (payload_u64 p), (trade_state cfg), ev, st', ed, settle. split; [exact Hrun|exact Hs].
Defined.
