(* ===== verification/MarketRound.v ===== *)
(** From the auction to the vault: what [run_batch] writes into the
    [BatchResults] account, [run-trade-l1-settle.ts] reads there and the vault
    settles.  Both sides of the account are modelled separately ([RunBatch],
    [TradeSettle]); the theorems here compose them. *)

From stdpp Require Import gmap.
From S2P Require Import Prelude Bytes Errors Externals Keys Note Borsh VaultClient VaultProgram MatchingEngineClient MatchingProgram.
From S2P Require Import Settlement SettleProgram BatchResults Merkle MerkleShadow VaultTree Client Deposit VaultState.
From S2P Require Import Withdraw Session Orders LeafHistory DemoText DemoKeys DemoChain Auction RunBatch TradeSettle.

Local Open Scope Z_scope.

(** ** The payload of a match *)

Lemma zero_or_32 note : length note = 32%nat → zero_or note = note.
Proof.
  intros Hl. unfold zero_or. rewrite isZero32_spec by done. case_bool_decide as Hz; [by rewrite Hz|done].
Qed.

Lemma output_zero : output ZERO_COMMITMENT = [].
Proof. unfold output. by rewrite bool_decide_eq_true_2. Qed.

Lemma relock_or_none_16 id : length id = 16%nat → relock_or_none id = id.
Proof.
  intros Hl. unfold relock_or_none, isRelockNone. rewrite Hl. cbn [Nat.eqb andb]. destruct (isZero32 id) eqn:Hz; [|done].
  unfold isZero32 in Hz. rewrite forallb_forall in Hz. change RELOCK_ORDER_ID_NONE with (replicate 16 x00).
  apply replicate_as_elem_of. split; [done|]. intros x Hx. apply list_elem_of_In, Hz in Hx.
  by apply bool_decide_eq_true_1 in Hx.
Qed.

(** The amounts of a typed match are not reduced. *)
Lemma match_payload {S} (ctx : TradeL1SettleContext S) mr c d nA nB :
  match_result_wf mr →
  let p := payload_u64 (trade_payload ctx mr c d nA nB) in
  p.(mp_noteE) = mr.(mr_noteE) ∧ p.(mp_noteF) = mr.(mr_noteF) ∧
  p.(mp_quoteAmount) = mr.(mr_quoteAmt) ∧ p.(mp_baseAmount) = mr.(mr_baseAmt) ∧
  p.(mp_buyerChangeAmt) = mr.(mr_buyerChangeAmt) ∧ p.(mp_sellerChangeAmt) = mr.(mr_sellerChangeAmt) ∧
  p.(mp_buyerFeeAmt) = mr.(mr_buyerFeeAmt) ∧ p.(mp_sellerFeeAmt) = mr.(mr_sellerFeeAmt) ∧
  p.(mp_buyerRelockOrderId) = mr.(mr_buyerRelockOrderId) ∧ p.(mp_sellerRelockOrderId) = mr.(mr_sellerRelockOrderId).
Proof.
  intros (H32 & H16 & Hu & _) p. decompose_Forall_hyps. subst p. unfold payload_u64, trade_payload, u64_ok in *.
  cbn [mp_noteE mp_noteF mp_quoteAmount mp_baseAmount mp_buyerChangeAmt mp_sellerChangeAmt mp_buyerFeeAmt mp_sellerFeeAmt
    mp_buyerRelockOrderId mp_sellerRelockOrderId].
  rewrite !zero_or_32, !relock_or_none_16, !Z.mod_small by done. by split_and!.
Qed.

(** ** A vault that has not seen the two notes *)

Record round_ready (st : VaultState) (l : list bytes) (slot : Z) (mr : MatchResultRecord) (expiryA expiryB : Z) (nA nB : bytes) : Prop := {
  rd_fresh : mr.(mr_noteBuyer) ≠ mr.(mr_noteSeller) ∧
    Forall (λ n, st.(vs_locks) !! n = None ∧ st.(vs_consumed) !! n = None) [mr.(mr_noteBuyer); mr.(mr_noteSeller)];
  rd_change : Forall (λ n, n ≠ mr.(mr_noteBuyer) ∧ n ≠ mr.(mr_noteSeller) ∧ st.(vs_locks) !! n = None) [mr.(mr_noteE); mr.(mr_noteF)] ∧
    (0 < mr.(mr_buyerChangeAmt) → mr.(mr_noteE) ≠ ZERO_COMMITMENT) ∧
    (0 < mr.(mr_sellerChangeAmt) → mr.(mr_noteF) ≠ ZERO_COMMITMENT) ∧
    (mr.(mr_noteE) ≠ mr.(mr_noteF) ∨ mr.(mr_buyerRelockOrderId) = NONE_ID);
  rd_unfunded : (mr.(mr_buyerRelockOrderId) = NONE_ID ∨ mr.(mr_noteE) ∉ st.(vs_funded)) ∧
    (mr.(mr_sellerRelockOrderId) = NONE_ID ∨ mr.(mr_noteF) ∉ st.(vs_funded));
  rd_nullifiers : nA ≠ nB ∧ st.(vs_nullifiers) !! nA = None ∧ st.(vs_nullifiers) !! nB = None;
  rd_expiry : slot < expiryA ∧ slot < expiryB;
  rd_room : (length l + 4 <= 2 ^ VaultTree.MERKLE_DEPTH)%nat }.

Section round.
Context `{NodeCrypto} `{Poseidon} `{!PoseidonLaws}.

Lemma change_note_output mint ch uc id role note :
  change_note mint ch uc id role = Ok note → 0 <= ch → (0 < ch → note ≠ ZERO_COMMITMENT) →
  output_ok note ∧ (note ≠ ZERO_COMMITMENT ↔ 0 < ch).
Proof.
  unfold change_note. intros Hc Hch0 Hne. destruct (Z.ltb_spec 0 ch) as [Hlt|Hge].
  - destruct (commitment_from_fields _ _ _ _ _) as [c|] eqn:Hcf; [|done]. injection Hc as <-.
    split; [right; by eapply commitment_field|]. split; [done|by intros _; apply Hne].
  - injection Hc as <-. split; [by left|]. split; [by intros []|lia].
Qed.

Lemma relock_of_needs s r ch id ex note :
  (id, ex) = relock_of s (relocks s r ch) → (note ≠ ZERO_COMMITMENT ↔ 0 < ch) → id = NONE_ID ∨ note ≠ ZERO_COMMITMENT.
Proof.
  unfold relock_of, relocks. intros He Hn. destruct (0 <? r), (_ =? 0), (Z.ltb_spec 0 ch); cbn in He;
    injection He as -> _; try (by left). right. by apply Hn.
Qed.

Lemma lock_note_runs tee slot note id ex amount st :
  st.(vs_locks) !! note = None → tee = st.(vs_config).(tee_pubkey) → slot < ex → 0 < amount →
  lock_note tee slot note id ex amount st =
  Ok (with_funded (with_locks st (<[note := {| lk_order_id := id; lk_expiry_slot := ex; lk_locked_by := tee; lk_amount := amount |}]> st.(vs_locks)))
        (st.(vs_funded) ∖ {[note]})).
Proof.
  intros Hn -> Hex Ha. unfold lock_note, init. rewrite Hn. cbn [mbind res_bind].
  rewrite bool_decide_eq_true_2, (proj2 (Z.ltb_lt _ _) Hex), (proj2 (Z.ltb_lt _ _) Ha) by done. reflexivity.
Qed.

(** The vault after the two locks of a fair match is ready to settle it. *)
Lemma fair_match_ready p pyth now base quote fee b a mr {S} (ctx : TradeL1SettleContext S) st l slot tee c d nA nB :
  fair_match p pyth now base quote fee b a mr → match_result_wf mr → 0 < mr.(mr_baseAmt) → 0 < p →
  round_ready st l slot mr (ctx.(tc_userExpirySlot) mod U64) (ctx.(tc_makerExpirySlot) mod U64) nA nB →
  tee = st.(vs_config).(tee_pubkey) → field_bytes c → field_bytes d →
  ∃ st1 st2, lock_note tee slot mr.(mr_noteBuyer) ctx.(tc_userOrderId) (ctx.(tc_userExpirySlot) mod U64) (mr.(mr_buyerNoteValue) mod U64) st = Ok st1 ∧
    lock_note tee slot mr.(mr_noteSeller) ctx.(tc_makerOrderId) (ctx.(tc_makerExpirySlot) mod U64) (mr.(mr_sellerNoteValue) mod U64) st1 = Ok st2 ∧
    st2.(vs_config) = st.(vs_config) ∧ settle_ready st2 l (payload_u64 (trade_payload ctx mr c d nA nB)).
Proof.
  intros Hf Hwf Hbase Hp [[Hab Hfr] (Hch & He & Hff & Hef) (UE & UF) (Nab & NA & NB) [Xa Xb] Hroom] Htee Hc Hd.
  apply Forall_cons in Hfr as [[La Ca] Hfr]. apply Forall_singleton in Hfr as [Lb Cb].
  apply Forall_cons in Hch as [(Ea & Eb & El) Hch]. apply Forall_singleton in Hch as (Fa & Fb & Fl).
  destruct (match_payload ctx mr c d nA nB Hwf) as (PE & PF & PQ & PB & PCa & PCb & PFa & PFb & PRa & PRb).
  destruct (fm_legs _ _ _ _ _ _ _ _ _ Hf) as (_ & Hq & _). destruct (fm_conserved _ _ _ _ _ _ _ _ _ Hf) as (V1 & V2 & K1 & K2).
  destruct (fm_change _ _ _ _ _ _ _ _ _ Hf) as [G1 G2], (fm_relock _ _ _ _ _ _ _ _ _ Hf) as [R1 R2].
  destruct (change_note_output _ _ _ _ _ _ G1 K1 He) as [O1 I1], (change_note_output _ _ _ _ _ _ G2 K2 Hff) as [O2 I2].
  pose proof Hwf as (_ & _ & Hu & _). rewrite !Forall_cons in Hu.
  destruct Hu as (U1 & U2 & U3 & U4 & U5 & U6 & U7 & U8 & _). unfold u64_ok in *.
  rewrite (Z.mod_small mr.(mr_buyerNoteValue)), (Z.mod_small mr.(mr_sellerNoteValue)) by done.
  assert (0 < mr.(mr_buyerNoteValue) ∧ 0 < mr.(mr_sellerNoteValue)) as [W1 W2] by nia.
  eexists _, _. split; [by apply lock_note_runs|].
  split; [apply lock_note_runs; [cbn; by rewrite lookup_insert_ne|done|done|done]|]. split; [done|].
  set (st2 := with_funded _ _).
  assert (Hl2 : ∀ x, x ≠ mr.(mr_noteBuyer) → x ≠ mr.(mr_noteSeller) → st.(vs_locks) !! x = None → vs_locks st2 !! x = None).
  { intros x Xa' Xb' Hx. cbn. by rewrite !lookup_insert_ne. }
  assert (Hu2 : ∀ x, x ∉ st.(vs_funded) → x ∉ vs_funded st2).
  { intros x Hx. unfold st2. cbn [with_funded with_locks vs_funded]. rewrite !elem_of_difference. tauto. }
  split.
  - eexists. split; [cbn; by rewrite lookup_insert_ne, lookup_insert_eq|].
    split; [done|]. unfold conserves. rewrite PQ, PCa, PFa. cbn [lk_amount]. split; lia.
  - eexists. split; [cbn; by rewrite lookup_insert_eq|].
    split; [done|]. unfold conserves. rewrite PB, PCb, PFb. cbn [lk_amount]. split; lia.
  - rewrite PQ, PCa, PFa, PB, PCb, PFb. repeat (apply Forall_cons; split; [lia|]). by apply Forall_nil.
  - rewrite PE, PF, PCa, PCb. by split.
  - rewrite PRa, PRb, PE, PF. split; [by eapply relock_of_needs|by eapply relock_of_needs].
  - rewrite PRa, PRb, PE, PF. unfold relock_free. split; [destruct UE; auto|]. split; [destruct UF; auto|]. destruct Hef; auto.
  - done.
  - done.
  - rewrite PE, PF. by split_and!.
  - done.
  - done.
Qed.
End round.

(** The signed settlement of the route, on a vault that is ready for it. *)
Lemma settle_signed `{NodeCrypto} `{!NodeCryptoLaws} `{Poseidon} `{!PoseidonLaws} `{Web3} `{Base58} `{Nacl} `{ForeignIx}
    {S} (tc : TradeL1SettleContext S) p h sig tx st l slot :
  let tee := toBytes tc.(tc_tee).(kp_publicKey) in
  canonicalPayloadHash p = Ok h → settle_tx tc p h sig = Ok tx → vault_repr st.(vs_config) l →
  settle_ready st l (payload_u64 p) → st.(vs_config).(tee_pubkey) = tee →
  ∃ ev st', tee_forced_settle tee slot tx 2 (payload_u64 p) st = Ok (ev, st') ∧ vault_repr st'.(vs_config) (l ++ settle_outputs p).
Proof.
  intros tee Hh Htx Hv Hready Htee. unfold settle_tx in Htx.
  apply res_bind_Ok in Htx as (ed & Hed & Htx). apply res_bind_Ok in Htx as (settle & Hse & Htx). apply Ok_inj in Htx as <-.
  assert (Hsig : verify_tee_signature [setComputeUnitLimit 1400000; ed; settle] 2 tee (canonical_payload_hash (payload_u64 p)) = true).
  { unfold canonical_payload_hash. rewrite canonical_slices_u64.
    exact (signed_tx_verified p tee _ h ed [setComputeUnitLimit 1400000; ed; settle] 1 2 Hh Hed eq_refl ltac:(lia)). }
  destruct (settle_runs tee slot _ 2 st l (payload_u64 p) Hv Hready (eq_sym Htee) Hsig) as (ev & st' & Hs).
  exists ev, st'. split; [exact Hs|]. destruct (buildSettleIx_accepted _ _ Hse) as (Hsz & _).
  destruct (settle_inv _ _ _ _ _ _ _ _ _ (Hsz : payload_sized (payload_u64 p)) Hv Hs) as (Hdone & _).
  apply (sd_tree _ _ _ _ _ _ _ Hdone).
Qed.

(** [C8] The vault settles whatever the auction matches. Take any match that is fair
    at a positive price with a positive amount, its fields within their widths, and
    any vault whose TEE key is the route's and that is ready for the round: the two
    notes differ and are neither locked nor consumed, the change notes are none of
    the traded ones, unlocked, non-zero where there is change, and different from
    each other where the buyer's is re-locked, a lock address to be re-locked holds
    no lamports, the two nullifiers differ and are unspent, the lock expiries lie
    ahead, and the tree has room for four leaves. The two [lock_note]s of the
    settlement route go through there, and after them [tee_forced_settle] of the
    route's payload, with two output notes that are field elements, in the route's
    signed transaction, goes through as well: the tree gets the traded notes and the
    change the match recorded. *)
Theorem fair_match_settles `{NodeCrypto} `{!NodeCryptoLaws} `{Poseidon} `{!PoseidonLaws} `{Web3} `{Base58} `{Nacl} `{ForeignIx}
    p pyth now base quote fee b a mr {S} (tc : TradeL1SettleContext S) st l slot c d nA nB h tx :
  let tee := toBytes tc.(tc_tee).(kp_publicKey) in
  let payload := trade_payload tc mr c d nA nB in
  fair_match p pyth now base quote fee b a mr → match_result_wf mr → 0 < p → 0 < mr.(mr_baseAmt) →
  field_bytes c → field_bytes d → vault_repr st.(vs_config) l → st.(vs_config).(tee_pubkey) = tee →
  round_ready st l slot mr (tc.(tc_userExpirySlot) mod U64) (tc.(tc_makerExpirySlot) mod U64) nA nB →
  canonicalPayloadHash payload = Ok h → settle_tx tc payload h (nacl_sign h tc.(tc_tee).(kp_secretKey)) = Ok tx →
  ∃ st1 st2 ev st3,
    lock_note tee slot mr.(mr_noteBuyer) tc.(tc_userOrderId) (tc.(tc_userExpirySlot) mod U64) (mr.(mr_buyerNoteValue) mod U64) st = Ok st1 ∧
    lock_note tee slot mr.(mr_noteSeller) tc.(tc_makerOrderId) (tc.(tc_makerExpirySlot) mod U64) (mr.(mr_sellerNoteValue) mod U64) st1 = Ok st2 ∧
    tee_forced_settle tee slot tx 2 (payload_u64 payload) st2 = Ok (ev, st3) ∧
    vault_repr st3.(vs_config) (l ++ c :: d :: output mr.(mr_noteE) ++ output mr.(mr_noteF)).
Proof.
  intros tee payload Hf Hwf Hp Hbase Hc Hd Hv Htee Hready Hh Htx.
  destruct (fair_match_ready _ _ _ _ _ _ _ _ _ tc st l slot tee c d nA nB Hf Hwf Hbase Hp Hready (eq_sym Htee) Hc Hd)
    as (st1 & st2 & L1 & L2 & Hcfg & Hr).
  destruct (settle_signed tc payload h _ tx st2 l slot Hh Htx) as (ev & st3 & Hs & Hv3); [by rewrite Hcfg|done|by rewrite Hcfg|].
  exists st1, st2, ev, st3. split_and!; [done..|].
  destruct Hwf as (H32 & _). decompose_Forall_hyps.
  unfold settle_outputs, payload, trade_payload in Hv3. cbn [mp_noteC mp_noteD mp_noteE mp_noteF mp_noteFee] in Hv3.
  rewrite !zero_or_32, output_zero, app_nil_r in Hv3 by done. exact Hv3.
Qed.

(** ** A round of two mirrored orders *)

(** Two live orders that mirror each other, in a call of [run_batch] for their
    slots, and the accounts of the call typed. *)
Record mirrored_pair (me_id : bytes) (ctx : RunBatchContext) (market : bytes) (twap : Z) (ua ma : AccountMeta)
    (u m : PendingOrder) (slots : SlotStore) (br : BatchResultsView) : Prop := {
  mp_context : pair_context ctx market twap ua ma;
  mp_ready : ready_order ctx market u ∧ ready_order ctx market m;
  mp_mirror : m.(po_side) = 1 - u.(po_side) ∧ u.(po_amount) = m.(po_amount) ∧ u.(po_price_limit) = m.(po_price_limit);
  mp_band : deviates_by_more_than_bps u.(po_price_limit) twap ctx.(rc_config).(mc_circuit_breaker_bps) = false;
  mp_slots : slots !! toBytes ua.(pubkey) = Some {| sl_owner := me_id; sl_order := Some u |} ∧
    slots !! toBytes ma.(pubkey) = Some {| sl_owner := me_id; sl_order := Some m |};
  mp_typed : slots_typed slots ∧ batch_results_wf br ∧ u64_ok ctx.(rc_slot) ∧
    length ctx.(rc_config).(mc_base_mint) = 32%nat ∧ length ctx.(rc_config).(mc_quote_mint) = 32%nat;
  mp_unmatched : Forall (λ r, is_run_match u.(po_collateral_note) m.(po_collateral_note) r = false) br.(br_results) }.

(** The node serves the account [run_batch] left, to a run for the two notes. *)
Record serves_round {S} (tc : TradeL1SettleContext S) (u m : PendingOrder) (data : bytes) : Prop := {
  sv_notes : tc.(tc_userQuoteNoteCommitment) = u.(po_collateral_note) ∧ tc.(tc_makerNoteCommitment) = m.(po_collateral_note);
  sv_data : ∀ s info s', tc.(tc_l1).(l1_getAccountInfo) tc.(tc_batchPda) s = (Ok (Some info), s') → info.(ai_data) = data }.

Section round.
Context `{NodeCrypto} `{!NodeCryptoLaws} `{Poseidon} `{!PoseidonLaws}.

(** The only match a run can find in the account is the one just written. *)
Lemma round_match (u m : PendingOrder) (br br' : BatchResultsView) (k : nat) mr r :
  Forall (λ r, is_run_match u.(po_collateral_note) m.(po_collateral_note) r = false) br.(br_results) →
  br'.(br_results) = <[k := mr]> br.(br_results) → In r br'.(br_results) →
  is_run_match u.(po_collateral_note) m.(po_collateral_note) r = true → r = mr.
Proof.
  intros Hno -> Hin Hr. apply list_elem_of_In, list_elem_of_lookup in Hin as [i Hi].
  apply list_lookup_insert_Some in Hi as [(_ & <- & _)|[_ Hi]]; [done|].
  eapply Forall_lookup_1 in Hno; [|exact Hi]. cbn in Hno. congruence.
Qed.

Lemma mirrored_runs me_id ctx market twap ua ma u m slots br disc :
  mirrored_pair me_id ctx market twap ua ma u m slots br → length disc = 8%nat →
  ∃ ev slots' br' mr, run_batch_handler me_id ctx market slots br = Ok (ev, slots', br') ∧
    fair_match u.(po_price_limit) twap ctx.(rc_slot) ctx.(rc_config).(mc_base_mint) ctx.(rc_config).(mc_quote_mint) 0
      (bid_of u m) (ask_of u m) mr ∧ mr.(mr_baseAmt) = u.(po_amount) ∧ match_result_wf mr ∧
    decodeBatchResults (batch_results_bytes disc br') = Ok br' ∧
    ∀ r, In r br'.(br_results) → is_run_match u.(po_collateral_note) m.(po_collateral_note) r = true → r = mr.
Proof.
  intros [Hpc [Hu Hm] (Hside & Hq & Hp) Hband [Ku Km] (Ts & Tb & Tn & Tbase & Tquote) Hno] Hdisc.
  destruct (mirrored_orders_run me_id ctx market twap ua ma u m slots br Hpc Hu Hm Hside Hq Hp Hband Ku Km)
    as (ev & slots' & br' & mr & Hrun & _ & _ & _ & Hf & _ & Hbase & Hres & _).
  destruct (run_batch_typed me_id ctx market slots br ev slots' br' disc Ts Tb Tn Tbase Tquote Hdisc Hrun) as (_ & Hwf & Hdec).
  exists ev, slots', br', mr. split_and!; try done.
  - destruct Hwf as (_ & _ & _ & _ & _ & Hall & _). rewrite Forall_lookup in Hall. apply (Hall (Z.to_nat (br.(br_writeCursor) mod 16))).
    rewrite Hres. apply list_lookup_insert_eq. destruct Tb as (_ & _ & _ & _ & Hl & _). rewrite Hl.
    pose proof (Z.mod_pos_bound br.(br_writeCursor) 16). change BATCH_RESULTS_CAPACITY with 16%nat. lia.
  - intros r Hin Hr. exact (round_match u m br br' _ mr r Hno Hres Hin Hr).
Qed.
End round.

(** [C3] A round end to end. Let the user's bid and the maker's ask be two pending
    plain limit orders of the market in two writable slots, of equal amount and
    price, at least the minimum size, without a minimum fill, not expiring within
    the settlement buffer, each covered by its note, with owner commitments that are
    field elements; let their price be positive and inside the circuit breaker's
    band around the market's own oracle, the vault's fee zero, the caller its TEE,
    and the results account without an earlier match of the two notes. Then
    [run_batch] goes through, and whenever the settlement route finishes against the
    account it left, it has settled exactly that match: the full amount at the
    common price, each side from its own note; and it reports a note of that amount
    to the user. The two locks and the settlement the route sent then go through on
    every vault whose TEE key is the route's and that is ready for the round: the
    two notes differ and are neither locked nor consumed, the change notes are none
    of the traded ones, unlocked, non-zero where there is change and different from
    each other where the buyer's is re-locked, a lock address to be re-locked holds
    no lamports, the two nullifiers differ and are unspent, the lock expiries lie
    ahead, and the tree has room for four leaves. *)
Theorem mirrored_round_settles `{NodeCrypto} `{!NodeCryptoLaws} `{Poseidon} `{!PoseidonLaws} `{Web3} `{Base58} `{Nacl} `{ForeignIx}
    me_id ctx market twap ua ma u m slots br disc :
  mirrored_pair me_id ctx market twap ua ma u m slots br → u.(po_side) = 0 → length disc = 8%nat →
  ∃ ev slots' br', run_batch_handler me_id ctx market slots br = Ok (ev, slots', br') ∧
    ∀ {S} (tc : TradeL1SettleContext S) w out w', serves_round tc u m (batch_results_bytes disc br') →
      runTradeL1Settle tc w = (Ok out, w') →
      ∃ mr p noteC leafBefore sk lockA lockB ed settle, trade_ran tc out mr p noteC leafBefore sk lockA lockB ed settle ∧
        mr.(mr_baseAmt) = u.(po_amount) ∧ mr.(mr_quoteAmt) = u.(po_amount) * u.(po_price_limit) ∧
        mr.(mr_buyerNoteValue) = u.(po_note_amount) ∧ mr.(mr_sellerNoteValue) = m.(po_note_amount) ∧
        out.(tr_buyerBaseNote).(bn_amount) = pretty u.(po_amount) ∧
        ∀ st l slot, let tee := toBytes tc.(tc_tee).(kp_publicKey) in
          vault_repr st.(vs_config) l → st.(vs_config).(tee_pubkey) = tee →
          round_ready st l slot mr (tc.(tc_userExpirySlot) mod U64) (tc.(tc_makerExpirySlot) mod U64) p.(mp_nullifierA) p.(mp_nullifierB) →
          ∃ st1 st2 ev' st3,
            lock_note tee slot u.(po_collateral_note) tc.(tc_userOrderId) (tc.(tc_userExpirySlot) mod U64) (u.(po_note_amount) mod U64) st = Ok st1 ∧
            lock_note tee slot m.(po_collateral_note) tc.(tc_makerOrderId) (tc.(tc_makerExpirySlot) mod U64) (m.(po_note_amount) mod U64) st1 = Ok st2 ∧
            tee_forced_settle tee slot [setComputeUnitLimit 1400000; ed; settle] 2 (payload_u64 p) st2 = Ok (ev', st3) ∧
            vault_repr st3.(vs_config) (l ++ settle_outputs p).
Proof.
  intros Hpair Hside Hdisc. destruct (mirrored_runs _ _ _ _ _ _ _ _ _ _ disc Hpair Hdisc)
    as (ev & slots' & br' & mr & Hrun & Hf & Hbase & Hwf & Hdec & Honly).
  exists ev, slots', br'. split; [exact Hrun|]. intros S tc w out w' [[N1 N2] Hsv] Htr.
  destruct (runTradeL1Settle_inv _ _ _ _ Htr) as (mr' & p & noteC & leaf & sk & la & lb & ed & settle & Hr).
  destruct (rn_match _ _ _ _ _ _ _ _ _ _ _ Hr) as [Hm _]. destruct (rn_batch _ _ _ _ _ _ _ _ _ _ _ Hr) as (s & s' & info & view & Hi & Hd & Hin).
  rewrite (Hsv _ _ _ Hi), Hdec in Hd. apply Ok_inj in Hd as <-. rewrite N1, N2 in Hm. rewrite (Honly _ Hin Hm) in Hr.
  clear mr' Hm Hin. exists mr, p, noteC, leaf, sk, la, lb, ed, settle. split; [exact Hr|]. split; [exact Hbase|].
  destruct (fm_buyer _ _ _ _ _ _ _ _ _ Hf) as (B1 & _ & _ & B2), (fm_seller _ _ _ _ _ _ _ _ _ Hf) as (S1 & _ & _ & S2).
  unfold bid_of in B1, B2. unfold ask_of in S1, S2. rewrite Hside in B1, B2, S1, S2. cbn [Z.eqb snapshot_from_slot sn_collateral_note sn_note_amount] in *.
  destruct (fm_legs _ _ _ _ _ _ _ _ _ Hf) as (_ & Hq & _). split; [by rewrite Hq, Hbase|]. split; [done|]. split; [done|].
  split. { destruct (rn_report _ _ _ _ _ _ _ _ _ _ _ Hr) as (_ & _ & -> & _). by rewrite Hbase. }
  intros st l slot Hv Htee Hready. set (tee := toBytes tc.(tc_tee).(kp_publicKey)) in *.
  destruct (rn_payload _ _ _ _ _ _ _ _ _ _ _ Hr) as (noteD & d & mk & nB & Hpl & HD & _ & _).
  destruct (rn_note _ _ _ _ _ _ _ _ _ _ _ Hr) as (_ & _ & _ & _ & _ & HC).
  destruct (rn_settle_tx _ _ _ _ _ _ _ _ _ _ _ Hr) as (h & sig & sig' & t & t' & Hh & Hset & _).
  destruct (mp_ready _ _ _ _ _ _ _ _ _ _ Hpair) as [Hu _].
  rewrite Hpl in Hready. cbn [mp_nullifierA mp_nullifierB trade_payload] in Hready.
  destruct (fair_match_ready _ _ _ _ _ _ _ _ _ tc st l slot tee p.(mp_noteC) d p.(mp_nullifierA) nB Hf Hwf
    ltac:(rewrite Hbase; apply (ro_size _ _ _ Hu)) (ro_price _ _ _ Hu) Hready (eq_sym Htee)
    (noteCommitment_field _ _ HC) (noteCommitment_field _ _ HD)) as (st1 & st2 & L1 & L2 & Hcfg & Hrd).
  rewrite <-Hpl in Hrd. destruct (settle_signed tc p h sig' _ st2 l slot Hh Hset) as (ev' & st3 & Hs & Hv3); [by rewrite Hcfg|done|by rewrite Hcfg|].
  exists st1, st2, ev', st3. rewrite B1, B2 in L1. rewrite S1, S2 in L2. by split_and!.
Qed.

(** A user who sells: the run looks for a match with the user's note on the
    buyer's side, and the match it was sent for has it on the seller's. *)
Lemma seller_round_fails `{NodeCrypto} `{!NodeCryptoLaws} `{Poseidon} `{!PoseidonLaws} `{Web3} `{Base58} `{Nacl} `{ForeignIx}
    me_id ctx market twap ua ma u m slots br disc :
  mirrored_pair me_id ctx market twap ua ma u m slots br → u.(po_side) = 1 →
  u.(po_collateral_note) ≠ m.(po_collateral_note) → length disc = 8%nat →
  ∃ ev slots' br', run_batch_handler me_id ctx market slots br = Ok (ev, slots', br') ∧
    ∀ {S} (tc : TradeL1SettleContext S) w out w', serves_round tc u m (batch_results_bytes disc br') →
      runTradeL1Settle tc w ≠ (Ok out, w').
Proof.
  intros Hpair Hside Hne Hdisc. destruct (mirrored_runs _ _ _ _ _ _ _ _ _ _ disc Hpair Hdisc)
    as (ev & slots' & br' & mr & Hrun & Hf & _ & _ & Hdec & Honly).
  exists ev, slots', br'. split; [exact Hrun|]. intros S tc w out w' [[N1 N2] Hsv] Htr.
  destruct (runTradeL1Settle_inv _ _ _ _ Htr) as (mr' & p & noteC & leaf & sk & la & lb & ed & settle & Hr).
  destruct (rn_match _ _ _ _ _ _ _ _ _ _ _ Hr) as [Hm _]. destruct (rn_batch _ _ _ _ _ _ _ _ _ _ _ Hr) as (s & s' & info & view & Hi & Hd & Hin).
  rewrite (Hsv _ _ _ Hi), Hdec in Hd. apply Ok_inj in Hd as <-. rewrite N1, N2 in Hm. pose proof (Honly _ Hin Hm) as ->.
  destruct (fm_buyer _ _ _ _ _ _ _ _ _ Hf) as (B1 & _). unfold bid_of in B1. rewrite Hside in B1.
  unfold is_run_match in Hm. apply andb_true_iff in Hm as [[_ Hb%bool_decide_eq_true_1]%andb_true_iff _].
  apply Hne. rewrite <-Hb, B1. reflexivity.
Qed.

(** ** A sample round *)

Module SampleRound.
Import Toy.

(** The account after the sample batch, and its match. *)
Definition results : BatchResultsView :=
  match run_batch_handler SampleBatch.me_id SampleBatch.ctx (SampleBatch.word x22) SampleBatch.slots SampleBook.results with
  | Ok (_, _, br') => br'
  | Throw _ => SampleBook.results
  end.
Definition round_matches : list MatchResultRecord :=
  List.filter (is_run_match SampleBatch.user.(po_collateral_note) SampleBatch.maker.(po_collateral_note)) results.(br_results).

Definition l1 : L1Connection () := {|
  l1_getAccountInfo pda := mret (Some
    {| ai_data := if bool_decide (pda = SampleTrade.batch_pda) then batch_results_bytes (replicate 8 x09) results
                  else vault_account (replicate 8 x07) x01 SampleChain.cfg;
       ai_owner := zero_key |});
  l1_send _ _ := mret "sig"; l1_getSlot := mret 5; l1_getBalance _ := mret 0; l1_history := SampleLedger.node |}.

Definition settle_ctx : TradeL1SettleContext () := {|
  tc_l1 := l1; tc_vaultProgramId := zero_key; tc_baseMint := key_of (SampleBatch.word x11); tc_quoteMint := key_of (SampleBatch.word x12);
  tc_batchPda := SampleTrade.batch_pda; tc_tee := SampleTrade.keypair x21; tc_maker := SampleTrade.keypair x22;
  tc_userMasterSeed := replicate 64 x01; tc_userQuoteNoteCommitment := SampleBatch.user.(po_collateral_note);
  tc_userOrderId := replicate 16 x41; tc_userExpirySlot := 500;
  tc_makerNoteCommitment := SampleBatch.maker.(po_collateral_note); tc_makerOrderId := replicate 16 x42; tc_makerExpirySlot := 500 |}.

Lemma pair_fits : mirrored_pair SampleBatch.me_id SampleBatch.ctx (SampleBatch.word x22) 101 (SampleBatch.account x51)
  (SampleBatch.account x52) SampleBatch.user SampleBatch.maker SampleBatch.slots SampleBook.results.
Proof.
  split.
  - exact SampleBatch.context_fits.
  - split; [exact SampleBatch.user_ready|exact SampleBatch.maker_ready].
  - by split_and!.
  - reflexivity.
  - by split.
  - split; [exact sample_slots_wf|]. split; [exact sample_results_wf|]. by split_and!.
  - apply Forall_forall. intros r Hr. apply elem_of_replicate in Hr as [-> _]. reflexivity.
Qed.

Lemma one_match : ∃ mr, round_matches = [mr] ∧ mr.(mr_noteBuyer) = SampleBatch.word x31 ∧ mr.(mr_noteSeller) = SampleBatch.word x32 ∧
  mr.(mr_noteE) = SampleBatch.word x00 ∧ mr.(mr_buyerChangeAmt) = 0 ∧ mr.(mr_sellerChangeAmt) = 20 ∧
  mr.(mr_buyerRelockOrderId) = NONE_ID ∧ mr.(mr_noteF) ≠ SampleBatch.word x31 ∧ mr.(mr_noteF) ≠ SampleBatch.word x32 ∧
  mr.(mr_noteF) ≠ ZERO_COMMITMENT.
Proof. eexists. split; [vm_compute; reflexivity|]. vm_compute. split_and!; congruence. Qed.

Lemma sample_settle_Ok : ∃ out, @runTradeL1Settle Toy.toy_crypto Toy.toy_Poseidon Toy.toy_web3 SampleTrade.base58 SampleTrade.nacl
  SampleTrade.foreign_ix () settle_ctx tt = (Ok out, tt).
Proof. eexists. vm_compute. reflexivity. Qed.

Lemma served u m : u = SampleBatch.user → m = SampleBatch.maker →
  serves_round settle_ctx u m (batch_results_bytes (replicate 8 x09) results).
Proof. intros -> ->. split; [by split|]. by intros s info s' [= <- <-]. Qed.
End SampleRound.

(** A vault without locks is ready for the sample round. *)
Lemma sample_round_ready st slot mr nA nB :
  st.(vs_funded) = ∅ → st.(vs_locks) = ∅ → st.(vs_consumed) = ∅ → st.(vs_nullifiers) = ∅ → slot < 500 → nA ≠ nB →
  SampleRound.round_matches = [mr] → round_ready st [] slot mr 500 500 nA nB.
Proof.
  intros Hu Hl Hc Hn Hs Hne Hmr. destruct SampleRound.one_match as (mr' & Hm & B & S & E & C1 & C2 & R & F1 & F2 & F3).
  rewrite Hmr in Hm. injection Hm as <-. split.
  - rewrite B, S, Hl, Hc. split; [discriminate|]. apply Forall_cons. rewrite Forall_singleton. split; split; apply lookup_empty.
  - rewrite B, S, E, C1, R, Hl. split; [|split; [lia|by auto]].
    apply Forall_cons. rewrite Forall_singleton.
    split; [split; [discriminate|]; split; [discriminate|apply lookup_empty]|split; [exact F1|]; split; [exact F2|apply lookup_empty]].
  - rewrite Hu. split; right; apply not_elem_of_empty.
  - rewrite Hn. split; [exact Hne|]. split; apply lookup_empty.
  - by split.
  - change (4 <= 2 ^ VaultTree.MERKLE_DEPTH)%nat. change 4%nat with (2 ^ 2)%nat.
    apply Nat.pow_le_mono_r; [done|unfold VaultTree.MERKLE_DEPTH; lia].
Qed.

Definition sample_vault (cfg : VaultConfig) : VaultState :=
  {| vs_config := cfg; vs_locks := ∅; vs_consumed := ∅; vs_nullifiers := ∅; vs_wallets := ∅; vs_tokens := ∅; vs_funded := ∅ |}.

Lemma sample_nullifiers out mr p noteC leaf sk a b c d :
  @trade_ran Toy.toy_crypto Toy.toy_Poseidon Toy.toy_web3 SampleTrade.base58 SampleTrade.nacl SampleTrade.foreign_ix ()
    SampleRound.settle_ctx out mr p noteC leaf sk a b c d →
  mr.(mr_noteBuyer) = SampleBatch.word x31 → mr.(mr_noteSeller) = SampleBatch.word x32 → p.(mp_nullifierA) ≠ p.(mp_nullifierB).
Proof.
  intros Hr EB ES. destruct (rn_payload _ _ _ _ _ _ _ _ _ _ _ Hr) as (noteD & dd & mk & nB & Hp & _ & Hmk & HnB).
  destruct (rn_key _ _ _ _ _ _ _ _ _ _ _ Hr) as [Hsk HnA]. rewrite Hp. cbn [mp_nullifierA mp_nullifierB trade_payload].
  clear -Hsk Hmk HnA HnB EB ES. rewrite EB in HnA. rewrite ES in HnB. revert HnA HnB. generalize (mp_nullifierA p). intros nA HnA HnB ->.
  vm_compute in Hsk. injection Hsk as <-. vm_compute in Hmk. injection Hmk as <-.
  vm_compute in HnA. vm_compute in HnB. congruence.
Qed.

Lemma sample_round_found out mr p noteC leaf sk a b c d :
  @trade_ran Toy.toy_crypto Toy.toy_Poseidon Toy.toy_web3 SampleTrade.base58 SampleTrade.nacl SampleTrade.foreign_ix ()
    SampleRound.settle_ctx out mr p noteC leaf sk a b c d →
  SampleRound.round_matches = [mr] ∧ mr.(mr_noteBuyer) = SampleBatch.word x31 ∧ mr.(mr_noteSeller) = SampleBatch.word x32.
Proof.
  intros Hr. destruct (rn_match _ _ _ _ _ _ _ _ _ _ _ Hr) as [Hm _].
  destruct (rn_batch _ _ _ _ _ _ _ _ _ _ _ Hr) as (s & s' & info & view & Hi & Hd & Hin).
  rewrite (sv_data _ _ _ _ (SampleRound.served _ _ eq_refl eq_refl) _ _ _ Hi) in Hd.
  assert (Hdec : decodeBatchResults (batch_results_bytes (replicate 8 x09) SampleRound.results) = Ok SampleRound.results) by (vm_compute; reflexivity).
  rewrite Hdec in Hd. apply Ok_inj in Hd as <-.
  cbn [SampleRound.settle_ctx tc_userQuoteNoteCommitment tc_makerNoteCommitment] in Hm.
  pose proof (proj2 (filter_In _ _ _) (conj Hin Hm)) as Hf. fold SampleRound.round_matches in Hf.
  destruct SampleRound.one_match as (mr' & Hone & B & S & _). rewrite Hone in Hf. destruct Hf as [<-|[]]. by split_and!.
Qed.

Lemma mirrored_round_settles_witness : ∃ out p st1 st2 ev st3 ed settle,
  @runTradeL1Settle Toy.toy_crypto Toy.toy_Poseidon Toy.toy_web3 SampleTrade.base58 SampleTrade.nacl
    SampleTrade.foreign_ix () SampleRound.settle_ctx tt = (Ok out, tt) ∧
  out.(tr_buyerBaseNote).(bn_amount) = "10" ∧
  lock_note (SampleTrade.word x21) 9 (SampleBatch.word x32) (replicate 16 x42) 500 30 st1 = Ok st2 ∧
  @tee_forced_settle Toy.toy_crypto Toy.toy_Poseidon Toy.toy_web3 (SampleTrade.word x21) 9
    [@setComputeUnitLimit SampleTrade.foreign_ix 1400000; ed; settle] 2 p st2 = Ok (ev, st3).
Proof.
  destruct (@mirrored_round_settles Toy.toy_crypto Toy.toy_crypto_laws Toy.toy_Poseidon Toy.toy_poseidon_laws Toy.toy_web3
    SampleTrade.base58 SampleTrade.nacl SampleTrade.foreign_ix SampleBatch.me_id SampleBatch.ctx (SampleBatch.word x22) 101
    (SampleBatch.account x51) (SampleBatch.account x52) SampleBatch.user SampleBatch.maker SampleBatch.slots SampleBook.results
    (replicate 8 x09) SampleRound.pair_fits eq_refl eq_refl) as (ev & slots' & br' & Hrun & Hall).
  assert (Hbr : br' = SampleRound.results) by (unfold SampleRound.results; by rewrite Hrun). subst br'.
  destruct SampleRound.sample_settle_Ok as (out & Hout).
  destruct (Hall unit SampleRound.settle_ctx tt out tt (SampleRound.served _ _ eq_refl eq_refl) Hout)
    as (mr & p & noteC & leaf & sk & la & lb & ed & settle & Hr & _ & _ & _ & _ & Hamt & Hset).
  destruct (@initialize_repr Toy.toy_Poseidon Toy.toy_poseidon_laws [] (SampleTrade.word x21) []) as (cfg & _ & Hv & Htee).
  destruct (sample_round_found _ _ _ _ _ _ _ _ _ _ Hr) as (Hm & EB & ES).
  destruct (Hset (sample_vault cfg) [] 9 Hv Htee) as (st1 & st2 & ev' & st3 & _ & L2 & Hs & _).
  { exact (sample_round_ready (sample_vault cfg) 9 mr _ _ eq_refl eq_refl eq_refl eq_refl eq_refl (sample_nullifiers _ _ _ _ _ _ _ _ _ _ Hr EB ES) Hm). }
  exists out, (payload_u64 p), st1, st2, ev', st3, ed, settle. split; [exact Hout|]. split; [exact Hamt|]. split; [exact L2|exact Hs].
Defined.

Module SampleSettle.
Import SampleTrade.
Definition the_match : MatchResultRecord := hd no_match SampleRound.round_matches.
Definition payload : MatchResultPayload := trade_payload SampleRound.settle_ctx the_match (word x05) (word x06) (word x61) (word x62).

Lemma signed : ∃ h tx, @canonicalPayloadHash Toy.toy_crypto payload = Ok h ∧
  @settle_tx Toy.toy_crypto Toy.toy_web3 foreign_ix () SampleRound.settle_ctx payload h
    (@nacl_sign nacl h SampleRound.settle_ctx.(tc_tee).(kp_secretKey)) = Ok tx.
Proof. do 2 eexists. split; vm_compute; reflexivity. Qed.
End SampleSettle.

Lemma fair_match_settles_witness : ∃ tx st2 ev st3,
  @tee_forced_settle Toy.toy_crypto Toy.toy_Poseidon Toy.toy_web3 (SampleTrade.word x21) 9 tx 2 (payload_u64 SampleSettle.payload) st2
  = Ok (ev, st3).
Proof.
  destruct (@mirrored_runs Toy.toy_crypto Toy.toy_crypto_laws Toy.toy_Poseidon _ _ _ _ _ _ _ _ _ _
    (replicate 8 x09) SampleRound.pair_fits eq_refl) as (ev & slots' & br' & mr & Hrun & Hf & Hb & Hwf & _ & Honly).
  assert (Hbr : br' = SampleRound.results) by (unfold SampleRound.results; by rewrite Hrun). subst br'.
  destruct SampleRound.one_match as (mr' & Hone & _).
  assert (Hin : In mr' SampleRound.round_matches) by (rewrite Hone; by left).
  unfold SampleRound.round_matches in Hin. pose proof (proj1 (filter_In _ _ _) Hin) as [Hin' Hm].
  pose proof (Honly mr' Hin' Hm) as Heq.
  subst mr'.
  assert (Hthe : mr = SampleSettle.the_match) by (unfold SampleSettle.the_match; by rewrite Hone).
  destruct (@initialize_repr Toy.toy_Poseidon Toy.toy_poseidon_laws [] (SampleTrade.word x21) []) as (cfg & _ & Hv & Htee).
  destruct SampleSettle.signed as (h & tx & Hh & Htx). unfold SampleSettle.payload in *. rewrite <-Hthe in *.
  edestruct (@fair_match_settles Toy.toy_crypto Toy.toy_crypto_laws Toy.toy_Poseidon Toy.toy_poseidon_laws Toy.toy_web3
    SampleTrade.base58 SampleTrade.nacl SampleTrade.foreign_ix) with (tc := SampleRound.settle_ctx) (slot := 9) (mr := mr) (st := sample_vault cfg)
    as (st1 & st2 & ev' & st3 & _ & _ & Hs & _);
    [exact Hf|exact Hwf|reflexivity|rewrite Hb; reflexivity| | |exact Hv|exact Htee| |exact Hh|exact Htx|].
  - split; [reflexivity|vm_compute; reflexivity].
  - split; [reflexivity|vm_compute; reflexivity].
  - refine (sample_round_ready (sample_vault cfg) 9 mr (SampleTrade.word x61) (SampleTrade.word x62) eq_refl eq_refl eq_refl eq_refl eq_refl _ Hone).
    clear. vm_compute. congruence.
  - exists tx, st2, ev', st3. exact Hs.
Defined.
