(* ===== verification/Confirmed.v ===== *)
(** Which transactions a run confirms.  A node that logs every transaction it
    confirms gives each run an increment of that log; [confirms] says which
    signatures a computation may claim out of it.  The rules follow the monad, so
    that the requests of the demo are checked step by step. *)

From stdpp Require Import gmap.
From S2P Require Import Prelude Bytes Errors Externals Keys Note Borsh VaultClient VaultProgram MatchingEngineClient ErClient.
From S2P Require Import Settlement SettleProgram BatchResults Merkle MerkleShadow VaultTree Client Deposit VaultState.
From S2P Require Import LeafHistory DemoText DemoKeys DemoChain TradeSettle.

Local Open Scope Z_scope.

(** ** The rules *)

(** After signatures [pre], a run of [m] extends the log, and what it claims of its
    result is, in order, among [pre] and the extension. *)
Definition confirms {W A} (log : W → list string) (pre : list string) (m : M W A) (claim : A → list string) : Prop :=
  ∀ w r w', m w = (r, w') → ∃ mid, log w' = log w ++ mid ∧ ∀ a, r = Ok a → claim a `sublist_of` pre ++ mid.

(** The run only extends the log. *)
Notation quiet log m := (confirms log [] m (λ _, [])).

Create HintDb confirmed.

Section rules.
Context {W : Type} (log : W → list string).

Lemma confirms_ret {A} pre (a : A) claim : claim a `sublist_of` pre → confirms log pre (mret a) claim.
Proof. intros Hc w r w' [= <- <-]. exists []. rewrite !app_nil_r. split; [done|]. by intros ? [= <-]. Qed.

Lemma confirms_throw {A} pre e (claim : A → list string) : confirms log pre (throw e) claim.
Proof. intros w r w' [= <- <-]. exists []. rewrite app_nil_r. by split. Qed.

Lemma confirms_lift {A} pre (x : res A) claim :
  (∀ a, x = Ok a → claim a `sublist_of` pre) → confirms log pre (liftR x) claim.
Proof. intros Hc w r w' [= <- <-]. exists []. rewrite !app_nil_r. by split. Qed.

Lemma confirms_guard pre b e : confirms log pre (guard_throw b e) (λ _, []).
Proof. apply confirms_lift. intros. apply sublist_nil_l. Qed.

Lemma confirms_bind {A B} pre (m : M W A) (k : A → M W B) f claim :
  confirms log [] m f → (∀ a, confirms log (pre ++ f a) (k a) claim) → confirms log pre (m ≫= k) claim.
Proof.
  intros Hm Hk w r w' Hr. apply M_bind_inv in Hr as [(e & Hr & ->)|(a & w1 & Hr & Hr')].
  - destruct (Hm _ _ _ Hr) as (mid & Hl & _). exists mid. by split.
  - destruct (Hm _ _ _ Hr) as (mid & Hl & Hf). destruct (Hk a _ _ _ Hr') as (mid' & Hl' & Hc).
    exists (mid ++ mid'). split; [by rewrite Hl', Hl, (assoc_L (++))|]. intros b Hb. etrans; [by apply Hc|].
    rewrite <-(assoc_L (++)). apply sublist_app; [done|]. apply sublist_app; [by apply Hf|done].
Qed.

Lemma quiet_bind {A B} pre (m : M W A) (k : A → M W B) claim :
  quiet log m → (∀ a, confirms log pre (k a) claim) → confirms log pre (m ≫= k) claim.
Proof. intros Hm Hk. eapply confirms_bind; [exact Hm|]. intros a. rewrite app_nil_r. apply Hk. Qed.

Lemma quiet_catch {A} (m : M W A) h : quiet log m → (∀ e, quiet log (h e)) → quiet log (try_catch m h).
Proof.
  intros Hm Hh w r w' Hr. unfold try_catch in Hr. destruct (m w) as [[a|e] w1] eqn:Hmw.
  - injection Hr as <- <-. by eapply Hm.
  - destruct (Hm _ _ _ Hmw) as (mid & Hl & _), (Hh e _ _ _ Hr) as (mid' & Hl' & _). exists (mid ++ mid').
    split; [by rewrite Hl', Hl, (assoc_L (++))|]. intros. apply sublist_nil_l.
Qed.

Lemma confirms_quiet {A} pre (m : M W A) claim : confirms log pre m claim → quiet log m.
Proof. intros Hm w r w' Hr. destruct (Hm _ _ _ Hr) as (mid & Hl & _). exists mid. split; [done|]. intros. apply sublist_nil_l. Qed.

Lemma confirms_impl {A} pre (m : M W A) claim claim' :
  confirms log pre m claim → (∀ a, claim' a `sublist_of` claim a) → confirms log pre m claim'.
Proof.
  intros Hm Hc w r w' Hr. destruct (Hm _ _ _ Hr) as (mid & Hl & Ha). exists mid. split; [done|]. intros a Hra.
  etrans; [apply Hc|by apply Ha].
Qed.

Lemma quiet_weaken {A} pre (m : M W A) : quiet log m → confirms log pre m (λ _, []).
Proof. intros Hm w r w' Hr. destruct (Hm _ _ _ Hr) as (mid & Hl & _). exists mid. split; [done|]. intros. apply sublist_nil_l. Qed.

(** A node that logs: its answers leave the log alone or extend it, a confirmed
    transaction is there. *)
Record logging (conn : L1Connection W) : Prop := {
  lg_account : ∀ pda, quiet log (conn.(l1_getAccountInfo) pda);
  lg_send : ∀ ixs signers, confirms log [] (conn.(l1_send) ixs signers) (λ sig, [sig]);
  lg_slot : quiet log conn.(l1_getSlot);
  lg_balance : ∀ pda, quiet log (conn.(l1_getBalance) pda);
  lg_signatures : ∀ pda n before, quiet log (conn.(l1_history).(getSignaturesForAddress) pda n before);
  lg_transaction : ∀ sig, quiet log (conn.(l1_history).(getTransaction) sig) }.
End rules.

(** The world of an object around the world of the node. *)
Lemma confirms_outside {C W A} (log : W → list string) pre (m : M W A) claim :
  confirms log pre m claim → confirms (λ w : C * W, log w.2) pre (outside m) claim.
Proof.
  intros Hm w r w' Hr. unfold outside in Hr. destruct (m w.2) as [r1 s] eqn:Hmw. injection Hr as <- <-. by eapply Hm.
Qed.

#[export] Hint Resolve confirms_throw confirms_guard quiet_weaken confirms_outside : confirmed.

(** One step of a computation that claims nothing before its end. *)
Ltac confirm_step :=
  match goal with
  | |- confirms _ _ (mret _) _ => apply confirms_ret; first [apply sublist_nil_l | idtac]
  | |- confirms _ _ (throw _) _ => apply confirms_throw
  | |- confirms _ _ (liftR _) _ => apply confirms_lift; first [intros; apply sublist_nil_l | idtac]
  | |- confirms _ _ (guard_throw _ _) _ => apply confirms_guard
  | |- confirms _ _ (liftR _ ≫= _) _ => apply quiet_bind; [apply confirms_lift; intros; apply sublist_nil_l|intros ?]
  | |- confirms _ _ (guard_throw _ _ ≫= _) _ => apply quiet_bind; [apply confirms_guard|intros ?]
  | |- confirms _ _ (mret _ ≫= _) _ => apply quiet_bind; [apply confirms_ret, sublist_nil_l|intros ?]
  | |- confirms _ _ (_ ≫= _) _ => apply quiet_bind; [solve [eauto with confirmed]|intros ?]
  | |- confirms _ _ (match ?x with _ => _ end) _ => destruct x
  | |- confirms _ _ (try_catch _ _) _ => apply quiet_catch; [|intros ?]
  | |- confirms _ _ _ (λ _, []) => solve [eauto with confirmed]
  end.
Ltac confirm := repeat confirm_step.

(** ** The operations of the demo *)

Section demo.
Context `{NodeCrypto} `{Poseidon} `{Web3} `{Base58} `{Nacl} `{ForeignIx} {S : Type} (log : S → list string).
Implicit Types conn : L1Connection S.

Lemma account_quiet conn pda : logging log conn → quiet log (conn.(l1_getAccountInfo) pda).
Proof. intros Hl. apply Hl. Qed.
Lemma send_quiet conn ixs signers : logging log conn → quiet log (conn.(l1_send) ixs signers).
Proof. intros Hl. eapply confirms_quiet, Hl. Qed.
Lemma slot_quiet conn : logging log conn → quiet log conn.(l1_getSlot).
Proof. intros Hl. apply Hl. Qed.
Lemma balance_quiet conn pda : logging log conn → quiet log (conn.(l1_getBalance) pda).
Proof. intros Hl. apply Hl. Qed.
Lemma signatures_quiet conn pda n before : logging log conn → quiet log (conn.(l1_history).(getSignaturesForAddress) pda n before).
Proof. intros Hl. apply Hl. Qed.
Lemma transaction_quiet conn sig : logging log conn → quiet log (conn.(l1_history).(getTransaction) sig).
Proof. intros Hl. apply Hl. Qed.
#[local] Hint Resolve account_quiet send_quiet slot_quiet balance_quiet signatures_quiet transaction_quiet : confirmed.

Lemma delegated_quiet conn me mkt funder : logging log conn → quiet log (ensureMarketDelegatedOnL1 conn me mkt funder).
Proof. intros Hl. unfold ensureMarketDelegatedOnL1. confirm. Qed.

Lemma topUp_quiet conn funder to min : logging log conn → quiet log (topUpSol conn funder to min).
Proof. intros Hl. unfold topUpSol. confirm. Qed.

(** What [ensureZeroProtocolFee] returns is what it sent. *)
Lemma fee_confirms conn vault admin_ : logging log conn →
  confirms log [] (ensureZeroProtocolFee conn vault admin_) (λ o, option_list o.(zf_signature)).
Proof.
  intros Hl. unfold ensureZeroProtocolFee. confirm_step. confirm_step; [|confirm_step].
  do 2 confirm_step; [by apply confirms_ret|]. confirm_step.
  eapply confirms_bind; [by apply lg_send|]. intros sig. by apply confirms_ret.
Qed.

Lemma history_quiet conn vault target max : logging log conn → quiet log (collectVaultLeavesOrdered conn.(l1_history) vault target max).
Proof.
  intros Hl.
  assert (Hf : ∀ fuel cap before out, quiet log (fetch_loop conn.(l1_history) vault fuel cap before out)).
  { induction fuel as [|fuel IH]; intros cap before out; cbn [fetch_loop]; [apply confirms_throw|].
    confirm_step; [|confirm_step]. confirm_step. confirm_step; [confirm_step|]. cbv zeta. confirm_step; [confirm_step|]. apply IH. }
  assert (Hw : ∀ sig leaves cap, quiet log (walkTransactionOrdered conn.(l1_history) vault sig leaves cap))
    by (intros; unfold walkTransactionOrdered; confirm).
  assert (Hc : ∀ sigs leaves, quiet log (collect_loop conn.(l1_history) vault target sigs leaves)).
  { induction sigs as [|sig sigs IH]; intros leaves; cbn [collect_loop]; [confirm_step|]. confirm_step; [confirm_step|].
    apply quiet_bind; [apply Hw|]. intros ?. apply IH. }
  unfold collectVaultLeavesOrdered, fetchSignaturesPaginated. apply quiet_bind; [apply Hf|]. intros sigs. confirm_step.
  apply quiet_bind; [apply Hc|]. intros ?. confirm.
Qed.
#[local] Hint Resolve delegated_quiet topUp_quiet history_quiet : confirmed.

Lemma wait_quiet now get sleep fuel pda init t i :
  quiet log now → quiet log (get pda) → (∀ ms, quiet log (sleep ms)) →
  quiet log (waitForL1AccountChange now get sleep fuel pda init t i).
Proof.
  intros Hn Hg Hs. assert (Hloop : ∀ deadline tm iv, quiet log (wait_loop now get sleep fuel pda init tm iv deadline)).
  { intros deadline tm iv. induction fuel as [|n IH]; cbn [wait_loop]; [apply confirms_throw|]. confirm_step. confirm_step; [|confirm_step].
    confirm_step. confirm_step; [confirm_step; [confirm_step|]|]; (confirm_step; exact IH). }
  unfold waitForL1AccountChange. confirm_step. apply Hloop.
Qed.

(** The two signatures of a settlement run. *)
Lemma settle_confirms (ctx : TradeL1SettleContext S) : logging log ctx.(tc_l1) →
  confirms log [] (runTradeL1Settle ctx) (λ out, out.(tr_signatures).*2).
Proof.
  intros Hl. assert (Hd : ∀ pda e, quiet log (account_data ctx pda e)) by (intros; unfold account_data; confirm).
  assert (Hp : ∀ a b, quiet log (post_settle_check ctx a b)) by (intros; unfold post_settle_check; confirm).
  unfold runTradeL1Settle. apply quiet_bind; [apply Hd|intros ?]. confirm_step.
  apply quiet_bind; [confirm|intros mr]. confirm_step. apply quiet_bind; [apply Hd|intros ?].
  repeat match goal with |- confirms _ _ (liftR _ ≫= _) _ => confirm_step end.
  eapply confirms_bind; [by apply lg_send|intros lockSig]. confirm_step.
  eapply confirms_bind; [by apply lg_send|intros settleSig]. apply quiet_bind; [apply Hd|intros ?]. confirm_step.
  apply quiet_bind; [apply Hp|intros ?]. by apply confirms_ret.
Qed.

(** A client with a stored seed whose providers are those of a node: its deposit
    claims the receipt's signature. *)
Lemma seeded_deposit_confirms conn (client : DarkPoolClient S) seed store signers (params : DepositParams S) :
  logging log conn → params.(dp_callbacks) = None →
  client.(cl_seedMode) = csprng (mret (Some seed)) store → client.(cl_providers).(getAccountInfo) = conn.(l1_getAccountInfo) →
  client.(cl_providers).(sendAndConfirm) = (λ ixs, conn.(l1_send) ixs signers) →
  confirms (λ w : World S, log w.2) [] (getDepositFunction client params) (λ receipt, [receipt.(dr_signature)]).
Proof.
  intros Hl Hcb Hmode Hinfo Hsend.
  assert (Hkeys : quiet (λ w : World S, log w.2) (getResolvedKeys client)).
  { unfold getResolvedKeys. apply quiet_bind.
    - intros [c s] r w' Hr. unfold resolvedSeed_ in Hr. rewrite Hmode in Hr. exists []. rewrite app_nil_r. cbn [fst snd] in *.
      split; [|intros; apply sublist_nil_l]. destruct c as [sd|]; [by injection Hr as <- <-|].
      cbn in Hr. by injection Hr as <- <-.
    - intros ?. confirm. }
  unfold getDepositFunction. confirm_step. confirm_step. apply quiet_bind; [exact Hkeys|intros ?]. rewrite Hcb.
  assert (Hpre : ∀ step, quiet (λ w : World S, log w.2) (outside (run_pre (None : option (TransactionCallbacks S)) step)))
    by (intros; apply confirms_outside; change (run_pre None step) with (mret () : M S ()); confirm).
  apply quiet_bind; [apply Hpre|intros ?]. apply quiet_bind; [rewrite Hinfo; apply confirms_outside; by apply lg_account|intros ?].
  apply quiet_bind; [confirm|intros data]. do 2 confirm_step. apply quiet_bind; [apply Hpre|intros ?].
  repeat match goal with |- confirms _ _ (liftR _ ≫= _) _ => confirm_step end.
  apply quiet_bind; [apply Hpre|intros ?]. do 2 confirm_step. apply quiet_bind; [apply Hpre|intros ?].
  rewrite Hsend. eapply confirms_bind; [apply confirms_outside; by apply lg_send|intros sig].
  apply quiet_bind; [apply confirms_outside; change (run_post None ?a ?b) with (mret () : M S ()); confirm|intros ?]. by apply confirms_ret.
Qed.

(** The client of a persona. *)
Lemma persona_deposit_confirms conn random url vault me signer_ role (params : DepositParams S) :
  logging log conn → params.(dp_callbacks) = None →
  confirms (λ w : World S, log w.2) []
    (getDepositFunction (makePersonaDarkPoolClient conn random url vault me signer_ role) params)
    (λ receipt, [receipt.(dr_signature)]).
Proof. intros Hl Hcb. by eapply (seeded_deposit_confirms conn). Qed.
End demo.

#[export] Hint Resolve account_quiet send_quiet slot_quiet balance_quiet delegated_quiet topUp_quiet : confirmed.
