(* ===== verification/OrderRoutes.v ===== *)
(** The handlers behind the demo's trade flow ([apps/demo/src/app/api/dapp]):
    [init-slot] finds and prepares an order slot, [build-submit-order] builds the
    user's order, [counter-and-match] answers it with a mirrored order of the
    demo's maker, runs the batch and settles the match.  The theorems say that the
    slot they pick is one the matching engine takes, that the counter order
    mirrors the user's, and that the signatures they report were confirmed. *)

From stdpp Require Import gmap.
From S2P Require Import Prelude Bytes Errors Externals Keys Note Borsh VaultClient VaultProgram MatchingEngineClient ErClient MatchingProgram.
From S2P Require Import Settlement SettleProgram BatchResults Merkle MerkleShadow VaultTree Client Deposit VaultState.
From S2P Require Import Withdraw Session Orders DecimalText LeafHistory Decimals DemoText DemoKeys DemoChain Auction RunBatch Routes WalletRoutes TradeSettle Confirmed.

Local Open Scope Z_scope.

(** ** Keys and the server *)

(** [Keypair.fromSecretKey] and [Keypair.fromSeed] of web3.js, and
    [nacl.sign.keyPair.fromSeed(seed).secretKey]. *)
Class KeyOps := {
  Keypair_fromSecretKey : bytes → res Keypair;
  Keypair_fromSeed : bytes → res Keypair;
  keyPair_fromSeed_secretKey : bytes → res bytes;
}.

Record DemoKeyring := { kr_admin : Keypair; kr_funder : Keypair; kr_tee : Keypair; kr_maker : Keypair }.

(** The server of these routes: [loadDemoKeyring], [randomBytes] of
    [node:crypto], [setTimeout], and [Number(text)] on the text of an integer. *)
Record OrderServer (S : Type) := {
  os_server : DemoServer S;
  os_keyring : M S DemoKeyring;
  os_randomBytes : nat → M S bytes;
  os_sleep : Z → M S ();
  os_Number : string → Z;
}.
Arguments os_server {S}.
Arguments os_keyring {S}.
Arguments os_randomBytes {S}.
Arguments os_sleep {S}.
Arguments os_Number {S}.

(** ** Slots *)

Definition PENDING_ORDER_STATUS_OFFSET : nat := 8 + 32 + 32.
Definition PENDING_STATUS_EMPTY : Z := 0.
Definition PENDING_STATUS_MATCHED : Z := 2.
Definition PENDING_STATUS_EXPIRED : Z := 3.
Definition PENDING_STATUS_CANCELLED : Z := 4.

Definition isReusablePendingOrderStatus (status : Z) : bool :=
  (status =? PENDING_STATUS_EMPTY) || (status =? PENDING_STATUS_MATCHED) || (status =? PENDING_STATUS_EXPIRED)
  || (status =? PENDING_STATUS_CANCELLED).

Record SlotPick := { sp_slotIdx : Z; sp_needsInit : bool }.

(** [data && data.length > OFFSET && isReusable(data[OFFSET] ?? -1)] *)
Definition reusable_data (data : option bytes) : bool :=
  match data with
  | Some data =>
      (PENDING_ORDER_STATUS_OFFSET <? length data)%nat
      && isReusablePendingOrderStatus (from_option u8_val (-1) (data !! PENDING_ORDER_STATUS_OFFSET))
  | None => false
  end.

Section slots.
Context `{NodeCrypto} `{Web3} {S : Type} (l1 er : L1Connection S) (meProgramId market tradingKey : PublicKey).

(** The data that tells the slot's status: of the rollup once it is delegated. *)
Definition live_data (pda : PublicKey) (l1info : AccountInfo) : M S (option bytes) :=
  if bool_decide (l1info.(ai_owner) = DELEGATION_PROGRAM_ID)
  then (info ← er.(l1_getAccountInfo) pda; mret (ai_data <$> info))
  else mret (Some l1info.(ai_data)).

Fixpoint choose_loop (full : exn) (todo : list Z) (firstReusable : option Z) : M S SlotPick :=
  match todo with
  | [] => match firstReusable with
          | Some idx => mret {| sp_slotIdx := idx; sp_needsInit := false |}
          | None => throw full
          end
  | idx :: todo =>
      pda_ ← liftR (pendingOrderPda meProgramId market tradingKey idx);
      let pda := pda_.1 in
      l1info ← l1.(l1_getAccountInfo) pda;
      match l1info with
      | None => mret {| sp_slotIdx := idx; sp_needsInit := true |}
      | Some l1info =>
          match firstReusable with
          | Some _ => choose_loop full todo firstReusable
          | None =>
              data ← live_data pda l1info;
              choose_loop full todo (if reusable_data data then Some idx else None)
          end
      end
  end.

(** The two routes word the error for their reader. *)
Definition init_slot_full : exn :=
  Error "All 4 pending-order slots for this trading key still have live Pending orders. Wait for an outstanding order to settle or use a fresh wallet for the demo.".
Definition maker_full : exn :=
  Error "Maker has all 4 pending-order slots with live orders. Wait for outstanding maker orders to clear or rotate the demo maker keypair.".

Definition slot_indices : list Z := [0; 1; 2; 3].
Definition chooseFreshSlot : M S SlotPick := choose_loop init_slot_full slot_indices None.
Definition maker_chooseFreshSlot : M S SlotPick := choose_loop maker_full slot_indices None.

Definition ensureSlotDelegated (funder trading : Keypair) (slotIdx : Z) (needsInit : bool) : M S () :=
  slotPda_ ← liftR (pendingOrderPda meProgramId market trading.(kp_publicKey) slotIdx);
  let slotPda := slotPda_.1 in
  info ← l1.(l1_getAccountInfo) slotPda;
  info ← (match info with
          | None => if needsInit then
                      ix ← liftR (buildInitPendingOrderSlotInstruction
                             {| is_programId := meProgramId; is_tradingKey := trading.(kp_publicKey);
                                is_market := market; is_slotIdx := slotIdx |});
                      _ ← l1.(l1_send) [ix] [trading];
                      l1.(l1_getAccountInfo) slotPda
                    else mret None
          | Some info => mret (Some info)
          end);
  match info with
  | None => throw (Error "pending order slot missing after init")
  | Some info =>
      if bool_decide (info.(ai_owner) = DELEGATION_PROGRAM_ID) then mret ()
      else
        ix ← liftR (buildDelegatePendingOrderInstruction
               {| dp_programId := meProgramId; dp_payer := funder.(kp_publicKey);
                  dp_tradingKey := trading.(kp_publicKey); dp_market := market; dp_slotIdx := slotIdx |});
        _ ← l1.(l1_send) [ix] [funder; trading];
        mret ()
  end.
End slots.

(** ** The session's trading key *)

Section routes.
Context `{NodeCrypto} `{Poseidon} `{Web3} `{Base58} `{Nacl} `{ForeignIx} `{KeyOps} {S : Type}.
Implicit Types server : OrderServer S.

(** The seed behind the wallet's signature, the trading key the request carries
    and whether it is the one derived from the seed. *)
Definition trading_session (phantomSignature ownerPubkey tradingSecretKey : string) : res (bytes * Keypair * bool) :=
  verified ← verifyPhantomSeedSignature phantomSignature ownerPubkey;
  let seed := verified.(vf_seed) in
  secret ← bs58_decode tradingSecretKey;
  trading ← Keypair_fromSecretKey secret;
  expectedSeed ← deriveTradingKeyAtOffset seed 0;
  expectedSecret ← keyPair_fromSeed_secretKey expectedSeed;
  expected ← Keypair_fromSecretKey expectedSecret;
  Ok (seed, trading, bool_decide (expected.(kp_publicKey) = trading.(kp_publicKey))).

(** ** [init-slot] *)

Record InitSlotBody := {
  ib_phantomSignatureBase58 : option string; ib_ownerPubkeyBase58 : option string;
  ib_tradingSecretKeyBase58 : option string }.
Record InitSlotAnswer := { isa_slotIdx : Z; isa_reusedExisting : bool; isa_tradingPubkey : string }.

Definition init_slot server (req : res InitSlotBody) : M S (Answer InitSlotAnswer) :=
  route (
    body ← liftR req;
    match present [body.(ib_phantomSignatureBase58); body.(ib_ownerPubkeyBase58); body.(ib_tradingSecretKeyBase58)] with
    | Some [phantomSignature; ownerPubkey; tradingSecretKey] =>
        '(_, trading, same) ← liftR (trading_session phantomSignature ownerPubkey tradingSecretKey);
        if negb same then mret (bad_request "trading key does not match Phantom-derived session") else
        '(connections, programs) ← demo_setup server.(os_server);
        keyring ← server.(os_keyring);
        let l1 := connections.(dc_l1) in
        let funder := keyring.(kr_funder) in
        _ ← ensureMarketDelegatedOnL1 l1 programs.(meProgramId) programs.(market) funder;
        pick ← chooseFreshSlot l1 connections.(dc_er) programs.(meProgramId) programs.(market) trading.(kp_publicKey);
        _ ← topUpSol l1 funder trading.(kp_publicKey) None;
        _ ← ensureSlotDelegated l1 programs.(meProgramId) programs.(market) funder trading pick.(sp_slotIdx) pick.(sp_needsInit);
        mret (Sent {| isa_slotIdx := pick.(sp_slotIdx); isa_reusedExisting := negb pick.(sp_needsInit);
                      isa_tradingPubkey := toBase58 trading.(kp_publicKey) |})
    | _ => mret (bad_request "missing session fields")
    end).

(** ** [build-submit-order] *)

Record SubmitBody := {
  sb_phantomSignatureBase58 : option string; sb_ownerPubkeyBase58 : option string;
  sb_tradingSecretKeyBase58 : option string; sb_slotIdx : option Z; sb_side : option Z; sb_amount : option string;
  sb_priceLimit : option string; sb_noteAmount : option string; sb_expirySlot : option string;
  sb_noteCommitmentHex : option string; sb_userOwnerCommitmentHex : option string; sb_orderIdHex : option string }.
Record SubmitAnswer := { sba_instruction : InstructionJson; sba_pendingOrderPda : string }.

Definition submit_fields (body : SubmitBody) : option (list string) :=
  present [body.(sb_phantomSignatureBase58); body.(sb_ownerPubkeyBase58); body.(sb_tradingSecretKeyBase58);
           body.(sb_amount); body.(sb_priceLimit); body.(sb_noteAmount); body.(sb_noteCommitmentHex);
           body.(sb_userOwnerCommitmentHex); body.(sb_orderIdHex)].

Definition build_submit_order server (req : res SubmitBody) : M S (Answer SubmitAnswer) :=
  route (
    body ← liftR req;
    match submit_fields body, body.(sb_slotIdx), body.(sb_side) with
    | Some [phantomSignature; ownerPubkey; tradingSecretKey; amountText; priceText; noteAmountText; noteCommitmentHex;
            userOwnerCommitmentHex; orderIdHex], Some slotIdx, Some side =>
        '(_, trading, same) ← liftR (trading_session phantomSignature ownerPubkey tradingSecretKey);
        if negb same then mret (bad_request "trading key mismatch") else
        '(_, programs) ← demo_setup server.(os_server);
        let orderId := hexToBytes orderIdHex in
        if negb (length orderId =? 16)%nat then mret (bad_request "orderIdHex must be 16 bytes (32 hex chars)") else
        expirySlot ← liftR (match body.(sb_expirySlot) with Some text => BigInt text | None => Ok 0 end);
        if expirySlot =? 0 then mret (bad_request "expirySlot required (use current slot + buffer)") else
        amount ← liftR (BigInt amountText);
        priceLimit ← liftR (BigInt priceText);
        noteAmount ← liftR (BigInt noteAmountText);
        built ← liftR (buildSubmitOrderInstruction
                  {| so_programId := programs.(meProgramId); so_tradingKey := trading.(kp_publicKey);
                     so_market := programs.(market); so_slotIdx := slotIdx; so_side := side; so_amount := amount;
                     so_priceLimit := priceLimit; so_noteAmount := noteAmount; so_expirySlot := expirySlot;
                     so_orderId := orderId; so_noteCommitment := hexToBytes noteCommitmentHex;
                     so_userCommitment := hexToBytes userOwnerCommitmentHex; so_orderType := None; so_minFillQty := None |});
        mret (Sent {| sba_instruction := instructionToJson built.(submit_ix);
                      sba_pendingOrderPda := toBase58 built.(pendingOrderPda_) |})
    | _, _, _ => mret (bad_request "missing required fields")
    end).
End routes.

(** ** [counter-and-match] *)

Record SignatureItem := { si_label : string; si_signature : string; si_cluster : string }.

Record MatchBody := {
  mb_phantomSignatureBase58 : option string; mb_ownerPubkeyBase58 : option string;
  mb_tradingSecretKeyBase58 : option string; mb_userSlotIdx : option Z; mb_userSide : option Z;
  mb_userAmount : option string; mb_userPriceLimit : option string; mb_userNoteAmount : option string;
  mb_userNoteCommitmentHex : option string; mb_userOwnerCommitmentHex : option string;
  mb_userOrderIdHex : option string; mb_userExpirySlot : option string }.

Record MatchAnswer := {
  ma_signatures : list SignatureItem; ma_slotIdx : Z; ma_orderIdHex : string; ma_noteCommitmentHex : string;
  ma_tradeWithdrawBuyerBase : BuyerBaseNote }.

(** An answer; the one of the catch block carries the signatures so far. *)
Inductive CounterAnswer :=
  | Counter_sent (a : MatchAnswer)
  | Counter_refused (status : Z) (error : string) (signatures : option (list SignatureItem)).

Definition match_fields (body : MatchBody) : option (list string) :=
  present [body.(mb_phantomSignatureBase58); body.(mb_ownerPubkeyBase58); body.(mb_tradingSecretKeyBase58);
           body.(mb_userAmount); body.(mb_userPriceLimit); body.(mb_userNoteAmount); body.(mb_userNoteCommitmentHex);
           body.(mb_userOwnerCommitmentHex); body.(mb_userOrderIdHex)].

Definition MAX_SAFE_INTEGER : Z := 2 ^ 53 - 1.
Definition WAIT_FUEL : nat := 91.

Section counter.
Context `{NodeCrypto} `{Poseidon} `{Web3} `{Base58} `{Nacl} `{ForeignIx} `{KeyOps} {S : Type}.
Implicit Types server : OrderServer S.

(** The handler's [signatures] array and the world. *)
Definition Reporting (A : Type) : Type := M (list SignatureItem * S) A.
Definition push (label signature cluster : string) : Reporting () := λ w,
  (Ok (), (w.1 ++ [{| si_label := label; si_signature := signature; si_cluster := cluster |}], w.2)).
Definition push_all (items : list SignatureItem) : Reporting () := λ w, (Ok (), (w.1 ++ items, w.2)).
Definition reported : Reporting (list SignatureItem) := λ w, (Ok w.1, w).

(** [sendAndConfirmTransaction], then [signatures.push]. *)
Definition send_reported (conn : L1Connection S) (cluster label : string) (ixs : list TransactionInstruction)
    (signers : list Keypair) : Reporting () :=
  sig ← outside (conn.(l1_send) ixs signers); push label sig cluster.

(** A new client: nothing cached. *)
Definition with_new_client {A} (m : M (World S) A) : M S A := λ s, let '(r, w) := m (None, s) in (r, w.2).

Record DemoContext := {
  x_server : OrderServer S; x_connections : DemoConnections S; x_programs : DemoPrograms; x_keys : DemoKeyring }.
Implicit Types x : DemoContext.

(** [mintUi] *)
Definition mint_amount server : Z :=
  Z.min (server.(os_Number) (default "200000000000" (server.(os_server).(ds_env) "DEMO_COUNTERPARTY_MINT_UI"))) MAX_SAFE_INTEGER.

Definition mint_counterparty x (makerBaseAta makerQuoteAta : PublicKey) : Reporting () :=
  let p := x.(x_programs) in
  let admin := x.(x_keys).(kr_admin) in
  let maker := x.(x_keys).(kr_maker) in
  let mintUi := mint_amount x.(x_server) in
  send_reported x.(x_connections).(dc_l1) "l1" "counterparty mint"
    [createAssociatedTokenAccountIdempotent admin.(kp_publicKey) makerBaseAta maker.(kp_publicKey) p.(baseMint);
     createAssociatedTokenAccountIdempotent admin.(kp_publicKey) makerQuoteAta maker.(kp_publicKey) p.(quoteMint);
     createMintTo p.(baseMint) makerBaseAta admin.(kp_publicKey) mintUi;
     createMintTo p.(quoteMint) makerQuoteAta admin.(kp_publicKey) mintUi] [admin].

(** The amount the maker deposits: three times what the order needs. *)
Definition deposit_amount server (userBidsBase : bool) (userAmount : string) : res Z :=
  quotePerBase ← BigInt (default "100" (server.(os_server).(ds_env) "DEMO_EXCHANGE_QUOTE_PER_BASE"));
  amount ← BigInt userAmount;
  Ok (if userBidsBase then amount * 3 else amount * quotePerBase * 3).

Definition maker_deposit x (userBidsBase : bool) (makerBaseAta makerQuoteAta : PublicKey) (userAmount : string)
    : Reporting (Z * DepositReceipt) :=
  let p := x.(x_programs) in
  let l1 := x.(x_connections).(dc_l1) in
  let maker := x.(x_keys).(kr_maker) in
  let makerClient := makePersonaDarkPoolClient l1 x.(x_server).(os_randomBytes) x.(x_connections).(dc_erRpcUrl)
                       p.(vaultProgramId) p.(meProgramId) maker "maker" in
  now ← outside x.(x_server).(os_server).(ds_now);
  depAmount ← liftR (deposit_amount x.(x_server) userBidsBase userAmount);
  makerReceipt ← outside (with_new_client (getDepositFunction makerClient
    {| dp_depositor := maker.(kp_publicKey);
       dp_tokenMint := toBytes (if userBidsBase then p.(baseMint) else p.(quoteMint)); dp_amount := depAmount;
       dp_depositorTokenAccount := if userBidsBase then makerBaseAta else makerQuoteAta; dp_nonce := now + 888888;
       dp_tokenProgramId := None; dp_callbacks := None |}));
  _ ← push "counterparty deposit" makerReceipt.(dr_signature) "l1";
  mret (depAmount, makerReceipt).

(** The maker's slot, initialised and delegated. *)
Definition maker_slot x : Reporting Z :=
  let p := x.(x_programs) in
  let l1 := x.(x_connections).(dc_l1) in
  let maker := x.(x_keys).(kr_maker) in
  let funder := x.(x_keys).(kr_funder) in
  makerPick ← outside (maker_chooseFreshSlot l1 x.(x_connections).(dc_er) p.(meProgramId) p.(market) maker.(kp_publicKey));
  let makerSlot := makerPick.(sp_slotIdx) in
  slotPda_ ← liftR (pendingOrderPda p.(meProgramId) p.(market) maker.(kp_publicKey) makerSlot);
  let slotPda := slotPda_.1 in
  info ← outside (l1.(l1_getAccountInfo) slotPda);
  info ← (match info with
          | None => if makerPick.(sp_needsInit) then
                      ix ← liftR (buildInitPendingOrderSlotInstruction
                             {| is_programId := p.(meProgramId); is_tradingKey := maker.(kp_publicKey);
                                is_market := p.(market); is_slotIdx := makerSlot |});
                      _ ← send_reported l1 "l1" "maker init slot" [ix] [maker];
                      outside (l1.(l1_getAccountInfo) slotPda)
                    else mret None
          | Some info => mret (Some info)
          end);
  match info with
  | None => throw (Error "maker slot missing")
  | Some info =>
      _ ← (if bool_decide (info.(ai_owner) = DELEGATION_PROGRAM_ID) then mret ()
           else ix ← liftR (buildDelegatePendingOrderInstruction
                       {| dp_programId := p.(meProgramId); dp_payer := funder.(kp_publicKey);
                          dp_tradingKey := maker.(kp_publicKey); dp_market := p.(market); dp_slotIdx := makerSlot |});
                send_reported l1 "l1" "maker delegate slot" [ix] [funder; maker]);
      mret makerSlot
  end.

(** [if (orderId.every((b) => b === 0)) orderId[0] = 1;] *)
Definition nonzero_id (orderId : bytes) : bytes :=
  if forallb (λ b, bool_decide (b = x00)) orderId then <[0%nat := x01]> orderId else orderId.

(** The order the maker sends, and its id and expiry. *)
Record MakerOrder := { mo_params : BuildSubmitOrderParams; mo_orderId : bytes; mo_expiry : Z }.

Definition maker_order_params x (body_side amount price depAmount expiry makerSlot : Z) (orderId : bytes) (receipt : DepositReceipt)
    : res BuildSubmitOrderParams :=
  makerOwnerCommitBytes ← bn254ToBE32 receipt.(dr_notePlaintext).(ownerCommitment_);
  Ok {| so_programId := x.(x_programs).(meProgramId); so_tradingKey := x.(x_keys).(kr_maker).(kp_publicKey);
        so_market := x.(x_programs).(market); so_slotIdx := makerSlot; so_side := if body_side =? 0 then 1 else 0;
        so_amount := amount; so_priceLimit := price; so_noteAmount := depAmount; so_expirySlot := expiry;
        so_orderId := orderId; so_noteCommitment := receipt.(dr_noteCommitment); so_userCommitment := makerOwnerCommitBytes;
        so_orderType := None; so_minFillQty := None |}.

(** The mirrored order, sent to the rollup. *)
Definition maker_submit x (userSide : Z) (userAmount userPriceLimit : string) (depAmount makerSlot : Z)
    (receipt : DepositReceipt) : Reporting MakerOrder :=
  makerAmount ← liftR (BigInt userAmount);
  makerPrice ← liftR (BigInt userPriceLimit);
  now ← outside x.(x_connections).(dc_l1).(l1_getSlot);
  let expiry := now + 500 in
  random ← outside (x.(x_server).(os_randomBytes) 16);
  let orderId := nonzero_id random in
  params ← liftR (maker_order_params x userSide makerAmount makerPrice depAmount expiry makerSlot orderId receipt);
  built ← liftR (buildSubmitOrderInstruction params);
  _ ← send_reported x.(x_connections).(dc_er) "er" "counterparty submit_order (PER)" [built.(submit_ix)] [x.(x_keys).(kr_maker)];
  mret {| mo_params := params; mo_orderId := orderId; mo_expiry := expiry |}.

(** [run_batch] over the two slots, [undelegate_market], and the wait for the
    account of the results to change on L1. *)
Definition run_and_undelegate x (userTrading : PublicKey) (userSlotIdx makerSlot : Z) : Reporting PublicKey :=
  let p := x.(x_programs) in
  let l1 := x.(x_connections).(dc_l1) in
  let er := x.(x_connections).(dc_er) in
  userPda ← liftR (pendingOrderPda p.(meProgramId) p.(market) userTrading userSlotIdx);
  makerPda ← liftR (pendingOrderPda p.(meProgramId) p.(market) x.(x_keys).(kr_maker).(kp_publicKey) makerSlot);
  let batchPda := (batchResultsPda p.(meProgramId) p.(market)).1 in
  preBatch ← outside (l1.(l1_getAccountInfo) batchPda);
  _ ← send_reported er "er" "run_batch"
        [buildRunBatchInstruction
           {| rb_programId := p.(meProgramId); rb_vaultProgramId := p.(vaultProgramId);
              rb_teeAuthority := x.(x_keys).(kr_tee).(kp_publicKey); rb_market := p.(market);
              rb_pythAccount := p.(pythAccount); pendingOrderPdas := [userPda.1; makerPda.1] |}] [x.(x_keys).(kr_tee)];
  _ ← send_reported er "er" "undelegate_market"
        [buildUndelegateMarketInstruction
           {| cm_programId := p.(meProgramId); cm_payer := x.(x_keys).(kr_funder).(kp_publicKey); cm_market := p.(market) |}]
        [x.(x_keys).(kr_funder)];
  _ ← outside (waitForL1AccountChange x.(x_server).(os_server).(ds_now)
                 (λ pda, info ← l1.(l1_getAccountInfo) pda; mret (ai_data <$> info)) x.(x_server).(os_sleep) WAIT_FUEL batchPda
                 (ai_data <$> preBatch) (Some 90000) (Some 1000));
  mret batchPda.

Definition settle_context x (batchPda : PublicKey) (seed userNote userOrderId : bytes) (userExpirySlot : Z)
    (receipt : DepositReceipt) (order : MakerOrder) : TradeL1SettleContext S :=
  let p := x.(x_programs) in
  {| tc_l1 := x.(x_connections).(dc_l1); tc_vaultProgramId := p.(vaultProgramId); tc_baseMint := p.(baseMint);
     tc_quoteMint := p.(quoteMint); tc_batchPda := batchPda; tc_tee := x.(x_keys).(kr_tee);
     tc_maker := x.(x_keys).(kr_maker); tc_userMasterSeed := seed; tc_userQuoteNoteCommitment := userNote;
     tc_userOrderId := userOrderId; tc_userExpirySlot := userExpirySlot;
     tc_makerNoteCommitment := receipt.(dr_noteCommitment); tc_makerOrderId := order.(mo_orderId);
     tc_makerExpirySlot := order.(mo_expiry) |}.

(** The checks of the user's ids, the settlement and the answer. *)
Definition settle_and_answer x (batchPda : PublicKey) (seed : bytes) (userNoteCommitmentHex userOrderIdHex userExpirySlot : string)
    (makerSlot : Z) (receipt : DepositReceipt) (order : MakerOrder) : Reporting CounterAnswer :=
  let userOrderBytes := hexToBytes userOrderIdHex in
  if negb (length userOrderBytes =? 16)%nat then
    mret (Counter_refused 400 "userOrderIdHex must be 32 hex chars (16 bytes)" None) else
  let userNoteBuyer := hexToBytes userNoteCommitmentHex in
  if negb (length userNoteBuyer =? 32)%nat then mret (Counter_refused 400 "bad userNoteCommitmentHex" None) else
  expiry ← liftR (BigInt userExpirySlot);
  settleOutcome ← outside (runTradeL1Settle (settle_context x batchPda seed userNoteBuyer userOrderBytes expiry receipt order));
  _ ← push_all ((λ ls, {| si_label := ls.1; si_signature := ls.2; si_cluster := "l1" |}) <$> settleOutcome.(tr_signatures));
  signatures ← reported;
  mret (Counter_sent
    {| ma_signatures := signatures; ma_slotIdx := makerSlot; ma_orderIdHex := toHex order.(mo_orderId);
       ma_noteCommitmentHex := toHex receipt.(dr_noteCommitment);
       ma_tradeWithdrawBuyerBase := settleOutcome.(tr_buyerBaseNote) |}).

(** The trade, once the session is checked. *)
Definition counter_trade x (seed : bytes) (userTrading : PublicKey) (userSlotIdx userSide : Z)
    (userAmount userPriceLimit userNoteCommitmentHex userOrderIdHex userExpirySlot : string) : Reporting CounterAnswer :=
  let p := x.(x_programs) in
  let k := x.(x_keys) in
  let l1 := x.(x_connections).(dc_l1) in
  _ ← outside (ensureMarketDelegatedOnL1 l1 p.(meProgramId) p.(market) k.(kr_funder));
  _ ← outside (topUpSol l1 k.(kr_funder) k.(kr_maker).(kp_publicKey) None);
  _ ← outside (topUpSol l1 k.(kr_funder) k.(kr_admin).(kp_publicKey) None);
  feeOutcome ← outside (ensureZeroProtocolFee l1 p.(vaultProgramId) k.(kr_admin));
  _ ← (match (if feeOutcome.(zeroed) then truthy feeOutcome.(zf_signature) else None) with
       | Some sig => push "protocol fees set to 0 for this demo" sig "l1"
       | None => mret ()
       end);
  makerBaseAta ← liftR (getAssociatedTokenAddress p.(baseMint) k.(kr_maker).(kp_publicKey));
  makerQuoteAta ← liftR (getAssociatedTokenAddress p.(quoteMint) k.(kr_maker).(kp_publicKey));
  _ ← mint_counterparty x makerBaseAta makerQuoteAta;
  '(depAmount, makerReceipt) ← maker_deposit x (userSide =? 0) makerBaseAta makerQuoteAta userAmount;
  makerSlot ← maker_slot x;
  order ← maker_submit x userSide userAmount userPriceLimit depAmount makerSlot makerReceipt;
  batchPda ← run_and_undelegate x userTrading userSlotIdx makerSlot;
  settle_and_answer x batchPda seed userNoteCommitmentHex userOrderIdHex userExpirySlot makerSlot makerReceipt order.

Definition counter_and_match_body server (req : res MatchBody) : Reporting CounterAnswer :=
  body ← liftR req;
  match match_fields body, body.(mb_userSlotIdx), body.(mb_userSide), body.(mb_userExpirySlot) with
  | Some [phantomSignature; ownerPubkey; tradingSecretKey; userAmount; userPriceLimit; _; userNoteCommitmentHex; _;
          userOrderIdHex], Some userSlotIdx, Some userSide, Some userExpirySlot =>
      '(seed, userTrading, same) ← liftR (trading_session phantomSignature ownerPubkey tradingSecretKey);
      if negb same then mret (Counter_refused 400 "trading key mismatch" None) else
      '(connections, programs) ← outside (demo_setup server.(os_server));
      keyring ← outside server.(os_keyring);
      counter_trade {| x_server := server; x_connections := connections; x_programs := programs; x_keys := keyring |}
        seed userTrading.(kp_publicKey) userSlotIdx userSide userAmount userPriceLimit userNoteCommitmentHex userOrderIdHex
        userExpirySlot
  | _, _, _, _ =>
      mret (Counter_refused 400 "missing counter-and-match fields (need userOrderIdHex + userExpirySlot for L1 settle)" None)
  end.

Definition counter_and_match server (req : res MatchBody) : M S CounterAnswer := λ s,
  let '(r, w) := try_catch (counter_and_match_body server req)
                   (λ e, signatures ← reported; mret (Counter_refused 500 (exn_message e) (Some signatures))) ([], s) in
  (r, w.2).
End counter.
Arguments DemoContext S : clear implicits.
Arguments Reporting S A : clear implicits.

(** ** The account of an order slot

    [PendingOrder] is zero-copy ([programs/matching_engine/src/state/pending_order.rs]). *)

Definition status_byte (status : PendingStatus) : byte :=
  match status with EMPTY => x00 | PENDING => x01 | MATCHED => x02 | EXPIRED => x03 | CANCELLED => x04 end.

Definition pending_order_account (disc : bytes) (bump : byte) (slot : PendingOrder) : bytes :=
  concat [disc; slot.(po_trading_key); slot.(po_market); [status_byte slot.(po_status)];
          [u8_of_Z slot.(po_side)]; [u8_of_Z slot.(po_order_type)]; [u8_of_Z slot.(po_slot_idx)]; [bump]; replicate 3 x00;
          le_bytes 8 slot.(po_arrival_slot); le_bytes 8 slot.(po_expiry_slot); le_bytes 8 slot.(po_price_limit);
          le_bytes 8 slot.(po_amount); le_bytes 8 slot.(po_total_quantity); le_bytes 8 slot.(po_filled_quantity);
          le_bytes 8 slot.(po_min_fill_qty); le_bytes 8 slot.(po_note_amount); slot.(po_collateral_note);
          slot.(po_user_commitment); slot.(po_order_id); replicate 8 x00; slot.(po_order_inclusion_commitment)].

Lemma reusable_account disc bump slot :
  length disc = 8%nat → length slot.(po_trading_key) = 32%nat → length slot.(po_market) = 32%nat →
  reusable_data (Some (pending_order_account disc bump slot)) = negb (bool_decide (slot.(po_status) = PENDING)).
Proof.
  intros Hd Hk Hm. unfold pending_order_account. cbn [concat].
  assert (Hat : ∀ rest, (disc ++ slot.(po_trading_key) ++ slot.(po_market) ++ [status_byte slot.(po_status)] ++ rest)
    !! PENDING_ORDER_STATUS_OFFSET = Some (status_byte slot.(po_status))).
  { intros rest. rewrite (lookup_app_at _ _ _ 8), (lookup_app_at _ _ _ 32), (lookup_app_at _ _ _ 32)
      by (done || (unfold PENDING_ORDER_STATUS_OFFSET; lia)). done. }
  unfold reusable_data. rewrite Hat. cbn [from_option].
  rewrite (proj2 (Nat.ltb_lt _ _)) by (rewrite !length_app, Hd, Hk, Hm; unfold PENDING_ORDER_STATUS_OFFSET; cbn [length]; lia).
  by destruct (po_status slot).
Qed.

(** ** The choice of a slot *)

Section choice.
Context `{NodeCrypto} `{Web3} {S : Type} (l1 er : L1Connection S) (me mkt tk : PublicKey).

(** What the two nodes show of slot [idx], when its order is [o]: the account is
    on L1 with its own data, or delegated, with the data of the rollup. *)
Definition shows (idx : Z) (o : option PendingOrder) : Prop :=
  ∃ pda bump, pendingOrderPda me mkt tk idx = Ok (pda, bump) ∧
  match o with
  | None => ∀ s, l1.(l1_getAccountInfo) pda s = (Ok None, s)
  | Some slot =>
      length slot.(po_trading_key) = 32%nat ∧ length slot.(po_market) = 32%nat ∧
      ∃ disc b info, length disc = 8%nat ∧ (∀ s, l1.(l1_getAccountInfo) pda s = (Ok (Some info), s)) ∧
        if bool_decide (info.(ai_owner) = DELEGATION_PROGRAM_ID)
        then ∃ e, (∀ s, er.(l1_getAccountInfo) pda s = (Ok (Some e), s)) ∧ e.(ai_data) = pending_order_account disc b slot
        else info.(ai_data) = pending_order_account disc b slot
  end.

Definition missing (o : option PendingOrder) : bool := match o with Some _ => false | None => true end.
Definition free (o : option PendingOrder) : bool :=
  match o with Some slot => negb (bool_decide (slot.(po_status) = PENDING)) | None => false end.

(** The choice, on the slots themselves. *)
Definition pick_of (live : Z → option PendingOrder) (full : exn) (todo : list Z) (reuse : option Z) : res SlotPick :=
  match List.find (λ i, missing (live i)) todo with
  | Some i => Ok {| sp_slotIdx := i; sp_needsInit := true |}
  | None =>
      match (match reuse with Some i => Some i | None => List.find (λ i, free (live i)) todo end) with
      | Some i => Ok {| sp_slotIdx := i; sp_needsInit := false |}
      | None => Throw full
      end
  end.

Lemma choose_loop_pick live full todo reuse s :
  Forall (λ i, shows i (live i)) todo → choose_loop l1 er me mkt tk full todo reuse s = (pick_of live full todo reuse, s).
Proof.
  intros Hv. revert reuse. induction Hv as [|i todo (pda & bump & Hpda & Hi) _ IH]; intros reuse.
  - cbn [choose_loop]. unfold pick_of. cbn [List.find]. by destruct reuse.
  - cbn [choose_loop]. rewrite (M_bind_lift _ _ _ _ Hpda). cbn [fst]. unfold pick_of. cbn [List.find]. destruct (live i) as [slot|].
    + destruct Hi as (Lk & Lm & disc & b & info & Ld & Hl1 & Hdata). cbn [missing]. rewrite (M_bind_run _ _ _ _ _ (Hl1 s)).
      destruct reuse as [k|]; [apply IH|].
      assert (Hlive : ∃ bs, live_data er pda info s = (Ok (Some bs), s) ∧ bs = pending_order_account disc b slot).
      { unfold live_data. case_bool_decide.
        - destruct Hdata as (e & He & Hd). exists e.(ai_data). split; [|exact Hd]. by rewrite (M_bind_run _ _ _ _ _ (He s)).
        - by exists info.(ai_data). }
      destruct Hlive as (bs & Hrun & ->). rewrite (M_bind_run _ _ _ _ _ Hrun).
      rewrite (reusable_account _ _ _ Ld Lk Lm). cbn [free]. rewrite IH. unfold pick_of.
      by destruct (negb _), (List.find _ todo).
    + cbn [missing]. by rewrite (M_bind_run _ _ _ _ _ (Hi s)).
Qed.
End choice.

Lemma find_first {A} (f : A → bool) l x :
  List.find f l = Some x → ∃ l1 l2, l = l1 ++ x :: l2 ∧ f x = true ∧ Forall (λ y, f y = false) l1.
Proof.
  induction l as [|y l IH]; [done|]. cbn [List.find]. destruct (f y) eqn:Hy.
  - intros [= ->]. by exists [], l.
  - intros Hf. destruct (IH Hf) as (l1 & l2 & -> & Hx & Hl). exists (y :: l1), l2. split; [done|]. split; [done|]. by constructor.
Qed.

Lemma find_none {A} (f : A → bool) l : List.find f l = None → ∀ x, x ∈ l → f x = false.
Proof. intros Hf x Hx. apply (find_none _ _ Hf). by apply list_elem_of_In. Qed.

Lemma indices_before l1 i l2 : slot_indices = l1 ++ i :: l2 → i ∈ slot_indices ∧ ∀ j, 0 <= j < i → j ∈ l1.
Proof.
  unfold slot_indices. intros Hs. split; [rewrite Hs; apply elem_of_app; right; by left|].
  do 4 (destruct l1 as [|? l1]; [injection Hs as <- _|injection Hs as <- Hs]; [intros j Hj; rewrite ?elem_of_cons; lia|]).
  by destruct l1.
Qed.

Lemma occupied_refused `{NodeCrypto} key now args o : o.(po_status) = PENDING → is_Ok (submit_order_handler key now args o) = false.
Proof.
  intros Ho. destruct (submit_order_handler key now args o) as [o'|] eqn:Hs; [|done]. exfalso. unfold submit_order_handler in Hs.
  inv_res. rewrite Ho in *. discriminate.
Qed.

Lemma free_accepted `{NodeCrypto} key now args o :
  o.(po_status) ≠ PENDING → submit_order_handler key now args o ≠ Throw (MatchingError "SlotAlreadyOccupied").
Proof.
  intros Ho. unfold submit_order_handler. rewrite (bool_decide_eq_false_2 _ Ho).
  repeat match goal with |- (_ ← throw_if ?b _; _) ≠ _ => destruct b; [discriminate|]; cbn [throw_if mbind res_bind] end.
  discriminate.
Qed.

(** A pick [r] that fits the live orders, [full] being the route's error. *)
Definition pick_correct `{NodeCrypto} (live : Z → option PendingOrder) (full : exn) (r : res SlotPick) : Prop :=
  match r with
  | Ok pick =>
      pick.(sp_slotIdx) ∈ slot_indices ∧
      if pick.(sp_needsInit)
      then live pick.(sp_slotIdx) = None ∧ ∀ j, 0 <= j < pick.(sp_slotIdx) → is_Some (live j)
      else (∀ j, j ∈ slot_indices → is_Some (live j)) ∧
        (∃ o, live pick.(sp_slotIdx) = Some o ∧
           ∀ key now args, submit_order_handler key now args o ≠ Throw (MatchingError "SlotAlreadyOccupied")) ∧
        (∀ j, 0 <= j < pick.(sp_slotIdx) → ∃ o, live j = Some o ∧
           ∀ key now args, is_Ok (submit_order_handler key now args o) = false)
  | Throw e => e = full ∧ ∀ j, j ∈ slot_indices → ∃ o, live j = Some o ∧
      ∀ key now args, is_Ok (submit_order_handler key now args o) = false
  end.

Lemma pick_of_correct `{NodeCrypto} live full : pick_correct live full (pick_of live full slot_indices None).
Proof.
  unfold pick_of. destruct (List.find _ slot_indices) as [i|] eqn:Hmiss.
  { apply find_first in Hmiss as (l1 & l2 & Hs & Hi & Hl). apply indices_before in Hs as [Hin Hbef]. split; [exact Hin|].
    cbn [sp_needsInit sp_slotIdx]. split; [by destruct (live i)|]. intros j Hj. rewrite Forall_forall in Hl.
    specialize (Hl j (Hbef j Hj)). cbn in Hl. by destruct (live j). }
  pose proof (find_none _ _ Hmiss) as Hall.
  assert (Hsome : ∀ j, j ∈ slot_indices → is_Some (live j)) by (intros j Hj; specialize (Hall j Hj); cbn in Hall; by destruct (live j)).
  assert (Hocc : ∀ j, j ∈ slot_indices → free (live j) = false → ∃ o, live j = Some o ∧
    ∀ key now args, is_Ok (submit_order_handler key now args o) = false).
  { intros j Hj Hf. destruct (Hsome j Hj) as [o Ho]. exists o. split; [exact Ho|]. intros. apply occupied_refused.
    rewrite Ho in Hf. cbn in Hf. by apply negb_false_iff, bool_decide_eq_true_1 in Hf. }
  destruct (List.find _ slot_indices) as [i|] eqn:Hfree in |- *; cbn [pick_correct sp_needsInit sp_slotIdx].
  - apply find_first in Hfree as (l1 & l2 & Hs & Hi & Hl). pose proof Hs as Hs'. apply indices_before in Hs' as [Hin Hbef].
    split; [exact Hin|]. split; [exact Hsome|]. split.
    + destruct (Hsome i Hin) as [o Ho]. exists o. split; [exact Ho|]. intros. apply free_accepted. rewrite Ho in Hi. cbn in Hi.
      by apply negb_true_iff, bool_decide_eq_false_1 in Hi.
    + intros j Hj. rewrite Forall_forall in Hl. apply Hocc; [|by apply Hl, Hbef].
      rewrite Hs. apply elem_of_app. left. by apply Hbef.
  - split; [done|]. intros j Hj. apply Hocc; [exact Hj|]. by apply (find_none _ _ Hfree).
Qed.

(** [C24] Both routes pick the right slot.  Let the two nodes show, for each of the
    four slots of a trading key, no account or that of its order.  The pick is a
    slot without an account when there is one, the first such, to be initialised;
    else the first slot whose live order is not pending, as it is, so that
    [submit_order] does not find it occupied; and the route gives up exactly when
    all four hold a pending order, on which [submit_order] fails. *)
Theorem chooseFreshSlot_correct `{NodeCrypto} `{Web3} {S} (l1 er : L1Connection S) me mkt tk live s :
  Forall (λ i, shows l1 er me mkt tk i (live i)) slot_indices →
  (∃ r, chooseFreshSlot l1 er me mkt tk s = (r, s) ∧ pick_correct live init_slot_full r) ∧
  (∃ r, maker_chooseFreshSlot l1 er me mkt tk s = (r, s) ∧ pick_correct live maker_full r).
Proof.
  intros Hv. unfold chooseFreshSlot, maker_chooseFreshSlot.
  split; eexists; (split; [by apply choose_loop_pick|apply pick_of_correct]).
Qed.

(** ** The signatures of [counter-and-match] *)

Section reports.
Context {S : Type} (log : S → list string).

(** The run extends the log, and the signatures it pushes are, in order, among
    the ones the log got. *)
Definition reports {A} (m : Reporting S A) : Prop := ∀ w r w', m w = (r, w') →
  ∃ mid items, log w'.2 = log w.2 ++ mid ∧ w'.1 = w.1 ++ items ∧ (si_signature <$> items) `sublist_of` mid.

Lemma reports_pure {A} (r : res A) : reports (λ w, (r, w)).
Proof. intros w r' w' [= <- <-]. exists [], []. by rewrite !app_nil_r. Qed.

Lemma reports_bind_ran {A B} (m : Reporting S A) (k : A → Reporting S B) :
  reports m → (∀ a, (∃ w w', m w = (Ok a, w')) → reports (k a)) → reports (m ≫= k).
Proof.
  intros Hm Hk w r w' Hr. apply M_bind_inv in Hr as [(e & Hr & ->)|(a & w1 & Hr & Hr')]; [by eapply Hm|].
  destruct (Hm _ _ _ Hr) as (mid & items & L & I & Hs), (Hk a ltac:(eauto) _ _ _ Hr') as (mid' & items' & L' & I' & Hs').
  exists (mid ++ mid'), (items ++ items'). rewrite L', L, I', I, !(assoc_L (++)), fmap_app. split_and!; [done..|by apply sublist_app].
Qed.

Lemma reports_bind {A B} (m : Reporting S A) (k : A → Reporting S B) : reports m → (∀ a, reports (k a)) → reports (m ≫= k).
Proof. intros Hm Hk. apply reports_bind_ran; auto. Qed.

Lemma reports_outside {A} (m : M S A) : quiet log m → reports (outside m).
Proof.
  intros Hm w r w' Hr. unfold outside in Hr. destruct (m w.2) as [r1 s] eqn:Hmw. injection Hr as <- <-.
  destruct (Hm _ _ _ Hmw) as (mid & Hl & _). exists mid, []. rewrite app_nil_r. split_and!; [done..|apply sublist_nil_l].
Qed.

(** A run whose claims are pushed right away. *)
Lemma reports_push {A B} (m : M S A) (items : A → list SignatureItem) (p : A → Reporting S ()) (k : A → Reporting S B) :
  confirms log [] m (λ a, si_signature <$> items a) → (∀ a w, p a w = (Ok (), (w.1 ++ items a, w.2))) → (∀ a, reports (k a)) →
  reports (a ← outside m; _ ← p a; k a).
Proof.
  intros Hm Hp Hk. assert (Hpush : reports (a ← outside m; _ ← p a; mret a)).
  { intros w r w' Hr. unfold mbind, M_bind, outside in Hr. destruct (m w.2) as [[a|e] s] eqn:Hmw;
      destruct (Hm _ _ _ Hmw) as (mid & Hl & Hc).
    - rewrite Hp in Hr. injection Hr as <- <-. exists mid, (items a). split_and!; [done..|by apply Hc].
    - injection Hr as <- <-. exists mid, []. rewrite app_nil_r. split_and!; [done..|apply sublist_nil_l]. }
  intros w r w' Hr. apply (reports_bind _ k Hpush Hk w r w'). rewrite <-Hr. unfold mbind, M_bind.
  destruct (outside m w) as [[a|e] w1]; [|done]. by destruct (p a w1) as [[]].
Qed.

Lemma reports_send conn cluster label ixs signers : logging log conn → reports (send_reported conn cluster label ixs signers).
Proof.
  intros Hl. unfold send_reported.
  assert (Hgo : reports (sig ← outside (conn.(l1_send) ixs signers); _ ← push label sig cluster; mret ())).
  { apply (reports_push _ (λ sig, [{| si_label := label; si_signature := sig; si_cluster := cluster |}])); [by apply lg_send|done|].
    intros. apply reports_pure. }
  intros w r w' Hr. apply (Hgo w r w'). rewrite <-Hr. unfold mbind, M_bind. by destruct (outside _ w) as [[sig|e] w1].
Qed.

Lemma client_confirms {A} (m : M (World S) A) claim :
  confirms (λ w : World S, log w.2) [] m claim → confirms log [] (with_new_client m) claim.
Proof.
  intros Hm s r s' Hr. unfold with_new_client in Hr. destruct (m (None, s)) as [r1 w] eqn:Hmw. injection Hr as <- <-.
  by destruct (Hm _ _ _ Hmw) as (mid & Hl & Hc); exists mid.
Qed.
End reports.

(** One step of a handler that reports. *)
Ltac report_step :=
  match goal with
  | |- reports _ (mret _) => apply reports_pure
  | |- reports _ (throw _) => apply reports_pure
  | |- reports _ (liftR _) => apply reports_pure
  | |- reports _ reported => intros ? ? ? [= <- <-]; exists [], []; by rewrite !app_nil_r
  | |- reports _ (outside _) => apply reports_outside; solve [eauto with confirmed]
  | |- reports _ (send_reported _ _ _ _ _) => apply reports_send; assumption
  | |- reports _ (_ ≫= _) => apply reports_bind; [|intros ?]
  | |- reports _ (match ?x with _ => _ end) => destruct x
  end.
Ltac report := repeat report_step.

(** A server whose nodes log, and whose other services send nothing. *)
Record logging_server {S} (log : S → list string) (server : OrderServer S) : Prop := {
  ls_nodes : ∀ url, logging log (server.(os_server).(ds_connection) url);
  ls_now : quiet log server.(os_server).(ds_now);
  ls_config : quiet log server.(os_server).(ds_config);
  ls_keyring : quiet log server.(os_keyring);
  ls_random : ∀ n, quiet log (server.(os_randomBytes) n);
  ls_sleep : ∀ ms, quiet log (server.(os_sleep) ms) }.

Section counter_reports.
Context `{NodeCrypto} `{Poseidon} `{Web3} `{Base58} `{Nacl} `{ForeignIx} `{KeyOps} {S : Type}.
Context (log : S → list string).

Context (x : DemoContext S).
Context (Hserver : logging_server log x.(x_server)).
Context (Hl1 : logging log x.(x_connections).(dc_l1)) (Her : logging log x.(x_connections).(dc_er)).

Lemma maker_deposit_reports bids a b amount : reports log (maker_deposit x bids a b amount).
Proof.
  unfold maker_deposit. apply reports_bind; [apply reports_outside, Hserver|intros now]. report_step; [report|].
  apply (reports_push log _ (λ r, [{| si_label := "counterparty deposit"; si_signature := r.(dr_signature); si_cluster := "l1" |}])); [|done|intros; report].
  apply client_confirms. by apply persona_deposit_confirms.
Qed.

Lemma choose_quiet l1 er me mkt tk full todo reuse :
  logging log l1 → logging log er → quiet log (choose_loop l1 er me mkt tk full todo reuse).
Proof.
  intros Hl He. revert reuse. induction todo as [|i todo IH]; intros reuse; cbn [choose_loop]; [confirm|].
  do 3 confirm_step; [|confirm_step]. confirm_step; [apply IH|]. apply quiet_bind; [unfold live_data; confirm|intros ?]. apply IH.
Qed.

Lemma maker_slot_reports : reports log (maker_slot x).
Proof.
  unfold maker_slot. apply reports_bind; [apply reports_outside; by apply choose_quiet|intros pick]. report.
Qed.

Lemma maker_submit_reports side amount price dep slot receipt : reports log (maker_submit x side amount price dep slot receipt).
Proof.
  unfold maker_submit. do 2 (report_step; [report|]). report_step; [report|]. cbv zeta.
  apply reports_bind; [apply reports_outside, Hserver|intros ?]. report.
Qed.

Lemma run_reports tk i j : reports log (run_and_undelegate x tk i j).
Proof.
  unfold run_and_undelegate. do 5 (report_step; [report|]). apply reports_bind; [|intros; report].
  apply reports_outside, wait_quiet; [apply Hserver|confirm|apply Hserver].
Qed.

Lemma settle_reports pda seed note oid ex slot receipt order : reports log (settle_and_answer x pda seed note oid ex slot receipt order).
Proof.
  unfold settle_and_answer. do 2 (report_step; [report|]). report_step; [report|].
  apply (reports_push log _ (λ o, (λ ls, {| si_label := ls.1; si_signature := ls.2; si_cluster := "l1" |}) <$> o.(tr_signatures)));
    [|done|intros; report].
  eapply confirms_impl; [by apply settle_confirms|]. intros out. by rewrite <-list_fmap_compose.
Qed.

Lemma counter_trade_reports seed tk i side amount price note oid ex :
  reports log (counter_trade x seed tk i side amount price note oid ex).
Proof.
  unfold counter_trade. do 3 (report_step; [report|]).
  apply (reports_push log _ (λ o, (λ sig, {| si_label := "protocol fees set to 0 for this demo"; si_signature := sig; si_cluster := "l1" |})
    <$> option_list (if o.(zeroed) then truthy o.(zf_signature) else None))).
  - eapply confirms_impl; [by apply fee_confirms|]. intros o. destruct (zeroed o), (zf_signature o) as [[|c sig]|]; cbn;
      first [done | apply sublist_nil_l].
  - intros o [items s]. destruct (if zeroed o then _ else _); cbn; [done|by rewrite app_nil_r].
  - intros o. do 2 (report_step; [report|]). report_step; [unfold mint_counterparty; report|].
    apply reports_bind; [apply maker_deposit_reports|intros [dep receipt]]. apply reports_bind; [apply maker_slot_reports|intros slot].
    apply reports_bind; [apply maker_submit_reports|intros order]. apply reports_bind; [apply run_reports|intros pda].
    apply settle_reports.
Qed.
End counter_reports.

Section counter_answers.
Context `{NodeCrypto} `{Poseidon} `{Web3} `{Base58} `{Nacl} `{ForeignIx} `{KeyOps} {S : Type}.
Implicit Types server : OrderServer S.

(** A success carries the signatures pushed so far. *)
Definition answers_now (m : Reporting S CounterAnswer) : Prop :=
  ∀ w a w', m w = (Ok (Counter_sent a), w') → a.(ma_signatures) = w'.1.

Lemma now_bind {A} (m : Reporting S A) k : (∀ a, answers_now (k a)) → answers_now (m ≫= k).
Proof. intros Hk w a w' Hr. apply M_bind_Ok in Hr as (b & w1 & _ & Hr). by eapply Hk. Qed.

Lemma now_refused status e sigs : answers_now (mret (Counter_refused status e sigs)).
Proof. by intros w a w' [= ]. Qed.

Lemma settle_now x pda seed note oid ex slot receipt order : answers_now (settle_and_answer (S := S) x pda seed note oid ex slot receipt order).
Proof.
  unfold settle_and_answer. case_bool; [apply now_refused|]. case_bool; [apply now_refused|].
  do 3 (apply now_bind; intros ?). intros w ans w' Hr. apply M_bind_Ok in Hr as (sigs & w1 & [= <- <-] & [= <- <-]). done.
Qed.

Lemma body_now server req : answers_now (counter_and_match_body server req).
Proof.
  unfold counter_and_match_body. apply now_bind; intros body.
  repeat match goal with |- answers_now (match ?m with _ => _ end) => destruct m; try apply now_refused end.
  apply now_bind; intros [[seed tk] same]. case_bool; [apply now_refused|].
  apply now_bind; intros [connections programs]. do 9 (apply now_bind; intros ?). apply now_bind; intros [dep receipt].
  do 3 (apply now_bind; intros ?). apply settle_now.
Qed.

(** The refusals of the body carry no signatures. *)
Definition unsigned (m : Reporting S CounterAnswer) : Prop :=
  ∀ w status e sigs w', m w = (Ok (Counter_refused status e sigs), w') → sigs = None.

Lemma unsigned_bind {A} (m : Reporting S A) k : (∀ a, unsigned (k a)) → unsigned (m ≫= k).
Proof. intros Hk w st e sigs w' Hr. apply M_bind_Ok in Hr as (b & w1 & _ & Hr). by eapply Hk. Qed.

Lemma unsigned_refused status e : unsigned (mret (Counter_refused status e None)).
Proof. by intros w st msg sigs w' [= <- <- <- <-]. Qed.

Lemma refused_unsigned server req : unsigned (counter_and_match_body server req).
Proof.
  unfold counter_and_match_body. apply unsigned_bind; intros body.
  repeat match goal with |- unsigned (match ?m with _ => _ end) => destruct m; try apply unsigned_refused end.
  apply unsigned_bind; intros [[seed tk] same]. case_bool; [apply unsigned_refused|].
  apply unsigned_bind; intros [connections programs]. do 9 (apply unsigned_bind; intros ?). apply unsigned_bind; intros [dep receipt].
  do 3 (apply unsigned_bind; intros ?). unfold settle_and_answer. do 2 (case_bool; [apply unsigned_refused|]).
  do 4 (apply unsigned_bind; intros ?). by intros w st msg sigs w' [= ].
Qed.

Lemma body_reports log server req : logging_server log server → reports log (counter_and_match_body server req).
Proof.
  intros Hs. unfold counter_and_match_body. apply reports_bind; [apply reports_pure|intros body].
  repeat match goal with |- reports _ (match ?m with _ => _ end) => destruct m; try apply reports_pure end.
  apply reports_bind; [apply reports_pure|intros [[seed tk] same]]. case_bool; [apply reports_pure|].
  apply reports_bind_ran.
  { apply reports_outside. unfold demo_setup. apply quiet_bind; [apply Hs|intros ?]. confirm. }
  intros [connections programs] (w & w' & Hr). apply outside_Ok in Hr as [Hr _]. unfold demo_setup in Hr.
  apply M_bind_Ok in Hr as (cfg & w1 & _ & Hr). apply M_bind_Ok in Hr as (p & w2 & _ & Hr). injection Hr as <- _.
  apply reports_bind; [apply reports_outside, Hs|intros keys]. apply counter_trade_reports; [exact Hs|apply Hs|apply Hs].
Qed.

Definition reported_signatures (ans : CounterAnswer) : list string :=
  match ans with
  | Counter_sent a => si_signature <$> a.(ma_signatures)
  | Counter_refused _ _ sigs => si_signature <$> default [] sigs
  end.
End counter_answers.

(** [C21] [counter-and-match] always answers, and never reports a transaction that
    was not confirmed.  Whatever goes wrong, on nodes that log what they confirm
    the signatures in the answer, of a success or of an error, are among the ones
    this request had confirmed, in the order they were; a success reports all it
    pushed. *)
Theorem counter_and_match_reports `{NodeCrypto} `{Poseidon} `{Web3} `{Base58} `{Nacl} `{ForeignIx} `{KeyOps} {S}
    (log : S → list string) (server : OrderServer S) req s :
  logging_server log server →
  ∃ ans s' mid, counter_and_match server req s = (Ok ans, s') ∧ log s' = log s ++ mid ∧
    reported_signatures ans `sublist_of` mid ∧
    ∀ a, ans = Counter_sent a → ∃ s1, counter_and_match_body server req ([], s) = (Ok ans, (a.(ma_signatures), s1)).
Proof.
  intros Hs. unfold counter_and_match, try_catch. destruct (counter_and_match_body server req ([], s)) as [r [sigs s1]] eqn:Hb.
  destruct (body_reports log server req Hs _ _ _ Hb) as (mid & items & Hl & Hi & Hsub). cbn [fst snd app] in Hl, Hi. subst sigs.
  destruct r as [ans|e].
  - exists ans, s1, mid. split; [done|]. split; [done|]. split.
    + destruct ans as [a|st msg sg]; cbn [reported_signatures].
      * pose proof (body_now server req _ _ _ Hb) as ->. exact Hsub.
      * rewrite (refused_unsigned server req _ _ _ _ _ Hb). apply sublist_nil_l.
    + intros a ->. exists s1. pose proof (body_now server req _ _ _ Hb) as ->. reflexivity.
  - eexists _, s1, mid. split; [reflexivity|]. split; [done|]. split; [exact Hsub|done].
Qed.

(** ** What a finished [counter-and-match] did *)

Section counter_inversion.
Context `{NodeCrypto} `{Poseidon} `{Web3} `{Base58} `{Nacl} `{ForeignIx} `{KeyOps} {S : Type}.
Implicit Types server : OrderServer S.

(** The maker's deposit, its order as it was sent, the batch over the two slots,
    and the settlement run for the two notes. *)
Record counter_ran (x : DemoContext S) (seed : bytes) (tk : PublicKey) (slotIdx side expiry : Z) (amountText priceText noteHex oidHex : string)
    (receipt : DepositReceipt) (order : MakerOrder) (makerIx : TransactionInstruction) (out : TradeL1SettleResult) : Prop := {
  cr_amount : BigInt amountText = Ok order.(mo_params).(so_amount) ∧ BigInt priceText = Ok order.(mo_params).(so_priceLimit);
  cr_side : order.(mo_params).(so_side) = if side =? 0 then 1 else 0;
  cr_plain : order.(mo_params).(so_orderType) = None ∧ order.(mo_params).(so_minFillQty) = None ∧
    order.(mo_params).(so_programId) = x.(x_programs).(meProgramId) ∧ order.(mo_params).(so_market) = x.(x_programs).(market) ∧
    order.(mo_params).(so_tradingKey) = x.(x_keys).(kr_maker).(kp_publicKey);
  cr_deposited : ∃ baseAta quoteAta t t', maker_deposit x (side =? 0) baseAta quoteAta amountText t = (Ok (order.(mo_params).(so_noteAmount), receipt), t');
  cr_note : order.(mo_params).(so_noteCommitment) = receipt.(dr_noteCommitment) ∧
    deposit_amount x.(x_server) (side =? 0) amountText = Ok order.(mo_params).(so_noteAmount) ∧
    receipt.(dr_notePlaintext).(amount) = order.(mo_params).(so_noteAmount) ∧
    noteCommitment receipt.(dr_notePlaintext) = Ok receipt.(dr_noteCommitment) ∧
    bn254ToBE32 receipt.(dr_notePlaintext).(ownerCommitment_) = Ok order.(mo_params).(so_userCommitment);
  cr_ids : order.(mo_params).(so_orderId) = order.(mo_orderId) ∧ order.(mo_params).(so_expirySlot) = order.(mo_expiry);
  cr_sent : ∃ built sig t t', buildSubmitOrderInstruction order.(mo_params) = Ok built ∧ built.(submit_ix) = makerIx ∧
    x.(x_connections).(dc_er).(l1_send) [makerIx] [x.(x_keys).(kr_maker)] t = (Ok sig, t');
  cr_batch : ∃ userPda makerPda sig t t',
    pendingOrderPda x.(x_programs).(meProgramId) x.(x_programs).(market) tk slotIdx = Ok userPda ∧
    pendingOrderPda x.(x_programs).(meProgramId) x.(x_programs).(market) order.(mo_params).(so_tradingKey) order.(mo_params).(so_slotIdx) = Ok makerPda ∧
    x.(x_connections).(dc_er).(l1_send)
      [buildRunBatchInstruction
         {| rb_programId := x.(x_programs).(meProgramId); rb_vaultProgramId := x.(x_programs).(vaultProgramId);
            rb_teeAuthority := x.(x_keys).(kr_tee).(kp_publicKey); rb_market := x.(x_programs).(market);
            rb_pythAccount := x.(x_programs).(pythAccount); pendingOrderPdas := [userPda.1; makerPda.1] |}]
      [x.(x_keys).(kr_tee)] t = (Ok sig, t');
  cr_settled : ∃ t t', runTradeL1Settle (settle_context x (batchResultsPda x.(x_programs).(meProgramId) x.(x_programs).(market)).1
    seed (hexToBytes noteHex) (hexToBytes oidHex) expiry receipt order) t = (Ok out, t');
}.

Lemma send_reported_Ok conn cluster label ixs signers (w w' : list SignatureItem * S) u :
  send_reported conn cluster label ixs signers w = (Ok u, w') → ∃ sig t t', conn.(l1_send) ixs signers t = (Ok sig, t').
Proof.
  unfold send_reported. intros Hr. apply M_bind_Ok in Hr as (sig & w1 & Hs & _). apply outside_Ok in Hs as [Hs _]. by exists sig, w.2, w1.2.
Qed.

Lemma maker_deposit_Ok x bids a b text w r w' :
  maker_deposit (S := S) x bids a b text w = (Ok r, w') →
  deposit_amount x.(x_server) bids text = Ok r.1 ∧ r.2.(dr_notePlaintext).(amount) = r.1 ∧
  noteCommitment r.2.(dr_notePlaintext) = Ok r.2.(dr_noteCommitment).
Proof.
  unfold maker_deposit. intros Hr. apply M_bind_Ok in Hr as (now & w1 & _ & Hr). apply M_bind_Ok in Hr as (dep & w2 & [Hd ->]%liftR_inv & Hr).
  apply M_bind_Ok in Hr as (receipt & w3 & Hrec & Hr). apply M_bind_Ok in Hr as (u & w4 & _ & Hr). injection Hr as <- _.
  split; [exact Hd|]. apply outside_Ok in Hrec as [Hrec _]. unfold with_new_client in Hrec.
  destruct (getDepositFunction _ _ _) as [r1 v] eqn:Hg. injection Hrec as -> _.
  apply deposit_run_Ok in Hg as (_ & _ & data & seed & p & _ & _ & Hsent).
  destruct Hsent as (_ & _ & _ & _ & _ & _ & _ & Hc & _ & Ha & _). by split.
Qed.

Lemma maker_submit_Ok x side amountText priceText dep slot receipt w order w' :
  maker_submit (S := S) x side amountText priceText dep slot receipt w = (Ok order, w') →
  BigInt amountText = Ok order.(mo_params).(so_amount) ∧ BigInt priceText = Ok order.(mo_params).(so_priceLimit) ∧
  maker_order_params x side order.(mo_params).(so_amount) order.(mo_params).(so_priceLimit) dep order.(mo_expiry) slot order.(mo_orderId) receipt
    = Ok order.(mo_params) ∧
  ∃ built sig t t', buildSubmitOrderInstruction order.(mo_params) = Ok built ∧
    x.(x_connections).(dc_er).(l1_send) [built.(submit_ix)] [x.(x_keys).(kr_maker)] t = (Ok sig, t').
Proof.
  unfold maker_submit. intros Hr. apply M_bind_Ok in Hr as (am & w1 & [Ham ->]%liftR_inv & Hr).
  apply M_bind_Ok in Hr as (price & w2 & [Hp ->]%liftR_inv & Hr). apply M_bind_Ok in Hr as (now & w3 & _ & Hr). cbv zeta in Hr.
  apply M_bind_Ok in Hr as (random & w4 & _ & Hr). apply M_bind_Ok in Hr as (params & w5 & [Hpar ->]%liftR_inv & Hr).
  apply M_bind_Ok in Hr as (built & w6 & [Hb ->]%liftR_inv & Hr). apply M_bind_Ok in Hr as (u & w7 & Hs & Hr). injection Hr as <- _.
  apply send_reported_Ok in Hs. cbn [mo_params mo_expiry mo_orderId].
  assert (Hfld : params.(so_amount) = am ∧ params.(so_priceLimit) = price).
  { unfold maker_order_params in Hpar. apply res_bind_Ok in Hpar as (ob & _ & Hpar). by injection Hpar as <-. }
  destruct Hfld as [-> ->]. split; [exact Ham|]. split; [exact Hp|]. split; [exact Hpar|].
  destruct Hs as (sig & t & t' & Hs). by exists built, sig, t, t'.
Qed.

Lemma run_Ok x tk i j w pda w' :
  run_and_undelegate (S := S) x tk i j w = (Ok pda, w') →
  let me := x.(x_programs).(meProgramId) in let mkt := x.(x_programs).(market) in
  pda = (batchResultsPda me mkt).1 ∧ ∃ userPda makerPda sig t t',
    pendingOrderPda me mkt tk i = Ok userPda ∧ pendingOrderPda me mkt x.(x_keys).(kr_maker).(kp_publicKey) j = Ok makerPda ∧
    x.(x_connections).(dc_er).(l1_send)
      [buildRunBatchInstruction
         {| rb_programId := me; rb_vaultProgramId := x.(x_programs).(vaultProgramId);
            rb_teeAuthority := x.(x_keys).(kr_tee).(kp_publicKey); rb_market := mkt;
            rb_pythAccount := x.(x_programs).(pythAccount); pendingOrderPdas := [userPda.1; makerPda.1] |}]
      [x.(x_keys).(kr_tee)] t = (Ok sig, t').
Proof.
  intros Hr me mkt. unfold run_and_undelegate in Hr. apply M_bind_Ok in Hr as (u & w1 & [Hu ->]%liftR_inv & Hr).
  apply M_bind_Ok in Hr as (m & w2 & [Hm ->]%liftR_inv & Hr). cbv zeta in Hr. apply M_bind_Ok in Hr as (pre & w3 & _ & Hr).
  apply M_bind_Ok in Hr as (x1 & w4 & Hs & Hr). apply M_bind_Ok in Hr as (x2 & w5 & _ & Hr). apply M_bind_Ok in Hr as (x3 & w6 & _ & Hr).
  injection Hr as <- _. split; [done|]. apply send_reported_Ok in Hs as (sig & t & t' & Hs). by exists u, m, sig, t, t'.
Qed.

Lemma settle_Ok x pda seed noteHex oidHex expiryText slot receipt order w a w' :
  settle_and_answer (S := S) x pda seed noteHex oidHex expiryText slot receipt order w = (Ok (Counter_sent a), w') →
  ∃ expiry out t t', length (hexToBytes oidHex) = 16%nat ∧ length (hexToBytes noteHex) = 32%nat ∧ BigInt expiryText = Ok expiry ∧
    runTradeL1Settle (settle_context x pda seed (hexToBytes noteHex) (hexToBytes oidHex) expiry receipt order) t = (Ok out, t') ∧
    a.(ma_tradeWithdrawBuyerBase) = out.(tr_buyerBaseNote) ∧ a.(ma_noteCommitmentHex) = toHex receipt.(dr_noteCommitment) ∧
    a.(ma_orderIdHex) = toHex order.(mo_orderId) ∧ a.(ma_slotIdx) = slot.
Proof.
  unfold settle_and_answer. intros Hr. destruct (Nat.eqb_spec (length (hexToBytes oidHex)) 16) as [Lo|]; [|discriminate Hr].
  destruct (Nat.eqb_spec (length (hexToBytes noteHex)) 32) as [Ln|]; [|discriminate Hr]. cbn [negb] in Hr.
  apply M_bind_Ok in Hr as (expiry & w1 & [He ->]%liftR_inv & Hr). apply M_bind_Ok in Hr as (out & w2 & Hrun & Hr).
  apply outside_Ok in Hrun as [Hrun _]. apply M_bind_Ok in Hr as (u & w3 & _ & Hr). apply M_bind_Ok in Hr as (sigs & w4 & _ & Hr).
  injection Hr as <- _. do 4 eexists. split; [exact Lo|]. split; [exact Ln|]. split; [exact He|]. split; [exact Hrun|]. done.
Qed.

Lemma counter_trade_Ok x seed tk i side amountText priceText noteHex oidHex expiryText w a w' :
  counter_trade (S := S) x seed tk i side amountText priceText noteHex oidHex expiryText w = (Ok (Counter_sent a), w') →
  ∃ expiry receipt order makerIx out, BigInt expiryText = Ok expiry ∧
    counter_ran x seed tk i side expiry amountText priceText noteHex oidHex receipt order makerIx out ∧
    length (hexToBytes oidHex) = 16%nat ∧ length (hexToBytes noteHex) = 32%nat ∧
    a.(ma_tradeWithdrawBuyerBase) = out.(tr_buyerBaseNote) ∧ a.(ma_noteCommitmentHex) = toHex receipt.(dr_noteCommitment) ∧
    a.(ma_orderIdHex) = toHex order.(mo_orderId) ∧ a.(ma_slotIdx) = order.(mo_params).(so_slotIdx).
Proof.
  unfold counter_trade. intros Hr. do 8 (apply M_bind_Ok in Hr as (? & ? & _ & Hr)).
  apply M_bind_Ok in Hr as ([dep receipt] & w1 & Hdep & Hr). apply M_bind_Ok in Hr as (slot & w2 & _ & Hr).
  apply M_bind_Ok in Hr as (order & w3 & Hsub & Hr). apply M_bind_Ok in Hr as (pda & w4 & Hrun & Hr).
  pose proof (maker_deposit_Ok _ _ _ _ _ _ _ _ Hdep) as (Hd & Ha & Hc). cbn [fst snd] in Hd, Ha, Hc.
  apply maker_submit_Ok in Hsub as (Bam & Bpr & Hpar & built & sig & t & t' & Hb & Hsend).
  apply run_Ok in Hrun as (-> & upda & mpda & sig2 & t2 & t2' & Hu & Hm & Hbatch).
  apply settle_Ok in Hr as (expiry & out & t3 & t3' & Lo & Ln & He & Hset & Hans & Hnote & Hid & Hslot).
  exists expiry, receipt, order, built.(submit_ix), out. split; [exact He|].
  assert (Hsi : order.(mo_params).(so_slotIdx) = slot).
  { unfold maker_order_params in Hpar. apply res_bind_Ok in Hpar as (ob & _ & Hpar). by injection Hpar as <-. }
  split; [|split_and!; congruence].
  clear Hsi. revert Hpar. set (params := mo_params order) in *. unfold maker_order_params. intros Hpar.
  apply res_bind_Ok in Hpar as (ob & Hob & Hpar). apply Ok_inj in Hpar.
  split; fold params; [by split|by rewrite <-Hpar|by rewrite <-Hpar| | |by rewrite <-Hpar| | |by exists t3, t3'].
  - rewrite <-Hpar. cbn [so_noteAmount]. by do 4 eexists.
  - rewrite <-Hpar. cbn [so_noteCommitment so_noteAmount so_userCommitment]. by split_and!.
  - by exists built, sig, t, t'.
  - exists upda, mpda, sig2, t2, t2'. split; [exact Hu|]. split; [rewrite <-Hpar; exact Hm|exact Hbatch].
Qed.
End counter_inversion.

(** What an accepted [submit_order] writes. *)
Lemma submit_handler_writes `{NodeCrypto} key now args slot slot' :
  submit_order_handler key now args slot = Ok slot' →
  (args.(side) = 0 ∨ args.(side) = 1) ∧ slot'.(po_side) = args.(side) ∧ slot'.(po_amount) = args.(soa_amount) ∧
  slot'.(po_price_limit) = args.(price_limit) ∧ slot'.(po_order_type) = args.(order_type) ∧
  slot'.(po_min_fill_qty) = args.(min_fill_qty) ∧ slot'.(po_collateral_note) = args.(note_commitment) ∧
  slot'.(po_note_amount) = args.(note_amount).
Proof.
  unfold submit_order_handler. intros Hs. apply res_bind_Ok in Hs as (u & Hside & Hs). apply throw_if_Ok, negb_false_iff in Hside.
  inv_res. subst slot'. cbn. split; [|by split_and!]. apply orb_true_iff in Hside as [Hs%Z.eqb_eq|Hs%Z.eqb_eq]; auto.
Qed.

Lemma present_fields fields ts : present fields = Some ts → Forall2 (λ o t, truthy o = Some t) fields ts.
Proof. unfold present. by rewrite mapM_Some. Qed.

Section mirror.
Context `{NodeCrypto} `{!NodeCryptoLaws} `{Poseidon} `{Web3} `{Base58} `{!Base58Laws} `{Nacl} `{ForeignIx} `{KeyOps} {S : Type}.
Implicit Types server : OrderServer S.

Lemma submit_accepted vault_id p built :
  distinct_discriminators (fst <$> matching_table) → buildSubmitOrderInstruction p = Ok built →
  accepted_as (Program0 := matching_program vault_id) p.(so_programId) built.(submit_ix) (MSubmitOrder (submit_args p)).
Proof.
  intros Hd Hb. assert (Hk : build_matching (KSubmitOrder p) = Ok built.(submit_ix)) by (cbn [build_matching]; by rewrite Hb).
  exact (proj2 (build_matching_accepted vault_id Hd (KSubmitOrder p) _ I Hk)).
Qed.

Lemma submit_keys p built : buildSubmitOrderInstruction p = Ok built →
  ∃ pda, pendingOrderPda p.(so_programId) p.(so_market) p.(so_tradingKey) p.(so_slotIdx) = Ok pda ∧
    built.(pendingOrderPda_) = pda.1 ∧ built.(submit_ix).(ix_keys) = [meta p.(so_tradingKey) true true; meta pda.1 false true].
Proof. unfold buildSubmitOrderInstruction. intros Hb. inv_res. subst built. eexists. split; [eassumption|]. by split. Qed.

(** *** What the requests say *)

Definition number_text (o : option string) (n : Z) : Prop := ∃ t, truthy o = Some t ∧ BigInt t = Ok n.
Definition hex_text (o : option string) (b : bytes) : Prop := ∃ t, truthy o = Some t ∧ b = hexToBytes t.

(** The seed and the trading key of a session, as a request carries it. *)
Definition session_texts (signature owner secret : option string) (seed : bytes) (tk : PublicKey) : Prop :=
  ∃ s o k kp, truthy signature = Some s ∧ truthy owner = Some o ∧ truthy secret = Some k ∧
    trading_session s o k = Ok (seed, kp, true) ∧ tk = kp.(kp_publicKey).

(** The order of a request to [build-submit-order]. *)
Record order_of (programs : DemoPrograms) (body : SubmitBody) (p : BuildSubmitOrderParams) : Prop := {
  oo_session : ∃ seed, session_texts body.(sb_phantomSignatureBase58) body.(sb_ownerPubkeyBase58) body.(sb_tradingSecretKeyBase58)
    seed p.(so_tradingKey);
  oo_market : p.(so_programId) = programs.(meProgramId) ∧ p.(so_market) = programs.(market);
  oo_place : body.(sb_slotIdx) = Some p.(so_slotIdx) ∧ body.(sb_side) = Some p.(so_side);
  oo_amount : number_text body.(sb_amount) p.(so_amount);
  oo_price : number_text body.(sb_priceLimit) p.(so_priceLimit);
  oo_noteAmount : number_text body.(sb_noteAmount) p.(so_noteAmount);
  oo_expiry : p.(so_expirySlot) ≠ 0 ∧ ∃ t, body.(sb_expirySlot) = Some t ∧ BigInt t = Ok p.(so_expirySlot);
  oo_id : hex_text body.(sb_orderIdHex) p.(so_orderId);
  oo_note : hex_text body.(sb_noteCommitmentHex) p.(so_noteCommitment);
  oo_owner : hex_text body.(sb_userOwnerCommitmentHex) p.(so_userCommitment);
  oo_plain : p.(so_orderType) = None ∧ p.(so_minFillQty) = None }.

(** What [build-submit-order] answered with. *)
Lemma build_submit_order_Ok server body w a w' :
  build_submit_order server (Ok body) w = (Ok (Sent a), w') →
  ∃ conns programs v v' p built, demo_setup server.(os_server) v = (Ok (conns, programs), v') ∧ order_of programs body p ∧
    buildSubmitOrderInstruction p = Ok built ∧ a.(sba_instruction) = instructionToJson built.(submit_ix) ∧
    a.(sba_pendingOrderPda) = toBase58 built.(pendingOrderPda_).
Proof.
  intros Hr%route_Sent. apply M_bind_Ok in Hr as (b & w0 & [[= <-] ->]%liftR_inv & Hr).
  destruct (submit_fields body) as [ts|] eqn:Hp; [|discriminate Hr]. apply present_fields in Hp.
  repeat (apply Forall2_cons_inv_l in Hp as (? & ? & ? & Hp & ->)). apply Forall2_nil_inv_l in Hp as ->. cbn beta iota in Hr.
  destruct (sb_slotIdx body) as [slot|] eqn:Eslot; [|discriminate Hr]. destruct (sb_side body) as [side|] eqn:Eside; [|discriminate Hr].
  apply M_bind_Ok in Hr as ([[seed tk] same] & w1 & [Hses ->]%liftR_inv & Hr). destruct same; cbn [negb] in Hr; [|discriminate Hr].
  apply M_bind_Ok in Hr as ([conns programs] & w2 & Hset & Hr). cbv zeta in Hr. destruct (negb _) in Hr; [discriminate Hr|].
  apply M_bind_Ok in Hr as (ex & w3 & [Hex ->]%liftR_inv & Hr). destruct (Z.eqb_spec ex 0) as [|Hne]; [discriminate Hr|].
  apply M_bind_Ok in Hr as (am & w4 & [Ham ->]%liftR_inv & Hr). apply M_bind_Ok in Hr as (pr & w5 & [Hpr ->]%liftR_inv & Hr).
  apply M_bind_Ok in Hr as (na & w6 & [Hna ->]%liftR_inv & Hr). apply M_bind_Ok in Hr as (built & w7 & [Hb ->]%liftR_inv & Hr).
  injection Hr as <- _. exists conns, programs. do 4 eexists. split; [exact Hset|]. split; [|by split].
  destruct (sb_expirySlot body) as [ext|] eqn:Eex; [|by apply Ok_inj in Hex as <-].
  split; cbn [so_tradingKey so_programId so_market so_slotIdx so_side so_amount so_priceLimit so_noteAmount so_expirySlot so_orderId
    so_noteCommitment so_userCommitment so_orderType so_minFillQty];
    first [by split | eexists; split; [eassumption|first [eassumption|reflexivity]] | idtac].
  - exists seed. do 4 eexists. split_and!; [eassumption..|reflexivity].
  - split; [exact Hne|]. by exists ext.
Qed.

(** The trade a request to [counter-and-match] asks for, on this server. *)
Record trade_of (server : OrderServer S) (body : MatchBody) (x : DemoContext S) (seed : bytes) (tk : PublicKey) (slotIdx side expiry : Z)
    (amountText priceText noteHex oidHex : string) : Prop := {
  to_server : x.(x_server) = server ∧
    (∃ v v', demo_setup server.(os_server) v = (Ok (x.(x_connections), x.(x_programs)), v')) ∧
    ∃ v v', server.(os_keyring) v = (Ok x.(x_keys), v');
  to_session : session_texts body.(mb_phantomSignatureBase58) body.(mb_ownerPubkeyBase58) body.(mb_tradingSecretKeyBase58) seed tk;
  to_place : body.(mb_userSlotIdx) = Some slotIdx ∧ body.(mb_userSide) = Some side;
  to_terms : truthy body.(mb_userAmount) = Some amountText ∧ truthy body.(mb_userPriceLimit) = Some priceText;
  to_note : truthy body.(mb_userNoteCommitmentHex) = Some noteHex;
  to_id : truthy body.(mb_userOrderIdHex) = Some oidHex;
  to_expiry : ∃ t, body.(mb_userExpirySlot) = Some t ∧ BigInt t = Ok expiry }.

Lemma counter_and_match_Ok server body w a w' :
  counter_and_match server (Ok body) w = (Ok (Counter_sent a), w') →
  ∃ (x : DemoContext S) seed tk slotIdx side expiry amountText priceText noteHex oidHex receipt order makerIx out,
    trade_of server body x seed tk slotIdx side expiry amountText priceText noteHex oidHex ∧
    counter_ran x seed tk slotIdx side expiry amountText priceText noteHex oidHex receipt order makerIx out ∧
    a.(ma_tradeWithdrawBuyerBase) = out.(tr_buyerBaseNote) ∧ a.(ma_noteCommitmentHex) = toHex receipt.(dr_noteCommitment) ∧
    a.(ma_orderIdHex) = toHex order.(mo_orderId) ∧ a.(ma_slotIdx) = order.(mo_params).(so_slotIdx).
Proof.
  unfold counter_and_match, try_catch. intros Hr. destruct (counter_and_match_body server (Ok body) ([], w)) as [[ans|e] v] eqn:Hb;
    [|discriminate Hr]. injection Hr as -> _. unfold counter_and_match_body in Hb.
  apply M_bind_Ok in Hb as (b & w0 & [[= <-] ->]%liftR_inv & Hr).
  destruct (match_fields body) as [ts|] eqn:Hp; [|discriminate Hr]. apply present_fields in Hp.
  repeat (apply Forall2_cons_inv_l in Hp as (? & ? & ? & Hp & ->)). apply Forall2_nil_inv_l in Hp as ->. cbn beta iota in Hr.
  destruct (mb_userSlotIdx body) as [slot|] eqn:Eslot; [|discriminate Hr]. destruct (mb_userSide body) as [side|] eqn:Eside; [|discriminate Hr].
  destruct (mb_userExpirySlot body) as [ext|] eqn:Eex; [|discriminate Hr].
  apply M_bind_Ok in Hr as ([[seed tk] same] & w1 & [Hses ->]%liftR_inv & Hr). destruct same; cbn [negb] in Hr; [|discriminate Hr].
  apply M_bind_Ok in Hr as ([conns programs] & w2 & [Hset _]%outside_Ok & Hr). apply M_bind_Ok in Hr as (keys & w3 & [Hkeys _]%outside_Ok & Hr).
  apply counter_trade_Ok in Hr as (expiry & receipt & order & makerIx & out & He & Hran & _ & _ & Hans & Hnote & Hid & Hsl).
  do 14 eexists. split; [|split; [exact Hran|by split_and!]]. split; try eassumption.
  - split; [reflexivity|]. split; [by do 2 eexists|by do 2 eexists].
  - do 4 eexists. split_and!; [eassumption..|reflexivity].
  - by split.
  - by split.
  - by exists ext.
Qed.
End mirror.

(** The two requests are of one session, for one slot. *)
Definition same_slot (sbody : SubmitBody) (mbody : MatchBody) : Prop :=
  sbody.(sb_phantomSignatureBase58) = mbody.(mb_phantomSignatureBase58) ∧ sbody.(sb_ownerPubkeyBase58) = mbody.(mb_ownerPubkeyBase58) ∧
  sbody.(sb_tradingSecretKeyBase58) = mbody.(mb_tradingSecretKeyBase58) ∧ sbody.(sb_slotIdx) = mbody.(mb_userSlotIdx).

(** The two orders behind an answer [ua] of [build-submit-order] and an answer [a]
    of [counter-and-match].  [p] is the order of the first request and [userIx]
    the instruction that was built for it, which writes the slot [userPda]; [x]
    is the trade of the second request, with the maker's order [order], whose
    instruction writes the slot [makerPda]. *)
Record mirrored_orders `{NodeCrypto} `{Poseidon} `{Web3} `{Base58} `{Nacl} `{ForeignIx} `{KeyOps} {S S'} vault_id
    (server : OrderServer S') (server' : OrderServer S) (sbody : SubmitBody) (mbody : MatchBody) (ua : SubmitAnswer) (a : MatchAnswer)
    (programs : DemoPrograms) (p : BuildSubmitOrderParams) (userIx : TransactionInstruction) (userPda : PublicKey)
    (x : DemoContext S) (order : MakerOrder) (receipt : DepositReceipt) (makerIx : TransactionInstruction) (makerPda : PublicKey) : Prop := {
  mi_user : (∃ conns v v', demo_setup server.(os_server) v = (Ok (conns, programs), v')) ∧ order_of programs sbody p;
  mi_built : instructionFromJson ua.(sba_instruction) = Ok userIx ∧ ua.(sba_pendingOrderPda) = toBase58 userPda ∧
    accepted_as (Program0 := matching_program vault_id) p.(so_programId) userIx (MSubmitOrder (submit_args p)) ∧
    userIx.(ix_keys) = [meta p.(so_tradingKey) true true; meta userPda false true];
  mi_maker :
    accepted_as (Program0 := matching_program vault_id) x.(x_programs).(meProgramId) makerIx (MSubmitOrder (submit_args order.(mo_params))) ∧
    makerIx.(ix_keys) = [meta x.(x_keys).(kr_maker).(kp_publicKey) true true; meta makerPda false true];
  mi_trade : ∃ seed tk slotIdx side expiry amountText priceText noteHex oidHex out,
    trade_of server' mbody x seed tk slotIdx side expiry amountText priceText noteHex oidHex ∧
    counter_ran x seed tk slotIdx side expiry amountText priceText noteHex oidHex receipt order makerIx out ∧
    a.(ma_tradeWithdrawBuyerBase) = out.(tr_buyerBaseNote);
  mi_answer : a.(ma_noteCommitmentHex) = toHex receipt.(dr_noteCommitment) ∧ a.(ma_orderIdHex) = toHex order.(mo_orderId) ∧
    a.(ma_slotIdx) = order.(mo_params).(so_slotIdx);
  mi_batch : same_slot sbody mbody → programs = x.(x_programs) → ∃ sig t t',
    x.(x_connections).(dc_er).(l1_send)
      [buildRunBatchInstruction
         {| rb_programId := programs.(meProgramId); rb_vaultProgramId := programs.(vaultProgramId);
            rb_teeAuthority := x.(x_keys).(kr_tee).(kp_publicKey); rb_market := programs.(market);
            rb_pythAccount := programs.(pythAccount); pendingOrderPdas := [userPda; makerPda] |}]
      [x.(x_keys).(kr_tee)] t = (Ok sig, t');
  mi_mirror : ∀ ku km nu nm us ms u m,
    submit_order_handler ku nu (submit_args p) us = Ok u → submit_order_handler km nm (submit_args order.(mo_params)) ms = Ok m →
    m.(po_side) = 1 - u.(po_side) ∧ u.(po_amount) = m.(po_amount) ∧ u.(po_price_limit) = m.(po_price_limit) ∧
    (u.(po_order_type) = PENDING_TYPE_LIMIT ∧ m.(po_order_type) = PENDING_TYPE_LIMIT ∧ u.(po_min_fill_qty) = 0 ∧ m.(po_min_fill_qty) = 0) ∧
    m.(po_collateral_note) = receipt.(dr_noteCommitment) ∧ m.(po_note_amount) = receipt.(dr_notePlaintext).(amount) mod U64 }.

Definition mirrored `{NodeCrypto} `{Poseidon} `{Web3} `{Base58} `{Nacl} `{ForeignIx} `{KeyOps} {S S'} vault_id
    (server : OrderServer S') (server' : OrderServer S) sbody mbody ua a : Prop :=
  ∃ programs p userIx userPda x order receipt makerIx makerPda,
    mirrored_orders vault_id server server' sbody mbody ua a programs p userIx userPda x order receipt makerIx makerPda.

Lemma session_texts_once `{NodeCrypto} `{Web3} `{Base58} `{Nacl} `{KeyOps} sig own sec seed tk seed' tk' :
  session_texts sig own sec seed tk → session_texts sig own sec seed' tk' → tk = tk'.
Proof.
  intros (s & o & k & kp & E1 & E2 & E3 & Hs & ->) (s' & o' & k' & kp' & E1' & E2' & E3' & Hs' & ->).
  rewrite E1 in E1'. injection E1' as <-. rewrite E2 in E2'. injection E2' as <-. rewrite E3 in E3'. injection E3' as <-.
  rewrite Hs in Hs'. by injection Hs' as _ ->.
Qed.

Lemma counter_mirrors `{NodeCrypto} `{!NodeCryptoLaws} `{Poseidon} `{Web3} `{Base58} `{!Base58Laws} `{Nacl} `{ForeignIx} `{KeyOps}
    {S S'} vault_id (server : OrderServer S') (server' : OrderServer S) sbody mbody w ua w1 s a s' :
  distinct_discriminators (fst <$> matching_table) →
  build_submit_order server (Ok sbody) w = (Ok (Sent ua), w1) → counter_and_match server' (Ok mbody) s = (Ok (Counter_sent a), s') →
  sbody.(sb_amount) = mbody.(mb_userAmount) → sbody.(sb_priceLimit) = mbody.(mb_userPriceLimit) → sbody.(sb_side) = mbody.(mb_userSide) →
  mirrored vault_id server server' sbody mbody ua a.
Proof.
  intros Hd Hu Hm Eam Epr Eside.
  apply build_submit_order_Ok in Hu as (conns & programs & v & v' & p & built & Hsetup & Hof & Hb & Hj & Hjp).
  apply counter_and_match_Ok in Hm as (x & seed & tk & i & sd & expiry & at2 & pt2 & noteHex & oidHex & receipt & order & makerIx & out &
    Hto & Hran & Hans & Hnote & Hid & Hsl).
  destruct (submit_keys _ _ Hb) as (upda & Hupda & Hbp & Hkeys).
  destruct (cr_sent _ _ _ _ _ _ _ _ _ _ _ _ _ _ Hran) as (mbuilt & sig & t & t' & Hmb & Hix & _).
  destruct (submit_keys _ _ Hmb) as (mpda & Hmpda & _ & Hmkeys). rewrite Hix in Hmkeys.
  destruct (cr_plain _ _ _ _ _ _ _ _ _ _ _ _ _ _ Hran) as (Ot & Om & Opid & Omkt & Otk).
  exists programs, p, built.(submit_ix), upda.1, x, order, receipt, makerIx, mpda.1. split.
  - split; [by exists conns, v, v'|exact Hof].
  - split; [rewrite Hj; apply instructionJson_roundtrip|]. split; [by rewrite Hjp, Hbp|]. split; [by apply submit_accepted|exact Hkeys].
  - split; [rewrite <-Hix, <-Opid; by apply submit_accepted|by rewrite <-Otk].
  - by exists seed, tk, i, sd, expiry, at2, pt2, noteHex, oidHex, out.
  - by split_and!.
  - intros (E1 & E2 & E3 & E4) ->. destruct (cr_batch _ _ _ _ _ _ _ _ _ _ _ _ _ _ Hran) as (up & mp & sg & y & y' & Hup & Hmp & Hsend).
    destruct (oo_session _ _ _ Hof) as (seed1 & Hses). rewrite E1, E2, E3 in Hses.
    pose proof (session_texts_once _ _ _ _ _ _ _ Hses (to_session _ _ _ _ _ _ _ _ _ _ _ _ Hto)) as Ek.
    destruct (oo_place _ _ _ Hof) as [Ei _], (to_place _ _ _ _ _ _ _ _ _ _ _ _ Hto) as [Ei' _]. rewrite E4, Ei' in Ei. injection Ei as ->.
    destruct (oo_market _ _ _ Hof) as [P1 P2]. rewrite P1, P2, Ek, Hup in Hupda. apply Ok_inj in Hupda as ->.
    rewrite Opid, Omkt, Hmp in Hmpda. apply Ok_inj in Hmpda as ->. by exists sg, y, y'.
  - destruct (cr_amount _ _ _ _ _ _ _ _ _ _ _ _ _ _ Hran) as [Ca Cp], (to_terms _ _ _ _ _ _ _ _ _ _ _ _ Hto) as [Ma Mp].
    destruct (oo_amount _ _ _ Hof) as (at1 & Ua & Pa), (oo_price _ _ _ Hof) as (pt1 & Up & Pp).
    rewrite Eam, Ma in Ua. injection Ua as <-. rewrite Epr, Mp in Up. injection Up as <-.
    rewrite Pa in Ca. apply Ok_inj in Ca. rewrite Pp in Cp. apply Ok_inj in Cp.
    destruct (oo_place _ _ _ Hof) as [_ Us], (to_place _ _ _ _ _ _ _ _ _ _ _ _ Hto) as [_ Ms]. rewrite Eside, Ms in Us. injection Us as ->.
    destruct (oo_plain _ _ _ Hof) as [Pt Pm].
    pose proof (cr_side _ _ _ _ _ _ _ _ _ _ _ _ _ _ Hran) as Cs. destruct (cr_note _ _ _ _ _ _ _ _ _ _ _ _ _ _ Hran) as (Cn & _ & Cv & _).
    intros ku km nu nm us ms u m Su Sm. apply submit_handler_writes in Su, Sm.
    destruct Su as (Su & Uside & Uam & Upr & Uty & Umf & _), Sm as (Sm & Mside & Mam & Mpr & Mty & Mmf & Mcn & Mna).
    cbn [submit_args side soa_amount price_limit order_type min_fill_qty note_commitment note_amount] in *.
    rewrite Mside, Uside, Uam, Mam, Upr, Mpr, Uty, Mty, Umf, Mmf, Mcn, Mna, Ca, Cp, Cn, Cv, Cs, Pt, Pm, Ot, Om.
    split_and!; try done. by destruct Su as [E|E]; rewrite E.
Qed.

(** [C20] The maker's order mirrors the user's.  When [build-submit-order] built the
    user's order and [counter-and-match], asked with the same amount, price and
    side, answers with a trade, the order built is the one of the request, field
    by field, and the matching engine reads it and the maker's as [submit_order];
    whatever slots it writes them to, the two orders are on opposite sides, of
    equal amount and price, plain limit orders; the maker's is backed by the note
    it has just deposited, whose value (modulo 2^64) it declares.  If the requests
    are of one session and slot, and the servers of one configuration, the batch
    ran over exactly the two accounts these instructions write.  The answer is
    the report of the settlement of the note and the order id the request names
    against the maker's. *)
Theorem counter_order_mirrors `{NodeCrypto} `{!NodeCryptoLaws} `{Poseidon} `{Web3} `{Base58} `{!Base58Laws} `{Nacl} `{ForeignIx} `{KeyOps}
    {S S'} vault_id (server : OrderServer S') (server' : OrderServer S) sbody mbody w ua w1 s a s' :
  distinct_discriminators (fst <$> matching_table) →
  build_submit_order server (Ok sbody) w = (Ok (Sent ua), w1) → counter_and_match server' (Ok mbody) s = (Ok (Counter_sent a), s') →
  sbody.(sb_amount) = mbody.(mb_userAmount) → sbody.(sb_priceLimit) = mbody.(mb_userPriceLimit) → sbody.(sb_side) = mbody.(mb_userSide) →
  mirrored vault_id server server' sbody mbody ua a.
Proof. apply counter_mirrors. Qed.

(** ** A sample trade

    The world is the log of the transactions the nodes confirmed; every account
    is delegated, the rollup shows a matched slot, and the account of the results
    appears with the batch. *)
Module SampleCounter.
Import Toy.
#[export] Instance web3 : Web3 := SampleText.hex_web3.
#[export] Instance base58 : Base58 := SampleText.hex_base58.
#[export] Instance base58_laws : @Base58Laws web3 base58 := SampleText.hex_base58_laws.
#[export] Instance nacl : Nacl := SamplePhantom.nacl.
#[export] Instance foreign_ix : ForeignIx := SampleServer.foreign_ix.
#[export] Instance key_ops : KeyOps := {|
  Keypair_fromSecretKey secret := Ok {| kp_publicKey := key_of (take 32 secret); kp_secretKey := secret |};
  Keypair_fromSeed seed := Ok {| kp_publicKey := key_of (take 32 seed); kp_secretKey := seed |};
  keyPair_fromSeed_secretKey seed := Ok seed |}.

Definition World : Type := list string.
Definition programs : DemoPrograms := SampleServer.programs.
Definition batch_pda : PublicKey := (batchResultsPda programs.(meProgramId) programs.(market)).1.
Definition user_note : bytes := replicate 31 x00 ++ [x02].

Definition history : Connection World := {| getSignaturesForAddress _ _ _ := mret []; getTransaction _ := mret None |}.

(** [results] is the account of the results once the batch ran. *)
Definition node (results : option bytes) : L1Connection World := {|
  l1_getAccountInfo pda w :=
    (Ok (if bool_decide (pda = batch_pda)
         then (if (5 <=? length w)%nat then (λ data, {| ai_data := data; ai_owner := zero_key |}) <$> results else None)
         else if bool_decide (pda = (vaultConfigPda programs.(vaultProgramId)).1)
         then Some {| ai_data := vault_account (replicate 8 x07) x01 SampleChain.cfg; ai_owner := zero_key |}
         else Some {| ai_data := replicate 100 x02; ai_owner := DELEGATION_PROGRAM_ID |}), w);
  l1_send _ _ w := (Ok ("sig" +:+ pretty (length w)), w ++ ["sig" +:+ pretty (length w)]);
  l1_getSlot := mret 5; l1_getBalance _ := mret 100000000; l1_history := history |}.

Definition keypair (b : byte) : Keypair := {| kp_publicKey := key_of (replicate 32 b); kp_secretKey := replicate 64 b |}.
Definition keyring : DemoKeyring :=
  {| kr_admin := keypair x51; kr_funder := keypair x52; kr_tee := keypair x53; kr_maker := keypair x54 |}.

Definition server (results : option bytes) : OrderServer World := {|
  os_server := {| ds_env _ := None; ds_now := mret 1; ds_config := mret SampleServer.config; ds_connection _ := node results |};
  os_keyring := mret keyring; os_randomBytes n := mret (replicate n x00); os_sleep _ := mret (); os_Number _ := 7 |}.

(** The note the maker deposits. *)
Definition maker_note : bytes :=
  match maker_deposit {| x_server := server None; x_connections := getDemoConnections (server None).(os_server) SampleServer.config;
                         x_programs := programs; x_keys := keyring |} true zero_key zero_key "10" ([], []) with
  | (Ok (_, receipt), _) => receipt.(dr_noteCommitment)
  | _ => []
  end.

Definition the_match : MatchResultRecord :=
  let m := SampleTrade.match_for (replicate 31 x00 ++ [x07]) in
  {| mr_noteBuyer := user_note; mr_noteSeller := maker_note; mr_noteE := m.(mr_noteE); mr_noteF := m.(mr_noteF);
     mr_ownerBuyer := m.(mr_ownerBuyer); mr_ownerSeller := m.(mr_ownerSeller);
     mr_userCommitmentBuyer := m.(mr_userCommitmentBuyer); mr_userCommitmentSeller := m.(mr_userCommitmentSeller);
     mr_buyerNoteValue := 1000; mr_sellerNoteValue := 30; mr_baseAmt := 10; mr_quoteAmt := 1000; mr_buyerChangeAmt := 0;
     mr_sellerChangeAmt := 20; mr_buyerFeeAmt := 0; mr_sellerFeeAmt := 0; mr_buyerRelockOrderId := m.(mr_buyerRelockOrderId);
     mr_buyerRelockExpiry := 0; mr_sellerRelockOrderId := m.(mr_sellerRelockOrderId); mr_sellerRelockExpiry := 0;
     mr_price := 100; mr_pythAtMatch := 100; mr_batchSlot := 9; mr_matchId := 12; mr_status := 1 |}.

Definition results : bytes :=
  let b := SampleTrade.batch_for (replicate 31 x00 ++ [x07]) in
  batch_results_bytes (replicate 8 x09)
    {| br_market := b.(br_market); br_lastInclusionRoot := b.(br_lastInclusionRoot); br_lastBatchSlot := 9; br_lastMatchCount := 1;
       br_lastClearingPrice := 100; br_lastPythTwap := 100; br_lastCircuitBreakerTripped := false; br_writeCursor := 1;
       br_nextMatchId := 13; br_results := the_match :: replicate 15 SampleTrade.no_match;
       br_feeAccumulators := b.(br_feeAccumulators); br_bump := 1 |}.

Definition trading_secret : bytes :=
  match verifyPhantomSeedSignature SampleServer.signature SampleServer.owner with
  | Ok v => match deriveTradingKeyAtOffset v.(vf_seed) 0 with Ok k => k | Throw _ => [] end
  | Throw _ => []
  end.

Definition submit_body : SubmitBody := {|
  sb_phantomSignatureBase58 := Some SampleServer.signature; sb_ownerPubkeyBase58 := Some SampleServer.owner;
  sb_tradingSecretKeyBase58 := Some (toHex trading_secret); sb_slotIdx := Some 0; sb_side := Some 0; sb_amount := Some "10";
  sb_priceLimit := Some "100"; sb_noteAmount := Some "1000"; sb_expirySlot := Some "900";
  sb_noteCommitmentHex := Some (toHex user_note); sb_userOwnerCommitmentHex := Some (toHex (replicate 32 x07));
  sb_orderIdHex := Some (toHex (replicate 16 x05)) |}.

Definition match_body : MatchBody := {|
  mb_phantomSignatureBase58 := Some SampleServer.signature; mb_ownerPubkeyBase58 := Some SampleServer.owner;
  mb_tradingSecretKeyBase58 := Some (toHex trading_secret); mb_userSlotIdx := Some 0; mb_userSide := Some 0;
  mb_userAmount := Some "10"; mb_userPriceLimit := Some "100"; mb_userNoteAmount := Some "1000";
  mb_userNoteCommitmentHex := Some (toHex user_note); mb_userOwnerCommitmentHex := Some (toHex (replicate 32 x07));
  mb_userOrderIdHex := Some (toHex (replicate 16 x05)); mb_userExpirySlot := Some "900" |}.
End SampleCounter.

Lemma sample_logging results url : logging (λ w : SampleCounter.World, w) ((SampleCounter.server results).(os_server).(ds_connection) url).
Proof.
  assert (Hq : ∀ {A} (r : res A), confirms (λ w : SampleCounter.World, w) [] (λ w, (r, w)) (λ _, [])).
  { intros A r w r' w' [= <- <-]. exists []. rewrite app_nil_r. split; [done|]. intros. apply sublist_nil_l. }
  split; intros; try apply Hq.
  - intros w r w' [= <- <-]. exists []. rewrite app_nil_r. split; [done|]. intros. apply sublist_nil_l.
  - intros w r w' [= <- <-]. eexists. split; [done|]. intros a [= <-]. done.
Qed.

Lemma sample_server_logs results : logging_server (λ w : SampleCounter.World, w) (SampleCounter.server results).
Proof.
  split; intros; try apply sample_logging; intros w r w' [= <- <-]; exists []; rewrite app_nil_r; (split; [done|]); intros; apply sublist_nil_l.
Qed.

(** The trade goes through and reports its eight transactions. *)
Lemma sample_counter_runs : ∃ a w',
  @counter_and_match Toy.toy_crypto Toy.toy_Poseidon SampleCounter.web3 SampleCounter.base58 SampleCounter.nacl
    SampleCounter.foreign_ix SampleCounter.key_ops _ (SampleCounter.server (Some SampleCounter.results)) (Ok SampleCounter.match_body) []
  = (Ok (Counter_sent a), w') ∧ length a.(ma_signatures) = 8%nat.
Proof. do 2 eexists. split; [vm_compute; reflexivity|reflexivity]. Qed.

Lemma sample_submit_runs : ∃ a w',
  @build_submit_order Toy.toy_crypto SampleCounter.web3 SampleCounter.base58 SampleCounter.nacl SampleCounter.key_ops _
    (SampleCounter.server None) (Ok SampleCounter.submit_body) [] = (Ok (Sent a), w').
Proof. do 2 eexists. vm_compute. reflexivity. Qed.

Lemma counter_and_match_reports_witness : ∃ a w',
  @counter_and_match Toy.toy_crypto Toy.toy_Poseidon SampleCounter.web3 SampleCounter.base58 SampleCounter.nacl
    SampleCounter.foreign_ix SampleCounter.key_ops _ (SampleCounter.server (Some SampleCounter.results)) (Ok SampleCounter.match_body) []
  = (Ok (Counter_sent a), w') ∧ length a.(ma_signatures) = 8%nat ∧ (si_signature <$> a.(ma_signatures)) `sublist_of` w'.
Proof.
  destruct sample_counter_runs as (a & w' & Hrun & Hlen). exists a, w'. split; [exact Hrun|]. split; [exact Hlen|].
  destruct (@counter_and_match_reports Toy.toy_crypto Toy.toy_Poseidon SampleCounter.web3 SampleCounter.base58 SampleCounter.nacl
    SampleCounter.foreign_ix SampleCounter.key_ops _ (λ w : SampleCounter.World, w) (SampleCounter.server (Some SampleCounter.results))
    (Ok SampleCounter.match_body) [] (sample_server_logs _)) as (ans & s' & mid & Hr & Hl & Hs & _).
  rewrite Hrun in Hr. injection Hr as <- <-. rewrite Hl. exact Hs.
Defined.

Lemma sample_setup results conns programs v v' :
  @demo_setup SampleCounter.base58 SampleCounter.World (SampleCounter.server results).(os_server) v = (Ok (conns, programs), v') →
  @parseDemoPrograms SampleCounter.base58 SampleServer.config = Ok programs.
Proof.
  intros Hr. unfold demo_setup in Hr. apply M_bind_Ok in Hr as (cfg & v1 & [= <- _] & Hr).
  apply M_bind_Ok in Hr as (ps & v2 & [Hp _]%liftR_inv & Hr). by injection Hr as _ <- _.
Qed.

Lemma counter_order_mirrors_witness : ∃ programs (p : BuildSubmitOrderParams) (order : MakerOrder) makerIx userPda makerPda,
  @parseDemoPrograms SampleCounter.base58 SampleServer.config = Ok programs ∧ p.(so_slotIdx) = 0 ∧ p.(so_orderId) = hexToBytes (toHex (replicate 16 x05)) ∧
  order.(mo_params).(so_side) = 1 ∧ order.(mo_params).(so_amount) = 10 ∧ order.(mo_params).(so_priceLimit) = 100 ∧
  @accepted_as _ (@matching_program SampleCounter.web3 Toy.zero_key) Toy.toy_crypto programs.(meProgramId) makerIx
    (MSubmitOrder (submit_args order.(mo_params))) ∧
  ∃ er sig t t', l1_send er
    [@buildRunBatchInstruction Toy.toy_crypto SampleCounter.web3
       {| rb_programId := programs.(meProgramId); rb_vaultProgramId := programs.(vaultProgramId);
          rb_teeAuthority := SampleCounter.keyring.(kr_tee).(kp_publicKey); rb_market := programs.(market);
          rb_pythAccount := programs.(pythAccount); pendingOrderPdas := [userPda; makerPda] |}]
    [SampleCounter.keyring.(kr_tee)] (t : SampleCounter.World) = (Ok sig, t').
Proof.
  destruct sample_counter_runs as (a & w' & Hrun & _), sample_submit_runs as (ua & w1 & Hsub).
  destruct (@counter_order_mirrors Toy.toy_crypto Toy.toy_crypto_laws Toy.toy_Poseidon SampleCounter.web3 SampleCounter.base58
    SampleCounter.base58_laws SampleCounter.nacl SampleCounter.foreign_ix SampleCounter.key_ops _ _ Toy.zero_key (SampleCounter.server None)
    (SampleCounter.server (Some SampleCounter.results)) SampleCounter.submit_body SampleCounter.match_body [] ua w1 [] a w'
    ltac:(unfold distinct_discriminators; apply (bool_decide_unpack _); vm_compute; exact I) Hsub Hrun eq_refl eq_refl eq_refl)
    as (programs & p & uix & upda & x & order & receipt & mix & mpda & [[(conns & v & v' & Hset) Hof] _ [Hacc _] Htr _ Hbatch _]).
  destruct Htr as (seed & tk & i & sd & ex & at1 & pt1 & nh & oh & out & Hto & Hran & _).
  destruct (to_server _ _ _ _ _ _ _ _ _ _ _ _ Hto) as (_ & (u & u' & Hset') & (k & k' & Hkeys)).
  apply sample_setup in Hset, Hset'. injection Hkeys as Hkeys _.
  specialize (Hbatch (conj eq_refl (conj eq_refl (conj eq_refl eq_refl)))). rewrite <-Hkeys in Hbatch.
  assert (Heq : programs = x_programs x) by (apply Ok_inj; rewrite <-Hset; exact Hset').
  rewrite <-Heq in Hacc. exists programs, p, order, mix, upda, mpda.
  destruct (oo_place _ _ _ Hof) as [Hi _]. split; [exact Hset|]. split; [by injection Hi|].
  destruct (oo_id _ _ _ Hof) as (t & [= <-] & Hid). split; [exact Hid|].
  destruct (to_place _ _ _ _ _ _ _ _ _ _ _ _ Hto) as [_ [= <-]], (to_terms _ _ _ _ _ _ _ _ _ _ _ _ Hto) as [[= <-] [= <-]].
  split; [exact (cr_side _ _ _ _ _ _ _ _ _ _ _ _ _ _ Hran)|].
  destruct (cr_amount _ _ _ _ _ _ _ _ _ _ _ _ _ _ Hran) as [Ha Hp]. split; [by injection Ha|]. split; [by injection Hp|].
  split; [exact Hacc|]. destruct (Hbatch Heq) as (sig & y & y' & Hsend). by exists (x_connections x).(dc_er), sig, y, y'.
Defined.

(** A key with a pending order in its first slot and matched ones after it. *)
Module SampleSlots.
Import Toy.
Definition order (status : PendingStatus) : PendingOrder :=
  {| po_trading_key := replicate 32 x21; po_market := replicate 32 x22; po_status := status; po_side := 0; po_order_type := 0;
     po_slot_idx := 0; po_arrival_slot := 5; po_expiry_slot := 500; po_price_limit := 100; po_amount := 10; po_total_quantity := 10;
     po_filled_quantity := 0; po_min_fill_qty := 0; po_note_amount := 1000; po_collateral_note := replicate 32 x01;
     po_user_commitment := replicate 32 x02; po_order_id := replicate 16 x03; po_order_inclusion_commitment := replicate 32 x04 |}.
Definition live (i : Z) : option PendingOrder := Some (order (if i =? 0 then PENDING else MATCHED)).
Definition pda (i : Z) : PublicKey := match pendingOrderPda zero_key zero_key zero_key i with Ok p => p.1 | Throw _ => zero_key end.

(** The first slot on L1, the others delegated. *)
Definition node (owner : PublicKey) : L1Connection () := {|
  l1_getAccountInfo p := mret (Some
    {| ai_data := pending_order_account (replicate 8 x07) x01 (order (if bool_decide (p = pda 0) then PENDING else MATCHED));
       ai_owner := if bool_decide (p = pda 0) then zero_key else owner |});
  l1_send _ _ := mret "sig"; l1_getSlot := mret 5; l1_getBalance _ := mret 0; l1_history := SampleLedger.node |}.

Lemma view i pd bump : pendingOrderPda zero_key zero_key zero_key i = Ok (pd, bump) → bool_decide (pd = pda 0) = (i =? 0) →
  shows (node DELEGATION_PROGRAM_ID) (node zero_key) zero_key zero_key zero_key i (live i).
Proof.
  intros Hp Hb. exists pd, bump. split; [exact Hp|]. unfold live. split; [reflexivity|]. split; [reflexivity|].
  exists (replicate 8 x07), x01. eexists. split; [reflexivity|]. unfold node, l1_getAccountInfo. rewrite Hb. split; [reflexivity|].
  cbn [ai_owner ai_data]. destruct (i =? 0).
  - assert (Hz : bool_decide (zero_key = DELEGATION_PROGRAM_ID) = false) by (vm_compute; reflexivity). by rewrite Hz.
  - rewrite bool_decide_eq_true_2 by done. eexists. split; [reflexivity|]. reflexivity.
Qed.

Lemma views : Forall (λ i, shows (node DELEGATION_PROGRAM_ID) (node zero_key) zero_key zero_key zero_key i (live i)) slot_indices.
Proof.
  unfold slot_indices. repeat (apply Forall_cons; split; [eapply view; [reflexivity|vm_compute; reflexivity]|]). by apply Forall_nil.
Qed.
End SampleSlots.

Lemma chooseFreshSlot_correct_witness : ∃ pick,
  @chooseFreshSlot Toy.toy_web3 _ (SampleSlots.node (@DELEGATION_PROGRAM_ID Toy.toy_web3)) (SampleSlots.node Toy.zero_key)
    Toy.zero_key Toy.zero_key Toy.zero_key tt = (Ok pick, tt) ∧
  pick = {| sp_slotIdx := 1; sp_needsInit := false |} ∧ @pick_correct Toy.toy_crypto SampleSlots.live init_slot_full (Ok pick).
Proof.
  destruct (@chooseFreshSlot_correct Toy.toy_crypto Toy.toy_web3 _ (SampleSlots.node (@DELEGATION_PROGRAM_ID Toy.toy_web3))
    (SampleSlots.node Toy.zero_key) Toy.zero_key Toy.zero_key Toy.zero_key SampleSlots.live tt SampleSlots.views) as [(r & Hr & Hp) _].
  assert (Hrun : @chooseFreshSlot Toy.toy_web3 _ (SampleSlots.node (@DELEGATION_PROGRAM_ID Toy.toy_web3)) (SampleSlots.node Toy.zero_key)
    Toy.zero_key Toy.zero_key Toy.zero_key tt = (Ok {| sp_slotIdx := 1; sp_needsInit := false |}, tt)) by (vm_compute; reflexivity).
  rewrite Hrun in Hr. injection Hr as <-. eexists. split; [exact Hrun|]. split; [reflexivity|exact Hp].
Defined.
