(* ===== verification/ServerKeys.v ===== *)
(** Where the demo server finds its configuration and its keys
    ([apps/demo/src/lib/dapp/demo-devnet.ts]): environment variables first, then
    files.  The theorems say which source is used, that a source that is set but
    malformed is an error and not passed over, and that every supported form of a
    key loads the same key. *)

From Stdlib Require Import Ascii.
From S2P Require Import Prelude Bytes Errors Externals Keys Client Session DecimalText Decimals DemoText JsonText.
From S2P Require Import Merkle VaultClient LeafHistory DemoKeys DemoChain Routes OrderRoutes.

Local Open Scope Z_scope.

(** ** The process

    [process.env], [process.cwd()], [existsSync], [readFileSync(p, "utf8")],
    [homedir()] and [resolve(...)]; the byte a number with a fraction or an exponent
    is stored as, [new Uint8Array(v)] on what is not an array of numbers, and the
    message of a [SyntaxError]. *)
Class Host := {
  process_env : string → option string;
  process_cwd : string;
  existsSync : string → bool;
  readFileSync : string → res string;
  homedir : string;
  path_resolve : list string → string;
  literal_byte : string → byte;
  odd_Uint8Array : Json → res bytes;
  syntax_message : string → string;
}.

(** [bs58.encode] *)
Class Base58Encode := { bs58_encode : bytes → string }.

(** [s.startsWith(p)], and the text after it. *)
Definition startsWith (p s : string) : bool := match strip_word p s with Some _ => true | None => false end.

(** Set, and not only blanks: [v && v.trim().length > 0]. *)
Definition nonblank (v : option string) : option string :=
  match truthy v with
  | Some s => if bool_decide (trim s = "") then None else Some s
  | None => None
  end.

Section host.
Context `{Host}.

Definition JSON_parse (text : string) : res Json :=
  match JSON_read text with Some j => Ok j | None => Throw (EError "SyntaxError" (syntax_message text)) end.

(** [typeof b === "number"], and the byte [new Uint8Array] stores. *)
Definition number_byte (j : Json) : option byte :=
  match j with JNum n => Some (u8_of_Z n) | JLit lit => Some (literal_byte lit) | _ => None end.

(** The bytes of an array of numbers. *)
Definition number_array (j : Json) : option bytes :=
  match j with JArr l => mapM number_byte l | _ => None end.

Definition new_Uint8Array (j : Json) : res bytes :=
  match number_array j with Some bs => Ok bs | None => odd_Uint8Array j end.

(** ** Paths *)

Definition find_root (failure : string) : res string :=
  let cwd := process_cwd in
  if existsSync (path_resolve [cwd; "packages"; "sdk"]) then Ok cwd
  else
    let upTwo := path_resolve [cwd; ".."; ".."] in
    if existsSync (path_resolve [upTwo; "packages"; "sdk"]) then Ok upTwo else Throw (Error failure).

Definition resolveRepoRoot : res string := find_root "Unable to resolve monorepo root from cwd.".

Definition expandUserPath (inputPath : string) : string :=
  match strip_word "~/" inputPath with Some rest => path_resolve [homedir; rest] | None => inputPath end.

Definition requireEnv (name : string) : res string :=
  match truthy (process_env name) with
  | Some v => Ok v
  | None => Throw (Error ("Missing required env: " +:+ name))
  end.

(** ** [loadDemoE2eConfig] *)

(** [obj.name], and the text of [obj.name.pubkey]. *)
Fixpoint jget (k : string) (l : list (string * Json)) : option Json :=
  match l with
  | [] => None
  | (k', v) :: l => match jget k l with Some v => Some v | None => if String.eqb k' k then Some v else None end
  end.
Definition jfield (k : string) (j : Json) : option Json := match j with JObj l => jget k l | _ => None end.
Definition jtext (k : string) (j : Json) : option string :=
  match jfield k j with Some (JStr s) => Some s | _ => None end.

Definition parseE2eConfig (raw source : string) : res Json :=
  parsed ← match JSON_parse raw with
           | Ok j => Ok j
           | Throw e => Throw (Error ("Failed to parse e2e config from " +:+ source +:+ ": " +:+ exn_message e))
           end;
  match parsed with
  | JArr _ | JObj _ => Ok parsed
  | _ => Throw (Error ("E2e config from " +:+ source +:+ " must be a JSON object"))
  end.

(** The path of the configuration file. *)
Definition config_path (repoRoot : string) : string :=
  match truthy (process_env "DEMO_E2E_CONFIG_PATH") with
  | Some customPath => if startsWith "/" customPath then customPath else path_resolve [repoRoot; customPath]
  | None => path_resolve [repoRoot; ".devnet"; "e2e-config.json"]
  end.

Definition missing_config (p : string) : exn :=
  Error ("Missing e2e config: tried env DEMO_E2E_CONFIG_JSON / DEMO_E2E_CONFIG_PATH, and disk fallback " +:+ dquote +:+ p
         +:+ dquote +:+ " does not exist. Generate devnet fixtures (see packages/sdk tests / demo docs) or set "
         +:+ "DEMO_E2E_CONFIG_JSON on serverless deploys.").

Definition loadDemoE2eConfig (repoRoot : string) : res Json :=
  match nonblank (process_env "DEMO_E2E_CONFIG_JSON") with
  | Some inline => parseE2eConfig inline "DEMO_E2E_CONFIG_JSON env"
  | None =>
      let p := config_path repoRoot in
      if negb (existsSync p) then Throw (missing_config p)
      else text ← readFileSync p; parseE2eConfig text p
  end.

(** The fields [parseDemoPrograms] and [getDemoConnections] read; one that is not
    the text it is cast to fails there. *)
Definition config_fields (j : Json) : option DemoE2eConfigJson :=
  rpc ← jtext "l1RpcUrl" j; vault ← jtext "vaultProgramId" j; me ← jtext "matchingEngineProgramId" j;
  pyth ← jtext "pythAccount" j; mkt ← jfield "market" j ≫= jtext "pubkey"; base ← jfield "baseMint" j ≫= jtext "pubkey";
  quote ← jfield "quoteMint" j ≫= jtext "pubkey";
  Some {| cfg_l1RpcUrl := rpc; cfg_vaultProgramId := vault; cfg_matchingEngineProgramId := me; cfg_pythAccount := pyth;
          cfg_market := mkt; cfg_baseMint := base; cfg_quoteMint := quote |}.

Definition loaded_config : res DemoE2eConfigJson :=
  repoRoot ← resolveRepoRoot;
  j ← loadDemoE2eConfig repoRoot;
  match config_fields j with Some cfg => Ok cfg | None => Throw (TypeError "e2e config field") end.

(** ** Keys *)

Context `{Base58} `{KeyOps}.

(** [Keypair.fromSecretKey(nacl.sign.keyPair.fromSeed(bytes).secretKey)] *)
Definition keypair_of_seed (seed : bytes) : res Keypair :=
  secret ← keyPair_fromSeed_secretKey seed; Keypair_fromSecretKey secret.

Definition keypairFromBase58 (secret : string) : res Keypair :=
  bytes ← bs58_decode (trim secret);
  if (length bytes =? 64)%nat then Keypair_fromSecretKey bytes
  else if (length bytes =? 32)%nat then keypair_of_seed bytes
  else Throw (Error "Base58 key must decode to 32-byte seed or 64-byte secret key.").

Definition loadKeypairFromPath (repoRoot maybeRelative : string) : res Keypair :=
  let expanded := expandUserPath maybeRelative in
  let absolute := if startsWith "/" expanded then expanded else path_resolve [repoRoot; expanded] in
  text ← readFileSync absolute;
  raw ← JSON_parse text;
  bytes ← new_Uint8Array raw;
  Keypair_fromSecretKey bytes.

Definition keypair_from_json (envBase jsonRaw : string) : res Keypair :=
  parsed ← match JSON_parse jsonRaw with
           | Ok j => Ok j
           | Throw e => Throw (Error (envBase +:+ "_JSON is not valid JSON: " +:+ exn_message e))
           end;
  match number_array parsed with
  | None => Throw (Error (envBase +:+ "_JSON must be a JSON byte-array (e.g. [1,2,3,...])"))
  | Some bytes =>
      if negb (length bytes =? 64)%nat && negb (length bytes =? 32)%nat then
        Throw (Error (envBase +:+ "_JSON must be 32 or 64 bytes long, got " +:+ pretty (length bytes)))
      else
        if (length bytes =? 32)%nat then keypair_of_seed bytes else Keypair_fromSecretKey bytes
  end.

Definition loadKeypairFromEnv (envBase : string) : res (option Keypair) :=
  match nonblank (process_env (envBase +:+ "_JSON")) with
  | Some jsonRaw => Some <$> keypair_from_json envBase jsonRaw
  | None =>
      match nonblank (process_env (envBase +:+ "_BASE58")) with
      | Some base58Raw => Some <$> keypairFromBase58 base58Raw
      | None => Ok None
      end
  end.

Definition load_failure (envBase diskPath : string) (e : exn) : exn :=
  Error ("Failed to load " +:+ envBase +:+ ": env vars " +:+ envBase +:+ "_JSON / " +:+ envBase +:+ "_BASE58 are unset, and disk fallback "
         +:+ dquote +:+ diskPath +:+ dquote +:+ " could not be read (" +:+ exn_message e +:+ "). On serverless deploys, set "
         +:+ envBase +:+ "_JSON to the keypair byte-array.").

Definition loadKeypairFromEnvOrPath (envBase repoRoot pathEnvName defaultPath : string) : res Keypair :=
  fromEnv ← loadKeypairFromEnv envBase;
  match fromEnv with
  | Some kp => Ok kp
  | None =>
      let diskPath := default defaultPath (process_env pathEnvName) in
      match loadKeypairFromPath repoRoot diskPath with
      | Ok kp => Ok kp
      | Throw e => Throw (load_failure envBase diskPath e)
      end
  end.

Definition no_maker : exn :=
  Error ("Missing maker keypair. Set one of: DEMO_MAKER_KEYPAIR_JSON, " +:+
         "DEMO_MAKER_KEYPAIR_BASE58, or (legacy) DEMO_MAKER_SECRET_BASE58.").

Definition loadDemoMakerKeypair : res Keypair :=
  fromNew ← loadKeypairFromEnv "DEMO_MAKER_KEYPAIR";
  match fromNew with
  | Some kp => Ok kp
  | None =>
      match nonblank (process_env "DEMO_MAKER_SECRET_BASE58") with
      | Some legacy => keypairFromBase58 legacy
      | None => Throw no_maker
      end
  end.

Definition loadDemoAdminKeypair (repoRoot : string) : res Keypair :=
  loadKeypairFromEnvOrPath "DEMO_ADMIN_KEYPAIR" repoRoot "DEMO_ADMIN_KEYPAIR_PATH" ".devnet/keypairs/admin.json".

Definition loadDemoKeyring (repoRoot : string) : res DemoKeyring :=
  admin ← loadDemoAdminKeypair repoRoot;
  funder ← loadKeypairFromEnvOrPath "DEMO_FUNDER_KEYPAIR" repoRoot "DEMO_FUNDER_KEYPAIR_PATH" "~/.config/solana/id.json";
  tee ← loadKeypairFromEnvOrPath "DEMO_TEE_KEYPAIR" repoRoot "DEMO_TEE_KEYPAIR_PATH" ".devnet/keypairs/tee_authority.json";
  maker ← loadDemoMakerKeypair;
  Ok {| kr_admin := admin; kr_funder := funder; kr_tee := tee; kr_maker := maker |}.
End host.

(** ** The order of the sources *)

(** Where a key comes from. *)
Inductive KeySource :=
  | FromJson (text : string)
  | FromBase58 (text : string)
  | FromPath (path : string)
  | FromNowhere.

Section sources.
Context `{Host} `{Base58} `{KeyOps}.

(** The documented order: [.._JSON], [.._BASE58], then what the caller falls back
    to; blank variables do not count. *)
Definition env_source (envBase : string) (fallback : KeySource) : KeySource :=
  match nonblank (process_env (envBase +:+ "_JSON")), nonblank (process_env (envBase +:+ "_BASE58")) with
  | Some text, _ => FromJson text
  | None, Some text => FromBase58 text
  | None, None => fallback
  end.

(** Loading from one source only. *)
Definition load_source (envBase repoRoot : string) (source : KeySource) : res Keypair :=
  match source with
  | FromJson text => keypair_from_json envBase text
  | FromBase58 text => keypairFromBase58 text
  | FromPath path =>
      match loadKeypairFromPath repoRoot path with Ok kp => Ok kp | Throw e => Throw (load_failure envBase path e) end
  | FromNowhere => Throw no_maker
  end.

Lemma env_source_load envBase fallback repoRoot (k : res Keypair) :
  k = load_source envBase repoRoot fallback →
  (fromEnv ← loadKeypairFromEnv envBase; match fromEnv with Some kp => Ok kp | None => k end)
  = load_source envBase repoRoot (env_source envBase fallback).
Proof.
  intros ->. unfold loadKeypairFromEnv, env_source. destruct (nonblank (process_env (envBase +:+ "_JSON"))) as [text|]; cbn.
  - by destruct (keypair_from_json envBase text).
  - destruct (nonblank _) as [text|]; cbn; [|done]. by destruct (keypairFromBase58 text).
Qed.

Definition path_source (pathEnvName defaultPath : string) : KeySource := FromPath (default defaultPath (process_env pathEnvName)).
Definition maker_source : KeySource :=
  match nonblank (process_env "DEMO_MAKER_SECRET_BASE58") with Some legacy => FromBase58 legacy | None => FromNowhere end.

Lemma load_by_source envBase repoRoot pathEnvName defaultPath :
  loadKeypairFromEnvOrPath envBase repoRoot pathEnvName defaultPath
  = load_source envBase repoRoot (env_source envBase (path_source pathEnvName defaultPath)).
Proof. by apply env_source_load. Qed.

Lemma load_maker_by_source repoRoot :
  loadDemoMakerKeypair = load_source "DEMO_MAKER_KEYPAIR" repoRoot (env_source "DEMO_MAKER_KEYPAIR" maker_source).
Proof. apply env_source_load. unfold maker_source. by destruct (nonblank (process_env "DEMO_MAKER_SECRET_BASE58")). Qed.

(** A source holds a key in one of the supported forms: the 64 bytes of the
    secret key or its 32-byte seed, as an array of numbers or in base58, or a file
    with the 64 numbers. *)
Definition seed_of (seed secret : bytes) : Prop := length seed = 32%nat ∧ keyPair_fromSeed_secretKey seed = Ok secret.
Definition numbers_text (text : string) (bs : bytes) : Prop := JSON_read text = Some (to_numbers bs).

Definition holds (repoRoot : string) (source : KeySource) (secret : bytes) : Prop :=
  match source with
  | FromJson text => numbers_text text secret ∨ ∃ seed, numbers_text text seed ∧ seed_of seed secret
  | FromBase58 text => bs58_decode (trim text) = Ok secret ∨ ∃ seed, bs58_decode (trim text) = Ok seed ∧ seed_of seed secret
  | FromPath path =>
      ∃ text, readFileSync (let p := expandUserPath path in if startsWith "/" p then p else path_resolve [repoRoot; p]) = Ok text ∧
        numbers_text text secret
  | FromNowhere => False
  end.

Lemma number_array_numbers bs : number_array (to_numbers bs) = Some bs.
Proof.
  unfold to_numbers, number_array. induction bs as [|b bs IH]; [done|]. cbn [fmap list_fmap mapM compose number_byte].
  cbn. rewrite IH. cbn. by rewrite u8_of_Z_val.
Qed.

Lemma load_held envBase repoRoot source secret :
  length secret = 64%nat → holds repoRoot source secret → load_source envBase repoRoot source = Keypair_fromSecretKey secret ∨
  ∃ e, Keypair_fromSecretKey secret = Throw e.
Proof.
  intros Hl Hs. destruct source as [text|text|path|]; cbn [holds load_source] in *; [| | |done].
  - left. unfold keypair_from_json, JSON_parse, numbers_text in *. destruct Hs as [->|(seed & -> & Hs & Hk)]; cbn [mbind res_bind].
    + by rewrite number_array_numbers, Hl.
    + rewrite number_array_numbers, Hs. cbn. unfold keypair_of_seed. by rewrite Hk.
  - left. unfold keypairFromBase58. destruct Hs as [->|(seed & -> & Hs & Hk)]; cbn [mbind res_bind].
    + by rewrite Hl.
    + rewrite Hs. cbn. unfold keypair_of_seed. by rewrite Hk.
  - destruct Hs as (text & Hr & Ht). unfold loadKeypairFromPath. rewrite Hr. cbn [mbind res_bind]. unfold JSON_parse. rewrite Ht.
    cbn [mbind res_bind]. unfold new_Uint8Array. rewrite number_array_numbers. cbn [mbind res_bind].
    destruct (Keypair_fromSecretKey secret) as [kp|e] eqn:Hkp; [by left|right; eauto].
Qed.

(** Text of a key as [JSON.stringify] writes it. *)
Lemma written_numbers bs : numbers_text (JSON_write (to_numbers bs)) bs.
Proof.
  unfold numbers_text. apply JSON_roundtrip. unfold to_numbers. apply writable_arr, Forall_fmap, Forall_forall. intros b _. cbn.
  apply writable_num. pose proof (u8_val_range b). lia.
Qed.
End sources.

(** What the key ring reads: one source per persona. *)
Definition demo_sources `{Host} : KeySource * KeySource * KeySource * KeySource :=
  (env_source "DEMO_ADMIN_KEYPAIR" (path_source "DEMO_ADMIN_KEYPAIR_PATH" ".devnet/keypairs/admin.json"),
   env_source "DEMO_FUNDER_KEYPAIR" (path_source "DEMO_FUNDER_KEYPAIR_PATH" "~/.config/solana/id.json"),
   env_source "DEMO_TEE_KEYPAIR" (path_source "DEMO_TEE_KEYPAIR_PATH" ".devnet/keypairs/tee_authority.json"),
   env_source "DEMO_MAKER_KEYPAIR" maker_source).

(** [C30] The key ring is loaded from the documented sources.  For each persona one
    source counts, the first of its variables that is set and not blank, else its
    file (the maker: its legacy variable), and the ring is made of the keys
    loaded from these four alone, in order: a malformed source is an error, never
    passed over for the next.  When the sources hold the personas' secret keys,
    in whatever form each, the ring is the ring of these keys. *)
Theorem loadDemoKeyring_correct `{Host} `{Base58} `{KeyOps} repoRoot :
  let '(a, f, t, m) := demo_sources in
  loadDemoKeyring repoRoot =
    (admin ← load_source "DEMO_ADMIN_KEYPAIR" repoRoot a;
     funder ← load_source "DEMO_FUNDER_KEYPAIR" repoRoot f;
     tee ← load_source "DEMO_TEE_KEYPAIR" repoRoot t;
     maker ← load_source "DEMO_MAKER_KEYPAIR" repoRoot m;
     Ok {| kr_admin := admin; kr_funder := funder; kr_tee := tee; kr_maker := maker |}) ∧
  ∀ admin funder tee maker,
    Forall (λ kp, length kp.(kp_secretKey) = 64%nat ∧ Keypair_fromSecretKey kp.(kp_secretKey) = Ok kp) [admin; funder; tee; maker] →
    holds repoRoot a admin.(kp_secretKey) → holds repoRoot f funder.(kp_secretKey) →
    holds repoRoot t tee.(kp_secretKey) → holds repoRoot m maker.(kp_secretKey) →
    loadDemoKeyring repoRoot = Ok {| kr_admin := admin; kr_funder := funder; kr_tee := tee; kr_maker := maker |}.
Proof.
  assert (Heq : loadDemoKeyring repoRoot =
    (let '(a, f, t, m) := demo_sources in
     admin ← load_source "DEMO_ADMIN_KEYPAIR" repoRoot a;
     funder ← load_source "DEMO_FUNDER_KEYPAIR" repoRoot f;
     tee ← load_source "DEMO_TEE_KEYPAIR" repoRoot t;
     maker ← load_source "DEMO_MAKER_KEYPAIR" repoRoot m;
     Ok {| kr_admin := admin; kr_funder := funder; kr_tee := tee; kr_maker := maker |})).
  { unfold loadDemoKeyring, loadDemoAdminKeypair, demo_sources. by rewrite !load_by_source, (load_maker_by_source repoRoot). }
  rewrite Heq. unfold demo_sources. split; [done|]. intros admin funder tee maker Hk Ha Hf Ht Hm.
  apply Forall_cons in Hk as [[La Ka] Hk]. apply Forall_cons in Hk as [[Lf Kf] Hk]. apply Forall_cons in Hk as [[Lt Kt] Hk].
  apply Forall_cons in Hk as [[Lm Km] _].
  assert (Hload : ∀ envBase source (kp : Keypair), length kp.(kp_secretKey) = 64%nat → Keypair_fromSecretKey kp.(kp_secretKey) = Ok kp →
    holds repoRoot source kp.(kp_secretKey) → load_source envBase repoRoot source = Ok kp).
  { intros envBase source kp Hl Hkp Hs. destruct (load_held envBase repoRoot source _ Hl Hs) as [->|(e & E)]; congruence. }
  rewrite (Hload _ _ _ La Ka Ha), (Hload _ _ _ Lf Kf Hf), (Hload _ _ _ Lt Kt Ht), (Hload _ _ _ Lm Km Hm). done.
Qed.

(** A process with a key in each form: the admin's as numbers, the funder's in
    base58, the enclave's in its default file and the maker's in the old
    variable. *)
Module SampleHost.
Import Toy.
Definition secret (b : byte) : bytes := replicate 64 b.
Definition env (name : string) : option string :=
  if bool_decide (name = "DEMO_ADMIN_KEYPAIR_JSON") then Some (JSON_write (to_numbers (secret x51)))
  else if bool_decide (name = "DEMO_FUNDER_KEYPAIR_JSON") then Some "  "
  else if bool_decide (name = "DEMO_FUNDER_KEYPAIR_BASE58") then Some (" " +:+ toHex (secret x52))
  else if bool_decide (name = "DEMO_MAKER_SECRET_BASE58") then Some (toHex (secret x54))
  else None.
#[export] Instance host : Host := {|
  process_env := env; process_cwd := "/app"; existsSync p := bool_decide (p = "/app/packages/sdk");
  readFileSync p := if bool_decide (p = "/app/.devnet/keypairs/tee_authority.json") then Ok (JSON_write (to_numbers (secret x53)))
                    else Throw (Error "ENOENT");
  homedir := "/home"; path_resolve := String.concat "/"; literal_byte _ := x00; odd_Uint8Array _ := Ok [];
  syntax_message _ := "Unexpected token" |}.
End SampleHost.

Lemma loadDemoKeyring_correct_witness :
  @loadDemoKeyring SampleHost.host SampleText.hex_base58 SampleCounter.key_ops "/app" =
  Ok {| kr_admin := SampleCounter.keypair x51; kr_funder := SampleCounter.keypair x52; kr_tee := SampleCounter.keypair x53;
        kr_maker := SampleCounter.keypair x54 |}.
Proof.
  apply (proj2 (@loadDemoKeyring_correct SampleHost.host SampleText.hex_base58 SampleCounter.key_ops "/app")).
  - repeat (apply Forall_cons; split; [split; reflexivity|]). by apply Forall_nil.
  - left. apply written_numbers.
  - left. vm_compute. reflexivity.
  - eexists. split; [reflexivity|apply written_numbers].
  - left. vm_compute. reflexivity.
Defined.
