(* ===== verification/LiveFlow.v ===== *)
(** The handler behind the demo's live panel
    ([apps/demo/src/app/api/live-er-flow/route.ts]): deposits for a taker and a
    maker, an order of each, the batch; between the requests the flow's state is
    kept in a file.  The theorems say that the file keeps the state, that the
    orders spend the notes of the bootstrap and mirror each other, what the
    answers report, and what requests that overlap do to the file. *)

From Stdlib Require Import Ascii.
From stdpp Require Import gmap.
From S2P Require Import Prelude Bytes Errors Externals Keys Note Borsh VaultClient VaultProgram MatchingEngineClient ErClient MatchingProgram.
From S2P Require Import Settlement SettleProgram BatchResults Merkle MerkleShadow VaultTree Client Deposit VaultState.
From S2P Require Import Withdraw Session Orders DecimalText LeafHistory Decimals DemoText JsonText DemoKeys DemoChain Auction RunBatch.
From S2P Require Import Routes WalletRoutes TradeSettle Confirmed OrderRoutes ServerKeys.

Local Open Scope Z_scope.

(** ** The state of the flow *)

Record FlowStateActor := {
  fa_role : string; fa_tradingPubkey : string; fa_slotIdx : Z; fa_noteCommitmentHex : string; fa_ownerCommitmentHex : string;
  fa_noteAmount : string; fa_depositSignature : option string; fa_orderSignature : option string; fa_orderIdHex : option string }.

Record FlowState := {
  fs_updatedAt : string; fs_taker : option FlowStateActor; fs_maker : option FlowStateActor;
  fs_runBatchSignature : option string; fs_undelegateSignature : option string }.

(** A member that is [undefined] is not written. *)
Definition member_of {A} (f : A → Json) (k : string) (v : option A) : list (string * Json) :=
  match v with Some a => [(k, f a)] | None => [] end.

Definition actor_json (a : FlowStateActor) : Json :=
  JObj ([("role", JStr a.(fa_role)); ("tradingPubkey", JStr a.(fa_tradingPubkey)); ("slotIdx", JNum a.(fa_slotIdx));
         ("noteCommitmentHex", JStr a.(fa_noteCommitmentHex)); ("ownerCommitmentHex", JStr a.(fa_ownerCommitmentHex));
         ("noteAmount", JStr a.(fa_noteAmount))]
        ++ member_of JStr "depositSignature" a.(fa_depositSignature)
        ++ member_of JStr "orderSignature" a.(fa_orderSignature) ++ member_of JStr "orderIdHex" a.(fa_orderIdHex)).

Definition flow_json (st : FlowState) : Json :=
  JObj ([("updatedAt", JStr st.(fs_updatedAt))] ++ member_of actor_json "taker" st.(fs_taker)
        ++ member_of actor_json "maker" st.(fs_maker) ++ member_of JStr "runBatchSignature" st.(fs_runBatchSignature)
        ++ member_of JStr "undelegateSignature" st.(fs_undelegateSignature)).

Definition jnumber (k : string) (j : Json) : option Z := match jfield k j with Some (JNum n) => Some n | _ => None end.

Definition json_actor (j : Json) : option FlowStateActor :=
  role ← jtext "role" j; key ← jtext "tradingPubkey" j; slot ← jnumber "slotIdx" j; note ← jtext "noteCommitmentHex" j;
  owner ← jtext "ownerCommitmentHex" j; amount ← jtext "noteAmount" j;
  Some {| fa_role := role; fa_tradingPubkey := key; fa_slotIdx := slot; fa_noteCommitmentHex := note;
          fa_ownerCommitmentHex := owner; fa_noteAmount := amount; fa_depositSignature := jtext "depositSignature" j;
          fa_orderSignature := jtext "orderSignature" j; fa_orderIdHex := jtext "orderIdHex" j |}.

(** [JSON.parse(raw) as FlowState], for the objects this handler writes: an actor
    is absent or has its fields. *)
Definition json_flow (j : Json) : option FlowState :=
  updatedAt ← jtext "updatedAt" j;
  taker ← (match jfield "taker" j with Some t => Some <$> json_actor t | None => Some None end);
  maker ← (match jfield "maker" j with Some t => Some <$> json_actor t | None => Some None end);
  Some {| fs_updatedAt := updatedAt; fs_taker := taker; fs_maker := maker;
          fs_runBatchSignature := jtext "runBatchSignature" j; fs_undelegateSignature := jtext "undelegateSignature" j |}.

(** ** The server *)

(** What the handler asks of Node and the network: [Date.now()], [new
    Connection(url)], [randomBytes], [setTimeout], [fetch] with the fields read of
    the reply, the state file, and [new Date(ms).toISOString()]. *)
Record PerReply := { pr_status : Z; pr_challenge : res (option string); pr_token : res (option string) }.

Record LiveServer (S : Type) := {
  lv_now : M S Z;
  lv_connection : string → L1Connection S;
  lv_randomBytes : nat → M S bytes;
  lv_sleep : Z → M S ();
  lv_fetch : HttpRequest → M S PerReply;
  lv_readFile : string → M S string;
  lv_mkdir : string → M S ();
  lv_writeFile : string → string → M S ();
  lv_toISOString : Z → string;
}.
Arguments lv_now {S}.
Arguments lv_connection {S}.
Arguments lv_randomBytes {S}.
Arguments lv_sleep {S}.
Arguments lv_fetch {S}.
Arguments lv_readFile {S}.
Arguments lv_mkdir {S}.
Arguments lv_writeFile {S}.
Arguments lv_toISOString {S}.

Record RouteCtx (S : Type) := {
  rx_statePath : string; rx_l1 : L1Connection S; rx_er : L1Connection S; rx_erRpcUrl : string; rx_programs : DemoPrograms;
  rx_admin : Keypair; rx_funder : Keypair; rx_tee : Keypair; rx_taker : Keypair; rx_maker : Keypair; rx_perBaseUrl : string }.
Arguments rx_statePath {S}.
Arguments rx_l1 {S}.
Arguments rx_er {S}.
Arguments rx_erRpcUrl {S}.
Arguments rx_programs {S}.
Arguments rx_admin {S}.
Arguments rx_funder {S}.
Arguments rx_tee {S}.
Arguments rx_taker {S}.
Arguments rx_maker {S}.
Arguments rx_perBaseUrl {S}.

Inductive Role := Taker | Maker.
Definition role_text (r : Role) : string := match r with Taker => "taker" | Maker => "maker" end.

(** The payload of an answer. *)
Record FlowPayload := { fp_message : string; fp_tokenPreview : option string; fp_state : option FlowState }.

(** [Number(x)] of a bigint: the nearest double, ties to even. *)
Definition Number_of (x : Z) : Z :=
  if Z.abs x <=? 2 ^ 53 then x
  else
    let unit := 2 ^ (Z.log2 (Z.abs x) - 52) in
    let q := Z.abs x / unit in
    let r := 2 * (Z.abs x mod unit) in
    let q := if (r >? unit) || ((r =? unit) && Z.odd q) then q + 1 else q in
    Z.sgn x * (q * unit).

(** [s.slice(0, n)] is [str_take n s]. *)

Section live.
Context `{NodeCrypto} `{Poseidon} `{Web3} `{Base58} `{Base58Encode} `{Nacl} `{ForeignIx} `{KeyOps} `{Host} {S : Type}.
Context (server : LiveServer S).
Implicit Types ctx : RouteCtx S.

(** *** Keys and configuration *)

Definition live_resolveRepoRoot : res string := find_root "Unable to resolve monorepo root from current working directory.".

Definition live_keypairFromBase58 (secret : string) : res Keypair :=
  bytes ← bs58_decode (trim secret);
  if (length bytes =? 64)%nat then Keypair_fromSecretKey bytes
  else if (length bytes =? 32)%nat then Keypair_fromSeed bytes
  else Throw (Error "Base58 key must decode to 32-byte seed or 64-byte secret key.").

Definition env_or (name value : string) : string := default value (process_env name).

Definition buildCtx : res (RouteCtx S) :=
  repoRoot ← live_resolveRepoRoot;
  let cfgPath := path_resolve [repoRoot; ".devnet"; "e2e-config.json"] in
  text ← readFileSync cfgPath;
  j ← JSON_parse text;
  cfg ← (match config_fields j with Some cfg => Ok cfg | None => Throw (TypeError "e2e config field") end);
  let l1RpcUrl := env_or "DEMO_L1_RPC_URL" cfg.(cfg_l1RpcUrl) in
  let erRpcUrl := env_or "DEMO_ER_RPC_URL" "https://devnet.magicblock.app" in
  let perBaseUrl := strip_slash (env_or "DEMO_PER_BASE_URL" "https://tee.magicblock.app") in
  let statePath := path_resolve [repoRoot; ".devnet"; "demo-live-state.json"] in
  programs ← parseDemoPrograms cfg;
  admin ← loadKeypairFromPath repoRoot (env_or "DEMO_ADMIN_KEYPAIR_PATH" ".devnet/keypairs/admin.json");
  funder ← loadKeypairFromPath repoRoot (env_or "DEMO_FUNDER_KEYPAIR_PATH" "~/.config/solana/id.json");
  tee ← loadKeypairFromPath repoRoot (env_or "DEMO_TEE_KEYPAIR_PATH" ".devnet/keypairs/tee_authority.json");
  takerSecret ← requireEnv "DEMO_TAKER_SECRET_BASE58";
  taker ← live_keypairFromBase58 takerSecret;
  makerSecret ← requireEnv "DEMO_MAKER_SECRET_BASE58";
  maker ← live_keypairFromBase58 makerSecret;
  Ok {| rx_statePath := statePath; rx_l1 := server.(lv_connection) l1RpcUrl; rx_er := server.(lv_connection) erRpcUrl;
        rx_erRpcUrl := erRpcUrl; rx_programs := programs; rx_admin := admin; rx_funder := funder; rx_tee := tee;
        rx_taker := taker; rx_maker := maker; rx_perBaseUrl := perBaseUrl |}.

Definition makeClient (connection : L1Connection S) (erRpcUrl : string) (vaultProgramId meProgramId : PublicKey) (signer_ : Keypair)
    (role : Role) : DarkPoolClient S :=
  let seed := actorSeed (role_text role) signer_.(kp_publicKey) in
  {| cl_programId := vaultProgramId; cl_matchingEngineProgramId := Some meProgramId; cl_perRpcUrl := erRpcUrl;
     cl_seedMode := csprng (mret (Some seed)) (λ _, mret ()); cl_randomBytes := server.(lv_randomBytes);
     cl_tradingOffset := None; cl_ownerBlinding := match role with Taker => 1111 | Maker => 2222 end;
     cl_providers :=
       {| getAccountInfo := connection.(l1_getAccountInfo);
          sendAndConfirm ixs := connection.(l1_send) ixs [signer_];
          getInclusionProof _ := throw (Error "Merkle proof provider not required for this flow.") |};
     cl_zkProver := UnimplementedProverSuite (Some "not needed for deposit/submit flow") |}.

(** *** The state file *)

Definition epoch_state : FlowState :=
  {| fs_updatedAt := server.(lv_toISOString) 0; fs_taker := None; fs_maker := None; fs_runBatchSignature := None;
     fs_undelegateSignature := None |}.

(** What the text of the file stands for. *)
Definition parse_state (raw : string) : FlowState := default epoch_state (JSON_read raw ≫= json_flow).

Definition readState (path : string) : M S FlowState :=
  try_catch (raw ← server.(lv_readFile) path; mret (parse_state raw)) (λ _, mret epoch_state).

Definition writeState (path : string) (state : FlowState) : M S () :=
  _ ← server.(lv_mkdir) (path_resolve [path; ".."]);
  server.(lv_writeFile) path (JSON_write (flow_json state)).

(** [new Date().toISOString()] *)
Definition timestamp : M S string := now ← server.(lv_now); mret (server.(lv_toISOString) now).

(** *** Slots and funds *)

Definition ensureTopUp ctx (recipient : PublicKey) : Reporting S () :=
  let minLamports := 60000000 in
  current ← outside (ctx.(rx_l1).(l1_getBalance) recipient);
  if minLamports <=? current then mret ()
  else
    let delta := minLamports - current in
    send_reported ctx.(rx_l1) "l1" ("Fund " +:+ str_take 6 (toBase58 recipient) +:+ "…")
      [SystemProgram_transfer ctx.(rx_funder).(kp_publicKey) recipient delta] [ctx.(rx_funder)].

Fixpoint fresh_loop (l1 : L1Connection S) (meProgramId market tradingKey : PublicKey) (todo : list Z) : M S (option Z) :=
  match todo with
  | [] => mret None
  | idx :: todo =>
      pda_ ← liftR (pendingOrderPda meProgramId market tradingKey idx);
      info ← l1.(l1_getAccountInfo) pda_.1;
      match info with None => mret (Some idx) | Some _ => fresh_loop l1 meProgramId market tradingKey todo end
  end.

Definition live_chooseFreshSlot (l1 : L1Connection S) (meProgramId market tradingKey : PublicKey) : M S Z :=
  found ← fresh_loop l1 meProgramId market tradingKey [0; 1; 2; 3; 4; 5; 6; 7];
  match found with
  | Some idx => mret idx
  | None => now ← server.(lv_now); mret (now mod 8)
  end.

Definition live_ensureSlotDelegated ctx (trading : Keypair) (slotIdx : Z) : Reporting S () :=
  let p := ctx.(rx_programs) in
  slotPda_ ← liftR (pendingOrderPda p.(meProgramId) p.(market) trading.(kp_publicKey) slotIdx);
  let slotPda := slotPda_.1 in
  info ← outside (ctx.(rx_l1).(l1_getAccountInfo) slotPda);
  info ← (match info with
          | None =>
              ix ← liftR (buildInitPendingOrderSlotInstruction
                     {| is_programId := p.(meProgramId); is_tradingKey := trading.(kp_publicKey);
                        is_market := p.(market); is_slotIdx := slotIdx |});
              _ ← send_reported ctx.(rx_l1) "l1" ("init_pending_order_slot[" +:+ bigint_string slotIdx +:+ "]") [ix] [trading];
              outside (ctx.(rx_l1).(l1_getAccountInfo) slotPda)
          | Some info => mret (Some info)
          end);
  match info with
  | None => throw (Error "pending order slot missing after init")
  | Some info =>
      if bool_decide (info.(ai_owner) = DELEGATION_PROGRAM_ID) then mret ()
      else
        ix ← liftR (buildDelegatePendingOrderInstruction
               {| dp_programId := p.(meProgramId); dp_payer := ctx.(rx_funder).(kp_publicKey);
                  dp_tradingKey := trading.(kp_publicKey); dp_market := p.(market); dp_slotIdx := slotIdx |});
        send_reported ctx.(rx_l1) "l1" ("delegate_pending_order[" +:+ bigint_string slotIdx +:+ "]") [ix] [ctx.(rx_funder); trading]
  end.

Definition ensureMarketDelegated ctx : Reporting S () :=
  let p := ctx.(rx_programs) in
  let clobPda := (darkClobPda p.(meProgramId) p.(market)).1 in
  clob ← outside (ctx.(rx_l1).(l1_getAccountInfo) clobPda);
  match clob with
  | None => throw (Error "DarkCLOB account missing on L1.")
  | Some clob =>
      if bool_decide (clob.(ai_owner) = DELEGATION_PROGRAM_ID) then mret ()
      else
        let d := {| dm_programId := p.(meProgramId); dm_payer := ctx.(rx_funder).(kp_publicKey); dm_market := p.(market) |} in
        send_reported ctx.(rx_l1) "l1" "delegate market PDAs"
          [buildDelegateDarkClobInstruction d; buildDelegateMatchingConfigInstruction d; buildDelegateBatchResultsInstruction d]
          [ctx.(rx_funder)]
  end.

(** *** [per_auth] *)

Definition handlePerAuth ctx : M S FlowPayload :=
  challengeRes ← server.(lv_fetch)
    {| rq_url := ctx.(rx_perBaseUrl) +:+ "/auth/challenge?pubkey=" +:+ toBase58 ctx.(rx_taker).(kp_publicKey);
       rq_method := "GET"; rq_headers := []; rq_body := None |};
  _ ← guard_throw (negb ((200 <=? challengeRes.(pr_status)) && (challengeRes.(pr_status) <=? 299)))
        (Error ("PER challenge failed (" +:+ bigint_string challengeRes.(pr_status) +:+ ")."));
  challenge ← liftR challengeRes.(pr_challenge);
  challenge ← liftR (match challenge with Some c => Ok c | None => Throw (TypeError "challenge") end);
  let sig := nacl_sign (ascii_bytes challenge) ctx.(rx_taker).(kp_secretKey) in
  loginRes ← server.(lv_fetch)
    {| rq_url := ctx.(rx_perBaseUrl) +:+ "/auth/login"; rq_method := "POST"; rq_headers := [("content-type", "application/json")];
       rq_body := Some (JObj [("pubkey", JStr (toBase58 ctx.(rx_taker).(kp_publicKey))); ("challenge", JStr challenge);
                              ("signature", JStr (bs58_encode sig))]) |};
  _ ← guard_throw (negb ((200 <=? loginRes.(pr_status)) && (loginRes.(pr_status) <=? 299)))
        (Error ("PER login failed (" +:+ bigint_string loginRes.(pr_status) +:+ ")."));
  token ← liftR loginRes.(pr_token);
  token ← liftR (match token with Some t => Ok t | None => Throw (TypeError "token") end);
  mret {| fp_message := "PER challenge/login succeeded."; fp_tokenPreview := Some (str_take 16 token); fp_state := None |}.
(** *** [bootstrap] *)

Definition live_deposit_params (depositor mint ata : PublicKey) (amount nonce : Z) : DepositParams S :=
  {| dp_depositor := depositor; dp_tokenMint := toBytes mint; dp_amount := amount; dp_depositorTokenAccount := ata;
     dp_nonce := nonce; dp_tokenProgramId := None; dp_callbacks := None |}.

Definition mint_demo_balances ctx (takerQuoteAta makerBaseAta : PublicKey) (quoteDeposit baseDeposit : Z) : Reporting S () :=
  let p := ctx.(rx_programs) in
  let admin := ctx.(rx_admin) in
  send_reported ctx.(rx_l1) "l1" "mint demo balances"
    [createAssociatedTokenAccountIdempotent admin.(kp_publicKey) takerQuoteAta ctx.(rx_taker).(kp_publicKey) p.(quoteMint);
     createAssociatedTokenAccountIdempotent admin.(kp_publicKey) makerBaseAta ctx.(rx_maker).(kp_publicKey) p.(baseMint);
     createMintTo p.(quoteMint) takerQuoteAta admin.(kp_publicKey) (Number_of quoteDeposit);
     createMintTo p.(baseMint) makerBaseAta admin.(kp_publicKey) (Number_of baseDeposit)] [admin].

(** A persona's deposit, pushed. *)
Definition role_deposit ctx (role : Role) (params : DepositParams S) : Reporting S DepositReceipt :=
  let p := ctx.(rx_programs) in
  let signer_ := match role with Taker => ctx.(rx_taker) | Maker => ctx.(rx_maker) end in
  let client := makeClient ctx.(rx_l1) ctx.(rx_erRpcUrl) p.(vaultProgramId) p.(meProgramId) signer_ role in
  receipt ← outside (with_new_client (getDepositFunction client params));
  _ ← push (role_text role +:+ " deposit") receipt.(dr_signature) "l1";
  mret receipt.

Definition deposited_actor (role : Role) (key : PublicKey) (slotIdx amount : Z) (receipt : DepositReceipt) : res FlowStateActor :=
  owner ← bn254ToBE32 receipt.(dr_notePlaintext).(ownerCommitment_);
  Ok {| fa_role := role_text role; fa_tradingPubkey := toBase58 key; fa_slotIdx := slotIdx;
        fa_noteCommitmentHex := toHex receipt.(dr_noteCommitment); fa_ownerCommitmentHex := toHex owner;
        fa_noteAmount := bigint_string amount; fa_depositSignature := Some receipt.(dr_signature); fa_orderSignature := None;
        fa_orderIdHex := None |}.

Definition handleBootstrap ctx : Reporting S FlowPayload :=
  let p := ctx.(rx_programs) in
  let taker := ctx.(rx_taker) in
  let maker := ctx.(rx_maker) in
  quoteDeposit ← liftR (BigInt (env_or "DEMO_TAKER_QUOTE_DEPOSIT" "5000"));
  baseDeposit ← liftR (BigInt (env_or "DEMO_MAKER_BASE_DEPOSIT" "30"));
  _ ← ensureTopUp ctx taker.(kp_publicKey);
  _ ← ensureTopUp ctx maker.(kp_publicKey);
  takerQuoteAta ← liftR (getAssociatedTokenAddress p.(quoteMint) taker.(kp_publicKey));
  makerBaseAta ← liftR (getAssociatedTokenAddress p.(baseMint) maker.(kp_publicKey));
  _ ← mint_demo_balances ctx takerQuoteAta makerBaseAta quoteDeposit baseDeposit;
  takerNonce ← outside server.(lv_now);
  makerNow ← outside server.(lv_now);
  let makerNonce := makerNow + 777 in
  takerReceipt ← role_deposit ctx Taker (live_deposit_params taker.(kp_publicKey) p.(quoteMint) takerQuoteAta quoteDeposit takerNonce);
  makerReceipt ← role_deposit ctx Maker (live_deposit_params maker.(kp_publicKey) p.(baseMint) makerBaseAta baseDeposit makerNonce);
  takerSlot ← outside (live_chooseFreshSlot ctx.(rx_l1) p.(meProgramId) p.(market) taker.(kp_publicKey));
  makerSlot ← outside (live_chooseFreshSlot ctx.(rx_l1) p.(meProgramId) p.(market) maker.(kp_publicKey));
  _ ← live_ensureSlotDelegated ctx taker takerSlot;
  _ ← live_ensureSlotDelegated ctx maker makerSlot;
  _ ← ensureMarketDelegated ctx;
  updatedAt ← outside timestamp;
  takerActor ← liftR (deposited_actor Taker taker.(kp_publicKey) takerSlot quoteDeposit takerReceipt);
  makerActor ← liftR (deposited_actor Maker maker.(kp_publicKey) makerSlot baseDeposit makerReceipt);
  let state := {| fs_updatedAt := updatedAt; fs_taker := Some takerActor; fs_maker := Some makerActor;
                  fs_runBatchSignature := None; fs_undelegateSignature := None |} in
  _ ← outside (writeState ctx.(rx_statePath) state);
  mret {| fp_message := "Bootstrap complete: minted balances, deposited notes, delegated slots."; fp_tokenPreview := None;
          fp_state := Some state |}.

(** *** [submit_taker] and [submit_maker] *)

Definition actor_of (role : Role) (state : FlowState) : option FlowStateActor :=
  match role with Taker => state.(fs_taker) | Maker => state.(fs_maker) end.

Definition with_order (sig orderIdHex : string) (a : FlowStateActor) : FlowStateActor :=
  {| fa_role := a.(fa_role); fa_tradingPubkey := a.(fa_tradingPubkey); fa_slotIdx := a.(fa_slotIdx);
     fa_noteCommitmentHex := a.(fa_noteCommitmentHex); fa_ownerCommitmentHex := a.(fa_ownerCommitmentHex);
     fa_noteAmount := a.(fa_noteAmount); fa_depositSignature := a.(fa_depositSignature); fa_orderSignature := Some sig;
     fa_orderIdHex := Some orderIdHex |}.

(** The state with the order of [role] noted, where it has that actor. *)
Definition record_order (role : Role) (sig orderIdHex updatedAt : string) (next : FlowState) : FlowState :=
  {| fs_updatedAt := updatedAt;
     fs_taker := match role with Taker => with_order sig orderIdHex <$> next.(fs_taker) | Maker => next.(fs_taker) end;
     fs_maker := match role with Maker => with_order sig orderIdHex <$> next.(fs_maker) | Taker => next.(fs_maker) end;
     fs_runBatchSignature := next.(fs_runBatchSignature); fs_undelegateSignature := next.(fs_undelegateSignature) |}.

Definition live_order_params ctx (role : Role) (actor : FlowStateActor) (amount price noteAmount expiry : Z) (orderId : bytes)
    : BuildSubmitOrderParams :=
  let signer_ := match role with Taker => ctx.(rx_taker) | Maker => ctx.(rx_maker) end in
  {| so_programId := ctx.(rx_programs).(meProgramId); so_tradingKey := signer_.(kp_publicKey);
     so_market := ctx.(rx_programs).(market); so_slotIdx := actor.(fa_slotIdx);
     so_side := match role with Taker => 0 | Maker => 1 end; so_amount := amount; so_priceLimit := price;
     so_noteAmount := noteAmount; so_expirySlot := expiry; so_orderId := orderId;
     so_noteCommitment := hexToBytes actor.(fa_noteCommitmentHex); so_userCommitment := hexToBytes actor.(fa_ownerCommitmentHex);
     so_orderType := None; so_minFillQty := None |}.

(** The order, sent to the rollup: its signature and id. *)
Definition submit_send ctx (role : Role) : Reporting S (string * bytes) :=
  state ← outside (readState ctx.(rx_statePath));
  match actor_of role state with
  | None => throw (Error "Missing bootstrap state. Run bootstrap first.")
  | Some actor =>
      let signer_ := match role with Taker => ctx.(rx_taker) | Maker => ctx.(rx_maker) end in
      amount ← liftR (BigInt (env_or "DEMO_ORDER_BASE_AMOUNT" "30"));
      price ← liftR (BigInt (env_or "DEMO_ORDER_PRICE" "100"));
      now ← outside ctx.(rx_l1).(l1_getSlot);
      let expiry := now + 500 in
      random ← outside (server.(lv_randomBytes) 16);
      let orderId := nonzero_id random in
      noteAmount ← liftR (BigInt actor.(fa_noteAmount));
      built ← liftR (buildSubmitOrderInstruction (live_order_params ctx role actor amount price noteAmount expiry orderId));
      sig ← outside (ctx.(rx_er).(l1_send) [built.(submit_ix)] [signer_]);
      _ ← push (role_text role +:+ " submit_order") sig "er";
      mret (sig, orderId)
  end.

(** The state that was read again is written with the order. *)
Definition submit_write ctx (role : Role) (sig : string) (orderId : bytes) (next : FlowState) : M S FlowPayload :=
  updatedAt ← timestamp;
  let next := record_order role sig (toHex orderId) updatedAt next in
  _ ← writeState ctx.(rx_statePath) next;
  mret {| fp_message := role_text role +:+ " order submitted to ER."; fp_tokenPreview := None; fp_state := Some next |}.

Definition submit_record ctx (role : Role) (sig : string) (orderId : bytes) : M S FlowPayload :=
  next ← readState ctx.(rx_statePath);
  submit_write ctx role sig orderId next.

Definition handleSubmitOrder ctx (role : Role) : Reporting S FlowPayload :=
  '(sig, orderId) ← submit_send ctx role;
  outside (submit_record ctx role sig orderId).

(** *** [run_batch] *)

Definition record_batch (runSig undSig updatedAt : string) (state : FlowState) : FlowState :=
  {| fs_updatedAt := updatedAt; fs_taker := state.(fs_taker); fs_maker := state.(fs_maker);
     fs_runBatchSignature := Some runSig; fs_undelegateSignature := Some undSig |}.

(** The batch over the two slots of the state, and the wait for its results: the
    state it was read from, and the two signatures. *)
Definition batch_send ctx : Reporting S (FlowState * string * string) :=
  let p := ctx.(rx_programs) in
  state ← outside (readState ctx.(rx_statePath));
  match state.(fs_taker), state.(fs_maker) with
  | Some taker, Some maker =>
      takerKey ← liftR (newPublicKey (Some taker.(fa_tradingPubkey)));
      takerPda ← liftR (pendingOrderPda p.(meProgramId) p.(market) takerKey taker.(fa_slotIdx));
      makerKey ← liftR (newPublicKey (Some maker.(fa_tradingPubkey)));
      makerPda ← liftR (pendingOrderPda p.(meProgramId) p.(market) makerKey maker.(fa_slotIdx));
      let batchPda := (batchResultsPda p.(meProgramId) p.(market)).1 in
      preBatch ← outside (ctx.(rx_l1).(l1_getAccountInfo) batchPda);
      runSig ← outside (ctx.(rx_er).(l1_send)
        [buildRunBatchInstruction
           {| rb_programId := p.(meProgramId); rb_vaultProgramId := p.(vaultProgramId);
              rb_teeAuthority := ctx.(rx_tee).(kp_publicKey); rb_market := p.(market);
              rb_pythAccount := p.(pythAccount); pendingOrderPdas := [takerPda.1; makerPda.1] |}] [ctx.(rx_tee)]);
      _ ← push "run_batch" runSig "er";
      undSig ← outside (ctx.(rx_er).(l1_send)
        [buildUndelegateMarketInstruction
           {| cm_programId := p.(meProgramId); cm_payer := ctx.(rx_funder).(kp_publicKey); cm_market := p.(market) |}]
        [ctx.(rx_funder)]);
      _ ← push "undelegate_market" undSig "er";
      _ ← outside (waitForL1AccountChange server.(lv_now) (λ pda, info ← ctx.(rx_l1).(l1_getAccountInfo) pda; mret (ai_data <$> info))
                     server.(lv_sleep) WAIT_FUEL batchPda (ai_data <$> preBatch) (Some 90000) (Some 1000));
      mret (state, runSig, undSig)
  | _, _ => throw (Error "Missing state for taker/maker. Run bootstrap and order submits first.")
  end.

(** The state read before the batch is written, not the one in the file. *)
Definition batch_record ctx (state : FlowState) (runSig undSig : string) : M S FlowPayload :=
  updatedAt ← timestamp;
  let state := record_batch runSig undSig updatedAt state in
  _ ← writeState ctx.(rx_statePath) state;
  mret {| fp_message := "run_batch completed and market state committed to L1."; fp_tokenPreview := None; fp_state := Some state |}.

Definition handleRunBatch ctx : Reporting S FlowPayload :=
  '(state, runSig, undSig) ← batch_send ctx;
  outside (batch_record ctx state runSig undSig).

(** *** [POST] *)

Record FlowAnswer := { fw_action : string; fw_signatures : list SignatureItem; fw_payload : FlowPayload }.

Definition dispatch ctx (action : string) : option (Reporting S FlowPayload) :=
  if bool_decide (action = "per_auth") then Some (outside (handlePerAuth ctx))
  else if bool_decide (action = "bootstrap") then Some (handleBootstrap ctx)
  else if bool_decide (action = "submit_taker") then Some (handleSubmitOrder ctx Taker)
  else if bool_decide (action = "submit_maker") then Some (handleSubmitOrder ctx Maker)
  else if bool_decide (action = "run_batch") then Some (handleRunBatch ctx)
  else None.

Definition POST_body (req : res (option string)) : Reporting S (Answer FlowAnswer) :=
  action ← liftR req;
  match truthy action with
  | None => mret (bad_request "Missing action.")
  | Some action =>
      ctx ← liftR buildCtx;
      match dispatch ctx action with
      | None => mret (bad_request ("Unsupported action: " +:+ action))
      | Some handler =>
          payload ← handler;
          signatures ← reported;
          mret (Sent {| fw_action := action; fw_signatures := signatures; fw_payload := payload |})
      end
  end.

(** The array of signatures is the request's own. *)
Definition POST (req : res (option string)) : M S (Answer FlowAnswer) := λ s,
  let '(r, w) := route (POST_body req) ([], s) in (r, w.2).
End live.

(** ** The state survives the file *)

Definition actor_exact (a : option FlowStateActor) : Prop :=
  match a with Some a => Z.abs a.(fa_slotIdx) <= 2 ^ 53 | None => True end.
Definition state_exact (st : FlowState) : Prop := actor_exact st.(fs_taker) ∧ actor_exact st.(fs_maker).

Lemma json_actor_inv a : json_actor (actor_json a) = Some a.
Proof. destruct a as [role key slot note owner amount [d|] [o|] [i|]]; reflexivity. Qed.

Lemma json_flow_inv st : json_flow (flow_json st) = Some st.
Proof.
  destruct st as [u t m r d]. unfold json_flow, flow_json. cbn [fs_updatedAt fs_taker fs_maker fs_runBatchSignature fs_undelegateSignature].
  assert (E : ∀ a : FlowStateActor, Some <$> json_actor (actor_json a) = Some (Some a)) by (intros a; by rewrite json_actor_inv).
  destruct t as [t|], m as [m|], r as [r|], d as [d|];
    cbn -[json_actor actor_json fmap option_fmap]; rewrite ?E; cbn -[json_actor actor_json fmap option_fmap]; rewrite ?E; done.
Qed.

Lemma writable_actor a : Z.abs a.(fa_slotIdx) <= 2 ^ 53 → writable (actor_json a).
Proof.
  intros Ha. unfold actor_json. apply writable_obj.
  destruct (fa_depositSignature a), (fa_orderSignature a), (fa_orderIdHex a); cbn [member_of app];
    repeat (apply Forall_cons; split; [cbn [snd]; constructor; done|]); by apply Forall_nil.
Qed.

Lemma writable_flow st : state_exact st → writable (flow_json st).
Proof.
  intros [Ht Hm]. unfold flow_json. apply writable_obj.
  destruct (fs_taker st), (fs_maker st), (fs_runBatchSignature st), (fs_undelegateSignature st); cbn [member_of app actor_exact] in *;
    repeat (apply Forall_cons; split; [cbn [snd]; first [by apply writable_actor | by constructor]|]); by apply Forall_nil.
Qed.

(** A file system behind the server: a read returns the text of the file, a write
    that succeeds leaves its text, and nothing else touches the files. *)
Definition keeps {S A} (file : string → S → option string) (m : M S A) : Prop :=
  ∀ w r w' path, m w = (r, w') → file path w' = file path w.

Record keeping_node {S} (file : string → S → option string) (conn : L1Connection S) : Prop := {
  kn_slot : keeps file conn.(l1_getSlot);
  kn_send : ∀ ixs signers, keeps file (conn.(l1_send) ixs signers) }.

Record file_server {S} (file : string → S → option string) (server : LiveServer S) : Prop := {
  fv_read : ∀ path w, ∃ e, server.(lv_readFile) path w = (match file path w with Some t => Ok t | None => Throw e end, w);
  fv_write : ∀ path text w u w', server.(lv_writeFile) path text w = (Ok u, w') → file path w' = Some text;
  fv_mkdir : ∀ path, keeps file (server.(lv_mkdir) path);
  fv_now : keeps file server.(lv_now);
  fv_random : ∀ n, keeps file (server.(lv_randomBytes) n);
  fv_nodes : ∀ url, keeping_node file (server.(lv_connection) url) }.

Section file.
Context `{Host} {S : Type} (server : LiveServer S) (file : string → S → option string).
Context (Hf : file_server file server).

(** The state the file stands for. *)
Definition stored (text : option string) : FlowState :=
  match text with Some t => parse_state server t | None => epoch_state server end.

Lemma readState_run path w : readState server path w = (Ok (stored (file path w)), w).
Proof.
  destruct (fv_read _ _ Hf path w) as [e He]. unfold readState, try_catch, mbind, M_bind. rewrite He. by destruct (file path w).
Qed.

Lemma stored_written st : state_exact st → stored (Some (JSON_write (flow_json st))) = st.
Proof.
  intros Hs. unfold stored, parse_state. rewrite JSON_roundtrip by by apply writable_flow. cbn. by rewrite json_flow_inv.
Qed.

Lemma writeState_file path st w u w' : writeState server path st w = (Ok u, w') → file path w' = Some (JSON_write (flow_json st)).
Proof. intros Hw. apply M_bind_Ok in Hw as ([] & w1 & _ & Hw). by eapply fv_write. Qed.
End file.

(** The state of the flow survives the file.  On a file system that keeps what
    it is given, after [writeState] has written a state with exact slot numbers, as
    JSON text, [readState] returns that state; and a file that is missing or is
    not JSON reads as the state of the epoch, without an error. *)
Theorem flow_state_persists `{Host} {S} (server : LiveServer S) file path :
  file_server file server →
  (∀ st w u w', state_exact st → writeState server path st w = (Ok u, w') → readState server path w' = (Ok st, w')) ∧
  (∀ w, (∀ text, file path w = Some text → JSON_read text = None) → readState server path w = (Ok (epoch_state server), w)).
Proof.
  intros Hf. split.
  - intros st w u w' Hs Hw. rewrite (readState_run server file Hf), (writeState_file server file Hf _ _ _ _ _ Hw). by rewrite stored_written.
  - intros w Hn. rewrite (readState_run server file Hf). destruct (file path w) as [text|] eqn:Ht; [|done]. cbn [stored].
    unfold parse_state. by rewrite (Hn text eq_refl).
Qed.

(** ** What finished requests did *)

Section inversion.
Context `{NodeCrypto} `{Poseidon} `{Web3} `{Base58} `{Base58Encode} `{Nacl} `{ForeignIx} `{KeyOps} `{Host} {S : Type}.
Context (server : LiveServer S).
Implicit Types ctx : RouteCtx S.

Lemma POST_Sent action s a s' : POST server (Ok (Some action)) s = (Ok (Sent a), s') →
  ∃ ctx handler w', buildCtx server = Ok ctx ∧ dispatch server ctx action = Some handler ∧
    handler ([], s) = (Ok a.(fw_payload), w') ∧ s' = w'.2 ∧ a.(fw_signatures) = w'.1 ∧ a.(fw_action) = action.
Proof.
  unfold POST. destruct (route (POST_body server (Ok (Some action))) ([], s)) as [r w] eqn:Hr. intros [= -> <-].
  apply route_Sent in Hr. unfold POST_body in Hr. apply M_bind_Ok in Hr as (act & w1 & [[= <-] ->]%liftR_inv & Hr).
  destruct action as [|c action]; [discriminate Hr|]. cbn [truthy] in Hr.
  apply M_bind_Ok in Hr as (ctx & w2 & [Hctx ->]%liftR_inv & Hr). destruct (dispatch server ctx _) as [handler|] eqn:Hd; [|discriminate Hr].
  apply M_bind_Ok in Hr as (payload & w3 & Hh & Hr). apply M_bind_Ok in Hr as (sigs & w4 & [= <- <-] & [= <- <-]).
  exists ctx, handler, w3. by split_and!.
Qed.

(** A deposit of a persona, as the receipt tells it. *)
Definition role_deposited ctx (role : Role) (mint : PublicKey) (amount : Z) (receipt : DepositReceipt) : Prop :=
  let note := receipt.(dr_notePlaintext) in
  0 < amount ∧ note.(Note.amount) = amount ∧ note.(tokenMint) = toBytes mint ∧ noteCommitment note = Ok receipt.(dr_noteCommitment) ∧
  ∃ ix s s', ctx.(rx_l1).(l1_send) [ix] [match role with Taker => ctx.(rx_taker) | Maker => ctx.(rx_maker) end] s = (Ok receipt.(dr_signature), s').

Lemma role_deposit_Ok ctx role depositor mint ata amount nonce w receipt w' :
  role_deposit server ctx role (live_deposit_params depositor mint ata amount nonce) w = (Ok receipt, w') →
  role_deposited ctx role mint amount receipt.
Proof.
  unfold role_deposit. intros Hr. apply M_bind_Ok in Hr as (r & w1 & Hrec & Hr). apply M_bind_Ok in Hr as (u & w2 & _ & Hr).
  injection Hr as <- _. apply outside_Ok in Hrec as [Hrec _]. unfold with_new_client in Hrec.
  destruct (getDepositFunction _ _ _) as [r1 v] eqn:Hg. injection Hrec as -> _.
  apply deposit_run_Ok in Hg as (Hpos & _ & data & seed & p & _ & _ & Hsent).
  destruct Hsent as (_ & (ix & s1 & s2 & _ & Hs) & _ & _ & _ & _ & _ & Hc & Hm & Ha & _).
  split; [exact Hpos|]. split; [exact Ha|]. split; [exact Hm|]. split; [exact Hc|]. by exists ix, s1, s2.
Qed.

Lemma fresh_loop_In l1 me mkt tk todo w i w' : fresh_loop (S := S) l1 me mkt tk todo w = (Ok (Some i), w') → i ∈ todo.
Proof.
  revert w. induction todo as [|j todo IH]; intros w; cbn [fresh_loop]; [by intros [=]|]. intros Hr.
  apply M_bind_Ok in Hr as (pda & w1 & _ & Hr). apply M_bind_Ok in Hr as (info & w2 & _ & Hr).
  destruct info as [info|]; [right; by eapply IH|]. injection Hr as <- _. left.
Qed.

Lemma live_slot_range l1 me mkt tk w i w' : live_chooseFreshSlot server l1 me mkt tk w = (Ok i, w') → 0 <= i < 8.
Proof.
  unfold live_chooseFreshSlot. intros Hr. apply M_bind_Ok in Hr as (found & w1 & Hl & Hr). destruct found as [j|].
  - injection Hr as <- _. apply fresh_loop_In in Hl. rewrite !elem_of_cons, elem_of_nil in Hl. lia.
  - apply M_bind_Ok in Hr as (now & w2 & _ & Hr). injection Hr as <- _. apply Z.mod_pos_bound. lia.
Qed.

(** What the bootstrap leaves in the state: one actor per role, with the note it
    deposited. *)
Definition boot_actor ctx (role : Role) (amount : Z) (receipt : DepositReceipt) (actor : FlowStateActor) : Prop :=
  ∃ slot, 0 <= slot < 8 ∧
    deposited_actor role (match role with Taker => ctx.(rx_taker) | Maker => ctx.(rx_maker) end).(kp_publicKey) slot amount receipt = Ok actor.

Definition booted ctx (quoteDeposit baseDeposit : Z) (takerReceipt makerReceipt : DepositReceipt) (state : FlowState) : Prop :=
  BigInt (env_or "DEMO_TAKER_QUOTE_DEPOSIT" "5000") = Ok quoteDeposit ∧ BigInt (env_or "DEMO_MAKER_BASE_DEPOSIT" "30") = Ok baseDeposit ∧
  role_deposited ctx Taker ctx.(rx_programs).(quoteMint) quoteDeposit takerReceipt ∧
  role_deposited ctx Maker ctx.(rx_programs).(baseMint) baseDeposit makerReceipt ∧
  ∃ taker maker, state.(fs_taker) = Some taker ∧ state.(fs_maker) = Some maker ∧
    boot_actor ctx Taker quoteDeposit takerReceipt taker ∧ boot_actor ctx Maker baseDeposit makerReceipt maker.

Lemma handleBootstrap_Ok ctx w payload w' :
  handleBootstrap server ctx w = (Ok payload, w') →
  ∃ quoteDeposit baseDeposit takerReceipt makerReceipt state,
    booted ctx quoteDeposit baseDeposit takerReceipt makerReceipt state ∧ payload.(fp_state) = Some state ∧
    ∃ t u, writeState server ctx.(rx_statePath) state t = (Ok u, w'.2).
Proof.
  unfold handleBootstrap. intros Hr. apply M_bind_Ok in Hr as (q & w1 & [Hq ->]%liftR_inv & Hr).
  apply M_bind_Ok in Hr as (b & w2 & [Hb ->]%liftR_inv & Hr). do 7 (apply M_bind_Ok in Hr as (? & ? & _ & Hr)). cbv zeta in Hr.
  apply M_bind_Ok in Hr as (tr & w3 & Htr%role_deposit_Ok & Hr). apply M_bind_Ok in Hr as (mr & w4 & Hmr%role_deposit_Ok & Hr).
  apply M_bind_Ok in Hr as (ts & w5 & [Hts%live_slot_range _]%outside_Ok & Hr).
  apply M_bind_Ok in Hr as (ms & w6 & [Hms%live_slot_range _]%outside_Ok & Hr). do 4 (apply M_bind_Ok in Hr as (? & ? & _ & Hr)).
  apply M_bind_Ok in Hr as (ta & w7 & [Hta _]%liftR_inv & Hr). apply M_bind_Ok in Hr as (ma & w8 & [Hma _]%liftR_inv & Hr).
  apply M_bind_Ok in Hr as (u & w9 & [Hw _]%outside_Ok & Hr). injection Hr as <- <-.
  do 5 eexists. split; [|split; [reflexivity|by eexists _, _]]. split; [exact Hq|]. split; [exact Hb|]. split; [exact Htr|].
  split; [exact Hmr|]. exists ta, ma. split; [reflexivity|]. split; [reflexivity|]. split; [by exists ts|by exists ms].
Qed.
Lemma buildCtx_nodes ctx : buildCtx server = Ok ctx →
  ∃ u v, ctx.(rx_l1) = server.(lv_connection) u ∧ ctx.(rx_er) = server.(lv_connection) v.
Proof. unfold buildCtx. intros Hb. inv_res. subst ctx. by do 2 eexists. Qed.

Context (file : string → S → option string) (Hf : file_server file server).

(** One file, as the state a finished step leaves. *)
Lemma submit_send_Ok ctx role w sig orderId w' :
  keeping_node file ctx.(rx_l1) → keeping_node file ctx.(rx_er) → submit_send server ctx role w = (Ok (sig, orderId), w') →
  (∀ path, file path w'.2 = file path w.2) ∧
  ∃ actor amount price noteAmount now built t t',
    actor_of role (stored server (file ctx.(rx_statePath) w.2)) = Some actor ∧
    BigInt (env_or "DEMO_ORDER_BASE_AMOUNT" "30") = Ok amount ∧ BigInt (env_or "DEMO_ORDER_PRICE" "100") = Ok price ∧
    BigInt actor.(fa_noteAmount) = Ok noteAmount ∧
    buildSubmitOrderInstruction (live_order_params ctx role actor amount price noteAmount (now + 500) orderId) = Ok built ∧
    ctx.(rx_er).(l1_send) [built.(submit_ix)] [match role with Taker => ctx.(rx_taker) | Maker => ctx.(rx_maker) end] t = (Ok sig, t').
Proof.
  intros [Ks _] [_ Ke] Hr. unfold submit_send in Hr. apply M_bind_Ok in Hr as (st & w1 & [Hst Hw1]%outside_Ok & Hr).
  rewrite (readState_run server file Hf) in Hst. injection Hst as <- Es. destruct (actor_of role _) as [actor|] eqn:Hact; [|discriminate Hr].
  apply M_bind_Ok in Hr as (am & w2 & [Ham ->]%liftR_inv & Hr). apply M_bind_Ok in Hr as (pr & w3 & [Hpr ->]%liftR_inv & Hr).
  apply M_bind_Ok in Hr as (now & w4 & [Hnow _]%outside_Ok & Hr). cbv zeta in Hr.
  apply M_bind_Ok in Hr as (rnd & w5 & [Hrnd _]%outside_Ok & Hr). apply M_bind_Ok in Hr as (na & w6 & [Hna ->]%liftR_inv & Hr).
  apply M_bind_Ok in Hr as (built & w7 & [Hb ->]%liftR_inv & Hr). apply M_bind_Ok in Hr as (sg & w8 & [Hsend _]%outside_Ok & Hr).
  apply M_bind_Ok in Hr as (u & w9 & [= _ <-] & [= <- <- <-]). cbn [snd]. split.
  - intros path. rewrite (Ke _ _ _ _ _ path Hsend), (fv_random _ _ Hf _ _ _ _ path Hrnd), (Ks _ _ _ path Hnow). by rewrite <-Es.
  - exists actor, am, pr, na, now, built, w5.2, w8.2. by split_and!.
Qed.

Lemma submit_write_Ok ctx role sig orderId st w payload w' :
  submit_write server ctx role sig orderId st w = (Ok payload, w') →
  ∃ updatedAt, let next := record_order role sig (toHex orderId) updatedAt st in
    payload.(fp_state) = Some next ∧ file ctx.(rx_statePath) w' = Some (JSON_write (flow_json next)).
Proof.
  unfold submit_write. intros Hr. apply M_bind_Ok in Hr as (at_ & w2 & _ & Hr). cbv zeta in Hr.
  apply M_bind_Ok in Hr as (u & w3 & Hw & Hr). injection Hr as <- <-. exists at_. split; [done|]. by eapply writeState_file.
Qed.

Lemma submit_record_Ok ctx role sig orderId w payload w' :
  submit_record server ctx role sig orderId w = (Ok payload, w') →
  ∃ updatedAt, let next := record_order role sig (toHex orderId) updatedAt (stored server (file ctx.(rx_statePath) w)) in
    payload.(fp_state) = Some next ∧ file ctx.(rx_statePath) w' = Some (JSON_write (flow_json next)).
Proof.
  unfold submit_record. intros Hr. apply M_bind_Ok in Hr as (next & w1 & Hn & Hr). rewrite (readState_run server file Hf) in Hn.
  injection Hn as <- <-. by apply submit_write_Ok in Hr.
Qed.

Lemma batch_send_Ok ctx w state runSig undSig w' :
  batch_send server ctx w = (Ok (state, runSig, undSig), w') →
  let me := ctx.(rx_programs).(meProgramId) in let mkt := ctx.(rx_programs).(market) in
  state = stored server (file ctx.(rx_statePath) w.2) ∧
  ∃ taker maker takerKey makerKey takerPda makerPda t t',
    state.(fs_taker) = Some taker ∧ state.(fs_maker) = Some maker ∧
    newPublicKey (Some taker.(fa_tradingPubkey)) = Ok takerKey ∧ newPublicKey (Some maker.(fa_tradingPubkey)) = Ok makerKey ∧
    pendingOrderPda me mkt takerKey taker.(fa_slotIdx) = Ok takerPda ∧ pendingOrderPda me mkt makerKey maker.(fa_slotIdx) = Ok makerPda ∧
    ctx.(rx_er).(l1_send)
      [buildRunBatchInstruction
         {| rb_programId := me; rb_vaultProgramId := ctx.(rx_programs).(vaultProgramId); rb_teeAuthority := ctx.(rx_tee).(kp_publicKey);
            rb_market := mkt; rb_pythAccount := ctx.(rx_programs).(pythAccount); pendingOrderPdas := [takerPda.1; makerPda.1] |}]
      [ctx.(rx_tee)] t = (Ok runSig, t').
Proof.
  intros Hr me mkt. unfold batch_send in Hr. apply M_bind_Ok in Hr as (st & w1 & [Hst _]%outside_Ok & Hr).
  rewrite (readState_run server file Hf) in Hst. injection Hst as <- _.
  destruct (fs_taker _) as [taker|] eqn:Ht; [|discriminate Hr]. destruct (fs_maker _) as [maker|] eqn:Hm; [|discriminate Hr].
  apply M_bind_Ok in Hr as (tk & w2 & [Htk _]%liftR_inv & Hr). apply M_bind_Ok in Hr as (tp & w3 & [Htp _]%liftR_inv & Hr).
  apply M_bind_Ok in Hr as (mk & w4 & [Hmk _]%liftR_inv & Hr). apply M_bind_Ok in Hr as (mp & w5 & [Hmp _]%liftR_inv & Hr).
  cbv zeta in Hr. apply M_bind_Ok in Hr as (pre & w6 & _ & Hr). apply M_bind_Ok in Hr as (rs & w7 & [Hs _]%outside_Ok & Hr).
  do 4 (apply M_bind_Ok in Hr as (? & ? & _ & Hr)). injection Hr as <- <- _ _. split; [done|].
  exists taker, maker, tk, mk, tp, mp, w6.2, w7.2. by split_and!.
Qed.

Lemma batch_record_Ok ctx state runSig undSig w payload w' :
  batch_record server ctx state runSig undSig w = (Ok payload, w') →
  ∃ updatedAt, payload.(fp_state) = Some (record_batch runSig undSig updatedAt state) ∧
    file ctx.(rx_statePath) w' = Some (JSON_write (flow_json (record_batch runSig undSig updatedAt state))).
Proof.
  unfold batch_record. intros Hr. apply M_bind_Ok in Hr as (at_ & w1 & _ & Hr). cbv zeta in Hr. apply M_bind_Ok in Hr as (u & w2 & Hw & Hr).
  injection Hr as <- <-. exists at_. split; [done|]. by eapply writeState_file.
Qed.
End inversion.

(** ** The flow as a whole *)

(** An accepted plain order is one the batch can use. *)
Lemma submitted_ready `{NodeCrypto} key now args slot o ctx mkt :
  submit_order_handler key now args slot = Ok o →
  args.(soa_market) = mkt → args.(order_type) = PENDING_TYPE_LIMIT → args.(min_fill_qty) = 0 →
  args.(soa_amount) < U64 → args.(note_amount) < U64 →
  length args.(user_commitment) = 32%nat → be_val args.(user_commitment) < BN254_R →
  ctx.(rc_config).(mc_min_order_size) <= args.(soa_amount) →
  saturating_add ctx.(rc_slot) SETTLEMENT_BUFFER_SLOTS < args.(expiry_slot) →
  ready_order ctx mkt o.
Proof.
  intros Hs Hm Ht Hf Ha Hn Hol Hob Hmin Hexp. unfold submit_order_handler in Hs.
  apply res_bind_Ok in Hs as (? & S1%throw_if_Ok%negb_false_iff & Hs). apply res_bind_Ok in Hs as (? & _ & Hs).
  apply res_bind_Ok in Hs as (? & S3%throw_if_Ok%negb_false_iff%Z.ltb_lt & Hs).
  apply res_bind_Ok in Hs as (? & S4%throw_if_Ok%negb_false_iff%Z.ltb_lt & Hs). do 2 (apply res_bind_Ok in Hs as (? & _ & Hs)).
  apply res_bind_Ok in Hs as (? & S7%throw_if_Ok%negb_false_iff%Z.leb_le & Hs). do 2 (apply res_bind_Ok in Hs as (? & _ & Hs)).
  apply res_bind_Ok in Hs as (? & S10%throw_if_Ok%negb_false_iff%bool_decide_eq_true_1 & Hs).
  do 2 (apply res_bind_Ok in Hs as (? & _ & Hs)). apply Ok_inj in Hs as <-.
  split; cbn [po_status po_market po_expiry_slot po_amount po_price_limit po_order_type po_min_fill_qty po_side po_note_amount
    po_user_commitment]; first [lia | split; [done|congruence] | done].
Qed.

Lemma owner_bytes x bs : bn254ToBE32 x = Ok bs → length bs = 32%nat ∧ be_val bs < BN254_R.
Proof.
  intros [-> Hx]%bn254ToBE32_inv. split; [apply length_be_bytes|]. pose proof BN254_R_fits as Hr.
  rewrite be_val_be_bytes, Z.mod_small by lia. lia.
Qed.

Section flow.
Context `{NodeCrypto} `{!NodeCryptoLaws} `{Poseidon} `{Web3} `{Base58} `{!Base58Laws} `{Base58Encode} `{Nacl} `{ForeignIx} `{KeyOps} `{Host}.
Context {S : Type}.
Implicit Types (server : LiveServer S) (ctx : RouteCtx S).

Definition role_key ctx (role : Role) : Keypair := match role with Taker => ctx.(rx_taker) | Maker => ctx.(rx_maker) end.

(** The order of a role: its terms are the flow's, its collateral the note the role
    deposited, and it was sent to the rollup. *)
Record role_order ctx (role : Role) (amount price deposit : Z) (receipt : DepositReceipt) (p : BuildSubmitOrderParams)
    (ix : TransactionInstruction) (pda : PublicKey) : Prop := {
  lo_for : p.(so_programId) = ctx.(rx_programs).(meProgramId) ∧ p.(so_market) = ctx.(rx_programs).(market) ∧
    p.(so_tradingKey) = (role_key ctx role).(kp_publicKey);
  lo_terms : p.(so_side) = (match role with Taker => 0 | Maker => 1 end) ∧ p.(so_amount) = amount ∧ p.(so_priceLimit) = price ∧
    p.(so_orderType) = None ∧ p.(so_minFillQty) = None;
  lo_note : p.(so_noteCommitment) = receipt.(dr_noteCommitment) ∧ p.(so_noteAmount) = deposit ∧
    bn254ToBE32 receipt.(dr_notePlaintext).(ownerCommitment_) = Ok p.(so_userCommitment);
  lo_sent : ∃ built sig t t', buildSubmitOrderInstruction p = Ok built ∧ built.(submit_ix) = ix ∧ built.(pendingOrderPda_) = pda ∧
    ctx.(rx_er).(l1_send) [ix] [role_key ctx role] t = (Ok sig, t') }.

Lemma boot_actor_back ctx role amount receipt actor : 0 < amount → boot_actor ctx role amount receipt actor →
  actor.(fa_tradingPubkey) = toBase58 (role_key ctx role).(kp_publicKey) ∧
  hexToBytes actor.(fa_noteCommitmentHex) = receipt.(dr_noteCommitment) ∧
  bn254ToBE32 receipt.(dr_notePlaintext).(ownerCommitment_) = Ok (hexToBytes actor.(fa_ownerCommitmentHex)) ∧
  BigInt actor.(fa_noteAmount) = Ok amount ∧ actor_exact (Some actor).
Proof.
  intros Ha (slot & Hs & Hd). unfold deposited_actor in Hd. apply res_bind_Ok in Hd as (owner & Ho & Hd). apply Ok_inj in Hd as <-.
  cbn [fa_tradingPubkey fa_noteCommitmentHex fa_ownerCommitmentHex fa_noteAmount fa_slotIdx actor_exact].
  rewrite !hexToBytes_toHex. split; [reflexivity|]. split; [done|]. split; [exact Ho|]. split; [apply BigInt_text; lia|lia].
Qed.

(** The order a role submits while the file holds [st]. *)
Lemma submit_request server file ctx role deposit receipt actor st s a s' :
  file_server file server → buildCtx server = Ok ctx → file ctx.(rx_statePath) s = Some (JSON_write (flow_json st)) → state_exact st →
  actor_of role st = Some actor → 0 < deposit → boot_actor ctx role deposit receipt actor →
  POST server (Ok (Some (match role with Taker => "submit_taker" | Maker => "submit_maker" end))) s = (Ok (Sent a), s') →
  ∃ amount price p ix pda sig oid updatedAt,
    BigInt (env_or "DEMO_ORDER_BASE_AMOUNT" "30") = Ok amount ∧ BigInt (env_or "DEMO_ORDER_PRICE" "100") = Ok price ∧
    role_order ctx role amount price deposit receipt p ix pda ∧
    pendingOrderPda ctx.(rx_programs).(meProgramId) ctx.(rx_programs).(market) (role_key ctx role).(kp_publicKey) actor.(fa_slotIdx) = Ok (pda, oid.2) ∧
    file ctx.(rx_statePath) s' = Some (JSON_write (flow_json (record_order role sig oid.1 updatedAt st))).
Proof.
  intros Hf Hc Hfile Hx Hact Hdep Hboot Hr. apply POST_Sent in Hr as (ctx' & handler & w' & Hc' & Hd & Hh & -> & _).
  rewrite Hc in Hc'. apply Ok_inj in Hc' as <-.
  assert (Hh' : handleSubmitOrder server ctx role ([], s) = (Ok a.(fw_payload), w')) by (destruct role; injection Hd as <-; exact Hh).
  unfold handleSubmitOrder in Hh'. apply M_bind_Ok in Hh' as ([sig oid] & w1 & Hsend & Hrec).
  destruct (buildCtx_nodes server ctx Hc) as (u & v & El & Ee).
  apply (submit_send_Ok server file Hf) in Hsend as [Hk (actor' & am & pr & na & now & built & t & t' & Ha & Eam & Epr & Ena & Hb & Hs)];
    [|rewrite El; apply Hf|rewrite Ee; apply Hf].
  cbn [snd] in Ha, Hk. rewrite Hfile, stored_written in Ha by done. rewrite Hact in Ha. injection Ha as <-.
  destruct (boot_actor_back _ _ _ _ _ Hdep Hboot) as (_ & Bn & Bo & Ba & _). rewrite Ba in Ena. apply Ok_inj in Ena as <-.
  apply outside_Ok in Hrec as [Hrec _]. apply (submit_record_Ok server file Hf) in Hrec as (at_ & _ & Hfin).
  rewrite Hk, Hfile, stored_written in Hfin by done.
  pose proof Hb as Hb'. unfold buildSubmitOrderInstruction in Hb'. apply res_bind_Ok in Hb' as (? & _ & Hb'). apply res_bind_Ok in Hb' as (? & _ & Hb').
  apply res_bind_Ok in Hb' as ([pda bump] & Hpda & Hb'). apply res_bind_Ok in Hb' as (? & _ & Hb'). apply Ok_inj in Hb' as Hbuilt.
  exists am, pr, (live_order_params ctx role actor am pr deposit (now + 500) oid), built.(submit_ix), pda, sig, (toHex oid, bump), at_.
  split; [exact Eam|]. split; [exact Epr|]. split; [|split; [exact Hpda|exact Hfin]].
  split; [done|done| |].
  - split; [exact Bn|]. split; [done|exact Bo].
  - exists built, sig, t, t'. split; [exact Hb|]. split; [done|]. split; [by rewrite <-Hbuilt|exact Hs].
Qed.
Lemma record_order_exact role sig oid at_ st : state_exact st → state_exact (record_order role sig oid at_ st).
Proof. intros [Ht Hm]. destruct role, st as [? [] [] ? ?]; by split. Qed.

(** Two orders of the flow mirror each other, and the batch over their slots
    matches them. *)
Lemma role_orders_match ctx amount price quote base tNote mNote tp mp tix mix tpda mpda me_id mctx twap br slots ku nu us u km nm ms o :
  role_order ctx Taker amount price quote tNote tp tix tpda → role_order ctx Maker amount price base mNote mp mix mpda →
  submit_order_handler ku nu (submit_args tp) us = Ok u → submit_order_handler km nm (submit_args mp) ms = Ok o →
  pair_context mctx (toBytes ctx.(rx_programs).(market)) twap (meta tpda false true) (meta mpda false true) →
  mctx.(rc_config).(mc_min_order_size) <= amount mod U64 →
  saturating_add mctx.(rc_slot) SETTLEMENT_BUFFER_SLOTS < (submit_args tp).(expiry_slot) →
  saturating_add mctx.(rc_slot) SETTLEMENT_BUFFER_SLOTS < (submit_args mp).(expiry_slot) →
  deviates_by_more_than_bps (price mod U64) twap mctx.(rc_config).(mc_circuit_breaker_bps) = false →
  slots !! toBytes tpda = Some {| sl_owner := me_id; sl_order := Some u |} →
  slots !! toBytes mpda = Some {| sl_owner := me_id; sl_order := Some o |} →
  ∃ ev slots' br' mr, run_batch_handler me_id mctx (toBytes ctx.(rx_programs).(market)) slots br = Ok (ev, slots', br') ∧
    ev.(be_match_count) = 1 ∧ ev.(be_clearing_price) = price mod U64 ∧
    fair_match (price mod U64) twap mctx.(rc_slot) mctx.(rc_config).(mc_base_mint) mctx.(rc_config).(mc_quote_mint) 0
      (snapshot_from_slot u 0) (snapshot_from_slot o 1) mr ∧
    mr.(mr_noteBuyer) = tNote.(dr_noteCommitment) ∧ mr.(mr_noteSeller) = mNote.(dr_noteCommitment) ∧
    mr.(mr_baseAmt) = amount mod U64 ∧
    br'.(br_results) = <[Z.to_nat (br.(br_writeCursor) mod 16) := mr]> br.(br_results).
Proof.
  intros [(_ & Fm & _) (Ts & Ta & Tp & Tt & Tf) (Tn & _ & To) _] [(_ & Gm & _) (Ms & Ma & Mp & Mt & Mf) (Mn & _ & Mo) _]
    Hu Ho Hctx Hmin Et Em Hdev Ku Ko.
  pose proof (owner_bytes _ _ To) as [Tol Tob]. pose proof (owner_bytes _ _ Mo) as [Mol Mob].
  assert (Hmod : ∀ x, x mod U64 < U64) by (intros x; by apply Z.mod_pos_bound).
  assert (Ru : ready_order mctx (toBytes ctx.(rx_programs).(market)) u).
  { eapply submitted_ready; [exact Hu|..]; cbn [submit_args soa_market order_type min_fill_qty soa_amount note_amount user_commitment];
      rewrite ?Fm, ?Tt, ?Tf, ?Ta; try done; apply Hmod. }
  assert (Ro : ready_order mctx (toBytes ctx.(rx_programs).(market)) o).
  { eapply submitted_ready; [exact Ho|..]; cbn [submit_args soa_market order_type min_fill_qty soa_amount note_amount user_commitment];
      rewrite ?Gm, ?Mt, ?Mf, ?Ma; try done; apply Hmod. }
  apply submit_handler_writes in Hu, Ho. destruct Hu as (_ & Us & Ua & Up & _ & _ & Un & _), Ho as (_ & Os & Oa & Op & _ & _ & On & _).
  cbn [submit_args side soa_amount price_limit note_commitment] in *. rewrite Ts in Us. rewrite Ms in Os. rewrite Ta in Ua. rewrite Ma in Oa.
  rewrite Tp in Up. rewrite Mp in Op.
  destruct (mirrored_orders_run me_id mctx _ twap (meta tpda false true) (meta mpda false true) u o slots br Hctx Ru Ro)
    as (ev & slots' & br' & mr & Hrun & Hc & Hp & _ & Hfair & _ & Hb & Hres & _); try assumption; try congruence.
  { by rewrite Us, Os. }
  exists ev, slots', br', mr. unfold bid_of, ask_of in Hfair. rewrite Us in Hfair. cbn [Z.eqb] in Hfair. rewrite Up in Hp, Hfair. rewrite Ua in Hb.
  split; [exact Hrun|]. split; [exact Hc|]. split; [exact Hp|]. split; [exact Hfair|].
  destruct (fm_buyer _ _ _ _ _ _ _ _ _ Hfair) as (Fb & _), (fm_seller _ _ _ _ _ _ _ _ _ Hfair) as (Fs & _).
  cbn [snapshot_from_slot sn_collateral_note] in Fb, Fs. rewrite Fb, Fs, Un, On, Tn, Mn. by split_and!.
Qed.
End flow.

(** What four finished requests did: the deposits, the orders, the batch, and the
    state in the file. *)
Record flow_ran `{NodeCrypto} `{Poseidon} `{Web3} `{ForeignIx} `{Host} {S} (vault_id : PublicKey) (ctx : RouteCtx S)
    (amount price quote base : Z) (tNote mNote : DepositReceipt) (tp mp : BuildSubmitOrderParams) (tpda mpda : PublicKey) (final : FlowState) : Prop := {
  fr_env : BigInt (env_or "DEMO_TAKER_QUOTE_DEPOSIT" "5000") = Ok quote ∧ BigInt (env_or "DEMO_MAKER_BASE_DEPOSIT" "30") = Ok base ∧
    BigInt (env_or "DEMO_ORDER_BASE_AMOUNT" "30") = Ok amount ∧ BigInt (env_or "DEMO_ORDER_PRICE" "100") = Ok price;
  fr_notes : role_deposited ctx Taker ctx.(rx_programs).(quoteMint) quote tNote ∧ role_deposited ctx Maker ctx.(rx_programs).(baseMint) base mNote;
  fr_orders : ∃ tix mix, role_order ctx Taker amount price quote tNote tp tix tpda ∧ role_order ctx Maker amount price base mNote mp mix mpda ∧
    accepted_as (Program0 := matching_program vault_id) ctx.(rx_programs).(meProgramId) tix (MSubmitOrder (submit_args tp)) ∧
    accepted_as (Program0 := matching_program vault_id) ctx.(rx_programs).(meProgramId) mix (MSubmitOrder (submit_args mp));
  fr_batch : ∃ bix sig t t', ctx.(rx_er).(l1_send) [bix] [ctx.(rx_tee)] t = (Ok sig, t') ∧
    drop 5 bix.(ix_keys) = [meta tpda false true; meta mpda false true] ∧ final.(fs_runBatchSignature) = Some sig;
  fr_state : ∃ taker maker, final.(fs_taker) = Some taker ∧ final.(fs_maker) = Some maker ∧
    is_Some taker.(fa_orderSignature) ∧ is_Some maker.(fa_orderSignature) ∧
    hexToBytes taker.(fa_noteCommitmentHex) = tNote.(dr_noteCommitment) ∧ hexToBytes maker.(fa_noteCommitmentHex) = mNote.(dr_noteCommitment) }.

(** [C22] The live flow trades the notes it deposited. Let the four requests
    [bootstrap], [submit_taker], [submit_maker] and [run_batch] succeed in this
    order, on a file system that keeps the state file in between. Then the two
    orders were accepted instructions of the matching engine over the amounts of the
    environment, opposite in side, each backed by the note its role deposited; the
    batch ran over exactly their two slots; the file ends with both orders and the
    batch noted. Once the rollup's slots hold what [submit_order] makes of the two
    instructions, let the batch run for the vault's TEE in a market without fees,
    with its own oracle inside the circuit breaker's band of the price; let the
    amount, modulo 2^64, be at least the minimum order size, and both orders expire
    later than the settlement buffer after the batch's slot. Then the batch matches
    the two notes, fairly, for the whole amount modulo 2^64 at the price modulo
    2^64. *)
Theorem live_flow_matches `{NodeCrypto} `{!NodeCryptoLaws} `{Poseidon} `{Web3} `{Base58} `{!Base58Laws} `{Base58Encode} `{Nacl} `{ForeignIx}
    `{KeyOps} `{Host} {S} (server : LiveServer S) file vault_id b s0 s1 t t1 t2 m m1 m2 r r1 r2 :
  file_server file server → distinct_discriminators (fst <$> matching_table) →
  POST server (Ok (Some "bootstrap")) s0 = (Ok (Sent b), s1) →
  POST server (Ok (Some "submit_taker")) t1 = (Ok (Sent t), t2) → (∀ path, file path t1 = file path s1) →
  POST server (Ok (Some "submit_maker")) m1 = (Ok (Sent m), m2) → (∀ path, file path m1 = file path t2) →
  POST server (Ok (Some "run_batch")) r1 = (Ok (Sent r), r2) → (∀ path, file path r1 = file path m2) →
  ∃ ctx amount price quote base tNote mNote tp mp tpda mpda final,
    buildCtx server = Ok ctx ∧ flow_ran vault_id ctx amount price quote base tNote mNote tp mp tpda mpda final ∧
    file ctx.(rx_statePath) r2 = Some (JSON_write (flow_json final)) ∧
    ∀ me_id mctx twap br slots ku nu us u km nm ms o,
      submit_order_handler ku nu (submit_args tp) us = Ok u → submit_order_handler km nm (submit_args mp) ms = Ok o →
      pair_context mctx (toBytes ctx.(rx_programs).(market)) twap (meta tpda false true) (meta mpda false true) →
      mctx.(rc_config).(mc_min_order_size) <= amount mod U64 →
      saturating_add mctx.(rc_slot) SETTLEMENT_BUFFER_SLOTS < (submit_args tp).(expiry_slot) →
      saturating_add mctx.(rc_slot) SETTLEMENT_BUFFER_SLOTS < (submit_args mp).(expiry_slot) →
      deviates_by_more_than_bps (price mod U64) twap mctx.(rc_config).(mc_circuit_breaker_bps) = false →
      slots !! toBytes tpda = Some {| sl_owner := me_id; sl_order := Some u |} →
      slots !! toBytes mpda = Some {| sl_owner := me_id; sl_order := Some o |} →
      ∃ ev slots' br' mr, run_batch_handler me_id mctx (toBytes ctx.(rx_programs).(market)) slots br = Ok (ev, slots', br') ∧
        ev.(be_match_count) = 1 ∧ ev.(be_clearing_price) = price mod U64 ∧
        fair_match (price mod U64) twap mctx.(rc_slot) mctx.(rc_config).(mc_base_mint) mctx.(rc_config).(mc_quote_mint) 0
          (snapshot_from_slot u 0) (snapshot_from_slot o 1) mr ∧
        mr.(mr_noteBuyer) = tNote.(dr_noteCommitment) ∧ mr.(mr_noteSeller) = mNote.(dr_noteCommitment) ∧
        mr.(mr_baseAmt) = amount mod U64 ∧
        br'.(br_results) = <[Z.to_nat (br.(br_writeCursor) mod 16) := mr]> br.(br_results).
Proof.
  intros Hf Hd Hb Ht Et Hm Em Hr Er.
  apply POST_Sent in Hb as (ctx & handler & w & Hctx & [= <-] & Hb & -> & _).
  apply handleBootstrap_Ok in Hb as (quote & base & tNote & mNote & st & (Bq & Bb & Dt & Dm & ta & ma & Sta & Sma & At & Am) & _ & (x & u & Hw)).
  apply (writeState_file server file Hf) in Hw. pose proof (proj1 Dt) as Pq. pose proof (proj1 Dm) as Pb.
  destruct (boot_actor_back _ _ _ _ _ Pq At) as (Kt & Nt & _ & _ & Xt), (boot_actor_back _ _ _ _ _ Pb Am) as (Km & Nm & _ & _ & Xm).
  assert (Hx : state_exact st) by (by split; [rewrite Sta|rewrite Sma]).
  rewrite <-Et in Hw.
  destruct (submit_request server file ctx Taker quote tNote ta st _ _ _ Hf Hctx Hw Hx Sta Pq At Ht)
    as (amount & price & tp & tix & tpda & tsig & [toid tbump] & tat & Ea & Ep & Ot & Pt & Hw2).
  rewrite <-Em in Hw2. cbn [fst] in Hw2. pose proof (record_order_exact Taker tsig toid tat st Hx) as Hx2.
  destruct (submit_request server file ctx Maker base mNote ma _ _ _ _ Hf Hctx Hw2 Hx2 Sma Pb Am Hm)
    as (amount' & price' & mp & mix & mpda & msig & [moid mbump] & mat & Ea' & Ep' & Om & Pm & Hw3).
  rewrite Ea in Ea'. apply Ok_inj in Ea' as <-. rewrite Ep in Ep'. apply Ok_inj in Ep' as <-. cbn [fst] in Hw3. rewrite <-Er in Hw3.
  pose proof (record_order_exact Maker msig moid mat _ Hx2) as Hx3.
  apply POST_Sent in Hr as (ctx' & handler & w3 & Hctx' & [= <-] & Hr & -> & _). rewrite Hctx in Hctx'. apply Ok_inj in Hctx' as <-.
  unfold handleRunBatch in Hr. apply M_bind_Ok in Hr as ([[stb rs] us] & w4 & Hbatch & Hr).
  apply (batch_send_Ok server file Hf) in Hbatch as (Est & ta2 & ma2 & tk & mk & tp2 & mp2 & y & y' & Sta2 & Sma2 & Ktk & Kmk & Ptk & Pmk & Hsend).
  cbn [snd] in Est. rewrite Hw3, stored_written in Est by done. subst stb.
  cbn [record_order fs_taker fs_maker] in Sta2, Sma2. rewrite Sta in Sta2. rewrite Sma in Sma2. injection Sta2 as <-. injection Sma2 as <-.
  cbn [with_order fa_tradingPubkey fa_slotIdx] in *. rewrite Kt, newPublicKey_toBase58 in Ktk. apply Ok_inj in Ktk as <-.
  rewrite Km, newPublicKey_toBase58 in Kmk. apply Ok_inj in Kmk as <-. rewrite Pt in Ptk. apply Ok_inj in Ptk as <-.
  rewrite Pm in Pmk. apply Ok_inj in Pmk as <-.
  apply outside_Ok in Hr as [Hr _]. apply (batch_record_Ok server file Hf) in Hr as (bat & _ & Hfin).
  exists ctx, amount, price, quote, base, tNote, mNote, tp, mp, tpda, mpda. eexists. split; [exact Hctx|]. split; [|split; [exact Hfin|]].
  - split; [by split_and!|by split| | |].
    + exists tix, mix. split; [exact Ot|]. split; [exact Om|].
      destruct (lo_sent _ _ _ _ _ _ _ _ _ Ot) as (tb & ? & ? & ? & Htb & <- & _), (lo_sent _ _ _ _ _ _ _ _ _ Om) as (mb & ? & ? & ? & Hmb & <- & _).
      destruct (lo_for _ _ _ _ _ _ _ _ _ Ot) as (<- & _). split; [by apply submit_accepted|].
      destruct (lo_for _ _ _ _ _ _ _ _ _ Om) as (Ep' & _). destruct (lo_for _ _ _ _ _ _ _ _ _ Ot) as (Et' & _).
      rewrite Et', <-Ep'. by apply submit_accepted.
    + do 4 eexists. split; [exact Hsend|]. split; [reflexivity|reflexivity].
    + cbn [record_batch record_order fs_taker fs_maker]. rewrite Sta, Sma. do 2 eexists. split; [reflexivity|]. split; [reflexivity|].
      cbn [with_order fa_orderSignature fa_noteCommitmentHex]. by split_and!.
  - intros me_id mctx twap br slots ku nu us' u' km nm ms o. by apply (role_orders_match ctx amount price quote base tNote mNote tp mp tix mix).
Qed.

(** ** What the answers report *)

(** A server whose nodes log what they confirm, and whose other services send
    nothing. *)
Record logging_live {S} (log : S → list string) (server : LiveServer S) : Prop := {
  ll_nodes : ∀ url, logging log (server.(lv_connection) url);
  ll_now : quiet log server.(lv_now);
  ll_random : ∀ n, quiet log (server.(lv_randomBytes) n);
  ll_sleep : ∀ ms, quiet log (server.(lv_sleep) ms);
  ll_fetch : ∀ rq, quiet log (server.(lv_fetch) rq);
  ll_read : ∀ path, quiet log (server.(lv_readFile) path);
  ll_mkdir : ∀ path, quiet log (server.(lv_mkdir) path);
  ll_write : ∀ path text, quiet log (server.(lv_writeFile) path text) }.

Section reports.
Context `{NodeCrypto} `{Poseidon} `{Web3} `{Base58} `{Base58Encode} `{Nacl} `{ForeignIx} `{KeyOps} `{Host} {S : Type}.
Context (log : S → list string) (server : LiveServer S) (Hs : logging_live log server).
Implicit Types ctx : RouteCtx S.

Lemma now_quiet : quiet log server.(lv_now). Proof. apply Hs. Qed.
Lemma random_quiet n : quiet log (server.(lv_randomBytes) n). Proof. apply Hs. Qed.
Lemma fetch_quiet rq : quiet log (server.(lv_fetch) rq). Proof. apply Hs. Qed.
Lemma mkdir_quiet path : quiet log (server.(lv_mkdir) path). Proof. apply Hs. Qed.
Lemma read_quiet path : quiet log (server.(lv_readFile) path). Proof. apply Hs. Qed.
Lemma write_quiet path text : quiet log (server.(lv_writeFile) path text). Proof. apply Hs. Qed.
#[local] Hint Resolve now_quiet random_quiet fetch_quiet mkdir_quiet read_quiet write_quiet : confirmed.

Lemma readState_quiet path : quiet log (readState server path).
Proof. unfold readState. confirm. Qed.
Lemma writeState_quiet path st : quiet log (writeState server path st).
Proof. unfold writeState. confirm. Qed.
Lemma timestamp_quiet : quiet log (timestamp server).
Proof. unfold timestamp. confirm. Qed.
#[local] Hint Resolve readState_quiet writeState_quiet timestamp_quiet : confirmed.

Lemma per_auth_quiet ctx : quiet log (handlePerAuth server ctx).
Proof. unfold handlePerAuth. confirm. Qed.

Lemma submit_record_quiet ctx role sig oid : quiet log (submit_record server ctx role sig oid).
Proof. unfold submit_record, submit_write. confirm. Qed.

Lemma batch_record_quiet ctx st r u : quiet log (batch_record server ctx st r u).
Proof. unfold batch_record. confirm. Qed.

Lemma live_slot_quiet l1 me mkt tk : logging log l1 → quiet log (live_chooseFreshSlot server l1 me mkt tk).
Proof.
  intros Hl. unfold live_chooseFreshSlot. apply quiet_bind; [|intros ?; confirm].
  generalize [0; 1; 2; 3; 4; 5; 6; 7]. intros todo. induction todo as [|i todo IH]; cbn [fresh_loop]; [confirm|]. do 3 confirm_step; [exact IH|confirm_step].
Qed.
#[local] Hint Resolve per_auth_quiet submit_record_quiet batch_record_quiet live_slot_quiet : confirmed.

(** A transaction whose signature is pushed before anything else happens. *)
Lemma reports_sent {A} (conn : L1Connection S) label cluster ixs signers (k : string → Reporting S A) :
  logging log conn → (∀ sig, reports log (k sig)) →
  reports log (sig ← outside (conn.(l1_send) ixs signers); _ ← push label sig cluster; k sig).
Proof.
  intros Hl Hk. apply (reports_push log _ (λ sig, [{| si_label := label; si_signature := sig; si_cluster := cluster |}]));
    [by apply lg_send|done|exact Hk].
Qed.

Context (ctx : RouteCtx S) (Hl1 : logging log ctx.(rx_l1)) (Her : logging log ctx.(rx_er)).

Lemma role_deposit_reports role depositor mint ata amount nonce :
  reports log (role_deposit server ctx role (live_deposit_params depositor mint ata amount nonce)).
Proof.
  unfold role_deposit.
  apply (reports_push log _ (λ r, [{| si_label := role_text role +:+ " deposit"; si_signature := r.(dr_signature); si_cluster := "l1" |}]));
    [|done|intros; apply reports_pure].
  apply client_confirms. by eapply (seeded_deposit_confirms log ctx.(rx_l1)).
Qed.

Lemma bootstrap_reports : reports log (handleBootstrap server ctx).
Proof.
  unfold handleBootstrap, ensureTopUp, mint_demo_balances, live_ensureSlotDelegated, ensureMarketDelegated. cbv zeta.
  do 9 (report_step; [solve [report]|]). do 2 (report_step; [apply role_deposit_reports|]). report.
Qed.

Lemma submit_reports role : reports log (handleSubmitOrder server ctx role).
Proof.
  unfold handleSubmitOrder, submit_send. cbv zeta. report_step; [|destruct role; report].
  report_step; [report|]. report_step; [|report]. do 6 (report_step; [report|]).
  by apply reports_sent; [|intros; apply reports_pure].
Qed.

Lemma batch_reports : reports log (handleRunBatch server ctx).
Proof.
  unfold handleRunBatch, batch_send. cbv zeta. report_step; [|report].
  report_step; [report|]. do 2 (report_step; [|report]). do 5 (report_step; [report|]).
  apply reports_sent; [done|intros]. apply reports_sent; [done|intros].
  report_step; [|report]. apply reports_outside, wait_quiet; [apply Hs|confirm|apply Hs].
Qed.
End reports.

(** The cases of a request. *)
Section cases.
Context `{NodeCrypto} `{Poseidon} `{Web3} `{Base58} `{Base58Encode} `{Nacl} `{ForeignIx} `{KeyOps} `{Host} {S : Type} (server : LiveServer S).

Lemma POST_eq req s : POST server req s =
  match POST_body server req ([], s) with
  | (Ok a, w) => (Ok a, w.2)
  | (Throw e, w) => (Ok (Refused 500 (exn_message e) None), w.2)
  end.
Proof. unfold POST, route, try_catch. by destruct (POST_body server req ([], s)) as [[a|e] w]. Qed.

Lemma POST_body_missing action w : truthy action = None → POST_body server (Ok action) w = (Ok (bad_request "Missing action."), w).
Proof. intros Ha. unfold POST_body. change (liftR (Ok action) ≫= ?k) with (λ w : list SignatureItem * S, k action w). cbn beta. by rewrite Ha. Qed.

Lemma POST_body_unbuilt action act e w : truthy action = Some act → buildCtx server = Throw e → POST_body server (Ok action) w = (Throw e, w).
Proof.
  intros Ha Hc. unfold POST_body. change (liftR (Ok action) ≫= ?k) with (λ w : list SignatureItem * S, k action w). cbn beta.
  rewrite Ha, Hc. reflexivity.
Qed.

Lemma POST_body_handled action act ctx w : truthy action = Some act → buildCtx server = Ok ctx →
  POST_body server (Ok action) w =
  match dispatch server ctx act with
  | None => (Ok (bad_request ("Unsupported action: " +:+ act)), w)
  | Some h =>
      match h w with
      | (Ok payload, w') => (Ok (Sent {| fw_action := act; fw_signatures := w'.1; fw_payload := payload |}), w')
      | (Throw e, w') => (Throw e, w')
      end
  end.
Proof.
  intros Ha Hc. unfold POST_body. change (liftR (Ok action) ≫= ?k) with (λ w : list SignatureItem * S, k action w). cbn beta.
  rewrite Ha, Hc. change (liftR (Ok ctx) ≫= ?k) with (λ w : list SignatureItem * S, k ctx w). cbn beta.
  destruct (dispatch server ctx act) as [h|]; [|done]. unfold mbind, M_bind. by destruct (h w) as [[payload|e] w'].
Qed.
End cases.

(** The live route always answers, and reports only what was confirmed.  On
    nodes that log what they confirm, the signatures of a success are among the
    ones this request had confirmed, in the order they were.  An error has status
    400 only for a missing or unknown action, with nothing sent; whatever a step
    throws has status 500 with its message, and no signatures, whether or not
    transactions of the request were confirmed. *)
Theorem live_route_reports `{NodeCrypto} `{Poseidon} `{Web3} `{Base58} `{Base58Encode} `{Nacl} `{ForeignIx} `{KeyOps} `{Host} {S}
    (log : S → list string) (server : LiveServer S) req s :
  logging_live log server →
  ∃ ans s' mid, POST server req s = (Ok ans, s') ∧ log s' = log s ++ mid ∧
    match ans with
    | Sent a => (si_signature <$> a.(fw_signatures)) `sublist_of` mid
    | Refused status error diagnostics =>
        diagnostics = None ∧
        if bool_decide (status = 400) then
          mid = [] ∧ ∃ action, req = Ok action ∧
            (truthy action = None ∧ error = "Missing action." ∨
             ∃ a, truthy action = Some a ∧ a ∉ ["per_auth"; "bootstrap"; "submit_taker"; "submit_maker"; "run_batch"] ∧
               error = "Unsupported action: " +:+ a)
        else status = 500 ∧ ∃ e w, error = exn_message e ∧ POST_body server req ([], s) = (Throw e, w)
    end.
Proof.
  intros Hs. rewrite POST_eq. destruct req as [action|e]; cycle 1.
  { exists (Refused 500 (exn_message e) None), s, []. rewrite app_nil_r. split_and!; [done..|]. split; [done|by exists e, ([], s)]. }
  destruct (truthy action) as [act|] eqn:Hact; cycle 1.
  { rewrite (POST_body_missing _ _ _ Hact). exists (bad_request "Missing action."), s, []. rewrite app_nil_r.
    split_and!; [done..|]. split; [done|]. split; [done|]. exists action. split; [done|]. by left. }
  destruct (buildCtx server) as [ctx|e] eqn:Hctx; cycle 1.
  { rewrite (POST_body_unbuilt _ _ _ _ _ Hact Hctx). exists (Refused 500 (exn_message e) None), s, []. rewrite app_nil_r.
    split_and!; [done..|]. split; [done|by exists e, ([], s)]. }
  rewrite (POST_body_handled _ _ _ _ _ Hact Hctx). destruct (dispatch server ctx act) as [h|] eqn:Hd; cycle 1.
  { exists (bad_request ("Unsupported action: " +:+ act)), s, []. rewrite app_nil_r. split_and!; [done..|]. split; [done|]. split; [done|].
    exists action. split; [done|]. right. exists act. split; [done|]. split; [|done].
    unfold dispatch in Hd. repeat case_bool_decide; try discriminate Hd. rewrite !elem_of_cons, elem_of_nil. naive_solver. }
  assert (Hh : reports log h).
  { destruct (buildCtx_nodes server ctx Hctx) as (u & v & El & Ee).
    assert (Hl1 : logging log ctx.(rx_l1)) by (rewrite El; apply Hs). assert (Her : logging log ctx.(rx_er)) by (rewrite Ee; apply Hs).
    unfold dispatch in Hd. repeat case_bool_decide; try discriminate Hd; injection Hd as <-;
      [by apply reports_outside, per_auth_quiet|by apply bootstrap_reports|by apply submit_reports..|by apply batch_reports]. }
  destruct (h ([], s)) as [r w] eqn:Hr. destruct (Hh _ _ _ Hr) as (mid & items & L & I & Hsub). cbn [fst snd app] in L, I.
  destruct r as [payload|e].
  - eexists _, w.2, mid. split; [reflexivity|]. split; [exact L|]. cbn [fw_signatures]. by rewrite I.
  - eexists _, w.2, mid. split; [reflexivity|]. split; [exact L|]. split; [done|]. split; [done|]. by exists e, w.
Qed.

(** ** Requests that overlap

    The two orders may be submitted at once, and requests take turns at each
    [await].  What another request can see are the file and the chain, so a
    request's steps here are its order, the second read of the file, and the
    write; the file system writes a file at once. *)

(** A relation's steps keep an invariant. *)
Lemma rtc_holds {A} (R : A → A → Prop) (P : A → Prop) c c' : (∀ c c', P c → R c c' → P c') → rtc R c c' → P c → P c'.
Proof. intros Hstep Hsteps. induction Hsteps; eauto. Qed.

Inductive Phase :=
  | Fresh
  | Pending (sig : string) (orderId : bytes)                      (** the order is sent *)
  | Reread (sig : string) (orderId : bytes) (next : FlowState)    (** and the file read again *)
  | Recorded (sig : string) (orderId : bytes).                    (** and written *)
Definition Phases : Type := Role → Phase.
Definition other (role : Role) : Role := match role with Taker => Maker | Maker => Taker end.
#[export] Instance role_eq_dec : EqDecision Role.
Proof. solve_decision. Defined.
Inductive Event := Sends (role : Role) | Reads (role : Role) | Writes (role : Role).
Definition set_phase (role : Role) (x : Phase) (p : Phases) : Phases := λ r, if decide (r = role) then x else p r.

Section overlap.
Context `{NodeCrypto} `{Poseidon} `{Web3} `{Base58} `{Base58Encode} `{Nacl} `{ForeignIx} `{KeyOps} `{Host} {S : Type}.
Context (server : LiveServer S).
Implicit Types ctx : RouteCtx S.

Inductive submit_step ctx : Event → Phases * S → Phases * S → Prop :=
  | step_send role p s sig oid sigs sigs' s' :
      p role = Fresh → submit_send server ctx role (sigs, s) = (Ok (sig, oid), (sigs', s')) →
      submit_step ctx (Sends role) (p, s) (set_phase role (Pending sig oid) p, s')
  | step_read role p s sig oid next s' :
      p role = Pending sig oid → readState server ctx.(rx_statePath) s = (Ok next, s') →
      submit_step ctx (Reads role) (p, s) (set_phase role (Reread sig oid next) p, s')
  | step_write role p s sig oid next payload s' :
      p role = Reread sig oid next → submit_write server ctx role sig oid next s = (Ok payload, s') →
      submit_step ctx (Writes role) (p, s) (set_phase role (Recorded sig oid) p, s').

(** A run, with its events in the order they happened. *)
Inductive submit_run ctx (c : Phases * S) : list Event → Phases * S → Prop :=
  | run_start : submit_run ctx c [] c
  | run_step evs c1 e c2 : submit_run ctx c evs c1 → submit_step ctx e c1 c2 → submit_run ctx c (evs ++ [e]) c2.

Lemma run_cons ctx e c c1 evs c2 : submit_step ctx e c c1 → submit_run ctx c1 evs c2 → submit_run ctx c (e :: evs) c2.
Proof.
  intros He Hrun. induction Hrun as [|evs c2 e' c3 _ IH Hstep]; [by apply (run_step _ _ [] _ _ _ (run_start _ _))|].
  by apply (run_step _ _ (e :: evs) _ _ _ IH).
Qed.

(** At most one request is between its second read and its write. *)
Definition is_reread (x : Phase) : bool := match x with Reread _ _ _ => true | _ => false end.
Definition one_writer (p : Phases) : Prop := is_reread (p Taker) && is_reread (p Maker) = false.
Definition serial_step ctx (c c' : Phases * S) : Prop := (∃ e, submit_step ctx e c c') ∧ one_writer c'.1.

(** What the state shows of a role that started as [before]: its order once it is
    recorded. *)
Definition recorded (x : Phase) : bool := match x with Recorded _ _ => true | _ => false end.
Definition has_read (x : Phase) : bool := is_reread x || recorded x.
Definition role_shows (x : Phase) (before now : option FlowStateActor) : Prop :=
  match x with
  | Recorded sig oid => now = with_order sig (toHex oid) <$> before
  | _ => now = before
  end.

Definition shows (p : Phases) (st0 st : FlowState) (role : Role) : Prop := role_shows (p role) (actor_of role st0) (actor_of role st).

(** A role's order is undone when the other request has read the file before it is
    written, and writes what it read after it. *)
Definition passed (evs : list Event) (role : Role) : Prop := [Reads (other role); Writes role] `sublist_of` evs.
Definition undone (evs : list Event) (role : Role) : Prop :=
  [Reads (other role); Writes role; Writes (other role)] `sublist_of` evs.

(** What a state shows of a role, by whether its order is gone. *)
Definition fate (gone : Prop) (p : Phases) (st0 st : FlowState) (role : Role) : Prop :=
  (gone → actor_of role st = actor_of role st0) ∧ (¬ gone → shows p st0 st role).

Lemma set_phase_same role x p : set_phase role x p role = x.
Proof. unfold set_phase. by rewrite decide_True. Qed.
Lemma set_phase_other role x p : set_phase role x p (other role) = p (other role).
Proof. unfold set_phase. rewrite decide_False; [done|]. by destruct role. Qed.
Lemma actor_record role sig oid at_ st :
  actor_of role (record_order role sig oid at_ st) = with_order sig oid <$> actor_of role st ∧
  actor_of (other role) (record_order role sig oid at_ st) = actor_of (other role) st.
Proof. by destruct role. Qed.
Lemma role_cases (P : Role → Prop) role : P role → P (other role) → ∀ r, P r.
Proof. intros Hr Ho []; by destruct role. Qed.
Lemma other_other role : other (other role) = role.
Proof. by destruct role. Qed.
Lemma shows_unrecorded p st0 st role : recorded (p role) = false → shows p st0 st role ↔ actor_of role st = actor_of role st0.
Proof. unfold shows. by destruct (p role). Qed.

(** A state that a waiting request will write is as the start for its own role, and
    for the other role the start or its order. *)
Definition held (p : Phases) (st0 : FlowState) (ok : FlowState → Role → Prop) (role : Role) : Prop :=
  match p role with
  | Reread _ _ next => state_exact next ∧ actor_of role next = actor_of role st0 ∧ ok next (other role)
  | _ => True
  end.

Implicit Types evs : list Event.

Lemma held_trivial p st0 ok r : is_reread (p r) = false → held p st0 ok r.
Proof. unfold held. by destruct (p r). Qed.

Lemma passed_snoc evs e role : passed (evs ++ [e]) role ↔ passed evs role ∨ e = Writes role ∧ Reads (other role) ∈ evs.
Proof. etrans; [apply (sublist_snoc [Reads (other role)])|]. rewrite singleton_sublist_l. done. Qed.
Lemma undone_snoc evs e role : undone (evs ++ [e]) role ↔ undone evs role ∨ e = Writes (other role) ∧ passed evs role.
Proof. exact (sublist_snoc [Reads (other role); Writes role] evs (Writes (other role)) e). Qed.
Lemma passed_in evs role : passed evs role → Reads (other role) ∈ evs ∧ Writes role ∈ evs.
Proof. intros Hp. split; refine (elem_of_sublist _ _ _ _ Hp); set_solver. Qed.
Lemma undone_in evs role : undone evs role → Reads (other role) ∈ evs ∧ Writes role ∈ evs ∧ Writes (other role) ∈ evs.
Proof. intros Hp. split_and!; refine (elem_of_sublist _ _ _ _ Hp); set_solver. Qed.

(** The request that wrote last. *)
Definition wrote_last (evs : list Event) (role : Role) : Prop :=
  Writes role ∈ evs ∧ ¬ [Writes role; Writes (other role)] `sublist_of` evs.
Lemma wrote_last_kept evs role : wrote_last evs role → ¬ undone evs role.
Proof. intros [_ Hn] Hu. apply Hn. etrans; [|exact Hu]. apply sublist_cons, reflexivity. Qed.

Context (file : string → S → option string) (Hf : file_server file server).

(** A batch writes the state it read at its start: what was written to the file in
    the meantime is gone. *)
Lemma batch_overwrites ctx w st runSig undSig w' s payload s' :
  batch_send server ctx w = (Ok (st, runSig, undSig), w') → batch_record server ctx st runSig undSig s = (Ok payload, s') →
  ∃ updatedAt, file ctx.(rx_statePath) s' =
    Some (JSON_write (flow_json (record_batch runSig undSig updatedAt (stored server (file ctx.(rx_statePath) w.2))))).
Proof.
  intros Hb Hr. apply (batch_send_Ok server file Hf) in Hb as [-> _]. apply (batch_record_Ok server file Hf) in Hr as (at_ & _ & Hw).
  by exists at_.
Qed.
Context (ctx : RouteCtx S) (Hl : keeping_node file ctx.(rx_l1)) (He : keeping_node file ctx.(rx_er)).

Definition stands (st : FlowState) (s : S) : Prop := state_exact st ∧ file ctx.(rx_statePath) s = Some (JSON_write (flow_json st)).

Lemma stands_read st s : stands st s → readState server ctx.(rx_statePath) s = (Ok st, s).
Proof. intros [Hx Hw]. by rewrite (readState_run server file Hf), Hw, stored_written. Qed.

(** The effect of a step on the file, and on the phase of one role. *)
Inductive step_effect (st : FlowState) (s' : S) : Event → Phase → Phase → FlowState → Role → Prop :=
  | effect_send sig oid role : stands st s' → step_effect st s' (Sends role) Fresh (Pending sig oid) st role
  | effect_read sig oid role : stands st s' → step_effect st s' (Reads role) (Pending sig oid) (Reread sig oid st) st role
  | effect_write sig oid next at_ role : (state_exact next → stands (record_order role sig (toHex oid) at_ next) s') →
      step_effect st s' (Writes role) (Reread sig oid next) (Recorded sig oid) (record_order role sig (toHex oid) at_ next) role.

Lemma step_effects e p s p' s' st : submit_step ctx e (p, s) (p', s') → stands st s →
  ∃ role st', step_effect st s' e (p role) (p' role) st' role ∧ p' (other role) = p (other role).
Proof.
  intros Hstep Hst.
  inversion Hstep as [role p0 s1 sig oid sigs sigs' s2 Hp Hs Ee Ea Eb|role p0 s1 sig oid next s2 Hp Hr Ee Ea Eb
    |role p0 s1 sig oid next payload s2 Hp Hr Ee Ea Eb]; subst e p0 s1 p' s2.
  - apply (submit_send_Ok server file Hf _ _ _ _ _ _ Hl He) in Hs as [Hk _]. cbn [snd] in Hk. exists role, st.
    rewrite set_phase_same, set_phase_other, Hp. split; [|done]. constructor. destruct Hst as [Hx Hw]. split; [exact Hx|]. by rewrite Hk.
  - rewrite (stands_read _ _ Hst) in Hr. injection Hr as <- <-. exists role, st. rewrite set_phase_same, set_phase_other, Hp.
    split; [by constructor|done].
  - apply (submit_write_Ok server file) in Hr as (at_ & _ & Hw'); [|exact Hf]. exists role, (record_order role sig (toHex oid) at_ next).
    rewrite set_phase_same, set_phase_other, Hp. split; [|done]. constructor. intros Hx. split; [by apply record_order_exact|exact Hw'].
Qed.

(** The invariant, whatever the overlap: after the events [evs] each role's part of
    the file has its fate, and so has the other role's part of a state that is
    still to be written. *)
Record overlapped (st0 : FlowState) (evs : list Event) (c : Phases * S) (st : FlowState) : Prop := {
  ov_file : stands st c.2;
  ov_read : ∀ r, Reads r ∈ evs ↔ has_read (c.1 r) = true;
  ov_wrote : ∀ r, Writes r ∈ evs ↔ recorded (c.1 r) = true;
  ov_roles : ∀ r, fate (undone evs r) c.1 st0 st r;
  ov_held : ∀ r, held c.1 st0 (λ next r', fate (passed evs r') c.1 st0 next r') r;
  ov_some : ∃ r, ¬ undone evs r }.

(** Phases that show the same. *)
Definition agree (p p' : Phases) : Prop := ∀ r, recorded (p r) = recorded (p' r) ∧ ∀ x y, role_shows (p r) x y ↔ role_shows (p' r) x y.

Lemma agree_unrecorded p p' role :
  recorded (p role) = false → recorded (p' role) = false → p' (other role) = p (other role) → agree p p'.
Proof.
  intros Hp Hp' Ho. unfold agree. apply (role_cases _ role); [|by rewrite Ho]. split; [by rewrite Hp, Hp'|]. intros x y.
  destruct (p role), (p' role); done.
Qed.

Lemma agree_shows p p' st0 st r : agree p p' → shows p st0 st r → shows p' st0 st r.
Proof. intros Ha. apply Ha. Qed.
Lemma agree_fate p p' st0 st r (P P' : Prop) : agree p p' → (P' ↔ P) → fate P p st0 st r → fate P' p' st0 st r.
Proof. intros Ha HP [Hg Hs]. unfold fate. rewrite HP. split; [exact Hg|]. intros HnP. eapply agree_shows; [exact Ha|]. by apply Hs. Qed.
Lemma fate_unrecorded p st0 st r P : recorded (p r) = false → fate P p st0 st r → ¬ P → actor_of r st = actor_of r st0.
Proof. intros Hp [_ Hs] HP. by apply (shows_unrecorded p), Hs. Qed.
Lemma fate_kept (P : Prop) p st0 st r : ¬ P → shows p st0 st r → fate P p st0 st r.
Proof. by split. Qed.

(** The events of a kind are noted in the phases. *)
Lemma noted (E : Role → Event) (q : Phase → bool) evs e p p' role :
  (∀ r, E r ∈ evs ↔ q (p r) = true) → p' (other role) = p (other role) → e ≠ E (other role) →
  (q (p' role) = true ↔ q (p role) = true ∨ e = E role) → ∀ r, E r ∈ evs ++ [e] ↔ q (p' r) = true.
Proof.
  intros Hevs Ho Hne Hq. apply (role_cases _ role); rewrite elem_of_app, list_elem_of_singleton, Hevs; [naive_solver|]. rewrite Ho. naive_solver.
Qed.

Lemma overlapped_send st0 evs p s p' s' st role sig oid :
  overlapped st0 evs (p, s) st → stands st s' → p role = Fresh → p' role = Pending sig oid → p' (other role) = p (other role) →
  overlapped st0 (evs ++ [Sends role]) (p', s') st.
Proof.
  intros [Hst Hrd Hwr Hr Hh [r0 Hs]] Hst' Ex Ex' Ho. cbn [fst snd] in *.
  assert (Ha : agree p p') by (by apply (agree_unrecorded _ _ role); rewrite ?Ex, ?Ex').
  split; cbn [fst snd]; [done| | | | |].
  - apply (noted _ _ _ _ p _ role); [done..|]. rewrite Ex, Ex'. naive_solver.
  - apply (noted _ _ _ _ p _ role); [done..|]. rewrite Ex, Ex'. naive_solver.
  - intros r. eapply agree_fate; [exact Ha| |apply Hr]. rewrite undone_snoc. naive_solver.
  - apply (role_cases _ role); [by apply held_trivial; rewrite Ex'|]. pose proof (Hh (other role)) as Hq. unfold held in *. rewrite Ho.
    destruct (p (other role)) as [|?|sig2 oid2 next2|?]; try done. destruct Hq as (Hx2 & Hs2 & Ho2). split; [done|]. split; [done|].
    eapply agree_fate; [exact Ha| |exact Ho2]. rewrite passed_snoc. naive_solver.
  - exists r0. rewrite undone_snoc. naive_solver.
Qed.

Lemma overlapped_read st0 evs p s p' s' st role sig oid :
  overlapped st0 evs (p, s) st → stands st s' → p role = Pending sig oid → p' role = Reread sig oid st → p' (other role) = p (other role) →
  overlapped st0 (evs ++ [Reads role]) (p', s') st.
Proof.
  intros [Hst Hrd Hwr Hr Hh [r0 Hs]] Hst' Ex Ex' Ho. cbn [fst snd] in *.
  assert (Ha : agree p p') by (by apply (agree_unrecorded _ _ role); rewrite ?Ex, ?Ex').
  assert (Hnr : Reads role ∉ evs) by (rewrite Hrd, Ex; done).
  assert (Hnw : Writes role ∉ evs) by (rewrite Hwr, Ex; done).
  split; cbn [fst snd]; [done| | | | |].
  - apply (noted _ _ _ _ p _ role); [done|done|by intros [= E]; destruct role|]. rewrite Ex, Ex'. naive_solver.
  - apply (noted _ _ _ _ p _ role); [done..|]. rewrite Ex, Ex'. naive_solver.
  - intros r. eapply agree_fate; [exact Ha| |apply Hr]. rewrite undone_snoc. naive_solver.
  - apply (role_cases _ role).
    + unfold held. rewrite Ex'. split; [apply Hst|]. split.
      * eapply (fate_unrecorded p); [by rewrite Ex|apply Hr|]. by intros (_ & Hw & _)%undone_in.
      * apply fate_kept; [|eapply agree_shows; [exact Ha|]; apply Hr; intros Hu%undone_in; rewrite other_other in Hu; tauto].
        rewrite passed_snoc. intros [Hp%passed_in|[Hp _]]; [|done]. rewrite other_other in Hp. tauto.
    + pose proof (Hh (other role)) as Hq. unfold held in *. rewrite Ho.
      destruct (p (other role)) as [|?|sig2 oid2 next2|?]; try done. destruct Hq as (Hx2 & Hs2 & Ho2). split; [done|]. split; [done|].
      eapply agree_fate; [exact Ha| |exact Ho2]. rewrite passed_snoc. naive_solver.
  - exists r0. rewrite undone_snoc. naive_solver.
Qed.

Lemma overlapped_write st0 evs p s p' s' st role sig oid next at_ :
  overlapped st0 evs (p, s) st → (state_exact next → stands (record_order role sig (toHex oid) at_ next) s') →
  p role = Reread sig oid next → p' role = Recorded sig oid → p' (other role) = p (other role) →
  overlapped st0 (evs ++ [Writes role]) (p', s') (record_order role sig (toHex oid) at_ next).
Proof.
  intros [Hst Hrd Hwr Hr Hh _] Hst' Ex Ex' Ho. cbn [fst snd] in *.
  pose proof (Hh role) as Hn. unfold held in Hn. rewrite Ex in Hn. destruct Hn as (Hx & Hsame & Hother).
  destruct (actor_record role sig (toHex oid) at_ next) as [A1 A2].
  assert (Hnw : Writes role ∉ evs) by (rewrite Hwr, Ex; done).
  assert (Hne : other role ≠ role) by by destruct role.
  assert (Hkept : ¬ undone (evs ++ [Writes role]) role).
  { rewrite undone_snoc. intros [Hu%undone_in|[E _]]; [tauto|]. injection E as E. by destruct role. }
  split; cbn [fst snd]; [by apply Hst'| | | | |by exists role].
  - apply (noted _ _ _ _ p _ role); [done..|]. rewrite Ex, Ex'. naive_solver.
  - apply (noted _ _ _ _ p _ role); [done|done|by intros [= E]; destruct role|]. rewrite Ex, Ex'. naive_solver.
  - apply (role_cases _ role).
    + apply fate_kept; [exact Hkept|]. unfold shows. rewrite Ex'. cbn [role_shows]. by rewrite A1, Hsame.
    + assert (Hu : undone (evs ++ [Writes role]) (other role) ↔ passed evs (other role)).
      { rewrite undone_snoc, other_other. split; [|naive_solver]. intros [Hu%undone_in|[_ Hu]]; [rewrite other_other in Hu; tauto|exact Hu]. }
      unfold fate, shows in *. by rewrite Hu, A2, Ho.
  - apply (role_cases _ role); [by apply held_trivial; rewrite Ex'|].
    pose proof (Hh (other role)) as Hq. pose proof (Hrd (other role)) as Hrd'. unfold held in *. rewrite Ho.
    destruct (p (other role)) as [|?|sig2 oid2 next2|?]; try done. destruct Hq as (Hx2 & Hs2 & Ho2). split; [done|]. split; [done|].
    rewrite other_other in *. split; [intros _|].
    + eapply (fate_unrecorded p); [by rewrite Ex|exact Ho2|]. intros Hp%passed_in. tauto.
    + intros Hn. exfalso. apply Hn. rewrite passed_snoc. right. split; [done|]. by apply Hrd'.
Qed.

Lemma overlapped_step st0 evs e p s p' s' st :
  overlapped st0 evs (p, s) st → submit_step ctx e (p, s) (p', s') → ∃ st', overlapped st0 (evs ++ [e]) (p', s') st'.
Proof.
  intros Hov Hstep. destruct (step_effects _ _ _ _ _ _ Hstep (ov_file _ _ _ _ Hov)) as (role & st' & Heff & Ho).
  exists st'. remember (p role) as x eqn:Ex. remember (p' role) as x' eqn:Ex'. symmetry in Ex, Ex'.
  destruct Heff; [by eapply overlapped_send|by eapply overlapped_read|by eapply overlapped_write].
Qed.

Lemma overlapped_run st0 s evs c : stands st0 s → submit_run ctx (λ _, Fresh, s) evs c → ∃ st, overlapped st0 evs c st.
Proof.
  intros Hst Hrun. induction Hrun as [|evs [p1 s1] e [p2 s2] _ [st IH] Hstep]; [|by eapply overlapped_step].
  exists st0. split; cbn [fst snd]; [done|by intros r; rewrite elem_of_nil..| |done|].
  - intros r. apply fate_kept; [|done]. by intros [Hu%elem_of_nil _]%undone_in.
  - exists Taker. by intros [Hu%elem_of_nil _]%undone_in.
Qed.

(** And when the second reads and the writes do not overlap. *)
Record serialised (st0 : FlowState) (c : Phases * S) (st : FlowState) : Prop := {
  sr_file : stands st c.2;
  sr_one : one_writer c.1;
  sr_roles : ∀ r, shows c.1 st0 st r;
  sr_held : ∀ r, held c.1 st0 (λ next r', actor_of r' next = actor_of r' st) r }.

Lemma one_writer_other p role sig oid next : one_writer p → p role = Reread sig oid next → is_reread (p (other role)) = false.
Proof. unfold one_writer. intros Hw Hp. destruct role; cbn [other] in *; rewrite Hp in Hw; cbn in Hw; [done|by rewrite andb_true_r in Hw]. Qed.

Lemma serialised_step st0 p s p' s' st :
  serialised st0 (p, s) st → serial_step ctx (p, s) (p', s') → ∃ st', serialised st0 (p', s') st'.
Proof.
  intros [Hst Hone Hr Hh] [[e Hstep] Hone']. cbn [fst snd] in *. destruct (step_effects _ _ _ _ _ _ Hstep Hst) as (role & st' & Heff & Ho).
  exists st'. remember (p role) as x eqn:Ex. remember (p' role) as x' eqn:Ex'. symmetry in Ex, Ex'.
  destruct Heff as [sig oid role Hst'|sig oid role Hst'|sig oid next at_ role Hst'].
  - assert (Ha : agree p p') by (by apply (agree_unrecorded _ _ role); rewrite ?Ex, ?Ex').
    split; cbn [fst snd]; [done|done|intros r; by eapply agree_shows|].
    apply (role_cases _ role); [apply held_trivial; by rewrite Ex'|]. pose proof (Hh (other role)) as Hq. unfold held in *. by rewrite Ho.
  - assert (Ha : agree p p') by (by apply (agree_unrecorded _ _ role); rewrite ?Ex, ?Ex').
    split; cbn [fst snd]; [done|done|intros r; by eapply agree_shows|].
    apply (role_cases _ role); [|by apply held_trivial; rewrite Ho; eapply one_writer_other in Ex'; [rewrite Ho in Ex'|]].
    unfold held. rewrite Ex'. split; [apply Hst|]. split; [|done]. apply (shows_unrecorded p); [by rewrite Ex|done].
  - pose proof (Hh role) as Hn. unfold held in Hn. rewrite Ex in Hn. destruct Hn as (Hx & Hsame & Hother).
    destruct (actor_record role sig (toHex oid) at_ next) as [A1 A2].
    split; cbn [fst snd]; [by apply Hst'|done| |].
    + apply (role_cases _ role); unfold shows; [rewrite Ex'; cbn [role_shows]; by rewrite A1, Hsame|]. rewrite Ho, A2, Hother. apply Hr.
    + apply (role_cases _ role); apply held_trivial; [by rewrite Ex'|]. rewrite Ho. by eapply one_writer_other.
Qed.

Lemma serialised_start st0 s : stands st0 s → serialised st0 (λ _, Fresh, s) st0.
Proof. intros Hst. by split. Qed.
End overlap.

(** [C23] Orders submitted at once.  Start from a file that holds a state, and let
    the two submit requests take their steps (send the order, read the file again,
    write it) in any order, each at most once.  After any run the file holds a
    state, and for each role the run's events decide what it shows.  A role whose
    request is not finished is as it was.  One whose request is finished has
    exactly its own order noted, except when the other request had read the file
    before this one wrote it and has written it since: then the order is gone, and
    the role is as at the start.  So the request that wrote last has its order
    noted, and both have when the two are never between their second read and
    their write at the same time. *)
Theorem interleaved_submits_recorded `{NodeCrypto} `{Poseidon} `{Web3} `{Base58} `{Base58Encode} `{Nacl} `{ForeignIx} `{KeyOps} `{Host} {S}
    (server : LiveServer S) file ctx st0 s0 evs p s :
  file_server file server → buildCtx server = Ok ctx →
  state_exact st0 → file ctx.(rx_statePath) s0 = Some (JSON_write (flow_json st0)) →
  submit_run server ctx (λ _, Fresh, s0) evs (p, s) →
  ∃ st, file ctx.(rx_statePath) s = Some (JSON_write (flow_json st)) ∧ readState server ctx.(rx_statePath) s = (Ok st, s) ∧
    (∀ role, Writes role ∈ evs ↔ recorded (p role) = true) ∧
    (∀ role, undone evs role → actor_of role st = actor_of role st0) ∧
    (∀ role, ¬ undone evs role → shows p st0 st role) ∧
    (∀ role, wrote_last evs role → ∃ sig oid, p role = Recorded sig oid ∧ actor_of role st = with_order sig (toHex oid) <$> actor_of role st0) ∧
    (∃ role, shows p st0 st role) ∧
    (rtc (serial_step server ctx) (λ _, Fresh, s0) (p, s) → ∀ role, shows p st0 st role).
Proof.
  intros Hf Hctx Hx Hw Hrun. destruct (buildCtx_nodes server ctx Hctx) as (u & v & El & Ee).
  assert (Hl : keeping_node file ctx.(rx_l1)) by (rewrite El; apply Hf). assert (He : keeping_node file ctx.(rx_er)) by (rewrite Ee; apply Hf).
  destruct (overlapped_run server file Hf ctx Hl He st0 _ _ _ (conj Hx Hw) Hrun) as [st Hov].
  exists st. split; [apply Hov|]. split; [apply (stands_read server file Hf), Hov|]. split; [apply Hov|].
  split; [apply Hov|]. split; [apply Hov|]. split; [|split].
  - intros role Hlast. pose proof (proj2 (ov_roles _ _ _ _ _ _ Hov role) (wrote_last_kept _ _ Hlast)) as Hs.
    pose proof (proj1 (ov_wrote _ _ _ _ _ _ Hov role) (proj1 Hlast)) as Hrec. unfold shows in Hs. cbn [fst] in *. destruct (p role) as [| | |sig oid]; try discriminate Hrec. by exists sig, oid.
  - destruct (ov_some _ _ _ _ _ _ Hov) as [r Hr]. exists r. by apply Hov.
  - intros Hserial.
    assert (Hsr : ∃ st, serialised file ctx st0 (p, s) st).
    { refine (rtc_holds (serial_step server ctx) (λ c, ∃ st, serialised file ctx st0 c st) _ _ _ Hserial _).
      - intros [p1 s1] [p2 s2] [st1 Hst] Hstep. by eapply (serialised_step server file Hf ctx Hl He).
      - exists st0. by apply serialised_start. }
    destruct Hsr as [st' Hsr].
    assert (st' = st) as <-; [|apply Hsr].
    pose proof (stands_read server file Hf ctx _ _ (ov_file _ _ _ _ _ _ Hov)) as E1.
    pose proof (stands_read server file Hf ctx _ _ (sr_file _ _ _ _ _ Hsr)) as E2. cbn [snd] in *. congruence.
Qed.

(** ** A sample flow

    One file, and the log of the confirmed transactions; every account but the
    vault's is delegated, and the account of the results counts the transactions. *)
Module SampleLive.
Import Toy.
#[export] Instance web3 : Web3 := SampleText.hex_web3.
#[export] Instance base58 : Base58 := SampleText.hex_base58.
#[export] Instance base58_laws : @Base58Laws web3 base58 := SampleText.hex_base58_laws.
#[export] Instance base58_encode : Base58Encode := {| bs58_encode := toHex |}.
#[export] Instance nacl : Nacl := SamplePhantom.nacl.
#[export] Instance foreign_ix : ForeignIx := SampleServer.foreign_ix.
#[export] Instance key_ops : KeyOps := SampleCounter.key_ops.

Definition World : Type := option string * list string.
Definition config : Json :=
  let c := SampleServer.config in
  let mint t := JObj [("pubkey", JStr t); ("decimals", JNum 6)] in
  JObj [("l1RpcUrl", JStr c.(cfg_l1RpcUrl)); ("vaultProgramId", JStr c.(cfg_vaultProgramId));
        ("matchingEngineProgramId", JStr c.(cfg_matchingEngineProgramId)); ("pythAccount", JStr c.(cfg_pythAccount));
        ("market", JObj [("pubkey", JStr c.(cfg_market))]); ("baseMint", mint c.(cfg_baseMint)); ("quoteMint", mint c.(cfg_quoteMint))].

Definition key_file (b : byte) : string := JSON_write (to_numbers (SampleHost.secret b)).
#[export] Instance host : Host := {|
  process_env name :=
    if bool_decide (name = "DEMO_TAKER_SECRET_BASE58") then Some (toHex (SampleHost.secret x55))
    else if bool_decide (name = "DEMO_MAKER_SECRET_BASE58") then Some (toHex (SampleHost.secret x54)) else None;
  process_cwd := "/app"; existsSync p := bool_decide (p = "/app/packages/sdk");
  readFileSync p :=
    Ok (if bool_decide (p = "/app/.devnet/e2e-config.json") then JSON_write config
        else if bool_decide (p = "/app/.devnet/keypairs/admin.json") then key_file x51
        else if bool_decide (p = "/app/.devnet/keypairs/tee_authority.json") then key_file x53 else key_file x52);
  homedir := "/home"; path_resolve := String.concat "/"; literal_byte _ := x00; odd_Uint8Array _ := Ok [];
  syntax_message _ := "Unexpected token" |}.

Definition programs : DemoPrograms := SampleServer.programs.
Definition batch_pda : PublicKey := (batchResultsPda programs.(meProgramId) programs.(market)).1.

Definition node : L1Connection World := {|
  l1_getAccountInfo pda w :=
    (Ok (if bool_decide (pda = batch_pda) then Some {| ai_data := [u8_of_Z (Z.of_nat (length w.2))]; ai_owner := zero_key |}
         else if bool_decide (pda = (vaultConfigPda programs.(vaultProgramId)).1)
         then Some {| ai_data := vault_account (replicate 8 x07) x01 SampleChain.cfg; ai_owner := zero_key |}
         else Some {| ai_data := replicate 100 x02; ai_owner := DELEGATION_PROGRAM_ID |}), w);
  l1_send _ _ w := let sig := "sig" +:+ pretty (length w.2) in (Ok sig, (w.1, w.2 ++ [sig]));
  l1_getSlot := mret 5; l1_getBalance _ := mret 100000000;
  l1_history := {| getSignaturesForAddress _ _ _ := mret []; getTransaction _ := mret None |} |}.

Definition server : LiveServer World := {|
  lv_now := mret 2; lv_connection _ := node; lv_randomBytes n := mret (replicate n x00); lv_sleep _ := mret ();
  lv_fetch _ := mret {| pr_status := 200; pr_challenge := Ok (Some "challenge"); pr_token := Ok (Some "0123456789abcdefgh") |};
  lv_readFile _ w := (match w.1 with Some t => Ok t | None => Throw (Error "ENOENT") end, w);
  lv_mkdir _ := mret (); lv_writeFile _ text w := (Ok (), (Some text, w.2)); lv_toISOString n := pretty n |}.
Definition file (_ : string) (w : World) : option string := w.1.

Lemma files : file_server file server.
Proof.
  split.
  - intros path w. by exists (Error "ENOENT").
  - by intros path text w u w' [= <- <-].
  - by intros path w r w' q [= <- <-].
  - by intros w r w' q [= <- <-].
  - by intros n w r w' q [= <- <-].
  - intros url. split; [by intros w r w' q [= <- <-]|]. by intros ixs signers w r w' q [= <- <-].
Qed.

Definition run (action : string) (w : World) : res (Answer FlowAnswer) * World :=
  @POST toy_crypto toy_Poseidon web3 base58 base58_encode nacl foreign_ix key_ops host World server (Ok (Some action)) w.
Definition booted : World := (run "bootstrap" (None, [])).2.
Definition taken : World := (run "submit_taker" booted).2.
Definition made : World := (run "submit_maker" taken).2.

Definition no_ctx : RouteCtx World := {|
  rx_statePath := "/app/.devnet/demo-live-state.json"; rx_l1 := node; rx_er := node; rx_erRpcUrl := "https://devnet.magicblock.app";
  rx_programs := programs; rx_admin := SampleCounter.keypair x51; rx_funder := SampleCounter.keypair x52;
  rx_tee := SampleCounter.keypair x53; rx_taker := SampleCounter.keypair x55; rx_maker := SampleCounter.keypair x54;
  rx_perBaseUrl := "https://tee.magicblock.app" |}.
Definition ctx : RouteCtx World := match buildCtx server with Ok ctx => ctx | Throw _ => no_ctx end.
Definition start : FlowState := stored server booted.1.
Definition is_sent {A} (r : res (Answer A)) : bool := match r with Ok (Sent _) => true | _ => false end.
End SampleLive.

Lemma sample_flow_runs : SampleLive.is_sent (SampleLive.run "bootstrap" (None, [])).1 = true ∧
  SampleLive.is_sent (SampleLive.run "submit_taker" SampleLive.booted).1 = true ∧
  SampleLive.is_sent (SampleLive.run "submit_maker" SampleLive.taken).1 = true ∧
  SampleLive.is_sent (SampleLive.run "run_batch" SampleLive.made).1 = true.
Proof. split_and!; vm_compute; reflexivity. Qed.

(** The answer of a run that sent one. *)
Lemma sample_sent action w w' : (SampleLive.run action w).2 = w' → SampleLive.is_sent (SampleLive.run action w).1 = true →
  ∃ a, @POST Toy.toy_crypto Toy.toy_Poseidon SampleLive.web3 SampleLive.base58 SampleLive.base58_encode SampleLive.nacl SampleLive.foreign_ix
    SampleLive.key_ops SampleLive.host SampleLive.World SampleLive.server (Ok (Some action)) w = (Ok (Sent a), w').
Proof.
  unfold SampleLive.run. generalize (@POST Toy.toy_crypto Toy.toy_Poseidon SampleLive.web3 SampleLive.base58 SampleLive.base58_encode
    SampleLive.nacl SampleLive.foreign_ix SampleLive.key_ops SampleLive.host SampleLive.World SampleLive.server (Ok (Some action)) w).
  intros [[[a|]|] v]; [|done|done]. intros <- _. by exists a.
Qed.

Lemma flow_state_persists_witness : ∃ w', @readState _ SampleLive.server "state" w' =
  (Ok {| fs_updatedAt := "now"; fs_taker := None; fs_maker := None; fs_runBatchSignature := Some "sig"; fs_undelegateSignature := None |}, w').
Proof.
  eexists. eapply (proj1 (@flow_state_persists SampleLive.host _ SampleLive.server SampleLive.file "state" SampleLive.files) _ (None, []));
    [by split|reflexivity].
Defined.

Lemma live_flow_matches_witness : ∃ ctx amount price quote base tNote mNote tp mp tpda mpda final,
  @flow_ran Toy.toy_crypto Toy.toy_Poseidon SampleLive.web3 SampleLive.foreign_ix SampleLive.host SampleLive.World Toy.zero_key ctx amount price quote base
    tNote mNote tp mp tpda mpda final ∧ quote = 5000 ∧ base = 30 ∧ amount = 30 ∧ price = 100.
Proof.
  destruct sample_flow_runs as (R1 & R2 & R3 & R4).
  destruct (sample_sent _ _ SampleLive.booted eq_refl R1) as [b Hb], (sample_sent _ _ SampleLive.taken eq_refl R2) as [t Ht],
    (sample_sent _ _ SampleLive.made eq_refl R3) as [m Hm], (sample_sent _ _ (SampleLive.run "run_batch" SampleLive.made).2 eq_refl R4) as [r Hr].
  destruct (@live_flow_matches Toy.toy_crypto Toy.toy_crypto_laws Toy.toy_Poseidon SampleLive.web3 SampleLive.base58 SampleLive.base58_laws
    SampleLive.base58_encode SampleLive.nacl SampleLive.foreign_ix SampleLive.key_ops SampleLive.host SampleLive.World SampleLive.server SampleLive.file
    Toy.zero_key b (None, []) SampleLive.booted t SampleLive.booted SampleLive.taken m SampleLive.taken SampleLive.made r SampleLive.made _
    SampleLive.files ltac:(unfold distinct_discriminators; apply (bool_decide_unpack _); vm_compute; exact I) Hb Ht (λ _, eq_refl) Hm (λ _, eq_refl)
    Hr (λ _, eq_refl)) as (ctx & amount & price & quote & base & tNote & mNote & tp & mp & tpda & mpda & final & _ & Hran & _).
  exists ctx, amount, price, quote, base, tNote, mNote, tp, mp, tpda, mpda, final. split; [exact Hran|].
  destruct (fr_env _ _ _ _ _ _ _ _ _ _ _ _ _ Hran) as (E1 & E2 & E3 & E4).
  split; [by injection E1|]. split; [by injection E2|]. split; [by injection E3|by injection E4].
Defined.

Lemma sample_logging_live : logging_live (λ w : SampleLive.World, w.2) SampleLive.server.
Proof.
  assert (Hq : ∀ {A} (m : M SampleLive.World A), (∀ w, (m w).2.2 = w.2) → confirms (λ w : SampleLive.World, w.2) [] m (λ _, [])).
  { intros A m Hm w r w' Hr. pose proof (Hm w) as E. rewrite Hr in E. exists []. rewrite app_nil_r. split; [exact E|]. intros. apply sublist_nil_l. }
  split; intros; try (apply Hq; intros w; reflexivity). split; intros; try (apply Hq; intros w; reflexivity).
  intros w r w' [= <- <-]. eexists. split; [reflexivity|]. intros a [= <-]. done.
Qed.

Lemma live_route_reports_witness : ∃ a,
  SampleLive.run "bootstrap" (None, []) = (Ok (Sent a), SampleLive.booted) ∧
  (si_signature <$> a.(fw_signatures)) `sublist_of` SampleLive.booted.2.
Proof.
  destruct (sample_sent "bootstrap" (None, []) SampleLive.booted eq_refl (proj1 sample_flow_runs)) as [a Ha]. exists a.
  unfold SampleLive.run. split; [exact Ha|].
  destruct (@live_route_reports Toy.toy_crypto Toy.toy_Poseidon SampleLive.web3 SampleLive.base58 SampleLive.base58_encode SampleLive.nacl
    SampleLive.foreign_ix SampleLive.key_ops SampleLive.host SampleLive.World (λ w, w.2) SampleLive.server (Ok (Some "bootstrap")) (None, [])
    sample_logging_live) as (ans & s' & mid & Hr & Hl & Hm).
  rewrite Ha in Hr. apply pair_eq in Hr as [E1%Ok_inj ->]. subst ans. rewrite Hl. exact Hm.
Defined.

Lemma sample_ctx : @buildCtx SampleLive.base58 SampleLive.key_ops SampleLive.host SampleLive.World SampleLive.server = Ok SampleLive.ctx.
Proof.
  assert (Hok : is_Ok (@buildCtx SampleLive.base58 SampleLive.key_ops SampleLive.host SampleLive.World SampleLive.server) = true)
    by (vm_compute; reflexivity).
  unfold SampleLive.ctx. by destruct (buildCtx SampleLive.server).
Qed.

(** Two requests that overlap: both send, both read the file again, the taker's
    writes, then the maker's. *)
Definition sample_overlap : list Event := [Sends Maker; Sends Taker; Reads Taker; Reads Maker; Writes Taker; Writes Maker].
Definition sample_start : Phases * SampleLive.World := (λ _, Fresh, SampleLive.booted).

Lemma overlap_loses_order : ∃ p s sig1 sig2 oid1 oid2,
  @submit_run Toy.toy_crypto SampleLive.web3 SampleLive.host SampleLive.World SampleLive.server SampleLive.ctx sample_start sample_overlap (p, s) ∧
  p Taker = Recorded sig1 oid1 ∧ p Maker = Recorded sig2 oid2 ∧
  (stored SampleLive.server s.1).(fs_taker) ≫= fa_orderSignature = None ∧
  (stored SampleLive.server s.1).(fs_maker) ≫= fa_orderSignature = Some sig2.
Proof.
  do 6 eexists. split; [|split; [|split; [|split]]].
  - eapply run_cons; [eapply (step_send _ _ Maker _ _ _ _ []); [reflexivity|vm_compute; reflexivity]|].
    eapply run_cons; [eapply (step_send _ _ Taker _ _ _ _ []); [reflexivity|vm_compute; reflexivity]|].
    eapply run_cons; [eapply (step_read _ _ Taker); [reflexivity|vm_compute; reflexivity]|].
    eapply run_cons; [eapply (step_read _ _ Maker); [reflexivity|vm_compute; reflexivity]|].
    eapply run_cons; [eapply (step_write _ _ Taker); [reflexivity|vm_compute; reflexivity]|].
    eapply run_cons; [eapply (step_write _ _ Maker); [reflexivity|vm_compute; reflexivity]|]. apply run_start.
  - vm_compute; reflexivity.
  - vm_compute; reflexivity.
  - vm_compute; reflexivity.
  - vm_compute; reflexivity.
Qed.
(** The maker's order is sent first and recorded last; both are noted. *)
Lemma sample_serial : ∃ p s sig1 sig2 oid1 oid2,
  rtc (@serial_step Toy.toy_crypto SampleLive.web3 SampleLive.host SampleLive.World SampleLive.server SampleLive.ctx) sample_start (p, s) ∧
  p Taker = Recorded sig1 oid1 ∧ p Maker = Recorded sig2 oid2.
Proof.
  do 6 eexists. split; [|split].
  - eapply rtc_l; [split; [eexists; eapply (step_send _ _ Maker _ _ _ _ []); [reflexivity|vm_compute; reflexivity]|reflexivity]|].
    eapply rtc_l; [split; [eexists; eapply (step_send _ _ Taker _ _ _ _ []); [reflexivity|vm_compute; reflexivity]|reflexivity]|].
    eapply rtc_l; [split; [eexists; eapply (step_read _ _ Taker); [reflexivity|vm_compute; reflexivity]|reflexivity]|].
    eapply rtc_l; [split; [eexists; eapply (step_write _ _ Taker); [reflexivity|vm_compute; reflexivity]|reflexivity]|].
    eapply rtc_l; [split; [eexists; eapply (step_read _ _ Maker); [reflexivity|vm_compute; reflexivity]|reflexivity]|].
    eapply rtc_l; [split; [eexists; eapply (step_write _ _ Maker); [reflexivity|vm_compute; reflexivity]|reflexivity]|]. apply rtc_refl.
  - vm_compute; reflexivity.
  - vm_compute; reflexivity.
Qed.

Lemma sample_fates : undone sample_overlap Taker ∧ wrote_last sample_overlap Maker.
Proof.
  split; [repeat constructor|]. split; [unfold sample_overlap; rewrite !elem_of_cons; tauto|]. unfold sample_overlap. cbn [other].
  intros Hs. by repeat match goal with H : _ `sublist_of` _ |- _ => inv H end.
Qed.

Lemma interleaved_submits_recorded_witness : ∃ s st sig oid,
  SampleLive.file SampleLive.ctx.(rx_statePath) s = Some (JSON_write (flow_json st)) ∧
  st.(fs_taker) = SampleLive.start.(fs_taker) ∧ st.(fs_maker) = with_order sig (toHex oid) <$> SampleLive.start.(fs_maker).
Proof.
  destruct overlap_loses_order as (p & s & _ & _ & _ & _ & Hrun & _).
  assert (Hstart : SampleLive.file SampleLive.ctx.(rx_statePath) SampleLive.booted = Some (JSON_write (flow_json SampleLive.start)) ∧
    state_exact SampleLive.start) by (split; [vm_compute; reflexivity|split; vm_compute; discriminate]).
  destruct (@interleaved_submits_recorded Toy.toy_crypto Toy.toy_Poseidon SampleLive.web3 SampleLive.base58 SampleLive.base58_encode SampleLive.nacl
    SampleLive.foreign_ix SampleLive.key_ops SampleLive.host SampleLive.World SampleLive.server SampleLive.file SampleLive.ctx SampleLive.start
    SampleLive.booted sample_overlap p s SampleLive.files sample_ctx (proj2 Hstart) (proj1 Hstart) Hrun)
    as (st & Hfile & _ & _ & Hundone & _ & Hlast & _).
  destruct (Hlast Maker (proj2 sample_fates)) as (sig & oid & _ & Em). pose proof (Hundone Taker (proj1 sample_fates)) as Et.
  exists s, st, sig, oid. split; [exact Hfile|]. revert Et Em. generalize SampleLive.start. intros start Et Em. split; [exact Et|exact Em].
Defined.

(** A taker's order that is answered while a batch waits is not in the file once
    the batch has written its state. *)
Lemma batch_forgets_order : ∃ st runSig undSig w1 a s2 payload s3 taker,
  @batch_send Toy.toy_crypto SampleLive.web3 SampleLive.base58 SampleLive.World SampleLive.server SampleLive.ctx
    ([], SampleLive.booted) = (Ok (st, runSig, undSig), w1) ∧
  SampleLive.run "submit_taker" w1.2 = (Ok (Sent a), s2) ∧
  @batch_record SampleLive.host _ SampleLive.server SampleLive.ctx st runSig undSig s2 = (Ok payload, s3) ∧
  (stored SampleLive.server s2.1).(fs_taker) ≫= fa_orderSignature = Some taker ∧
  (stored SampleLive.server s3.1).(fs_taker) ≫= fa_orderSignature = None.
Proof.
  do 9 eexists. split; [vm_compute; reflexivity|]. split; [vm_compute; reflexivity|]. split; [vm_compute; reflexivity|].
  split; vm_compute; reflexivity.
Qed.
