(* ===== verification/Identity.v ===== *)
(** A wallet's identity on the demo server: the handlers [derive-identity],
    [register-wallet], [airdrop] and [balances] under
    [apps/demo/src/app/api/dapp/], with the circuit that registration proves
    ([circuits/valid_wallet_create/circuit.circom]).  The theorems say that what
    [derive-identity] hands to the prover satisfies the circuit and is what
    [register-wallet] registers, up to the entry in the vault, and that an airdrop
    mints what [balances] then reads. *)

From Stdlib Require Import HexadecimalN HexadecimalString.
From stdpp Require Import gmap.
From S2P Require Import Prelude Bytes Errors Externals Keys Note Borsh VaultClient VaultProgram Settlement SettleProgram Merkle.
From S2P Require Import MerkleShadow VaultTree Client Deposit VaultState Withdraw Session DecimalText LeafHistory Decimals DemoText.
From S2P Require Import JsonText DemoKeys DemoChain Routes WalletRoutes OrderRoutes ServerKeys LiveFlow.

Local Open Scope Z_scope.

(** ** The circuit *)

(** The constraint of [ValidWalletCreate], on inputs reduced to the field. *)
Definition ValidWalletCreate `{Poseidon} (i : WalletCreateInputs) : bool :=
  let fr x := x mod BN254_R in
  let rootHash := poseidon [fr i.(wc_rootKey).1; fr i.(wc_rootKey).2; fr i.(wc_r0)] in
  let spendHash := poseidon [fr i.(wc_spendingKey); fr i.(wc_r1)] in
  let viewHash := poseidon [fr i.(wc_viewingKey); fr i.(wc_r2)] in
  let leafPair := poseidon [rootHash; spendHash] in
  fr i.(wc_userCommitment) =? poseidon [leafPair; viewHash].

(** ** Requests and answers *)

Record DeriveIdentityRequest := { di_phantomSignatureBase58 : option string; di_ownerPubkeyBase58 : option string }.

(** The inputs of the circuit, as texts. *)
Record WalletCreateTexts := {
  wt_userCommitment : string; wt_rootKey : string * string; wt_spendingKey : string; wt_viewingKey : string;
  wt_r0 : string; wt_r1 : string; wt_r2 : string }.

Record PublicData := { pd_userCommitmentHex : string; pd_ownerCommitmentHex : string }.

Record IdentityAnswer := {
  ia_rootKeyPubkeyBase58 : string; ia_walletCreateInputs : WalletCreateTexts;
  ia_tradingPublicKeyBase58 : string; ia_tradingSecretKeyBase58 : string;
  ia_publicData : PublicData; ia_ownerCommitmentDecimal : string;
  ia_masterSeedFingerprint : string; ia_spendingKeyFingerprint : string; ia_viewingKeyFingerprint : string }.

Record RegisterProof := { rp_piAHex : option string; rp_piBHex : option string; rp_piCHex : option string }.
Record RegisterBody := {
  rb_phantomSignatureBase58 : option string; rb_ownerPubkeyBase58 : option string; rb_proof : option RegisterProof }.
Record RegisterAnswer := {
  ra_alreadyRegistered : bool; ra_walletPdaBase58 : string; ra_instruction : option InstructionJson;
  ra_publicData : PublicData }.

Record AirdropBody := {
  ab_phantomSignatureBase58 : option string; ab_ownerPubkeyBase58 : option string;
  ab_baseAmount : option string; ab_quoteAmount : option string }.
Record AirdropAnswer := {
  aa_signature : string; aa_baseAta : string; aa_quoteAta : string; aa_baseAmount : string; aa_quoteAmount : string }.

Record AtaBalance := { bal_ata : string; bal_exists : bool; bal_amount : string }.
Record BalanceAnswer := { ba_balance : AtaBalance; ba_mintBase58 : string; ba_decimals : option Json }.

(** What a view of 8 bytes at offset 64 reads when the account has fewer than 72:
    bytes of the buffer behind it, or a [RangeError]. *)
Class ShortAccount := { short_amount : bytes → res Z }.

(** [x.toString(16)] *)
Definition toString16 (x : Z) : string :=
  let digits := NilZero.string_of_uint (N.to_hex_uint (Z.to_N (Z.abs x))) in if x <? 0 then "-" +:+ digits else digits.

(** The file's own [bytesToBigInt]. *)
Definition identity_bytesToBigInt (b : bytes) : Z := match b with [] => 0 | _ => be_val b end.

(** The file's own [hexToBytes]. *)
Definition register_hexToBytes (hex : string) : res bytes :=
  let h := strip_0x hex in
  if negb (String.length h mod 2 =? 0)%nat then Throw (Error "invalid hex length") else Ok (fromHex h).

Section identity.
Context `{NodeCrypto} `{Poseidon} `{Web3} `{Base58} `{Base58Encode} `{Nacl} `{ForeignIx} `{KeyOps} `{Host} `{ShortAccount} {S : Type}.
Implicit Types server : DemoServer S.

(** *** The keys of a seed *)

Record WalletKeys := { wk_inputs : UserCommitmentInputs; wk_userCommitmentBE : bytes; wk_ownerCommit : Z }.

Definition wallet_keys (seed : bytes) : res WalletKeys :=
  spendingKey ← deriveSpendingKey seed;
  viewingKey ← deriveMasterViewingKey seed;
  rootKeyRaw ← deriveRootKey seed;
  let rootKeyPubkey := nacl_seed_key rootKeyRaw in
  ownerBlinding ← deriveBlindingFactor seed 0;
  r0 ← deriveBlindingFactor seed 1;
  r1 ← deriveBlindingFactor seed 2;
  r2 ← deriveBlindingFactor seed 3;
  let inputs := {| rootKeyPubkey := rootKeyPubkey; uc_spendingKey := spendingKey; uc_viewingKey := viewingKey;
                   Note.r0 := r0; Note.r1 := r1; Note.r2 := r2 |} in
  userCommitmentBE ← userCommitmentFromKeys inputs;
  Ok {| wk_inputs := inputs; wk_userCommitmentBE := userCommitmentBE;
        wk_ownerCommit := ownerCommitment spendingKey ownerBlinding |}.

Definition public_data (k : WalletKeys) : res PublicData :=
  ownerBytes ← bn254ToBE32 k.(wk_ownerCommit);
  Ok {| pd_userCommitmentHex := toHex k.(wk_userCommitmentBE); pd_ownerCommitmentHex := toHex ownerBytes |}.

(** *** [derive-identity] *)

Definition walletCreateInputs (k : WalletKeys) : res WalletCreateTexts :=
  let u := k.(wk_inputs) in
  '(rootLo, rootHi) ← pubkeyToFrPair u.(rootKeyPubkey);
  Ok {| wt_userCommitment := bigint_string (identity_bytesToBigInt k.(wk_userCommitmentBE));
        wt_rootKey := (bigint_string rootLo, bigint_string rootHi);
        wt_spendingKey := bigint_string u.(uc_spendingKey); wt_viewingKey := bigint_string u.(uc_viewingKey);
        wt_r0 := bigint_string u.(Note.r0); wt_r1 := bigint_string u.(Note.r1); wt_r2 := bigint_string u.(Note.r2) |}.

Definition derived_answer (seed : bytes) : res (Answer IdentityAnswer) :=
  k ← wallet_keys seed;
  tradingSeed ← deriveTradingKeyAtOffset seed 0;
  tradingSecret ← keyPair_fromSeed_secretKey tradingSeed;
  inputs ← walletCreateInputs k;
  public ← public_data k;
  let u := k.(wk_inputs) in
  Ok (Sent {| ia_rootKeyPubkeyBase58 := bs58_encode u.(rootKeyPubkey); ia_walletCreateInputs := inputs;
              ia_tradingPublicKeyBase58 := bs58_encode (nacl_seed_key tradingSeed);
              ia_tradingSecretKeyBase58 := bs58_encode tradingSecret;
              ia_publicData := public; ia_ownerCommitmentDecimal := bigint_string k.(wk_ownerCommit);
              ia_masterSeedFingerprint := toHex (take 6 seed);
              ia_spendingKeyFingerprint := str_take 12 (toString16 u.(uc_spendingKey));
              ia_viewingKeyFingerprint := str_take 12 (toString16 u.(uc_viewingKey)) |}).

(** A body that is no JSON and a signature that does not verify are bad requests;
    there is no [catch] around the rest. *)
Definition derive_identity (req : res DeriveIdentityRequest) : res (Answer IdentityAnswer) :=
  match req with
  | Throw _ => Ok (bad_request "invalid JSON body")
  | Ok body =>
      match present [body.(di_phantomSignatureBase58); body.(di_ownerPubkeyBase58)] with
      | Some [phantomSignature; ownerPubkey] =>
          match verifyPhantomSeedSignature phantomSignature ownerPubkey with
          | Throw err => Ok (bad_request (exn_message err))
          | Ok verified => derived_answer verified.(vf_seed)
          end
      | _ => Ok (bad_request "missing phantomSignatureBase58 or ownerPubkeyBase58")
      end
  end.

(** *** [register-wallet] *)

(** [hexToBytes(x!)] on a field that may be missing. *)
Definition proof_bytes (field : option string) : res bytes :=
  match field with Some hex => register_hexToBytes hex | None => Throw (TypeError "startsWith") end.

Definition read_proof (p : RegisterProof) : res Groth16OnChainProof :=
  piA ← proof_bytes p.(rp_piAHex); piB ← proof_bytes p.(rp_piBHex); piC ← proof_bytes p.(rp_piCHex);
  Ok {| piA := piA; piB := piB; piC := piC |}.

Definition bad_sizes (proof : Groth16OnChainProof) : bool :=
  negb (length proof.(piA) =? 64)%nat || negb (length proof.(piB) =? 128)%nat || negb (length proof.(piC) =? 64)%nat.

(** The entry of the commitment, or the instruction that creates it. *)
Definition register_entry (l1 : L1Connection S) (vault owner : PublicKey) (k : WalletKeys) (proof : Groth16OnChainProof)
    : M S (Answer RegisterAnswer) :=
  walletPda_ ← liftR (walletEntryPda vault k.(wk_userCommitmentBE));
  let walletPda := walletPda_.1 in
  existing ← l1.(l1_getAccountInfo) walletPda;
  match existing with
  | Some _ =>
      public ← liftR (public_data k);
      mret (Sent {| ra_alreadyRegistered := true; ra_walletPdaBase58 := toBase58 walletPda; ra_instruction := None;
                    ra_publicData := public |})
  | None =>
      ix ← liftR (buildCreateWalletInstruction
             {| cw_programId := vault; cw_owner := owner; cw_commitment := k.(wk_userCommitmentBE); cw_proof := proof |});
      public ← liftR (public_data k);
      mret (Sent {| ra_alreadyRegistered := false; ra_walletPdaBase58 := toBase58 walletPda;
                    ra_instruction := Some (instructionToJson ix); ra_publicData := public |})
  end.

Definition register_wallet server (req : res RegisterBody) : M S (Answer RegisterAnswer) :=
  route (
    body ← liftR req;
    match present [body.(rb_phantomSignatureBase58); body.(rb_ownerPubkeyBase58); body.(rb_proof) ≫= rp_piAHex], body.(rb_proof) with
    | Some [phantomSignature; ownerPubkey; _], Some texts =>
        verified ← liftR (verifyPhantomSeedSignature phantomSignature ownerPubkey);
        k ← liftR (wallet_keys verified.(vf_seed));
        proof ← liftR (read_proof texts);
        if bad_sizes proof then
          mret (bad_request ("bad proof sizes: piA " +:+ pretty (length proof.(piA)) +:+ " piB " +:+ pretty (length proof.(piB))
                             +:+ " piC " +:+ pretty (length proof.(piC))))
        else
          '(connections, programs) ← demo_setup server;
          owner ← liftR (newPublicKey (Some ownerPubkey));
          register_entry connections.(dc_l1) programs.(vaultProgramId) owner k proof
    | _, _ => mret (bad_request "missing phantomSignatureBase58, ownerPubkeyBase58, or proof")
    end).

(** *** [airdrop] *)

(** [BigInt(body.x ?? process.env.Y ?? "1000000000")] *)
Definition airdrop_amount (field : option string) (name : string) : res Z :=
  BigInt (match field with Some text => text | None => env_or name "1000000000" end).

Definition airdrop_ixs (programs : DemoPrograms) (admin : Keypair) (owner baseAta quoteAta : PublicKey) (baseAmt quoteAmt : Z)
    : list TransactionInstruction :=
  [createAssociatedTokenAccountIdempotent admin.(kp_publicKey) baseAta owner programs.(baseMint);
   createAssociatedTokenAccountIdempotent admin.(kp_publicKey) quoteAta owner programs.(quoteMint);
   createMintTo programs.(baseMint) baseAta admin.(kp_publicKey) (Number_of baseAmt);
   createMintTo programs.(quoteMint) quoteAta admin.(kp_publicKey) (Number_of quoteAmt)].

Definition airdrop server (req : res AirdropBody) : M S (Answer AirdropAnswer) :=
  route (
    body ← liftR req;
    match present [body.(ab_phantomSignatureBase58); body.(ab_ownerPubkeyBase58)] with
    | Some [phantomSignature; ownerPubkey] =>
        _ ← liftR (verifyPhantomSeedSignature phantomSignature ownerPubkey);
        baseAmt ← liftR (airdrop_amount body.(ab_baseAmount) "DEMO_USER_AIRDROP_BASE");
        quoteAmt ← liftR (airdrop_amount body.(ab_quoteAmount) "DEMO_USER_AIRDROP_QUOTE");
        repoRoot ← liftR resolveRepoRoot;
        '(connections, programs) ← demo_setup server;
        admin ← liftR (loadDemoAdminKeypair repoRoot);
        owner ← liftR (newPublicKey (Some ownerPubkey));
        baseAta ← liftR (getAssociatedTokenAddress programs.(baseMint) owner);
        quoteAta ← liftR (getAssociatedTokenAddress programs.(quoteMint) owner);
        sig ← connections.(dc_l1).(l1_send) (airdrop_ixs programs admin owner baseAta quoteAta baseAmt quoteAmt) [admin];
        mret (Sent {| aa_signature := sig; aa_baseAta := toBase58 baseAta; aa_quoteAta := toBase58 quoteAta;
                      aa_baseAmount := bigint_string baseAmt; aa_quoteAmount := bigint_string quoteAmt |})
    | _ => mret (bad_request "missing session fields")
    end).

(** *** [balances] *)

(** The [u64] at offset 64 of a token account. *)
Definition token_amount (data : bytes) : res Z :=
  if (72 <=? length data)%nat then Ok (le_val (slice data 64 8)) else short_amount data.

Definition readAtaBalance (conn : L1Connection S) (mint owner : PublicKey) : M S AtaBalance :=
  ata ← liftR (getAssociatedTokenAddress mint owner);
  info ← conn.(l1_getAccountInfo) ata;
  match info with
  | None => mret {| bal_ata := toBase58 ata; bal_exists := false; bal_amount := "0" |}
  | Some info =>
      amount ← liftR (token_amount info.(ai_data));
      mret {| bal_ata := toBase58 ata; bal_exists := true; bal_amount := bigint_string amount |}
  end.

(** [Promise.all] of the two reads, which do not depend on each other. *)
Definition balances server (req : res (option string)) : M S (Answer (BalanceAnswer * BalanceAnswer)) :=
  route (
    body ← liftR req;
    match truthy body with
    | Some ownerPubkey =>
        owner ← liftR (newPublicKey (Some ownerPubkey));
        repoRoot ← liftR resolveRepoRoot;
        cfg ← liftR (loadDemoE2eConfig repoRoot);
        '(connections, programs) ← demo_setup server;
        base ← readAtaBalance connections.(dc_l1) programs.(baseMint) owner;
        quote ← readAtaBalance connections.(dc_l1) programs.(quoteMint) owner;
        mret (Sent ({| ba_balance := base; ba_mintBase58 := toBase58 programs.(baseMint);
                       ba_decimals := jfield "baseMint" cfg ≫= jfield "decimals" |},
                    {| ba_balance := quote; ba_mintBase58 := toBase58 programs.(quoteMint);
                       ba_decimals := jfield "quoteMint" cfg ≫= jfield "decimals" |}))
    | None => mret (bad_request "missing ownerPubkeyBase58")
    end).
End identity.

(** ** Lemmas *)

(** [nacl.sign.keyPair.fromSeed] on a 32-byte seed: a 32-byte public key, no
    error. *)
Class SeedKeyLaws `{Nacl} `{KeyOps} : Prop := {
  length_seed_key : ∀ s, length s = 32%nat → length (nacl_seed_key s) = 32%nat;
  seed_secret_Ok : ∀ s, length s = 32%nat → is_Ok (keyPair_fromSeed_secretKey s) = true;
}.

(** The prover's reading of the texts. *)
Definition read_create (t : WalletCreateTexts) : option WalletCreateInputs :=
  c ← StringToBigInt t.(wt_userCommitment); lo ← StringToBigInt t.(wt_rootKey).1; hi ← StringToBigInt t.(wt_rootKey).2;
  s ← StringToBigInt t.(wt_spendingKey); v ← StringToBigInt t.(wt_viewingKey); r0 ← StringToBigInt t.(wt_r0);
  r1 ← StringToBigInt t.(wt_r1); r2 ← StringToBigInt t.(wt_r2);
  Some {| wc_userCommitment := c; wc_rootKey := (lo, hi); wc_spendingKey := s; wc_viewingKey := v; wc_r0 := r0; wc_r1 := r1;
          wc_r2 := r2 |}.

(** The inputs of the circuit for these keys. *)
Definition create_inputs `{Poseidon} (u : UserCommitmentInputs) : WalletCreateInputs :=
  {| wc_userCommitment := poseidon (uc_top u);
     wc_rootKey := (be_val (drop 16 u.(rootKeyPubkey)), be_val (take 16 u.(rootKeyPubkey)));
     wc_spendingKey := u.(uc_spendingKey); wc_viewingKey := u.(uc_viewingKey); wc_r0 := u.(Note.r0); wc_r1 := u.(Note.r1);
     wc_r2 := u.(Note.r2) |}.

Record keys_wf (u : UserCommitmentInputs) : Prop := {
  kw_root : length u.(rootKeyPubkey) = 32%nat;
  kw_scalars : Forall (λ x, 0 <= x < BN254_R) [u.(uc_spendingKey); u.(uc_viewingKey); u.(Note.r0); u.(Note.r1); u.(Note.r2)];
}.

Lemma half_in_field (bs : bytes) : length bs = 16%nat → 0 <= be_val bs < BN254_R.
Proof.
  intros Hl. pose proof (be_val_range bs) as Hr. rewrite Hl in Hr. split; [lia|].
  eapply Z.lt_trans; [apply Hr|]. reflexivity.
Qed.

Lemma read_hex_bytes bs : register_hexToBytes (toHex bs) = Ok bs.
Proof.
  unfold register_hexToBytes. rewrite strip_0x_toHex, fromHex_toHex.
  assert (E : (String.length (toHex bs) mod 2 = 0)%nat).
  { induction bs as [|b bs IH]; [done|]. cbn [toHex String.length].
    replace (S (S (String.length (toHex bs)))) with (String.length (toHex bs) + 1 * 2)%nat by lia. by rewrite Nat.Div0.mod_add. }
  by rewrite E.
Qed.

Section keys.
Context `{NodeCrypto} `{!NodeCryptoLaws} `{Poseidon} `{!PoseidonLaws} `{Nacl} `{KeyOps} `{!SeedKeyLaws}.

Lemma wallet_keys_total seed :
  ∃ k, wallet_keys seed = Ok k ∧ keys_wf k.(wk_inputs) ∧ k.(wk_userCommitmentBE) = be_bytes 32 (poseidon (uc_top k.(wk_inputs))) ∧
    ∃ sk ob, deriveSpendingKey seed = Ok sk ∧ deriveBlindingFactor seed 0 = Ok ob ∧ k.(wk_ownerCommit) = ownerCommitment sk ob.
Proof.
  destruct (deriveSpendingKey_total seed) as (sk & Hsk & Rsk), (deriveMasterViewingKey_total seed) as (vk & Hvk & Rvk),
    (deriveRootKey_total seed) as (rk & Hrk & Lrk), (deriveBlindingFactor_total seed 0) as (ob & Hob & Rob),
    (deriveBlindingFactor_total seed 1) as (b0 & Hb0 & R0), (deriveBlindingFactor_total seed 2) as (b1 & Hb1 & R1),
    (deriveBlindingFactor_total seed 3) as (b2 & Hb2 & R2).
  pose proof (length_seed_key rk Lrk) as Lk.
  set (u := {| rootKeyPubkey := nacl_seed_key rk; uc_spendingKey := sk; uc_viewingKey := vk; Note.r0 := b0; Note.r1 := b1;
               Note.r2 := b2 |}).
  exists {| wk_inputs := u; wk_userCommitmentBE := be_bytes 32 (poseidon (uc_top u)); wk_ownerCommit := ownerCommitment sk ob |}.
  split; [|split; [|split; [reflexivity|eauto]]].
  - unfold wallet_keys. rewrite Hsk, Hvk, Hrk, Hob, Hb0, Hb1, Hb2. cbn [mbind res_bind].
    change (userCommitmentFromKeys _) with (userCommitmentFromKeys u). by rewrite userCommitment_spec by exact Lk.
  - split; [exact Lk|]. cbn [uc_spendingKey uc_viewingKey Note.r0 Note.r1 Note.r2 wk_inputs]. unfold u. cbn [uc_spendingKey uc_viewingKey Note.r0 Note.r1 Note.r2].
    do 5 (apply Forall_cons_2; [assumption|]). apply Forall_nil_2.
Qed.

Lemma create_inputs_valid u : keys_wf u → ValidWalletCreate (create_inputs u) = true.
Proof.
  intros [Hl Hs]. do 5 (apply Forall_cons in Hs as [? Hs]). unfold ValidWalletCreate, create_inputs.
  cbn [wc_userCommitment wc_rootKey wc_spendingKey wc_viewingKey wc_r0 wc_r1 wc_r2 fst snd].
  rewrite !Z.mod_small by first [assumption | apply poseidon_range | apply half_in_field; autorewrite with nyx_len; lia
    | apply half_in_field; rewrite ?length_drop, ?length_take; lia].
  apply Z.eqb_refl.
Qed.

Lemma create_texts_read k texts :
  keys_wf k.(wk_inputs) → k.(wk_userCommitmentBE) = be_bytes 32 (poseidon (uc_top k.(wk_inputs))) →
  walletCreateInputs k = Ok texts → read_create texts = Some (create_inputs k.(wk_inputs)).
Proof.
  intros [Hl Hs] Hc. do 5 (apply Forall_cons in Hs as [? Hs]). unfold walletCreateInputs. rewrite pubkeyToFrPair_32 by done.
  cbn [mbind res_bind]. intros <-%Ok_inj. unfold read_create.
  cbn [wt_userCommitment wt_rootKey wt_spendingKey wt_viewingKey wt_r0 wt_r1 wt_r2 fst snd].
  assert (E : identity_bytesToBigInt k.(wk_userCommitmentBE) = poseidon (uc_top k.(wk_inputs))).
  { rewrite Hc. pose proof (length_be_bytes 32 (poseidon (uc_top k.(wk_inputs)))) as L.
    pose proof (be_val_field_bytes (poseidon (uc_top k.(wk_inputs))) (poseidon_range _)) as V.
    destruct (be_bytes 32 _) as [|b t] eqn:Eb; [discriminate L|]. exact V. }
  rewrite E, !read_text by first [lia | apply be_val_range | apply poseidon_range]. reflexivity.
Qed.

Lemma derived_answer_runs `{Base58Encode} seed : ∃ k ans,
  wallet_keys seed = Ok k ∧ keys_wf k.(wk_inputs) ∧ k.(wk_userCommitmentBE) = be_bytes 32 (poseidon (uc_top k.(wk_inputs))) ∧
  derived_answer seed = Ok (Sent ans) ∧ public_data k = Ok ans.(ia_publicData) ∧
  read_create ans.(ia_walletCreateInputs) = Some (create_inputs k.(wk_inputs)) ∧
  (∃ sk ob, deriveSpendingKey seed = Ok sk ∧ deriveBlindingFactor seed 0 = Ok ob ∧ k.(wk_ownerCommit) = ownerCommitment sk ob).
Proof.
  destruct (wallet_keys_total seed) as (k & Hk & Hwf & Hc & sk & ob & Hsk & Hob & Ho).
  destruct (deriveTradingKey_total seed 0) as (ts & Hts & Lts).
  destruct (keyPair_fromSeed_secretKey ts) as [secret|e] eqn:Hsec; [|by pose proof (seed_secret_Ok ts Lts) as E; rewrite Hsec in E].
  destruct (walletCreateInputs k) as [texts|e] eqn:Ht.
  2: { unfold walletCreateInputs in Ht. rewrite pubkeyToFrPair_32 in Ht by apply Hwf. discriminate Ht. }
  assert (Hp : public_data k = Ok {| pd_userCommitmentHex := toHex k.(wk_userCommitmentBE);
      pd_ownerCommitmentHex := toHex (be_bytes 32 k.(wk_ownerCommit)) |}).
  { unfold public_data. rewrite Ho. unfold ownerCommitment. rewrite bn254ToBE32_in by apply poseidon_range. reflexivity. }
  eexists k, _. split; [exact Hk|]. split; [exact Hwf|]. split; [exact Hc|]. split.
  { unfold derived_answer. rewrite Hk, Hts. cbn [mbind res_bind]. rewrite Hsec, Ht, Hp. cbn [mbind res_bind]. reflexivity. }
  cbn [ia_publicData ia_walletCreateInputs]. split; [exact Hp|]. split; [by apply create_texts_read|]. eauto.
Qed.
End keys.

(** The vault's entry for an accepted registration. *)
Lemma create_wallet_registers `{NodeCrypto} `{Poseidon} verify_wallet owner slot c pf st :
  verify_wallet pf [c] = true → st.(vs_wallets) !! c = None →
  ∃ st', create_wallet verify_wallet owner slot c pf st = Ok st' ∧
    st'.(vs_wallets) !! c = Some {| we_owner := owner; we_created_slot := slot |}.
Proof.
  intros Hv Hn. unfold create_wallet, init. rewrite Hn. cbn [mbind res_bind]. rewrite Hv. cbn [negb throw_if mbind res_bind].
  eexists. split; [reflexivity|]. cbn [vs_wallets]. apply lookup_insert_eq.
Qed.

Lemma present_2 a b : a ≠ "" → b ≠ "" → present [Some a; Some b] = Some [a; b].
Proof. intros Ha Hb. unfold present. destruct a; [done|]. destruct b; [done|]. reflexivity. Qed.

Lemma bad_sizes_sized pf : proof_sized pf → bad_sizes pf = false.
Proof. intros (L1 & L2 & L3). unfold bad_sizes. by rewrite L1, L2, L3. Qed.

(** The texts of a proof. *)
Definition proof_texts (pf : Groth16OnChainProof) : RegisterProof :=
  {| rp_piAHex := Some (toHex pf.(piA)); rp_piBHex := Some (toHex pf.(piB)); rp_piCHex := Some (toHex pf.(piC)) |}.

Lemma read_proof_texts pf : read_proof (proof_texts pf) = Ok pf.
Proof. unfold read_proof, proof_bytes, proof_texts. cbn [rp_piAHex rp_piBHex rp_piCHex]. rewrite !read_hex_bytes. by destruct pf. Qed.

Lemma toHex_ne bs : bs ≠ [] → toHex bs ≠ "".
Proof. by destruct bs. Qed.

Lemma present_3 a b c : a ≠ "" → b ≠ "" → c ≠ "" → present [Some a; Some b; Some c] = Some [a; b; c].
Proof. intros Ha Hb Hc. unfold present. destruct a; [done|]. destruct b; [done|]. destruct c; [done|]. reflexivity. Qed.

(** What [register_wallet] answers, given what the node said of the entry. *)
Definition registered `{NodeCrypto} `{Poseidon} `{Web3} `{Base58} (vault owner : PublicKey) (c : bytes) (pf : Groth16OnChainProof)
    (public : PublicData) (existing : option AccountInfo) (reg : RegisterAnswer) : Prop :=
  reg.(ra_publicData) = public ∧ reg.(ra_walletPdaBase58) = toBase58 (findProgramAddressSync [WALLET_SEED; c] vault).1 ∧
  match existing with
  | Some _ => reg.(ra_alreadyRegistered) = true ∧ reg.(ra_instruction) = None
  | None =>
      reg.(ra_alreadyRegistered) = false ∧
      ∃ ix, reg.(ra_instruction) = Some (instructionToJson ix) ∧ accepted_as vault ix (VCreateWallet c (onchain_proof pf)) ∧
        ∀ verify_wallet slot st, verify_wallet (onchain_proof pf) [c] = true → st.(vs_wallets) !! c = None →
          ∃ st', create_wallet verify_wallet (toBytes owner) slot c (onchain_proof pf) st = Ok st' ∧
            st'.(vs_wallets) !! c = Some {| we_owner := toBytes owner; we_created_slot := slot |}
  end.

Section register.
Context `{NodeCrypto} `{!NodeCryptoLaws} `{Poseidon} `{Web3} `{Base58} `{Nacl} `{ForeignIx} {S : Type}.
Hypothesis Hdist : distinct_discriminators (fst <$> vault_table).

Lemma register_entry_runs (l1 : L1Connection S) vault owner k pf public existing w w' :
  length k.(wk_userCommitmentBE) = 32%nat → public_data k = Ok public → proof_sized pf →
  l1.(l1_getAccountInfo) (findProgramAddressSync [WALLET_SEED; k.(wk_userCommitmentBE)] vault).1 w = (Ok existing, w') →
  ∃ reg, register_entry l1 vault owner k pf w = (Ok (Sent reg), w') ∧
    registered vault owner k.(wk_userCommitmentBE) pf public existing reg.
Proof.
  intros Hcl Hpub Hpf Hinfo. set (c := k.(wk_userCommitmentBE)) in *.
  assert (Hpda : walletEntryPda vault c = Ok (findProgramAddressSync [WALLET_SEED; c] vault)).
  { unfold walletEntryPda, fixed32. by rewrite fixed_Ok by exact Hcl. }
  unfold register_entry. fold c. rewrite (M_bind_lift _ _ _ _ Hpda). cbv beta zeta. rewrite (M_bind_run _ _ _ _ _ Hinfo).
  destruct existing as [info|]; cbv beta iota.
  - rewrite (M_bind_lift _ _ _ _ Hpub). by eexists.
  - set (p := {| cw_programId := vault; cw_owner := owner; cw_commitment := c; cw_proof := pf |}).
    destruct (buildCreateWalletInstruction p) as [ix|e] eqn:Hix.
    2: { pose proof (build_vault_total (CCreateWallet p) (conj Hcl Hpf)) as T. cbn [build_vault] in T. by rewrite Hix in T. }
    rewrite (M_bind_lift _ _ _ _ eq_refl), (M_bind_lift _ _ _ _ Hpub). eexists. split; [reflexivity|].
    do 3 (split; [reflexivity|]). exists ix. split; [reflexivity|].
    split; [exact (build_vault_accepted Hdist (CCreateWallet p) ix Hix I)|]. intros. by apply create_wallet_registers.
Qed.

Lemma register_runs (server : DemoServer S) sig own v k pf connections programs owner w w1 reg w2 :
  sig ≠ "" → own ≠ "" → verifyPhantomSeedSignature sig own = Ok v → wallet_keys v.(vf_seed) = Ok k → proof_sized pf →
  demo_setup server w = (Ok (connections, programs), w1) → newPublicKey (Some own) = Ok owner →
  register_entry connections.(dc_l1) programs.(vaultProgramId) owner k pf w1 = (Ok (Sent reg), w2) →
  register_wallet server (Ok {| rb_phantomSignatureBase58 := Some sig; rb_ownerPubkeyBase58 := Some own;
                                rb_proof := Some (proof_texts pf) |}) w = (Ok (Sent reg), w2).
Proof.
  intros Hs Ho Hv Hk Hpf Hset Hown Hreg. apply route_Ok. rewrite (M_bind_lift _ _ _ _ eq_refl).
  cbn [rb_phantomSignatureBase58 rb_ownerPubkeyBase58 rb_proof mbind option_bind]. unfold proof_texts at 1. cbn [rp_piAHex].
  assert (Hne : toHex pf.(piA) ≠ "") by (apply toHex_ne; intros E; destruct Hpf as [L _]; rewrite E in L; discriminate L).
  rewrite (present_3 _ _ _ Hs Ho Hne). cbv iota.
  rewrite (M_bind_lift _ _ _ _ Hv), (M_bind_lift _ _ _ _ Hk), (M_bind_lift _ _ _ _ (read_proof_texts pf)).
  rewrite (bad_sizes_sized pf Hpf), (M_bind_run _ _ _ _ _ Hset). cbv beta iota. by rewrite (M_bind_lift _ _ _ _ Hown).
Qed.

(** Deposits prepared under a signature carry the owner commitment of its seed. *)
Lemma prepare_deposit_owner (server : DemoServer S) sig own v body d w w' :
  sig ≠ "" → own ≠ "" → body.(db_phantomSignatureBase58) = Some sig → body.(db_ownerPubkeyBase58) = Some own →
  verifyPhantomSeedSignature sig own = Ok v → prepare_deposit server (Ok body) w = (Ok (Sent d), w') →
  ∃ sk ob, deriveSpendingKey v.(vf_seed) = Ok sk ∧ deriveBlindingFactor v.(vf_seed) 0 = Ok ob ∧
    bn254ToBE32 (ownerCommitment sk ob) = Ok d.(prd_ownerBytes).
Proof.
  intros Hs Ho Hbs Hbo Hv Hr. unfold prepare_deposit in Hr. rewrite (M_bind_lift _ _ _ _ eq_refl) in Hr.
  destruct (present _) as [[|sig' [|own' [|side [|text [|? ?]]]]]|] eqn:Hp; try discriminate Hr.
  apply present_4 in Hp as (P1 & P2 & _ & _). rewrite Hbs in P1. rewrite Hbo in P2.
  assert (sig' = sig) as -> by (destruct sig; [done|by injection P1]).
  assert (own' = own) as -> by (destruct own; [done|by injection P2]).
  rewrite (M_bind_lift _ _ _ _ Hv) in Hr. apply M_bind_Ok in Hr as (amount & w1 & _ & Hr).
  destruct (amount <=? 0); [discriminate Hr|]. apply M_bind_Ok in Hr as (nonce & w2 & _ & Hr).
  apply M_bind_Ok in Hr as ([cs ps] & w3 & _ & Hr). apply M_bind_Ok in Hr as (sk & w4 & [Hsk ->]%liftR_inv & Hr).
  apply M_bind_Ok in Hr as (ob & w4 & [Hob ->]%liftR_inv & Hr). exists sk, ob. split; [exact Hsk|]. split; [exact Hob|].
  inv_steps. unfold mret, M_ret in Hr. injection Hr as <- <-. assumption.
Qed.
End register.

(** The run of the two handlers for one wallet. *)
Lemma identity_runs `{NodeCrypto} `{!NodeCryptoLaws} `{Poseidon} `{!PoseidonLaws} `{Web3} `{Base58} `{Base58Encode}
    `{Nacl} `{ForeignIx} `{KeyOps} `{!SeedKeyLaws} {S} (server : DemoServer S) sig own v pf connections programs owner w w1 :
  distinct_discriminators (fst <$> vault_table) → sig ≠ "" → own ≠ "" → verifyPhantomSeedSignature sig own = Ok v →
  proof_sized pf → demo_setup server w = (Ok (connections, programs), w1) → newPublicKey (Some own) = Ok owner →
  ∃ ans i c, derive_identity (Ok {| di_phantomSignatureBase58 := Some sig; di_ownerPubkeyBase58 := Some own |}) = Ok (Sent ans) ∧
    read_create ans.(ia_walletCreateInputs) = Some i ∧ ValidWalletCreate i = true ∧
    bn254ToBE32 i.(wc_userCommitment) = Ok c ∧ ans.(ia_publicData).(pd_userCommitmentHex) = toHex c ∧
    (∀ existing w2, connections.(dc_l1).(l1_getAccountInfo) (findProgramAddressSync [WALLET_SEED; c] programs.(vaultProgramId)).1 w1
        = (Ok existing, w2) →
     ∃ reg, register_wallet server (Ok {| rb_phantomSignatureBase58 := Some sig; rb_ownerPubkeyBase58 := Some own;
                                          rb_proof := Some (proof_texts pf) |}) w = (Ok (Sent reg), w2) ∧
       registered programs.(vaultProgramId) owner c pf ans.(ia_publicData) existing reg) ∧
    (∀ (server' : DemoServer S) body d w2 w3, body.(db_phantomSignatureBase58) = Some sig → body.(db_ownerPubkeyBase58) = Some own →
       prepare_deposit server' (Ok body) w2 = (Ok (Sent d), w3) →
       ans.(ia_publicData).(pd_ownerCommitmentHex) = toHex d.(prd_ownerBytes)).
Proof.
  intros Hd Hs Ho Hv Hpf Hset Hown.
  destruct (derived_answer_runs v.(vf_seed)) as (k & ans & Hk & Hwf & Hc & Hans & Hpub & Hread & sk & ob & Hsk & Hob & Hcom).
  set (c := k.(wk_userCommitmentBE)) in *. assert (Hcl : length c = 32%nat) by (rewrite Hc; apply length_be_bytes).
  pose proof Hpub as Hparts. unfold public_data in Hparts. rewrite Hcom in Hparts.
  apply res_bind_Ok in Hparts as (ob32 & Hob32 & Hparts). apply Ok_inj in Hparts.
  exists ans, (create_inputs k.(wk_inputs)), c.
  split; [unfold derive_identity; cbn [di_phantomSignatureBase58 di_ownerPubkeyBase58]; by rewrite present_2, Hv by done|].
  split; [exact Hread|]. split; [by apply create_inputs_valid|].
  split; [cbn [create_inputs wc_userCommitment]; rewrite Hc; apply bn254ToBE32_in, poseidon_range|].
  split; [by rewrite <-Hparts|]. split.
  - intros existing w2 Hinfo. destruct (register_entry_runs Hd _ _ owner _ _ _ _ _ _ Hcl Hpub Hpf Hinfo) as (reg & Hrun & Hreg).
    exists reg. split; [|exact Hreg]. exact (register_runs _ _ _ _ _ _ _ _ _ _ _ _ _ Hs Ho Hv Hk Hpf Hset Hown Hrun).
  - intros server' body d w2 w3 Hbs Hbo Hrun.
    destruct (prepare_deposit_owner _ _ _ _ _ _ _ _ Hs Ho Hbs Hbo Hv Hrun) as (sk' & ob' & Hsk' & Hob' & Hown').
    rewrite Hsk in Hsk'. rewrite Hob in Hob'. apply Ok_inj in Hsk' as <-, Hob' as <-. rewrite Hob32 in Hown'.
    apply Ok_inj in Hown' as <-. by rewrite <-Hparts.
Qed.


(** ** Properties *)

(** An identity the server derives is one the vault registers.  For a
    signature that verifies, [derive_identity] answers, and the texts it hands to
    the prover read back as inputs that satisfy the circuit [ValidWalletCreate];
    their public signal is the user commitment the answer shows.  For the same
    signature and any proof of the right sizes, [register_wallet] answers with
    the same public data and the address of that commitment's entry: without an
    instruction when the entry exists, and otherwise with one the vault reads as
    the registration of this commitment, which enters the wallet under the
    owner's key when the program's verifier accepts the proof for the public
    signal.  The owner commitment shown is the one of every deposit prepared under
    that signature. *)
Theorem identity_registers `{NodeCrypto} `{!NodeCryptoLaws} `{Poseidon} `{!PoseidonLaws} `{Web3} `{Base58} `{Base58Encode}
    `{Nacl} `{ForeignIx} `{KeyOps} `{!SeedKeyLaws} {S} (server : DemoServer S) sig own v pf connections programs owner w w1 :
  distinct_discriminators (fst <$> vault_table) → sig ≠ "" → own ≠ "" → verifyPhantomSeedSignature sig own = Ok v →
  proof_sized pf → demo_setup server w = (Ok (connections, programs), w1) → newPublicKey (Some own) = Ok owner →
  ∃ ans i c, derive_identity (Ok {| di_phantomSignatureBase58 := Some sig; di_ownerPubkeyBase58 := Some own |}) = Ok (Sent ans) ∧
    read_create ans.(ia_walletCreateInputs) = Some i ∧ ValidWalletCreate i = true ∧
    bn254ToBE32 i.(wc_userCommitment) = Ok c ∧ ans.(ia_publicData).(pd_userCommitmentHex) = toHex c ∧
    (∀ existing w2, connections.(dc_l1).(l1_getAccountInfo) (findProgramAddressSync [WALLET_SEED; c] programs.(vaultProgramId)).1 w1
        = (Ok existing, w2) →
     ∃ reg, register_wallet server (Ok {| rb_phantomSignatureBase58 := Some sig; rb_ownerPubkeyBase58 := Some own;
                                          rb_proof := Some (proof_texts pf) |}) w = (Ok (Sent reg), w2) ∧
       registered programs.(vaultProgramId) owner c pf ans.(ia_publicData) existing reg) ∧
    (∀ (server' : DemoServer S) body d w2 w3, body.(db_phantomSignatureBase58) = Some sig → body.(db_ownerPubkeyBase58) = Some own →
       prepare_deposit server' (Ok body) w2 = (Ok (Sent d), w3) →
       ans.(ia_publicData).(pd_ownerCommitmentHex) = toHex d.(prd_ownerBytes)).
Proof. apply identity_runs. Qed.

(** A server whose node knows no account, and a proof of zeros. *)
Module SampleIdentity.
Import Toy.
#[export] Instance encode : Base58Encode := {| bs58_encode := toHex |}.
#[export] Instance seed_laws : @SeedKeyLaws SampleServer.nacl SampleCounter.key_ops.
Proof. split; [intros s Hs; exact Hs|reflexivity]. Defined.
Definition l1 : L1Connection () := {|
  l1_getAccountInfo _ := mret None; l1_send _ _ := mret "sig"; l1_getSlot := mret 5; l1_getBalance _ := mret 0;
  l1_history := SampleLedger.node |}.
Definition server : DemoServer () := {|
  ds_env _ := None; ds_now := mret 1; ds_config := mret SampleServer.config; ds_connection _ := l1 |}.
Definition proof : Groth16OnChainProof := {| piA := replicate 64 x00; piB := replicate 128 x00; piC := replicate 64 x00 |}.
Definition verified : VerifiedSeed :=
  match @verifyPhantomSeedSignature toy_crypto SampleServer.base58 SampleServer.nacl SampleServer.signature SampleServer.owner with
  | Ok v => v | Throw _ => {| vf_ownerPubkey := []; vf_signature := []; vf_seed := [] |} end.

Lemma server_setup : @demo_setup SampleServer.base58 () server tt
  = (Ok (getDemoConnections server SampleServer.config, SampleServer.programs), tt).
Proof.
  unfold demo_setup. cbn [server ds_config]. erewrite M_bind_run by reflexivity.
  by rewrite (M_bind_lift _ _ _ _ SampleServer.config_parses).
Qed.
End SampleIdentity.

Lemma identity_registers_witness : ∃ ans reg c,
  @derive_identity Toy.toy_crypto Toy.toy_Poseidon SampleServer.base58 SampleIdentity.encode SampleServer.nacl SampleCounter.key_ops
    (Ok {| di_phantomSignatureBase58 := Some SampleServer.signature; di_ownerPubkeyBase58 := Some SampleServer.owner |})
    = Ok (Sent ans) ∧
  reg.(ra_alreadyRegistered) = false ∧ reg.(ra_publicData) = ans.(ia_publicData) ∧
  ans.(ia_publicData).(pd_userCommitmentHex) = toHex c.
Proof.
  destruct (@identity_registers Toy.toy_crypto Toy.toy_crypto_laws Toy.toy_Poseidon Toy.toy_poseidon_laws SampleServer.web3
    SampleServer.base58 SampleIdentity.encode SampleServer.nacl SampleServer.foreign_ix SampleCounter.key_ops SampleIdentity.seed_laws
    () SampleIdentity.server SampleServer.signature SampleServer.owner SampleIdentity.verified SampleIdentity.proof _
    SampleServer.programs (SampleServer.key x12) tt tt
    ltac:(unfold distinct_discriminators; apply (bool_decide_unpack _); vm_compute; exact I)
    ltac:(discriminate) ltac:(discriminate) ltac:(vm_compute; reflexivity) ltac:(split; [reflexivity|split; reflexivity])
    SampleIdentity.server_setup ltac:(vm_compute; reflexivity)) as (ans & i & c & Hans & _ & _ & _ & Hc & Hreg & _).
  destruct (Hreg None tt eq_refl) as (reg & _ & Hpub & _ & Hnew & _). exists ans, reg, c.
  split; [exact Hans|]. split; [exact Hnew|]. split; [exact Hpub|exact Hc].
Defined.

(** [airdrop] mints, in one transaction of the admin, the requested amounts as
    numbers: the ones it reports, up to 2^53. *)
Theorem airdrop_mints `{NodeCrypto} `{Base58} `{Web3} `{Nacl} `{ForeignIx} `{KeyOps} `{Host} {S} (server : DemoServer S) body w ans w' :
  airdrop server (Ok body) w = (Ok (Sent ans), w') →
  ∃ programs connections admin owner baseAta quoteAta baseAmt quoteAmt w1,
    airdrop_amount body.(ab_baseAmount) "DEMO_USER_AIRDROP_BASE" = Ok baseAmt ∧
    airdrop_amount body.(ab_quoteAmount) "DEMO_USER_AIRDROP_QUOTE" = Ok quoteAmt ∧
    connections.(dc_l1).(l1_send) (airdrop_ixs programs admin owner baseAta quoteAta baseAmt quoteAmt) [admin] w1
      = (Ok ans.(aa_signature), w') ∧
    ans.(aa_baseAmount) = bigint_string baseAmt ∧ ans.(aa_quoteAmount) = bigint_string quoteAmt ∧
    (Z.abs baseAmt <= 2 ^ 53 → Number_of baseAmt = baseAmt) ∧ (Z.abs quoteAmt <= 2 ^ 53 → Number_of quoteAmt = quoteAmt).
Proof.
  intros Hrun. apply route_Sent in Hrun. rewrite (M_bind_lift _ _ _ _ eq_refl) in Hrun.
  destruct (present _) as [[|sig [|own [|? ?]]]|]; try discriminate Hrun.
  apply M_bind_Ok in Hrun as (v & w0 & [_ ->]%liftR_inv & Hrun).
  apply M_bind_Ok in Hrun as (baseAmt & w0 & [Hb ->]%liftR_inv & Hrun).
  apply M_bind_Ok in Hrun as (quoteAmt & w0 & [Hq ->]%liftR_inv & Hrun).
  apply M_bind_Ok in Hrun as (root & w0 & [_ ->]%liftR_inv & Hrun).
  apply M_bind_Ok in Hrun as ([cs ps] & w1 & _ & Hrun).
  apply M_bind_Ok in Hrun as (admin & w2 & [_ ->]%liftR_inv & Hrun).
  apply M_bind_Ok in Hrun as (owner & w2 & [_ ->]%liftR_inv & Hrun).
  apply M_bind_Ok in Hrun as (baseAta & w2 & [_ ->]%liftR_inv & Hrun).
  apply M_bind_Ok in Hrun as (quoteAta & w2 & [_ ->]%liftR_inv & Hrun).
  apply M_bind_Ok in Hrun as (s & w2 & Hsend & Hrun). injection Hrun as <- <-.
  eexists ps, cs, admin, owner, baseAta, quoteAta, baseAmt, quoteAmt, _. split; [exact Hb|]. split; [exact Hq|].
  split; [exact Hsend|]. split; [reflexivity|]. split; [reflexivity|].
  split; intros Hle; unfold Number_of; by rewrite (proj2 (Z.leb_le _ _) Hle).
Qed.

(** Above that the minted amount is another: 2^53 + 1 is reported, 2^53 minted. *)
Example airdrop_rounds : Number_of (2 ^ 53 + 1) = 2 ^ 53 ∧ bigint_string (2 ^ 53 + 1) = "9007199254740993".
Proof. split; reflexivity. Qed.

(** The balance of a token account is the [u64] behind mint and owner; without an
    account it is zero. *)
Lemma balance_reads `{Web3} `{ForeignIx} `{ShortAccount} {S} (conn : L1Connection S) mint owner ata w w' info :
  getAssociatedTokenAddress mint owner = Ok ata → conn.(l1_getAccountInfo) ata w = (Ok info, w') →
  match info with
  | None => readAtaBalance conn mint owner w = (Ok {| bal_ata := toBase58 ata; bal_exists := false; bal_amount := "0" |}, w')
  | Some info => ∀ amount rest, 0 <= amount < U64 → info.(ai_data) = toBytes mint ++ toBytes owner ++ le_bytes 8 amount ++ rest →
      readAtaBalance conn mint owner w
      = (Ok {| bal_ata := toBase58 ata; bal_exists := true; bal_amount := bigint_string amount |}, w')
  end.
Proof.
  intros Hata Hinfo. unfold readAtaBalance. rewrite (M_bind_lift _ _ _ _ Hata), (M_bind_run _ _ _ _ _ Hinfo).
  destruct info as [info|]; [|reflexivity]. intros amount rest Ha Hd.
  assert (E : token_amount info.(ai_data) = Ok amount).
  { unfold token_amount. rewrite Hd. rewrite !length_app, !length_toBytes, length_le_bytes.
    rewrite (proj2 (Nat.leb_le _ _)) by lia. f_equal. rewrite app_assoc.
    replace 64%nat with (length (toBytes mint ++ toBytes owner) + 0)%nat by (rewrite length_app, !length_toBytes; reflexivity).
    rewrite slice_drop, drop_app_length, slice_app_l by apply length_le_bytes. rewrite le_val_le_bytes. by apply Z.mod_small. }
  by rewrite (M_bind_lift _ _ _ _ E).
Qed.
