(* ===== verification/TradeWithdraw.v ===== *)
(** The handler that prepares the withdrawal of a traded note
    ([apps/demo/src/app/api/dapp/trade-withdraw-prepare/route.ts]): it checks the
    note against the match, replays the vault's leaves, and looks for a prefix of
    them whose root the vault still accepts. *)

From stdpp Require Import gmap.
From S2P Require Import Prelude Bytes Errors Externals Keys Note Borsh VaultClient VaultProgram Settlement.
From S2P Require Import SettleProgram BatchResults Merkle MerkleShadow VaultTree Client Deposit VaultState Withdraw Session.
From S2P Require Import DecimalText LeafHistory Decimals DemoText DemoKeys DemoChain AccountTypes Routes TradeSettle WalletRoutes.

Local Open Scope Z_scope.

Definition VAULT_LEAF_COUNT_OFFSET : nat := 8 + 32 + 32 + 32.
Definition VAULT_CURRENT_ROOT_OFFSET : nat := VAULT_LEAF_COUNT_OFFSET + 8.
Definition VAULT_ROOTS_OFFSET : nat := VAULT_CURRENT_ROOT_OFFSET + 32.
Definition VAULT_ROOT_HISTORY_SIZE : nat := 32.

(** [body.maxSignatures ?? 10000] *)
Definition MAX_SIGNATURES : nat := 10000.

Definition readVaultRoots (data : bytes) : bytes * list bytes :=
  let current := slice data VAULT_CURRENT_ROOT_OFFSET 32 in
  let ring := (λ i, slice data (VAULT_ROOTS_OFFSET + i * 32) 32) <$> seq 0 VAULT_ROOT_HISTORY_SIZE in
  (current, List.filter (λ r, negb (isZero32 r)) ring).

Definition rootMatches (witnessRoot target : bytes) : bool :=
  if negb (length witnessRoot =? length target)%nat then false else every_eq witnessRoot target.

Inductive RootMatch := match_current | match_ring (ringIndex : nat).

Fixpoint find_ring (witnessRoot : bytes) (ring : list bytes) (i : nat) : option RootMatch :=
  match ring with
  | [] => None
  | r :: ring => if rootMatches witnessRoot r then Some (match_ring i) else find_ring witnessRoot ring (S i)
  end.

Definition findMatchingRoot (witnessRoot current : bytes) (ring : list bytes) : option RootMatch :=
  if rootMatches witnessRoot current then Some match_current else find_ring witnessRoot ring 0.

Record TradeWithdrawBody := {
  tw_phantomSignatureBase58 : option string; tw_ownerPubkeyBase58 : option string;
  tw_ownerCommitmentHex : option string; tw_matchId : option string; tw_tokenMintBase58 : option string;
  tw_amount : option string; tw_nonce : option string; tw_blindingR : option string; tw_leafIndex : option string;
  tw_commitmentHex : option string; tw_maxSignatures : option nat }.

Record Chosen := { ch_witness : MerkleWitness; ch_matchedAs : string; ch_prefixUsed : nat }.

Record ReplayInfo := {
  ri_liveLeafCount : string; ri_replayedLeafCount : nat; ri_prefixUsed : nat; ri_matchedAs : string }.
Record TradeWithdrawAnswer := { twa_spend : SpendAnswer; twa_replayInfo : ReplayInfo }.

(** The note of the request, once it is checked against the seed and the match. *)
Record CheckedTrade (S : Type) := {
  ct_l1 : L1Connection S; ct_programs : DemoPrograms; ct_maxSignatures : option nat; ct_spendingKey : Z;
  ct_ownerBlinding : Z; ct_note : Note; ct_mint : PublicKey; ct_leafIndex : Z; ct_commitment : bytes }.
Arguments ct_l1 {S}.
Arguments ct_programs {S}.
Arguments ct_maxSignatures {S}.
Arguments ct_spendingKey {S}.
Arguments ct_ownerBlinding {S}.
Arguments ct_note {S}.
Arguments ct_mint {S}.
Arguments ct_leafIndex {S}.
Arguments ct_commitment {S}.

Section trade_withdraw.
Context `{NodeCrypto} `{Poseidon} `{Web3} `{Base58} `{Nacl} {S : Type}.

Definition buildWitnessForPrefix (leaves : list bytes) (leafIndex : Z) : res MerkleWitness :=
  shadow ← shadow_from leaves; witness shadow leafIndex.

Definition matched_as (ring : list bytes) (m : RootMatch) : string :=
  match m with
  | match_current => "current_root"
  | match_ring i => "roots[" +:+ pretty i +:+ "] (historical, " +:+ pretty (length ring - i)%nat +:+ " back)"
  end.

(** [for (let prefix = targetCount; prefix >= minPrefix; prefix--)], with the
    prefixes tried.  It does not get below 0: a prefix that does not reach past
    the leaf has no witness. *)
Fixpoint prefix_loop (leaves : list bytes) (targetCount : nat) (leafIndex minPrefix : Z) (current : bytes)
    (ring : list bytes) (prefix : nat) (tried : list nat) : res (option Chosen * list nat) :=
  if Z.of_nat prefix <? minPrefix then Ok (None, tried)
  else
    let tried := tried ++ [prefix] in
    w ← buildWitnessForPrefix (take prefix leaves) leafIndex;
    match findMatchingRoot w.(root) current ring with
    | Some m => Ok (Some {| ch_witness := w; ch_matchedAs := matched_as ring m; ch_prefixUsed := prefix |}, tried)
    | None =>
        if (VAULT_ROOT_HISTORY_SIZE + 1 <? targetCount - prefix)%nat then Ok (None, tried)
        else match prefix with
             | O => Ok (None, tried)
             | Datatypes.S prefix => prefix_loop leaves targetCount leafIndex minPrefix current ring prefix tried
             end
    end.

Definition trade_fields (body : TradeWithdrawBody) : option (list string) :=
  present [body.(tw_phantomSignatureBase58); body.(tw_ownerPubkeyBase58); body.(tw_ownerCommitmentHex);
           body.(tw_tokenMintBase58); body.(tw_amount); body.(tw_nonce); body.(tw_blindingR); body.(tw_commitmentHex)].

(** [a.replace(/^0x/, "").toLowerCase()] *)
Definition wanted_hex (text : string) : string := toLowerCase (strip_0x text).

(** [leaves[i]], [undefined] outside the list. *)
Definition at_index (leaves : list bytes) (i : Z) : option bytes :=
  if i <? 0 then None else leaves !! Z.to_nat i.

Definition JText (x : Z) : Json := JStr (bigint_string x).
Definition JHex (b : bytes) : Json := JStr (toHex b).

(** [leaves.slice(max(0, i - 2), i + 4)] with their positions *)
Definition sample_leaves (leaves : list bytes) (i : Z) : list Json :=
  let from := Z.to_nat (Z.max 0 (i - 2)) in
  imap (λ k l, JObj [("idx", JNum (i - 2 + Z.of_nat k)); ("hex", JHex l)])
    (slice leaves from (Z.to_nat (i + 4) - from)).

Definition check_trade (server : DemoServer S) (req : res TradeWithdrawBody) : M S (Answer (CheckedTrade S)) :=
  body ← liftR req;
  match trade_fields body, body.(tw_matchId), body.(tw_leafIndex) with
  | Some [phantomSignature; ownerPubkey; ownerCommitmentHex; tokenMintText; amountText; nonceText; blindingText;
          commitmentHex], Some matchIdText, Some leafIndexText =>
      verified ← liftR (verifyPhantomSeedSignature phantomSignature ownerPubkey);
      let seed := verified.(vf_seed) in
      '(connections, programs) ← demo_setup server;
      tokenMint ← liftR (newPublicKey (Some tokenMintText));
      if negb (bool_decide (tokenMint = programs.(baseMint))) then
        mret (bad_request "only BASE mint (buyer trade leg) is supported")
      else
      spendingKey ← liftR (deriveSpendingKey seed);
      ownerBlinding ← liftR (deriveBlindingFactor seed 0);
      let owner := ownerCommitment spendingKey ownerBlinding in
      ownerBytes ← liftR (bn254ToBE32 owner);
      if negb (bool_decide (toLowerCase (toHex ownerBytes) = wanted_hex ownerCommitmentHex)) then
        mret (bad_request "ownerCommitmentHex does not match derived identity")
      else
      matchId ← liftR (BigInt matchIdText);
      amount ← liftR (BigInt amountText);
      nonce ← liftR (BigInt nonceText);
      blindingR ← liftR (BigInt blindingText);
      leafIndex ← liftR (BigInt leafIndexText);
      nonceC ← liftR (be32ToBigInt (deriveNonce matchId TRADE_ROLE_BUYER));
      blindC ← liftR (be32ToBigInt (deriveBlinding matchId TRADE_ROLE_BUYER));
      if negb (nonce =? nonceC) || negb (blindingR =? blindC) then
        mret (bad_request "nonce/blindingR do not match deterministic trade-note derivation for matchId")
      else
      let note := {| tokenMint := toBytes tokenMint; amount := amount; ownerCommitment_ := owner; nonce := nonce;
                     Note.blindingR := blindingR |} in
      recomputed ← liftR (noteCommitment note);
      if negb (bool_decide (toLowerCase (toHex recomputed) = wanted_hex commitmentHex)) then
        mret (bad_request "commitmentHex does not match recomputed note_c for this match")
      else
      mret (Sent {| ct_l1 := connections.(dc_l1); ct_programs := programs; ct_maxSignatures := body.(tw_maxSignatures);
                    ct_spendingKey := spendingKey; ct_ownerBlinding := ownerBlinding; ct_note := note;
                    ct_mint := tokenMint; ct_leafIndex := leafIndex; ct_commitment := recomputed |})
  | _, _, _ => mret (bad_request "missing trade-withdraw-prepare fields")
  end.

(** The replay and the search for a root the vault accepts. *)
Definition prove_trade (t : CheckedTrade S) : M S (Answer TradeWithdrawAnswer) :=
  let note := t.(ct_note) in let leafIndex := t.(ct_leafIndex) in let recomputed := t.(ct_commitment) in
  data ← vault_data t.(ct_l1) t.(ct_programs).(vaultProgramId);
  liveLeafCount ← liftR (readU64 data VAULT_LEAF_COUNT_OFFSET);
  if liveLeafCount <=? leafIndex then
    mret (bad_request ("leafIndex " +:+ bigint_string leafIndex +:+ " out of range (leaf_count="
                       +:+ bigint_string liveLeafCount +:+ ")"))
  else
  let liveCurrentRoot := (readVaultRoots data).1 in
  let liveRoots := (readVaultRoots data).2 in
  let targetCount := Z.to_nat liveLeafCount in
  leaves ← collectVaultLeavesOrdered t.(ct_l1).(l1_history) t.(ct_programs).(vaultProgramId) targetCount
             (Some (default MAX_SIGNATURES t.(ct_maxSignatures)));
  if match at_index leaves leafIndex with Some l => negb (bool_decide (l = recomputed)) | None => false end then
    mret (Refused 409 "Replayed leaf at note_c index does not match the recomputed note_c commitment. Either the on-chain leaf at this index is a different note or the RPC replay parsed it incorrectly."
            (Some (JObj [("leafIndex", JText leafIndex);
                         ("replayedHex", JHex (default [] (at_index leaves leafIndex)));
                         ("recomputedHex", JHex recomputed); ("liveLeafCount", JText liveLeafCount)])))
  else
  found ← liftR (prefix_loop leaves targetCount leafIndex (leafIndex + 1) liveCurrentRoot liveRoots targetCount []);
  match found.1 with
  | None =>
      mret (Refused 409 "Witness root not found in vault root history (current_root ∪ roots[]). RPC replay likely missed or mis-ordered a leaf, OR more than 32 leaves were added after your trade settled and your note has aged out of the on-chain ring."
              (Some (JObj [("liveLeafCount", JText liveLeafCount); ("leafIndex", JText leafIndex);
                           ("replayedLeafCount", JNum (Z.of_nat (length leaves)));
                           ("triedPrefixes", JArr (JNum ∘ Z.of_nat <$> found.2));
                           ("ringSize", JNum (Z.of_nat (length liveRoots)));
                           ("currentRootHex", JHex liveCurrentRoot);
                           ("recentRingHex", JArr (JHex <$> take (Nat.min 8 (length liveRoots)) liveRoots));
                           ("sampleReplayedHex", JArr (sample_leaves leaves leafIndex))])))
  | Some chosen =>
      let w := chosen.(ch_witness) in
      ans ← liftR (spend_answer t.(ct_spendingKey) t.(ct_ownerBlinding) note.(ownerCommitment_) t.(ct_mint)
                     note.(amount) note.(nonce) note.(Note.blindingR) recomputed w.(root) w.(mw_siblings) w.(indices));
      mret (Sent {| twa_spend := ans;
                    twa_replayInfo :=
                      {| ri_liveLeafCount := bigint_string liveLeafCount;
                         ri_replayedLeafCount := length leaves; ri_prefixUsed := chosen.(ch_prefixUsed);
                         ri_matchedAs := chosen.(ch_matchedAs) |} |})
  end.

Definition trade_withdraw_prepare (server : DemoServer S) (req : res TradeWithdrawBody)
    : M S (Answer TradeWithdrawAnswer) :=
  route (and_then (check_trade server req) prove_trade).
End trade_withdraw.

(** ** Lemmas: roots *)

Lemma rootMatches_eq a b : rootMatches a b = bool_decide (a = b).
Proof.
  unfold rootMatches. destruct (Nat.eqb_spec (length a) (length b)) as [Hl|Hl]; cbn [negb].
  - by apply every_eq_length.
  - symmetry. apply bool_decide_eq_false_2. by intros ->.
Qed.

Lemma find_ring_Some r ring i m : find_ring r ring i = Some m → In r ring.
Proof.
  revert i; induction ring as [|x ring IH]; intros i; cbn [find_ring]; [done|]. rewrite rootMatches_eq.
  case_bool_decide as E; [by left|]. intros Hm. right. by eapply IH.
Qed.

Lemma readVaultRoots_account disc bump cfg :
  account_wf disc cfg →
  readVaultRoots (vault_account disc bump cfg)
  = (cfg.(current_root), List.filter (λ r, negb (isZero32 r)) cfg.(roots)).
Proof.
  intros Hwf. destruct (aw_roots _ _ Hwf) as [Hl Hr]. unfold readVaultRoots. f_equal.
  - exact (read_current_root disc bump cfg Hwf).
  - f_equal. etransitivity; [exact (read_32s id disc bump cfg 6 cfg.(roots) VAULT_ROOTS_OFFSET 32 Hwf eq_refl eq_refl Hl Hr)|].
    apply list_fmap_id.
Qed.

(** A root the handler finds is one the vault accepts. *)
Lemma findMatchingRoot_contains cfg r m :
  findMatchingRoot r cfg.(current_root) (List.filter (λ r, negb (isZero32 r)) cfg.(roots)) = Some m →
  contains_root cfg r = true.
Proof.
  unfold findMatchingRoot, contains_root. rewrite rootMatches_eq, orb_true_iff. case_bool_decide as E.
  - intros _. left. by apply bool_decide_eq_true_2.
  - intros Hm%find_ring_Some. apply filter_In in Hm as [Hm _]. right. apply existsb_exists. exists r.
    split; [done|]. by apply bool_decide_eq_true_2.
Qed.

Section prefixes.
Context `{Poseidon} `{!PoseidonLaws}.

Lemma append_leaves_spec leaves l :
  Forall (λ b, b ≠ []) (l ++ leaves) → append_leaves leaves (shadow_of l) = Ok (shadow_of (l ++ leaves)).
Proof.
  revert l; induction leaves as [|x leaves IH]; intros l Hl; cbn [append_leaves]; [by rewrite app_nil_r|].
  assert (E : l ++ x :: leaves = (l ++ [x]) ++ leaves) by (by rewrite <-app_assoc). rewrite E in Hl |- *.
  rewrite append_spec by (by apply Forall_app in Hl as [? _]). by apply IH.
Qed.

Lemma shadow_from_spec leaves : Forall (λ b, b ≠ []) leaves → shadow_from leaves = Ok (shadow_of leaves).
Proof. intros Hl. unfold shadow_from. rewrite create_spec. by apply (append_leaves_spec leaves []). Qed.

Lemma field_nonempty l : Forall field_bytes l → Forall (λ b, b ≠ []) l.
Proof. intros Hl. eapply Forall_impl; [exact Hl|]. intros b [Hb _] ->. discriminate. Qed.

(** The witness of a leaf in a prefix that holds it; no witness otherwise. *)
Lemma build_witness_spec leaves i :
  Forall field_bytes leaves → (length leaves ≤ 2 ^ TREE_DEPTH)%nat →
  buildWitnessForPrefix leaves i =
    if (0 <=? i) && (i <? Z.of_nat (length leaves)) then
      Ok {| root := vault_root leaves; mw_siblings := vault_path leaves (Z.to_nat i);
            indices := path_bits (Z.to_nat i) TREE_DEPTH |}
    else witness (shadow_of leaves) i.
Proof.
  intros Hf Hl. unfold buildWitnessForPrefix. rewrite shadow_from_spec by (by apply field_nonempty). cbn [mbind res_bind].
  destruct (Z.leb_spec 0 i), (Z.ltb_spec i (Z.of_nat (length leaves))); cbn [andb]; try reflexivity.
  rewrite <-(Z2Nat.id i) at 1 by lia. rewrite witness_spec; [done|by apply field_nonempty|done|lia].
Qed.

Lemma build_witness_range leaves i w :
  Forall field_bytes leaves → (length leaves ≤ 2 ^ TREE_DEPTH)%nat → buildWitnessForPrefix leaves i = Ok w →
  0 <= i < Z.of_nat (length leaves) ∧ w.(root) = vault_root leaves ∧ w.(mw_siblings) = vault_path leaves (Z.to_nat i) ∧
  w.(indices) = path_bits (Z.to_nat i) TREE_DEPTH.
Proof.
  intros Hf Hl. rewrite build_witness_spec by done.
  destruct (Z.leb_spec 0 i), (Z.ltb_spec i (Z.of_nat (length leaves))); cbn [andb]; unfold witness; cbn [MerkleShadow.leaves shadow_of].
  - intros <-%Ok_inj. done.
  - by rewrite (proj2 (Z.leb_le (Z.of_nat (length leaves)) i)), orb_true_r by lia.
  - by rewrite (proj2 (Z.ltb_lt i 0)) by lia.
  - by rewrite (proj2 (Z.ltb_lt i 0)) by lia.
Qed.

Lemma prefix_loop_inv leaves target i min current ring prefix tried ch tried' :
  prefix_loop leaves target i min current ring prefix tried = Ok (Some ch, tried') →
  ∃ k m, (k ≤ prefix)%nat ∧ buildWitnessForPrefix (take k leaves) i = Ok ch.(ch_witness) ∧
    findMatchingRoot ch.(ch_witness).(root) current ring = Some m.
Proof.
  revert tried; induction prefix as [|prefix IH]; intros tried Hr; cbn [prefix_loop] in Hr;
    destruct (_ <? min); try discriminate Hr; apply res_bind_Ok in Hr as (w & Hw & Hr);
    destruct (findMatchingRoot w.(root) current ring) as [m|] eqn:Hm.
  - injection Hr as <- _. by exists 0%nat, m.
  - destruct (_ <? _)%nat in Hr; discriminate Hr.
  - injection Hr as <- _. by exists (S prefix), m.
  - destruct (_ <? _)%nat in Hr; [discriminate Hr|]. destruct (IH _ Hr) as (k & m' & Hk & ?). exists k, m'. split; [lia|done].
Qed.

(** The replay of the vault's own leaves matches at once. *)
Lemma prefix_loop_now leaves i current ring :
  Forall field_bytes leaves → (length leaves ≤ 2 ^ TREE_DEPTH)%nat → (i < length leaves)%nat →
  current = vault_root leaves →
  prefix_loop leaves (length leaves) (Z.of_nat i) (Z.of_nat i + 1) current ring (length leaves) [] =
  Ok (Some {| ch_witness := {| root := vault_root leaves; mw_siblings := vault_path leaves i;
                               indices := path_bits i TREE_DEPTH |};
              ch_matchedAs := "current_root"; ch_prefixUsed := length leaves |}, [length leaves]).
Proof.
  intros Hf Hl Hi ->. pose proof (build_witness_spec leaves (Z.of_nat i) Hf Hl) as Hw.
  rewrite (proj2 (Z.leb_le 0 (Z.of_nat i))), (proj2 (Z.ltb_lt (Z.of_nat i) (Z.of_nat (length leaves)))), Nat2Z.id in Hw by lia.
  cbn [andb] in Hw. rewrite <-(firstn_all leaves) in Hw at 1. destruct (length leaves) as [|n] eqn:En; [lia|].
  cbn [prefix_loop]. rewrite (proj2 (Z.ltb_ge (Z.of_nat (S n)) _)) by lia.
  eapply bind_Ok_eq; [exact Hw|]. cbn [root]. unfold findMatchingRoot. rewrite rootMatches_eq.
  by rewrite bool_decide_eq_true_2.
Qed.
End prefixes.

(** ** Properties *)

(** The buyer's note of a match: base mint, the identity behind a seed, the
    secrets derived from the match id. *)
Record traded_note `{NodeCrypto} `{Poseidon} (mint : PublicKey) (seed : bytes) (matchId sk ob : Z) (note : Note)
    (c : bytes) : Prop := {
  tn_keys : deriveSpendingKey seed = Ok sk ∧ deriveBlindingFactor seed 0 = Ok ob;
  tn_mint : note.(tokenMint) = toBytes mint;
  tn_owner : note.(ownerCommitment_) = ownerCommitment sk ob;
  tn_nonce : be32ToBigInt (deriveNonce matchId TRADE_ROLE_BUYER) = Ok note.(nonce);
  tn_blinding : be32ToBigInt (deriveBlinding matchId TRADE_ROLE_BUYER) = Ok note.(Note.blindingR);
  tn_commitment : noteCommitment note = Ok c;
}.

(** The request the withdraw panel sends for the note a run reported. *)
Definition trade_request (signature owner ownerHex : string) (bn : BuyerBaseNote) : TradeWithdrawBody :=
  {| tw_phantomSignatureBase58 := Some signature; tw_ownerPubkeyBase58 := Some owner;
     tw_ownerCommitmentHex := Some ownerHex; tw_matchId := Some bn.(bn_matchId);
     tw_tokenMintBase58 := Some bn.(bn_tokenMintBase58); tw_amount := Some bn.(bn_amount);
     tw_nonce := Some bn.(bn_nonce); tw_blindingR := Some bn.(bn_blindingR); tw_leafIndex := Some bn.(bn_leafIndex);
     tw_commitmentHex := Some bn.(bn_commitmentHex); tw_maxSignatures := None |}.

Section run.
Context `{NodeCrypto} `{!NodeCryptoLaws} `{Poseidon} `{!PoseidonLaws} `{Web3} `{Base58} `{Nacl} {S : Type}.
Implicit Types server : DemoServer S.

(** A note of the field, with the vault's path of a leaf. *)
Lemma traded_note_fits mint seed matchId sk ob note c l i :
  traded_note mint seed matchId sk ob note c → 0 < note.(amount) < U64 → Forall field_bytes l →
  spend_fits (as_params note mint)
    {| ip_root := vault_root l; ip_siblings := vault_path l i; ip_pathIndices := path_bits i TREE_DEPTH |} sk ob.
Proof.
  intros [[Hsk Hob] Hm Ho Hn Hb Hc] Ha Hl.
  destruct (deriveSpendingKey_total seed) as (sk' & E & Hskr). rewrite Hsk in E. apply Ok_inj in E as <-.
  destruct (deriveBlindingFactor_total seed 0) as (ob' & E & Hobr). rewrite Hob in E. apply Ok_inj in E as <-.
  unfold deriveNonce in Hn. unfold deriveBlinding in Hb.
  edestruct masked_in_field as (x & E & Hnr & _); [|rewrite Hn in E; apply Ok_inj in E as <-]; [apply length_sha256|].
  edestruct masked_in_field as (x & E & Hbr & _); [|rewrite Hb in E; apply Ok_inj in E as <-]; [apply length_sha256|].
  split; cbn [as_params wp_tokenMint wp_amount wp_notePlaintext ip_root ip_siblings ip_pathIndices]; try assumption.
  - apply length_toBytes.
  - reflexivity.
  - exact (vault_node_field l _ _ Hl).
  - exact (vault_path_field l i Hl).
  - apply path_bits_01.
  - split; [apply length_path_from|apply length_path_bits].
Qed.

Lemma present_8 a b c d e f g h l :
  present [a; b; c; d; e; f; g; h] = Some l →
  ∃ a' b' c' d' e' f' g' h', l = [a'; b'; c'; d'; e'; f'; g'; h'] ∧ truthy a = Some a' ∧ truthy b = Some b' ∧
    truthy c = Some c' ∧ truthy d = Some d' ∧ truthy e = Some e' ∧ truthy f = Some f' ∧ truthy g = Some g' ∧
    truthy h = Some h'.
Proof.
  unfold present. cbn [mapM]. destruct (truthy a), (truthy b), (truthy c), (truthy d), (truthy e), (truthy f), (truthy g),
    (truthy h); cbn; try discriminate. intros [= <-]. eauto 20.
Qed.

Lemma collect_count (conn : Connection S) vault n maxSignatures w leaves w' :
  collectVaultLeavesOrdered conn vault n maxSignatures w = (Ok leaves, w') → length leaves = n.
Proof.
  unfold collectVaultLeavesOrdered. intros Hr. inv_steps. injection Hr as <- <-.
  match goal with H : negb (_ =? n)%nat = false |- _ => by apply negb_false_iff, Nat.eqb_eq in H end.
Qed.

(** What the handler checked before it looks at the chain. *)
Record trade_checked (programs : DemoPrograms) (body : TradeWithdrawBody) (seed : bytes) (matchId : Z)
    (t : CheckedTrade S) : Prop := {
  tk_seed : ∃ signature owner verified, truthy body.(tw_phantomSignatureBase58) = Some signature ∧
    truthy body.(tw_ownerPubkeyBase58) = Some owner ∧ verifyPhantomSeedSignature signature owner = Ok verified ∧
    seed = verified.(vf_seed);
  tk_texts : ∃ m x, body.(tw_matchId) = Some m ∧ BigInt m = Ok matchId ∧ body.(tw_leafIndex) = Some x ∧
    BigInt x = Ok t.(ct_leafIndex);
  tk_note : traded_note programs.(baseMint) seed matchId t.(ct_spendingKey) t.(ct_ownerBlinding) t.(ct_note) t.(ct_commitment);
  tk_mint : t.(ct_mint) = programs.(baseMint) ∧ t.(ct_programs) = programs;
}.

Lemma check_trade_inv server body w t w' :
  check_trade server (Ok body) w = (Ok (Sent t), w') →
  ∃ conns w1 programs seed matchId, demo_setup server w = (Ok (conns, programs), w1) ∧ w' = w1 ∧
    t.(ct_l1) = conns.(dc_l1) ∧ trade_checked programs body seed matchId t.
Proof.
  intros Hrun. unfold check_trade in Hrun. rewrite (M_bind_lift _ body) in Hrun by reflexivity.
  destruct (trade_fields body) as [fs|] eqn:Hf; [|discriminate Hrun].
  apply present_8 in Hf as (sig & own & oc & mint & am & no & bl & ch & -> & F1 & F2 & _).
  destruct (tw_matchId body) as [mText|] eqn:Hm; [|discriminate Hrun].
  destruct (tw_leafIndex body) as [iText|] eqn:Hi; [|discriminate Hrun].
  apply M_bind_Ok in Hrun as (verified & ? & [Hver ->]%liftR_inv & Hrun).
  apply M_bind_Ok in Hrun as ([conns programs] & w1 & Hset & Hrun).
  apply M_bind_Ok in Hrun as (tokenMint & ? & [_ ->]%liftR_inv & Hrun).
  destruct (negb _) eqn:Hmint in Hrun; [discriminate Hrun|]. apply negb_false_iff, bool_decide_eq_true in Hmint.
  apply M_bind_Ok in Hrun as (sk & ? & [Hsk ->]%liftR_inv & Hrun).
  apply M_bind_Ok in Hrun as (ob & ? & [Hob ->]%liftR_inv & Hrun).
  apply M_bind_Ok in Hrun as (ownerBytes & ? & [_ ->]%liftR_inv & Hrun).
  destruct (negb _) in Hrun; [discriminate Hrun|].
  apply M_bind_Ok in Hrun as (matchId & ? & [Hmid ->]%liftR_inv & Hrun).
  apply M_bind_Ok in Hrun as (a & ? & [_ ->]%liftR_inv & Hrun).
  apply M_bind_Ok in Hrun as (n & ? & [_ ->]%liftR_inv & Hrun).
  apply M_bind_Ok in Hrun as (r & ? & [_ ->]%liftR_inv & Hrun).
  apply M_bind_Ok in Hrun as (i & ? & [Hidx ->]%liftR_inv & Hrun).
  apply M_bind_Ok in Hrun as (nonceC & ? & [Hn ->]%liftR_inv & Hrun).
  apply M_bind_Ok in Hrun as (blindC & ? & [Hb ->]%liftR_inv & Hrun).
  destruct (_ || _) eqn:Hnb in Hrun; [discriminate Hrun|].
  apply orb_false_iff in Hnb as [<-%negb_false_iff%Z.eqb_eq <-%negb_false_iff%Z.eqb_eq].
  apply M_bind_Ok in Hrun as (c & ? & [Hc ->]%liftR_inv & Hrun).
  destruct (negb _) in Hrun; [discriminate Hrun|]. injection Hrun as <- <-.
  exists conns, w1, programs, verified.(vf_seed), matchId. split; [exact Hset|]. split; [reflexivity|].
  split; [reflexivity|]. split; cbn [ct_note ct_commitment ct_leafIndex ct_spendingKey ct_ownerBlinding ct_mint ct_programs].
  - exists sig, own, verified. split_and!; [exact F1|exact F2|exact Hver|reflexivity].
  - exists mText, iText. split_and!; assumption.
  - subst tokenMint. split; [by split|reflexivity|reflexivity|exact Hn|exact Hb|exact Hc].
  - split; [exact Hmint|reflexivity].
Qed.

(** The rest of the handler, against the vault's account. *)
Lemma prove_trade_inv disc bump cfg l (t : CheckedTrade S) w ans w1 w' :
  account_wf disc cfg → vault_repr cfg l →
  vault_data t.(ct_l1) t.(ct_programs).(vaultProgramId) w = (Ok (vault_account disc bump cfg), w1) →
  prove_trade t w = (Ok (Sent ans), w') →
  ∃ leaves ch tried w2,
    collectVaultLeavesOrdered t.(ct_l1).(l1_history) t.(ct_programs).(vaultProgramId) (length l)
      (Some (default MAX_SIGNATURES t.(ct_maxSignatures))) w1 = (Ok leaves, w2) ∧
    (∀ x, at_index leaves t.(ct_leafIndex) = Some x → x = t.(ct_commitment)) ∧
    prefix_loop leaves (length l) t.(ct_leafIndex) (t.(ct_leafIndex) + 1) cfg.(current_root)
      (List.filter (λ r, negb (isZero32 r)) cfg.(roots)) (length l) [] = Ok (Some ch, tried) ∧
    spend_answer t.(ct_spendingKey) t.(ct_ownerBlinding) t.(ct_note).(ownerCommitment_) t.(ct_mint)
      t.(ct_note).(amount) t.(ct_note).(nonce) t.(ct_note).(Note.blindingR) t.(ct_commitment)
      ch.(ch_witness).(root) ch.(ch_witness).(mw_siblings) ch.(ch_witness).(indices) = Ok ans.(twa_spend).
Proof.
  intros Hwf Hv Hdata Hrun. unfold prove_trade in Hrun. cbv zeta in Hrun. rewrite (M_bind_run _ _ _ _ _ Hdata) in Hrun.
  rewrite (M_bind_lift _ _ _ _ (read_leaf_count disc bump cfg Hwf)) in Hrun.
  destruct (cfg.(leaf_count) <=? _); [discriminate Hrun|].
  rewrite (readVaultRoots_account disc bump cfg Hwf), (repr_count _ _ (proj1 Hv)), Nat2Z.id in Hrun.
  apply M_bind_Ok in Hrun as (leaves & w2 & Hcol & Hrun). exists leaves.
  destruct (match at_index leaves _ with Some _ => _ | None => _ end) eqn:Hat; [discriminate Hrun|].
  apply M_bind_Ok in Hrun as ([chosen tried] & ? & [Hloop ->]%liftR_inv & Hrun). cbn [fst snd] in Hloop, Hrun.
  destruct chosen as [chosen|]; [|discriminate Hrun]. exists chosen, tried, w2.
  apply M_bind_Ok in Hrun as (sa & ? & [Hsa ->]%liftR_inv & Hrun). injection Hrun as <- <-.
  split; [exact Hcol|]. split; [|split; [exact Hloop|exact Hsa]].
  intros x Hx. rewrite Hx in Hat. by apply negb_false_iff, bool_decide_eq_true in Hat.
Qed.

(** A prefix of the leaves whose root the vault accepts is enough to spend. *)
Lemma prefix_spend_ok cfg mint seed matchId sk ob note c leaves k i ch sa m :
  traded_note mint seed matchId sk ob note c → Forall field_bytes leaves →
  (length leaves ≤ 2 ^ TREE_DEPTH)%nat → buildWitnessForPrefix (take k leaves) i = Ok ch.(ch_witness) →
  (∀ x, at_index leaves i = Some x → x = c) →
  findMatchingRoot ch.(ch_witness).(root) cfg.(current_root) (List.filter (λ r, negb (isZero32 r)) cfg.(roots)) = Some m →
  spend_answer sk ob note.(ownerCommitment_) mint note.(amount) note.(nonce) note.(Note.blindingR) c
    ch.(ch_witness).(root) ch.(ch_witness).(mw_siblings) ch.(ch_witness).(indices) = Ok sa →
  0 <= i < Z.of_nat (length leaves) ∧ leaves !! Z.to_nat i = Some c ∧ (0 < note.(amount) < U64 → spend_ok cfg mint note sk c sa).
Proof.
  intros Hn Hf Hmax Hw Hat Hm Hsa.
  assert (Hk : Forall field_bytes (take k leaves)) by (by apply Forall_take).
  assert (Hlk : (length (take k leaves) ≤ 2 ^ TREE_DEPTH)%nat) by (rewrite length_take; exact (Nat.le_trans _ _ _ (Nat.le_min_r _ _) Hmax)).
  destruct (build_witness_range _ _ _ Hk Hlk Hw) as (Hi & Er & Es & Ei).
  rewrite length_take in Hi. assert (Hik : (Z.to_nat i < k)%nat) by lia.
  destruct (lookup_lt_is_Some_2 leaves (Z.to_nat i) ltac:(lia)) as [x Hx].
  assert (E : x = c). { apply Hat. unfold at_index. by rewrite (proj2 (Z.ltb_ge i 0)) by lia. }
  subst x. split; [lia|]. split; [exact Hx|]. intros Ha. rewrite (tn_owner _ _ _ _ _ _ _ Hn), Er, Es, Ei in Hsa.
  eapply spend_answer_valid; [exact Hsa|..].
  - exact (traded_note_fits _ _ _ _ _ _ _ _ _ Hn Ha Hk).
  - apply Hn.
  - apply Hn.
  - apply Hn.
  - apply vault_path_checks; [exact Hlk|]. by rewrite lookup_take_lt.
  - rewrite <-Er. by eapply findMatchingRoot_contains.
Qed.
(** The texts of a reported note. *)
Record note_texts (bn : BuyerBaseNote) (mint : PublicKey) (matchId : Z) (note : Note) (c : bytes) (i : Z) : Prop := {
  nt_range : 0 <= matchId ∧ 0 <= i ∧ 0 < note.(amount) ∧ 0 <= note.(nonce) ∧ 0 <= note.(Note.blindingR);
  nt_match : bn.(bn_matchId) = bigint_string matchId;
  nt_leaf : bn.(bn_leafIndex) = bigint_string i;
  nt_amount : bn.(bn_amount) = bigint_string note.(amount);
  nt_nonce : bn.(bn_nonce) = bigint_string note.(nonce);
  nt_blinding : bn.(bn_blindingR) = bigint_string note.(Note.blindingR);
  nt_commitment : bn.(bn_commitmentHex) = toHex c;
  nt_mint : bn.(bn_tokenMintBase58) = toBase58 mint;
}.

Lemma toHex_nonempty b : b ≠ [] → toHex b ≠ EmptyString.
Proof. by destruct b. Qed.

Lemma truthy_ne s : s ≠ EmptyString → truthy (Some s) = Some s.
Proof. by destruct s. Qed.

Context `{!Base58Laws}.

(** The request the panel sends for a note passes the checks. *)
Lemma check_trade_runs server conns programs signature owner verified matchId sk ob note c i bn w w1 :
  demo_setup server w = (Ok (conns, programs), w1) → verifyPhantomSeedSignature signature owner = Ok verified →
  signature ≠ EmptyString → owner ≠ EmptyString →
  traded_note programs.(baseMint) verified.(vf_seed) matchId sk ob note c →
  note_texts bn programs.(baseMint) matchId note c i →
  check_trade server (Ok (trade_request signature owner (toHex (be_bytes 32 (ownerCommitment sk ob))) bn)) w =
  (Ok (Sent {| ct_l1 := conns.(dc_l1); ct_programs := programs; ct_maxSignatures := None; ct_spendingKey := sk;
               ct_ownerBlinding := ob; ct_note := note; ct_mint := programs.(baseMint); ct_leafIndex := i;
               ct_commitment := c |}), w1).
Proof.
  intros Hset Hver Hs Ho [[Hsk Hob] Hmint Hown Hn Hb Hc] [(R1 & R2 & R3 & R4 & R5) T1 T2 T3 T4 T5 T6 T7].
  destruct (noteCommitment_field _ _ Hc) as [Hlen _].
  assert (Hne : toHex c ≠ EmptyString) by (apply toHex_nonempty; intros ->; discriminate Hlen).
  assert (Hoh : toHex (be_bytes 32 (ownerCommitment sk ob)) ≠ EmptyString).
  { apply toHex_nonempty. intros E. pose proof (length_be_bytes 32 (ownerCommitment sk ob)) as Hl. rewrite E in Hl. discriminate Hl. }
  unfold check_trade. rewrite M_bind_lift with (a := trade_request signature owner (toHex (be_bytes 32 (ownerCommitment sk ob))) bn) by reflexivity.
  replace (trade_fields _) with (Some [signature; owner; toHex (be_bytes 32 (ownerCommitment sk ob)); toBase58 programs.(baseMint);
    bigint_string note.(amount); bigint_string note.(nonce); bigint_string note.(Note.blindingR); toHex c]); cycle 1.
  { unfold trade_fields, trade_request, present. cbn [tw_phantomSignatureBase58 tw_ownerPubkeyBase58 tw_ownerCommitmentHex
      tw_tokenMintBase58 tw_amount tw_nonce tw_blindingR tw_commitmentHex]. rewrite T3, T4, T5, T6, T7.
    cbn [mapM]. rewrite !truthy_ne by (assumption || apply toBase58_nonempty || (apply bigint_string_ne; lia)). reflexivity. }
  cbn [trade_request tw_matchId tw_leafIndex]. rewrite T1, T2. cbn [tw_maxSignatures trade_request].
  rewrite (M_bind_lift _ _ _ _ Hver), (M_bind_run _ _ _ _ _ Hset).
  rewrite (M_bind_lift _ _ _ _ (newPublicKey_toBase58 _)), bool_decide_eq_true_2 by reflexivity. cbn [negb].
  rewrite (M_bind_lift _ _ _ _ Hsk), (M_bind_lift _ _ _ _ Hob).
  rewrite (M_bind_lift _ _ _ _ (bn254ToBE32_in (ownerCommitment sk ob) (poseidon_range _))).
  unfold wanted_hex. rewrite !strip_0x_toHex, bool_decide_eq_true_2 by reflexivity. cbn [negb].
  rewrite (M_bind_lift _ _ _ _ (BigInt_text matchId R1)), (M_bind_lift _ _ _ _ (BigInt_text note.(amount) ltac:(lia))).
  rewrite (M_bind_lift _ _ _ _ (BigInt_text note.(nonce) R4)), (M_bind_lift _ _ _ _ (BigInt_text note.(Note.blindingR) R5)).
  rewrite (M_bind_lift _ _ _ _ (BigInt_text i R2)), (M_bind_lift _ _ _ _ Hn), (M_bind_lift _ _ _ _ Hb), !Z.eqb_refl.
  cbn [negb orb]. rewrite <-Hmint, <-Hown. destruct note as [m a o n r]. cbn [tokenMint amount ownerCommitment_ nonce Note.blindingR] in *.
  rewrite (M_bind_lift _ _ _ _ Hc), bool_decide_eq_true_2 by reflexivity. reflexivity.
Qed.

(** With the vault's own leaves behind the node, the rest of the handler answers. *)
Lemma prove_trade_runs disc bump cfg l (t : CheckedTrade S) seed matchId i w w1 w2 :
  account_wf disc cfg → vault_repr cfg l →
  vault_data t.(ct_l1) t.(ct_programs).(vaultProgramId) w = (Ok (vault_account disc bump cfg), w1) →
  collectVaultLeavesOrdered t.(ct_l1).(l1_history) t.(ct_programs).(vaultProgramId) (length l)
    (Some (default MAX_SIGNATURES t.(ct_maxSignatures))) w1 = (Ok l, w2) →
  traded_note t.(ct_mint) seed matchId t.(ct_spendingKey) t.(ct_ownerBlinding) t.(ct_note) t.(ct_commitment) →
  t.(ct_leafIndex) = Z.of_nat i → l !! i = Some t.(ct_commitment) → 0 < t.(ct_note).(amount) < U64 →
  ∃ ans, prove_trade t w = (Ok (Sent ans), w2) ∧ ans.(twa_replayInfo).(ri_matchedAs) = "current_root" ∧
    spend_ok cfg t.(ct_mint) t.(ct_note) t.(ct_spendingKey) t.(ct_commitment) ans.(twa_spend).
Proof.
  intros Hwf Hv Hdata Hcol Hn Hi Hx Ha. pose proof (lookup_lt_Some _ _ _ Hx) as Hlt.
  pose proof (repr_leaves _ _ (proj1 Hv)) as Hf. pose proof (repr_max _ _ (proj1 Hv)) as Hmax.
  pose proof (prefix_loop_now l i cfg.(current_root) (List.filter (λ r, negb (isZero32 r)) cfg.(roots)) Hf Hmax Hlt
    (repr_root _ _ (proj1 Hv))) as Hloop. rewrite <-Hi in Hloop.
  assert (Hat : at_index l t.(ct_leafIndex) = Some t.(ct_commitment)).
  { unfold at_index. rewrite Hi, Nat2Z.id. by rewrite (proj2 (Z.ltb_ge (Z.of_nat i) 0)) by lia. }
  destruct (spend_answer_total t.(ct_spendingKey) t.(ct_ownerBlinding) t.(ct_mint) t.(ct_note).(amount) t.(ct_note).(nonce)
    t.(ct_note).(Note.blindingR) t.(ct_commitment) (vault_root l) (vault_path l i) (path_bits i TREE_DEPTH)
    (proj1 (noteCommitment_field _ _ (tn_commitment _ _ _ _ _ _ _ Hn))) (length_toBytes _)) as (sa & Hsa).
  rewrite <-(tn_owner _ _ _ _ _ _ _ Hn) in Hsa. eexists. split; [|split].
  - unfold prove_trade. cbv zeta. rewrite (M_bind_run _ _ _ _ _ Hdata), (M_bind_lift _ _ _ _ (read_leaf_count disc bump cfg Hwf)).
    rewrite (readVaultRoots_account disc bump cfg Hwf), (repr_count _ _ (proj1 Hv)), Nat2Z.id. cbn [fst snd].
    rewrite (proj2 (Z.leb_gt (Z.of_nat (length l)) t.(ct_leafIndex))) by lia.
    rewrite (M_bind_run _ _ _ _ _ Hcol), Hat, bool_decide_eq_true_2 by reflexivity. cbn [negb].
    rewrite (M_bind_lift _ _ _ _ Hloop). cbn [fst snd ch_witness root mw_siblings indices].
    rewrite (M_bind_lift _ _ _ _ Hsa). reflexivity.
  - reflexivity.
  - cbn [twa_spend]. eapply (prefix_spend_ok cfg _ _ _ _ _ _ _ l (length l) t.(ct_leafIndex)
      {| ch_witness := {| root := vault_root l; mw_siblings := vault_path l i; indices := path_bits i TREE_DEPTH |};
         ch_matchedAs := EmptyString; ch_prefixUsed := O |}); cbn [ch_witness root mw_siblings indices];
      [exact Hn|exact Hf|exact Hmax| | | |exact Hsa|exact Ha].
    + rewrite firstn_all, Hi, (build_witness_spec l (Z.of_nat i) Hf Hmax), (proj2 (Z.leb_le 0 (Z.of_nat i))),
        (proj2 (Z.ltb_lt (Z.of_nat i) (Z.of_nat (length l)))), Nat2Z.id by lia. reflexivity.
    + intros x Hx'. rewrite Hat in Hx'. by injection Hx'.
    + unfold findMatchingRoot. rewrite rootMatches_eq, bool_decide_eq_true_2; [reflexivity|].
      symmetry. exact (repr_root _ _ (proj1 Hv)).
Qed.

End run.

(** [C25] The trade handler hands out spend data only for the caller's own, settled
    note. When it answers, the seed is the one the wallet signed, and the note is
    the buyer's note of that match for that seed, with the commitment recomputed. If
    the replayed leaves are field elements, the note is the leaf at the index of the
    request; and if the amount of the request's text, which the handler does not
    bound, lies above 0 and below 2^64, the answer is a valid spend of that leaf
    against a root the vault accepts. *)
Theorem trade_withdraw_sound `{NodeCrypto} `{!NodeCryptoLaws} `{Poseidon} `{!PoseidonLaws} `{Web3} `{Base58} `{Nacl} {S}
    (server : DemoServer S) programs disc bump cfg l body w ans w' :
  account_wf disc cfg → vault_repr cfg l → serves server programs disc bump cfg →
  trade_withdraw_prepare server (Ok body) w = (Ok (Sent ans), w') →
  ∃ seed matchId (t : CheckedTrade S) leaves w1 w2, trade_checked programs body seed matchId t ∧
    collectVaultLeavesOrdered t.(ct_l1).(l1_history) programs.(vaultProgramId) (length l)
      (Some (default MAX_SIGNATURES t.(ct_maxSignatures))) w1 = (Ok leaves, w2) ∧
    (Forall field_bytes leaves →
     leaves !! Z.to_nat t.(ct_leafIndex) = Some t.(ct_commitment) ∧ 0 <= t.(ct_leafIndex) < cfg.(leaf_count) ∧
     (0 < t.(ct_note).(amount) < U64 → spend_ok cfg programs.(baseMint) t.(ct_note) t.(ct_spendingKey) t.(ct_commitment) ans.(twa_spend))).
Proof.
  intros Hwf Hv Hserve Hrun. apply route_Sent in Hrun. unfold and_then in Hrun.
  apply M_bind_Ok in Hrun as ([t|? ? ?] & w0 & Hcheck & Hrun); [|discriminate Hrun].
  destruct (check_trade_inv _ _ _ _ _ Hcheck) as (conns & w1 & programs' & seed & matchId & Hset & -> & Hl1 & Ht).
  destruct (Hserve w) as (conns' & w1' & w2 & Hset' & Hdata). rewrite Hset in Hset'. injection Hset' as <- <- <-.
  destruct (tk_mint _ _ _ _ _ Ht) as [Hmint Hprog]. rewrite <-Hl1, <-Hprog in Hdata.
  destruct (prove_trade_inv disc bump cfg l t _ _ _ _ Hwf Hv Hdata Hrun) as (leaves & ch & tried & w3 & Hcol & Hat & Hloop & Hsa).
  exists seed, matchId, t, leaves, w2, w3. split; [exact Ht|]. rewrite Hprog in Hcol. split; [exact Hcol|]. intros Hf.
  pose proof (collect_count _ _ _ _ _ _ _ Hcol) as Hlen. destruct (prefix_loop_inv _ _ _ _ _ _ _ _ _ _ Hloop) as (k & m & _ & Hw & Hm).
  rewrite Hmint in Hsa. rewrite (repr_count _ _ (proj1 Hv)), <-Hlen.
  destruct (prefix_spend_ok cfg _ _ _ _ _ _ _ leaves k _ ch _ m (tk_note _ _ _ _ _ Ht) Hf
    ltac:(rewrite Hlen; exact (repr_max _ _ (proj1 Hv))) Hw Hat Hm Hsa) as (Hi & Hx & Hok).
  split; [exact Hx|]. split; [exact Hi|exact Hok].
Qed.

(** A server set up for these programs, whose node serves the vault's account
    and its ledger. *)
Definition serves_ledger `{Web3} `{Base58} {S} (server : DemoServer S) (programs : DemoPrograms) (disc : bytes)
    (bump : byte) (cfg : VaultConfig) (ledger : list (string * VersionedTransactionResponse)) : Prop :=
  ∀ w, ∃ conns w1 w2, demo_setup server w = (Ok (conns, programs), w1) ∧
    vault_data conns.(dc_l1) programs.(vaultProgramId) w1 = (Ok (vault_account disc bump cfg), w2) ∧
    honest_node conns.(dc_l1).(l1_history) programs.(vaultProgramId) ledger.

(** What the settlement transaction of a run appends. *)
Lemma settle_tx_data `{NodeCrypto} `{!NodeCryptoLaws} `{Poseidon} `{Web3} `{Base58} `{ForeignIx} {S}
    (ctx : TradeL1SettleContext S) p h sg a ed settle :
  settle_tx ctx p h sg = Ok [a; ed; settle] →
  dispatch settle_table settle.(ix_data) = Some (payload_u64 p).
Proof.
  unfold settle_tx. intros Hset. apply res_bind_Ok in Hset as (e & _ & Hset). apply res_bind_Ok in Hset as (ix & Hix & Hset).
  injection Hset as _ _ <-. destruct (buildSettleIx_accepted _ _ Hix) as (_ & (_ & Hentry & _) & _). unfold program_entry in Hentry.
  apply bind_Some in Hentry as (q & Hq & Hentry). destruct (accounts_ok _ _) in Hentry; [|discriminate Hentry].
  injection Hentry as ->. exact Hq.
Qed.

(** The note a finished run reports, as its texts. *)
Lemma reported_texts `{NodeCrypto} `{!NodeCryptoLaws} `{Poseidon} `{!PoseidonLaws} `{Web3} `{Base58} `{Nacl} `{ForeignIx} {S}
    (ctx : TradeL1SettleContext S) out mr p noteC leafBefore usk lockA lockB ed settle :
  trade_ran ctx out mr p noteC leafBefore usk lockA lockB ed settle → 0 < noteC.(amount) →
  0 <= leafBefore ∧ noteC.(amount) < U64 ∧
  note_texts out.(tr_buyerBaseNote) ctx.(tc_baseMint) mr.(mr_matchId) noteC p.(mp_noteC) leafBefore.
Proof.
  intros [_ (s & s' & info & view & _ & Hdec & Hin) (x & x' & info' & _ & Hleaf) _ _ (_ & Ham & _ & Hn & Hb & _) _ _
    (R1 & R2 & R3 & R4 & R5 & R6 & R7)] Hpos.
  destruct (decoded_batch_words _ _ _ Hdec Hin) as [Hwa [Hwm _]]. apply readU64_range in Hleaf as [Hl _].
  split; [exact Hl|]. split; [rewrite Ham; apply Hwa|].
  unfold deriveNonce in Hn. unfold deriveBlinding in Hb.
  edestruct masked_in_field as (y & E & [Hn0 _] & _); [|rewrite Hn in E; apply Ok_inj in E as <-]; [apply length_sha256|].
  edestruct masked_in_field as (y & E & [Hb0 _] & _); [|rewrite Hb in E; apply Ok_inj in E as <-]; [apply length_sha256|].
  split; [by split_and!|..]; rewrite ?bigint_string_nonneg by (assumption || lia); try assumption. by rewrite Ham.
Qed.

(** The ledger holds the settlement of a finished run, at the leaf count the run
    read, and a server serves that ledger and the vault's account. *)
Definition settled_on `{NodeCrypto} `{Poseidon} `{Web3} `{Base58} {S'} (verify_spend verify_wallet : Groth16Proof → list bytes → bool)
    (server : DemoServer S') (programs : DemoPrograms) (settle : TransactionInstruction) (leafBefore : Z) (st : VaultState) : Prop :=
  ∃ st1 ledger1 sig tx ledger2 disc bump,
    ledger_ran verify_spend verify_wallet programs.(vaultProgramId) None (Some st1) ledger1 ∧
    leafBefore = st1.(vs_config).(leaf_count) ∧ settled_in programs.(vaultProgramId) settle.(ix_data) tx ∧
    ledger_ran verify_spend verify_wallet programs.(vaultProgramId) (Some st1) (Some st) ((sig, tx) :: ledger2) ∧
    (length (ledger1 ++ (sig, tx) :: ledger2) ≤ MAX_SIGNATURES)%nat ∧ length disc = 8%nat ∧
    serves_ledger server programs disc bump st.(vs_config) (ledger1 ++ (sig, tx) :: ledger2).

Lemma settled_note_runs `{NodeCrypto} `{!NodeCryptoLaws} `{Poseidon} `{!PoseidonLaws} `{Web3} `{Base58}
    `{!Base58Laws} `{Nacl} `{ForeignIx} {S S'} (ctx : TradeL1SettleContext S) (server : DemoServer S') programs signature owner
    verified out mr p noteC leafBefore usk lockA lockB ed settle sk ob verify_spend verify_wallet st w :
  distinct_discriminators vault_handler_names → trade_ran ctx out mr p noteC leafBefore usk lockA lockB ed settle →
  verifyPhantomSeedSignature signature owner = Ok verified → signature ≠ EmptyString → owner ≠ EmptyString →
  ctx.(tc_baseMint) = programs.(baseMint) →
  deriveSpendingKey verified.(vf_seed) = Ok sk → deriveBlindingFactor verified.(vf_seed) 0 = Ok ob →
  noteC.(ownerCommitment_) = ownerCommitment sk ob → 0 < noteC.(amount) →
  settled_on verify_spend verify_wallet server programs settle leafBefore st →
  ∃ ans w', trade_withdraw_prepare server (Ok (trade_request signature owner
      (toHex (be_bytes 32 (ownerCommitment sk ob))) out.(tr_buyerBaseNote))) w = (Ok (Sent ans), w') ∧
    ans.(twa_replayInfo).(ri_matchedAs) = "current_root" ∧
    spend_ok st.(vs_config) programs.(baseMint) noteC sk p.(mp_noteC) ans.(twa_spend).
Proof.
  intros Hdist Hr Hver Hs Ho Hmint Hsk Hob Hown Hpos
    (st1 & ledger1 & sig & tx & ledger2 & disc & bump & Hran1 & Hcount & Hin & Hran2 & Hmax & Hdisc & Hserve).
  destruct (ledger_reachable verify_spend verify_wallet _ _ _ Hran1) as (st0 & Hi & Hsteps).
  destruct (ledger_ran_leads verify_spend verify_wallet _ _ _ _ Hran2) as (st' & [= <-] & Hsteps2).
  pose proof (steps_types _ _ disc _ _ Hsteps2 (steps_types _ _ disc _ _ Hsteps (initial_types disc _ Hdisc Hi))) as Hwf.
  destruct (reported_texts _ _ _ _ _ _ _ _ _ _ _ Hr Hpos) as (Hl0 & Hu & Ht). rewrite Hmint in Ht.
  destruct (rn_note _ _ _ _ _ _ _ _ _ _ _ Hr) as (N1 & _ & _ & N4 & N5 & N6). rewrite Hmint in N1.
  assert (Htn : traded_note programs.(baseMint) verified.(vf_seed) mr.(mr_matchId) sk ob noteC p.(mp_noteC)) by (by split).
  destruct (rn_settle_tx _ _ _ _ _ _ _ _ _ _ _ Hr) as (h & sg & sg' & s & s' & _ & Hset & _).
  pose proof (settle_tx_data _ _ _ _ _ _ _ Hset) as Hdata.
  destruct (Hserve w) as (conns & w1 & w2 & Hsetup & Hvd & Hnode).
  destruct (settlement_kept verify_spend verify_wallet _ Hdist _ st1 st ledger1 sig tx ledger2 _ _ (Some MAX_SIGNATURES) w2
    Hran1 Hin Hdata Hran2 Hnode Hmax) as (l1 & rest & Hv1 & Hv2 & Hcol).
  pose proof (check_trade_runs server conns programs signature owner verified _ sk ob noteC _ _ _ w w1 Hsetup Hver Hs Ho Htn Ht) as Hcheck.
  match type of Hcheck with _ = (Ok (Sent ?t), _) =>
    destruct (prove_trade_runs disc bump st.(vs_config) _ t verified.(vf_seed) mr.(mr_matchId) (length l1) w1 w2 w2 Hwf Hv2 Hvd Hcol Htn)
      as (ans & Hans & Has & Hok) end.
  - cbn [ct_leafIndex]. by rewrite Hcount, (repr_count _ _ (proj1 Hv1)).
  - by apply list_lookup_middle.
  - split; assumption.
  - exists ans, w2. split; [|split; [exact Has|exact Hok]]. apply route_Ok. unfold and_then.
    rewrite (M_bind_run _ _ _ _ _ Hcheck). exact Hans.
Qed.

(** [C12] What a trade settled, its buyer can withdraw. Let a run of
    [runTradeL1Settle] finish, for the server's base mint, with a note of a positive
    amount, and let the settlement it sent be on the vault's ledger, at the leaf
    count the run read. Any other instructions of the vault but [reset_merkle_tree]
    may precede and follow, on a ledger of at most 10000 signatures, which is what
    the replay fetches; and the server's node serves that ledger and the vault's
    account. Then, for the wallet whose keys own the reported note, the request the
    withdraw panel makes from the report passes every check of
    [trade_withdraw_prepare], the replay matches the current root, and the answer is
    a valid spend of the note: with a proof the program's verifier accepts for it
    the vault pays the traded amount out, as long as the note is neither consumed
    nor locked, its nullifier unspent and the vault's balance covers it. *)
Theorem trade_note_withdrawable `{NodeCrypto} `{!NodeCryptoLaws} `{Poseidon} `{!PoseidonLaws} `{Web3} `{Base58}
    `{!Base58Laws} `{Nacl} `{ForeignIx} {S S'} (ctx : TradeL1SettleContext S) w0 out w0' programs
    signature owner verified :
  distinct_discriminators vault_handler_names → runTradeL1Settle ctx w0 = (Ok out, w0') →
  verifyPhantomSeedSignature signature owner = Ok verified → signature ≠ EmptyString → owner ≠ EmptyString →
  ctx.(tc_baseMint) = programs.(baseMint) →
  ∃ mr p noteC leafBefore usk lockA lockB ed settle sk ob,
    trade_ran ctx out mr p noteC leafBefore usk lockA lockB ed settle ∧
    deriveSpendingKey verified.(vf_seed) = Ok sk ∧ deriveBlindingFactor verified.(vf_seed) 0 = Ok ob ∧
    (noteC.(ownerCommitment_) = ownerCommitment sk ob → 0 < noteC.(amount) →
     ∀ (server : DemoServer S') verify_spend verify_wallet st w,
     settled_on verify_spend verify_wallet server programs settle leafBefore st →
     ∃ ans w', trade_withdraw_prepare server (Ok (trade_request signature owner
         (toHex (be_bytes 32 (ownerCommitment sk ob))) out.(tr_buyerBaseNote))) w = (Ok (Sent ans), w') ∧
       ans.(twa_replayInfo).(ri_matchedAs) = "current_root" ∧
       spend_ok st.(vs_config) programs.(baseMint) noteC sk p.(mp_noteC) ans.(twa_spend)).
Proof.
  intros Hdist Hrun Hver Hs Ho Hmint.
  destruct (runTradeL1Settle_inv _ _ _ _ Hrun) as (mr & p & noteC & leafBefore & usk & lockA & lockB & ed & settle & Hr).
  destruct (deriveSpendingKey_total verified.(vf_seed)) as (sk & Hsk & _).
  destruct (deriveBlindingFactor_total verified.(vf_seed) 0) as (ob & Hob & _).
  exists mr, p, noteC, leafBefore, usk, lockA, lockB, ed, settle, sk, ob. split; [exact Hr|]. split; [exact Hsk|].
  split; [exact Hob|]. intros Hown Hpos server verify_spend verify_wallet st w Hon.
  by eapply settled_note_runs.
Qed.

(** The sample trade, by a buyer whose wallet owns the note: the vault is
    initialised, locks the two notes, settles; the node serves that ledger. *)
Module SampleLife.
Import Toy SampleServer.

Definition order_key : bytes :=
  match @verifyPhantomSeedSignature toy_crypto base58 nacl signature owner with
  | Ok v => match deriveSpendingKey v.(vf_seed), deriveBlindingFactor v.(vf_seed) 0 with
            | Ok sk, Ok ob => be_bytes 32 (ownerCommitment sk ob)
            | _, _ => []
            end
  | Throw _ => []
  end.

Definition ctx : TradeL1SettleContext () := SampleTrade.ctx_for order_key programs.(baseMint).

Lemma life_run : ∃ out, @runTradeL1Settle toy_crypto toy_Poseidon web3 base58 nacl foreign_ix () ctx tt = (Ok out, tt).
Proof. eexists. vm_compute. reflexivity. Qed.

Lemma life_batch_decodes :
  decodeBatchResults (batch_results_bytes (replicate 8 x09) (SampleTrade.batch_for order_key)) = Ok (SampleTrade.batch_for order_key).
Proof. vm_compute. reflexivity. Qed.

Definition node (ledger : list (string * VersionedTransactionResponse)) : Connection () := {|
  getSignaturesForAddress _ limit before w := (Ok (take limit (older before (reverse ledger.*1))), w);
  getTransaction sig w := (Ok (snd <$> List.find (λ e, bool_decide (e.1 = sig)) ledger), w) |}.

Definition ledger (settle : bytes) : list (string * VersionedTransactionResponse) :=
  [("s1", SampleLedger.vault_ix (anchorDiscriminator "initialize")); ("s2", SampleLedger.vault_ix (anchorDiscriminator "lock_note"));
   ("s3", SampleLedger.vault_ix (anchorDiscriminator "lock_note")); ("s4", SampleLedger.vault_ix settle)].

Lemma life_node_honest vault settle : honest_node (node (ledger settle)) vault (ledger settle).
Proof.
  split.
  - apply (bool_decide_unpack _). vm_compute. exact I.
  - reflexivity.
  - intros sig tx w Hin. repeat (apply elem_of_cons in Hin as [[= -> ->]|Hin]; [reflexivity|]).
    by apply not_elem_of_nil in Hin.
Qed.

Definition base_state (cfg : VaultConfig) : VaultState :=
  {| vs_config := cfg; vs_locks := ∅; vs_consumed := ∅; vs_nullifiers := ∅; vs_wallets := ∅; vs_tokens := ∅; vs_funded := ∅ |}.

(** The two locks. *)
Lemma locks_run cfg : cfg.(tee_pubkey) = SampleTrade.word x21 →
  ∃ st, lock_note (SampleTrade.word x21) 1 (SampleTrade.word x03) (replicate 16 x42) 500 300 (base_state cfg) = Ok st ∧
    lock_note (SampleTrade.word x21) 1 (SampleTrade.word x02) (replicate 16 x41) 500 5000 st = Ok (trade_state cfg).
Proof.
  intros Ht. eexists. split.
  - unfold lock_note, init. cbn [base_state vs_locks vs_config]. rewrite lookup_empty. cbn [mbind res_bind].
    rewrite Ht, bool_decide_eq_true_2 by reflexivity. reflexivity.
  - unfold lock_note, init. cbn [with_funded with_locks base_state vs_locks vs_config]. rewrite lookup_insert_ne, lookup_empty by discriminate.
    cbn [mbind res_bind]. rewrite Ht, bool_decide_eq_true_2 by reflexivity. reflexivity.
Qed.

Definition served (st : VaultState) (settle : bytes) : DemoServer () :=
  server (vault_account (replicate 8 x07) x01 st.(vs_config)) (node (ledger settle)).

Lemma serves st settle : serves_ledger (served st settle) programs (replicate 8 x07) x01 st.(vs_config) (ledger settle).
Proof.
  intros w. exists (getDemoConnections (served st settle) config), w, w.
  split; [|split; [reflexivity|exact (life_node_honest _ settle)]].
  unfold demo_setup. cbn [served server ds_config]. erewrite M_bind_run by reflexivity. by rewrite (M_bind_lift _ _ _ _ config_parses).
Qed.

(** The transactions before the settlement. *)
Lemma before_ran cfg settle :
  @initialize_handler toy_Poseidon (replicate 32 x01) (SampleTrade.word x21) (replicate 32 x03) = Ok cfg →
  cfg.(tee_pubkey) = SampleTrade.word x21 →
  @ledger_ran toy_crypto toy_Poseidon web3 base58 (λ _ _, true) (λ _ _, true) zero_key None (Some (trade_state cfg)) (take 3 (ledger settle)).
Proof.
  intros Hi Htee. destruct (locks_run cfg Htee) as (st & L1 & L2). cbn [take ledger].
  eapply ledger_ok with (notes := []); [reflexivity|reflexivity| |eapply ledger_ok with (notes := []); [reflexivity|reflexivity| |eapply ledger_ok with (notes := []); [reflexivity|reflexivity| |apply ledger_nil]]];
    (eapply calls_vault with (keys := [key_of (replicate 32 x30); zero_key; key_of (replicate 32 x30)]); [|apply calls_nil]).
  - apply (ran_initialize _ _ (base_state cfg)); [reflexivity|]. exists (replicate 32 x01), (SampleTrade.word x21), (replicate 32 x03).
    do 3 (split; [reflexivity|]). split; [exact Hi|]. repeat split.
  - eapply (ran_other _ _ "lock_note"); [reflexivity|]. eapply other_lock_note. exact L1.
  - eapply (ran_other _ _ "lock_note"); [reflexivity|]. eapply other_lock_note. exact L2.
Qed.

Lemma leaf_zero uc base out mr p noteC leaf usk a b ed settle :
  @trade_ran toy_crypto toy_Poseidon web3 base58 nacl foreign_ix () (SampleTrade.ctx_for uc base) out mr p noteC leaf usk a b ed settle →
  leaf = 0.
Proof.
  intros Hr. destruct (rn_leaf _ _ _ _ _ _ _ _ _ _ _ Hr) as (x & x' & info & Hinfo & Hleaf).
  rewrite (SampleTrade.account_served uc _ _ _ _ Hinfo), bool_decide_eq_false_2 in Hleaf by (vm_compute; discriminate).
  rewrite (read_leaf_count _ _ _ SampleChain.cfg_wf) in Hleaf. by apply Ok_inj in Hleaf.
Qed.

Lemma settled out mr p noteC leaf usk a b ed settle :
  @trade_ran toy_crypto toy_Poseidon web3 base58 nacl foreign_ix () ctx out mr p noteC leaf usk a b ed settle →
  mr = SampleTrade.match_for order_key ∧
  ∃ st, @settled_on toy_crypto toy_Poseidon web3 base58 () (λ _ _, true) (λ _ _, true) (served st settle.(ix_data)) programs settle leaf st.
Proof.
  intros Hr. pose proof (sample_ran_match _ _ _ _ _ _ _ _ _ _ _ _ _ _ _ _ life_batch_decodes Hr) as Hmr. subst mr. split; [reflexivity|].
  destruct (@initialize_repr toy_Poseidon toy_poseidon_laws (replicate 32 x01) (SampleTrade.word x21) (replicate 32 x03))
    as (cfg & Hi & Hv & Htee).
  destruct (@ran_settles toy_crypto toy_crypto_laws toy_Poseidon toy_poseidon_laws web3 base58 nacl foreign_ix () ctx out _ p noteC
    leaf usk a b ed settle (trade_state cfg) [] 9 Hr Hv (sample_ran_ready _ _ _ _ _ _ _ _ _ _ _ _ _ _ _ _ Hr) Htee) as (ev & st & Hs).
  destruct (rn_settle_tx _ _ _ _ _ _ _ _ _ _ _ Hr) as (h & sg & sg' & s & s' & _ & Hset & _).
  exists st. exists (trade_state cfg), (take 3 (ledger settle.(ix_data))), "s4", (SampleLedger.vault_ix settle.(ix_data)), [], (replicate 8 x07), x01.
  split; [by apply before_ran|]. split.
  { rewrite (leaf_zero _ _ _ _ _ _ _ _ _ _ _ _ Hr). exact (eq_sym (repr_count _ _ (proj1 Hv))). }
  split; [|split; [|split; [|split; [reflexivity|exact (serves st settle.(ix_data))]]]].
  - split; [reflexivity|]. exists [], [key_of (replicate 32 x30); zero_key; key_of (replicate 32 x30)]. split; [reflexivity|apply Forall_nil_2].
  - eapply ledger_ok with (notes := []); [reflexivity|reflexivity| |apply ledger_nil].
    eapply calls_vault with (keys := [key_of (replicate 32 x30); zero_key; key_of (replicate 32 x30)]); [|apply calls_nil].
    eapply ran_settle; [exact (settle_tx_data _ _ _ _ _ _ _ Hset)|exact Hs].
  - apply Nat.leb_le. vm_compute. reflexivity.
Qed.
End SampleLife.

(** The wallet of the sample owns the note of the trade. *)
Lemma life_order_key v sk ob :
  @verifyPhantomSeedSignature Toy.toy_crypto SampleServer.base58 SampleServer.nacl SampleServer.signature SampleServer.owner = Ok v →
  @deriveSpendingKey Toy.toy_crypto v.(vf_seed) = Ok sk → @deriveBlindingFactor Toy.toy_crypto v.(vf_seed) 0 = Ok ob →
  SampleLife.order_key = be_bytes 32 (@ownerCommitment Toy.toy_Poseidon sk ob).
Proof. intros Hv Hsk Hob. unfold SampleLife.order_key. rewrite Hv, Hsk, Hob. reflexivity. Qed.

Lemma life_note uc base out p noteC leaf usk a b ed settle :
  @trade_ran Toy.toy_crypto Toy.toy_Poseidon SampleServer.web3 SampleServer.base58 SampleServer.nacl SampleServer.foreign_ix ()
    (SampleTrade.ctx_for uc base) out (SampleTrade.match_for uc) p noteC leaf usk a b ed settle →
  be32ToBigInt uc = Ok noteC.(ownerCommitment_) ∧ noteC.(amount) = 100.
Proof. intros Hr. destruct (rn_note _ _ _ _ _ _ _ _ _ _ _ Hr) as (_ & Ha & Ho & _). split; [exact Ho|exact Ha]. Qed.

Lemma life_owner v sk ob out p noteC leaf usk a b ed settle :
  @verifyPhantomSeedSignature Toy.toy_crypto SampleServer.base58 SampleServer.nacl SampleServer.signature SampleServer.owner = Ok v →
  @deriveSpendingKey Toy.toy_crypto v.(vf_seed) = Ok sk → @deriveBlindingFactor Toy.toy_crypto v.(vf_seed) 0 = Ok ob →
  @trade_ran Toy.toy_crypto Toy.toy_Poseidon SampleServer.web3 SampleServer.base58 SampleServer.nacl SampleServer.foreign_ix ()
    SampleLife.ctx out (SampleTrade.match_for SampleLife.order_key) p noteC leaf usk a b ed settle →
  noteC.(ownerCommitment_) = @ownerCommitment Toy.toy_Poseidon sk ob ∧ 0 < noteC.(amount).
Proof.
  intros Hv Hsk Hob Hr. destruct (life_note _ _ _ _ _ _ _ _ _ _ _ Hr) as [Ho ->]. split; [|reflexivity].
  rewrite (life_order_key _ _ _ Hv Hsk Hob) in Ho. clear -Ho. revert Ho.
  generalize (@poseidon_range _ Toy.toy_poseidon_laws) as Hrange. intros Hrange. unfold ownerCommitment.
  specialize (Hrange [sk; ob]). revert Hrange. generalize (@poseidon Toy.toy_Poseidon [sk; ob]). intros x Hx Ho.
  unfold be32ToBigInt in Ho. rewrite bytesToBigInt_32 in Ho by apply length_be_bytes.
  apply Ok_inj in Ho as <-. by apply be_val_field_bytes.
Qed.

Lemma trade_note_withdrawable_witness : ∃ server request ans w',
  @trade_withdraw_prepare Toy.toy_crypto Toy.toy_Poseidon SampleServer.web3 SampleServer.base58 SampleServer.nacl ()
    server (Ok request) tt = (Ok (Sent ans), w') ∧ ans.(twa_replayInfo).(ri_matchedAs) = "current_root".
Proof.
  destruct SampleLife.life_run as (out & Hrun).
  assert (Hver : ∃ v, @verifyPhantomSeedSignature Toy.toy_crypto SampleServer.base58 SampleServer.nacl SampleServer.signature SampleServer.owner = Ok v)
    by (eexists; vm_compute; reflexivity).
  destruct Hver as [v Hver].
  destruct (@trade_note_withdrawable Toy.toy_crypto Toy.toy_crypto_laws Toy.toy_Poseidon Toy.toy_poseidon_laws SampleServer.web3
    SampleServer.base58 SampleServer.base58_laws SampleServer.nacl SampleServer.foreign_ix () () SampleLife.ctx tt out tt
    SampleServer.programs SampleServer.signature SampleServer.owner v
    ltac:(unfold distinct_discriminators; apply (bool_decide_unpack _); vm_compute; exact I) Hrun Hver
    ltac:(vm_compute; discriminate) ltac:(vm_compute; discriminate) eq_refl)
    as (mr & p & noteC & leaf & usk & a & b & ed & settle & sk & ob & Hr & Hsk & Hob & Hall).
  destruct (SampleLife.settled _ _ _ _ _ _ _ _ _ _ Hr) as [-> [st Hon]].
  destruct (life_owner _ _ _ _ _ _ _ _ _ _ _ _ Hver Hsk Hob Hr) as [Ho Ha].
  destruct (Hall Ho Ha _ _ _ st tt Hon) as (ans & w' & Hans & Hm & _).
  eexists _, _, ans, w'. split; [exact Hans|exact Hm].
Defined.

(** The vault behind such a server is well-formed. *)
Lemma settled_on_wf `{NodeCrypto} `{!NodeCryptoLaws} `{Poseidon} `{!PoseidonLaws} `{Web3} `{Base58} {S'}
    verify_spend verify_wallet (server : DemoServer S') programs settle leafBefore st :
  settled_on verify_spend verify_wallet server programs settle leafBefore st →
  ∃ disc bump l, account_wf disc st.(vs_config) ∧ vault_repr st.(vs_config) l ∧ serves server programs disc bump st.(vs_config).
Proof.
  intros (st1 & ledger1 & sig & tx & ledger2 & disc & bump & Hran1 & _ & _ & Hran2 & _ & Hdisc & Hserve).
  destruct (ledger_reachable verify_spend verify_wallet _ _ _ Hran1) as (st0 & Hi & Hsteps).
  destruct (ledger_ran_leads verify_spend verify_wallet _ _ _ _ Hran2) as (st' & [= <-] & Hsteps2).
  pose proof (steps_types _ _ disc _ _ Hsteps2 (steps_types _ _ disc _ _ Hsteps (initial_types disc _ Hdisc Hi))) as Hwf.
  destruct (steps_inv _ _ _ _ Hsteps (initial_inv _ Hi)) as [Hinv _].
  destruct (steps_inv _ _ _ _ Hsteps2 Hinv) as [[[l Hl] _ _ _] _].
  exists disc, bump, l. split; [exact Hwf|]. split; [exact Hl|]. intros w.
  destruct (Hserve w) as (conns & w1 & w2 & Hset & Hvd & _). by exists conns, w1, w2.
Qed.

Lemma trade_withdraw_sound_witness : ∃ server body ans w' seed matchId (t : CheckedTrade ()),
  @trade_withdraw_prepare Toy.toy_crypto Toy.toy_Poseidon SampleServer.web3 SampleServer.base58 SampleServer.nacl ()
    server (Ok body) tt = (Ok (Sent ans), w') ∧
  @trade_checked Toy.toy_crypto Toy.toy_Poseidon SampleServer.base58 SampleServer.nacl () SampleServer.programs body seed matchId t.
Proof.
  destruct SampleLife.life_run as (out & Hrun).
  assert (Hver : ∃ v, @verifyPhantomSeedSignature Toy.toy_crypto SampleServer.base58 SampleServer.nacl SampleServer.signature SampleServer.owner = Ok v)
    by (eexists; vm_compute; reflexivity).
  destruct Hver as [v Hver].
  destruct (runTradeL1Settle_inv _ _ _ _ Hrun) as (mr & p & noteC & leaf & usk & a & b & ed & settle & Hr).
  destruct (@deriveSpendingKey_total Toy.toy_crypto Toy.toy_crypto_laws v.(vf_seed)) as (sk & Hsk & _).
  destruct (@deriveBlindingFactor_total Toy.toy_crypto v.(vf_seed) 0) as (ob & Hob & _).
  destruct (SampleLife.settled _ _ _ _ _ _ _ _ _ _ Hr) as [-> [st Hon]].
  destruct (life_owner _ _ _ _ _ _ _ _ _ _ _ _ Hver Hsk Hob Hr) as [Ho Ha].
  destruct (@settled_note_runs Toy.toy_crypto Toy.toy_crypto_laws Toy.toy_Poseidon Toy.toy_poseidon_laws SampleServer.web3
    SampleServer.base58 SampleServer.base58_laws SampleServer.nacl SampleServer.foreign_ix () () SampleLife.ctx _
    SampleServer.programs SampleServer.signature SampleServer.owner v out _ _ _ _ _ _ _ _ _ sk ob _ _ st tt
    ltac:(unfold distinct_discriminators; apply (bool_decide_unpack _); vm_compute; exact I) Hr Hver
    ltac:(vm_compute; discriminate) ltac:(vm_compute; discriminate) eq_refl Hsk Hob Ho Ha Hon) as (ans & w' & Hans & _).
  destruct (@settled_on_wf Toy.toy_crypto Toy.toy_crypto_laws Toy.toy_Poseidon Toy.toy_poseidon_laws SampleServer.web3
    SampleServer.base58 () _ _ _ _ _ _ st Hon) as (disc & bump & l & Hwf & Hl & Hserve).
  destruct (@trade_withdraw_sound Toy.toy_crypto Toy.toy_crypto_laws Toy.toy_Poseidon Toy.toy_poseidon_laws SampleServer.web3
    SampleServer.base58 SampleServer.nacl () _ _ disc bump _ l _ _ _ _ Hwf Hl Hserve Hans) as (seed & matchId & t & _ & _ & _ & Ht & _).
  eexists _, _, ans, w', seed, matchId, t. split; [exact Hans|exact Ht].
Defined.
