(* ===== verification/DappSession.v ===== *)
(** The page's side of the demo: the session in the browser's storage
    ([apps/demo/src/lib/dapp/dapp-session.ts]), the forwarder that sends
    transactions through the wallet ([apps/demo/src/lib/dapp/phantom-forwarder.ts]),
    and the answers of the server as the page sees them.  The theorems say which
    session a page reads back, and that what the forwarder reports as sent is the
    given instructions, simulated, signed by the wallet and confirmed. *)

From Stdlib Require Import Ascii.
From S2P Require Import Prelude Bytes Errors Externals Borsh VaultClient Client Session Decimals DemoText JsonText.
From S2P Require Import DemoKeys DemoChain Routes WalletRoutes TradeSettle OrderRoutes ServerKeys LiveFlow Identity TradeWithdraw.
From S2P Require Import LeafHistory Keys Note Merkle.

Local Open Scope Z_scope.

(** ** [dapp-session.ts] *)

(** [sessionStorage] *)
Record Storage (W : Type) := {
  sg_getItem : string → M W (option string);
  sg_setItem : string → string → M W ();
  sg_removeItem : string → M W ();
}.
Arguments sg_getItem {W}.
Arguments sg_setItem {W}.
Arguments sg_removeItem {W}.

Definition NYX_DAPP_SESSION_KEY : string := "nyx_dapp_session_v1".

(** The session as the page uses it: each field a text, or missing. *)
Record SessionPublicData := {
  sp_userCommitmentHex : option string; sp_ownerCommitmentHex : option string; sp_ownerCommitmentDecimal : option string;
  sp_rootKeyPubkeyBase58 : option string }.
Record DappSessionV1 := {
  ss_phantomSignatureBase58 : option string; ss_ownerPubkeyBase58 : option string; ss_tradingSecretKeyBase58 : option string;
  ss_publicData : option SessionPublicData; ss_proof : option RegisterProof }.

Definition session_of (j : Json) : DappSessionV1 :=
  {| ss_phantomSignatureBase58 := jtext "phantomSignatureBase58" j; ss_ownerPubkeyBase58 := jtext "ownerPubkeyBase58" j;
     ss_tradingSecretKeyBase58 := jtext "tradingSecretKeyBase58" j;
     ss_publicData := p ← jfield "publicData" j;
       Some {| sp_userCommitmentHex := jtext "userCommitmentHex" p; sp_ownerCommitmentHex := jtext "ownerCommitmentHex" p;
               sp_ownerCommitmentDecimal := jtext "ownerCommitmentDecimal" p;
               sp_rootKeyPubkeyBase58 := jtext "rootKeyPubkeyBase58" p |};
     ss_proof := p ← jfield "proof" j;
       Some {| rp_piAHex := jtext "piAHex" p; rp_piBHex := jtext "piBHex" p; rp_piCHex := jtext "piCHex" p |} |}.

(** [null], [undefined] and the like are no session. *)
Definition json_truthy (j : Json) : bool :=
  match j with
  | JNull => false | JBool b => b | JNum n => negb (n =? 0) | JStr s => negb (bool_decide (s = "")) | _ => true
  end.

Definition parse_session (raw : option string) : option DappSessionV1 :=
  text ← truthy raw; j ← JSON_read text; if json_truthy j then Some (session_of j) else None.

Section session.
Context {W : Type} (storage : Storage W).

Definition readDappSession : M W (option DappSessionV1) :=
  try_catch (raw ← storage.(sg_getItem) NYX_DAPP_SESSION_KEY; mret (parse_session raw)) (λ _, mret None).

Definition session_owned (owner : string) (session : option DappSessionV1) : option DappSessionV1 :=
  s ← session; if bool_decide (s.(ss_ownerPubkeyBase58) = Some owner) then Some s else None.

Definition readDappSessionForOwner (ownerPubkeyBase58 : option string) : M W (option DappSessionV1) :=
  match truthy ownerPubkeyBase58 with
  | None => mret None
  | Some owner => session ← readDappSession; mret (session_owned owner session)
  end.
End session.

(** ** [phantom-forwarder.ts] *)

Record Transaction := { tr_feePayer : option PublicKey; tr_recentBlockhash : option string; tr_instructions : list TransactionInstruction }.
Record Simulation := { sim_err : option Json; sim_logs : option (list string) }.

Record PageConnection (W : Type) := {
  pc_getLatestBlockhash : M W (string * Z);
  pc_simulateTransaction : Transaction → M W Simulation;
  pc_confirmTransaction : string → string → Z → M W ();   (** signature, blockhash, last valid height *)
  pc_sendRawTransaction : Transaction → list Keypair → M W string;   (** serialized, with the signatures of these keys *)
}.
Arguments pc_getLatestBlockhash {W}.
Arguments pc_simulateTransaction {W}.
Arguments pc_confirmTransaction {W}.
Arguments pc_sendRawTransaction {W}.

(** The wallet; methods it lacks are absent. *)
Record Wallet (W : Type) := {
  wl_publicKey : option PublicKey;
  wl_sendTransaction : option (Transaction → list Keypair → M W string);
  wl_signMessage : option (bytes → M W bytes);
}.
Arguments wl_publicKey {W}.
Arguments wl_sendTransaction {W}.
Arguments wl_signMessage {W}.

(** What an error of the wallet tells: its message, and of the error inside a
    [WalletSendTransactionError] its detail and logs ([SendTransactionError]). *)
Class WalletErrors := {
  outer_message : exn → string;
  inner_detail : exn → option string;
  inner_logs : exn → option (list string);
}.

Definition BULLET_LINES : list string :=
  ["No program logs available — Phantom rejected before submitting."; "Common causes:";
   "• Phantom is on a different cluster than the app (must be devnet)."; "• Wallet has no SOL to pay fees / ATA rent.";
   "• You haven't run the airdrop step, so your token ATA has 0 balance."].

Definition newline : string := String NEWLINE "".
Definition blank_line : string := newline +:+ newline.

(** [l.filter(Boolean)] on texts. *)
Definition nonempty_texts (l : list string) : list string := filter (λ s, s ≠ "") l.

Definition PREFLIGHT : string := "Pre-flight simulation failed".

Section forwarder.
Context {W : Type} `{WalletErrors} (wallet : Wallet W) (connection : PageConnection W).

Definition compileUnsignedV0 (tx : Transaction) : res Transaction :=
  match tx.(tr_feePayer), tx.(tr_recentBlockhash) with
  | None, _ => Throw (Error "compileUnsignedV0: tx.feePayer missing")
  | _, None => Throw (Error "compileUnsignedV0: recentBlockhash missing")
  | Some _, Some _ => Ok tx
  end.

Definition simulate (tx : Transaction) : M W Simulation := vtx ← liftR (compileUnsignedV0 tx); connection.(pc_simulateTransaction) vtx.

(** The logs and the detail of a failure, simulated again when the wallet gave no
    logs. *)
Definition failure_report (err : exn) (tx : Transaction) : M W (option string * option (list string)) :=
  let detail := inner_detail err in
  match inner_logs err with
  | Some (l :: ls) => mret (detail, Some (l :: ls))
  | logs =>
      try_catch
        (sim ← simulate tx;
         mret (match truthy detail, sim.(sim_err) with
               | None, Some e => Some ("simulateTransaction err: " +:+ JSON_compact e)
               | _, _ => detail
               end, sim.(sim_logs)))
        (λ _, mret (detail, logs))
  end.

Definition failure_parts (outer : string) (detail : option string) (logs : option (list string)) : list string :=
  [match truthy (Some outer) with Some m => m | None => "Wallet rejected or failed to send the transaction." end]
  ++ match truthy detail with Some d => if bool_decide (d = outer) then [] else [d] | None => [] end
  ++ match logs with
     | Some (l :: ls) =>
         match nonempty_texts (l :: ls) with [] => [] | lines => ["--- program logs ---" +:+ newline +:+ String.concat newline lines] end
     | _ => [String.concat newline BULLET_LINES]
     end.

Definition formatWalletSendFailure (err : exn) (tx : Transaction) : M W string :=
  '(detail, logs) ← failure_report err tx;
  mret (String.concat blank_line (failure_parts (outer_message err) detail logs)).

Definition preflight_error (e : Json) (logs : option (list string)) : exn :=
  let lines := nonempty_texts (default [] logs) in
  Error (String.concat blank_line (nonempty_texts
    ["Pre-flight simulation failed before asking the wallet to sign."; "err: " +:+ JSON_compact e;
     match lines with [] => "" | _ => "--- program logs ---" +:+ newline +:+ String.concat newline lines end])).

Definition preflight (tx : Transaction) : M W () :=
  try_catch
    (sim ← simulate tx;
     match sim.(sim_err) with Some e => throw (preflight_error e sim.(sim_logs)) | None => mret () end)
    (λ e, if startsWith PREFLIGHT (exn_message e) then throw e else mret ()).

(** [toTransaction] of a list of instructions. *)
Definition toTransaction (ixs : list TransactionInstruction) : Transaction :=
  {| tr_feePayer := None; tr_recentBlockhash := None; tr_instructions := ixs |}.

(** [sendAndConfirm(ixs, signers)]; the fee payer of a fresh transaction is the
    wallet. *)
Definition sendAndConfirm (ixs : list TransactionInstruction) (signers : list Keypair) : M W string :=
  match wallet.(wl_publicKey), wallet.(wl_sendTransaction) with
  | None, _ => throw (Error "PhantomTransactionForwarder: wallet is not connected")
  | Some _, None => throw (Error "PhantomTransactionForwarder: connected wallet does not implement sendTransaction")
  | Some publicKey, Some sendTransaction =>
      '(blockhash, _) ← connection.(pc_getLatestBlockhash);
      let tx := {| tr_feePayer := Some publicKey; tr_recentBlockhash := Some blockhash;
                   tr_instructions := (toTransaction ixs).(tr_instructions) |} in
      _ ← preflight tx;
      signature ← try_catch (sendTransaction tx signers) (λ e, msg ← formatWalletSendFailure e tx; throw (Error msg));
      '(latestHash, latestHeight) ← connection.(pc_getLatestBlockhash);
      _ ← connection.(pc_confirmTransaction) signature latestHash latestHeight;
      mret signature
  end.
End forwarder.

(** ** Answers of the server *)

(** A response and its body: [res.ok], [res.status], [json.ok], [json.error] and the
    fields the page asks for, when all of them are there. *)
Record Reply (A : Type) := {
  re_ok : bool; re_status : Z; re_json_ok : bool; re_error : option string; re_data : option A }.
Arguments re_ok {A}.
Arguments re_status {A}.
Arguments re_json_ok {A}.
Arguments re_error {A}.
Arguments re_data {A}.

(** [if (!res.ok || !json.ok || !json.field) throw new Error(json.error ?? `HTTP ${res.status}`)] *)
Definition reply_failure {A} (r : Reply A) : exn := Error (default ("HTTP " +:+ bigint_string r.(re_status)) r.(re_error)).
Definition required {A} (r : Reply A) : res A :=
  match r.(re_data) with
  | Some a => if r.(re_ok) && r.(re_json_ok) then Ok a else Throw (reply_failure r)
  | None => Throw (reply_failure r)
  end.

(** How a handler's answer arrives. *)
Definition reply_of {A} (a : Answer A) : Reply A :=
  match a with
  | Sent a => {| re_ok := true; re_status := 200; re_json_ok := true; re_error := None; re_data := Some a |}
  | Refused status error _ => {| re_ok := false; re_status := status; re_json_ok := false; re_error := Some error; re_data := None |}
  end.

(** ** The page

    [useDappContext()], the browser's clock ([performance.now()] in microseconds)
    and randomness, the slot the L1 node reports, and the requests the panels make ([fetch] of a path under
    [/api/dapp/] with a JSON body, and [res.json()]); any of them may fail. *)
Record MintBalance := { mi_ata : string; mi_exists : bool; mi_amount : string; mi_mintBase58 : string; mi_decimals : nat }.
Record BalancesResponse := {
  bs_ok : bool; bs_error : option string; bs_base : option MintBalance; bs_quote : option MintBalance }.

Record Page (W : Type) := {
  pg_storage : Storage W; pg_wallet : Wallet W; pg_connection : PageConnection W; pg_prover : IDarkPoolZkProverSuite W;
  pg_now : M W Z; pg_micros : M W Z; pg_random16 : M W bytes; pg_slot : M W Z;
  pg_derive_identity : DeriveIdentityRequest → M W (Reply IdentityAnswer);
  pg_airdrop : AirdropBody → M W (Reply AirdropAnswer);
  pg_balances : string → M W BalancesResponse;
  pg_private_deposit : DepositBody → M W (Reply PrivateDepositAnswer);
  pg_deposit_prepare : DepositBody → M W (Reply DepositPrepareAnswer);
  pg_withdraw_prepare : WithdrawPrepareBody → M W (Reply SpendAnswer);
  pg_trade_withdraw_prepare : TradeWithdrawBody → M W (Reply TradeWithdrawAnswer);
  pg_withdraw_finalize : WithdrawFinalizeBody → M W (Reply WithdrawFinalizeAnswer);
  pg_register_wallet : RegisterBody → M W (Reply RegisterAnswer);
  pg_init_slot : InitSlotBody → M W (Reply InitSlotAnswer);
  pg_build_submit_order : SubmitBody → M W (Reply SubmitAnswer);
  pg_counter_and_match : MatchBody → M W (Reply MatchAnswer);
  pg_er : PageConnection W;   (** the rollup's node *)
}.
Arguments pg_storage {W}.
Arguments pg_wallet {W}.
Arguments pg_connection {W}.
Arguments pg_prover {W}.
Arguments pg_now {W}.
Arguments pg_micros {W}.
Arguments pg_random16 {W}.
Arguments pg_slot {W}.
Arguments pg_derive_identity {W}.
Arguments pg_airdrop {W}.
Arguments pg_balances {W}.
Arguments pg_private_deposit {W}.
Arguments pg_deposit_prepare {W}.
Arguments pg_withdraw_prepare {W}.
Arguments pg_trade_withdraw_prepare {W}.
Arguments pg_withdraw_finalize {W}.
Arguments pg_register_wallet {W}.
Arguments pg_init_slot {W}.
Arguments pg_build_submit_order {W}.
Arguments pg_counter_and_match {W}.
Arguments pg_er {W}.

(** [wallet.publicKey?.toBase58() ?? null] *)
Definition connectedOwner `{Web3} {W} (page : Page W) : option string := toBase58 <$> page.(pg_wallet).(wl_publicKey).
Definition page_session `{Web3} {W} (page : Page W) : M W (option DappSessionV1) :=
  readDappSessionForOwner page.(pg_storage) (connectedOwner page).
Definition forward `{WalletErrors} {W} (page : Page W) (ixs : list TransactionInstruction) : M W string :=
  sendAndConfirm page.(pg_wallet) page.(pg_connection) ixs [].

(** ** What is read back, and what was sent *)

Definition text_member (k : string) (v : option string) : list (string * Json) := member_of JStr k v.

(** The object the identity panel stores. *)
Definition session_json (s : DappSessionV1) : Json :=
  JObj (text_member "phantomSignatureBase58" s.(ss_phantomSignatureBase58) ++ text_member "ownerPubkeyBase58" s.(ss_ownerPubkeyBase58)
        ++ text_member "tradingSecretKeyBase58" s.(ss_tradingSecretKeyBase58)
        ++ member_of (λ p, JObj (text_member "userCommitmentHex" p.(sp_userCommitmentHex)
                                 ++ text_member "ownerCommitmentHex" p.(sp_ownerCommitmentHex)
                                 ++ text_member "ownerCommitmentDecimal" p.(sp_ownerCommitmentDecimal)
                                 ++ text_member "rootKeyPubkeyBase58" p.(sp_rootKeyPubkeyBase58))) "publicData" s.(ss_publicData)
        ++ member_of (λ p, JObj (text_member "piAHex" p.(rp_piAHex) ++ text_member "piBHex" p.(rp_piBHex)
                                 ++ text_member "piCHex" p.(rp_piCHex))) "proof" s.(ss_proof)).

Lemma session_of_json s : session_of (session_json s) = s.
Proof.
  destruct s as [[] [] [] [[[] [] [] []]|] [[[] [] []]|]]; reflexivity.
Qed.

Lemma writable_texts l : Forall (λ kv, ∃ s, kv.2 = JStr s) l → Forall (λ kv : string * Json, writable kv.2) l.
Proof. intros Hl. eapply Forall_impl; [exact Hl|]. intros [k v] [s E]. cbn in *. subst v. constructor. Qed.

Lemma text_member_texts k v : Forall (λ kv, ∃ s, kv.2 = JStr s) (text_member k v).
Proof. destruct v; repeat constructor. by eexists. Qed.

Lemma writable_session s : writable (session_json s).
Proof.
  destruct s as [a b c p q]. unfold session_json. cbn [ss_phantomSignatureBase58 ss_ownerPubkeyBase58 ss_tradingSecretKeyBase58
    ss_publicData ss_proof]. apply writable_obj. rewrite !Forall_app.
  do 3 (split; [apply writable_texts, text_member_texts|]). split.
  - destruct p as [p|]; [|apply Forall_nil_2]. apply Forall_cons_2; [|apply Forall_nil_2]. cbn [snd]. apply writable_obj, writable_texts.
    rewrite !Forall_app. split_and!; apply text_member_texts.
  - destruct q as [q|]; [|apply Forall_nil_2]. apply Forall_cons_2; [|apply Forall_nil_2]. cbn [snd]. apply writable_obj, writable_texts.
    rewrite !Forall_app. split_and!; apply text_member_texts.
Qed.

Lemma parse_written s : parse_session (Some (JSON_compact (session_json s))) = Some s.
Proof.
  unfold parse_session. assert (E : truthy (Some (JSON_compact (session_json s))) = Some (JSON_compact (session_json s))).
  { unfold JSON_compact, session_json. cbn [stringify]. by destruct (_ ++ _). }
  rewrite E. cbn [mbind option_bind]. rewrite compact_roundtrip by apply writable_session. cbn [mbind option_bind json_truthy].
  by rewrite session_of_json.
Qed.

(** A stored session is the session of its owner and of nobody else. *)
Lemma session_for_owner {W} (storage : Storage W) s owner w w' :
  storage.(sg_getItem) NYX_DAPP_SESSION_KEY w = (Ok (Some (JSON_compact (session_json s))), w') → owner ≠ "" →
  readDappSessionForOwner storage (Some owner) w
  = (Ok (if bool_decide (s.(ss_ownerPubkeyBase58) = Some owner) then Some s else None), w').
Proof.
  intros Hg Ho. unfold readDappSessionForOwner. destruct owner as [|c owner]; [done|]. cbn [truthy].
  assert (Hr : readDappSession storage w = (Ok (Some s), w')).
  { unfold readDappSession, try_catch. erewrite M_bind_run by exact Hg. unfold mret, M_ret. by rewrite parse_written. }
  rewrite (M_bind_run _ _ _ _ _ Hr). reflexivity.
Qed.

(** Storage that fails, or holds no JSON, is no session. *)
Lemma session_absent {W} (storage : Storage W) w :
  (∀ text w', storage.(sg_getItem) NYX_DAPP_SESSION_KEY w = (Ok (Some text), w') → JSON_read text = None) →
  ∃ w', readDappSession storage w = (Ok None, w').
Proof.
  intros Hn. unfold readDappSession, try_catch. unfold mbind, M_bind.
  destruct (storage.(sg_getItem) NYX_DAPP_SESSION_KEY w) as [[[text|]|e] w'] eqn:E; [|by exists w'|by exists w'].
  exists w'. unfold mret, M_ret, parse_session. destruct text as [|c t]; [done|]. cbn [truthy mbind option_bind].
  by rewrite (Hn _ _ eq_refl).
Qed.

Section forwarder_lemmas.
Context {W : Type} `{WalletErrors} (wallet : Wallet W) (connection : PageConnection W).

(** What the forwarder reports as sent. *)
Record forwarded (ixs : list TransactionInstruction) (signers : list Keypair) (signature : string) : Prop := {
  fo_wallet : ∃ key send blockhash w w', wallet.(wl_publicKey) = Some key ∧ wallet.(wl_sendTransaction) = Some send ∧
    send {| tr_feePayer := Some key; tr_recentBlockhash := Some blockhash; tr_instructions := ixs |} signers w = (Ok signature, w');
  fo_confirmed : ∃ hash height w u w', connection.(pc_confirmTransaction) signature hash height w = (Ok u, w') }.

Lemma sendAndConfirm_Ok ixs signers w sig w' :
  sendAndConfirm wallet connection ixs signers w = (Ok sig, w') → forwarded ixs signers sig.
Proof.
  unfold sendAndConfirm. destruct (wl_publicKey wallet) as [key|] eqn:Hk; [|discriminate].
  destruct (wl_sendTransaction wallet) as [send|] eqn:Hs; [|discriminate]. intros Hr.
  apply M_bind_Ok in Hr as ([hash h] & w1 & _ & Hr). cbv zeta in Hr. apply M_bind_Ok in Hr as (u & w2 & _ & Hr).
  apply M_bind_Ok in Hr as (s & w3 & Hsend & Hr). apply M_bind_Ok in Hr as ([hash2 h2] & w4 & _ & Hr).
  apply M_bind_Ok in Hr as (u2 & w5 & Hc & Hr). injection Hr as <- <-. split; [|by exists hash2, h2, w4, u2, w5].
  exists key, send, hash, w2, w3. split; [exact Hk|]. split; [exact Hs|]. unfold try_catch in Hsend. cbn [toTransaction tr_instructions] in Hsend.
  destruct (send _ signers w2) as [[s'|e] v]; [exact Hsend|].
  apply M_bind_Ok in Hsend as (msg & v' & _ & Hsend). discriminate Hsend.
Qed.

(** The wallet is not asked to sign what the simulation says will fail. *)
Lemma preflight_refuses ixs signers key send hash height w w1 w2 e logs :
  wallet.(wl_publicKey) = Some key → wallet.(wl_sendTransaction) = Some send →
  connection.(pc_getLatestBlockhash) w = (Ok (hash, height), w1) →
  connection.(pc_simulateTransaction) {| tr_feePayer := Some key; tr_recentBlockhash := Some hash; tr_instructions := ixs |} w1
    = (Ok {| sim_err := Some e; sim_logs := logs |}, w2) →
  sendAndConfirm wallet connection ixs signers w = (Throw (preflight_error e logs), w2).
Proof.
  intros Hk Hs Hb Hsim. unfold sendAndConfirm. rewrite Hk, Hs, (M_bind_run _ _ _ _ _ Hb). cbv beta iota zeta.
  apply M_bind_throw. unfold preflight, try_catch, simulate. cbn [compileUnsignedV0 tr_feePayer tr_recentBlockhash toTransaction tr_instructions].
  unfold mbind, M_bind, liftR. rewrite Hsim. cbn [sim_err sim_logs throw].
  assert (Hp : startsWith PREFLIGHT (exn_message (preflight_error e logs)) = true) by reflexivity.
  unfold throw at 1. by rewrite Hp.
Qed.
End forwarder_lemmas.
