(* ===== verification/PrivatePanel.v ===== *)
(** The panel for a private deposit and its withdrawal
    ([apps/demo/src/components/dapp/private-deposit-withdraw-panel.tsx]): its React
    state, its handlers, the button and the reset.  The theorem composes the panel
    with the server's handlers and the vault: what the panel deposits it can
    withdraw. *)

From Stdlib Require Import Ascii.
From stdpp Require Import gmap.
From S2P Require Import Prelude Bytes Errors Externals Keys Note Borsh VaultClient VaultProgram Settlement SettleProgram Merkle MerkleShadow.
From S2P Require Import VaultTree Client Deposit VaultState Withdraw Session DecimalText LeafHistory Decimals DemoText JsonText DemoKeys.
From S2P Require Import DemoChain AccountTypes Routes WalletRoutes OrderRoutes ServerKeys LiveFlow Identity DappSession.

Local Open Scope Z_scope.

(** ** The state *)

Inductive PanelStep := panel_idle | panel_deposited | panel_proving | panel_withdrawn.

Record PrivatePanel := {
  pp_step : PanelStep; pp_busy : bool; pp_error : option string; pp_side : string; pp_amount : string;
  pp_tracking : option DepositTracking; pp_receipt : list (string * string); pp_proverMs : option Z;
  pp_balances : option BalancesResponse }.

Definition set_step (x : PanelStep) (p : PrivatePanel) : PrivatePanel :=
  {| pp_step := x; pp_busy := p.(pp_busy); pp_error := p.(pp_error); pp_side := p.(pp_side); pp_amount := p.(pp_amount);
     pp_tracking := p.(pp_tracking); pp_receipt := p.(pp_receipt); pp_proverMs := p.(pp_proverMs); pp_balances := p.(pp_balances) |}.
Definition set_busy (x : bool) (p : PrivatePanel) : PrivatePanel :=
  {| pp_step := p.(pp_step); pp_busy := x; pp_error := p.(pp_error); pp_side := p.(pp_side); pp_amount := p.(pp_amount);
     pp_tracking := p.(pp_tracking); pp_receipt := p.(pp_receipt); pp_proverMs := p.(pp_proverMs); pp_balances := p.(pp_balances) |}.
Definition set_error (x : option string) (p : PrivatePanel) : PrivatePanel :=
  {| pp_step := p.(pp_step); pp_busy := p.(pp_busy); pp_error := x; pp_side := p.(pp_side); pp_amount := p.(pp_amount);
     pp_tracking := p.(pp_tracking); pp_receipt := p.(pp_receipt); pp_proverMs := p.(pp_proverMs); pp_balances := p.(pp_balances) |}.
Definition set_tracking (x : option DepositTracking) (p : PrivatePanel) : PrivatePanel :=
  {| pp_step := p.(pp_step); pp_busy := p.(pp_busy); pp_error := p.(pp_error); pp_side := p.(pp_side); pp_amount := p.(pp_amount);
     pp_tracking := x; pp_receipt := p.(pp_receipt); pp_proverMs := p.(pp_proverMs); pp_balances := p.(pp_balances) |}.
Definition set_receipt (x : list (string * string)) (p : PrivatePanel) : PrivatePanel :=
  {| pp_step := p.(pp_step); pp_busy := p.(pp_busy); pp_error := p.(pp_error); pp_side := p.(pp_side); pp_amount := p.(pp_amount);
     pp_tracking := p.(pp_tracking); pp_receipt := x; pp_proverMs := p.(pp_proverMs); pp_balances := p.(pp_balances) |}.
Definition set_proverMs (x : option Z) (p : PrivatePanel) : PrivatePanel :=
  {| pp_step := p.(pp_step); pp_busy := p.(pp_busy); pp_error := p.(pp_error); pp_side := p.(pp_side); pp_amount := p.(pp_amount);
     pp_tracking := p.(pp_tracking); pp_receipt := p.(pp_receipt); pp_proverMs := x; pp_balances := p.(pp_balances) |}.
Definition set_balances (x : option BalancesResponse) (p : PrivatePanel) : PrivatePanel :=
  {| pp_step := p.(pp_step); pp_busy := p.(pp_busy); pp_error := p.(pp_error); pp_side := p.(pp_side); pp_amount := p.(pp_amount);
     pp_tracking := p.(pp_tracking); pp_receipt := p.(pp_receipt); pp_proverMs := p.(pp_proverMs); pp_balances := x |}.

(** A call of a state setter. *)
Definition setting {P W} (f : P → P) : M (P * W) () := λ w, (Ok (), (f w.1, w.2)).

(** [Math.round] of a duration in microseconds, in milliseconds. *)
Definition rounded_ms (start stop : Z) : Z := (stop - start + 500) / 1000.

(** [/needle/i.test(s)] of a plain needle in lower case. *)
Fixpoint mentions (needle s : string) : bool :=
  startsWith needle (toLowerCase s) || match s with "" => false | String _ s => mentions needle s end.

(** [s.toUpperCase()] of the two sides. *)
Definition side_upper (side : string) : string := if bool_decide (side = "base") then "BASE" else "QUOTE".

Section panel.
Context `{NodeCrypto} `{Poseidon} `{Web3} `{Base58} `{WalletErrors} {W : Type} (page : Page W).
Implicit Types p : PrivatePanel.

(** [balances?.[side]], its amount and its decimals. *)
Definition side_balance p (side : string) : option MintBalance :=
  b ← p.(pp_balances); if bool_decide (side = "base") then b.(bs_base) else b.(bs_quote).
Definition balanceForSide p (side : string) : option Z := b ← side_balance p side; StringToBigInt b.(mi_amount).
Definition decimalsForSide p (side : string) : option nat := mi_decimals <$> side_balance p side.

(** An answer whose request is started at the end of a handler. *)
Definition fetchBalances (owner : string) : M (PrivatePanel * W) () :=
  b ← outside (try_catch (page.(pg_balances) owner)
                 (λ e, mret {| bs_ok := false; bs_error := Some (exn_message e); bs_base := None; bs_quote := None |}));
  setting (set_balances (Some b)).

(** [toAtoms], its error thrown again by message. *)
Definition atoms_of (amount : string) (decimals : nat) : res Z :=
  match toAtoms (HString amount) decimals with Ok a => Ok a | Throw e => Throw (Error (exn_message e)) end.

(** The amount to deposit, checked against the balance that is known. *)
Definition wanted_atoms p : res Z :=
  match decimalsForSide p p.(pp_side) with
  | None => Throw (Error "Token decimals not loaded yet — hit Refresh and try again.")
  | Some dec =>
      wantAtoms ← atoms_of p.(pp_amount) dec;
      _ ← throw_if (wantAtoms <=? 0) (Error "Amount must be > 0.");
      match balanceForSide p p.(pp_side) with
      | Some have =>
          _ ← throw_if (have <? wantAtoms)
            (Error ("Amount " +:+ p.(pp_amount) +:+ " " +:+ side_upper p.(pp_side) +:+ " (" +:+ bigint_string wantAtoms
                    +:+ " atoms) exceeds your balance " +:+ formatAtoms have dec +:+ " (" +:+ bigint_string have
                    +:+ " atoms). Lower the amount, or hit Refresh to retry the auto-airdrop."));
          Ok wantAtoms
      | None => Ok wantAtoms
      end
  end.

Definition deposit_request (s : DappSessionV1) p (wantAtoms now : Z) : DepositBody :=
  {| db_phantomSignatureBase58 := s.(ss_phantomSignatureBase58); db_ownerPubkeyBase58 := s.(ss_ownerPubkeyBase58);
     db_side := Some p.(pp_side); db_amount := Some (bigint_string wantAtoms); db_nonce := Some (bigint_string (now + 7777)) |}.

(** [p] is the state the handler was rendered with. *)
Definition runDeposit p : M (PrivatePanel * W) () :=
  session ← outside (page_session page);
  match session with
  | None => throw (Error "Complete the identity step above first.")
  | Some s =>
      wantAtoms ← liftR (wanted_atoms p);
      _ ← setting (set_busy true);
      _ ← setting (set_error None);
      now ← outside page.(pg_now);
      reply ← outside (page.(pg_private_deposit) (deposit_request s p wantAtoms now));
      json ← liftR (required reply);
      _ ← guard_throw (bool_decide (json.(pda_instructions) = [])) (reply_failure reply);
      ixs ← liftR (mapM instructionFromJson json.(pda_instructions));
      sig ← outside (forward page ixs);
      _ ← setting (λ q, set_receipt (q.(pp_receipt) ++ [("private deposit (" +:+ p.(pp_side) +:+ ")", sig)]) q);
      _ ← setting (set_tracking (Some json.(pda_tracking)));
      _ ← setting (set_step panel_deposited);
      setting (set_busy false)
  end.

(** [BigInt] of every text. *)
Definition prover_inputs (t : SpendProverInputs) : res SpendInputs :=
  match read_inputs t with Some i => Ok i | None => Throw (EError "SyntaxError" "Cannot convert to a BigInt") end.

Definition withdraw_request (s : DappSessionV1) (t : DepositTracking) : WithdrawPrepareBody :=
  {| wb_phantomSignatureBase58 := s.(ss_phantomSignatureBase58); wb_ownerPubkeyBase58 := s.(ss_ownerPubkeyBase58);
     wb_tokenMintBase58 := Some t.(dt_tokenMintBase58); wb_amount := Some t.(dt_amount); wb_nonce := Some t.(dt_nonce);
     wb_blindingR := Some t.(dt_blindingR); wb_leafIndex := Some t.(dt_leafIndex);
     wb_priorRightPathHex := Some t.(dt_priorRightPathHex) |}.

Definition finalize_request (s : DappSessionV1) (tokenMint amount : string) (c : IxContext) (proof : Groth16ProofBytes) : WithdrawFinalizeBody :=
  {| fb_phantomSignatureBase58 := s.(ss_phantomSignatureBase58); fb_ownerPubkeyBase58 := s.(ss_ownerPubkeyBase58);
     fb_tokenMintBase58 := Some tokenMint; fb_amount := Some amount; fb_commitmentHex := Some c.(ic_commitmentHex);
     fb_nullifierHex := Some c.(ic_nullifierHex); fb_merkleRootHex := Some c.(ic_merkleRootHex);
     fb_proof := Some {| fp_piA := Some (toHex proof.(pb_piA)); fp_piB := Some (toHex proof.(pb_piB));
                         fp_piC := Some (toHex proof.(pb_piC)) |} |}.

(** From the answer with the prover's inputs to the confirmed transaction, as both
    withdraw panels do it. *)
Definition prove_and_send {P} (setMs : Z → P → P) (s : DappSessionV1) (tokenMint amount : string) (prepJson : SpendAnswer)
    : M (P * W) string :=
  start ← outside page.(pg_micros);
  inputs ← liftR (prover_inputs prepJson.(sa_proverInputs));
  proof ← outside (page.(pg_prover).(spend_prove) inputs);
  stop ← outside page.(pg_micros);
  _ ← setting (setMs (rounded_ms start stop));
  fin ← outside (page.(pg_withdraw_finalize) (finalize_request s tokenMint amount prepJson.(sa_ixContext) proof));
  finJson ← liftR (required fin);
  ix ← liftR (instructionFromJson finJson.(fa_instruction));
  outside (forward page [ix]).

Definition runWithdraw p : M (PrivatePanel * W) () :=
  session ← outside (page_session page);
  match session, p.(pp_tracking) with
  | None, _ => throw (Error "Session expired — re-derive your identity above.")
  | Some _, None => throw (Error "Run the deposit step first.")
  | Some s, Some tracking =>
      _ ← setting (set_busy true);
      _ ← setting (set_error None);
      prep ← outside (page.(pg_withdraw_prepare) (withdraw_request s tracking));
      prepJson ← liftR (required prep);
      _ ← setting (set_step panel_proving);
      sig ← prove_and_send (λ ms, set_proverMs (Some ms)) s tracking.(dt_tokenMintBase58) tracking.(dt_amount) prepJson;
      _ ← setting (λ q, set_receipt (q.(pp_receipt) ++ [("withdraw via VALID_SPEND (" +:+ p.(pp_side) +:+ ")", sig)]) q);
      _ ← setting (set_step panel_withdrawn);
      setting (set_busy false)
  end.

Definition failure_text (e : exn) : string :=
  let msg := exn_message e in
  if mentions "insufficient funds" msg then
    msg +:+ String.concat newline
      [""; "This is your wallet's plain SPL balance — not your shielded pool balance.";
       "Lower the amount, or hit Re-derive in the identity panel to top up demo BASE/QUOTE."]
  else msg.

(** The request for the balances it starts ends later. *)
Definition refresh : M (PrivatePanel * W) () :=
  session ← outside (page_session page);
  match session with Some _ => mret () | None => setting (set_balances None) end.

(** The button, for a panel rendered as [p]. *)
Definition onClick p : M (PrivatePanel * W) () :=
  try_catch
    (_ ← refresh;
     session ← outside (page_session page);
     match session with
     | None => mret ()
     | Some _ =>
         match p.(pp_step) with
         | panel_idle => runDeposit p
         | panel_deposited => runWithdraw p
         | _ => mret ()
         end
     end)
    (λ e, _ ← setting (set_error (Some (failure_text e))); setting (set_busy false)).

Definition button_disabled p : bool :=
  p.(pp_busy) || match p.(pp_step) with panel_withdrawn | panel_proving => true | _ => false end.
Definition fields_disabled p : bool := match p.(pp_step) with panel_idle => false | _ => true end.

Definition reset p : PrivatePanel :=
  set_proverMs None (set_error None (set_receipt [] (set_step panel_idle (set_tracking None p)))).
End panel.

(** ** Events

    One event after the other: the button runs its handler to the end, with the
    state it was rendered with. *)
Section events.
Context `{NodeCrypto} `{Poseidon} `{Web3} `{Base58} `{WalletErrors} {W : Type} (page : Page W).

Definition edited (side amount : string) (p : PrivatePanel) : PrivatePanel :=
  {| pp_step := p.(pp_step); pp_busy := p.(pp_busy); pp_error := p.(pp_error); pp_side := side; pp_amount := amount;
     pp_tracking := p.(pp_tracking); pp_receipt := p.(pp_receipt); pp_proverMs := p.(pp_proverMs); pp_balances := p.(pp_balances) |}.

Inductive panel_step : PrivatePanel * W → PrivatePanel * W → Prop :=
  | ev_click p w r w' : button_disabled p = false → onClick page p (p, w) = (r, w') → panel_step (p, w) w'
  | ev_edit p w side amount : fields_disabled p = false → panel_step (p, w) (edited side amount p, w)
  | ev_balances p w owner r w' : fetchBalances page owner (p, w) = (r, w') → panel_step (p, w) w'
  | ev_world p w w' : panel_step (p, w) (p, w').

(** And the reset. *)
Inductive panel_event : PrivatePanel * W → PrivatePanel * W → Prop :=
  | ev_step c c' : panel_step c c' → panel_event c c'
  | ev_reset p w : panel_event (p, w) (reset p, w).
End events.

(** ** Lemmas: what a handler that finished did *)

Lemma setting_Ok {P W} (f : P → P) (w : P * W) a w' : setting f w = (Ok a, w') → w' = (f w.1, w.2).
Proof. by intros [= _ <-]. Qed.

Lemma required_Ok {A} (r : Reply A) a : required r = Ok a → r.(re_data) = Some a.
Proof. unfold required. destruct (re_data r) as [b|]; [|done]. destruct (_ && _); [|done]. by intros [= ->]. Qed.

Lemma reply_sent {A} (r : Answer A) a : required (reply_of r) = Ok a → r = Sent a.
Proof. intros Hr. apply required_Ok in Hr. destruct r as [b|]; [|done]. by injection Hr as ->. Qed.

(** A run inside [try_catch] that ends in a state its handler cannot leave. *)
Lemma try_catch_inv {S A} (m : M S A) (h : exn → M S A) s r s' : try_catch m h s = (r, s') →
  (∃ a, m s = (Ok a, s') ∧ r = Ok a) ∨ ∃ e s1, m s = (Throw e, s1) ∧ h e s1 = (r, s').
Proof. unfold try_catch. destruct (m s) as [[a|e] s1]; [intros [= <- <-]; eauto|eauto]. Qed.

Section clicks.
Context `{NodeCrypto} `{Poseidon} `{Web3} `{Base58} `{WalletErrors} {W : Type} (page : Page W).

(** What a catch leaves: the error and the button. *)
Lemma click_caught e (w : PrivatePanel * W) r w' :
  (_ ← setting (set_error (Some (failure_text e))); setting (set_busy false)) w = (r, w') →
  w' = (set_busy false (set_error (Some (failure_text e)) w.1), w.2).
Proof. by intros [= _ <-]. Qed.

(** A deposit handler that finished. *)
Record deposit_clicked p (s : DappSessionV1) (json : PrivateDepositAnswer) (ixs : list TransactionInstruction) (sig : string) : Prop := {
  dcl_request : ∃ want now w reply w', wanted_atoms p = Ok want ∧
    page.(pg_private_deposit) (deposit_request s p want now) w = (Ok reply, w') ∧ required reply = Ok json;
  dcl_sent : mapM instructionFromJson json.(pda_instructions) = Ok ixs ∧ forwarded page.(pg_wallet) page.(pg_connection) ixs [] sig }.

Definition shows_deposit (q : PrivatePanel) (json : PrivateDepositAnswer) : Prop :=
  q.(pp_step) = panel_deposited ∧ q.(pp_tracking) = Some json.(pda_tracking) ∧ q.(pp_busy) = false.

Lemma runDeposit_Ok p (w w' : PrivatePanel * W) u : runDeposit page p w = (Ok u, w') →
  ∃ s v json ixs sig, page_session page w.2 = (Ok (Some s), v) ∧ deposit_clicked p s json ixs sig ∧ shows_deposit w'.1 json.
Proof.
  unfold runDeposit. intros Hr. apply M_bind_Ok in Hr as ([s|] & w1 & [Hs _]%outside_Ok & Hr); [|discriminate Hr].
  apply M_bind_Ok in Hr as (want & w2 & [Hw ->]%liftR_inv & Hr). do 2 (apply M_bind_Ok in Hr as ([] & ? & ->%setting_Ok & Hr)).
  apply M_bind_Ok in Hr as (now & w3 & _ & Hr). apply M_bind_Ok in Hr as (reply & w4 & [Hapi _]%outside_Ok & Hr).
  apply M_bind_Ok in Hr as (json & w5 & [Hj ->]%liftR_inv & Hr). apply M_bind_Ok in Hr as ([] & w6 & [_ ->]%liftR_inv & Hr).
  apply M_bind_Ok in Hr as (ixs & w7 & [Hixs ->]%liftR_inv & Hr). apply M_bind_Ok in Hr as (sig & w8 & [Hf _]%outside_Ok & Hr).
  do 3 (apply M_bind_Ok in Hr as ([] & ? & ->%setting_Ok & Hr)). apply setting_Ok in Hr as ->.
  exists s, w1.2, json, ixs, sig. split; [exact Hs|]. split; [|by split_and!]. split.
  - by exists want, now, w3.2, reply, w4.2.
  - split; [exact Hixs|]. by eapply sendAndConfirm_Ok.
Qed.

(** A spend that was proved, finalized and sent. *)
Record spend_sent (s : DappSessionV1) (tokenMint amount : string) (sa : SpendAnswer) (inputs : SpendInputs) (proof : Groth16ProofBytes)
    (fin : WithdrawFinalizeAnswer) (ix : TransactionInstruction) (sig : string) : Prop := {
  sps_proved : read_inputs sa.(sa_proverInputs) = Some inputs ∧ ∃ w w', page.(pg_prover).(spend_prove) inputs w = (Ok proof, w');
  sps_finalized : ∃ w reply w', page.(pg_withdraw_finalize) (finalize_request s tokenMint amount sa.(sa_ixContext) proof) w = (Ok reply, w') ∧
    required reply = Ok fin;
  sps_sent : instructionFromJson fin.(fa_instruction) = Ok ix ∧ forwarded page.(pg_wallet) page.(pg_connection) [ix] [] sig }.

Lemma prove_and_send_Ok {P} (setMs : Z → P → P) s tokenMint amount sa (w : P * W) sig w' :
  prove_and_send page setMs s tokenMint amount sa w = (Ok sig, w') →
  ∃ inputs proof fin ix ms, spend_sent s tokenMint amount sa inputs proof fin ix sig ∧ w'.1 = setMs ms w.1.
Proof.
  unfold prove_and_send. intros Hr. apply M_bind_Ok in Hr as (start & w4 & [_ E4]%outside_Ok & Hr).
  apply M_bind_Ok in Hr as (inputs & w5 & [Hi ->]%liftR_inv & Hr). apply M_bind_Ok in Hr as (proof & w6 & [Hp E6]%outside_Ok & Hr).
  apply M_bind_Ok in Hr as (stop & w7 & [_ E7]%outside_Ok & Hr). apply M_bind_Ok in Hr as ([] & ? & ->%setting_Ok & Hr).
  apply M_bind_Ok in Hr as (fin & w8 & [Hfin E8]%outside_Ok & Hr). apply M_bind_Ok in Hr as (fj & w9 & [Hfj ->]%liftR_inv & Hr).
  apply M_bind_Ok in Hr as (ix & w10 & [Hix ->]%liftR_inv & Hr). apply outside_Ok in Hr as [Hf Ef].
  exists inputs, proof, fj, ix, (rounded_ms start stop). split; [|by rewrite Ef, E8; cbn [fst]; rewrite E7, E6, E4]. split.
  - split; [|by eexists _, _]. unfold prover_inputs in Hi. destruct (read_inputs _); [by injection Hi as ->|discriminate Hi].
  - by eexists _, fin, _.
  - split; [exact Hix|]. by eapply sendAndConfirm_Ok.
Qed.

Lemma prove_and_send_runs {P} (setMs : Z → P → P) s tokenMint amount sa q v start v1 i proof v2 stop v3 fin v4 ix sig v5 :
  page.(pg_micros) v = (Ok start, v1) → read_inputs sa.(sa_proverInputs) = Some i →
  page.(pg_prover).(spend_prove) i v1 = (Ok proof, v2) → page.(pg_micros) v2 = (Ok stop, v3) →
  page.(pg_withdraw_finalize) (finalize_request s tokenMint amount sa.(sa_ixContext) proof) v3 = (Ok (reply_of (Sent fin)), v4) →
  instructionFromJson fin.(fa_instruction) = Ok ix → forward page [ix] v4 = (Ok sig, v5) →
  prove_and_send page setMs s tokenMint amount sa (q, v) = (Ok sig, (setMs (rounded_ms start stop) q, v5)).
Proof.
  intros Hm Hi Hp Hm2 Hf Hix Hfw. unfold prove_and_send. erewrite M_bind_run by (apply outside_run; exact Hm).
  rewrite (M_bind_lift _ i) by (unfold prover_inputs; by rewrite Hi). cbn [fst snd].
  erewrite M_bind_run by (apply outside_run; exact Hp). cbn [fst snd]. erewrite M_bind_run by (apply outside_run; exact Hm2). cbn [fst snd].
  erewrite M_bind_run by reflexivity. cbn [fst snd]. erewrite M_bind_run by (apply outside_run; exact Hf). cbn [fst snd].
  rewrite (M_bind_lift _ fin) by reflexivity. rewrite (M_bind_lift _ _ _ _ Hix). by apply outside_run.
Qed.

(** A withdraw handler that finished. *)
Definition withdraw_clicked (s : DappSessionV1) (t : DepositTracking) (sa : SpendAnswer) (inputs : SpendInputs) (proof : Groth16ProofBytes)
    (fin : WithdrawFinalizeAnswer) (ix : TransactionInstruction) (sig : string) : Prop :=
  (∃ w reply w', page.(pg_withdraw_prepare) (withdraw_request s t) w = (Ok reply, w') ∧ required reply = Ok sa) ∧
  spend_sent s t.(dt_tokenMintBase58) t.(dt_amount) sa inputs proof fin ix sig.

Lemma runWithdraw_Ok p (w w' : PrivatePanel * W) u : runWithdraw page p w = (Ok u, w') →
  ∃ s v t sa inputs proof fin ix sig, page_session page w.2 = (Ok (Some s), v) ∧ p.(pp_tracking) = Some t ∧
    withdraw_clicked s t sa inputs proof fin ix sig ∧ w'.1.(pp_step) = panel_withdrawn ∧ w'.1.(pp_busy) = false.
Proof.
  unfold runWithdraw. intros Hr. apply M_bind_Ok in Hr as ([s|] & w1 & [Hs _]%outside_Ok & Hr); [|discriminate Hr].
  destruct (pp_tracking p) as [t|] eqn:Ht; [|discriminate Hr]. do 2 (apply M_bind_Ok in Hr as ([] & ? & ->%setting_Ok & Hr)).
  apply M_bind_Ok in Hr as (prep & w2 & [Hprep _]%outside_Ok & Hr). apply M_bind_Ok in Hr as (sa & w3 & [Hsa ->]%liftR_inv & Hr).
  apply M_bind_Ok in Hr as ([] & ? & ->%setting_Ok & Hr).
  apply M_bind_Ok in Hr as (sig & w5 & (inputs & proof & fin & ix & ms & Hsent & _)%prove_and_send_Ok & Hr).
  do 2 (apply M_bind_Ok in Hr as ([] & ? & ->%setting_Ok & Hr)). apply setting_Ok in Hr as ->.
  exists s, w1.2, t, sa, inputs, proof, fin, ix, sig. split; [exact Hs|]. split; [done|]. split; [|by split_and!].
  split; [by eexists _, prep, _|exact Hsent].
Qed.
End clicks.

(** ** What a handler may leave behind *)

Section leaves.
Context {P W : Type}.
Implicit Types I : P → Prop.

(** A computation keeps [I], it keeps [I] when it throws, it does not throw. *)
Definition keeps_inv I {A} (m : M (P * W) A) : Prop := ∀ w r w', I w.1 → m w = (r, w') → I w'.1.
Definition throws_inv I {A} (m : M (P * W) A) : Prop := ∀ w e w', I w.1 → m w = (Throw e, w') → I w'.1.
Definition no_throw {A} (m : M (P * W) A) : Prop := ∀ w e w', m w ≠ (Throw e, w').

Lemma keeps_throws I {A} (m : M (P * W) A) : keeps_inv I m → throws_inv I m.
Proof. intros Hm w e w'. apply Hm. Qed.
Lemma no_throw_throws I {A} (m : M (P * W) A) : no_throw m → throws_inv I m.
Proof. intros Hm w e w' _ Hr. by apply Hm in Hr. Qed.
Lemma keeps_outside I {A} (m : M W A) : keeps_inv I (outside m).
Proof. intros [p w] r w' Hi. unfold outside. cbn [snd fst]. destruct (m w) as [r1 s]. by intros [= _ <-]. Qed.
Lemma keeps_lift I {A} (x : res A) : keeps_inv I (liftR x).
Proof. intros w r w' Hi [_ ->]%liftR_inv. exact Hi. Qed.
Lemma keeps_throw I {A} e : keeps_inv I (throw e : M (P * W) A).
Proof. by intros w r w' Hi [= _ <-]. Qed.
Lemma keeps_ret I {A} (a : A) : keeps_inv I (mret a : M (P * W) A).
Proof. by intros w r w' Hi [= _ <-]. Qed.
Lemma keeps_setting I f : (∀ p, I p → I (f p)) → keeps_inv I (setting f).
Proof. intros Hf w r w' Hi [= _ <-]. by apply Hf. Qed.
Lemma keeps_bind I {A B} (m : M (P * W) A) (k : A → M (P * W) B) :
  keeps_inv I m → (∀ a, keeps_inv I (k a)) → keeps_inv I (m ≫= k).
Proof.
  intros Hm Hk w r w' Hi. unfold mbind, M_bind. destruct (m w) as [[a|e] w1] eqn:E.
  - intros Hr. eapply Hk; [|exact Hr]. by eapply Hm.
  - intros [= _ <-]. by eapply Hm.
Qed.
Lemma throws_bind I {A B} (m : M (P * W) A) (k : A → M (P * W) B) :
  keeps_inv I m → (∀ a, throws_inv I (k a)) → throws_inv I (m ≫= k).
Proof.
  intros Hm Hk w e w' Hi. unfold mbind, M_bind. destruct (m w) as [[a|e'] w1] eqn:E.
  - intros Hr. eapply Hk; [|exact Hr]. by eapply Hm.
  - intros [= _ <-]. by eapply Hm.
Qed.
Lemma no_throw_setting f : no_throw (setting f : M (P * W) ()).
Proof. by intros w e w'. Qed.
Lemma no_throw_bind {A B} (m : M (P * W) A) (k : A → M (P * W) B) : no_throw m → (∀ a, no_throw (k a)) → no_throw (m ≫= k).
Proof.
  intros Hm Hk w e w'. unfold mbind, M_bind. destruct (m w) as [[a|e'] w1] eqn:E; [apply Hk|]. by apply Hm in E.
Qed.
End leaves.

Create HintDb panel.
#[export] Hint Resolve keeps_outside keeps_lift keeps_throw keeps_ret keeps_setting no_throw_setting : panel.

(** Along a handler: what throws keeps the invariant, what is left does not throw. *)
Ltac panel_keeps :=
  repeat first
    [ progress intros
    | apply no_throw_throws; solve [repeat first [progress intros | apply no_throw_bind | apply no_throw_setting]]
    | apply throws_bind
    | apply keeps_bind
    | apply keeps_outside
    | apply keeps_lift
    | apply keeps_throw
    | apply keeps_ret
    | apply keeps_setting
    | apply keeps_throws; first [apply keeps_throw | apply keeps_outside | apply keeps_lift | apply keeps_ret | apply keeps_setting]
    | match goal with |- context [match ?x with _ => _ end] => destruct x end ].

Section states.
Context `{NodeCrypto} `{Poseidon} `{Web3} `{Base58} `{WalletErrors} {W : Type} (page : Page W).

Lemma runDeposit_throws p : throws_inv (λ q, q.(pp_step) = panel_idle) (runDeposit page p).
Proof. unfold runDeposit. panel_keeps; done. Qed.

Lemma prove_and_send_keeps {P} (I : P → Prop) (setMs : Z → P → P) s tokenMint amount sa :
  (∀ ms q, I q → I (setMs ms q)) → keeps_inv I (prove_and_send page setMs s tokenMint amount sa).
Proof. intros Hm. unfold prove_and_send. panel_keeps. by apply Hm. Qed.

Lemma runWithdraw_throws p t :
  throws_inv (λ q, (q.(pp_step) = panel_deposited ∨ q.(pp_step) = panel_proving) ∧ q.(pp_tracking) = Some t) (runWithdraw page p).
Proof. unfold runWithdraw. panel_keeps; try (apply prove_and_send_keeps; intros ms q); cbn in *; naive_solver. Qed.

Lemma refresh_keeps (I : PrivatePanel → Prop) : (∀ q, I q → I (set_balances None q)) → keeps_inv I (refresh page).
Proof. intros Hi. unfold refresh. panel_keeps. by apply Hi. Qed.

(** The button on an idle panel deposits, or leaves it idle with the error. *)
Lemma click_idle p v r w' : p.(pp_step) = panel_idle → onClick page p (p, v) = (r, w') →
  (∃ s v1 v2 json ixs sig, page_session page v1 = (Ok (Some s), v2) ∧ deposit_clicked page p s json ixs sig ∧ shows_deposit w'.1 json)
  ∨ w'.1.(pp_step) = panel_idle.
Proof.
  intros Hp Hr. unfold onClick in Hr. apply try_catch_inv in Hr as [(u & Hr & _)|(e & w1 & Hr & Hc)].
  - apply M_bind_Ok in Hr as ([] & w0 & Hr0 & Hr). pose proof (refresh_keeps (λ q, q.(pp_step) = panel_idle) (λ _ H, H) (p, v) _ _ Hp Hr0) as Hw0.
    apply M_bind_Ok in Hr as ([s|] & w1 & [Hs Hw1]%outside_Ok & Hr).
    + rewrite Hp in Hr. apply runDeposit_Ok in Hr as (s' & v2 & json & ixs & sig & Hs' & Hd & Hsh). left.
      by exists s', w1.2, v2, json, ixs, sig.
    + injection Hr as _ <-. right. by rewrite Hw1.
  - right. apply click_caught in Hc as ->. cbn [fst set_busy set_error pp_step].
    assert (Ht : throws_inv (λ q, q.(pp_step) = panel_idle)
      (_ ← refresh page; session ← outside (page_session page);
       match session with
       | None => mret ()
       | Some _ => match p.(pp_step) with panel_idle => runDeposit page p | panel_deposited => runWithdraw page p | _ => mret () end
       end)).
    { apply throws_bind; [by apply refresh_keeps|]. intros []. apply throws_bind; [apply keeps_outside|].
      intros [s|]; [|apply keeps_throws, keeps_ret]. rewrite Hp. apply runDeposit_throws. }
    exact (Ht (p, v) e w1 Hp Hr).
Qed.

(** On a panel with a deposit it withdraws, or leaves it there, proving perhaps. *)
Lemma click_deposited p t v r w' : p.(pp_step) = panel_deposited → p.(pp_tracking) = Some t → onClick page p (p, v) = (r, w') →
  (∃ s v1 v2 sa inputs proof fin ix sig, page_session page v1 = (Ok (Some s), v2) ∧
     withdraw_clicked page s t sa inputs proof fin ix sig ∧ w'.1.(pp_step) = panel_withdrawn ∧ w'.1.(pp_busy) = false)
  ∨ (w'.1.(pp_step) = panel_deposited ∨ w'.1.(pp_step) = panel_proving) ∧ w'.1.(pp_tracking) = Some t.
Proof.
  intros Hp Ht Hr. unfold onClick in Hr. apply try_catch_inv in Hr as [(u & Hr & _)|(e & w1 & Hr & Hc)].
  - apply M_bind_Ok in Hr as ([] & w0 & Hr0 & Hr).
    pose proof (refresh_keeps (λ q, q.(pp_step) = panel_deposited ∧ q.(pp_tracking) = Some t) (λ _ H, H) (p, v) _ _ (conj Hp Ht) Hr0) as [? ?].
    apply M_bind_Ok in Hr as ([s|] & w1 & [Hs Hw1]%outside_Ok & Hr).
    + rewrite Hp in Hr. apply runWithdraw_Ok in Hr as (s' & v2 & t' & sa & inputs & proof & fin & ix & sig & Hs' & Ht' & Hd & Hst & Hb).
      rewrite Ht in Ht'. injection Ht' as <-. left. by exists s', w1.2, v2, sa, inputs, proof, fin, ix, sig.
    + injection Hr as _ <-. right. rewrite Hw1. by split; [left|].
  - right. apply click_caught in Hc as ->. cbn [fst set_busy set_error pp_step pp_tracking].
    set (I := λ q, (q.(pp_step) = panel_deposited ∨ q.(pp_step) = panel_proving) ∧ q.(pp_tracking) = Some t).
    assert (Hi : throws_inv I
      (_ ← refresh page; session ← outside (page_session page);
       match session with
       | None => mret ()
       | Some _ => match p.(pp_step) with panel_idle => runDeposit page p | panel_deposited => runWithdraw page p | _ => mret () end
       end)).
    { apply throws_bind; [by apply refresh_keeps|]. intros []. apply throws_bind; [apply keeps_outside|].
      intros [s|]; [|apply keeps_throws, keeps_ret]. rewrite Hp. apply runWithdraw_throws. }
    exact (Hi (p, v) e w1 (conj (or_introl Hp) Ht) Hr).
Qed.
End states.

(** ** The panel, the server and the vault *)

Section roundtrip.
Context `{NodeCrypto} `{!NodeCryptoLaws} `{Poseidon} `{!PoseidonLaws} `{Web3} `{Base58} `{!Base58Laws} `{Nacl} `{ForeignIx} `{WalletErrors}.
Context {W S : Type}.
Implicit Types page : Page W.

(** A page whose session is [s] whenever it reads one. *)
Definition session_is page (s : DappSessionV1) : Prop := ∀ v s' v', page_session page v = (Ok (Some s'), v') → s' = s.

(** Requests a handler of the server answers, from states of it in [I]. *)
Definition served_by {C A B} (I : C → Prop) (request : B → M W (Reply A)) (handler : res B → M C (Answer A)) : Prop :=
  ∀ body v r v', request body v = (Ok r, v') → ∃ c a c', I c ∧ handler (Ok body) c = (Ok a, c') ∧ r = reply_of a.

Lemma served_sent {C A B} (I : C → Prop) (request : B → M W (Reply A)) (handler : res B → M C (Answer A)) body v r v' a :
  served_by I request handler → request body v = (Ok r, v') → required r = Ok a →
  ∃ c c', I c ∧ handler (Ok body) c = (Ok (Sent a), c').
Proof. intros Hs Hr Ha. destruct (Hs _ _ _ _ Hr) as (c & a' & c' & Hi & Hh & ->). apply reply_sent in Ha as ->. by exists c, c'. Qed.

Lemma mapM_ix_roundtrip ixs : mapM instructionFromJson (instructionToJson <$> ixs) = Ok ixs.
Proof.
  induction ixs as [|ix ixs IH]; [done|]. cbn [fmap list_fmap mapM]. rewrite instructionJson_roundtrip. cbn [mbind res_bind].
  change (list_fmap _ _ instructionToJson ixs) with (instructionToJson <$> ixs). by rewrite IH.
Qed.

Lemma wanted_atoms_pos p a : wanted_atoms p = Ok a → 0 < a.
Proof.
  unfold wanted_atoms. destruct (decimalsForSide _ _) as [dec|]; [|discriminate]. intros Hw.
  apply res_bind_Ok in Hw as (want & _ & Hw). apply res_bind_Ok in Hw as ([] & Hpos & Hw).
  unfold throw_if in Hpos. destruct (want <=? 0) eqn:E; [discriminate|]. apply Z.leb_gt in E.
  destruct (balanceForSide _ _) as [have|]; [|by injection Hw as <-].
  apply res_bind_Ok in Hw as ([] & _ & Hw). by injection Hw as <-.
Qed.

Lemma truthy_same t x : truthy (Some t) = Some x → t = x.
Proof. by intros [[= ->] _]%truthy_Some. Qed.

(** What the second click sent, for a note of commitment [c]. *)
Definition panel_withdrew page' (pid mint : PublicKey) (cfg : VaultConfig) (note : Note) (sk : Z) (c : bytes) : Prop :=
  ∃ sa i proof nf root ix sig v v', spend_ok cfg mint note sk c sa ∧ read_inputs sa.(sa_proverInputs) = Some i ∧
    ValidSpend 20 i = true ∧ nullifier sk c = Ok nf ∧ page'.(pg_prover).(spend_prove) i v = (Ok proof, v') ∧
    forwarded page'.(pg_wallet) page'.(pg_connection) [ix] [] sig ∧
    accepted_as pid ix (VWithdraw c nf root note.(amount)
      {| pi_a := proof.(pb_piA); pi_b := proof.(pb_piB); pi_c := proof.(pb_piC) |}) ∧
    ∀ verify_spend pf slot st, st.(vs_config) = cfg → verify_spend pf (spend_public i) = true →
      st.(vs_consumed) !! c = None → st.(vs_locks) !! c = None → st.(vs_nullifiers) !! nf = None →
      note.(amount) <= balance st (toBytes mint) →
      ∃ st', withdraw verify_spend (toBytes mint) slot c nf root note.(amount) pf st = Ok st' ∧
        balance st' (toBytes mint) = balance st (toBytes mint) - note.(amount) ∧ st'.(vs_nullifiers) !! nf = Some slot.

Lemma finalized_sends page' (server : DemoServer S) programs s tokenMint amountText sa inputs proof fin ix sig mint cfg note sk c :
  distinct_discriminators (fst <$> vault_table) → (∀ v, ∃ conf v', server.(ds_config) v = (Ok conf, v') ∧ parseDemoPrograms conf = Ok programs) →
  served_by (λ _, True) page'.(pg_withdraw_finalize) (withdraw_finalize server) →
  spend_sent page' s tokenMint amountText sa inputs proof fin ix sig → amountText = bigint_string note.(amount) → 0 <= note.(amount) < U64 →
  spend_ok cfg mint note sk c sa → panel_withdrew page' programs.(vaultProgramId) mint cfg note sk c.
Proof.
  intros Hd Hconf Hfin Hcl Ht Ha Hok. pose proof Hok as (i & nf & root & Hi & Hvs & Hnf & Ec & En & Er & _ & Hpay).
  destruct (sps_proved _ _ _ _ _ _ _ _ _ _ Hcl) as (Hi' & v & v' & Hp). rewrite Hi in Hi'. injection Hi' as <-.
  destruct (sps_finalized _ _ _ _ _ _ _ _ _ _ Hcl) as (w & reply & w' & Hf & Hj).
  destruct (served_sent _ _ _ _ _ _ _ _ Hfin Hf Hj) as (u & u' & _ & Hrun).
  destruct (withdraw_finalize_accepted _ _ _ _ _ Hd Hrun)
    as (fs & fo & fm & fa & fc & fn & fr & pa & pb & pc & am & conf & pr & jx & u1 & Hff & Ham & Hcf & Hpr & _ & Hjx & Hacc).
  destruct (Hconf u) as (conf' & u2 & Hcf' & Hpr'). rewrite Hcf in Hcf'. injection Hcf' as <- _. rewrite Hpr in Hpr'. injection Hpr' as ->.
  destruct (sps_sent _ _ _ _ _ _ _ _ _ _ Hcl) as [Hix Hfw]. rewrite Hjx, instructionJson_roundtrip in Hix. injection Hix as ->.
  apply present_fields in Hff. cbn [finalize_request fb_phantomSignatureBase58 fb_ownerPubkeyBase58 fb_tokenMintBase58 fb_amount
    fb_commitmentHex fb_nullifierHex fb_merkleRootHex fb_proof mbind option_bind fp_piA fp_piB fp_piC] in Hff.
  decompose_Forall_hyps. repeat match goal with H : _ = Some _ |- _ => apply truthy_same in H; subst end.
  exists sa, i, proof, (hexToBytes sa.(sa_ixContext).(ic_nullifierHex)), (hexToBytes sa.(sa_ixContext).(ic_merkleRootHex)), ix, sig, v, v'.
  rewrite BigInt_text in Ham by lia. apply Ok_inj in Ham as <-.
  rewrite !hexToBytes_toHex, Z.mod_small in Hacc by lia. by split_and!.
Qed.

Lemma serves_configured (server : DemoServer S) programs disc bump cfg : serves server programs disc bump cfg →
  ∀ v, ∃ conf v', server.(ds_config) v = (Ok conf, v') ∧ parseDemoPrograms conf = Ok programs.
Proof.
  intros Hs v. destruct (Hs v) as (cn & w1 & w2 & Hset & _). unfold demo_setup in Hset.
  apply M_bind_Ok in Hset as (conf & u & Hc & Hset). apply M_bind_Ok in Hset as (pr & u' & [Hp ->]%liftR_inv & Hset).
  injection Hset as _ -> _. by exists conf, u.
Qed.

(** A deposit handler whose steps all succeed. *)
Lemma runDeposit_runs page p v v1 v2 v3 v4 s want now json ixs sig :
  page_session page v = (Ok (Some s), v1) → wanted_atoms p = Ok want → page.(pg_now) v1 = (Ok now, v2) →
  page.(pg_private_deposit) (deposit_request s p want now) v2 = (Ok (reply_of (Sent json)), v3) → json.(pda_instructions) ≠ [] →
  mapM instructionFromJson json.(pda_instructions) = Ok ixs → forward page ixs v3 = (Ok sig, v4) →
  ∃ q, runDeposit page p (p, v) = (Ok (), (q, v4)) ∧ q.(pp_step) = panel_deposited.
Proof.
  intros Hs Hw Hn Hr Hne Hi Hf. unfold runDeposit.
  rewrite (M_bind_run _ _ _ _ _ (outside_run (page_session page) (p, v) _ _ Hs)), (M_bind_lift _ _ _ _ Hw).
  rewrite (M_bind_run _ _ _ _ _ (eq_refl : setting (set_busy true) _ = (Ok (), _))),
    (M_bind_run _ _ _ _ _ (eq_refl : setting (set_error None) _ = (Ok (), _))). cbn [fst snd].
  erewrite M_bind_run by (apply outside_run; exact Hn). cbn [fst snd].
  erewrite M_bind_run by (apply outside_run; exact Hr). cbn [fst snd].
  rewrite (M_bind_lift _ json) by reflexivity. rewrite bool_decide_eq_false_2 by exact Hne.
  erewrite M_bind_run by reflexivity. rewrite (M_bind_lift _ _ _ _ Hi). erewrite M_bind_run by (apply outside_run; exact Hf).
  by eexists.
Qed.

(** A click with a session at hand, whose two reads of it are these. *)
Lemma click_session page p v v0 v1 s : page_session page v = (Ok (Some s), v0) → page_session page v0 = (Ok (Some s), v1) →
  onClick page p (p, v) = try_catch
    (match p.(pp_step) with panel_idle => runDeposit page p | panel_deposited => runWithdraw page p | _ => mret () end)
    (λ e, _ ← setting (set_error (Some (failure_text e))); setting (set_busy false)) (p, v1).
Proof.
  intros Hs Hs'. unfold onClick, try_catch. assert (Hr : refresh page (p, v) = (Ok (), (p, v0))).
  { unfold refresh. by rewrite (M_bind_run _ _ _ _ _ (outside_run (page_session page) (p, v) _ _ Hs)). }
  rewrite (M_bind_run _ _ _ _ _ Hr). by rewrite (M_bind_run _ _ _ _ _ (outside_run (page_session page) (p, v0) _ _ Hs')).
Qed.

End roundtrip.

(** ** Every state the panel can reach *)

Section reachable.
Context `{NodeCrypto} `{Poseidon} `{Web3} `{Base58} `{WalletErrors} {W : Type} (page : Page W).

(** A panel that says it has a deposit remembers which. *)
Definition panel_wf (p : PrivatePanel) : Prop :=
  match p.(pp_step) with panel_deposited | panel_proving => is_Some p.(pp_tracking) | _ => True end.

Lemma fetchBalances_keeps owner p w r c : fetchBalances page owner (p, w) = (r, c) →
  c.1.(pp_step) = p.(pp_step) ∧ c.1.(pp_tracking) = p.(pp_tracking).
Proof.
  intros Hr. assert (Hk : keeps_inv (λ q, q.(pp_step) = p.(pp_step) ∧ q.(pp_tracking) = p.(pp_tracking)) (fetchBalances page owner)).
  { unfold fetchBalances. panel_keeps; done. }
  exact (Hk (p, w) r c (conj eq_refl eq_refl) Hr).
Qed.

Lemma panel_wf_event c c' : panel_event page c c' → panel_wf c.1 → panel_wf c'.1.
Proof.
  unfold panel_wf. intros [? ? Hs|p w] Hwf; [|done].
  destruct Hs as [p w r d Hb Hc|p w side amount Hf|p w owner r d Hb|p w w']; [|done| |done].
  - unfold button_disabled in Hb. destruct (pp_busy p); [discriminate Hb|]. cbn [fst] in Hwf.
    destruct (pp_step p) eqn:Hp; try discriminate Hb.
    + destruct (click_idle _ _ _ _ _ Hp Hc) as [(s & v1 & v2 & json & ixs & sig & _ & _ & (-> & Ht & _))| ->]; [by rewrite Ht|done].
    + destruct Hwf as [t Ht].
      destruct (click_deposited _ _ _ _ _ _ Hp Ht Hc) as [(? & ? & ? & ? & ? & ? & ? & ? & ? & _ & _ & -> & _)|[[-> | ->] Ht']];
        rewrite ?Ht'; eauto.
  - apply fetchBalances_keeps in Hb as [-> ->]. exact Hwf.
Qed.

Lemma panel_reachable_wf c c' : rtc (panel_event page) c c' → c.1.(pp_step) = panel_idle → panel_wf c'.1.
Proof.
  intros Hr Hi. assert (Hwf : panel_wf c.1) by (unfold panel_wf; by rewrite Hi). clear Hi.
  induction Hr as [|x y z Hs _ IH]; [exact Hwf|]. apply IH. by eapply panel_wf_event.
Qed.

Lemma prove_and_send_fails {P} (setMs : Z → P → P) s tokenMint amount sa q v3 v4 v5 start i e :
  page.(pg_micros) v3 = (Ok start, v4) → read_inputs sa.(sa_proverInputs) = Some i →
  page.(pg_prover).(spend_prove) i v4 = (Throw e, v5) →
  prove_and_send page setMs s tokenMint amount sa (q, v3) = (Throw e, (q, v5)).
Proof.
  intros Hm Hi Hpf. unfold prove_and_send. rewrite (M_bind_run _ _ _ _ _ (outside_run page.(pg_micros) (q, v3) _ _ Hm)).
  rewrite (M_bind_lift _ i) by (unfold prover_inputs; by rewrite Hi).
  exact (M_bind_throw _ _ _ _ _ (outside_run (page.(pg_prover).(spend_prove) i) (q, v4) _ _ Hpf)).
Qed.

(** A prover that fails leaves the panel proving, with the button free of its own
    handler but disabled. *)
Lemma failed_proof_strands p t s v v0 v1 v2 v3 v4 v5 sa i e start :
  p.(pp_step) = panel_deposited → p.(pp_tracking) = Some t → page_session page v = (Ok (Some s), v0) →
  page_session page v0 = (Ok (Some s), v1) → page_session page v1 = (Ok (Some s), v2) →
  page.(pg_withdraw_prepare) (withdraw_request s t) v2 = (Ok (reply_of (Sent sa)), v3) →
  page.(pg_micros) v3 = (Ok start, v4) → read_inputs sa.(sa_proverInputs) = Some i →
  page.(pg_prover).(spend_prove) i v4 = (Throw e, v5) →
  ∃ q, onClick page p (p, v) = (Ok (), (q, v5)) ∧ q.(pp_step) = panel_proving ∧ q.(pp_busy) = false ∧ button_disabled q = true.
Proof.
  intros Hp Ht Hs Hs1 Hs' Hprep Hm Hi Hpf. rewrite (click_session _ _ _ _ _ _ Hs Hs1), Hp. unfold try_catch, runWithdraw.
  rewrite (M_bind_run _ _ _ _ _ (outside_run (page_session page) (p, v1) _ _ Hs')), Ht. cbn [fst].
  do 2 (erewrite M_bind_run by reflexivity). cbn [fst snd].
  erewrite M_bind_run by (apply outside_run; exact Hprep). cbn [fst snd]. rewrite (M_bind_lift _ sa) by reflexivity.
  erewrite M_bind_run by reflexivity. cbn [fst snd].
  erewrite M_bind_throw by (eapply prove_and_send_fails; eassumption). eexists. by split_and!.
Qed.

(** Nothing but the reset leaves that state, and the reset forgets the deposit. *)
Lemma proving_stuck c c' : rtc (panel_step page) c c' → c.1.(pp_step) = panel_proving →
  c'.1.(pp_step) = panel_proving ∧ c'.1.(pp_tracking) = c.1.(pp_tracking) ∧ (reset c'.1).(pp_tracking) = None.
Proof.
  intros Hr Hp. induction Hr as [|x y z Hs _ IH]; [done|].
  assert (Hy : y.1.(pp_step) = panel_proving ∧ y.1.(pp_tracking) = x.1.(pp_tracking)).
  { destruct Hs as [p w r d Hb _|p w side amount Hf|p w owner r d Hb|p w w']; cbn [fst] in *; [| | |done].
    - unfold button_disabled in Hb. rewrite Hp, orb_true_r in Hb. discriminate Hb.
    - unfold fields_disabled in Hf. by rewrite Hp in Hf.
    - apply fetchBalances_keeps in Hb as [-> ->]. by split. }
  destruct Hy as [Hy Ht]. rewrite <-Ht. by apply IH.
Qed.
End reachable.

(** ** A sample page *)

Module SamplePage.
Import SampleServer.
#[export] Instance wallet_errors : WalletErrors := {| outer_message := exn_message; inner_detail _ := None; inner_logs _ := None |}.

Definition session : DappSessionV1 := {|
  ss_phantomSignatureBase58 := Some signature; ss_ownerPubkeyBase58 := Some owner; ss_tradingSecretKeyBase58 := Some "11";
  ss_publicData := None; ss_proof := None |}.
Definition storage : Storage () := {|
  sg_getItem _ := mret (Some (JSON_compact (session_json session))); sg_setItem _ _ := mret (); sg_removeItem _ := mret () |}.
Definition wallet : Wallet () := {|
  wl_publicKey := Some (key x12); wl_sendTransaction := Some (λ _ _, mret "sent"); wl_signMessage := None |}.
Definition connection : PageConnection () := {|
  pc_getLatestBlockhash := mret ("hash", 9); pc_simulateTransaction _ := mret {| sim_err := None; sim_logs := None |};
  pc_confirmTransaction _ _ _ := mret (); pc_sendRawTransaction _ _ := mret "raw" |}.
Definition unused {A} : M () A := throw (Error "not used").

(** Its deposits are prepared by this handler. *)
Definition page (deposit : DepositBody → M () (Reply PrivateDepositAnswer)) : Page () := {|
  pg_storage := storage; pg_wallet := wallet; pg_connection := connection;
  pg_prover := {| walletCreate_prove _ := unused; spend_prove _ := unused |};
  pg_now := mret 3; pg_micros := mret 4; pg_random16 := unused; pg_slot := unused; pg_derive_identity _ := unused;
  pg_airdrop _ := unused; pg_balances _ := unused; pg_private_deposit := deposit; pg_deposit_prepare _ := unused;
  pg_withdraw_prepare _ := unused; pg_trade_withdraw_prepare _ := unused; pg_withdraw_finalize _ := unused;
  pg_register_wallet _ := unused; pg_init_slot _ := unused; pg_build_submit_order _ := unused; pg_counter_and_match _ := unused;
  pg_er := connection |}.

Definition panel : PrivatePanel := {|
  pp_step := panel_idle; pp_busy := false; pp_error := None; pp_side := "base"; pp_amount := "1"; pp_tracking := None;
  pp_receipt := []; pp_proverMs := None;
  pp_balances := Some {| bs_ok := true; bs_error := None;
    bs_base := Some {| mi_ata := "ata"; mi_exists := true; mi_amount := "5000"; mi_mintBase58 := "mint"; mi_decimals := 3%nat |};
    bs_quote := None |} |}.

Lemma verified : ∃ v, @verifyPhantomSeedSignature Toy.toy_crypto SampleServer.base58 SampleServer.nacl signature owner = Ok v.
Proof. eexists. vm_compute. reflexivity. Qed.

Lemma owner_text : @toBase58 SampleServer.web3 (key x12) = owner.
Proof. vm_compute. reflexivity. Qed.

Lemma has_session deposit w : @page_session SampleServer.web3 () (page deposit) w = (Ok (Some session), w).
Proof.
  unfold page_session, connectedOwner. cbn [page pg_storage pg_wallet wallet wl_publicKey fmap option_fmap option_map].
  rewrite owner_text. erewrite session_for_owner by (reflexivity || discriminate).
  rewrite bool_decide_eq_true_2 by reflexivity. reflexivity.
Qed.
End SamplePage.

