(* ===== verification/TradePanel.v ===== *)
(** The panel of a trade
    ([apps/demo/src/components/dapp/dapp-trade-flow-panel.tsx]): its state, the five
    handlers behind its one button, and the token data it asks for
    ([apps/demo/src/app/api/dapp/token-meta/route.ts]).  The theorem composes the
    panel with the server's handlers and the matching engine: the order it asks to
    be matched is the order it submitted. *)

From Stdlib Require Import Ascii.
From stdpp Require Import gmap.
From S2P Require Import Prelude Bytes Errors Externals Keys Note Borsh VaultClient VaultProgram MatchingEngineClient Merkle.
From S2P Require Import MatchingProgram Client Session DecimalText LeafHistory Decimals DemoText JsonText DemoKeys.
From S2P Require Import DemoChain Routes WalletRoutes TradeSettle OrderRoutes ServerKeys LiveFlow Identity TradeWithdraw DappSession PrivatePanel.

Local Open Scope Z_scope.

(** ** [token-meta] *)

Record TokenMeta := {
  tm_baseDecimals : nat; tm_quoteDecimals : nat; tm_exchangeQuotePerBaseAtomic : string; tm_orderPriceLimit : string }.

(** ** The state *)

Inductive FlowStep := flow_idle | flow_registered | flow_slot_ready | flow_deposited | flow_order_er | flow_matched.

#[export] Instance FlowStep_eq_dec : EqDecision FlowStep.
Proof. solve_decision. Defined.

Record TradeNote := { tn_commitmentHex : string; tn_amount : string }.
Record OrderCtx := { oc_orderIdHex : string; oc_expirySlot : string }.

Record TradePanel := {
  tf_step : FlowStep; tf_busy : bool; tf_error : option string; tf_slotIdx : option Z; tf_baseAmount : string; tf_depositNonce : string; tf_tokenMeta : option TokenMeta; tf_depositNote : option TradeNote; tf_orderCtx : option OrderCtx; tf_receipt : list SignatureItem; tf_balances : option BalancesResponse }.

Definition with_step (x : FlowStep) (p : TradePanel) : TradePanel :=
  {| tf_step := x; tf_busy := p.(tf_busy); tf_error := p.(tf_error); tf_slotIdx := p.(tf_slotIdx); tf_baseAmount :=
     p.(tf_baseAmount); tf_depositNonce := p.(tf_depositNonce); tf_tokenMeta := p.(tf_tokenMeta); tf_depositNote :=
     p.(tf_depositNote); tf_orderCtx := p.(tf_orderCtx); tf_receipt := p.(tf_receipt); tf_balances := p.(tf_balances)
     |}.
Definition with_busy (x : bool) (p : TradePanel) : TradePanel :=
  {| tf_step := p.(tf_step); tf_busy := x; tf_error := p.(tf_error); tf_slotIdx := p.(tf_slotIdx); tf_baseAmount :=
     p.(tf_baseAmount); tf_depositNonce := p.(tf_depositNonce); tf_tokenMeta := p.(tf_tokenMeta); tf_depositNote :=
     p.(tf_depositNote); tf_orderCtx := p.(tf_orderCtx); tf_receipt := p.(tf_receipt); tf_balances := p.(tf_balances)
     |}.
Definition with_error (x : option string) (p : TradePanel) : TradePanel :=
  {| tf_step := p.(tf_step); tf_busy := p.(tf_busy); tf_error := x; tf_slotIdx := p.(tf_slotIdx); tf_baseAmount :=
     p.(tf_baseAmount); tf_depositNonce := p.(tf_depositNonce); tf_tokenMeta := p.(tf_tokenMeta); tf_depositNote :=
     p.(tf_depositNote); tf_orderCtx := p.(tf_orderCtx); tf_receipt := p.(tf_receipt); tf_balances := p.(tf_balances)
     |}.
Definition with_slotIdx (x : option Z) (p : TradePanel) : TradePanel :=
  {| tf_step := p.(tf_step); tf_busy := p.(tf_busy); tf_error := p.(tf_error); tf_slotIdx := x; tf_baseAmount :=
     p.(tf_baseAmount); tf_depositNonce := p.(tf_depositNonce); tf_tokenMeta := p.(tf_tokenMeta); tf_depositNote :=
     p.(tf_depositNote); tf_orderCtx := p.(tf_orderCtx); tf_receipt := p.(tf_receipt); tf_balances := p.(tf_balances)
     |}.
Definition with_baseAmount (x : string) (p : TradePanel) : TradePanel :=
  {| tf_step := p.(tf_step); tf_busy := p.(tf_busy); tf_error := p.(tf_error); tf_slotIdx := p.(tf_slotIdx);
     tf_baseAmount := x; tf_depositNonce := p.(tf_depositNonce); tf_tokenMeta := p.(tf_tokenMeta); tf_depositNote :=
     p.(tf_depositNote); tf_orderCtx := p.(tf_orderCtx); tf_receipt := p.(tf_receipt); tf_balances := p.(tf_balances)
     |}.
Definition with_tokenMeta (x : option TokenMeta) (p : TradePanel) : TradePanel :=
  {| tf_step := p.(tf_step); tf_busy := p.(tf_busy); tf_error := p.(tf_error); tf_slotIdx := p.(tf_slotIdx);
     tf_baseAmount := p.(tf_baseAmount); tf_depositNonce := p.(tf_depositNonce); tf_tokenMeta := x; tf_depositNote :=
     p.(tf_depositNote); tf_orderCtx := p.(tf_orderCtx); tf_receipt := p.(tf_receipt); tf_balances := p.(tf_balances)
     |}.
Definition with_depositNote (x : option TradeNote) (p : TradePanel) : TradePanel :=
  {| tf_step := p.(tf_step); tf_busy := p.(tf_busy); tf_error := p.(tf_error); tf_slotIdx := p.(tf_slotIdx);
     tf_baseAmount := p.(tf_baseAmount); tf_depositNonce := p.(tf_depositNonce); tf_tokenMeta := p.(tf_tokenMeta);
     tf_depositNote := x; tf_orderCtx := p.(tf_orderCtx); tf_receipt := p.(tf_receipt); tf_balances := p.(tf_balances)
     |}.
Definition with_orderCtx (x : option OrderCtx) (p : TradePanel) : TradePanel :=
  {| tf_step := p.(tf_step); tf_busy := p.(tf_busy); tf_error := p.(tf_error); tf_slotIdx := p.(tf_slotIdx);
     tf_baseAmount := p.(tf_baseAmount); tf_depositNonce := p.(tf_depositNonce); tf_tokenMeta := p.(tf_tokenMeta);
     tf_depositNote := p.(tf_depositNote); tf_orderCtx := x; tf_receipt := p.(tf_receipt); tf_balances :=
     p.(tf_balances) |}.
Definition with_receipt (x : list SignatureItem) (p : TradePanel) : TradePanel :=
  {| tf_step := p.(tf_step); tf_busy := p.(tf_busy); tf_error := p.(tf_error); tf_slotIdx := p.(tf_slotIdx);
     tf_baseAmount := p.(tf_baseAmount); tf_depositNonce := p.(tf_depositNonce); tf_tokenMeta := p.(tf_tokenMeta);
     tf_depositNote := p.(tf_depositNote); tf_orderCtx := p.(tf_orderCtx); tf_receipt := x; tf_balances :=
     p.(tf_balances) |}.
Definition with_balances (x : option BalancesResponse) (p : TradePanel) : TradePanel :=
  {| tf_step := p.(tf_step); tf_busy := p.(tf_busy); tf_error := p.(tf_error); tf_slotIdx := p.(tf_slotIdx);
     tf_baseAmount := p.(tf_baseAmount); tf_depositNonce := p.(tf_depositNonce); tf_tokenMeta := p.(tf_tokenMeta);
     tf_depositNote := p.(tf_depositNote); tf_orderCtx := p.(tf_orderCtx); tf_receipt := p.(tf_receipt); tf_balances :=
     x |}.

(** ** The route of the token data *)

Record TokenMetaAnswer := {
  ta_baseDecimals : option Json; ta_quoteDecimals : option Json; ta_exchangeQuotePerBaseAtomic : string;
  ta_orderPriceLimit : string }.

(** [cfg.name.decimals] *)
Definition mint_decimals (name : string) (cfg : Json) : res (option Json) :=
  match jfield name cfg with
  | None | Some JNull => Throw (TypeError ("Cannot read properties of undefined (reading 'decimals')"))
  | Some mint => Ok (jfield "decimals" mint)
  end.

Section token_meta.
Context `{Host}.

(** [process.env.A ?? process.env.B ?? fallback] *)
Definition env_chain (a b fallback : string) : string :=
  match process_env a with Some v => v | None => default fallback (process_env b) end.
Definition served_exchange : string := env_chain "NEXT_PUBLIC_DEMO_EXCHANGE_QUOTE_PER_BASE" "DEMO_EXCHANGE_QUOTE_PER_BASE" "100".
Definition served_price : string := env_chain "NEXT_PUBLIC_DEMO_ORDER_PRICE" "DEMO_ORDER_PRICE" served_exchange.

Definition token_meta : res (Answer TokenMetaAnswer) :=
  match
    (repoRoot ← resolveRepoRoot;
     cfg ← loadDemoE2eConfig repoRoot;
     base ← mint_decimals "baseMint" cfg;
     quote ← mint_decimals "quoteMint" cfg;
     Ok {| ta_baseDecimals := base; ta_quoteDecimals := quote; ta_exchangeQuotePerBaseAtomic := served_exchange;
           ta_orderPriceLimit := served_price |})
  with
  | Ok a => Ok (Sent a)
  | Throw e => Ok (Refused 500 (exn_message e) None)
  end.
End token_meta.

(** The panel's reading of the answer; decimals are not negative. *)
Definition number_of (j : option Json) : option nat :=
  match j with Some (JNum n) => if 0 <=? n then Some (Z.to_nat n) else None | _ => None end.
Definition meta_of (a : TokenMetaAnswer) : option TokenMeta :=
  base ← number_of a.(ta_baseDecimals); quote ← number_of a.(ta_quoteDecimals);
  exchange ← truthy (Some a.(ta_exchangeQuotePerBaseAtomic)); limit ← truthy (Some a.(ta_orderPriceLimit));
  Some {| tm_baseDecimals := base; tm_quoteDecimals := quote; tm_exchangeQuotePerBaseAtomic := exchange;
          tm_orderPriceLimit := limit |}.

(** The effect that sets the token data: anything else keeps what is there. *)
Definition meta_arrives (r : Reply TokenMetaAnswer) (p : TradePanel) : TradePanel :=
  match (a ← r.(re_data); if r.(re_ok) && r.(re_json_ok) then meta_of a else None) with
  | Some m => with_tokenMeta (Some m) p
  | None => p
  end.

(** ** What is rendered from the state *)

Definition baseDecimals (p : TradePanel) : nat := default 6%nat (tm_baseDecimals <$> p.(tf_tokenMeta)).
Definition quoteDecimals (p : TradePanel) : nat := default 6%nat (tm_quoteDecimals <$> p.(tf_tokenMeta)).
Definition quotePerBaseAtomic (p : TradePanel) : res Z :=
  BigInt (default "100" (tm_exchangeQuotePerBaseAtomic <$> p.(tf_tokenMeta))).
Definition orderPriceLimitStr (p : TradePanel) : string := default "100" (tm_orderPriceLimit <$> p.(tf_tokenMeta)).
Definition humanQuotePerBase (p : TradePanel) : res Z :=
  q ← quotePerBaseAtomic p; Ok (q * 10 ^ Z.max 0 (Z.of_nat (baseDecimals p) - Z.of_nat (quoteDecimals p))).

(** ** The handlers *)

Definition reading {P W A} (f : P → A) : M (P * W) A := λ w, (Ok (f w.1), w).

(** [JSON.stringify({ tradeWithdrawBuyerBase, ownerCommitmentHex })] *)
Definition NYX_TRADE_WITHDRAW_KEY : string := "nyx_dapp_trade_withdraw_v1".
Definition note_json (n : BuyerBaseNote) : Json :=
  JObj [("matchId", JStr n.(bn_matchId)); ("leafIndex", JStr n.(bn_leafIndex)); ("amount", JStr n.(bn_amount));
        ("nonce", JStr n.(bn_nonce)); ("blindingR", JStr n.(bn_blindingR)); ("commitmentHex", JStr n.(bn_commitmentHex));
        ("tokenMintBase58", JStr n.(bn_tokenMintBase58)); ("vaultLeafCountAfter", JStr n.(bn_vaultLeafCountAfter))].
Definition hint_json (n : BuyerBaseNote) (ownerCommitmentHex : option string) : Json :=
  JObj (("tradeWithdrawBuyerBase", note_json n) :: text_member "ownerCommitmentHex" ownerCommitmentHex).

Section trade.
Context `{NodeCrypto} `{Web3} `{Base58} `{KeyOps} `{WalletErrors} {W : Type} (page : Page W).
Implicit Types p : TradePanel.

Definition appendReceipt (lines : list SignatureItem) : M (TradePanel * W) () :=
  setting (λ q, with_receipt (q.(tf_receipt) ++ lines) q).

(** The session a handler needs. *)
Definition session_or (message : string) : M (TradePanel * W) DappSessionV1 :=
  session ← outside (page_session page);
  match session with Some s => mret s | None => throw (Error message) end.

Definition register_request (s : DappSessionV1) : RegisterBody :=
  {| rb_phantomSignatureBase58 := s.(ss_phantomSignatureBase58); rb_ownerPubkeyBase58 := s.(ss_ownerPubkeyBase58);
     rb_proof := s.(ss_proof) |}.

Definition runRegister : M (TradePanel * W) () :=
  s ← session_or "Complete the identity step above first.";
  _ ← setting (with_busy true);
  _ ← setting (with_error None);
  reply ← outside (page.(pg_register_wallet) (register_request s));
  _ ← guard_throw (negb (reply.(re_ok) && reply.(re_json_ok))) (reply_failure reply);
  _ ← match reply.(re_data) with
      | Some json =>
          if json.(ra_alreadyRegistered) then
            appendReceipt [{| si_label := "wallet already registered (PDA " +:+ String.substring 0 8 json.(ra_walletPdaBase58) +:+ "…)";
                              si_signature := "skipped"; si_cluster := "l1" |}]
          else
            match json.(ra_instruction) with
            | Some instruction =>
                ix ← liftR (instructionFromJson instruction);
                sig ← outside (forward page [ix]);
                appendReceipt [{| si_label := "create_wallet (L1)"; si_signature := sig; si_cluster := "l1" |}]
            | None => throw (Error "register-wallet: missing instruction in response")
            end
      | None => throw (Error "register-wallet: missing instruction in response")
      end;
  _ ← setting (with_step flow_registered);
  setting (with_busy false).

Definition slot_request (s : DappSessionV1) : InitSlotBody :=
  {| ib_phantomSignatureBase58 := s.(ss_phantomSignatureBase58); ib_ownerPubkeyBase58 := s.(ss_ownerPubkeyBase58);
     ib_tradingSecretKeyBase58 := s.(ss_tradingSecretKeyBase58) |}.

Definition runInitSlot : M (TradePanel * W) () :=
  s ← session_or "No session";
  _ ← setting (with_busy true);
  _ ← setting (with_error None);
  reply ← outside (page.(pg_init_slot) (slot_request s));
  json ← liftR (required reply);
  _ ← setting (with_slotIdx (Some json.(isa_slotIdx)));
  _ ← setting (with_step flow_slot_ready);
  setting (with_busy false).

Definition baseAtomsForCurrentInput p : res Z :=
  baseAtoms ← atoms_of p.(tf_baseAmount) (baseDecimals p);
  _ ← throw_if (baseAtoms <=? 0) (Error "Base amount must be > 0");
  Ok baseAtoms.

(** The quote to deposit, which covers the bid. *)
Definition quote_deposit p : res Z :=
  baseAtoms ← baseAtomsForCurrentInput p;
  quotePer ← quotePerBaseAtomic p;
  let quoteAtoms := baseAtoms * quotePer in
  priceLim ← BigInt (orderPriceLimitStr p);
  let bidNotional := baseAtoms * priceLim in
  _ ← throw_if (quoteAtoms <? bidNotional)
        (Error ("Quote deposit (" +:+ formatAtoms quoteAtoms (quoteDecimals p) +:+ " QUOTE) is smaller than the bid notional ("
                +:+ formatAtoms bidNotional (quoteDecimals p)
                +:+ " QUOTE). Lower the base size or the order price so the shielded deposit covers the trade."));
  Ok quoteAtoms.

Definition quote_request (s : DappSessionV1) p (quoteAtoms : Z) : DepositBody :=
  {| db_phantomSignatureBase58 := s.(ss_phantomSignatureBase58); db_ownerPubkeyBase58 := s.(ss_ownerPubkeyBase58);
     db_side := Some "quote"; db_amount := Some (bigint_string quoteAtoms); db_nonce := Some p.(tf_depositNonce) |}.

Definition runTradeDeposit p : M (TradePanel * W) () :=
  s ← session_or "No session";
  quoteAtoms ← liftR (quote_deposit p);
  _ ← setting (with_busy true);
  _ ← setting (with_error None);
  reply ← outside (page.(pg_deposit_prepare) (quote_request s p quoteAtoms));
  json ← liftR (required reply);
  ix ← liftR (instructionFromJson json.(dpa_instruction));
  sig ← outside (forward page [ix]);
  _ ← appendReceipt [{| si_label := "deposit quote collateral (L1)"; si_signature := sig; si_cluster := "l1" |}];
  _ ← setting (with_depositNote (Some {| tn_commitmentHex := json.(dpa_preview).(dv_noteCommitmentHex);
                                         tn_amount := bigint_string quoteAtoms |}));
  _ ← setting (with_step flow_deposited);
  setting (with_busy false).

(** *** The order *)

(** The note and the slot an order needs. *)
Definition order_ready p : option (Z * TradeNote) :=
  slotIdx ← p.(tf_slotIdx); note ← p.(tf_depositNote);
  if bool_decide (note.(tn_commitmentHex) = "") then None else Some (slotIdx, note).

(** The size of the order, whose notional the note covers. *)
Definition order_size p (note : TradeNote) : res Z :=
  baseAtoms ← baseAtomsForCurrentInput p;
  priceLim ← BigInt (match truthy (Some (orderPriceLimitStr p)) with Some t => t | None => "0" end);
  noteAmt ← BigInt note.(tn_amount);
  let notional := baseAtoms * priceLim in
  _ ← throw_if (noteAmt <? notional)
        (Error ("Bid notional (" +:+ formatAtoms notional (quoteDecimals p) +:+ " QUOTE) exceeds your shielded quote note ("
                +:+ formatAtoms noteAmt (quoteDecimals p)
                +:+ " QUOTE). Lower the base size or price limit, or deposit more quote."));
  Ok baseAtoms.

(** [Keypair.fromSecretKey(bs58.decode(text))] *)
Definition trading_key (text : option string) : res Keypair :=
  match text with
  | Some text => secret ← bs58_decode text; Keypair_fromSecretKey secret
  | None => Throw (TypeError "Expected String")
  end.

(** [s.publicData.ownerCommitmentHex] *)
Definition owner_commitment (s : DappSessionV1) : res (option string) :=
  match s.(ss_publicData) with
  | Some d => Ok d.(sp_ownerCommitmentHex)
  | None => Throw (TypeError "Cannot read properties of undefined (reading 'ownerCommitmentHex')")
  end.

Definition order_request (s : DappSessionV1) p (slotIdx baseAtoms : Z) (note : TradeNote) (c : OrderCtx)
    (owner : option string) : SubmitBody :=
  {| sb_phantomSignatureBase58 := s.(ss_phantomSignatureBase58); sb_ownerPubkeyBase58 := s.(ss_ownerPubkeyBase58);
     sb_tradingSecretKeyBase58 := s.(ss_tradingSecretKeyBase58); sb_slotIdx := Some slotIdx; sb_side := Some 0;
     sb_amount := Some (bigint_string baseAtoms); sb_priceLimit := Some (orderPriceLimitStr p);
     sb_noteAmount := Some note.(tn_amount); sb_expirySlot := Some c.(oc_expirySlot);
     sb_noteCommitmentHex := Some note.(tn_commitmentHex); sb_userOwnerCommitmentHex := owner;
     sb_orderIdHex := Some c.(oc_orderIdHex) |}.

(** The transaction for the rollup, paid and signed by the trading key. *)
Definition er_submit (trading : Keypair) (ix : TransactionInstruction) : M W string :=
  '(blockhash, lastValidBlockHeight) ← page.(pg_er).(pc_getLatestBlockhash);
  sig ← page.(pg_er).(pc_sendRawTransaction)
    {| tr_feePayer := Some trading.(kp_publicKey); tr_recentBlockhash := Some blockhash; tr_instructions := [ix] |} [trading];
  _ ← page.(pg_er).(pc_confirmTransaction) sig blockhash lastValidBlockHeight;
  mret sig.

Definition runSubmitOrderEr p : M (TradePanel * W) () :=
  s ← session_or "Complete slot + deposit steps first.";
  match order_ready p with
  | None => throw (Error "Complete slot + deposit steps first.")
  | Some (slotIdx, note) =>
      baseAtoms ← liftR (order_size p note);
      _ ← setting (with_busy true);
      _ ← setting (with_error None);
      trading ← liftR (trading_key s.(ss_tradingSecretKeyBase58));
      now ← outside page.(pg_slot);
      orderId ← outside page.(pg_random16);
      let c := {| oc_orderIdHex := toHex orderId; oc_expirySlot := bigint_string (now + 500) |} in
      _ ← setting (with_orderCtx (Some c));
      owner ← liftR (owner_commitment s);
      reply ← outside (page.(pg_build_submit_order) (order_request s p slotIdx baseAtoms note c owner));
      json ← liftR (required reply);
      ix ← liftR (instructionFromJson json.(sba_instruction));
      sig ← outside (er_submit trading ix);
      _ ← appendReceipt [{| si_label := "submit_order bid (PER)"; si_signature := sig; si_cluster := "er" |}];
      _ ← setting (with_step flow_order_er);
      setting (with_busy false)
  end.

(** *** The match *)

Definition match_request (s : DappSessionV1) p (slotIdx baseAtoms : Z) (c : OrderCtx) (owner : option string) : MatchBody :=
  {| mb_phantomSignatureBase58 := s.(ss_phantomSignatureBase58); mb_ownerPubkeyBase58 := s.(ss_ownerPubkeyBase58);
     mb_tradingSecretKeyBase58 := s.(ss_tradingSecretKeyBase58); mb_userSlotIdx := Some slotIdx; mb_userSide := Some 0;
     mb_userAmount := Some (bigint_string baseAtoms); mb_userPriceLimit := Some (orderPriceLimitStr p);
     mb_userNoteAmount := Some (default "0" (tn_amount <$> p.(tf_depositNote)));
     mb_userNoteCommitmentHex := Some (default "" (tn_commitmentHex <$> p.(tf_depositNote)));
     mb_userOwnerCommitmentHex := owner; mb_userOrderIdHex := Some c.(oc_orderIdHex);
     mb_userExpirySlot := Some c.(oc_expirySlot) |}.

(** [orderCtxRef.current], when both of its texts are there. *)
Definition order_ctx p : option OrderCtx :=
  c ← p.(tf_orderCtx);
  if bool_decide (c.(oc_orderIdHex) = "" ∨ c.(oc_expirySlot) = "") then None else Some c.

(** The note of the trade, kept for its withdrawal; storage that fails is ignored. *)
Definition keep_note (n : BuyerBaseNote) (owner : res (option string)) : M W () :=
  try_catch
    (o ← liftR owner; page.(pg_storage).(sg_setItem) NYX_TRADE_WITHDRAW_KEY (JSON_compact (hint_json n o)))
    (λ _, mret ()).

Definition runCounterMatch p : M (TradePanel * W) () :=
  s ← session_or "Missing slot";
  match p.(tf_slotIdx) with
  | None => throw (Error "Missing slot")
  | Some slotIdx =>
      _ ← setting (with_busy true);
      _ ← setting (with_error None);
      ctx ← reading order_ctx;
      match ctx with
      | None => throw (Error "Internal: order id / expiry missing — submit_order step must run first.")
      | Some c =>
          baseAtoms ← liftR (baseAtomsForCurrentInput p);
          owner ← liftR (owner_commitment s);
          reply ← outside (page.(pg_counter_and_match) (match_request s p slotIdx baseAtoms c owner));
          json ← liftR (required reply);
          _ ← appendReceipt json.(ma_signatures);
          _ ← outside (keep_note json.(ma_tradeWithdrawBuyerBase) (owner_commitment s));
          _ ← setting (with_step flow_matched);
          setting (with_busy false)
      end
  end.

(** *** The button *)

Definition trade_refresh : M (TradePanel * W) () :=
  session ← outside (page_session page);
  match session with Some _ => mret () | None => setting (with_balances None) end.

Definition run_step p : M (TradePanel * W) () :=
  match p.(tf_step) with
  | flow_idle => runRegister
  | flow_registered => runInitSlot
  | flow_slot_ready => runTradeDeposit p
  | flow_deposited => runSubmitOrderEr p
  | flow_order_er => runCounterMatch p
  | flow_matched => mret ()
  end.

(** For a panel rendered as [p]. *)
Definition nextAction p : M (TradePanel * W) () :=
  try_catch
    (_ ← trade_refresh;
     session ← outside (page_session page);
     match session with None => mret () | Some _ => run_step p end)
    (λ e, _ ← setting (with_error (Some (exn_message e))); setting (with_busy false)).

Definition trade_button_disabled p : bool := p.(tf_busy) || bool_decide (p.(tf_step) = flow_matched).
Definition size_disabled p : bool := match p.(tf_step) with flow_idle | flow_registered => false | _ => true end.

Definition trade_fetchBalances (owner : string) : M (TradePanel * W) () :=
  b ← outside (try_catch (page.(pg_balances) owner)
                 (λ e, mret {| bs_ok := false; bs_error := Some (exn_message e); bs_base := None; bs_quote := None |}));
  setting (with_balances (Some b)).
End trade.

(** ** Events, one after the other *)
Section events.
Context `{NodeCrypto} `{Web3} `{Base58} `{KeyOps} `{WalletErrors} {W : Type} (page : Page W).

(** Everything but the arrival of the token data. *)
Inductive trade_step : TradePanel * W → TradePanel * W → Prop :=
  | tv_click p w r c : trade_button_disabled p = false → nextAction page p (p, w) = (r, c) → trade_step (p, w) c
  | tv_edit p w amount : size_disabled p = false → trade_step (p, w) (with_baseAmount amount p, w)
  | tv_balances p w owner r c : trade_fetchBalances page owner (p, w) = (r, c) → trade_step (p, w) c
  | tv_world p w w' : trade_step (p, w) (p, w').

Inductive trade_event : TradePanel * W → TradePanel * W → Prop :=
  | tv_step c c' : trade_step c c' → trade_event c c'
  | tv_meta p w r : trade_event (p, w) (meta_arrives r p, w).
End events.

(** ** What the two order handlers did *)

Section orders.
Context `{NodeCrypto} `{Web3} `{Base58} `{KeyOps} `{WalletErrors} {W : Type} (page : Page W).
Implicit Types p : TradePanel.

(** What an order is made of; only the first two steps of the flow change the size. *)
Definition order_data p := (p.(tf_slotIdx), p.(tf_baseAmount), p.(tf_tokenMeta), p.(tf_depositNote), p.(tf_orderCtx)).

Lemma session_or_Ok m (w : TradePanel * W) s w' : session_or page m w = (Ok s, w') →
  (∃ v, page_session page w.2 = (Ok (Some s), v)) ∧ w'.1 = w.1.
Proof.
  unfold session_or. intros Hr. apply M_bind_Ok in Hr as ([s'|] & w1 & [Hs Hw]%outside_Ok & Hr); [|discriminate Hr].
  injection Hr as <- <-. split; [by eexists|exact Hw].
Qed.

(** A transaction the rollup confirmed. *)
Definition er_sent (trading : Keypair) (ix : TransactionInstruction) (sig : string) : Prop :=
  ∃ hash height v v1 u v2,
    page.(pg_er).(pc_sendRawTransaction)
      {| tr_feePayer := Some trading.(kp_publicKey); tr_recentBlockhash := Some hash; tr_instructions := [ix] |} [trading] v = (Ok sig, v1) ∧
    page.(pg_er).(pc_confirmTransaction) sig hash height v1 = (Ok u, v2).

Lemma er_submit_Ok trading ix v sig v' : er_submit page trading ix v = (Ok sig, v') → er_sent trading ix sig.
Proof.
  unfold er_submit. intros Hr. apply M_bind_Ok in Hr as ([hash height] & v1 & _ & Hr). cbn beta iota in Hr.
  apply M_bind_Ok in Hr as (sg & v2 & Hs & Hr). apply M_bind_Ok in Hr as (u & v3 & Hc & Hr). injection Hr as <- _.
  by exists hash, height, v1, v2, u, v3.
Qed.

(** A submit handler that finished. *)
Record submit_clicked p (q : TradePanel) (s : DappSessionV1) (slotIdx baseAtoms : Z) (note : TradeNote) (c : OrderCtx) (owner : option string)
    (ua : SubmitAnswer) (trading : Keypair) (ix : TransactionInstruction) (sig : string) : Prop := {
  sc_ready : order_ready p = Some (slotIdx, note) ∧ order_size p note = Ok baseAtoms ∧ owner_commitment s = Ok owner;
  sc_request : ∃ v reply v', page.(pg_build_submit_order) (order_request s p slotIdx baseAtoms note c owner) v = (Ok reply, v') ∧
    required reply = Ok ua;
  sc_sent : trading_key s.(ss_tradingSecretKeyBase58) = Ok trading ∧ instructionFromJson ua.(sba_instruction) = Ok ix ∧
    er_sent trading ix sig;
  sc_kept : order_data q = (Some slotIdx, p.(tf_baseAmount), p.(tf_tokenMeta), Some note, Some c) }.

Lemma order_ready_Some p slotIdx note : order_ready p = Some (slotIdx, note) →
  p.(tf_slotIdx) = Some slotIdx ∧ p.(tf_depositNote) = Some note ∧ note.(tn_commitmentHex) ≠ "".
Proof.
  unfold order_ready. destruct (tf_slotIdx p) as [i|]; [|done]. destruct (tf_depositNote p) as [n|]; [|done]. cbn [mbind option_bind].
  case_bool_decide; [done|]. by intros [= -> ->].
Qed.

Lemma runSubmitOrderEr_Ok p (w w' : TradePanel * W) u : order_data w.1 = order_data p → runSubmitOrderEr page p w = (Ok u, w') →
  ∃ s v slotIdx baseAtoms note c owner ua trading ix sig, page_session page w.2 = (Ok (Some s), v) ∧
    submit_clicked p w'.1 s slotIdx baseAtoms note c owner ua trading ix sig.
Proof.
  intros Hw Hr. unfold runSubmitOrderEr in Hr. apply M_bind_Ok in Hr as (s & w1 & [[v Hs] E1]%session_or_Ok & Hr).
  destruct (order_ready p) as [[slotIdx note]|] eqn:Hready; [|discriminate Hr].
  apply M_bind_Ok in Hr as (baseAtoms & w2 & [Hsize ->]%liftR_inv & Hr). do 2 (apply M_bind_Ok in Hr as ([] & ? & ->%setting_Ok & Hr)).
  apply M_bind_Ok in Hr as (trading & w2 & [Htk ->]%liftR_inv & Hr). apply M_bind_Ok in Hr as (now & w3 & [_ E3]%outside_Ok & Hr).
  apply M_bind_Ok in Hr as (oid & w4 & [_ E4]%outside_Ok & Hr). cbv zeta in Hr. set (c := {| oc_orderIdHex := toHex oid |}) in Hr.
  apply M_bind_Ok in Hr as ([] & ? & ->%setting_Ok & Hr). apply M_bind_Ok in Hr as (owner & ? & [Ho ->]%liftR_inv & Hr).
  apply M_bind_Ok in Hr as (reply & w5 & [Hapi E5]%outside_Ok & Hr). apply M_bind_Ok in Hr as (ua & w6 & [Hj ->]%liftR_inv & Hr).
  apply M_bind_Ok in Hr as (ix & w7 & [Hix ->]%liftR_inv & Hr). apply M_bind_Ok in Hr as (sig & w8 & [Her E8]%outside_Ok & Hr).
  do 2 (apply M_bind_Ok in Hr as ([] & ? & ->%setting_Ok & Hr)). apply setting_Ok in Hr as ->.
  exists s, v, slotIdx, baseAtoms, note, c, owner, ua, trading, ix, sig. split; [exact Hs|]. split.
  - by split_and!.
  - by exists w4.2, reply, w5.2.
  - split; [exact Htk|]. split; [exact Hix|]. by eapply er_submit_Ok.
  - destruct (order_ready_Some _ _ _ Hready) as (Hslot & Hnote & _). unfold order_data in *. cbn [fst].
    rewrite E8, E5. cbn [fst]. rewrite E4, E3. cbn [fst]. rewrite E1.
    cbn [with_step with_busy with_receipt with_orderCtx with_error tf_slotIdx tf_baseAmount tf_tokenMeta tf_depositNote tf_orderCtx].
    rewrite Hslot, Hnote in Hw. congruence.
Qed.

(** A match handler that finished. *)
Record match_clicked p (s : DappSessionV1) (slotIdx baseAtoms : Z) (c : OrderCtx) (owner : option string) (a : MatchAnswer) : Prop := {
  mc_ready : p.(tf_slotIdx) = Some slotIdx ∧ baseAtomsForCurrentInput p = Ok baseAtoms ∧ owner_commitment s = Ok owner;
  mc_request : ∃ v reply v', page.(pg_counter_and_match) (match_request s p slotIdx baseAtoms c owner) v = (Ok reply, v') ∧
    required reply = Ok a }.

Lemma runCounterMatch_Ok p (w w' : TradePanel * W) u : order_data w.1 = order_data p → runCounterMatch page p w = (Ok u, w') →
  ∃ s v slotIdx baseAtoms c owner a, page_session page w.2 = (Ok (Some s), v) ∧ order_ctx p = Some c ∧
    match_clicked p s slotIdx baseAtoms c owner a.
Proof.
  intros Hw Hr. unfold runCounterMatch in Hr. apply M_bind_Ok in Hr as (s & w1 & [[v Hs] E1]%session_or_Ok & Hr).
  destruct (tf_slotIdx p) as [slotIdx|] eqn:Hslot; [|discriminate Hr]. do 2 (apply M_bind_Ok in Hr as ([] & ? & ->%setting_Ok & Hr)).
  apply M_bind_Ok in Hr as (ctx & w2 & Hctx & Hr). unfold reading in Hctx. apply pair_eq in Hctx as [Hctx Ew]. apply Ok_inj in Hctx. subst w2.
  destruct ctx as [c|]; [|discriminate Hr].
  apply M_bind_Ok in Hr as (baseAtoms & w3 & [Hsize ->]%liftR_inv & Hr). apply M_bind_Ok in Hr as (owner & w3 & [Ho ->]%liftR_inv & Hr).
  apply M_bind_Ok in Hr as (reply & w4 & [Hapi _]%outside_Ok & Hr). apply M_bind_Ok in Hr as (a & w5 & [Hj ->]%liftR_inv & Hr).
  exists s, v, slotIdx, baseAtoms, c, owner, a. split; [exact Hs|]. split.
  - rewrite <-Hctx. cbn [fst]. rewrite E1. unfold order_data in Hw. unfold order_ctx.
    cbn [with_error with_busy tf_orderCtx]. congruence.
  - split; [by split_and!|]. by eexists _, reply, _.
Qed.

(** ** What the handlers leave alone *)

(** Until the match, the order is kept. *)
Definition order_held (d : option Z * string * option TokenMeta * option TradeNote * option OrderCtx) p : Prop :=
  (p.(tf_step) = flow_order_er ∨ p.(tf_step) = flow_matched) ∧ order_data p = d.

Lemma keeps_reading {P A} (I : P → Prop) (f : P → A) : keeps_inv I (reading f : M (P * W) A).
Proof. by intros w r w' Hi [= _ <-]. Qed.

(** A setter of a part that is not of the order. *)
Lemma order_held_set d f : (∀ q, order_data (f q) = order_data q) →
  (∀ q, (f q).(tf_step) = q.(tf_step) ∨ (f q).(tf_step) = flow_matched) → ∀ q, order_held d q → order_held d (f q).
Proof. intros Hd Hs q [Hq <-]. split; [|apply Hd]. destruct (Hs q) as [-> | ->]; auto. Qed.

Ltac trade_set := apply order_held_set; [done|intros; by auto].

Lemma runCounterMatch_keeps d p : keeps_inv (order_held d) (runCounterMatch page p).
Proof.
  unfold runCounterMatch, session_or, appendReceipt. panel_keeps; first [apply keeps_reading|revert select (order_held d _)].
  1-2: trade_set. 1: apply (order_held_set d (λ q, with_receipt _ q)); [done|intros; by left]. all: trade_set.
Qed.

Lemma nextAction_keeps d p w r c : order_held d p → nextAction page p (p, w) = (r, c) → order_held d c.1.
Proof.
  intros Hp. unfold nextAction. intros Hr.
  assert (Hrun : keeps_inv (order_held d) (_ ← trade_refresh page; session ← outside (page_session page);
     match session with None => mret () | Some _ => run_step page p end)).
  { apply keeps_bind; [unfold trade_refresh; panel_keeps; revert select (order_held d _); trade_set|]. intros [].
    apply keeps_bind; [apply keeps_outside|]. intros [s|]; [|apply keeps_ret]. unfold run_step.
    destruct Hp as [[-> | ->] _]; [apply runCounterMatch_keeps|apply keeps_ret]. }
  apply try_catch_inv in Hr as [(u & Hr & _)|(e & w1 & Hr & Hc)]; pose proof (Hrun (p, w) _ _ Hp Hr) as Hk; [exact Hk|].
  injection Hc as _ <-. revert Hk. apply (order_held_set d (λ q, with_busy false (with_error (Some (exn_message e)) q))); [done|intros; by left].
Qed.

Lemma trade_step_keeps d c c' : trade_step page c c' → order_held d c.1 → order_held d c'.1.
Proof.
  intros Hs Hc. destruct Hs as [p w r x _ Hr|p w amount Hd|p w owner r x Hr|p w w']; cbn [fst] in *; [..|exact Hc].
  - by eapply nextAction_keeps.
  - unfold size_disabled in Hd. destruct Hc as [[E|E] _]; rewrite E in Hd; discriminate Hd.
  - assert (Hk : keeps_inv (order_held d) (trade_fetchBalances page owner)).
    { unfold trade_fetchBalances. panel_keeps. revert select (order_held d _). trade_set. }
    exact (Hk (p, w) r x Hc Hr).
Qed.

Lemma trade_steps_keep d c c' : rtc (trade_step page) c c' → order_held d c.1 → order_held d c'.1.
Proof. induction 1 as [|x y z Hs _ IH]; [done|]. intros Hx. by apply IH, (trade_step_keeps d x y). Qed.

Lemma trade_refresh_keeps (I : TradePanel → Prop) : (∀ q, I q → I (with_balances None q)) → keeps_inv I (trade_refresh page).
Proof. intros Hi. unfold trade_refresh. panel_keeps. by apply Hi. Qed.

Lemma runSubmitOrderEr_throws p : throws_inv (λ q, q.(tf_step) = flow_deposited) (runSubmitOrderEr page p).
Proof. unfold runSubmitOrderEr, session_or, appendReceipt. panel_keeps; done. Qed.
Lemma runCounterMatch_throws p : throws_inv (λ q, q.(tf_step) = flow_order_er) (runCounterMatch page p).
Proof. unfold runCounterMatch, session_or, appendReceipt. panel_keeps; first [done|apply keeps_reading]. Qed.

(** A click whose handler does not end in its last step leaves the step as it was. *)
Lemma nextAction_inv p w r c : throws_inv (λ q, q.(tf_step) = p.(tf_step)) (run_step page p) → nextAction page p (p, w) = (r, c) →
  (∃ u w0, order_data w0.1 = order_data p ∧ run_step page p w0 = (Ok u, c)) ∨ c.1.(tf_step) = p.(tf_step).
Proof.
  intros Ht. unfold nextAction. intros Hr. apply try_catch_inv in Hr as [(u & Hr & _)|(e & w1 & Hr & Hc)].
  - apply M_bind_Ok in Hr as ([] & w0 & Hr0 & Hr).
    pose proof (trade_refresh_keeps (λ q, order_data q = order_data p ∧ q.(tf_step) = p.(tf_step)) (λ _ H, H) (p, w) _ _ (conj eq_refl eq_refl) Hr0) as [? ?].
    apply M_bind_Ok in Hr as ([s|] & w1 & [_ Hw1]%outside_Ok & Hr).
    + left. exists u, w1. rewrite Hw1. by split.
    + injection Hr as _ <-. right. by rewrite Hw1.
  - right. injection Hc as _ <-. cbn [fst with_busy with_error tf_step].
    assert (Hi : throws_inv (λ q, q.(tf_step) = p.(tf_step)) (_ ← trade_refresh page; session ← outside (page_session page);
       match session with None => mret () | Some _ => run_step page p end)).
    { apply throws_bind; [by apply trade_refresh_keeps|]. intros []. apply throws_bind; [apply keeps_outside|].
      intros [s|]; [exact Ht|apply keeps_throws, keeps_ret]. }
    exact (Hi (p, w) e w1 eq_refl Hr).
Qed.

Lemma click_submit p w r c : p.(tf_step) = flow_deposited → nextAction page p (p, w) = (r, c) → c.1.(tf_step) = flow_order_er →
  ∃ s v v' slotIdx baseAtoms note x owner ua trading ix sig, page_session page v = (Ok (Some s), v') ∧
    submit_clicked p c.1 s slotIdx baseAtoms note x owner ua trading ix sig.
Proof.
  intros Hp Hr Hc. apply nextAction_inv in Hr as [(u & w0 & Hw & Hr)|E]; [|congruence|].
  - unfold run_step in Hr. rewrite Hp in Hr.
    destruct (runSubmitOrderEr_Ok _ _ _ _ Hw Hr) as (s & v & i & b & n & x & o & ua & tk & ix & sig & Hs & Hk).
    by exists s, w0.2, v, i, b, n, x, o, ua, tk, ix, sig.
  - unfold run_step. rewrite Hp. apply runSubmitOrderEr_throws.
Qed.

Lemma click_match p w r c : p.(tf_step) = flow_order_er → nextAction page p (p, w) = (r, c) → c.1.(tf_step) = flow_matched →
  ∃ s v v' slotIdx baseAtoms x owner a, page_session page v = (Ok (Some s), v') ∧ order_ctx p = Some x ∧
    match_clicked p s slotIdx baseAtoms x owner a.
Proof.
  intros Hp Hr Hc. apply nextAction_inv in Hr as [(u & w0 & Hw & Hr)|E]; [|congruence|].
  - unfold run_step in Hr. rewrite Hp in Hr.
    destruct (runCounterMatch_Ok _ _ _ _ Hw Hr) as (s & v & i & b & x & o & a & Hs & Hk).
    by exists s, w0.2, v, i, b, x, o, a.
  - unfold run_step. rewrite Hp. apply runCounterMatch_throws.
Qed.

(** *** Handlers whose steps all succeed *)

Lemma click_trade_session p v v0 v1 s : page_session page v = (Ok (Some s), v0) → page_session page v0 = (Ok (Some s), v1) →
  nextAction page p (p, v) = try_catch (run_step page p)
    (λ e, _ ← setting (with_error (Some (exn_message e))); setting (with_busy false)) (p, v1).
Proof.
  intros Hs Hs'. unfold nextAction, try_catch. assert (Hr : trade_refresh page (p, v) = (Ok (), (p, v0))).
  { unfold trade_refresh. by rewrite (M_bind_run _ _ _ _ _ (outside_run (page_session page) (p, v) _ _ Hs)). }
  rewrite (M_bind_run _ _ _ _ _ Hr). by rewrite (M_bind_run _ _ _ _ _ (outside_run (page_session page) (p, v0) _ _ Hs')).
Qed.

Lemma session_or_run m (w : TradePanel * W) v s : page_session page w.2 = (Ok (Some s), v) → session_or page m w = (Ok s, (w.1, v)).
Proof. intros Hs. unfold session_or. by rewrite (M_bind_run _ _ _ _ _ (outside_run (page_session page) w _ _ Hs)). Qed.

Lemma runSubmitOrderEr_runs p v v1 v2 v3 v4 v5 s i n b trading now oid owner ua ix sig :
  let c := {| oc_orderIdHex := toHex oid; oc_expirySlot := bigint_string (now + 500) |} in
  page_session page v = (Ok (Some s), v1) → order_ready p = Some (i, n) → order_size p n = Ok b →
  trading_key s.(ss_tradingSecretKeyBase58) = Ok trading → page.(pg_slot) v1 = (Ok now, v2) → page.(pg_random16) v2 = (Ok oid, v3) →
  owner_commitment s = Ok owner →
  page.(pg_build_submit_order) (order_request s p i b n c owner) v3 = (Ok (reply_of (Sent ua)), v4) →
  instructionFromJson ua.(sba_instruction) = Ok ix → er_submit page trading ix v4 = (Ok sig, v5) →
  ∃ q, runSubmitOrderEr page p (p, v) = (Ok (), (q, v5)) ∧ q.(tf_step) = flow_order_er ∧
    order_data q = (p.(tf_slotIdx), p.(tf_baseAmount), p.(tf_tokenMeta), p.(tf_depositNote), Some c).
Proof.
  intros c Hs Hready Hsize Htk Hslot Hrand Ho Hreq Hix Her. unfold runSubmitOrderEr.
  rewrite (M_bind_run _ _ _ _ _ (session_or_run _ (p, v) _ _ Hs)), Hready. cbn [fst]. rewrite (M_bind_lift _ _ _ _ Hsize).
  do 2 (erewrite M_bind_run by reflexivity). rewrite (M_bind_lift _ _ _ _ Htk). cbn [fst snd].
  erewrite M_bind_run by (apply outside_run; exact Hslot). cbn [fst snd].
  erewrite M_bind_run by (apply outside_run; exact Hrand). cbv zeta. fold c. cbn [fst snd].
  erewrite M_bind_run by reflexivity. rewrite (M_bind_lift _ _ _ _ Ho). cbn [fst snd].
  erewrite M_bind_run by (apply outside_run; exact Hreq). cbn [fst snd]. rewrite (M_bind_lift _ ua) by reflexivity.
  rewrite (M_bind_lift _ _ _ _ Hix). erewrite M_bind_run by (apply outside_run; exact Her). by eexists.
Qed.

Lemma runCounterMatch_runs p v v1 v2 s i b c owner a :
  page_session page v = (Ok (Some s), v1) → p.(tf_slotIdx) = Some i → order_ctx p = Some c → baseAtomsForCurrentInput p = Ok b →
  owner_commitment s = Ok owner →
  page.(pg_counter_and_match) (match_request s p i b c owner) v1 = (Ok {| re_ok := true; re_status := 200; re_json_ok := true; re_error := None; re_data := Some a |}, v2) →
  ∃ q v3, runCounterMatch page p (p, v) = (Ok (), (q, v3)) ∧ q.(tf_step) = flow_matched.
Proof.
  intros Hs Hi Hc Hb Ho Hreq. unfold runCounterMatch.
  rewrite (M_bind_run _ _ _ _ _ (session_or_run _ (p, v) _ _ Hs)), Hi. cbn [fst]. do 2 (erewrite M_bind_run by reflexivity). cbn [fst snd].
  erewrite M_bind_run by reflexivity. unfold order_ctx in *. cbn [fst with_error with_busy tf_orderCtx]. rewrite Hc.
  rewrite (M_bind_lift _ _ _ _ Hb), (M_bind_lift _ _ _ _ Ho). erewrite M_bind_run by (apply outside_run; exact Hreq). cbn [fst snd].
  rewrite (M_bind_lift _ a) by reflexivity. erewrite M_bind_run by reflexivity. cbn [fst snd].
  destruct (keep_note page a.(ma_tradeWithdrawBuyerBase) (owner_commitment s) v2) as [[[]|e] v3] eqn:Hk.
  - erewrite M_bind_run by (apply outside_run; exact Hk). by eexists _, v3.
  - exfalso. unfold keep_note, try_catch in Hk. destruct ((liftR (owner_commitment s) ≫= _) v2) as [[?|?] ?]; discriminate Hk.
Qed.
End orders.

(** ** The panel, the server and the matching engine *)

(** How an answer of [counter-and-match] arrives. *)
Definition reply_of_counter (a : CounterAnswer) : Reply MatchAnswer :=
  match a with
  | Counter_sent a => {| re_ok := true; re_status := 200; re_json_ok := true; re_error := None; re_data := Some a |}
  | Counter_refused status error _ =>
      {| re_ok := false; re_status := status; re_json_ok := false; re_error := Some error; re_data := None |}
  end.

(** The two requests are for the same order. *)
Record same_trade_order (sb : SubmitBody) (mb : MatchBody) : Prop := {
  so_who : sb.(sb_phantomSignatureBase58) = mb.(mb_phantomSignatureBase58) ∧ sb.(sb_ownerPubkeyBase58) = mb.(mb_ownerPubkeyBase58) ∧
    sb.(sb_tradingSecretKeyBase58) = mb.(mb_tradingSecretKeyBase58);
  so_where : sb.(sb_slotIdx) = mb.(mb_userSlotIdx);
  so_terms : sb.(sb_side) = mb.(mb_userSide) ∧ sb.(sb_amount) = mb.(mb_userAmount) ∧ sb.(sb_priceLimit) = mb.(mb_userPriceLimit) ∧
    sb.(sb_expirySlot) = mb.(mb_userExpirySlot);
  so_note : sb.(sb_noteAmount) = mb.(mb_userNoteAmount) ∧ sb.(sb_noteCommitmentHex) = mb.(mb_userNoteCommitmentHex) ∧
    sb.(sb_userOwnerCommitmentHex) = mb.(mb_userOwnerCommitmentHex);
  so_id : sb.(sb_orderIdHex) = mb.(mb_userOrderIdHex) }.

Lemma order_size_Ok p note b : order_size p note = Ok b →
  baseAtomsForCurrentInput p = Ok b ∧ ∃ price amt, BigInt (orderPriceLimitStr p) = Ok price ∧ BigInt note.(tn_amount) = Ok amt ∧ b * price <= amt.
Proof.
  unfold order_size. intros Hr. apply res_bind_Ok in Hr as (b' & Hb & Hr). apply res_bind_Ok in Hr as (price & Hp & Hr).
  apply res_bind_Ok in Hr as (amt & Ha & Hr). cbv zeta in Hr. apply res_bind_Ok in Hr as ([] & Hle & Hr). apply Ok_inj in Hr as <-.
  unfold throw_if in Hle. destruct (Z.ltb_spec amt (b' * price)); [discriminate Hle|].
  split; [exact Hb|]. exists price, amt. split; [|by split]. destruct (orderPriceLimitStr p); [|exact Hp]. rewrite <-Hp. reflexivity.
Qed.

Section mirror.
Context `{NodeCrypto} `{!NodeCryptoLaws} `{Poseidon} `{Web3} `{Base58} `{!Base58Laws} `{Nacl} `{ForeignIx} `{KeyOps} `{WalletErrors}.
Context {W S S' : Type} (page : Page W).

(** An answer a page got to a request. *)
Definition answered {A B} (request : B → M W (Reply A)) (body : B) (a : A) : Prop :=
  ∃ v reply v', request body v = (Ok reply, v') ∧ required reply = Ok a.

(** The key the page signs with is the one the server finds in the session. *)
Lemma trading_key_session (o : option string) sig own seed tk k :
  session_texts sig own o seed tk → trading_key o = Ok k → tk = k.(kp_publicKey).
Proof.
  intros (s & w & t & kp & _ & _ & [-> _]%truthy_Some & Hs & ->) Hk. cbn [trading_key] in Hk. unfold trading_session in Hs.
  apply res_bind_Ok in Hs as (v & _ & Hs). cbv zeta in Hs. apply res_bind_Ok in Hs as (sec & Hsec & Hs). rewrite Hsec in Hk.
  cbn [mbind res_bind] in Hk. rewrite Hk in Hs. apply res_bind_Ok in Hs as (kp' & [= <-] & Hs).
  apply res_bind_Ok in Hs as (? & _ & Hs). apply res_bind_Ok in Hs as (? & _ & Hs). apply res_bind_Ok in Hs as (? & _ & Hs).
  by injection Hs as _ ->.
Qed.

Lemma number_text_once o t n m : o = Some t → BigInt t = Ok n → number_text o m → m = n.
Proof. intros -> Ht (t' & [[= ->] _]%truthy_Some & Ht'). rewrite Ht in Ht'. by injection Ht' as ->. Qed.

Lemma size_positive p b : baseAtomsForCurrentInput p = Ok b → 0 < b.
Proof.
  unfold baseAtomsForCurrentInput. intros Hr. apply res_bind_Ok in Hr as (x & _ & Hr). apply res_bind_Ok in Hr as ([] & Hp & Hr).
  apply throw_if_Ok, Z.leb_gt in Hp. by apply Ok_inj in Hr as <-.
Qed.

(** [C15] The trade panel has its own order matched.  Let a click of the button end
    with the order submitted, any number of clicks, refreshes and answers follow
    while the token data stay as they are, and a later click end with the order
    matched.  Then the page asked the server for an order in its slot, of the size
    typed, whose notional the deposited note covers, and sent the instruction it
    got and had it confirmed on the rollup, signed and paid by the trading key the
    instruction names; the request to match it was for the same order, in every
    field; and the matching engine reads the order the server built and the maker's
    order behind the answer as mirror images, the batch ran over just their two
    slots when the servers run one configuration, and the answer reports the
    settlement of the note and the order id of the request. *)
Theorem trade_panel_mirrors vault_id (server : OrderServer S') (server' : OrderServer S) s p1 v1 r1 c1 p2 v2 r2 c2 :
  distinct_discriminators (fst <$> matching_table) → session_is page s →
  served_by (λ _, True) page.(pg_build_submit_order) (build_submit_order server) →
  (∀ body v r v', page.(pg_counter_and_match) body v = (Ok r, v') →
     ∃ u a u', counter_and_match server' (Ok body) u = (Ok a, u') ∧ r = reply_of_counter a) →
  p1.(tf_step) = flow_deposited → nextAction page p1 (p1, v1) = (r1, c1) → c1.1.(tf_step) = flow_order_er →
  rtc (trade_step page) c1 (p2, v2) → p2.(tf_step) = flow_order_er → nextAction page p2 (p2, v2) = (r2, c2) →
  c2.1.(tf_step) = flow_matched →
  ∃ slotIdx size price note noteAmount c owner ua a trading ix sig,
    let sb := order_request s p1 slotIdx size note c owner in let mb := match_request s p2 slotIdx size c owner in
    same_trade_order sb mb ∧ answered page.(pg_build_submit_order) sb ua ∧ answered page.(pg_counter_and_match) mb a ∧
    trading_key s.(ss_tradingSecretKeyBase58) = Ok trading ∧ instructionFromJson ua.(sba_instruction) = Ok ix ∧ er_sent page trading ix sig ∧
    p1.(tf_slotIdx) = Some slotIdx ∧ p1.(tf_depositNote) = Some note ∧
    baseAtomsForCurrentInput p1 = Ok size ∧ BigInt (orderPriceLimitStr p1) = Ok price ∧
    BigInt note.(tn_amount) = Ok noteAmount ∧ size * price <= noteAmount ∧
    ∃ programs p userPda x order receipt makerIx makerPda,
      mirrored_orders vault_id server server' sb mb ua a programs p ix userPda x order receipt makerIx makerPda ∧ same_slot sb mb ∧
      p.(so_tradingKey) = trading.(kp_publicKey) ∧ p.(so_slotIdx) = slotIdx ∧ p.(so_side) = 0 ∧
      p.(so_amount) = size ∧ p.(so_priceLimit) = price ∧ p.(so_noteAmount) = noteAmount.
Proof.
  intros Hd Hses Hsub Hmatch Hp1 Hc1 Hs1 Hsteps Hp2 Hc2 Hs2.
  destruct (click_submit _ _ _ _ _ Hp1 Hc1 Hs1) as (s1 & y & y' & i & b & n & x & o & ua & tk & ix & sig & Hy & Hsc).
  destruct (click_match _ _ _ _ _ Hp2 Hc2 Hs2) as (s2 & z & z' & i2 & b2 & x2 & o2 & a & Hz & Hx2 & Hmc).
  apply Hses in Hy as ->. apply Hses in Hz as ->. destruct (sc_ready _ _ _ _ _ _ _ _ _ _ _ _ _ Hsc) as (Hready & Hsize & Ho).
  destruct (order_ready_Some _ _ _ Hready) as (Hslot & Hnote & _). destruct (order_size_Ok _ _ _ Hsize) as (Hb & price & amt & Hprice & Hamt & Hle).
  pose proof (sc_kept _ _ _ _ _ _ _ _ _ _ _ _ _ Hsc) as Hkept.
  assert (Hdata : order_data p2 = order_data c1.1) by exact (proj2 (trade_steps_keep page _ _ _ Hsteps (conj (or_introl Hs1) eq_refl))).
  rewrite Hkept in Hdata. unfold order_data in Hdata. injection Hdata as Es Eb Em En Ex.
  destruct (mc_ready _ _ _ _ _ _ _ _ Hmc) as (Hslot2 & Hb2 & Ho2). rewrite Es in Hslot2. injection Hslot2 as <-.
  rewrite Ho in Ho2. apply Ok_inj in Ho2 as <-. unfold order_ctx in Hx2. rewrite Ex in Hx2. cbn [mbind option_bind] in Hx2.
  case_bool_decide; [discriminate Hx2|]. injection Hx2 as <-.
  assert (Hb' : baseAtomsForCurrentInput p2 = baseAtomsForCurrentInput p1).
  { unfold baseAtomsForCurrentInput, baseDecimals. by rewrite Eb, Em. }
  rewrite Hb', Hb in Hb2. apply Ok_inj in Hb2 as <-.
  destruct (sc_request _ _ _ _ _ _ _ _ _ _ _ _ _ Hsc) as (q & reply & q' & Hreq & Hj).
  destruct (served_sent _ _ _ _ _ _ _ _ Hsub Hreq Hj) as (k & k' & _ & Hbuilt).
  destruct (mc_request _ _ _ _ _ _ _ _ Hmc) as (q2 & reply2 & q2' & Hreq2 & Hj2).
  destruct (Hmatch _ _ _ _ Hreq2) as (k2 & a2 & k2' & Hran & ->).
  destruct a2 as [a2|? ? ?]; cbn [reply_of_counter required re_data re_ok re_json_ok] in Hj2; [|discriminate Hj2]. apply Ok_inj in Hj2 as ->.
  destruct (sc_sent _ _ _ _ _ _ _ _ _ _ _ _ _ Hsc) as (Htk & Hix & Her).
  assert (Eo : orderPriceLimitStr p2 = orderPriceLimitStr p1) by (unfold orderPriceLimitStr; by rewrite Em).
  destruct (counter_mirrors vault_id server server' _ _ _ _ _ _ _ _ Hd Hbuilt Hran eq_refl ltac:(cbn; by rewrite Eo) eq_refl)
    as (programs & po & uix & upda & dx & order & receipt & mix & mpda & Hmi).
  destruct (mi_built _ _ _ _ _ _ _ _ _ _ _ _ _ _ _ _ Hmi) as (Hix' & _). rewrite Hix in Hix'. apply Ok_inj in Hix' as <-.
  destruct (mi_user _ _ _ _ _ _ _ _ _ _ _ _ _ _ _ _ Hmi) as (_ & Hof).
  exists i, b, price, n, amt, x, o, ua, a, tk, ix, sig. cbv zeta. split; [|split; [by exists q, reply, q'|split; [by eexists q2, _, q2'|]]].
  2:{ do 9 (split; [eassumption|]). exists programs, po, upda, dx, order, receipt, mix, mpda. split; [exact Hmi|].
    split; [by split_and!|]. destruct (oo_session _ _ _ Hof) as (seed & Hses'). split; [exact (trading_key_session _ _ _ _ _ _ Hses' Htk)|].
    destruct (oo_place _ _ _ Hof) as [[= <-] [= <-]]. do 2 (split; [reflexivity|]).
    split; [|split].
    - eapply number_text_once; [reflexivity| |exact (oo_amount _ _ _ Hof)]. apply BigInt_text. pose proof (size_positive _ _ Hb). lia.
    - eapply number_text_once; [reflexivity|exact Hprice|exact (oo_price _ _ _ Hof)].
    - eapply number_text_once; [reflexivity|exact Hamt|exact (oo_noteAmount _ _ _ Hof)]. }
  split; cbn [order_request match_request sb_phantomSignatureBase58 sb_ownerPubkeyBase58 sb_tradingSecretKeyBase58 sb_slotIdx sb_side sb_amount
    sb_priceLimit sb_noteAmount sb_expirySlot sb_noteCommitmentHex sb_userOwnerCommitmentHex sb_orderIdHex mb_phantomSignatureBase58
    mb_ownerPubkeyBase58 mb_tradingSecretKeyBase58 mb_userSlotIdx mb_userSide mb_userAmount mb_userPriceLimit mb_userNoteAmount
    mb_userNoteCommitmentHex mb_userOwnerCommitmentHex mb_userOrderIdHex mb_userExpirySlot]; rewrite ?Eo, ?En; first [done|by split_and!].
Qed.
End mirror.

(** The token data decide how many atoms the text is: were they to arrive between
    the order and its match, the match would be asked for another size. *)
Lemma late_meta_changes_size p r m : p.(tf_tokenMeta) = None → p.(tf_baseAmount) = "0.000001" →
  r.(re_data) = Some m → r.(re_ok) && r.(re_json_ok) = true →
  meta_of m = Some {| tm_baseDecimals := 9%nat; tm_quoteDecimals := 9%nat; tm_exchangeQuotePerBaseAtomic := "100"; tm_orderPriceLimit := "100" |} →
  baseAtomsForCurrentInput p = Ok 1 ∧ baseAtomsForCurrentInput (meta_arrives r p) = Ok 1000.
Proof.
  intros Hn Ha Hr Hok Hm. split; [unfold baseAtomsForCurrentInput, baseDecimals; by rewrite Hn, Ha|]. unfold meta_arrives. rewrite Hr. cbn [mbind option_bind]. rewrite Hok, Hm.
  unfold baseAtomsForCurrentInput, baseDecimals. cbn [with_tokenMeta tf_baseAmount tf_tokenMeta fmap option_fmap option_map default tm_baseDecimals].
  rewrite Ha. reflexivity.
Qed.

(** ** A sample page, served by the sample servers *)

Module SampleTradePage.
Import SampleCounter.
#[export] Instance wallet_errors : WalletErrors := SamplePage.wallet_errors.

Definition session : DappSessionV1 := {|
  ss_phantomSignatureBase58 := Some SampleServer.signature; ss_ownerPubkeyBase58 := Some SampleServer.owner;
  ss_tradingSecretKeyBase58 := Some (toHex trading_secret);
  ss_publicData := Some {| sp_userCommitmentHex := None; sp_ownerCommitmentHex := Some (toHex (replicate 32 x07));
                           sp_ownerCommitmentDecimal := None; sp_rootKeyPubkeyBase58 := None |};
  ss_proof := None |}.
Definition storage : Storage () := {|
  sg_getItem _ := mret (Some (JSON_compact (session_json session))); sg_setItem _ _ := mret (); sg_removeItem _ := mret () |}.
Definition unused {A} : M () A := SamplePage.unused.

Definition page (submit : SubmitBody → M () (Reply SubmitAnswer)) (trade : MatchBody → M () (Reply MatchAnswer)) : Page () := {|
  pg_storage := storage; pg_wallet := SamplePage.wallet; pg_connection := SamplePage.connection;
  pg_prover := {| walletCreate_prove _ := unused; spend_prove _ := unused |};
  pg_now := unused; pg_micros := unused; pg_random16 := mret (replicate 16 x05); pg_slot := mret 400; pg_derive_identity _ := unused;
  pg_airdrop _ := unused; pg_balances _ := unused; pg_private_deposit _ := unused; pg_deposit_prepare _ := unused;
  pg_withdraw_prepare _ := unused; pg_trade_withdraw_prepare _ := unused; pg_withdraw_finalize _ := unused;
  pg_register_wallet _ := unused; pg_init_slot _ := unused; pg_build_submit_order := submit; pg_counter_and_match := trade;
  pg_er := SamplePage.connection |}.

Definition panel : TradePanel := {|
  tf_step := flow_deposited; tf_busy := false; tf_error := None; tf_slotIdx := Some 0; tf_baseAmount := "0.00001"; tf_depositNonce := "7";
  tf_tokenMeta := None; tf_depositNote := Some {| tn_commitmentHex := toHex user_note; tn_amount := "1000" |}; tf_orderCtx := None;
  tf_receipt := []; tf_balances := None |}.

(** The answers of the sample servers to the sample requests. *)
Definition answer_submit body : M () (Reply SubmitAnswer) := λ w,
  match @build_submit_order Toy.toy_crypto web3 base58 nacl key_ops _ (server None) (Ok body) [] with
  | (Ok a, _) => (Ok (reply_of a), w) | (Throw e, _) => (Throw e, w) end.
Definition answer_trade body : M () (Reply MatchAnswer) := λ w,
  match @counter_and_match Toy.toy_crypto Toy.toy_Poseidon web3 base58 nacl foreign_ix key_ops _ (server (Some results)) (Ok body) [] with
  | (Ok a, _) => (Ok (reply_of_counter a), w) | (Throw e, _) => (Throw e, w) end.

Lemma trader_text : @toBase58 web3 (SampleServer.key x12) = SampleServer.owner.
Proof. vm_compute. reflexivity. Qed.

Lemma trader_session submit trade w : @page_session web3 () (page submit trade) w = (Ok (Some session), w).
Proof.
  unfold page_session, connectedOwner. cbn [page pg_storage pg_wallet SamplePage.wallet wl_publicKey fmap option_fmap option_map].
  rewrite trader_text. erewrite session_for_owner by (reflexivity || discriminate).
  rewrite bool_decide_eq_true_2 by reflexivity. reflexivity.
Qed.

Lemma submit_answers : ∃ a ix, answer_submit submit_body tt = (Ok (reply_of (Sent a)), tt) ∧ @instructionFromJson base58 a.(sba_instruction) = Ok ix.
Proof.
  destruct sample_submit_runs as (a & w' & Hr). destruct (@build_submit_order_Ok _ _ _ _ _ _ _ _ _ _ _ Hr) as (_ & _ & _ & _ & _ & built & _ & _ & _ & Hj & _).
  exists a, built.(submit_ix). split; [unfold answer_submit; by rewrite Hr|]. rewrite Hj.
  apply (@instructionJson_roundtrip web3 base58 base58_laws).
Qed.
Lemma trading : ∃ tk, @trading_key base58 key_ops session.(ss_tradingSecretKeyBase58) = Ok tk.
Proof. eexists. vm_compute. reflexivity. Qed.
Lemma trade_answers : ∃ a, answer_trade match_body tt = (Ok (reply_of_counter (Counter_sent a)), tt).
Proof. destruct sample_counter_runs as (a & w' & Hr & _). exists a. unfold answer_trade. by rewrite Hr. Qed.

Lemma submits : served_by (λ _, True) (page answer_submit answer_trade).(pg_build_submit_order) (@build_submit_order Toy.toy_crypto web3 base58 nacl key_ops _ (server None)).
Proof.
  intros body u r u' Hr. change (answer_submit body u = (Ok r, u')) in Hr. unfold answer_submit in Hr.
  destruct (@build_submit_order Toy.toy_crypto web3 base58 nacl key_ops _ (server None) (Ok body) []) as [[a|e] x] eqn:E; [|discriminate Hr].
  exists [], a, x. split; [exact I|]. split; [exact E|]. by injection Hr as <- _.
Qed.

Lemma trades body v r v' : (page answer_submit answer_trade).(pg_counter_and_match) body v = (Ok r, v') → ∃ u a u',
  @counter_and_match Toy.toy_crypto Toy.toy_Poseidon web3 base58 nacl foreign_ix key_ops _ (server (Some results)) (Ok body) u = (Ok a, u') ∧
  r = reply_of_counter a.
Proof.
  intros Hr. change (answer_trade body v = (Ok r, v')) in Hr. unfold answer_trade in Hr.
  destruct (@counter_and_match Toy.toy_crypto Toy.toy_Poseidon web3 base58 nacl foreign_ix key_ops _ (server (Some results)) (Ok body) [])
    as [[a|e] x] eqn:E; [|discriminate Hr].
  exists [], a, x. split; [exact E|]. by injection Hr as <- _.
Qed.
End SampleTradePage.

Lemma sample_requests :
  order_request SampleTradePage.session SampleTradePage.panel 0 10 {| tn_commitmentHex := toHex SampleCounter.user_note; tn_amount := "1000" |}
    {| oc_orderIdHex := toHex (replicate 16 x05); oc_expirySlot := bigint_string (400 + 500) |}
    (Some (toHex (replicate 32 x07))) = SampleCounter.submit_body.
Proof. reflexivity. Qed.

(** Two clicks on the sample panel. *)
Lemma sample_trade_clicks :
  let page := SampleTradePage.page SampleTradePage.answer_submit SampleTradePage.answer_trade in
  let next := @nextAction SampleCounter.web3 SampleCounter.base58 SampleCounter.key_ops SampleTradePage.wallet_errors () page in
  ∃ q q2, next SampleTradePage.panel (SampleTradePage.panel, tt) = (Ok (), (q, tt)) ∧ q.(tf_step) = flow_order_er ∧
    next q (q, tt) = (Ok (), (q2, tt)) ∧ q2.(tf_step) = flow_matched.
Proof.
  intros page next. pose proof (SampleTradePage.trader_session SampleTradePage.answer_submit SampleTradePage.answer_trade) as Hses. fold page in Hses.
  destruct SampleTradePage.submit_answers as (ua & ix & Hua & Hix), SampleTradePage.trade_answers as (a & Ha).
  destruct SampleTradePage.trading as [tk Htk].
  destruct (@runSubmitOrderEr_runs SampleCounter.web3 SampleCounter.base58 SampleCounter.key_ops () page SampleTradePage.panel
    tt tt tt tt tt tt SampleTradePage.session 0 {| tn_commitmentHex := toHex SampleCounter.user_note; tn_amount := "1000" |} 10 tk 400
    (replicate 16 x05) (Some (toHex (replicate 32 x07))) ua ix "raw") as (q & Hrun1 & Hq & Hdata);
    [apply Hses|reflexivity|reflexivity|exact Htk|reflexivity|reflexivity|reflexivity|rewrite sample_requests; exact Hua|exact Hix|reflexivity|].
  unfold order_data in Hdata. injection Hdata as Ei Eb Em En Ex.
  assert (Hmr : match_request SampleTradePage.session q 0 10 {| oc_orderIdHex := toHex (replicate 16 x05); oc_expirySlot := "900" |}
    (Some (toHex (replicate 32 x07))) = SampleCounter.match_body).
  { unfold match_request, orderPriceLimitStr. rewrite Em, En. reflexivity. }
  destruct (@runCounterMatch_runs SampleCounter.web3 () page q tt tt tt SampleTradePage.session 0 10
    {| oc_orderIdHex := toHex (replicate 16 x05); oc_expirySlot := "900" |} (Some (toHex (replicate 32 x07))) a) as (q2 & v2 & Hrun2 & Hq2);
    [apply Hses|exact Ei|unfold order_ctx; rewrite Ex; reflexivity|unfold baseAtomsForCurrentInput, baseDecimals; rewrite Eb, Em; reflexivity
    |reflexivity|rewrite Hmr; exact Ha|].
  exists q, q2. destruct v2. split; [|split; [exact Hq|split; [|exact Hq2]]]; unfold next;
    rewrite (click_trade_session _ _ tt tt tt SampleTradePage.session) by apply Hses; unfold try_catch, run_step.
  - cbn [SampleTradePage.panel tf_step]. rewrite Hrun1. reflexivity.
  - rewrite Hq, Hrun2. reflexivity.
Qed.

Lemma trade_panel_mirrors_witness : ∃ sb mb ua a sig,
  same_trade_order sb mb ∧ sb.(sb_amount) = Some "10" ∧ sb.(sb_slotIdx) = Some 0 ∧
  answered SampleTradePage.answer_submit sb ua ∧ answered SampleTradePage.answer_trade mb a ∧
  ∃ trading ix, er_sent (SampleTradePage.page SampleTradePage.answer_submit SampleTradePage.answer_trade) trading ix sig.
Proof.
  set (page := SampleTradePage.page SampleTradePage.answer_submit SampleTradePage.answer_trade).
  pose proof (SampleTradePage.trader_session SampleTradePage.answer_submit SampleTradePage.answer_trade) as Hses. fold page in Hses.
  assert (Hst : @session_is SampleCounter.web3 () page SampleTradePage.session).
  { intros u s' u' Hr. rewrite Hses in Hr. by injection Hr as <- _. }
  assert (Hd : @distinct_discriminators Toy.toy_crypto (fst <$> matching_table))
    by (unfold distinct_discriminators; apply (bool_decide_unpack _); vm_compute; exact I).
  destruct sample_trade_clicks as (q & q2 & Hc1 & Hq & Hc2 & Hq2).
  destruct (@trade_panel_mirrors Toy.toy_crypto Toy.toy_crypto_laws Toy.toy_Poseidon SampleCounter.web3 SampleCounter.base58
    SampleCounter.base58_laws SampleCounter.nacl SampleCounter.foreign_ix SampleCounter.key_ops SampleTradePage.wallet_errors () _ _ page
    Toy.zero_key (SampleCounter.server None) (SampleCounter.server (Some SampleCounter.results)) SampleTradePage.session
    SampleTradePage.panel tt _ _ q tt _ _ Hd Hst SampleTradePage.submits SampleTradePage.trades eq_refl Hc1 Hq
    (@rtc_refl _ _ _) Hq Hc2 Hq2)
    as (i & size & price & note & amt & c & owner & ua' & a' & trading & ix & sig & Hso & Hua & Ha & _ & _ & Her & [= <-] & _ & Hsize & _).
  eexists _, _, ua', a', sig. split; [exact Hso|]. split; [|split; [reflexivity|split; [exact Hua|split; [exact Ha|by exists trading, ix]]]].
  assert (Hten : baseAtomsForCurrentInput SampleTradePage.panel = Ok 10) by reflexivity.
  rewrite Hsize in Hten. injection Hten as ->. reflexivity.
Defined.
