(* ===== verification/WithdrawPanel.v ===== *)
(** The panel that withdraws the base token of a trade
    ([apps/demo/src/components/dapp/trade-base-withdraw-panel.tsx]): the note the
    trade panel kept in the browser's storage, and its spend.  The theorem follows
    the note from the settlement to the wallet. *)

From Stdlib Require Import Ascii.
From stdpp Require Import gmap.
From S2P Require Import Prelude Bytes Errors Externals Keys Note Borsh VaultClient VaultProgram Settlement SettleProgram Merkle MerkleShadow.
From S2P Require Import VaultTree Client Deposit VaultState Withdraw Session DecimalText LeafHistory Decimals DemoText JsonText DemoKeys.
From S2P Require Import DemoChain AccountTypes Routes WalletRoutes TradeSettle MarketRound Confirmed OrderRoutes ServerKeys LiveFlow Identity.
From S2P Require Import TradeWithdraw DappSession PrivatePanel TradePanel.

Local Open Scope Z_scope.

(** ** The kept note *)

Record NoteTexts := {
  kt_matchId : option string; kt_leafIndex : option string; kt_amount : option string; kt_nonce : option string;
  kt_blindingR : option string; kt_commitmentHex : option string; kt_tokenMintBase58 : option string;
  kt_vaultLeafCountAfter : option string }.
Record StoredHint := { sh_tradeWithdrawBuyerBase : option NoteTexts; sh_ownerCommitmentHex : option string }.

Definition stored_of (j : Json) : StoredHint :=
  {| sh_tradeWithdrawBuyerBase := n ← jfield "tradeWithdrawBuyerBase" j;
       Some {| kt_matchId := jtext "matchId" n; kt_leafIndex := jtext "leafIndex" n; kt_amount := jtext "amount" n;
               kt_nonce := jtext "nonce" n; kt_blindingR := jtext "blindingR" n; kt_commitmentHex := jtext "commitmentHex" n;
               kt_tokenMintBase58 := jtext "tokenMintBase58" n; kt_vaultLeafCountAfter := jtext "vaultLeafCountAfter" n |};
     sh_ownerCommitmentHex := jtext "ownerCommitmentHex" j |}.

(** [raw ? JSON.parse(raw) : null] *)
Definition parse_hint (raw : option string) : option StoredHint :=
  text ← truthy raw; j ← JSON_read text; if json_truthy j then Some (stored_of j) else None.

(** ** The state *)

Inductive BaseStep := base_idle | base_proving | base_done.

Record BasePanel := {
  bp_stored : option StoredHint; bp_step : BaseStep; bp_busy : bool; bp_error : option string; bp_receipt : option string;
  bp_proverMs : option Z }.

Definition put_stored (x : option StoredHint) (p : BasePanel) : BasePanel :=
  {| bp_stored := x; bp_step := p.(bp_step); bp_busy := p.(bp_busy); bp_error := p.(bp_error); bp_receipt := p.(bp_receipt); bp_proverMs := p.(bp_proverMs) |}.
Definition put_step (x : BaseStep) (p : BasePanel) : BasePanel :=
  {| bp_stored := p.(bp_stored); bp_step := x; bp_busy := p.(bp_busy); bp_error := p.(bp_error); bp_receipt := p.(bp_receipt); bp_proverMs := p.(bp_proverMs) |}.
Definition put_busy (x : bool) (p : BasePanel) : BasePanel :=
  {| bp_stored := p.(bp_stored); bp_step := p.(bp_step); bp_busy := x; bp_error := p.(bp_error); bp_receipt := p.(bp_receipt); bp_proverMs := p.(bp_proverMs) |}.
Definition put_error (x : option string) (p : BasePanel) : BasePanel :=
  {| bp_stored := p.(bp_stored); bp_step := p.(bp_step); bp_busy := p.(bp_busy); bp_error := x; bp_receipt := p.(bp_receipt); bp_proverMs := p.(bp_proverMs) |}.
Definition put_receipt (x : option string) (p : BasePanel) : BasePanel :=
  {| bp_stored := p.(bp_stored); bp_step := p.(bp_step); bp_busy := p.(bp_busy); bp_error := p.(bp_error); bp_receipt := x; bp_proverMs := p.(bp_proverMs) |}.
Definition put_proverMs (x : option Z) (p : BasePanel) : BasePanel :=
  {| bp_stored := p.(bp_stored); bp_step := p.(bp_step); bp_busy := p.(bp_busy); bp_error := p.(bp_error); bp_receipt := p.(bp_receipt); bp_proverMs := x |}.

Section base.
Context `{Web3} `{Base58} `{WalletErrors} {W : Type} (page : Page W).
Implicit Types p : BasePanel.

(** [refresh]: storage that fails, or holds no JSON, is no note. *)
Definition base_refresh : M (BasePanel * W) () :=
  hint ← outside (try_catch (raw ← page.(pg_storage).(sg_getItem) NYX_TRADE_WITHDRAW_KEY; mret (parse_hint raw)) (λ _, mret None));
  setting (put_stored hint).

Definition clearHint : M (BasePanel * W) () :=
  _ ← outside (try_catch (page.(pg_storage).(sg_removeItem) NYX_TRADE_WITHDRAW_KEY) (λ _, mret ()));
  setting (λ p, put_error None (put_proverMs None (put_receipt None (put_step base_idle (put_stored None p))))).

(** [stored.tradeWithdrawBuyerBase] *)
Definition note_of (h : StoredHint) : res NoteTexts :=
  match h.(sh_tradeWithdrawBuyerBase) with
  | Some n => Ok n
  | None => Throw (TypeError "Cannot read properties of undefined (reading 'matchId')")
  end.

Definition spend_request (s : DappSessionV1) (h : StoredHint) (n : NoteTexts) : TradeWithdrawBody :=
  {| tw_phantomSignatureBase58 := s.(ss_phantomSignatureBase58); tw_ownerPubkeyBase58 := s.(ss_ownerPubkeyBase58);
     tw_ownerCommitmentHex := h.(sh_ownerCommitmentHex); tw_matchId := n.(kt_matchId);
     tw_tokenMintBase58 := n.(kt_tokenMintBase58); tw_amount := n.(kt_amount); tw_nonce := n.(kt_nonce);
     tw_blindingR := n.(kt_blindingR); tw_leafIndex := n.(kt_leafIndex); tw_commitmentHex := n.(kt_commitmentHex);
     tw_maxSignatures := None |}.

(** The body of the [try]; a note without its mint or amount has been refused by
    the server. *)
Definition spend_note (s : DappSessionV1) (h : StoredHint) : M (BasePanel * W) () :=
  n ← liftR (note_of h);
  prep ← outside (page.(pg_trade_withdraw_prepare) (spend_request s h n));
  prepJson ← liftR (required prep);
  _ ← setting (put_step base_proving);
  sig ← prove_and_send page (λ ms, put_proverMs (Some ms)) s (default "" n.(kt_tokenMintBase58)) (default "" n.(kt_amount))
          prepJson.(twa_spend);
  _ ← setting (put_receipt (Some sig));
  setting (put_step base_done).

(** The button, for a panel rendered as [p]; without a session or a note the click
    only throws. *)
Definition runBaseWithdraw p : M (BasePanel * W) () :=
  session ← outside (readDappSession page.(pg_storage));
  match session, p.(bp_stored) with
  | None, _ => throw (Error "Session missing — re-derive identity.")
  | Some _, None => throw (Error "Nothing to withdraw — complete trade step 5 first.")
  | Some s, Some h =>
      _ ← setting (put_busy true);
      _ ← setting (put_error None);
      _ ← try_catch (spend_note s h)
            (λ e, _ ← setting (put_error (Some (exn_message e))); setting (put_step base_idle));
      setting (put_busy false)
  end.

Definition base_button_disabled p : bool := p.(bp_busy) || match p.(bp_step) with base_done => true | _ => false end.
End base.

Lemma present_all ts : Forall (λ t, t ≠ EmptyString) ts → present (Some <$> ts) = Some ts.
Proof.
  unfold present. induction 1 as [|t ts Ht _ IH]; [done|]. cbn [fmap list_fmap mapM]. rewrite truthy_ne by exact Ht.
  cbn [mbind option_bind]. change (list_fmap _ _ Some ts) with (Some <$> ts). by rewrite IH.
Qed.

(** A finalize request with a valid signature and texts of the right sizes is
    answered. *)
Lemma withdraw_finalize_runs `{NodeCrypto} `{!NodeCryptoLaws} `{Web3} `{Base58} `{!Base58Laws} `{Nacl} `{ForeignIx} {T}
    (server : DemoServer T) conf programs sig own mint a c nf root (proof : Groth16ProofBytes) verified owner ata w w1 :
  sig ≠ EmptyString → own ≠ EmptyString → toBase58 mint ≠ EmptyString → 0 <= a →
  verifyPhantomSeedSignature sig own = Ok verified → server.(ds_config) w = (Ok conf, w1) → parseDemoPrograms conf = Ok programs →
  newPublicKey (Some own) = Ok owner → getAssociatedTokenAddress mint owner = Ok ata →
  length (hexToBytes c) = 32%nat → length (hexToBytes nf) = 32%nat → length (hexToBytes root) = 32%nat →
  c ≠ EmptyString → nf ≠ EmptyString → root ≠ EmptyString →
  length proof.(pb_piA) = 64%nat → length proof.(pb_piB) = 128%nat → length proof.(pb_piC) = 64%nat →
  ∃ ix, withdraw_finalize server (Ok
    {| fb_phantomSignatureBase58 := Some sig; fb_ownerPubkeyBase58 := Some own; fb_tokenMintBase58 := Some (toBase58 mint);
       fb_amount := Some (bigint_string a); fb_commitmentHex := Some c; fb_nullifierHex := Some nf; fb_merkleRootHex := Some root;
       fb_proof := Some {| fp_piA := Some (toHex proof.(pb_piA)); fp_piB := Some (toHex proof.(pb_piB));
                           fp_piC := Some (toHex proof.(pb_piC)) |} |}) w
    = (Ok (Sent {| fa_instruction := instructionToJson ix; fa_destAtaBase58 := toBase58 ata |}), w1).
Proof.
  intros Hs Ho Hm Ha Hver Hconf Hprog Hkey Hata Lc Ln Lr Nc Nn Nr La Lb Lp.
  assert (Np : ∀ b n, length b = S n → toHex b ≠ EmptyString) by (intros [|? ?] n E; [discriminate E|discriminate]).
  assert (Npa : toHex proof.(pb_piA) ≠ EmptyString) by (by eapply Np). assert (Npb : toHex proof.(pb_piB) ≠ EmptyString) by (by eapply Np).
  assert (Npc : toHex proof.(pb_piC) ≠ EmptyString) by (by eapply Np).
  set (p := {| wi_programId := programs.(vaultProgramId); wi_payer := owner; wi_tokenMint := mint; destinationTokenAccount := ata;
    wi_tokenProgramId := TOKEN_PROGRAM_ID; wi_noteCommitment := hexToBytes c; wi_nullifier := hexToBytes nf;
    merkleRoot := hexToBytes root; wi_amount := a;
    wi_proof := {| piA := hexToBytes (toHex proof.(pb_piA)); piB := hexToBytes (toHex proof.(pb_piB)); piC := hexToBytes (toHex proof.(pb_piC)) |} |}).
  pose proof (build_vault_total (CWithdraw p)) as Hb. cbn [call_sized build_vault] in Hb.
  destruct (buildWithdrawInstruction p) as [ix|] eqn:Hix; cycle 1.
  { discriminate Hb. cbn [p wi_noteCommitment wi_nullifier merkleRoot wi_proof]. unfold proof_sized. cbn [piA piB piC].
    rewrite !hexToBytes_toHex. by split_and!. }
  exists ix. apply route_Ok. rewrite M_bind_lift with (a := {| fb_phantomSignatureBase58 := _ |}) by reflexivity.
  match goal with |- context [finalize_fields ?b] => assert (Hf : finalize_fields b = Some [sig; own; toBase58 mint; bigint_string a; c; nf; root;
    toHex proof.(pb_piA); toHex proof.(pb_piB); toHex proof.(pb_piC)]) end.
  { apply (present_all [_; _; _; _; _; _; _; _; _; _]). repeat constructor; try assumption. by apply bigint_string_ne. }
  rewrite Hf.
  rewrite (M_bind_lift _ _ _ _ Hver), (M_bind_run _ _ _ _ _ Hconf), (M_bind_lift _ _ _ _ Hprog), (M_bind_lift _ _ _ _ Hkey),
    (M_bind_lift _ _ _ _ (newPublicKey_toBase58 mint)), (M_bind_lift _ _ _ _ Hata), (M_bind_lift _ _ _ _ (BigInt_text a Ha)).
  fold p. by rewrite (M_bind_lift _ _ _ _ Hix).
Qed.

(** ** What is kept is what is read *)

Definition texts_of (n : BuyerBaseNote) : NoteTexts :=
  {| kt_matchId := Some n.(bn_matchId); kt_leafIndex := Some n.(bn_leafIndex); kt_amount := Some n.(bn_amount);
     kt_nonce := Some n.(bn_nonce); kt_blindingR := Some n.(bn_blindingR); kt_commitmentHex := Some n.(bn_commitmentHex);
     kt_tokenMintBase58 := Some n.(bn_tokenMintBase58); kt_vaultLeafCountAfter := Some n.(bn_vaultLeafCountAfter) |}.
Definition hint_of (n : BuyerBaseNote) (ownerCommitmentHex : option string) : StoredHint :=
  {| sh_tradeWithdrawBuyerBase := Some (texts_of n); sh_ownerCommitmentHex := ownerCommitmentHex |}.

Lemma parse_kept n o : parse_hint (Some (JSON_compact (hint_json n o))) = Some (hint_of n o).
Proof.
  unfold parse_hint. assert (E : truthy (Some (JSON_compact (hint_json n o))) = Some (JSON_compact (hint_json n o))) by reflexivity.
  rewrite E. cbn [mbind option_bind]. rewrite compact_roundtrip.
  - cbn [mbind option_bind json_truthy hint_json]. by destruct n, o.
  - apply writable_obj, Forall_cons_2; [|apply writable_texts, text_member_texts]. cbn [snd]. apply writable_obj, writable_texts.
    repeat (apply Forall_cons_2; [by eexists|]). apply Forall_nil_2.
Qed.

Section panel.
Context `{NodeCrypto} `{!NodeCryptoLaws} `{Poseidon} `{!PoseidonLaws} `{Web3} `{Base58} `{!Base58Laws} `{Nacl} `{ForeignIx} `{WalletErrors}.
Context {W : Type} (page : Page W).

Lemma base_refresh_kept n o q v v' :
  page.(pg_storage).(sg_getItem) NYX_TRADE_WITHDRAW_KEY v = (Ok (Some (JSON_compact (hint_json n o))), v') →
  base_refresh page (q, v) = (Ok (), (put_stored (Some (hint_of n o)) q, v')).
Proof.
  intros Hg. unfold base_refresh.
  assert (Hr : try_catch (raw ← page.(pg_storage).(sg_getItem) NYX_TRADE_WITHDRAW_KEY; mret (parse_hint raw)) (λ _, mret None) v
    = (Ok (Some (hint_of n o)), v')).
  { unfold try_catch. rewrite (M_bind_run _ _ _ _ _ Hg). unfold mret, M_ret. by rewrite parse_kept. }
  by rewrite (M_bind_run _ _ _ _ _ (outside_run _ (q, v) _ _ Hr)).
Qed.

(** A click that ends in the last step. *)
Lemma runBaseWithdraw_done p v r c : p.(bp_step) ≠ base_done → runBaseWithdraw page p (p, v) = (r, c) → c.1.(bp_step) = base_done →
  ∃ s h n v1 ta inputs proof fin ix sig, readDappSession page.(pg_storage) v = (Ok (Some s), v1) ∧ p.(bp_stored) = Some h ∧
    note_of h = Ok n ∧
    (∃ w reply w', page.(pg_trade_withdraw_prepare) (spend_request s h n) w = (Ok reply, w') ∧ required reply = Ok ta) ∧
    spend_sent page s (default "" n.(kt_tokenMintBase58)) (default "" n.(kt_amount)) ta.(twa_spend) inputs proof fin ix sig ∧
    r = Ok () ∧ c.1.(bp_busy) = false ∧ c.1.(bp_receipt) = Some sig.
Proof.
  intros Hp Hr Hc. unfold runBaseWithdraw in Hr. unfold mbind, M_bind at 1 in Hr.
  destruct (outside (readDappSession (pg_storage page)) (p, v)) as [[session|e] w1] eqn:Hs; cycle 1.
  { injection Hr as _ <-. unfold outside in Hs. destruct (readDappSession _ _) in Hs. injection Hs as _ <-. done. }
  apply outside_Ok in Hs as [Hs Hw1]. cbn [fst snd] in Hs, Hw1.
  destruct session as [s|]; [|injection Hr as _ <-; rewrite Hw1 in Hc; done].
  destruct (bp_stored p) as [h|] eqn:Hh; [|injection Hr as _ <-; rewrite Hw1 in Hc; done].
  cbv beta iota delta [M_bind setting] in Hr. cbn [fst snd] in Hr.
  destruct (try_catch _ _ _) as [r2 w2] eqn:Ht in Hr. apply try_catch_inv in Ht as [([] & Hn & ->)|(e & w3 & Hn & He)]; cycle 1.
  { injection He as <- <-. injection Hr as _ <-. discriminate Hc. }
  injection Hr as <- <-. unfold spend_note in Hn. apply M_bind_Ok in Hn as (n & w3 & [Hnote ->]%liftR_inv & Hn).
  apply M_bind_Ok in Hn as (reply & w4 & [Hapi _]%outside_Ok & Hn). apply M_bind_Ok in Hn as (ta & w5 & [Hta ->]%liftR_inv & Hn).
  apply M_bind_Ok in Hn as ([] & ? & ->%setting_Ok & Hn).
  apply M_bind_Ok in Hn as (sig & w6 & (inputs & proof & fin & ix & ms & Hsent & _)%prove_and_send_Ok & Hn).
  apply M_bind_Ok in Hn as ([] & ? & ->%setting_Ok & Hn). apply setting_Ok in Hn as ->.
  exists s, h, n, w1.2, ta, inputs, proof, fin, ix, sig. split; [exact Hs|]. split; [done|]. split; [exact Hnote|].
  split; [by eexists _, reply, _|]. split; [exact Hsent|]. done.
Qed.

(** A handler whose steps all succeed. *)
Lemma runBaseWithdraw_runs p v v1 s h n v2 ta start v3 i proof v4 stop v5 fin v6 ix sig v7 :
  readDappSession page.(pg_storage) v = (Ok (Some s), v1) → p.(bp_stored) = Some h → note_of h = Ok n →
  page.(pg_trade_withdraw_prepare) (spend_request s h n) v1 = (Ok (reply_of (Sent ta)), v2) → page.(pg_micros) v2 = (Ok start, v3) →
  read_inputs ta.(twa_spend).(sa_proverInputs) = Some i → page.(pg_prover).(spend_prove) i v3 = (Ok proof, v4) →
  page.(pg_micros) v4 = (Ok stop, v5) →
  page.(pg_withdraw_finalize) (finalize_request s (default "" n.(kt_tokenMintBase58)) (default "" n.(kt_amount))
    ta.(twa_spend).(sa_ixContext) proof) v5 = (Ok (reply_of (Sent fin)), v6) →
  instructionFromJson fin.(fa_instruction) = Ok ix → forward page [ix] v6 = (Ok sig, v7) →
  ∃ q, runBaseWithdraw page p (p, v) = (Ok (), (q, v7)) ∧ q.(bp_step) = base_done.
Proof.
  intros Hs Hh Hn Hprep Hm Hi Hp Hm2 Hf Hix Hfw. unfold runBaseWithdraw.
  rewrite (M_bind_run _ _ _ _ _ (outside_run (readDappSession page.(pg_storage)) (p, v) _ _ Hs)), Hh. cbn [fst].
  do 2 (erewrite M_bind_run by reflexivity). cbn [fst snd].
  assert (Hrun : ∃ q, spend_note page s h (put_error None (put_busy true p), v1) = (Ok (), (q, v7)) ∧ q.(bp_step) = base_done).
  { unfold spend_note. rewrite (M_bind_lift _ _ _ _ Hn). erewrite M_bind_run by (apply outside_run; exact Hprep). cbn [fst snd].
    rewrite (M_bind_lift _ ta) by reflexivity. erewrite M_bind_run by reflexivity. cbn [fst snd].
    erewrite M_bind_run by (eapply prove_and_send_runs; eassumption). by eexists. }
  destruct Hrun as (q & Hq & Hd). erewrite M_bind_run by (unfold try_catch; rewrite Hq; reflexivity).
  by exists (put_busy false q).
Qed.
End panel.

(** ** From the settlement to the wallet *)

Section follow.
Context `{NodeCrypto} `{!NodeCryptoLaws} `{Poseidon} `{!PoseidonLaws} `{Web3} `{Base58} `{!Base58Laws} `{Nacl} `{ForeignIx} `{WalletErrors}.
Context {W S S' : Type}.
Implicit Types page : Page W.

(** A page whose server is this one. *)
Record withdraws_from page (server : DemoServer S') : Prop := {
  wf_prepare : served_by (λ _, True) page.(pg_trade_withdraw_prepare) (trade_withdraw_prepare server);
  wf_finalize : served_by (λ _, True) page.(pg_withdraw_finalize) (withdraw_finalize server) }.

Lemma base_click_withdraws page (ctx : TradeL1SettleContext S) (server : DemoServer S') programs signature owner verified out
    mr p noteC leafBefore usk lockA lockB ed settle sk ob verify_spend verify_wallet st s q v q1 v1 v2 r c :
  distinct_discriminators vault_handler_names → distinct_discriminators (fst <$> vault_table) →
  trade_ran ctx out mr p noteC leafBefore usk lockA lockB ed settle →
  verifyPhantomSeedSignature signature owner = Ok verified → signature ≠ EmptyString → owner ≠ EmptyString →
  ctx.(tc_baseMint) = programs.(baseMint) →
  deriveSpendingKey verified.(vf_seed) = Ok sk → deriveBlindingFactor verified.(vf_seed) 0 = Ok ob →
  noteC.(ownerCommitment_) = ownerCommitment sk ob → 0 < noteC.(amount) →
  settled_on verify_spend verify_wallet server programs settle leafBefore st → withdraws_from page server →
  page.(pg_storage).(sg_getItem) NYX_TRADE_WITHDRAW_KEY v
    = (Ok (Some (JSON_compact (hint_json out.(tr_buyerBaseNote) (Some (toHex (be_bytes 32 (ownerCommitment sk ob))))))), v1) →
  base_refresh page (q, v) = (Ok (), (q1, v1)) → q.(bp_step) ≠ base_done →
  readDappSession page.(pg_storage) v1 = (Ok (Some s), v2) →
  s.(ss_phantomSignatureBase58) = Some signature → s.(ss_ownerPubkeyBase58) = Some owner →
  runBaseWithdraw page q1 (q1, v1) = (r, c) → c.1.(bp_step) = base_done →
  r = Ok () ∧ panel_withdrew page programs.(vaultProgramId) programs.(baseMint) st.(vs_config) noteC sk p.(mp_noteC).
Proof.
  intros Hdist Hd Hr Hver Hs Ho Hmint Hsk Hob Hown Hpos Hon [Hprep Hfin] Hget Href Hq Hses Esig Eown Hrun Hdone.
  rewrite (base_refresh_kept page _ _ _ _ _ Hget) in Href. apply pair_eq in Href as [_ Href]. apply pair_eq in Href as [<- _].
  destruct (runBaseWithdraw_done page (put_stored _ q) _ _ _ Hq Hrun Hdone)
    as (s' & h & n & u & ta & inputs & proof & fin & ix & sig & Hses' & Hh & Hn & (w & reply & w' & Hreq & Hta) & Hsent & Hok & _).
  rewrite Hses in Hses'. apply pair_eq in Hses' as [Hses' _]. apply Ok_inj in Hses'. injection Hses' as <-.
  injection Hh as <-. unfold note_of in Hn. cbn [hint_of sh_tradeWithdrawBuyerBase] in Hn. apply Ok_inj in Hn as <-.
  split; [exact Hok|]. destruct (served_sent _ _ _ _ _ _ _ _ Hprep Hreq Hta) as (x & x' & _ & Hhandled).
  destruct (settled_note_runs ctx server programs signature owner verified out mr p noteC leafBefore usk lockA lockB ed settle sk ob
    verify_spend verify_wallet st x Hdist Hr Hver Hs Ho Hmint Hsk Hob Hown Hpos Hon) as (ans & y & Hans & _ & Hsp).
  assert (Hsame : trade_withdraw_prepare server (Ok (trade_request signature owner (toHex (be_bytes 32 (ownerCommitment sk ob)))
      out.(tr_buyerBaseNote))) x = (Ok (Sent ta), x')).
  { revert Hhandled. unfold spend_request, trade_request. rewrite Esig, Eown. exact id. }
  rewrite Hans in Hsame. apply pair_eq in Hsame as [Hsame _]. apply Ok_inj in Hsame. injection Hsame as <-.
  destruct (settled_on_wf _ _ _ _ _ _ _ Hon) as (disc & bump & l & _ & _ & Hserve).
  destruct (reported_texts _ _ _ _ _ _ _ _ _ _ _ Hr Hpos) as (_ & Hu & Htexts).
  eapply (finalized_sends page server programs); [exact Hd|eapply serves_configured; exact Hserve|exact Hfin|exact Hsent| |lia|exact Hsp].
  cbn [texts_of kt_amount default]. apply Htexts.
Qed.

End follow.

(** ** A sample page: the sample trade's buyer *)

Module SampleBasePage.
Import SampleServer.
#[export] Instance wallet_errors : WalletErrors := SamplePage.wallet_errors.

Definition storage (hint : string) : Storage () := {|
  sg_getItem k := mret (Some (if String.eqb k NYX_TRADE_WITHDRAW_KEY then hint else JSON_compact (session_json SamplePage.session)));
  sg_setItem _ _ := mret (); sg_removeItem _ := mret () |}.
Definition proof : Groth16ProofBytes := {|
  pb_piA := replicate 64 x01; pb_piB := replicate 128 x02; pb_piC := replicate 64 x03; publicInputs := [] |}.
Definition unused {A} : M () A := SamplePage.unused.

Definition page (hint : string) (prepare : TradeWithdrawBody → M () (Reply TradeWithdrawAnswer))
    (finalize : WithdrawFinalizeBody → M () (Reply WithdrawFinalizeAnswer)) : Page () := {|
  pg_storage := storage hint; pg_wallet := SamplePage.wallet; pg_connection := SamplePage.connection;
  pg_prover := {| walletCreate_prove _ := unused; spend_prove _ := mret proof |};
  pg_now := unused; pg_micros := mret 4; pg_random16 := unused; pg_slot := unused; pg_derive_identity _ := unused;
  pg_airdrop _ := unused; pg_balances _ := unused; pg_private_deposit _ := unused; pg_deposit_prepare _ := unused;
  pg_withdraw_prepare _ := unused; pg_trade_withdraw_prepare := prepare; pg_withdraw_finalize := finalize;
  pg_register_wallet _ := unused; pg_init_slot _ := unused; pg_build_submit_order _ := unused; pg_counter_and_match _ := unused;
  pg_er := SamplePage.connection |}.

Definition panel : BasePanel := {|
  bp_stored := None; bp_step := base_idle; bp_busy := false; bp_error := None; bp_receipt := None; bp_proverMs := None |}.

(** The answers of a handler, as they arrive. *)
Definition answering {A B} (handler : res B → M () (Answer A)) (body : B) : M () (Reply A) := λ w,
  match handler (Ok body) tt with (Ok a, _) => (Ok (reply_of a), w) | (Throw e, _) => (Throw e, w) end.

Lemma answering_served {A B} (handler : res B → M () (Answer A)) : @served_by () _ _ _ (λ _, True) (answering handler) handler.
Proof.
  intros body u r u' Hr. unfold answering in Hr. destruct (handler (Ok body) tt) as [[a|e] x] eqn:E; [|discriminate Hr].
  exists tt, a, x. split; [exact I|]. split; [exact E|]. by injection Hr as <- _.
Qed.

Lemma answering_sent {A B} (handler : res B → M () (Answer A)) body a x w :
  handler (Ok body) tt = (Ok (Sent a), x) → answering handler body w = (Ok (reply_of (Sent a)), w).
Proof. intros Hr. unfold answering. by rewrite Hr. Qed.

Lemma reads_session hint prepare finalize w :
  readDappSession (page hint prepare finalize).(pg_storage) w = (Ok (Some SamplePage.session), w).
Proof.
  unfold readDappSession, try_catch. erewrite M_bind_run by reflexivity. unfold mret, M_ret.
  assert (Hk : String.eqb NYX_DAPP_SESSION_KEY NYX_TRADE_WITHDRAW_KEY = false) by reflexivity. rewrite Hk. by rewrite parse_written.
Qed.

Lemma owner_key : @newPublicKey base58 (Some owner) = Ok (key x12).
Proof. vm_compute. reflexivity. Qed.

Lemma configured data history w : (server data history).(ds_config) w = (Ok config, w).
Proof. reflexivity. Qed.

Lemma reads_hint hint prepare finalize w :
  (page hint prepare finalize).(pg_storage).(sg_getItem) NYX_TRADE_WITHDRAW_KEY w = (Ok (Some hint), w).
Proof. reflexivity. Qed.
End SampleBasePage.

