(* ===== verification/IdentityPanel.v ===== *)
(** The identity panel
    ([apps/demo/src/components/dapp/wallet-identity-panel.tsx]): the run from the
    wallet's signature to the stored session, and the reset.  The theorem says that
    the session it stores is one the server registers. *)

From Stdlib Require Import Ascii.
From stdpp Require Import gmap.
From S2P Require Import Prelude Bytes Errors Externals Keys Note Borsh VaultClient VaultProgram Settlement SettleProgram Merkle.
From S2P Require Import VaultTree Client Deposit VaultState Withdraw Session DecimalText LeafHistory Decimals DemoText JsonText DemoKeys.
From S2P Require Import DemoChain Routes WalletRoutes OrderRoutes ServerKeys Identity DappSession PrivatePanel TradePanel.

Local Open Scope Z_scope.

(** ** The state *)

Inductive IdentityPhase := id_idle | id_signing | id_deriving | id_proving | id_airdropping | id_ready | id_error.

Record ProofPreview := {
  pv_piAHex : string; pv_piBHex : string; pv_piCHex : string; pv_publicInputCount : nat; pv_durationMs : Z }.
Record AirdropPreview := {
  av_signature : string; av_baseAmount : string; av_quoteAmount : string; av_baseAta : string; av_quoteAta : string }.
Record IdentityState := {
  is_ownerPubkey : string; is_signatureBase58 : string; is_derived : IdentityAnswer; is_proof : ProofPreview;
  is_airdrop : option AirdropPreview; is_airdropError : option string }.

Record IdentityPanel := {
  ip_phase : IdentityPhase; ip_error : option string; ip_identity : option IdentityState; ip_mintDecimals : nat * nat }.

Definition to_phase (x : IdentityPhase) (p : IdentityPanel) : IdentityPanel :=
  {| ip_phase := x; ip_error := p.(ip_error); ip_identity := p.(ip_identity); ip_mintDecimals := p.(ip_mintDecimals) |}.
Definition to_error (x : option string) (p : IdentityPanel) : IdentityPanel :=
  {| ip_phase := p.(ip_phase); ip_error := x; ip_identity := p.(ip_identity); ip_mintDecimals := p.(ip_mintDecimals) |}.
Definition to_identity (x : option IdentityState) (p : IdentityPanel) : IdentityPanel :=
  {| ip_phase := p.(ip_phase); ip_error := p.(ip_error); ip_identity := x; ip_mintDecimals := p.(ip_mintDecimals) |}.

(** The effect that asks for the decimals of the mints. *)
Definition decimals_arrive (r : Reply TokenMetaAnswer) (p : IdentityPanel) : IdentityPanel :=
  match (a ← r.(re_data); if r.(re_ok) && r.(re_json_ok) then
           (base ← number_of a.(ta_baseDecimals); quote ← number_of a.(ta_quoteDecimals); Some (base, quote)) else None) with
  | Some m => {| ip_phase := p.(ip_phase); ip_error := p.(ip_error); ip_identity := p.(ip_identity); ip_mintDecimals := m |}
  | None => p
  end.

(** [formatAirdropAtoms] of a text. *)
Definition formatAirdropAtoms (atoms : string) (decimals : nat) : string :=
  match BigInt atoms with Ok a => formatAtoms a decimals | Throw _ => atoms end.

Definition shortenHex (hex : string) : string :=
  if (String.length hex <=? 10 + 8 + 1)%nat then hex
  else String.substring 0 10 hex +:+ "…" +:+ String.substring (String.length hex - 8) 8 hex.

Definition SEED_MESSAGE_TEXT : string := "NYX_DARKPOOL_SEED_V1".

Section identity.
Context `{NodeCrypto} `{Poseidon} `{Web3} `{Base58Encode} {W : Type} (page : Page W).
Implicit Types p : IdentityPanel.

(** [res.text()] of a refused response. *)
Variable response_text : Reply IdentityAnswer → M W string.

(** The texts for the prover, read by [BigInt]. *)
Definition wallet_inputs (t : WalletCreateTexts) : res WalletCreateInputs :=
  match read_create t with Some i => Ok i | None => Throw (EError "SyntaxError" "Cannot convert to a BigInt") end.

(** The server's answer: refused, not [ok], or usable. *)
Definition derived_reply (reply : Reply IdentityAnswer) : M W IdentityAnswer :=
  if negb reply.(re_ok) then
    text ← try_catch (response_text reply) (λ _, mret "");
    throw (Error ("derive-identity HTTP " +:+ bigint_string reply.(re_status) +:+ ": " +:+ String.substring 0 200 text))
  else if negb reply.(re_json_ok) then throw (Error "derive-identity returned ok: false")
  else match reply.(re_data) with
       | Some derived => mret derived
       | None => throw (TypeError "Cannot read properties of undefined (reading 'userCommitment')")
       end.

(** The public input of the proof is the commitment the server computed. *)
Definition drift_check (proof : Groth16ProofBytes) (derived : IdentityAnswer) : res () :=
  match proof.(publicInputs) with
  | [] => Throw (TypeError "undefined is not iterable")
  | c :: _ =>
      throw_if (negb (bool_decide (toHex c = derived.(ia_publicData).(pd_userCommitmentHex))))
        (Error ("userCommitment drift: server=" +:+ derived.(ia_publicData).(pd_userCommitmentHex) +:+ " circuit=" +:+ toHex c))
  end.

Definition new_session (signatureBase58 owner : string) (derived : IdentityAnswer) (proof : Groth16ProofBytes) : DappSessionV1 :=
  {| ss_phantomSignatureBase58 := Some signatureBase58; ss_ownerPubkeyBase58 := Some owner;
     ss_tradingSecretKeyBase58 := Some derived.(ia_tradingSecretKeyBase58);
     ss_publicData := Some
       {| sp_userCommitmentHex := Some derived.(ia_publicData).(pd_userCommitmentHex);
          sp_ownerCommitmentHex := Some derived.(ia_publicData).(pd_ownerCommitmentHex);
          sp_ownerCommitmentDecimal := Some derived.(ia_ownerCommitmentDecimal);
          sp_rootKeyPubkeyBase58 := Some derived.(ia_rootKeyPubkeyBase58) |};
     ss_proof := Some {| rp_piAHex := Some (toHex proof.(pb_piA)); rp_piBHex := Some (toHex proof.(pb_piB));
                         rp_piCHex := Some (toHex proof.(pb_piC)) |} |}.

(** Storage that fails is ignored. *)
Definition store_session (s : DappSessionV1) : M W () :=
  try_catch (page.(pg_storage).(sg_setItem) NYX_DAPP_SESSION_KEY (JSON_compact (session_json s))) (λ _, mret ()).

(** The airdrop: its preview, or what went wrong. *)
Definition run_airdrop (signatureBase58 owner : string) : M W (option AirdropPreview * option string) :=
  try_catch
    (reply ← page.(pg_airdrop) {| ab_phantomSignatureBase58 := Some signatureBase58; ab_ownerPubkeyBase58 := Some owner;
                                   ab_baseAmount := None; ab_quoteAmount := None |};
     mret (match required reply with
           | Ok a => (Some {| av_signature := a.(aa_signature); av_baseAmount := a.(aa_baseAmount);
                              av_quoteAmount := a.(aa_quoteAmount); av_baseAta := a.(aa_baseAta);
                              av_quoteAta := a.(aa_quoteAta) |}, None)
           | Throw e => (None, Some (exn_message e))
           end))
    (λ e, mret (None, Some (exn_message e))).

(** The body of the [try]. *)
Definition derive_and_store (key : PublicKey) (signMessage : bytes → M W bytes) : M (IdentityPanel * W) () :=
  _ ← setting (to_phase id_signing);
  sig ← outside (signMessage (ascii_bytes SEED_MESSAGE_TEXT));
  let signatureBase58 := bs58_encode sig in
  let owner := toBase58 key in
  _ ← setting (to_phase id_deriving);
  reply ← outside (page.(pg_derive_identity) {| di_phantomSignatureBase58 := Some signatureBase58; di_ownerPubkeyBase58 := Some owner |});
  derived ← outside (derived_reply reply);
  _ ← setting (to_phase id_proving);
  t0 ← outside page.(pg_micros);
  inputs ← liftR (wallet_inputs derived.(ia_walletCreateInputs));
  proof ← outside (page.(pg_prover).(walletCreate_prove) inputs);
  t1 ← outside page.(pg_micros);
  _ ← liftR (drift_check proof derived);
  let preview := {| pv_piAHex := toHex proof.(pb_piA); pv_piBHex := toHex proof.(pb_piB); pv_piCHex := toHex proof.(pb_piC);
                    pv_publicInputCount := length proof.(publicInputs); pv_durationMs := rounded_ms t0 t1 |} in
  _ ← outside (store_session (new_session signatureBase58 owner derived proof));
  _ ← setting (to_phase id_airdropping);
  '(airdrop, airdropError) ← outside (run_airdrop signatureBase58 owner);
  _ ← setting (to_identity (Some {| is_ownerPubkey := owner; is_signatureBase58 := signatureBase58; is_derived := derived;
                                    is_proof := preview; is_airdrop := airdrop; is_airdropError := airdropError |}));
  setting (to_phase id_ready).

Definition run_identity : M (IdentityPanel * W) () :=
  match page.(pg_wallet).(wl_publicKey), page.(pg_wallet).(wl_signMessage) with
  | Some key, Some signMessage =>
      _ ← setting (to_error None);
      _ ← setting (to_identity None);
      try_catch (derive_and_store key signMessage)
        (λ e, _ ← setting (to_error (Some (exn_message e))); setting (to_phase id_error))
  | _, _ =>
      _ ← setting (to_error (Some "Connected wallet does not support signMessage. Try Phantom on devnet."));
      setting (to_phase id_error)
  end.

Definition reset_identity : M (IdentityPanel * W) () :=
  _ ← setting (to_identity None);
  _ ← setting (to_phase id_idle);
  _ ← setting (to_error None);
  outside (try_catch (page.(pg_storage).(sg_removeItem) NYX_DAPP_SESSION_KEY) (λ _, mret ())).

Definition identity_button_disabled p : bool :=
  match p.(ip_phase) with id_signing | id_deriving | id_proving | id_airdropping => true | _ => false end.
End identity.

(** ** What a finished run stored *)

Section stored.
Context `{NodeCrypto} `{!NodeCryptoLaws} `{Poseidon} `{!PoseidonLaws} `{Web3} `{Base58} `{!Base58Laws} `{Base58Encode} `{Nacl} `{ForeignIx}
  `{KeyOps} `{!SeedKeyLaws}.
Context {W S : Type} (page : Page W) (response_text : Reply IdentityAnswer → M W string).

(** A run that ended ready: the wallet's key and signature, the server's answer,
    the prover's proof. *)
Record identity_ran (key : PublicKey) (sig : bytes) (ans : IdentityAnswer) (i : WalletCreateInputs) (proof : Groth16ProofBytes) : Prop := {
  ir_wallet : page.(pg_wallet).(wl_publicKey) = Some key ∧ ∃ sign v v', page.(pg_wallet).(wl_signMessage) = Some sign ∧
    sign (ascii_bytes SEED_MESSAGE_TEXT) v = (Ok sig, v');
  ir_derived : ∃ v reply v', page.(pg_derive_identity)
      {| di_phantomSignatureBase58 := Some (bs58_encode sig); di_ownerPubkeyBase58 := Some (toBase58 key) |} v = (Ok reply, v') ∧
    reply.(re_ok) = true ∧ reply.(re_json_ok) = true ∧ reply.(re_data) = Some ans;
  ir_proved : read_create ans.(ia_walletCreateInputs) = Some i ∧ ∃ v v', page.(pg_prover).(walletCreate_prove) i v = (Ok proof, v');
  ir_checked : ∃ c cs, proof.(publicInputs) = c :: cs ∧ toHex c = ans.(ia_publicData).(pd_userCommitmentHex);
  ir_stored : ∃ v r v', page.(pg_storage).(sg_setItem) NYX_DAPP_SESSION_KEY
      (JSON_compact (session_json (new_session (bs58_encode sig) (toBase58 key) ans proof))) v = (r, v') }.

Lemma derived_reply_Ok reply v a v' : derived_reply response_text reply v = (Ok a, v') →
  reply.(re_ok) = true ∧ reply.(re_json_ok) = true ∧ reply.(re_data) = Some a.
Proof.
  unfold derived_reply. destruct (re_ok reply); cbn [negb]; [|intros Hr; apply M_bind_Ok in Hr as (t & w & _ & Hr); discriminate Hr].
  destruct (re_json_ok reply); cbn [negb]; [|discriminate]. destruct (re_data reply) as [d|]; [|discriminate]. by intros [= -> _].
Qed.

Lemma run_identity_ready p v r c : run_identity page response_text (p, v) = (r, c) → c.1.(ip_phase) = id_ready →
  ∃ key sig ans i proof, identity_ran key sig ans i proof.
Proof.
  unfold run_identity. destruct (wl_publicKey _) as [key|] eqn:Hkey; [|by intros [= _ <-]].
  destruct (wl_signMessage _) as [sign|] eqn:Hsign; [|by intros [= _ <-]]. intros Hr Hc.
  cbv beta iota delta [mbind M_bind setting] in Hr. cbn [fst snd] in Hr.
  apply try_catch_inv in Hr as [(u & Hr & _)|(e & w3 & _ & He)]; [|injection He as _ <-; discriminate Hc].
  unfold derive_and_store in Hr. apply M_bind_Ok in Hr as ([] & ? & ->%setting_Ok & Hr).
  apply M_bind_Ok in Hr as (sig & w1 & [Hsig _]%outside_Ok & Hr). cbv zeta in Hr.
  apply M_bind_Ok in Hr as ([] & ? & ->%setting_Ok & Hr). apply M_bind_Ok in Hr as (reply & w2 & [Hreq _]%outside_Ok & Hr).
  apply M_bind_Ok in Hr as (ans & w3 & [Hans _]%outside_Ok & Hr). apply derived_reply_Ok in Hans.
  apply M_bind_Ok in Hr as ([] & ? & ->%setting_Ok & Hr). apply M_bind_Ok in Hr as (t0 & w4 & _ & Hr).
  apply M_bind_Ok in Hr as (i & w5 & [Hi ->]%liftR_inv & Hr). apply M_bind_Ok in Hr as (proof & w6 & [Hp _]%outside_Ok & Hr).
  apply M_bind_Ok in Hr as (t1 & w7 & _ & Hr). apply M_bind_Ok in Hr as ([] & w8 & [Hd ->]%liftR_inv & Hr).
  apply M_bind_Ok in Hr as ([] & w9 & [Hst _]%outside_Ok & _).
  exists key, sig, ans, i, proof. split.
  - split; [exact Hkey|]. by eexists sign, _, _.
  - by eexists _, reply, _.
  - split; [|by eexists _, _]. unfold wallet_inputs in Hi. destruct (read_create _); [by injection Hi as ->|discriminate Hi].
  - unfold drift_check in Hd. destruct (publicInputs proof) as [|x xs]; [discriminate Hd|]. apply throw_if_Ok in Hd.
    apply negb_false_iff, bool_decide_eq_true in Hd. by exists x, xs.
  - unfold store_session, try_catch in Hst. destruct (sg_setItem _ _ _ _) as [x y] eqn:E in Hst. by eexists _, x, y.
Qed.

(** A run whose steps all succeed. *)
Lemma run_identity_runs p key sign sig ans i proof c cs v v1 v2 t0 v3 v4 t1 v5 :
  page.(pg_wallet).(wl_publicKey) = Some key → page.(pg_wallet).(wl_signMessage) = Some sign →
  sign (ascii_bytes SEED_MESSAGE_TEXT) v = (Ok sig, v1) →
  page.(pg_derive_identity) {| di_phantomSignatureBase58 := Some (bs58_encode sig); di_ownerPubkeyBase58 := Some (toBase58 key) |} v1
    = (Ok (reply_of (Sent ans)), v2) →
  page.(pg_micros) v2 = (Ok t0, v3) → read_create ans.(ia_walletCreateInputs) = Some i →
  page.(pg_prover).(walletCreate_prove) i v3 = (Ok proof, v4) → page.(pg_micros) v4 = (Ok t1, v5) →
  proof.(publicInputs) = c :: cs → toHex c = ans.(ia_publicData).(pd_userCommitmentHex) →
  ∃ q v6, run_identity page response_text (p, v) = (Ok (), (q, v6)) ∧ q.(ip_phase) = id_ready.
Proof.
  intros Hkey Hsign Hsig Hreq Hm Hi Hp Hm2 Hpub Hhex. unfold run_identity. rewrite Hkey, Hsign. do 2 (erewrite M_bind_run by reflexivity).
  assert (Hrun : ∃ q v6, derive_and_store page response_text key sign (to_identity None (to_error None p), v) = (Ok (), (q, v6)) ∧
    q.(ip_phase) = id_ready); [|destruct Hrun as (q & v6 & Hq & Hr); exists q, v6; split; [unfold try_catch; cbn [fst snd]; by rewrite Hq|exact Hr]].
  unfold derive_and_store. erewrite M_bind_run by reflexivity. cbn [fst snd]. erewrite M_bind_run by (apply outside_run; exact Hsig).
  cbv zeta. cbn [fst snd]. erewrite M_bind_run by reflexivity. cbn [fst snd]. erewrite M_bind_run by (apply outside_run; exact Hreq).
  cbn [fst snd]. erewrite M_bind_run by (apply outside_run; reflexivity). cbn [fst snd]. erewrite M_bind_run by reflexivity. cbn [fst snd].
  erewrite M_bind_run by (apply outside_run; exact Hm). rewrite (M_bind_lift _ i) by (unfold wallet_inputs; by rewrite Hi). cbn [fst snd].
  erewrite M_bind_run by (apply outside_run; exact Hp). cbn [fst snd]. erewrite M_bind_run by (apply outside_run; exact Hm2).
  rewrite (M_bind_lift _ ()) by (unfold drift_check; rewrite Hpub, Hhex, bool_decide_eq_true_2 by reflexivity; reflexivity). cbn [fst snd].
  set (s := new_session _ _ _ _). assert (Hst : ∃ v6, store_session page s v5 = (Ok (), v6)).
  { unfold store_session, try_catch. destruct (sg_setItem _ _ _ _) as [[[]|e] v6]; by exists v6. }
  destruct Hst as [v6 Hst]. erewrite M_bind_run by (apply outside_run; exact Hst). cbn [fst snd]. erewrite M_bind_run by reflexivity.
  assert (Ha : ∃ a v7, run_airdrop page (bs58_encode sig) (toBase58 key) v6 = (Ok a, v7)).
  { unfold run_airdrop, try_catch. match goal with |- context [match ?m v6 with _ => _ end] => destruct (m v6) as [[a|e] v7] end; by eexists _, v7. }
  destruct Ha as ([a e] & v7 & Ha). cbn [fst snd]. erewrite M_bind_run by (apply outside_run; exact Ha). by eexists _, v7.
Qed.

Lemma derive_identity_sent sig own ans :
  derive_identity (Ok {| di_phantomSignatureBase58 := Some sig; di_ownerPubkeyBase58 := Some own |}) = Ok (Sent ans) →
  sig ≠ "" ∧ own ≠ "" ∧ ∃ v, verifyPhantomSeedSignature sig own = Ok v.
Proof.
  unfold derive_identity. cbn [di_phantomSignatureBase58 di_ownerPubkeyBase58]. intros Hr.
  destruct sig as [|a sig]; [discriminate Hr|]. destruct own as [|b own]; [discriminate Hr|].
  change (present [Some (String a sig); Some (String b own)]) with (Some [String a sig; String b own]) in Hr. cbv iota in Hr.
  destruct (verifyPhantomSeedSignature _ _) as [v|e]; [|discriminate Hr]. split_and!; [done..|]. by exists v.
Qed.

(** [sessionStorage]: what was set is there to get. *)
Definition keeps_items (storage : Storage W) : Prop :=
  ∀ k text v v', storage.(sg_setItem) k text v = (Ok (), v') → storage.(sg_getItem) k v' = (Ok (Some text), v').

End stored.

(** ** A sample page, with a storage that keeps its items *)

Module SampleIdentityPage.
Import SampleServer.

Definition World : Type := string → option string.
Definition storage : Storage World := {|
  sg_getItem k w := (Ok (w k), w);
  sg_setItem k text w := (Ok (), λ k', if String.eqb k' k then Some text else w k');
  sg_removeItem k w := (Ok (), λ k', if String.eqb k' k then None else w k') |}.
Definition connection : PageConnection World := {|
  pc_getLatestBlockhash := mret ("hash", 9); pc_simulateTransaction _ := mret {| sim_err := None; sim_logs := None |};
  pc_confirmTransaction _ _ _ := mret (); pc_sendRawTransaction _ _ := mret "raw" |}.
Definition unused {A} : M World A := throw (Error "not used").

(** The proof for the public input [c]. *)
Definition proof (c : bytes) : Groth16ProofBytes := {|
  pb_piA := replicate 64 x01; pb_piB := replicate 128 x02; pb_piC := replicate 64 x03; publicInputs := [c] |}.

Definition derive (body : DeriveIdentityRequest) : M World (Reply IdentityAnswer) := λ w,
  match @derive_identity Toy.toy_crypto Toy.toy_Poseidon base58 SampleIdentity.encode nacl SampleCounter.key_ops (Ok body) with
  | Ok a => (Ok (reply_of a), w) | Throw e => (Throw e, w) end.

Definition page (c : bytes) : Page World := {|
  pg_storage := storage;
  pg_wallet := {| wl_publicKey := Some (key x12); wl_sendTransaction := None; wl_signMessage := Some (λ _, mret (replicate 64 x11)) |};
  pg_connection := connection;
  pg_prover := {| walletCreate_prove _ := mret (proof c); spend_prove _ := unused |};
  pg_now := unused; pg_micros := mret 4; pg_random16 := unused; pg_slot := unused; pg_derive_identity := derive;
  pg_airdrop _ := unused; pg_balances _ := unused; pg_private_deposit _ := unused; pg_deposit_prepare _ := unused;
  pg_withdraw_prepare _ := unused; pg_trade_withdraw_prepare _ := unused; pg_withdraw_finalize _ := unused;
  pg_register_wallet _ := unused; pg_init_slot _ := unused; pg_build_submit_order _ := unused; pg_counter_and_match _ := unused;
  pg_er := connection |}.

Definition panel : IdentityPanel := {| ip_phase := id_idle; ip_error := None; ip_identity := None; ip_mintDecimals := (6%nat, 6%nat) |}.

Lemma storage_keeps : keeps_items storage.
Proof. intros k text v v' [= <-]. cbn [storage sg_getItem]. by rewrite String.eqb_refl. Qed.

Lemma wallet_text : @toBase58 web3 (key x12) = owner.
Proof. vm_compute. reflexivity. Qed.

Lemma derive_served c body x r x' : (page c).(pg_derive_identity) body x = (Ok r, x') →
  ∃ a, @derive_identity Toy.toy_crypto Toy.toy_Poseidon base58 SampleIdentity.encode nacl SampleCounter.key_ops (Ok body) = Ok a ∧ r = reply_of a.
Proof.
  cbn [page pg_derive_identity]. unfold derive. destruct (derive_identity (Ok body)) as [a|e] eqn:E; [|discriminate].
  intros [= <- _]. by exists a.
Qed.
End SampleIdentityPage.

